(* ===== verification/_CoqProject ===== *)
-Q . S2P
Prelude.v
StdMap.v
TrackAllocator.v
BlockDevice.v
Backend.v
MetaFs.v
KvimrState.v
Snapshot.v
Rmw.v
RmwSpec.v
RmwEquiv.v
Kvimr.v
KvimrInv.v
KvimrRecovery.v
KvimrHealthy.v
KvimrCorrect.v
KvimrRefine.v
RmwTheorems.v
SnapshotCorrect.v
KvimrEnv.v
ImrPrelude.v
ImrGeometry.v
ImrBloom.v
ImrState.v
ImrReadTree.v
ImrLevels.v
ImrSegment.v
ImrPlacement.v
ImrAccounting.v
ImrCore.v
ImrLsm.v
ImrLsmInv.v
ImrLsmOps.v
ImrCompaction.v
ImrBuild.v
ImrPlan.v
ImrPublish.v
ImrPhases.v
ImrSystem.v
ImrTheorems.v
ImrLinks.v
ImrZones.v
ImrGc.v
ImrTarget.v
ImrImage.v
ImrPersist.v
ImrKapi.v
ImrImageSpec.v
ImrIo.v
ImrLayout.v
ImrZoneFrame.v
ImrZoneInv.v
ImrZoneOps.v
ImrGcPlan.v
ImrGcSpec.v
ImrGcPublish.v
ImrCold.v
ImrDisk.v
ImrDiskData.v
ImrDiskInv.v
ImrPersistSpec.v
ImrFlush.v
ImrDiskIo.v
ImrDiskPartial.v
ImrDiskSteps.v
ImrDiskTheorems.v
ImrOutput.v
ImrOutputSpec.v
ImrDebugfs.v
ImrDebugfsSpec.v
ImrKapiSpec.v
ImrLife.v
ImrLifeTheorems.v
