(* ===== verification/Prelude.v ===== *)
(** * KVIMR and IMRSim: a verification of the middleware and of the drive emulator

    The repository holds two programs. KVIMR ([src/rocksdb-5.11.3-kvimr]) is a
    middleware inside RocksDB that stores SSTables on the tracks of an interlaced
    recording (IMR) drive: updating a bottom track would damage its neighbours, so
    top tracks are rewritten whole. IMRSim ([src/imrsim_kmod]) is a device-mapper
    target that emulates such a drive and keeps a log-structured map from logical
    to physical blocks. KVIMR talks to the drive as to a block device.

    This library models both programs as functions on records and proves them
    correct. Definitions keep the names of the C and C++ functions. An operation
    takes the state and returns the new state with its result; error codes are
    negative numbers or constructors of a result type; machine integers are [Z]
    wrapped by [u32], [u64], [i32] and [i64] where the code can wrap.

    ** KVIMR

    - [TrackAllocator] models [db/kvimr_track_allocator.cc]: owners of top and
      bottom tracks, allocation by tiers, release and restore.
    - [BlockDevice] is the interface of the device: a class of operations and the
      class of the laws the middleware relies on. [Backend] models
      [db/imrsim_backend.cc] over a scripted operating system and is an instance of
      both.
    - [MetaFs] models the protocol that replaces the metadata file, and [Snapshot]
      its format ([SnapshotCorrect]: round trip, rejection of truncated files).
    - [KvimrState], [Rmw] and [Kvimr] model [db/kvimr.cc]: the read-modify-write
      engine in its naive (KVIMR-N) and merged (KVIMR-M) modes and all public
      operations. [KvimrEnv] models [db/kvimr_env.cc], the registration hooks in
      [db/builder.cc] and [db/compaction_job.cc], table names and the JNI getters.
    - [RmwSpec], [RmwEquiv], [RmwTheorems]: no step of the engine harms bytes that
      are durable, even when it fails; KVIMR-M leaves the same device content as
      KVIMR-N with fewer track rewrites.
    - [KvimrInv], [KvimrRecovery], [KvimrHealthy], [KvimrCorrect], [KvimrRefine]:
      the invariant of the middleware over operations, failures, crashes and
      recoveries; committed data survives, files never share a track, every
      operation returns, and the object refines a map from names to contents.

    ** IMRSim

    All of it models [dm-imrsim.c] and the structures of [imrsim_types.h].

    - [ImrPrelude], [ImrGeometry], [ImrState]: constants, zone and track
      arithmetic, and [kstate], the record of the target's globals.
    - [ImrBloom], [ImrReadTree], [ImrLevels], [ImrSegment], [ImrPlacement],
      [ImrAccounting], [ImrLinks]: the parts of the in-memory LSM.
    - [ImrLsm], [ImrCompaction]: insertion, deletion, lookup, and level compaction
      in its three phases. [ImrCore], [ImrLsmInv], [ImrLsmOps], [ImrBuild],
      [ImrPlan], [ImrPublish], [ImrPhases] carry the invariant [lsm_inv H s] (the
      newest record of each key is [H]) through them; [ImrSystem] is the transition
      system and [ImrTheorems] its theorems: under every interleaving a lookup gives
      the last write of its key.
    - [ImrZones], [ImrGc]: physical zones, the forward map, foreground appends,
      deletes, discards, and zone collection in its phases. [ImrLayout] is the
      abstract layout of the zones; [ImrZoneFrame], [ImrZoneInv], [ImrZoneOps],
      [ImrGcPlan], [ImrGcSpec], [ImrGcPublish] show that each operation changes the
      layout as it should.
    - [ImrTarget]: the size of the zone state and its initialisation.
    - [ImrIo]: bios, from [imrsim_map] to [imrsim_end_io], with the worker that
      serves partial blocks.
    - [ImrDisk], [ImrDiskData], [ImrDiskInv], [ImrDiskIo], [ImrDiskPartial],
      [ImrDiskSteps], [ImrDiskTheorems]: the whole target with its device and the
      writes in flight, as a labelled transition system, refines a disk whose
      sectors hold the last completed write. Writes complete in any order, device
      errors are arbitrary, and compactions and collections run between any two
      steps. Collections are assumed to publish [calm]ly (no overwritten key has
      left the read tree); [stale_read_after_collection] shows that the code does
      return old data otherwise. [ImrCold] is about a target whose LSM has not been
      used since it was released.
    - [ImrImage], [ImrPersist]: the zone state byte by byte as it lies in memory and
      behind the target on the device, full saves, loads with their checks, the
      snapshots of the persistence thread, the constructor and the destructor.
      [ImrImageSpec] and [ImrPersistSpec] show that a load of a saved state gives
      the same layout back and that nothing but an intact image is accepted,
      [ImrFlush] that flushing the queued zones completes the image.
    - [ImrKapi]: the exported operations and the commands of the ioctl;
      [ImrKapiSpec] shows which of them leave the disk alone and that a reset
      empties it.
    - [ImrLife], [ImrLifeTheorems]: targets from construction to destruction, with
      the disk, the persistence thread and the ioctl interleaved. The target is a
      disk across restarts, an orderly restart succeeds, and a flush is enough to
      survive a crash; [reset_races_with_appends] shows a write in flight that a
      reset of the zones lets land on another block.

    - [ImrOutput]: segment outputs, the plan, copy and commit that move the blocks
      of live segments to the top tracks their placement reserved, and the
      compaction of the selected segment. [ImrOutputSpec] shows that a commit moves
      exactly the blocks that are due, provided that they do not meet, and changes
      no address when it fails; [commit_output_overwrites] shows that the code does
      not make sure that they do not meet. A commit is therefore not a step of the
      disk.
    - [ImrDebugfs]: the control files of debugfs. [ImrDebugfsSpec] shows that the
      settings stay within their bounds and leave the disk alone.

    ** Fuel and bounds

    Loops that are not structural take fuel from the data they traverse, or return
    [None] when the fuel runs out, which the theorems about termination exclude.
    Memory allocation, system calls and the device answer from scripts, so every
    theorem covers every pattern of failures. The LSM clock is a 32-bit counter:
    [lsm_refines_map] is about fewer than 2^32 events, and the steps of the disk
    start below 2^31 and with fewer than 2^31 - 1 writes in flight. The target has
    at most 7759 zones, which its constructor enforces through the size of the zone
    state. Statistics wrap like the counters of the code. The kernel's [crc32] is a
    parameter, assumed only to return 32 bits; the examples instantiate it with a
    sum of bytes. The number parsers [kstrtouint] and [kstrtoull] are parameters too,
    assumed to return an unsigned number of their width or a negative error. The
    structures have the layout of x86-64.

    ** Not modelled

    - Locks. Critical sections are atomic steps; where the code drops a lock, the
      operation is split and other steps may come between.
    - Pure reporting: [imrsim_diag], the error log, the last-error numbers and
      [printk].
    - The files of debugfs that only print state, and the registration of the
      module with device-mapper.
    - The update-in-place write rule and its read-modify-write thread, which
      [imrsim_map] no longer uses.
    - RocksDB itself, the Java benchmark driver and the command-line utilities. *)

From Stdlib Require Export ZArith Lia Bool String Ascii ZifyBool.
From stdpp Require Export base list numbers strings.

Global Set Default Goal Selector "!".
Open Scope Z_scope.

(** ** Machine integers

    A [uint64_t] / [size_t] (LP64) or [uint32_t] value is a [Z] in range; the
    operations of the source that can wrap are written with [u64] / [u32]. *)

Definition u64 (x : Z) : Z := x mod 2 ^ 64.
Definition u32 (x : Z) : Z := x mod 2 ^ 32.
Definition u8 (x : Z) : Z := x mod 2 ^ 8.

(** Conversion of a [uint32_t] to a 32-bit [int] (two's complement). *)
Definition i32 (x : Z) : Z := let y := u32 x in if y <? 2 ^ 31 then y else y - 2 ^ 32.

(** The same for 64 bits. *)
Definition i64 (x : Z) : Z := let y := u64 x in if y <? 2 ^ 63 then y else y - 2 ^ 64.

Declare Scope word_scope.
Delimit Scope word_scope with word.
Notation "x [+] y" := (u64 (x + y)) (at level 50, left associativity) : word_scope.
Notation "x [-] y" := (u64 (x - y)) (at level 50, left associativity) : word_scope.
Notation "x [*] y" := (u64 (x * y)) (at level 40, left associativity) : word_scope.
Open Scope word_scope.

Lemma u64_small x : 0 <= x < 2 ^ 64 -> u64 x = x.
Proof. intros H. by apply Z.mod_small. Qed.
Lemma u32_small x : 0 <= x < 2 ^ 32 -> u32 x = x.
Proof. intros H. by apply Z.mod_small. Qed.
Lemma u64_range x : 0 <= u64 x < 2 ^ 64.
Proof. by apply Z.mod_pos_bound. Qed.
Lemma u32_range x : 0 <= u32 x < 2 ^ 32.
Proof. by apply Z.mod_pos_bound. Qed.

Lemma u64_add_l x y : u64 (u64 x + y) = u64 (x + y).
Proof. unfold u64. by rewrite Zplus_mod_idemp_l. Qed.
Lemma u64_add_r x y : u64 (x + u64 y) = u64 (x + y).
Proof. by rewrite Z.add_comm, u64_add_l, Z.add_comm. Qed.
Lemma u64_mul_l x y : u64 (u64 x * y) = u64 (x * y).
Proof. unfold u64. by rewrite Zmult_mod_idemp_l. Qed.
Lemma i32_small x : 0 <= x < 2 ^ 31 -> i32 x = x.
Proof. intros H. unfold i32. rewrite u32_small by lia. by replace (x <? 2 ^ 31) with true by lia. Qed.
Lemma u32_i32 x : u32 (i32 x) = u32 x.
Proof.
  unfold i32, u32. pose proof (Z.mod_pos_bound x (2 ^ 32) ltac:(lia)). destruct (_ <? _); [by rewrite Z.mod_mod by lia|].
  rewrite <- (Z.mod_add (x mod 2 ^ 32 - 2 ^ 32) 1) by lia. rewrite Z.mul_1_l, Z.sub_add. by rewrite Z.mod_mod by lia.
Qed.
Lemma i32_of_u32 x : i32 (u32 x) = i32 x.
Proof. unfold i32, u32. by rewrite Z.mod_mod by lia. Qed.
Lemma i32_u32 x : - 2 ^ 31 <= x < 2 ^ 31 -> i32 (u32 x) = x.
Proof.
  intros H. unfold i32, u32. rewrite Z.mod_mod by lia. simpl.
  destruct (decide (0 <= x)).
  - rewrite Z.mod_small by lia. destruct (Z.ltb_spec x (2 ^ 31)); lia.
  - replace (x mod 2 ^ 32) with (x + 2 ^ 32).
    + destruct (Z.ltb_spec (x + 2 ^ 32) (2 ^ 31)); lia.
    + apply (Z.mod_unique x (2 ^ 32) (-1)); lia.
Qed.

Lemma u64_eq x : u64 x = x mod 2 ^ 64.
Proof. done. Qed.
Lemma u32_eq x : u32 x = x mod 2 ^ 32.
Proof. done. Qed.
Global Opaque u64 u32.

(** ** Bytes and strings

    A [char] buffer or [std::string] is a list of byte values; a C string
    literal is translated by [str]. *)

Abbreviation bytes := (list Z).

Definition byte_of_ascii (c : ascii) : Z := Z.of_N (N_of_ascii c).
Definition str (s : string) : bytes := map byte_of_ascii (list_ascii_of_string s).

(** [v[i]] for an index computed as a [size_t]. *)
Definition nthZ {A} (l : list A) (i : Z) : option A :=
  if 0 <=? i then l !! Z.to_nat i else None.
Definition updZ {A} (l : list A) (i : Z) (x : A) : list A :=
  if 0 <=? i then <[Z.to_nat i := x]> l else l.
Definition lenZ {A} (l : list A) : Z := Z.of_nat (length l).

(** [s.substr(pos, n)] and [memcpy] sources: [n] elements from [pos]. *)
Definition slice {A} (l : list A) (pos n : Z) : list A :=
  take (Z.to_nat n) (drop (Z.to_nat pos) l).

(** [memcpy(dst + pos, src, src.size())] on a buffer that is long enough. *)
Definition splice {A} (dst : list A) (pos : Z) (src : list A) : list A :=
  take (Z.to_nat pos) dst ++ src ++ drop (Z.to_nat pos + length src) dst.

(** ** [rocksdb::Status]

    The constructors used by the modelled code, with the first message; the
    [strerror] text appended to I/O errors is left out. *)
Inductive Status :=
| OK
| NotFound (msg : string)
| Corruption (msg : string)
| InvalidArgument (msg : string)
| IOError (msg : string).

#[export] Instance Status_eq_dec : EqDecision Status.
Proof. solve_decision. Defined.

Definition ok (s : Status) : bool := match s with OK => true | _ => false end.

Lemma ok_OK s : ok s = true -> s = OK.
Proof. by destruct s. Qed.

(** ** Tactics *)

(** Split every [if] on an integer test of the goal, keeping the tests as
    hypotheses [lia] understands. *)
Ltac zcase :=
  repeat match goal with
  | |- context [if ?b then _ else _] =>
      lazymatch b with context [if _ then _ else _] => fail | _ => idtac end;
      let E := fresh "Hb" in destruct b eqn:E
  end.

Ltac zcase_in H :=
  repeat match type of H with
  | context [if ?b then _ else _] =>
      lazymatch b with context [if _ then _ else _] => fail | _ => idtac end;
      let E := fresh "Hb" in destruct b eqn:E
  end.

(** ** Generic lemmas *)

Create HintDb kv discriminated.
Create Rewrite HintDb len.
Create Rewrite HintDb smap.
Create Rewrite HintDb alloc.

Lemma lenZ_nonneg {A} (l : list A) : 0 <= lenZ l.
Proof. unfold lenZ. lia. Qed.
Lemma lenZ_nil {A} : lenZ (@nil A) = 0.
Proof. reflexivity. Qed.
Lemma lenZ_cons {A} (x : A) l : lenZ (x :: l) = 1 + lenZ l.
Proof. unfold lenZ. simpl length. lia. Qed.
Lemma lenZ_app {A} (l k : list A) : lenZ (l ++ k) = lenZ l + lenZ k.
Proof. unfold lenZ. rewrite length_app. lia. Qed.
Lemma lenZ_updZ {A} (l : list A) i x : lenZ (updZ l i x) = lenZ l.
Proof. unfold lenZ, updZ. case_match; [by rewrite length_insert|done]. Qed.
Lemma lenZ_0 {A} (l : list A) : lenZ l = 0 -> l = [].
Proof. destruct l; [done|]. rewrite lenZ_cons. pose proof (lenZ_nonneg l). lia. Qed.

Lemma to_nat_lenZ {A} (l : list A) : Z.to_nat (lenZ l) = length l.
Proof. unfold lenZ. lia. Qed.

#[export] Hint Rewrite @lenZ_nil @lenZ_cons @lenZ_app @lenZ_updZ : len.

Lemma nthZ_Some {A} (l : list A) i x : nthZ l i = Some x -> 0 <= i < lenZ l.
Proof.
  unfold nthZ, lenZ. case_match; [|done]. intros H1%lookup_lt_Some. lia.
Qed.
Lemma nthZ_is_Some {A} (l : list A) i : 0 <= i < lenZ l -> is_Some (nthZ l i).
Proof.
  unfold nthZ, lenZ. intros H. case_match; [|lia]. apply lookup_lt_is_Some. lia.
Qed.
Lemma nthZ_updZ_eq {A} (l : list A) i x : 0 <= i < lenZ l -> nthZ (updZ l i x) i = Some x.
Proof.
  unfold nthZ, updZ, lenZ. intros H. case_match; [|lia].
  apply list_lookup_insert_eq. lia.
Qed.
Lemma nthZ_updZ_ne {A} (l : list A) i j x : i <> j -> nthZ (updZ l i x) j = nthZ l j.
Proof.
  unfold nthZ, updZ. intros H.
  destruct (0 <=? j) eqn:?; [|done]. destruct (0 <=? i) eqn:?; [|done].
  apply list_lookup_insert_ne. lia.
Qed.
Lemma nthZ_In {A} (l : list A) i x : nthZ l i = Some x -> x ∈ l.
Proof. unfold nthZ. case_match; [|done]. apply list_elem_of_lookup_2. Qed.
Lemma In_nthZ {A} (l : list A) x : x ∈ l -> exists i, nthZ l i = Some x.
Proof.
  intros [i Hi]%list_elem_of_lookup. exists (Z.of_nat i). unfold nthZ.
  destruct (Z.leb_spec 0 (Z.of_nat i)); [by rewrite Nat2Z.id|lia].
Qed.

Lemma list_eq_nthZ {A} (l k : list A) :
  lenZ l = lenZ k -> (forall i, 0 <= i < lenZ l -> nthZ l i = nthZ k i) -> l = k.
Proof.
  intros Hl H. apply list_eq. intros i. destruct (decide (i < length l)%nat) as [Hi|Hi].
  - specialize (H (Z.of_nat i)). unfold nthZ, lenZ in H.
    rewrite (proj2 (Z.leb_le 0 (Z.of_nat i))), Nat2Z.id in H by lia. apply H. lia.
  - unfold lenZ in Hl. rewrite !lookup_ge_None_2 by lia. done.
Qed.

Lemma nthZ_app {A} (l k : list A) i :
  0 <= i -> nthZ (l ++ k) i = if i <? lenZ l then nthZ l i else nthZ k (i - lenZ l).
Proof.
  intros Hi. unfold nthZ. rewrite (proj2 (Z.leb_le 0 i)) by done.
  destruct (i <? lenZ l) eqn:E; unfold lenZ in *.
  - apply lookup_app_l. lia.
  - rewrite (proj2 (Z.leb_le 0 _)) by lia. rewrite lookup_app_r by lia. f_equal. lia.
Qed.

Lemma lenZ_take {A} (l : list A) n : 0 <= n -> lenZ (take (Z.to_nat n) l) = Z.min n (lenZ l).
Proof. intros H. unfold lenZ. rewrite length_take. lia. Qed.
Lemma lenZ_drop {A} (l : list A) n : 0 <= n -> lenZ (drop (Z.to_nat n) l) = Z.max 0 (lenZ l - n).
Proof. intros H. unfold lenZ. rewrite length_drop. lia. Qed.
Lemma lenZ_slice {A} (l : list A) pos n :
  0 <= pos -> 0 <= n -> pos + n <= lenZ l -> lenZ (slice l pos n) = n.
Proof. intros. unfold slice. rewrite lenZ_take, lenZ_drop by done. lia. Qed.
Lemma lenZ_splice {A} (dst src : list A) pos :
  0 <= pos -> pos + lenZ src <= lenZ dst -> lenZ (splice dst pos src) = lenZ dst.
Proof.
  intros. unfold splice, lenZ in *. rewrite !length_app, length_take, length_drop. lia.
Qed.
Lemma length_splice {A} (dst src : list A) pos :
  0 <= pos -> pos + lenZ src <= lenZ dst -> length (splice dst pos src) = length dst.
Proof. intros H1 H2. pose proof (lenZ_splice dst src pos H1 H2). unfold lenZ in *. lia. Qed.

Lemma nthZ_take {A} (l : list A) n i :
  0 <= n -> nthZ (take (Z.to_nat n) l) i = if i <? n then nthZ l i else None.
Proof.
  intros Hn. unfold nthZ. destruct (0 <=? i) eqn:E; [|by zcase].
  zcase; [apply lookup_take_lt; lia|apply lookup_take_ge; lia].
Qed.
Lemma nthZ_drop {A} (l : list A) n i :
  0 <= n -> 0 <= i -> nthZ (drop (Z.to_nat n) l) i = nthZ l (n + i).
Proof.
  intros Hn Hi. unfold nthZ. rewrite !(proj2 (Z.leb_le 0 _)) by lia. rewrite lookup_drop.
  f_equal. lia.
Qed.
Lemma nthZ_None {A} (l : list A) i : i < 0 \/ lenZ l <= i -> nthZ l i = None.
Proof.
  intros H. destruct (nthZ l i) eqn:E; [|done]. apply nthZ_Some in E. lia.
Qed.
Lemma nthZ_slice {A} (l : list A) pos n i :
  0 <= pos -> 0 <= i -> nthZ (slice l pos n) i = if i <? n then nthZ l (pos + i) else None.
Proof.
  intros Hp Hi. unfold slice. destruct (decide (0 <= n)).
  - rewrite nthZ_take by done. zcase; [by apply nthZ_drop|done].
  - replace (i <? n) with false by lia. apply nthZ_None. right.
    unfold lenZ. rewrite length_take. lia.
Qed.
Lemma nthZ_splice {A} (dst src : list A) pos i :
  0 <= pos -> pos + lenZ src <= lenZ dst ->
  nthZ (splice dst pos src) i =
    if (pos <=? i) && (i <? pos + lenZ src) then nthZ src (i - pos) else nthZ dst i.
Proof.
  intros Hp Hl. destruct (decide (0 <= i)) as [Hi|Hi].
  2: { rewrite !nthZ_None by lia. by zcase. }
  unfold splice. pose proof (lenZ_nonneg src).
  rewrite nthZ_app, lenZ_take by lia.
  destruct (i <? Z.min pos (lenZ dst)) eqn:E1.
  { rewrite nthZ_take by done. replace (i <? pos) with true by lia. by replace (pos <=? i) with false by lia. }
  rewrite nthZ_app by lia.
  replace (i - Z.min pos (lenZ dst)) with (i - pos) by lia.
  replace (Z.to_nat pos + length src)%nat with (Z.to_nat (pos + lenZ src)) by (unfold lenZ; lia).
  destruct (i - pos <? lenZ src) eqn:E2.
  - by rewrite (proj2 (Z.leb_le _ _)), (proj2 (Z.ltb_lt _ _)) by lia.
  - rewrite nthZ_drop by lia. replace (i <? pos + lenZ src) with false by lia.
    rewrite andb_false_r. f_equal. lia.
Qed.

Lemma nthZ_map {A B} (f : A -> B) l i : nthZ (map f l) i = f <$> nthZ l i.
Proof. unfold nthZ. destruct (0 <=? i); [|done]. apply list_lookup_fmap. Qed.
Lemma nthZ_seqZ m n i : nthZ (seqZ m n) i = if (0 <=? i) && (i <? n) then Some (m + i) else None.
Proof.
  unfold nthZ. destruct (0 <=? i) eqn:E0; [|done]. cbn [andb]. destruct (i <? n) eqn:E1.
  - rewrite lookup_seqZ_lt by lia. f_equal. lia.
  - apply lookup_seqZ_ge. lia.
Qed.
Lemma lenZ_seqZ m n : 0 <= n -> lenZ (seqZ m n) = n.
Proof. intros Hn. unfold lenZ. rewrite length_seqZ. lia. Qed.

Ltac div8 := Z.to_euclidean_division_equations; lia.
Lemma ldiff_block x : Z.ldiff x 7 = 8 * (x / 8).
Proof. change 7 with (Z.ones 3). rewrite Z.ldiff_ones_r, Z.shiftl_mul_pow2, Z.shiftr_div_pow2 by lia. change (2 ^ 3) with 8. lia. Qed.
Lemma lenZ_map {A B} (f : A -> B) l : lenZ (map f l) = lenZ l.
Proof. unfold lenZ. by rewrite length_map. Qed.
(** An update that [f] does not see. *)
Lemma map_updZ {A B} (f : A -> B) l i x y : nthZ l i = Some x -> f y = f x -> map f (updZ l i y) = map f l.
Proof.
  intros Hi Hf. pose proof (nthZ_Some _ _ _ Hi) as Hr. unfold updZ. unfold nthZ in Hi. destruct (0 <=? i) eqn:E; [|done].
  change (f <$> <[Z.to_nat i := y]> l = f <$> l). rewrite list_fmap_insert, Hf. apply list_insert_id. by rewrite list_lookup_fmap, Hi.
Qed.
