(* ===== verification/StdMap.v ===== *)
(** [std::map] (and the kernel's rb-trees): key-ordered association lists.

    [find], [insert] ([m[k] = v]) and [erase] obey the lookup laws for any
    list; the [sorted] invariant makes iteration order and [size] meaningful
    and is preserved by every operation. *)

From S2P Require Import Prelude.

(** A strict total order on keys ([std::less]). *)
Class KeyOrder (K : Type) := {
  klt : K -> K -> bool;
  klt_irrefl : forall a, klt a a = false;
  klt_trans : forall a b c, klt a b = true -> klt b c = true -> klt a c = true;
  klt_total : forall a b, klt a b = false -> klt b a = false -> a = b;
}.

#[export] Program Instance Z_KeyOrder : KeyOrder Z := {| klt := Z.ltb |}.
Next Obligation. intros a. apply Z.ltb_irrefl. Qed.
Next Obligation. intros a b c. lia. Qed.
Next Obligation. intros a b. lia. Qed.

(** [std::string::compare]: lexicographic order on the bytes. *)
Fixpoint bytes_lt (a b : bytes) : bool :=
  match a, b with
  | _, [] => false
  | [], _ :: _ => true
  | x :: a', y :: b' => (x <? y) || ((x =? y) && bytes_lt a' b')
  end.

#[export] Program Instance bytes_KeyOrder : KeyOrder bytes := {| klt := bytes_lt |}.
Next Obligation. induction a as [|x a IH]; simpl; [done|]. rewrite IH. lia. Qed.
Next Obligation.
  induction a as [|x a IH]; intros [|y b] [|z c]; simpl; try done.
  rewrite !orb_true_iff, !andb_true_iff. intros [?|[? H1]] [?|[? H2]]; try lia.
  right. split; [lia|]. by eapply IH.
Qed.
Next Obligation.
  induction a as [|x a IH]; intros [|y b]; simpl; try done.
  rewrite !orb_false_iff, !andb_false_iff. intros [? [?|H1]] [? [?|H2]]; try lia.
  f_equal; [lia|by apply IH].
Qed.

Abbreviation stdmap K V := (list (K * V)).

Section Ops.
Context {K V : Type} `{KO : KeyOrder K, !EqDecision K}.
Implicit Types (k : K) (v : V) (m : stdmap K V).

Fixpoint m_find k m : option V :=
  match m with
  | [] => None
  | (k', v) :: m' => if decide (k = k') then Some v else m_find k m'
  end.

Fixpoint m_insert k v m : stdmap K V :=
  match m with
  | [] => [(k, v)]
  | (k', v') :: m' =>
      if decide (k = k') then (k, v) :: m'
      else if klt k k' then (k, v) :: m
      else (k', v') :: m_insert k v m'
  end.

Fixpoint m_erase k m : stdmap K V :=
  match m with
  | [] => []
  | (k', v') :: m' => if decide (k = k') then m_erase k m' else (k', v') :: m_erase k m'
  end.

(** [m[k]]: the reference, default-constructed when absent. *)
Definition m_get (d : V) k m : V := default d (m_find k m).

Definition keys_above k m : Prop := Forall (fun e => klt k e.1 = true) m.
Fixpoint sorted m : Prop :=
  match m with [] => True | (k, _) :: m' => keys_above k m' /\ sorted m' end.

Lemma klt_ne k1 k2 : klt k1 k2 = true -> k1 <> k2.
Proof. intros H ->. by rewrite klt_irrefl in H. Qed.

Lemma find_insert_eq k v m : m_find k (m_insert k v m) = Some v.
Proof.
  induction m as [|[k' v'] m IH]; simpl; [by rewrite decide_True|].
  case_decide; [simpl; by rewrite decide_True|].
  case_match; simpl; [by rewrite decide_True|]. by rewrite decide_False.
Qed.

Lemma find_insert_ne k k2 v m : k <> k2 -> m_find k2 (m_insert k v m) = m_find k2 m.
Proof.
  intros Hne. induction m as [|[k' v'] m IH]; simpl; [by rewrite decide_False|].
  case_decide as Hk; subst; simpl.
  - by rewrite !decide_False by congruence.
  - case_match; simpl; [by rewrite decide_False by congruence|]. by rewrite IH.
Qed.

Lemma find_erase_eq k m : m_find k (m_erase k m) = None.
Proof.
  induction m as [|[k' v'] m IH]; simpl; [done|].
  case_decide; [done|]. simpl. by rewrite decide_False.
Qed.

Lemma find_erase_ne k k2 m : k <> k2 -> m_find k2 (m_erase k m) = m_find k2 m.
Proof.
  intros Hne. induction m as [|[k' v'] m IH]; simpl; [done|].
  case_decide as Hk; subst; simpl; [by rewrite decide_False by congruence|].
  by rewrite IH.
Qed.

Lemma find_insert k k2 v m :
  m_find k2 (m_insert k v m) = if decide (k = k2) then Some v else m_find k2 m.
Proof. case_decide; subst; [apply find_insert_eq|by apply find_insert_ne]. Qed.

Lemma find_erase k k2 m :
  m_find k2 (m_erase k m) = if decide (k = k2) then None else m_find k2 m.
Proof. case_decide; subst; [apply find_erase_eq|by apply find_erase_ne]. Qed.

Lemma keys_above_trans k k2 m : klt k k2 = true -> keys_above k2 m -> keys_above k m.
Proof. intros Hk Hm. eapply Forall_impl; [done|]. intros [a b] ?. by eapply klt_trans. Qed.

Lemma keys_above_insert k k2 v m :
  klt k k2 = true -> keys_above k m -> keys_above k (m_insert k2 v m).
Proof.
  intros Hk. induction m as [|[k' v'] m IH]; simpl; intros Hm.
  - by constructor.
  - apply Forall_cons in Hm as [? ?]. repeat case_match; repeat constructor; auto.
    by apply IH.
Qed.

Lemma insert_sorted k v m : sorted m -> sorted (m_insert k v m).
Proof.
  induction m as [|[k' v'] m IH]; simpl; [intros _; by repeat constructor|].
  intros [Ha Hs]. case_decide; subst; [done|].
  destruct (klt k k') eqn:E; simpl.
  - repeat split; auto. constructor; [done|]. by eapply keys_above_trans.
  - split; [|by apply IH]. apply keys_above_insert; [|done].
    destruct (klt k' k) eqn:E2; [done|]. by destruct (klt_total _ _ E E2).
Qed.

Lemma keys_above_erase k k2 m : keys_above k m -> keys_above k (m_erase k2 m).
Proof.
  induction m as [|[k' v'] m IH]; simpl; intros Hm; [done|].
  apply Forall_cons in Hm as [? ?]. case_decide; [by apply IH|].
  constructor; [done|by apply IH].
Qed.

Lemma erase_sorted k m : sorted m -> sorted (m_erase k m).
Proof.
  induction m as [|[k' v'] m IH]; simpl; [done|]. intros [Ha Hs].
  case_decide; [by apply IH|]. split; [by apply keys_above_erase|by apply IH].
Qed.

Lemma find_above k m : keys_above k m -> m_find k m = None.
Proof.
  induction m as [|[k' v'] m IH]; simpl; intros Hm; [done|].
  apply Forall_cons in Hm as [Hk ?]. rewrite decide_False by (by apply klt_ne).
  by apply IH.
Qed.

(** Iteration visits exactly the bindings. *)
Lemma elem_of_find k v m : sorted m -> (k, v) ∈ m <-> m_find k m = Some v.
Proof.
  induction m as [|[k' v'] m IH]; simpl; intros Hs.
  - split; [by intros ?%elem_of_nil|done].
  - destruct Hs as [Ha Hs]. rewrite elem_of_cons, (IH Hs). case_decide; subst.
    + rewrite (find_above _ _ Ha). split; [|intros [= ->]; by left].
      intros [[= ->]|?]; done.
    + split; [|by right]. intros [[= ? ?]|?]; done.
Qed.

Lemma find_elem_of k v m : m_find k m = Some v -> (k, v) ∈ m.
Proof.
  induction m as [|[k' v'] m IH]; simpl; [done|].
  case_decide; [intros [= ->]; subst; by left|]. intros ?. right. auto.
Qed.

Lemma sorted_NoDup_keys m : sorted m -> NoDup (map fst m).
Proof.
  induction m as [|[k v] m IH]; simpl; [constructor|]. intros [Ha Hs].
  constructor; [|by apply IH]. intros ([k' v'] & ? & Hin)%list_elem_of_fmap.
  simpl in *; subst. unfold keys_above in Ha. rewrite Forall_forall in Ha.
  specialize (Ha _ Hin). simpl in Ha. by rewrite klt_irrefl in Ha.
Qed.

(** Sorted maps are extensional: equal lookups make equal lists. *)
Lemma lenZ_insert_le k v m : lenZ (m_insert k v m) <= lenZ m + 1.
Proof.
  induction m as [|[k' v'] m IH]; simpl; [done|].
  case_decide; [|case_match]; rewrite ?lenZ_cons in *; lia.
Qed.
Lemma lenZ_insert k v w m : sorted m -> m_find k m = Some w -> lenZ (m_insert k v m) = lenZ m.
Proof.
  induction m as [|[k' v'] m IH]; simpl; [done|]. intros [Ha Hs] Hf.
  case_decide; [by rewrite !lenZ_cons|]. case_match eqn:E.
  - rewrite (find_above k m) in Hf; [done|]. by eapply keys_above_trans.
  - rewrite !lenZ_cons, IH; done.
Qed.
Lemma lenZ_insert_new k v m : m_find k m = None -> lenZ (m_insert k v m) = lenZ m + 1.
Proof.
  induction m as [|[k' v'] m IH]; simpl; [done|]. case_decide; [done|]. intros Hf.
  case_match; rewrite ?lenZ_cons, ?IH by done; lia.
Qed.
Lemma lenZ_erase_le k m : lenZ (m_erase k m) <= lenZ m.
Proof. induction m as [|[k' v'] m IH]; simpl; [done|]. case_decide; rewrite ?lenZ_cons; lia. Qed.

Lemma sorted_app m1 m2 : sorted (m1 ++ m2) -> sorted m2.
Proof. induction m1 as [|[k v] m1 IH]; simpl; [done|]. intros [_ H]. auto. Qed.

Lemma head_key_fresh k v m k2 v2 : sorted ((k, v) :: m) -> (k2, v2) ∈ m -> k <> k2.
Proof.
  intros Hs Hin <-. apply sorted_NoDup_keys in Hs. simpl in Hs. apply NoDup_cons in Hs as [Hni _].
  apply Hni, list_elem_of_fmap. by exists (k, v2).
Qed.

Lemma sorted_ext m1 m2 :
  sorted m1 -> sorted m2 -> (forall k, m_find k m1 = m_find k m2) -> m1 = m2.
Proof.
  revert m2. induction m1 as [|[k1 v1] m1 IH]; intros [|[k2 v2] m2] S1 S2 F.
  - done.
  - specialize (F k2). simpl in F. by rewrite decide_True in F.
  - specialize (F k1). simpl in F. by rewrite decide_True in F.
  - destruct S1 as [A1 S1], S2 as [A2 S2].
    assert (k1 = k2) as ->.
    { destruct (decide (k1 = k2)) as [|Hne]; [done|exfalso].
      pose proof (F k1) as F1. pose proof (F k2) as F2. simpl in F1, F2.
      rewrite decide_True, decide_False in F1 by done.
      rewrite (decide_True (P := k2 = k2)), decide_False in F2 by done.
      symmetry in F1. apply find_elem_of in F1, F2.
      unfold keys_above in A1, A2. rewrite Forall_forall in A1, A2.
      specialize (A1 _ F2). specialize (A2 _ F1). simpl in A1, A2.
      pose proof (klt_trans _ _ _ A1 A2) as E. by rewrite klt_irrefl in E. }
    pose proof (F k2) as F2. simpl in F2. rewrite !decide_True in F2 by done.
    injection F2 as ->. f_equal. apply IH; auto. intros k.
    destruct (decide (k = k2)) as [->|Hne]; [by rewrite !find_above|].
    specialize (F k). simpl in F. by rewrite !decide_False in F.
Qed.

Lemma insert_find k v m : sorted m -> m_find k m = Some v -> m_insert k v m = m.
Proof.
  intros Hs Hf. apply sorted_ext; [by apply insert_sorted|done|].
  intros k2. rewrite find_insert. by case_decide; subst.
Qed.
End Ops.

#[export] Hint Resolve insert_sorted erase_sorted : kv.
#[export] Hint Rewrite @find_insert_eq @find_erase_eq @find_insert @find_erase : smap.
Arguments sorted : simpl never.
