(* ===== verification/TrackAllocator.v ===== *)
(** The track allocator: [db/kvimr_track_allocator.h] and [.cc].

    Each zone has 64 groups, each with one TOP and one BOTTOM track.  The
    allocator keeps the owner (an SSTable number, 0 for free) of every track
    and a round-robin cursor per tier. *)

From S2P Require Import Prelude.

Module TrackAllocator.

Inductive KVIMRTrackType := TOP | BOTTOM.

#[export] Instance KVIMRTrackType_eq_dec : EqDecision KVIMRTrackType.
Proof. solve_decision. Defined.

Record KVIMRTrackSegment := MkSegment {
  seg_zone : Z;
  seg_group : Z;
  seg_type : KVIMRTrackType;
  logical_sector_start : Z;
  sector_length : Z;
}.

#[export] Instance KVIMRTrackSegment_eq_dec : EqDecision KVIMRTrackSegment.
Proof. solve_decision. Defined.

Definition kGroupsPerZone : Z := 64.
Definition kZoneSectors : Z := 524288.
Definition kGroupSectors : Z := 8192.
Definition kTopSectors : Z := 3648.
Definition kBottomSectors : Z := 4544.

Record KVIMRTrackAllocator := MkAllocator {
  zones_ : Z;
  top_owner_ : list Z;
  bottom_owner_ : list Z;
  top_cursor_ : Z;
  bottom_cursor_ : Z;
}.

(** [type == TOP ? top_owner_ : bottom_owner_] and the matching cursor. *)
Definition owners (ty : KVIMRTrackType) (a : KVIMRTrackAllocator) : list Z :=
  match ty with TOP => top_owner_ a | BOTTOM => bottom_owner_ a end.
Definition cursor (ty : KVIMRTrackType) (a : KVIMRTrackAllocator) : Z :=
  match ty with TOP => top_cursor_ a | BOTTOM => bottom_cursor_ a end.
Definition set_owners (ty : KVIMRTrackType) (o : list Z) (a : KVIMRTrackAllocator) :=
  match ty with
  | TOP => MkAllocator (zones_ a) o (bottom_owner_ a) (top_cursor_ a) (bottom_cursor_ a)
  | BOTTOM => MkAllocator (zones_ a) (top_owner_ a) o (top_cursor_ a) (bottom_cursor_ a)
  end.
Definition set_cursor (ty : KVIMRTrackType) (c : Z) (a : KVIMRTrackAllocator) :=
  match ty with
  | TOP => MkAllocator (zones_ a) (top_owner_ a) (bottom_owner_ a) c (bottom_cursor_ a)
  | BOTTOM => MkAllocator (zones_ a) (top_owner_ a) (bottom_owner_ a) (top_cursor_ a) c
  end.

Definition TrackCount (zone_count : Z) : Z := zone_count [*] kGroupsPerZone.

Definition Reset (zone_count : Z) : KVIMRTrackAllocator :=
  {| zones_ := zone_count;
     top_owner_ := replicate (Z.to_nat (TrackCount zone_count)) 0;
     bottom_owner_ := replicate (Z.to_nat (TrackCount zone_count)) 0;
     top_cursor_ := 0;
     bottom_cursor_ := 0 |}.

Definition track_sectors (ty : KVIMRTrackType) : Z :=
  match ty with TOP => kTopSectors | BOTTOM => kBottomSectors end.

Definition SegmentBytes (ty : KVIMRTrackType) : Z := track_sectors ty [*] 512.

(** [std::count(owners.begin(), owners.end(), 0)] *)
Definition count_free (o : list Z) : Z := lenZ (filter (fun x => x = 0) o).

Definition TierFreeBytes (ty : KVIMRTrackType) (a : KVIMRTrackAllocator) : Z :=
  count_free (owners ty a) [*] SegmentBytes ty.

Definition SegmentAt (ty : KVIMRTrackType) (index : Z) : KVIMRTrackSegment :=
  let zone := u32 (index / kGroupsPerZone) in
  let group := u32 (index mod kGroupsPerZone) in
  let group_start := (zone [*] kZoneSectors) [+] (group [*] kGroupSectors) in
  {| seg_zone := zone;
     seg_group := group;
     seg_type := ty;
     logical_sector_start :=
       group_start [+] (match ty with TOP => 0 | BOTTOM => kTopSectors end);
     sector_length := track_sectors ty |}.

(** The scan of [ReserveNext]: [left] iterations from [step] on. *)
Fixpoint reserve_scan (o : list Z) (cur step : Z) (left : nat) : option Z :=
  match left with
  | O => None
  | S left' =>
      let index := (cur [+] step) mod lenZ o in
      match nthZ o index with
      | Some owner => if owner =? 0 then Some index else reserve_scan o cur (step + 1) left'
      | None => None
      end
  end.

Definition ReserveNext (ty : KVIMRTrackType) (sstable_id : Z) (a : KVIMRTrackAllocator)
  : KVIMRTrackAllocator * option KVIMRTrackSegment :=
  let o := owners ty a in
  match o with
  | [] => (a, None)
  | _ =>
      match reserve_scan o (cursor ty a) 0 (length o) with
      | Some index =>
          (set_cursor ty ((index + 1) mod lenZ o) (set_owners ty (updZ o index sstable_id) a),
           Some (SegmentAt ty index))
      | None => (a, None)
      end
  end.

Definition Reservation : Type := KVIMRTrackType * Z.

Definition undo_one (sstable_id : Z) (a : KVIMRTrackAllocator) (r : Reservation) :=
  let o := owners r.1 a in
  if (r.2 <? lenZ o) && bool_decide (nthZ o r.2 = Some sstable_id)
  then set_owners r.1 (updZ o r.2 0) a
  else a.

Definition Undo (reservations : list Reservation) (sstable_id : Z) (a : KVIMRTrackAllocator) :=
  fold_left (undo_one sstable_id) reservations a.

(** Locals of [Allocate] that its loops update. *)
Record AllocLoop := MkLoop {
  al_alloc : KVIMRTrackAllocator;
  al_segments : list KVIMRTrackSegment;
  al_reservations : list Reservation;
  al_remaining : Z;
}.

Definition segment_index (s : KVIMRTrackSegment) : Z :=
  (seg_zone s [*] kGroupsPerZone) [+] seg_group s.

(** The inner [while (remaining > 0)] loop on one tier. *)
Fixpoint alloc_tier (fuel : nat) (ty : KVIMRTrackType) (first_tier bottom_first : bool)
    (sstable_id : Z) (l : AllocLoop) : option AllocLoop :=
  match fuel with
  | O => None
  | S fuel' =>
      if al_remaining l >? 0 then
        match ReserveNext ty sstable_id (al_alloc l) with
        | (a', None) => Some (MkLoop a' (al_segments l) (al_reservations l) (al_remaining l))
        | (a', Some segment) =>
            let capacity := SegmentBytes ty in
            let remaining :=
              if al_remaining l >? capacity then al_remaining l - capacity else 0 in
            let l' := MkLoop a' (al_segments l ++ [segment])
                        (al_reservations l ++ [(ty, segment_index segment)]) remaining in
            if first_tier && bottom_first && (remaining >? 0) && (TierFreeBytes ty a' =? 0)
            then Some l'
            else if negb bottom_first && (remaining =? 0) then Some l'
            else alloc_tier fuel' ty first_tier bottom_first sstable_id l'
        end
      else Some l
  end.

(** The outer [for] loop over the tiers. *)
Fixpoint alloc_tiers (tiers : list KVIMRTrackType) (first_tier bottom_first : bool)
    (sstable_id : Z) (l : AllocLoop) : option AllocLoop :=
  match tiers with
  | [] => Some l
  | ty :: tiers' =>
      if al_remaining l >? 0 then
        match alloc_tier (S (length (owners ty (al_alloc l)))) ty first_tier bottom_first
                sstable_id l with
        | Some l' => alloc_tiers tiers' false bottom_first sstable_id l'
        | None => None
        end
      else Some l
  end.

Definition available (bottom_first : bool) (a : KVIMRTrackAllocator) : Z :=
  TierFreeBytes TOP a [+] (if bottom_first then TierFreeBytes BOTTOM a else 0).

(** [None] would mean that a loop ran out of fuel; [Allocate_total] shows it
    does not. *)
Definition Allocate (sstable_id bytes level effective_largest_level : Z)
    (a : KVIMRTrackAllocator)
  : option (KVIMRTrackAllocator * list KVIMRTrackSegment * Status) :=
  if (sstable_id =? 0) || (bytes =? 0)
  then Some (a, [], InvalidArgument "invalid KVIMR allocation request")
  else
    let bottom_first := level =? effective_largest_level in
    if bytes >? available bottom_first a
    then Some (a, [], IOError "insufficient KVIMR track capacity")
    else
      let tiers := if bottom_first then [BOTTOM; TOP] else [TOP] in
      match alloc_tiers tiers true bottom_first sstable_id (MkLoop a [] [] bytes) with
      | None => None
      | Some l =>
          if negb (al_remaining l =? 0)
          then Some (Undo (al_reservations l) sstable_id (al_alloc l), [],
                     IOError "insufficient KVIMR track capacity")
          else Some (al_alloc l, al_segments l, OK)
      end.

Definition release_owners (sstable_id : Z) (o : list Z) : list Z :=
  map (fun owner => if owner =? sstable_id then 0 else owner) o.

Definition Release (sstable_id : Z) (a : KVIMRTrackAllocator) : KVIMRTrackAllocator * Status :=
  if sstable_id =? 0 then (a, InvalidArgument "invalid KVIMR SSTable ID")
  else
    let found := bool_decide (sstable_id ∈ top_owner_ a) || bool_decide (sstable_id ∈ bottom_owner_ a) in
    (MkAllocator (zones_ a) (release_owners sstable_id (top_owner_ a))
       (release_owners sstable_id (bottom_owner_ a)) (top_cursor_ a) (bottom_cursor_ a),
     if found then OK else NotFound "KVIMR allocation not found").

(** The loop of [Restore]; [top_last]/[bottom_last] are its running cursors. *)
Fixpoint restore_loop (sstable_id : Z) (segments : list KVIMRTrackSegment)
    (reservations : list Reservation) (top_last bottom_last : Z) (a : KVIMRTrackAllocator)
  : KVIMRTrackAllocator * Status :=
  match segments with
  | [] => (set_cursor BOTTOM bottom_last (set_cursor TOP top_last a), OK)
  | segment :: rest =>
      if (seg_zone segment >=? zones_ a) || (seg_group segment >=? kGroupsPerZone)
      then (a, InvalidArgument "invalid KVIMR track geometry")
      else
        let ty := seg_type segment in
        let expected_start :=
          (seg_zone segment [*] kZoneSectors) [+] (seg_group segment [*] kGroupSectors)
            [+] (match ty with TOP => 0 | BOTTOM => kTopSectors end) in
        if negb (logical_sector_start segment =? expected_start)
           || negb (sector_length segment =? track_sectors ty)
        then (a, InvalidArgument "invalid KVIMR track segment")
        else
          let o := owners ty a in
          let index := segment_index segment in
          if negb (bool_decide (nthZ o index = Some 0))
          then (Undo reservations sstable_id a, IOError "KVIMR track already owned")
          else
            let next := (index + 1) mod lenZ o in
            restore_loop sstable_id rest (reservations ++ [(ty, index)])
              (match ty with TOP => next | BOTTOM => top_last end)
              (match ty with TOP => bottom_last | BOTTOM => next end)
              (set_owners ty (updZ o index sstable_id) a)
  end.

Definition Restore (sstable_id : Z) (segments : list KVIMRTrackSegment)
    (a : KVIMRTrackAllocator) : KVIMRTrackAllocator * Status :=
  if (sstable_id =? 0) || bool_decide (segments = [])
  then (a, InvalidArgument "invalid KVIMR restore request")
  else if bool_decide (top_owner_ a = []) || bool_decide (bottom_owner_ a = [])
  then (a, InvalidArgument "KVIMR allocator has no tracks")
  else restore_loop sstable_id segments [] (top_cursor_ a) (bottom_cursor_ a) a.

(** ** Specification vocabulary *)

(** A track is a tier and an index [zone * 64 + group] in it. *)
Abbreviation track := (KVIMRTrackType * Z)%type.

Definition owner (a : KVIMRTrackAllocator) (tr : track) : option Z := nthZ (owners tr.1 a) tr.2.
Definition segment_of (tr : track) : KVIMRTrackSegment := SegmentAt tr.1 tr.2.
Definition segment_track (s : KVIMRTrackSegment) : track := (seg_type s, segment_index s).
Definition free_tracks (ty : KVIMRTrackType) (a : KVIMRTrackAllocator) : Z := count_free (owners ty a).

(** Bytes held by a list of tracks. *)
Fixpoint capacity (trs : list track) : Z :=
  match trs with [] => 0 | tr :: trs' => 512 * track_sectors tr.1 + capacity trs' end.

(** The representation invariant: both owner vectors have one entry per
    group and the cursors are valid indices (or 0 on an empty device). *)
Record wf (a : KVIMRTrackAllocator) : Prop := {
  wf_zones : 0 <= zones_ a < 2 ^ 32;
  wf_len : forall ty, lenZ (owners ty a) = zones_ a * 64;
  wf_cursor : forall ty, 0 <= cursor ty a /\ (zones_ a <> 0 -> cursor ty a < zones_ a * 64);
}.

(** [a'] is [a] with exactly the (previously free) tracks [trs] given to [id]. *)
Record claimed (id : Z) (trs : list track) (a a' : KVIMRTrackAllocator) : Prop := {
  claimed_NoDup : NoDup trs;
  claimed_free : forall tr, tr ∈ trs -> owner a tr = Some 0;
  claimed_owner : forall tr, tr ∈ trs -> owner a' tr = Some id;
  claimed_other : forall tr, tr ∉ trs -> owner a' tr = owner a tr;
}.

(** ** Lemmas *)

Lemma owners_set_owners ty ty' o a :
  owners ty' (set_owners ty o a) = if decide (ty = ty') then o else owners ty' a.
Proof. by destruct ty, ty'. Qed.
Lemma owners_set_cursor ty ty' c a : owners ty' (set_cursor ty c a) = owners ty' a.
Proof. by destruct ty, ty'. Qed.
Lemma zones_set_owners ty o a : zones_ (set_owners ty o a) = zones_ a.
Proof. by destruct ty. Qed.
Lemma zones_set_cursor ty c a : zones_ (set_cursor ty c a) = zones_ a.
Proof. by destruct ty. Qed.
Lemma cursor_set_owners ty ty' o a : cursor ty' (set_owners ty o a) = cursor ty' a.
Proof. by destruct ty, ty'. Qed.
Lemma cursor_set_cursor ty ty' c a :
  cursor ty' (set_cursor ty c a) = if decide (ty = ty') then c else cursor ty' a.
Proof. by destruct ty, ty'. Qed.

#[export] Hint Rewrite owners_set_owners owners_set_cursor zones_set_owners zones_set_cursor
  cursor_set_owners cursor_set_cursor : alloc.

Lemma count_free_range o : 0 <= count_free o <= lenZ o.
Proof. unfold count_free, lenZ. pose proof (length_filter (fun x => x = 0) o). lia. Qed.

Lemma count_free_updZ o i id :
  nthZ o i = Some 0 -> id <> 0 -> count_free (updZ o i id) = count_free o - 1.
Proof.
  unfold nthZ, updZ, count_free, lenZ. case_match; [|done]. generalize (Z.to_nat i) as n.
  intros n Hn Hid. revert n Hn. induction o as [|x o IH]; intros [|n] Hn; try done.
  - injection Hn as ->. change (<[0%nat:=id]> (0 :: o)) with (id :: o).
    rewrite filter_cons_False by done. rewrite filter_cons_True by done. simpl length. lia.
  - specialize (IH n Hn). change (<[S n:=id]> (x :: o)) with (x :: <[n:=id]> o).
    destruct (decide (x = 0)); [rewrite !filter_cons_True by done|by rewrite !filter_cons_False].
    simpl length. lia.
Qed.

Lemma count_free_0 o i x : count_free o = 0 -> nthZ o i = Some x -> x <> 0.
Proof.
  unfold count_free. intros H%lenZ_0 Hi%nthZ_In ->.
  assert (0 ∈ filter (fun x => x = 0) o) as Hin by (by apply list_elem_of_filter).
  rewrite H in Hin. by apply elem_of_nil in Hin.
Qed.

Lemma count_free_none o : (forall i x, nthZ o i = Some x -> x <> 0) -> count_free o = 0.
Proof.
  intros H. unfold count_free. destruct (filter _ o) as [|x l] eqn:E; [done|exfalso].
  assert (x ∈ filter (fun x => x = 0) o) as [-> [i Hi]%In_nthZ]%list_elem_of_filter
    by (rewrite E; left). by destruct (H i 0).
Qed.

Lemma SegmentBytes_eq ty : SegmentBytes ty = 512 * track_sectors ty.
Proof. by destruct ty; vm_compute. Qed.

Lemma track_sectors_pos ty : 0 < track_sectors ty <= 4544.
Proof. destruct ty; vm_compute; done. Qed.

Section Wf.
Variable a : KVIMRTrackAllocator.
Hypothesis Hwf : wf a.

Lemma free_range ty : 0 <= free_tracks ty a <= zones_ a * 64.
Proof. unfold free_tracks. pose proof (count_free_range (owners ty a)). by rewrite (wf_len a Hwf) in H. Qed.

(** No arithmetic of the capacity check wraps. *)
Lemma TierFreeBytes_eq ty : TierFreeBytes ty a = free_tracks ty a * (512 * track_sectors ty).
Proof.
  unfold TierFreeBytes. rewrite SegmentBytes_eq. apply u64_small.
  pose proof (free_range ty). pose proof (wf_zones a Hwf).
  unfold free_tracks in *. pose proof (track_sectors_pos ty). nia.
Qed.

Lemma available_eq bf :
  available bf a = free_tracks TOP a * (512 * kTopSectors)
                   + (if bf then free_tracks BOTTOM a * (512 * kBottomSectors) else 0).
Proof.
  unfold available. rewrite !TierFreeBytes_eq. apply u64_small.
  pose proof (free_range TOP). pose proof (free_range BOTTOM). pose proof (wf_zones a Hwf).
  unfold track_sectors, kTopSectors, kBottomSectors. destruct bf; lia.
Qed.

Lemma owner_index tr o : owner a tr = Some o -> 0 <= tr.2 < zones_ a * 64.
Proof. intros H%nthZ_Some. by rewrite (wf_len a Hwf) in H. Qed.

Lemma owners_nil ty : owners ty a = [] -> zones_ a = 0.
Proof. intros H. pose proof (wf_len a Hwf ty) as E. rewrite H in E. rewrite lenZ_nil in E. lia. Qed.
End Wf.

Lemma claimed_nil id a : claimed id [] a a.
Proof. split; [constructor|..]; by intros tr ?%elem_of_nil || done. Qed.

Lemma claimed_app id t1 t2 a b c :
  id <> 0 -> claimed id t1 a b -> claimed id t2 b c -> claimed id (t1 ++ t2) a c.
Proof.
  intros Hid [N1 F1 O1 R1] [N2 F2 O2 R2].
  assert (forall tr, tr ∈ t1 -> tr ∉ t2) as Hdisj.
  { intros tr H1 H2. pose proof (O1 _ H1). pose proof (F2 _ H2). congruence. }
  split.
  - by apply NoDup_app.
  - intros tr [H|H]%elem_of_app; [auto|].
    rewrite <- R1; [auto|]. intros H1. by apply (Hdisj tr).
  - intros tr [H|H]%elem_of_app; [|auto]. rewrite R2 by auto. auto.
  - intros tr H. rewrite elem_of_app in H. rewrite R2, R1 by tauto. done.
Qed.

(** The scan visits every index once: it fails only on a full tier. *)
Lemma reserve_scan_Some o cur step left i :
  reserve_scan o cur step left = Some i -> nthZ o i = Some 0.
Proof.
  revert step. induction left as [|left IH]; intros step; simpl; [done|].
  destruct (nthZ o ((cur [+] step) mod lenZ o)) as [w|] eqn:E; [|done].
  destruct (w =? 0) eqn:Ew; [|by apply IH]. intros [= <-].
  rewrite E. f_equal. lia.
Qed.

Lemma reserve_scan_None o cur left step j w :
  0 <= cur < lenZ o -> 0 <= step -> step + Z.of_nat left = lenZ o -> lenZ o < 2 ^ 62 ->
  reserve_scan o cur step left = None ->
  nthZ o j = Some w -> step <= (j - cur) mod lenZ o -> w <> 0.
Proof.
  intros Hc. revert step. induction left as [|left IH]; intros step Hs Hn Hb; simpl; intros Hscan Hj Hm.
  - pose proof (Z.mod_pos_bound (j - cur) (lenZ o)). lia.
  - rewrite u64_small in Hscan by lia.
    destruct (nthZ_is_Some o ((cur + step) mod lenZ o)) as [w' Hw'].
    { apply Z.mod_pos_bound. lia. }
    rewrite Hw' in Hscan. destruct (w' =? 0) eqn:Ew; [done|].
    destruct (decide (step = (j - cur) mod lenZ o)) as [Heq|Hne].
    + replace ((cur + step) mod lenZ o) with j in Hw'.
      * intros ->. assert (Some 0 = Some w') as [= <-] by congruence. lia.
      * apply nthZ_Some in Hj. rewrite Heq, Z.add_mod_idemp_r by lia.
        replace (cur + (j - cur)) with j by lia. symmetry. by apply Z.mod_small.
    + eapply (IH (step + 1)); eauto; lia.
Qed.

(** [ReserveNext] takes one free track of the tier, or reports a full tier
    and changes nothing. *)
Lemma ReserveNext_spec ty id a :
  wf a -> id <> 0 ->
  (ReserveNext ty id a = (a, None) /\ free_tracks ty a = 0) \/
  (exists index a',
     ReserveNext ty id a = (a', Some (SegmentAt ty index)) /\
     0 <= index < zones_ a * 64 /\ wf a' /\ zones_ a' = zones_ a /\
     claimed id [(ty, index)] a a' /\
     (forall ty', free_tracks ty' a' = free_tracks ty' a - if decide (ty = ty') then 1 else 0)).
Proof.
  intros Hwf Hid. unfold ReserveNext. pose proof (wf_len a Hwf ty) as Hl.
  pose proof (wf_cursor a Hwf ty) as Hc. pose proof (wf_zones a Hwf) as Hz.
  destruct (owners ty a) as [|x o'] eqn:Eo.
  { left. split; [done|]. unfold free_tracks. by rewrite Eo. }
  rewrite <- Eo in *. clear x o' Eo.
  destruct (reserve_scan _ _ _ _) as [i|] eqn:Es.
  - right. pose proof (reserve_scan_Some _ _ _ _ _ Es) as Hi.
    pose proof (nthZ_Some _ _ _ Hi) as Hir.
    exists i. eexists. split; [done|].
    assert (zones_ a <> 0) by lia.
    split; [lia|]. split; [|split; [|split]].
    + split.
      * by autorewrite with alloc.
      * intros ty'. autorewrite with alloc. case_decide; [subst|by apply wf_len].
        autorewrite with len. done.
      * intros ty'. autorewrite with alloc.
        case_decide; [subst|by apply wf_cursor]. rewrite Hl.
        pose proof (Z.mod_pos_bound (i + 1) (zones_ a * 64)). lia.
    + by autorewrite with alloc.
    + split.
      * apply NoDup_singleton.
      * intros tr ->%list_elem_of_singleton. done.
      * intros tr ->%list_elem_of_singleton. unfold owner. simpl. autorewrite with alloc.
        rewrite decide_True by done. apply nthZ_updZ_eq. lia.
      * intros [ty' j] Hn. unfold owner. simpl. autorewrite with alloc.
        case_decide; subst; [|done]. apply nthZ_updZ_ne. intros ->. apply Hn. by left.
    + intros ty'. unfold free_tracks. autorewrite with alloc. case_decide; subst; [|lia].
      by apply count_free_updZ.
  - left. split; [done|]. apply count_free_none. intros j w Hj.
    pose proof (nthZ_Some _ _ _ Hj).
    apply (reserve_scan_None (owners ty a) (cursor ty a) (length (owners ty a)) 0 j w);
      try done; try lia.
    apply Z.mod_pos_bound. lia.
Qed.

Lemma segment_index_at ty i : 0 <= i < 2 ^ 38 -> segment_index (SegmentAt ty i) = i.
Proof.
  intros H. unfold segment_index, SegmentAt. simpl seg_zone; simpl seg_group.
  unfold kGroupsPerZone. pose proof (Z.div_mod i 64 ltac:(lia)).
  pose proof (Z.mod_pos_bound i 64 ltac:(lia)).
  rewrite (u32_small (i / 64)), (u32_small (i mod 64)) by lia.
  rewrite !u64_small; [lia|..]; rewrite ?u64_small; lia.
Qed.

Lemma segment_track_of tr : 0 <= tr.2 < 2 ^ 38 -> segment_track (segment_of tr) = tr.
Proof.
  destruct tr as [ty i]. intros H. unfold segment_track, segment_of. simpl fst; simpl snd.
  by rewrite segment_index_at.
Qed.

Lemma capacity_app t1 t2 : capacity (t1 ++ t2) = capacity t1 + capacity t2.
Proof. induction t1; simpl; lia. Qed.

Lemma capacity_nonneg trs : 0 <= capacity trs.
Proof. induction trs as [|tr trs IH]; simpl; [lia|]. pose proof (track_sectors_pos tr.1). lia. Qed.

Lemma capacity_tier ty trs :
  Forall (fun tr => tr.1 = ty) trs -> capacity trs = lenZ trs * (512 * track_sectors ty).
Proof. induction 1 as [|tr trs Htr _ IH]; simpl; [done|]. rewrite Htr. autorewrite with len. lia. Qed.

(** What one tier's loop (or the whole loop) did: it claimed [trs], appended
    their segments and reservations, and lowered [remaining]. *)
Record took (id : Z) (trs : list track) (l l' : AllocLoop) : Prop := {
  took_wf : wf (al_alloc l');
  took_zones : zones_ (al_alloc l') = zones_ (al_alloc l);
  took_segments : al_segments l' = al_segments l ++ map segment_of trs;
  took_reservations : al_reservations l' = al_reservations l ++ trs;
  took_remaining : al_remaining l' = Z.max 0 (al_remaining l - capacity trs);
  took_claimed : claimed id trs (al_alloc l) (al_alloc l');
  took_minimal : forall pre tr, trs = pre ++ [tr] -> capacity pre < al_remaining l;
}.

Lemma took_nil id l : wf (al_alloc l) -> 0 <= al_remaining l -> took id [] l l.
Proof.
  intros. split; try done; simpl.
  - by rewrite app_nil_r.
  - by rewrite app_nil_r.
  - lia.
  - apply claimed_nil.
  - intros pre tr E. by destruct pre.
Qed.

Lemma took_app id t1 t2 l l1 l2 :
  id <> 0 -> took id t1 l l1 -> took id t2 l1 l2 -> took id (t1 ++ t2) l l2.
Proof.
  intros Hid [W1 Z1 S1 R1 M1 C1 N1] [W2 Z2 S2 R2 M2 C2 N2]. split.
  - done.
  - congruence.
  - by rewrite S2, S1, map_app, app_assoc.
  - by rewrite R2, R1, app_assoc.
  - rewrite M2, M1, capacity_app. pose proof (capacity_nonneg t2). lia.
  - by eapply claimed_app.
  - intros pre tr E. destruct (decide (t2 = [])) as [->|Hne].
    + rewrite app_nil_r in E. by eapply N1.
    + destruct (exists_last Hne) as (p2 & tr2 & ->). rewrite app_assoc in E.
      apply app_inj_tail in E as [<- <-]. specialize (N2 _ _ eq_refl).
      rewrite capacity_app. pose proof (capacity_nonneg p2). lia.
Qed.

Lemma segment_index_wf ty a index :
  wf a -> 0 <= index < zones_ a * 64 -> segment_index (SegmentAt ty index) = index.
Proof. intros Hwf ?. apply segment_index_at. pose proof (wf_zones a Hwf). lia. Qed.

(** The inner loop: with more fuel than free tracks it terminates, having
    claimed tracks of its tier until the request is met or the tier is full. *)
Lemma alloc_tier_spec fuel ty ft bf id l :
  wf (al_alloc l) -> id <> 0 -> 0 <= al_remaining l ->
  free_tracks ty (al_alloc l) < Z.of_nat fuel ->
  exists trs l',
    alloc_tier fuel ty ft bf id l = Some l' /\ took id trs l l' /\
    Forall (fun tr => tr.1 = ty) trs /\
    (forall ty', free_tracks ty' (al_alloc l') =
       free_tracks ty' (al_alloc l) - if decide (ty = ty') then lenZ trs else 0) /\
    (al_remaining l' = 0 \/ free_tracks ty (al_alloc l') = 0).
Proof.
  revert l. induction fuel as [|fuel IH]; intros l Hwf Hid Hrem Hfuel; simpl.
  { pose proof (free_range _ Hwf ty). lia. }
  destruct (al_remaining l >? 0) eqn:Er.
  2: { exists [], l. split; [done|]. split; [by apply took_nil|]. split; [constructor|].
       split; [intros ty'; case_decide; rewrite ?lenZ_nil; lia|]. lia. }
  destruct (ReserveNext_spec ty id _ Hwf Hid) as [[-> Hfull]|(i & a1 & -> & Hi & Hwf1 & Hz & Hcl & Hfree)].
  { exists [], l. destruct l as [a segs res rem]. simpl in *.
    split; [done|]. split; [by apply took_nil|]. split; [constructor|].
    split; [intros ty'; case_decide; rewrite ?lenZ_nil; lia|]. by right. }
  rewrite (segment_index_wf ty _ i Hwf Hi), SegmentBytes_eq.
  set (rem' := if al_remaining l >? _ then _ else _).
  set (l1 := MkLoop a1 _ _ rem').
  assert (rem' = Z.max 0 (al_remaining l - 512 * track_sectors ty)) as Hrem'.
  { unfold rem'. pose proof (track_sectors_pos ty). zcase; lia. }
  assert (took id [(ty, i)] l l1) as T1.
  { split; simpl; try done; [by rewrite Z.add_0_r|].
    intros pre tr E. destruct pre as [|? [|]]; [simpl; lia|done..]. }
  assert (forall ty', free_tracks ty' (al_alloc l1) =
    free_tracks ty' (al_alloc l) - if decide (ty = ty') then lenZ [(ty, i)] else 0) as HF1.
  { intros ty'. simpl. rewrite Hfree. by case_decide. }
  assert (al_remaining l1 = 0 \/ free_tracks ty (al_alloc l1) = 0 ->
    exists trs l', Some l1 = Some l' /\ took id trs l l' /\ Forall (fun tr => tr.1 = ty) trs /\
    (forall ty', free_tracks ty' (al_alloc l') =
       free_tracks ty' (al_alloc l) - if decide (ty = ty') then lenZ trs else 0) /\
    (al_remaining l' = 0 \/ free_tracks ty (al_alloc l') = 0)) as Hstop.
  { intros Hs. exists [(ty, i)], l1. split_and!; auto. }
  destruct (_ && (TierFreeBytes ty a1 =? 0)) eqn:Eb1.
  { apply Hstop. right. simpl. rewrite !andb_true_iff in Eb1. destruct Eb1 as [_ Eb1].
    rewrite (TierFreeBytes_eq _ Hwf1) in Eb1. pose proof (track_sectors_pos ty).
    apply Z.eqb_eq in Eb1. nia. }
  destruct (_ && (rem' =? 0)) eqn:Eb2.
  { apply Hstop. left. simpl. rewrite andb_true_iff in Eb2. lia. }
  clear Hstop. destruct (IH l1) as (trs & l' & -> & T2 & Hty & HF2 & Hend); try done.
  { simpl. lia. }
  { rewrite HF1, decide_True, lenZ_cons, lenZ_nil by done. lia. }
  exists ((ty, i) :: trs), l'. split; [done|]. split; [by apply (took_app _ [(ty, i)] trs l l1 l')|].
  split; [by constructor|]. split; [|done].
  intros ty'. rewrite HF2, HF1. case_decide; autorewrite with len; lia.
Qed.

(** Level-aware placement: data below the deepest level goes to TOP tracks
    only; data of the deepest level fills BOTTOM tracks and spills to TOP only
    when no BOTTOM track is left. *)
Definition placement (bottom_first : bool) (a : KVIMRTrackAllocator) (trs : list track) : Prop :=
  if bottom_first then
    exists bs ts, trs = bs ++ ts /\ Forall (fun tr => tr.1 = BOTTOM) bs /\
      Forall (fun tr => tr.1 = TOP) ts /\ (ts <> [] -> lenZ bs = free_tracks BOTTOM a)
  else Forall (fun tr => tr.1 = TOP) trs.

Lemma fuel_enough ty a : wf a -> free_tracks ty a < Z.of_nat (S (length (owners ty a))).
Proof.
  intros Hwf. unfold free_tracks. pose proof (count_free_range (owners ty a)) as H.
  unfold lenZ in H. lia.
Qed.

Lemma alloc_tiers_top id l :
  wf (al_alloc l) -> id <> 0 -> 0 < al_remaining l ->
  al_remaining l <= free_tracks TOP (al_alloc l) * (512 * kTopSectors) ->
  forall ft bf, exists trs l',
    alloc_tiers [TOP] ft bf id l = Some l' /\ took id trs l l' /\
    Forall (fun tr => tr.1 = TOP) trs /\ al_remaining l' = 0.
Proof.
  intros Hwf Hid Hrem Hcap ft bf. cbn [alloc_tiers].
  replace (al_remaining l >? 0) with true by lia.
  destruct (alloc_tier_spec _ TOP ft bf id l Hwf Hid ltac:(lia) (fuel_enough TOP _ Hwf))
    as (trs & l' & -> & T & Hty & HF & Hend).
  exists trs, l'. split_and!; try done. destruct Hend as [|Hfull]; [done|].
  rewrite (took_remaining _ _ _ _ T), (capacity_tier TOP) by done.
  rewrite HF, decide_True in Hfull by done. simpl track_sectors. nia.
Qed.

Lemma alloc_tiers_bottom id l :
  wf (al_alloc l) -> id <> 0 -> 0 < al_remaining l ->
  al_remaining l <= free_tracks TOP (al_alloc l) * (512 * kTopSectors)
                    + free_tracks BOTTOM (al_alloc l) * (512 * kBottomSectors) ->
  exists trs l',
    alloc_tiers [BOTTOM; TOP] true true id l = Some l' /\ took id trs l l' /\
    placement true (al_alloc l) trs /\ al_remaining l' = 0.
Proof.
  intros Hwf Hid Hrem Hcap. cbn [alloc_tiers].
  replace (al_remaining l >? 0) with true by lia.
  destruct (alloc_tier_spec _ BOTTOM true true id l Hwf Hid ltac:(lia) (fuel_enough BOTTOM _ Hwf))
    as (bs & l1 & -> & T1 & Hb & HF & Hend).
  pose proof (took_remaining _ _ _ _ T1) as Hr.
  destruct (al_remaining l1 >? 0) eqn:Er.
  - destruct Hend as [|Hfull]; [lia|].
    pose proof (capacity_tier _ _ Hb) as Hcb. simpl track_sectors in Hcb.
    pose proof (HF TOP) as HFT. rewrite decide_False in HFT by done.
    rewrite HF, decide_True in Hfull by done.
    destruct (alloc_tiers_top id l1 (took_wf _ _ _ _ T1) Hid ltac:(lia)) with (ft := false) (bf := true)
      as (ts & l2 & E2 & T2 & Ht & Hz); [nia|].
    exists (bs ++ ts), l2. cbn [alloc_tiers] in E2. rewrite Er in E2. split; [done|].
    split; [by eapply took_app|]. split; [|done]. exists bs, ts. split_and!; try done. intros _. lia.
  - exists bs, l1. split; [done|]. split; [done|]. split; [|lia].
    exists bs, []. rewrite app_nil_r. split_and!; done || constructor.
Qed.

(** Every request has an answer: the loops never run out of fuel. *)
Lemma Allocate_cases id bytes level largest a :
  wf a -> 0 <= bytes ->
  (id <> 0 /\ 0 < bytes <= available (level =? largest) a /\ exists trs a',
     Allocate id bytes level largest a = Some (a', map segment_of trs, OK) /\
     wf a' /\ zones_ a' = zones_ a /\ claimed id trs a a' /\ bytes <= capacity trs /\
     (forall pre tr, trs = pre ++ [tr] -> capacity pre < bytes) /\
     placement (level =? largest) a trs) \/
  (exists e, Allocate id bytes level largest a = Some (a, [], e) /\
     e = (if (id =? 0) || (bytes =? 0) then InvalidArgument "invalid KVIMR allocation request"
          else IOError "insufficient KVIMR track capacity") /\
     (id = 0 \/ bytes = 0 \/ bytes > available (level =? largest) a)).
Proof.
  intros Hwf Hb. unfold Allocate.
  destruct ((id =? 0) || (bytes =? 0)) eqn:E0.
  { right. eexists. split; [done|]. split; [done|]. lia. }
  rewrite (available_eq _ Hwf).
  destruct (bytes >? _) eqn:E1.
  { right. eexists. split; [done|]. split; [done|]. lia. }
  left. split; [lia|]. split; [lia|]. set (l := MkLoop a [] [] bytes).
  assert (exists trs l', alloc_tiers (if level =? largest then [BOTTOM; TOP] else [TOP]) true
     (level =? largest) id l = Some l' /\ took id trs l l' /\
     placement (level =? largest) a trs /\ al_remaining l' = 0) as (trs & l' & -> & T & Hp & Hz).
  { destruct (level =? largest) eqn:El.
    - apply (alloc_tiers_bottom id l); simpl; [done|lia..].
    - destruct (alloc_tiers_top id l) with (ft := true) (bf := false)
        as (trs & l' & ? & ? & ? & ?); simpl; [done|lia..|].
      by exists trs, l'. }
  exists trs, (al_alloc l'). rewrite Hz. simpl.
  rewrite (took_segments _ _ _ _ T). pose proof (took_remaining _ _ _ _ T) as Hr.
  destruct T; simpl in *. split_and!; try done. lia.
Qed.

(** ** Geometry *)

Definition tier_offset (ty : KVIMRTrackType) : Z := match ty with TOP => 0 | BOTTOM => kTopSectors end.

Lemma segment_of_start tr :
  0 <= tr.2 < 2 ^ 38 ->
  logical_sector_start (segment_of tr) = 8192 * tr.2 + tier_offset tr.1.
Proof.
  destruct tr as [ty i]. simpl. intros H. unfold tier_offset, SegmentAt; simpl logical_sector_start.
  unfold kGroupsPerZone, kZoneSectors, kGroupSectors.
  pose proof (Z.div_mod i 64 ltac:(lia)). pose proof (Z.mod_pos_bound i 64 ltac:(lia)).
  rewrite (u32_small (i / 64)), (u32_small (i mod 64)) by lia.
  assert (0 <= (match ty with TOP => 0 | BOTTOM => kTopSectors end) <= 3648)
    by (destruct ty; vm_compute; done).
  rewrite !u64_small; rewrite ?u64_small; rewrite ?u64_small; lia.
Qed.

Lemma segment_of_length tr : sector_length (segment_of tr) = track_sectors tr.1.
Proof. by destruct tr. Qed.
Lemma segment_of_type tr : seg_type (segment_of tr) = tr.1.
Proof. by destruct tr. Qed.

(** Sector [x] belongs to segment [s]. *)
Definition in_segment (s : KVIMRTrackSegment) (x : Z) : Prop :=
  logical_sector_start s <= x < logical_sector_start s + sector_length s.

Lemma segments_disjoint_at tr1 tr2 x :
  0 <= tr1.2 < 2 ^ 38 -> 0 <= tr2.2 < 2 ^ 38 ->
  in_segment (segment_of tr1) x -> in_segment (segment_of tr2) x -> tr1 = tr2.
Proof.
  unfold in_segment. intros H1 H2. rewrite !segment_of_start, !segment_of_length by done.
  destruct tr1 as [[] i], tr2 as [[] j]; simpl; unfold kTopSectors, kBottomSectors;
    intros; (f_equal; lia) || lia.
Qed.

Lemma segment_in_device a tr o x :
  wf a -> owner a tr = Some o -> in_segment (segment_of tr) x ->
  0 <= x < zones_ a * kZoneSectors.
Proof.
  intros Hwf Ho. pose proof (owner_index _ Hwf _ _ Ho). pose proof (wf_zones _ Hwf).
  unfold in_segment, kZoneSectors. rewrite segment_of_start, segment_of_length by lia.
  destruct tr as [[] i]; simpl in *; unfold kTopSectors, kBottomSectors; lia.
Qed.

(** ** [Release], [Undo], [Reset] *)

Lemma owner_Release id a tr :
  id <> 0 ->
  owner (Release id a).1 tr = (fun o => if o =? id then 0 else o) <$> owner a tr.
Proof.
  intros Hid. unfold Release. replace (id =? 0) with false by lia. simpl.
  destruct tr as [[] i]; unfold owner, owners, release_owners, nthZ; simpl;
    (case_match; [|done]); by rewrite list_lookup_fmap.
Qed.

Lemma wf_Release id a : wf a -> wf (Release id a).1.
Proof.
  intros Hwf. unfold Release. case_match; [done|]. split; simpl.
  - apply Hwf.
  - intros []; simpl; unfold release_owners, lenZ; rewrite length_map;
      [apply (wf_len a Hwf TOP)|apply (wf_len a Hwf BOTTOM)].
  - intros []; [apply (wf_cursor a Hwf TOP)|apply (wf_cursor a Hwf BOTTOM)].
Qed.

Lemma zones_Release id a : zones_ (Release id a).1 = zones_ a.
Proof. unfold Release. by case_match. Qed.

Lemma wf_Reset zones : 0 <= zones < 2 ^ 32 -> wf (Reset zones).
Proof.
  intros H.
  assert (TrackCount zones = zones * 64) as HT by (unfold TrackCount; apply u64_small; unfold kGroupsPerZone; lia).
  split; simpl; [done|..].
  - intros []; simpl; unfold lenZ; rewrite length_replicate, HT; lia.
  - intros []; simpl; lia.
Qed.

Lemma owner_Reset zones tr :
  0 <= zones < 2 ^ 32 -> owner (Reset zones) tr = if (0 <=? tr.2) && (tr.2 <? zones * 64) then Some 0 else None.
Proof.
  intros H.
  assert (TrackCount zones = zones * 64) as HT by (unfold TrackCount; apply u64_small; unfold kGroupsPerZone; lia).
  unfold owner, nthZ, Reset. rewrite HT.
  destruct tr as [[] i]; simpl; (destruct (0 <=? i) eqn:E1; simpl; [|done]);
    (destruct (i <? zones * 64) eqn:E2; [apply lookup_replicate_2; lia|apply lookup_replicate_None; lia]).
Qed.

Lemma list_nthZ_eq {A} (l k : list A) : (forall i, nthZ l i = nthZ k i) -> l = k.
Proof.
  intros H. apply list_eq. intros i. specialize (H (Z.of_nat i)). unfold nthZ in H.
  by rewrite (proj2 (Z.leb_le 0 (Z.of_nat i)) ltac:(lia)), Nat2Z.id in H.
Qed.

Lemma alloc_eq a b :
  zones_ a = zones_ b -> (forall ty, cursor ty a = cursor ty b) ->
  (forall tr, owner a tr = owner b tr) -> a = b.
Proof.
  destruct a as [z1 t1 b1 c1 d1], b as [z2 t2 b2 c2 d2]. simpl. intros -> Hc Ho.
  pose proof (Hc TOP). pose proof (Hc BOTTOM). simpl in *.
  f_equal; try done; apply list_nthZ_eq; intros i;
    [exact (Ho (TOP, i))|exact (Ho (BOTTOM, i))].
Qed.

Lemma Undo_claimed id trs a0 a :
  id <> 0 -> claimed id trs a0 a -> claimed id [] a0 (Undo trs id a).
Proof.
  intros Hid. revert a. induction trs as [|[ty i] trs IH]; intros a Hc; simpl; [done|].
  apply IH. clear IH. destruct Hc as [N F O R].
  assert (owner a (ty, i) = Some id) as Ho by (apply O; left).
  unfold undo_one; simpl. unfold owner in Ho; simpl in Ho.
  pose proof (nthZ_Some _ _ _ Ho) as Hr.
  rewrite (proj2 (Z.ltb_lt _ _)), bool_decide_true by (done || lia). simpl.
  apply NoDup_cons in N as [Nin N].
  assert (forall tr, owner (set_owners ty (updZ (owners ty a) i 0) a) tr =
    if decide (tr = (ty, i)) then Some 0 else owner a tr) as Hset.
  { intros [ty' j]. unfold owner; simpl. autorewrite with alloc.
    case_decide; subst.
    - case_decide as E; [injection E as ->; by apply nthZ_updZ_eq|].
      apply nthZ_updZ_ne. congruence.
    - by rewrite decide_False by congruence. }
  split; [done|..].
  - intros tr Hin. apply F. by right.
  - intros tr Hin. rewrite Hset, decide_False by (intros ->; done). apply O. by right.
  - intros tr Hn. rewrite Hset. case_decide; subst; [symmetry; apply F; left|].
    apply R. rewrite elem_of_cons. tauto.
Qed.

Lemma zones_Undo trs id a : zones_ (Undo trs id a) = zones_ a.
Proof.
  revert a. induction trs as [|tr trs IH]; intros a; simpl; [done|]. rewrite IH.
  unfold undo_one. case_match; [apply zones_set_owners|done].
Qed.
Lemma cursor_Undo ty trs id a : cursor ty (Undo trs id a) = cursor ty a.
Proof.
  revert a. induction trs as [|tr trs IH]; intros a; simpl; [done|]. rewrite IH.
  unfold undo_one. case_match; [apply cursor_set_owners|done].
Qed.

Lemma Undo_restores id trs a0 a :
  id <> 0 -> claimed id trs a0 a -> zones_ a = zones_ a0 ->
  (forall ty, cursor ty a = cursor ty a0) -> Undo trs id a = a0.
Proof.
  intros Hid Hc Hz Hcur. apply alloc_eq.
  - by rewrite zones_Undo.
  - intros ty. by rewrite cursor_Undo.
  - intros tr. apply (claimed_other _ _ _ _ (Undo_claimed _ _ _ _ Hid Hc)). by intros ?%elem_of_nil.
Qed.

(** ** [Restore] *)

(** The [uint32_t] fields read from metadata. *)
Definition typed_segment (s : KVIMRTrackSegment) : Prop :=
  0 <= seg_zone s < 2 ^ 32 /\ 0 <= seg_group s < 2 ^ 32.

(** [s] is exactly a track of the device. *)
Definition exact_segment (a : KVIMRTrackAllocator) (s : KVIMRTrackSegment) : Prop :=
  s = segment_of (segment_track s) /\ 0 <= segment_index s < zones_ a * 64.

Definition segment_checks (a : KVIMRTrackAllocator) (s : KVIMRTrackSegment) : bool :=
  negb ((seg_zone s >=? zones_ a) || (seg_group s >=? kGroupsPerZone)) &&
  negb (negb (logical_sector_start s =?
              (seg_zone s [*] kZoneSectors) [+] (seg_group s [*] kGroupSectors)
                [+] (match seg_type s with TOP => 0 | BOTTOM => kTopSectors end))
        || negb (sector_length s =? track_sectors (seg_type s))).

Lemma segment_checks_exact a s :
  wf a -> typed_segment s -> segment_checks a s = true <-> exact_segment a s.
Proof.
  intros Hwf [Hz Hg]. pose proof (wf_zones a Hwf) as Hzz.
  unfold segment_checks, exact_segment. destruct s as [z g ty st len]; simpl in *.
  unfold segment_index; simpl. unfold kGroupsPerZone in *.
  rewrite !andb_true_iff, !negb_true_iff, !orb_false_iff, !negb_false_iff. split.
  - intros [[H1 H2] [H3 H4]]. rewrite !u64_small by (rewrite ?u64_small; lia).
    split; [|lia].
    unfold segment_of, segment_track, SegmentAt, segment_index; simpl. unfold kGroupsPerZone.
    rewrite !(u64_small (z * 64)), !(u64_small (z * 64 + g)) by lia.
    replace ((z * 64 + g) / 64) with z by (apply (Z.div_unique _ _ _ g); lia).
    replace ((z * 64 + g) mod 64) with g by (apply (Z.mod_unique _ _ z); lia).
    rewrite !u32_small by lia. f_equal; lia.
  - intros [H1 H2]. injection H1 as Hz1 Hg1 Hs1 Hl1.
    unfold segment_index, kGroupsPerZone in *; simpl in *.
    remember ((z [*] 64) [+] g) as i eqn:Ei. clear Ei.
    pose proof (Z.mod_pos_bound i 64 ltac:(lia)). pose proof (Z.div_mod i 64 ltac:(lia)).
    rewrite (u32_small (i / 64)) in * by lia. rewrite (u32_small (i mod 64)) in * by lia.
    subst z g. split; lia.
Qed.

Lemma restore_loop_cons id s rest resv tl bl a :
  restore_loop id (s :: rest) resv tl bl a =
  (if segment_checks a s then
     let o := owners (seg_type s) a in
     if bool_decide (owner a (segment_track s) = Some 0) then
       let next := (segment_index s + 1) mod lenZ o in
       restore_loop id rest (resv ++ [segment_track s])
         (match seg_type s with TOP => next | BOTTOM => tl end)
         (match seg_type s with TOP => bl | BOTTOM => next end)
         (set_owners (seg_type s) (updZ o (segment_index s) id) a)
     else (Undo resv id a, IOError "KVIMR track already owned")
   else (a, InvalidArgument
           (if (seg_zone s >=? zones_ a) || (seg_group s >=? kGroupsPerZone)
            then "invalid KVIMR track geometry" else "invalid KVIMR track segment"))).
Proof.
  unfold segment_checks. cbn [restore_loop].
  destruct (_ || (seg_group s >=? kGroupsPerZone)) eqn:?; [done|]. simpl negb. simpl andb.
  destruct (_ || negb (sector_length s =? _)) eqn:?; [done|]. simpl negb.
  unfold owner, segment_track. simpl. by destruct (bool_decide _).
Qed.

Lemma claim_one id a s :
  wf a -> id <> 0 -> exact_segment a s -> owner a (segment_track s) = Some 0 ->
  claimed id [segment_track s] a (set_owners (seg_type s) (updZ (owners (seg_type s) a) (segment_index s) id) a).
Proof.
  intros Hwf Hid [Hex Hi] Ho. split.
  - apply NoDup_singleton.
  - by intros tr ->%list_elem_of_singleton.
  - intros tr ->%list_elem_of_singleton. unfold owner; simpl. autorewrite with alloc.
    rewrite decide_True by done. apply nthZ_updZ_eq. by rewrite (wf_len a Hwf).
  - intros [ty j] Hn. unfold owner; simpl. autorewrite with alloc. case_decide; subst; [|done].
    apply nthZ_updZ_ne. intros <-. apply Hn. by left.
Qed.

Lemma wf_set_owner ty i id a : wf a -> wf (set_owners ty (updZ (owners ty a) i id) a).
Proof.
  intros Hwf. split.
  - autorewrite with alloc. apply Hwf.
  - intros ty'. autorewrite with alloc. case_decide; subst; autorewrite with len; by apply wf_len.
  - intros ty'. autorewrite with alloc. by apply wf_cursor.
Qed.

(** The loop either claims every segment, undoes everything (a track was
    owned), or stops at the first malformed segment keeping the earlier ones. *)
Lemma restore_loop_spec id segs : forall resv tl bl a0 a a' st,
  id <> 0 -> Forall typed_segment segs -> wf a -> claimed id resv a0 a ->
  zones_ a = zones_ a0 -> (forall ty, cursor ty a = cursor ty a0) ->
  (0 <= tl /\ (zones_ a <> 0 -> tl < zones_ a * 64)) ->
  (0 <= bl /\ (zones_ a <> 0 -> bl < zones_ a * 64)) ->
  restore_loop id segs resv tl bl a = (a', st) ->
  match st with
  | OK => wf a' /\ zones_ a' = zones_ a0 /\ Forall (exact_segment a0) segs /\
          claimed id (resv ++ map segment_track segs) a0 a'
  | IOError _ => a' = a0
  | InvalidArgument _ => exists pre s post, segs = pre ++ s :: post /\
          segment_checks a0 s = false /\ claimed id (resv ++ map segment_track pre) a0 a'
  | _ => False
  end.
Proof.
  induction segs as [|s rest IH]; intros resv tl bl a0 a a' st Hid Hty Hwf Hcl Hz Hcur Htl Hbl.
  - simpl. intros [= <- <-]. rewrite app_nil_r. split_and!; try done.
    + split.
      * autorewrite with alloc. apply Hwf.
      * intros ty. autorewrite with alloc. apply (wf_len a Hwf).
      * intros ty. autorewrite with alloc. by destruct ty.
    + by destruct Hcl.
  - apply Forall_cons in Hty as [Hs Hty]. rewrite restore_loop_cons.
    assert (segment_checks a s = segment_checks a0 s) as Hck
      by (unfold segment_checks; by rewrite Hz).
    destruct (segment_checks a s) eqn:Ec.
    2: { intros [= <- <-]. exists [], s, rest. simpl. rewrite app_nil_r. auto. }
    case_bool_decide as Ho.
    2: { intros [= <- <-]. by eapply Undo_restores. }
    apply segment_checks_exact in Ec; [|done..].
    pose proof (claim_one id a s Hwf Hid Ec Ho) as Hone. intros Hrun.
    set (a1 := set_owners _ _ a) in *.
    assert (zones_ a1 = zones_ a) as Hz1 by (unfold a1; by autorewrite with alloc).
    assert (forall x, 0 <= x mod (zones_ a * 64) /\ (zones_ a <> 0 -> x mod (zones_ a * 64) < zones_ a * 64)) as Hmod.
    { intros x. destruct Ec as [_ ?]. pose proof (Z.mod_pos_bound x (zones_ a * 64)). lia. }
    eapply (IH _ _ _ a0) in Hrun; try done.
    + destruct st; try done.
      * destruct Hrun as (? & ? & ? & Hc). split_and!; try done.
        -- constructor; [|done]. unfold exact_segment in *. by rewrite <- Hz.
        -- rewrite <- app_assoc in Hc. done.
      * destruct Hrun as (pre & s' & post & -> & ? & Hc). exists (s :: pre), s', post.
        rewrite <- app_assoc in Hc. auto.
    + by apply wf_set_owner.
    + by eapply claimed_app.
    + by transitivity (zones_ a).
    + intros ty. unfold a1. by autorewrite with alloc.
    + autorewrite with alloc. rewrite (wf_len a Hwf). by destruct (seg_type s).
    + autorewrite with alloc. rewrite (wf_len a Hwf). by destruct (seg_type s).
Qed.

Lemma restore_loop_complete id trs : forall resv tl bl a,
  id <> 0 -> wf a -> NoDup trs -> (forall tr, tr ∈ trs -> owner a tr = Some 0) ->
  (restore_loop id (map segment_of trs) resv tl bl a).2 = OK.
Proof.
  induction trs as [|tr trs IH]; intros resv tl bl a Hid Hwf Hnd Hfree; [done|].
  rewrite map_cons, restore_loop_cons.
  assert (owner a tr = Some 0) as Ho by (apply Hfree; left).
  pose proof (owner_index _ Hwf _ _ Ho) as Hi. pose proof (wf_zones _ Hwf).
  assert (segment_track (segment_of tr) = tr) as Htr by (apply segment_track_of; lia).
  assert (exact_segment a (segment_of tr)) as Hex.
  { split; [by rewrite Htr|]. apply (f_equal snd) in Htr. simpl in Htr. by rewrite Htr. }
  assert (segment_checks a (segment_of tr) = true) as ->.
  { apply segment_checks_exact; [done| |done].
    unfold typed_segment, segment_of, SegmentAt; simpl.
    pose proof (u32_range (tr.2 / kGroupsPerZone)). pose proof (u32_range (tr.2 mod kGroupsPerZone)).
    lia. }
  rewrite Htr, bool_decide_true by done. apply NoDup_cons in Hnd as [Hnin Hnd].
  apply IH; try done.
  - by apply wf_set_owner.
  - pose proof (claim_one id a _ Hwf Hid Hex ltac:(by rewrite Htr)) as [_ _ _ R].
    rewrite Htr in R. intros tr' Hin. rewrite R; [apply Hfree; by right|].
    intros ->%list_elem_of_singleton. done.
Qed.

Lemma Restore_OK id segs a a' :
  wf a -> Forall typed_segment segs -> Restore id segs a = (a', OK) ->
  id <> 0 /\ segs <> [] /\ wf a' /\ zones_ a' = zones_ a /\ Forall (exact_segment a) segs /\
  claimed id (map segment_track segs) a a'.
Proof.
  intros Hwf Hty. unfold Restore. destruct (_ || bool_decide (segs = [])) eqn:E0; [done|].
  apply orb_false_iff in E0 as [E0 E1%bool_decide_eq_false].
  destruct (_ || _) eqn:E2; [done|]. intros Hrun. split; [lia|]. split; [done|].
  apply (restore_loop_spec id segs [] _ _ a) in Hrun; try done.
  - lia.
  - apply claimed_nil.
  - apply (wf_cursor a Hwf TOP).
  - apply (wf_cursor a Hwf BOTTOM).
Qed.

Lemma Restore_tracks id trs a :
  wf a -> id <> 0 -> trs <> [] -> NoDup trs -> (forall tr, tr ∈ trs -> owner a tr = Some 0) ->
  exists a', Restore id (map segment_of trs) a = (a', OK) /\ wf a' /\ zones_ a' = zones_ a /\
    claimed id trs a a'.
Proof.
  intros Hwf Hid Hne Hnd Hfree.
  assert (zones_ a <> 0) as Hz.
  { destruct trs as [|tr trs]; [done|]. pose proof (owner_index _ Hwf tr 0 (Hfree tr ltac:(left))). lia. }
  assert (forall ty, bool_decide (owners ty a = []) = false) as Hown.
  { intros ty. apply bool_decide_eq_false. intros ?%(owners_nil _ Hwf). done. }
  destruct (Restore id (map segment_of trs) a) as [a' st] eqn:E. exists a'.
  assert (Forall typed_segment (map segment_of trs)) as Hty.
  { apply Forall_fmap, Forall_forall. intros tr _. unfold typed_segment; simpl.
    pose proof (u32_range (tr.2 / kGroupsPerZone)). pose proof (u32_range (tr.2 mod kGroupsPerZone)). lia. }
  assert (st = OK) as ->.
  { unfold Restore in E. replace (id =? 0) with false in E by lia.
    rewrite bool_decide_false in E by (by destruct trs). simpl in E.
    change (top_owner_ a) with (owners TOP a) in E. change (bottom_owner_ a) with (owners BOTTOM a) in E.
    rewrite !Hown in E. simpl in E.
    pose proof (restore_loop_complete id trs [] (top_cursor_ a) (bottom_cursor_ a) a Hid Hwf Hnd Hfree) as HC.
    by rewrite E in HC. }
  destruct (Restore_OK _ _ _ _ Hwf Hty E) as (_ & _ & ? & ? & _ & Hcl).
  assert (map segment_track (map segment_of trs) = trs) as Hid2.
  { clear -Hfree Hwf. induction trs as [|tr trs IH]; simpl; [done|].
    rewrite segment_track_of, IH; [done|..].
    - intros tr' Hin. apply Hfree. by right.
    - pose proof (owner_index _ Hwf tr 0 (Hfree tr ltac:(left))). pose proof (wf_zones _ Hwf). lia. }
  rewrite Hid2 in Hcl. auto.
Qed.

(** ** Properties *)

(** C33: an allocation that fits succeeds.  It returns the segments of distinct
    tracks that were free, gives exactly these tracks to the SSTable, keeps the
    representation invariant, covers the requested bytes and is minimal: no
    proper prefix of the segments would have been enough. *)
Theorem allocate_correct id bytes level largest a :
  wf a -> id <> 0 -> 0 < bytes <= available (level =? largest) a ->
  exists trs a',
    Allocate id bytes level largest a = Some (a', map segment_of trs, OK) /\
    wf a' /\ claimed id trs a a' /\ bytes <= capacity trs /\
    (forall pre tr, trs = pre ++ [tr] -> capacity pre < bytes).
Proof.
  intros Hwf Hid Hb.
  destruct (Allocate_cases id bytes level largest a Hwf ltac:(lia))
    as [(_ & _ & trs & a' & ? & ? & ? & ? & ? & ? & ?)|(e & ? & ? & [?|[?|?]])]; [|lia..].
  by exists trs, a'.
Qed.

Lemma allocate_correct_witness :
  exists trs a',
    Allocate 7 5000000 2 2 (Reset 1) = Some (a', map segment_of trs, OK) /\
    wf a' /\ claimed 7 trs (Reset 1) a' /\ 5000000 <= capacity trs /\
    (forall pre tr, trs = pre ++ [tr] -> capacity pre < 5000000).
Proof.
  apply (allocate_correct 7 5000000 2 2 (Reset 1)).
  - apply wf_Reset. lia.
  - lia.
  - split; [lia|]. vm_compute. discriminate.
Defined.

(** C34: every request is answered, and failure is atomic.  [Allocate] succeeds
    exactly when the SSTable number and size are non-zero and the free capacity
    of the tiers its level may use covers the size; otherwise it returns the
    documented error, no segments, and an unchanged allocator (the undo path
    after the loops is never needed). *)
Theorem allocate_total_atomic id bytes level largest a :
  wf a -> 0 <= bytes ->
  exists a' segs st,
    Allocate id bytes level largest a = Some (a', segs, st) /\
    (st = OK <-> id <> 0 /\ 0 < bytes <= available (level =? largest) a) /\
    (st <> OK -> a' = a /\ segs = [] /\
       st = if (id =? 0) || (bytes =? 0) then InvalidArgument "invalid KVIMR allocation request"
            else IOError "insufficient KVIMR track capacity").
Proof.
  intros Hwf Hb. destruct (Allocate_cases id bytes level largest a Hwf Hb)
    as [(? & ? & trs & a' & ? & _)|(e & ? & He & Hc)].
  - eexists _, _, OK. split; [done|]. split; [|done]. tauto.
  - exists a, [], e. split; [done|]. split; [|done].
    split; [|lia]. intros ->. by destruct (_ || _).
Qed.

Lemma allocate_total_atomic_witness :
  exists a' segs st,
    Allocate 3 300000000 1 1 (Reset 1) = Some (a', segs, st) /\
    (st = OK <-> 3 <> 0 /\ 0 < 300000000 <= available (1 =? 1) (Reset 1)) /\
    (st <> OK -> a' = Reset 1 /\ segs = [] /\
       st = if (3 =? 0) || (300000000 =? 0) then InvalidArgument "invalid KVIMR allocation request"
            else IOError "insufficient KVIMR track capacity").
Proof. apply (allocate_total_atomic 3 300000000 1 1 (Reset 1)); [apply wf_Reset|]; lia. Defined.

(** level-aware placement.  A successful allocation for a level other than
    the effective largest one uses TOP tracks only; one for the largest level
    uses BOTTOM tracks and continues on TOP tracks only after it has taken every
    free BOTTOM track. *)
Theorem allocate_placement id bytes level largest a a' segs :
  wf a -> 0 <= bytes -> Allocate id bytes level largest a = Some (a', segs, OK) ->
  exists trs, segs = map segment_of trs /\ placement (level =? largest) a trs.
Proof.
  intros Hwf Hb E. destruct (Allocate_cases id bytes level largest a Hwf Hb)
    as [(_ & _ & trs & a1 & E1 & _ & _ & _ & _ & _ & Hp)|(e & E1 & He & _)].
  - exists trs. split; [congruence|done].
  - assert (e = OK) by congruence. subst. by destruct (_ || _).
Qed.

Lemma allocate_placement_witness :
  exists a' segs, Allocate 9 2000000 0 3 (Reset 1) = Some (a', segs, OK) /\
    exists trs, segs = map segment_of trs /\ placement (0 =? 3) (Reset 1) trs.
Proof.
  destruct (Allocate 9 2000000 0 3 (Reset 1)) as [[[a' segs] st]|] eqn:E; [|by vm_compute in E].
  assert (st = OK) as -> by (vm_compute in E; congruence).
  exists a', segs. split; [done|].
  apply (allocate_placement 9 2000000 0 3 (Reset 1) a' segs); [apply wf_Reset; lia|lia|done].
Defined.

(** tracks are physically disjoint.  Two tracks of a well-formed allocator
    that share a sector are the same track, and every sector of a track lies in
    the [zones * 524288] sectors of the device. *)
Theorem tracks_disjoint a tr1 tr2 o1 o2 x :
  wf a -> owner a tr1 = Some o1 -> owner a tr2 = Some o2 ->
  in_segment (segment_of tr1) x ->
  0 <= x < zones_ a * kZoneSectors /\ (in_segment (segment_of tr2) x -> tr1 = tr2).
Proof.
  intros Hwf H1 H2 Hx. split; [exact (segment_in_device a tr1 o1 x Hwf H1 Hx)|]. intros Hx2.
  pose proof (owner_index _ Hwf _ _ H1). pose proof (owner_index _ Hwf _ _ H2).
  pose proof (wf_zones _ Hwf). eapply segments_disjoint_at; try done; lia.
Qed.

Lemma tracks_disjoint_witness :
  0 <= 4000 < 1 * kZoneSectors /\ (in_segment (segment_of (BOTTOM, 0)) 4000 -> (BOTTOM, 0) = (BOTTOM, 0)).
Proof.
  apply (tracks_disjoint (Reset 1) (BOTTOM, 0) (BOTTOM, 0) 0 0 4000).
  - apply wf_Reset. lia.
  - by vm_compute.
  - by vm_compute.
  - vm_compute. split; [discriminate|reflexivity].
Defined.

(** release undoes allocation.  Releasing an SSTable that owned nothing
    before an allocation gives every track back its previous owner. *)
Theorem allocate_release id bytes level largest a a' segs :
  wf a -> 0 <= bytes -> (forall tr, owner a tr <> Some id) ->
  Allocate id bytes level largest a = Some (a', segs, OK) ->
  (Release id a').2 = OK /\ wf (Release id a').1 /\
  forall tr, owner (Release id a').1 tr = owner a tr.
Proof.
  intros Hwf Hb Hfresh E. destruct (Allocate_cases id bytes level largest a Hwf Hb)
    as [(Hid & ? & trs & a1 & E1 & Hwf1 & _ & Hcl & Hcap & _)|(e & E1 & He & _)].
  2: { assert (e = OK) by congruence. subst. by destruct (_ || _). }
  assert (a1 = a') as -> by congruence.
  split; [|split; [by apply wf_Release|]].
  - destruct trs as [|tr trs]; [simpl in Hcap; lia|].
    pose proof (claimed_owner _ _ _ _ Hcl tr ltac:(left)) as Ho.
    unfold Release. replace (id =? 0) with false by lia. simpl.
    destruct tr as [[] i]; apply nthZ_In in Ho; simpl in Ho.
    + by rewrite bool_decide_true.
    + rewrite (bool_decide_true (id ∈ bottom_owner_ a')) by done. by rewrite orb_true_r.
  - intros tr. rewrite owner_Release by done.
    destruct (decide (tr ∈ trs)) as [Hin|Hn].
    + rewrite (claimed_owner _ _ _ _ Hcl), (claimed_free _ _ _ _ Hcl) by done. simpl.
      by rewrite Z.eqb_refl.
    + rewrite (claimed_other _ _ _ _ Hcl) by done. specialize (Hfresh tr).
      destruct (owner a tr) as [o|]; [|done]. simpl. f_equal.
      assert (o <> id) by congruence. by replace (o =? id) with false by lia.
Qed.

Lemma allocate_release_witness :
  exists a' segs, Allocate 4 9000000 1 1 (Reset 1) = Some (a', segs, OK) /\
    (Release 4 a').2 = OK /\ wf (Release 4 a').1 /\
    forall tr, owner (Release 4 a').1 tr = owner (Reset 1) tr.
Proof.
  destruct (Allocate 4 9000000 1 1 (Reset 1)) as [[[a' segs] st]|] eqn:E; [|by vm_compute in E].
  assert (st = OK) as -> by (vm_compute in E; congruence).
  exists a', segs. split; [done|].
  apply (allocate_release 4 9000000 1 1 (Reset 1) a' segs); [apply wf_Reset; lia|lia| |done].
  intros tr. rewrite owner_Reset by lia. by destruct (_ && _).
Defined.

(** C35: restore accepts only real tracks.  When [Restore] reports success on
    segments read from metadata, each of them is exactly the geometry of one
    track of the device, the tracks are pairwise distinct and were free, and
    exactly they now belong to the SSTable; when a track is already owned the
    allocator is returned unchanged. *)
Theorem restore_sound id segs a a' st :
  wf a -> Forall typed_segment segs -> Restore id segs a = (a', st) ->
  (st = OK -> wf a' /\ Forall (exact_segment a) segs /\ claimed id (map segment_track segs) a a') /\
  (st = IOError "KVIMR track already owned" -> a' = a).
Proof.
  intros Hwf Hty E. split.
  - intros ->. destruct (Restore_OK _ _ _ _ Hwf Hty E) as (_ & _ & ? & _ & ? & ?). auto.
  - intros ->. unfold Restore in E. destruct (_ || bool_decide (segs = [])) eqn:E0; [done|].
    destruct (_ || _) in E; [done|].
    apply (restore_loop_spec id segs [] _ _ a) in E; try done.
    + lia.
    + apply claimed_nil.
    + apply (wf_cursor a Hwf TOP).
    + apply (wf_cursor a Hwf BOTTOM).
Qed.

Lemma restore_sound_witness :
  exists a', Restore 5 [SegmentAt TOP 1; SegmentAt BOTTOM 1] (Reset 1) = (a', OK) /\
    (OK = OK -> wf a' /\ Forall (exact_segment (Reset 1)) [SegmentAt TOP 1; SegmentAt BOTTOM 1] /\
       claimed 5 (map segment_track [SegmentAt TOP 1; SegmentAt BOTTOM 1]) (Reset 1) a') /\
    (OK = IOError "KVIMR track already owned" -> a' = Reset 1).
Proof.
  destruct (Restore 5 [SegmentAt TOP 1; SegmentAt BOTTOM 1] (Reset 1)) as [a' st] eqn:E.
  assert (st = OK) as -> by (vm_compute in E; congruence).
  exists a'. split; [done|].
  apply (restore_sound 5 _ (Reset 1) a' OK); [apply wf_Reset; lia| |done].
  repeat constructor; vm_compute; done.
Defined.

(** restore brings back what allocation recorded.  Restoring the segments
    of an earlier allocation, in an allocator where those tracks are free,
    succeeds and claims exactly those tracks. *)
Theorem allocate_restore id bytes level largest a a' segs b :
  wf a -> 0 <= bytes -> Allocate id bytes level largest a = Some (a', segs, OK) ->
  wf b -> (forall tr, owner a' tr = Some id -> owner b tr = Some 0) ->
  exists b' trs, Restore id segs b = (b', OK) /\ wf b' /\ claimed id trs a a' /\ claimed id trs b b'.
Proof.
  intros Hwf Hb E Hwfb Hfree. destruct (Allocate_cases id bytes level largest a Hwf Hb)
    as [(Hid & ? & trs & a1 & E1 & Hwf1 & _ & Hcl & Hcap & _)|(e & E1 & He & _)].
  2: { assert (e = OK) by congruence. subst. by destruct (_ || _). }
  assert (a1 = a' /\ segs = map segment_of trs) as [-> ->] by (split; congruence).
  destruct (Restore_tracks id trs b) as (b' & ? & ? & ? & ?); try done.
  - intros ->. simpl in Hcap. lia.
  - apply Hcl.
  - intros tr Hin. apply Hfree. by apply Hcl.
  - by exists b', trs.
Qed.

Lemma allocate_restore_witness :
  exists a' segs, Allocate 4 9000000 1 1 (Reset 1) = Some (a', segs, OK) /\
  exists b' trs, Restore 4 segs (Reset 1) = (b', OK) /\ wf b' /\
    claimed 4 trs (Reset 1) a' /\ claimed 4 trs (Reset 1) b'.
Proof.
  destruct (Allocate 4 9000000 1 1 (Reset 1)) as [[[a' segs] st]|] eqn:E; [|by vm_compute in E].
  assert (st = OK) as -> by (vm_compute in E; congruence).
  exists a', segs. split; [done|].
  apply (allocate_restore 4 9000000 1 1 (Reset 1) a' segs (Reset 1));
    [apply wf_Reset; lia|lia|done|apply wf_Reset; lia|].
  intros tr Ho. rewrite owner_Reset by lia.
  assert (wf a') as Hwf'.
  { destruct (Allocate_cases 4 9000000 1 1 (Reset 1) (wf_Reset 1 ltac:(lia)) ltac:(lia))
      as [(_ & _ & trs & a1 & E1 & ? & _)|(e & E1 & He & _)]; [congruence|].
    assert (e = OK) by congruence. by subst. }
  pose proof (owner_index _ Hwf' _ _ Ho) as Hr.
  assert (zones_ a' = 1) as Hz by (vm_compute in E; by injection E as <-).
  rewrite Hz in Hr. by rewrite (proj2 (Z.leb_le _ _)), (proj2 (Z.ltb_lt _ _)) by lia.
Defined.


End TrackAllocator.
