(* ===== verification/BlockDevice.v ===== *)
(** The interface between the KVIMR middleware and the raw device below it.

    [db/kvimr.cc] only calls [IMRSimBackend::Open/Close/Read/Write/Sync].  The
    class [BlockDevice] has these operations; [BlockDeviceLaws] states what the
    middleware relies on.  [contents] is what a read returns now, [durable] what
    survives a crash.  A failed write may have changed any part of its range, but
    each byte is the old or the new one.  Operations return [option]: [None] is a model loop out of
    fuel, which the laws exclude. *)

From S2P Require Import Prelude.

(** Bytes [off, off + n) of a byte-addressed store. *)
Definition disk_read (disk : Z -> Z) (off : Z) (n : nat) : bytes :=
  map (fun i => disk (off + Z.of_nat i)) (seq 0 n).

(** The store after writing [bs] at [off]. *)
Definition disk_write (disk : Z -> Z) (off : Z) (bs : bytes) : Z -> Z :=
  fun a => match nthZ bs (a - off) with Some b => b | None => disk a end.

Class BlockDevice (D : Type) := {
  contents : D -> Z -> Z;
  durable : D -> Z -> Z;
  dev_open : D -> bytes -> D * Status;
  dev_close : D -> D * Status;
  dev_read : D -> Z -> bytes -> option (D * Status * bytes);
  dev_write : D -> Z -> bytes -> option (D * Status);
  dev_sync : D -> D * Status;
}.

(** [a] is outside [off, off + n). *)
Definition outside (off n a : Z) : Prop := a < off \/ off + n <= a.

Class BlockDeviceLaws (D : Type) `{BD : BlockDevice D} := {
  read_law : forall d off buf, exists d' st buf',
    dev_read d off buf = Some (d', st, buf') /\
    (forall a, contents d' a = contents d a) /\ (forall a, durable d' a = durable d a) /\
    length buf' = length buf /\
    (st = OK -> buf' = disk_read (contents d) off (length buf));
  write_law : forall d off bs, exists d' st,
    dev_write d off bs = Some (d', st) /\
    (forall a, contents d' a = contents d a \/ contents d' a = disk_write (contents d) off bs a) /\
    (forall a, durable d' a = durable d a \/ durable d' a = disk_write (durable d) off bs a) /\
    (st = OK -> forall a, contents d' a = disk_write (contents d) off bs a);
  sync_law : forall d, exists d' st,
    dev_sync d = (d', st) /\
    (forall a, contents d' a = contents d a) /\
    (forall a, durable d' a = durable d a \/ durable d' a = contents d a) /\
    (st = OK -> forall a, durable d' a = contents d a);
  open_law : forall d path,
    (forall a, contents (dev_open d path).1 a = contents d a) /\
    (forall a, durable (dev_open d path).1 a = durable d a);
  close_law : forall d,
    (forall a, contents (dev_close d).1 a = contents d a) /\
    (forall a, durable (dev_close d).1 a = durable d a);
}.

(** A device that serves every request of a class of (offset, length) ranges. *)
Class HealthyDevice (D : Type) `{BD : BlockDevice D} := {
  healthy : (Z -> Z -> Prop) -> D -> Prop;
  healthy_read : forall R d off buf, healthy R d -> R off (lenZ buf) ->
    exists d' buf', dev_read d off buf = Some (d', OK, buf') /\ healthy R d';
  healthy_write : forall R d off bs, healthy R d -> R off (lenZ bs) ->
    exists d', dev_write d off bs = Some (d', OK) /\ healthy R d';
  healthy_sync : forall R d, healthy R d -> exists d', dev_sync d = (d', OK) /\ healthy R d';
}.

(** ** Lemmas on stores *)

Lemma length_disk_read disk off n : length (disk_read disk off n) = n.
Proof. unfold disk_read. by rewrite length_map, length_seq. Qed.
Lemma lenZ_disk_read disk off n : lenZ (disk_read disk off n) = Z.of_nat n.
Proof. unfold lenZ. by rewrite length_disk_read. Qed.

Lemma disk_read_ext f g off n :
  (forall a, off <= a < off + Z.of_nat n -> f a = g a) -> disk_read f off n = disk_read g off n.
Proof.
  intros H. unfold disk_read. apply map_ext_in. intros i Hi%in_seq. apply H. lia.
Qed.

Lemma nthZ_disk_read disk off n i :
  0 <= i < Z.of_nat n -> nthZ (disk_read disk off n) i = Some (disk (off + i)).
Proof.
  intros H. unfold nthZ, disk_read. rewrite (proj2 (Z.leb_le _ _)) by lia.
  rewrite list_lookup_fmap, lookup_seq_lt by lia. simpl. do 2 f_equal. lia.
Qed.

Lemma disk_write_outside disk off bs a : outside off (lenZ bs) a -> disk_write disk off bs a = disk a.
Proof.
  unfold disk_write, outside. intros H. destruct (nthZ bs (a - off)) eqn:E; [|done].
  apply nthZ_Some in E. lia.
Qed.

Lemma disk_write_inside disk off bs a b :
  nthZ bs (a - off) = Some b -> disk_write disk off bs a = b.
Proof. unfold disk_write. by intros ->. Qed.

Lemma disk_read_write disk off bs : disk_read (disk_write disk off bs) off (length bs) = bs.
Proof.
  apply list_eq_nthZ.
  - by rewrite lenZ_disk_read.
  - rewrite lenZ_disk_read. intros i Hi. rewrite nthZ_disk_read by done.
    destruct (nthZ_is_Some bs i) as [b Hb]; [unfold lenZ; lia|]. rewrite Hb. f_equal.
    apply disk_write_inside. by replace (off + i - off) with i by lia.
Qed.

Lemma disk_read_app disk off n m :
  disk_read disk off (n + m) = disk_read disk off n ++ disk_read disk (off + Z.of_nat n) m.
Proof.
  apply list_eq_nthZ; autorewrite with len; rewrite !lenZ_disk_read; [lia|].
  intros i Hi. rewrite nthZ_disk_read by lia. rewrite nthZ_app, lenZ_disk_read by lia.
  zcase; rewrite nthZ_disk_read by lia; do 2 f_equal; lia.
Qed.
