(* ===== verification/Backend.v ===== *)
(** The raw-device backend: [db/imrsim_backend.h] and [.cc].

    The operating system under it is explicit: [os_script] lists how the next
    system calls behave (interruptions, short transfers, failures); when the
    list is used up, calls do everything asked.  The disk has a current and a
    durable content and a size in bytes. *)

From S2P Require Import Prelude BlockDevice.

Module Backend.

(** ** System calls *)

Inductive SysResp :=
| SysFull              (* does all that was asked *)
| SysShort (n : Z)     (* transfers at most [n] bytes *)
| SysEintr             (* -1 with [errno == EINTR] *)
| SysFail.             (* -1 with another [errno] *)

(** Answers of [open], [fstat], [S_ISBLK], [ioctl(BLKSSZGET)] for the device. *)
Record OpenEnv := MkOpenEnv {
  env_open : Z;
  env_fstat_ok : bool;
  env_is_blk : bool;
  env_ioctl_ok : bool;
  env_logical_block_size : Z;
}.

Record Os := MkOs {
  os_script : list SysResp;
  os_open_env : OpenEnv;
  os_size : Z;
  os_disk : Z -> Z;
  os_durable : Z -> Z;
}.

Definition next_resp (os : Os) : SysResp * Os :=
  match os_script os with
  | [] => (SysFull, os)
  | r :: rs => (r, MkOs rs (os_open_env os) (os_size os) (os_disk os) (os_durable os))
  end.

Definition set_disk (d : Z -> Z) (os : Os) : Os :=
  MkOs (os_script os) (os_open_env os) (os_size os) d (os_durable os).

Inductive SysResult := Transferred (n : Z) | Interrupted | Failed.

(** Bytes a transfer of [count] at [off] moves: what the call grants, cut at
    the end of the device. *)
Definition granted (r : SysResp) (count : Z) : Z :=
  match r with SysShort n => Z.max 0 (Z.min n count) | _ => count end.
Definition in_device (os : Os) (off n : Z) : Z := Z.max 0 (Z.min n (os_size os - off)).

Definition sys_pread (os : Os) (count off : Z) : Os * SysResult * bytes :=
  let (r, os') := next_resp os in
  match r with
  | SysEintr => (os', Interrupted, [])
  | SysFail => (os', Failed, [])
  | _ =>
      let n := in_device os' off (granted r count) in
      (os', Transferred n, disk_read (os_disk os') off (Z.to_nat n))
  end.

Definition sys_pwrite (os : Os) (data : bytes) (off : Z) : Os * SysResult :=
  let (r, os') := next_resp os in
  match r with
  | SysEintr => (os', Interrupted)
  | SysFail => (os', Failed)
  | _ =>
      let n := in_device os' off (granted r (lenZ data)) in
      (set_disk (disk_write (os_disk os') off (take (Z.to_nat n) data)) os', Transferred n)
  end.

(** Calls that only succeed or fail ([posix_memalign], [close]). *)
Definition sys_simple (os : Os) : Os * bool :=
  let (r, os') := next_resp os in
  (os', match r with SysEintr | SysFail => false | _ => true end).

Definition sys_fdatasync (os : Os) : Os * bool :=
  let (os', good) := sys_simple os in
  (if good then MkOs (os_script os') (os_open_env os') (os_size os') (os_disk os') (os_disk os')
   else os', good).

(** ** [IMRSimBackend] *)

Definition kSectorSize : Z := 512.
Definition kTrackSize : Z := 2 * 1024 * 1024.
Definition kBounceBufferAlignment : Z := 4096.

Record IMRSimBackend := MkBackend {
  fd_ : Z;
  direct_io_alignment_ : Z;
  device_path_ : bytes;
  be_os : Os;
}.

Definition set_os (os : Os) (b : IMRSimBackend) : IMRSimBackend :=
  MkBackend (fd_ b) (direct_io_alignment_ b) (device_path_ b) os.

Definition Construct (os : Os) : IMRSimBackend := MkBackend (-1) kSectorSize [] os.

Definition IsOpen (b : IMRSimBackend) : bool := fd_ b >=? 0.

Definition IsPowerOfTwo (value : Z) : bool :=
  negb (value =? 0) && (Z.land value (u64 (value - 1)) =? 0).

Definition Open (b : IMRSimBackend) (device_path : bytes) : IMRSimBackend * Status :=
  if fd_ b >=? 0 then (b, IOError "IMRSim backend is already open")
  else
    let env := os_open_env (be_os b) in
    if env_open env <? 0 then (b, IOError "open IMRSim device")
    else if negb (env_fstat_ok env)
    then (set_os (sys_simple (be_os b)).1 b, IOError "stat IMRSim device")
    else if env_is_blk env then
      if negb (env_ioctl_ok env)
      then (set_os (sys_simple (be_os b)).1 b, IOError "query IMRSim device logical block size")
      else if (env_logical_block_size env <? kSectorSize)
              || negb (IsPowerOfTwo (u64 (env_logical_block_size env)))
      then (set_os (sys_simple (be_os b)).1 b,
            InvalidArgument "invalid IMRSim device logical block size")
      else (MkBackend (env_open env) (env_logical_block_size env) device_path (be_os b), OK)
    else (MkBackend (env_open env) kSectorSize device_path (be_os b), OK).

Definition Close (b : IMRSimBackend) : IMRSimBackend * Status :=
  if fd_ b <? 0 then (b, OK)
  else
    let (os', good) := sys_simple (be_os b) in
    (MkBackend (-1) kSectorSize (device_path_ b) os',
     if good then OK else IOError "close IMRSim device").

Definition off_t_max : Z := 2 ^ 63 - 1.
Definition ssize_t_max : Z := 2 ^ 63 - 1.

Definition ValidateRange (b : IMRSimBackend) (offset length : Z) : Status :=
  if fd_ b <? 0 then IOError "IMRSim backend is not open"
  else if negb (offset mod kSectorSize =? 0) || negb (length mod kSectorSize =? 0)
  then InvalidArgument "IMRSim I/O must be 512-byte aligned"
  else if negb (offset mod direct_io_alignment_ b =? 0)
          || negb (length mod direct_io_alignment_ b =? 0)
  then InvalidArgument "IMRSim O_DIRECT I/O does not meet device alignment"
  else if (offset >? off_t_max) || (length >? ssize_t_max) || ((offset [+] length) <? offset)
  then InvalidArgument "IMRSim I/O range is too large"
  else OK.

(** The [while (done < length)] loop of [Read]; [out] is the caller's buffer. *)
Fixpoint read_loop (fuel : nat) (os : Os) (offset length done : Z) (out : bytes)
  : option (Os * Status * bytes) :=
  match fuel with
  | O => None
  | S fuel' =>
      if done <? length then
        match sys_pread os (length - done) (offset + done) with
        | (os', Interrupted, _) => read_loop fuel' os' offset length done out
        | (os', Failed, _) => Some (os', IOError "read IMRSim device", out)
        | (os', Transferred n, data) =>
            if n =? 0 then Some (os', IOError "short read from IMRSim device", out)
            else read_loop fuel' os' offset length (done + n) (splice out done data)
        end
      else Some (os, OK, out)
  end.

Fixpoint write_loop (fuel : nat) (os : Os) (offset done : Z) (input : bytes)
  : option (Os * Status) :=
  match fuel with
  | O => None
  | S fuel' =>
      if done <? lenZ input then
        match sys_pwrite os (drop (Z.to_nat done) input) (offset + done) with
        | (os', Interrupted) => write_loop fuel' os' offset done input
        | (os', Failed) => Some (os', IOError "write IMRSim device")
        | (os', Transferred n) =>
            if n =? 0 then Some (os', IOError "short write to IMRSim device")
            else write_loop fuel' os' offset (done + n) input
        end
      else Some (os, OK)
  end.

(** Each scripted response is used once; afterwards one call transfers the
    rest or reaches the end of the device, so two more calls and the final
    test are enough. *)
Definition io_fuel (os : Os) : nat := length (os_script os) + 3.

Definition Read (b : IMRSimBackend) (offset : Z) (buffer : bytes)
  : option (IMRSimBackend * Status * bytes) :=
  let s := ValidateRange b offset (lenZ buffer) in
  if negb (ok s) then Some (b, s, buffer)
  else if lenZ buffer =? 0 then Some (b, OK, buffer)
  else
    let (os', good) := sys_simple (be_os b) in
    if negb good
    then Some (set_os os' b, IOError "allocate aligned IMRSim read buffer", buffer)
    else
      match read_loop (io_fuel os') os' offset (lenZ buffer) 0 buffer with
      | Some (os'', st, out) => Some (set_os os'' b, st, out)
      | None => None
      end.

Definition Write (b : IMRSimBackend) (offset : Z) (buffer : bytes)
  : option (IMRSimBackend * Status) :=
  let s := ValidateRange b offset (lenZ buffer) in
  if negb (ok s) then Some (b, s)
  else if lenZ buffer =? 0 then Some (b, OK)
  else
    let (os', good) := sys_simple (be_os b) in
    if negb good
    then Some (set_os os' b, IOError "allocate aligned IMRSim write buffer")
    else
      match write_loop (io_fuel os') os' offset 0 buffer with
      | Some (os'', st) => Some (set_os os'' b, st)
      | None => None
      end.

Definition Sync (b : IMRSimBackend) : IMRSimBackend * Status :=
  if fd_ b <? 0 then (b, IOError "IMRSim backend is not open")
  else
    let (os', good) := sys_fdatasync (be_os b) in
    (set_os os' b, if good then OK else IOError "sync IMRSim device").

Definition TrackOffset (track_index : Z) : Status * Z :=
  if track_index >? (2 ^ 64 - 1) / kTrackSize
  then (InvalidArgument "IMRSim track index overflows byte offset", 0)
  else (OK, track_index [*] kTrackSize).

Definition ReadTrack (b : IMRSimBackend) (track_index : Z) (buffer : bytes) :=
  let (s, offset) := TrackOffset track_index in
  if ok s then Read b offset buffer else Some (b, s, buffer).

Definition WriteTrack (b : IMRSimBackend) (track_index : Z) (buffer : bytes) :=
  let (s, offset) := TrackOffset track_index in
  if ok s then Write b offset buffer else Some (b, s).

#[export] Instance IMRSimBackend_BlockDevice : BlockDevice IMRSimBackend := {|
  contents b := os_disk (be_os b);
  durable b := os_durable (be_os b);
  dev_open := Open;
  dev_close := Close;
  dev_read := Read;
  dev_write := Write;
  dev_sync := Sync;
|}.

(** ** System-call lemmas *)

(** Calls never change the size, the open environment or (but for
    [fdatasync]) the durable content. *)
Definition same_env (os os' : Os) : Prop :=
  os_size os' = os_size os /\ os_open_env os' = os_open_env os /\ os_durable os' = os_durable os.

Lemma same_env_refl os : same_env os os.
Proof. by repeat split. Qed.
Lemma same_env_trans a b c : same_env a b -> same_env b c -> same_env a c.
Proof. intros (?&?&?) (?&?&?). repeat split; congruence. Qed.

Lemma next_resp_env os :
  same_env os (next_resp os).2 /\ os_disk (next_resp os).2 = os_disk os /\
  os_script (next_resp os).2 = tail (os_script os) /\
  (os_script os = [] -> (next_resp os).1 = SysFull).
Proof.
  unfold next_resp. destruct (os_script os) eqn:E; simpl;
    (split; [by repeat split|]); (split; [done|]); by rewrite ?E.
Qed.

Lemma sys_simple_env os :
  same_env os (sys_simple os).1 /\ os_disk (sys_simple os).1 = os_disk os /\
  os_script (sys_simple os).1 = tail (os_script os) /\
  (os_script os = [] -> (sys_simple os).2 = true).
Proof.
  unfold sys_simple. pose proof (next_resp_env os) as (He & Hd & Hs & Hn).
  destruct (next_resp os) as [r os'] eqn:E. simpl in *. split_and!; try done.
  intros Hnil. by rewrite (Hn Hnil).
Qed.

(** A transfer moves [n] bytes, at most what was asked and never past the
    device; with no scripted responses left it moves all that fits. *)
Lemma sys_pread_spec os count off :
  0 <= count ->
  let '(os', r, data) := sys_pread os count off in
  same_env os os' /\ os_disk os' = os_disk os /\ os_script os' = tail (os_script os) /\
  (os_script os = [] -> r = Transferred (in_device os off count)) /\
  (forall n, r = Transferred n ->
     0 <= n <= count /\ data = disk_read (os_disk os) off (Z.to_nat n)).
Proof.
  intros Hc. unfold sys_pread. pose proof (next_resp_env os) as (He & Hd & Hs & Hn).
  destruct (next_resp os) as [r os'] eqn:E. simpl in *.
  assert (in_device os' off = in_device os off) as Hin.
  { unfold in_device. by destruct He as [-> _]. }
  destruct r; simpl; split_and!; try done;
    try (intros Hnil; specialize (Hn Hnil); (by rewrite Hin) || done);
    intros m [= <-]; rewrite Hd, ?Hin; unfold in_device; (split; [lia|done]).
Qed.

Lemma sys_pwrite_spec os data off :
  let '(os', r) := sys_pwrite os data off in
  same_env os os' /\ os_script os' = tail (os_script os) /\
  (os_script os = [] -> r = Transferred (in_device os off (lenZ data))) /\
  match r with
  | Transferred n => 0 <= n <= lenZ data /\
      os_disk os' = disk_write (os_disk os) off (take (Z.to_nat n) data)
  | _ => os_disk os' = os_disk os
  end.
Proof.
  unfold sys_pwrite. pose proof (next_resp_env os) as (He & Hd & Hs & Hn).
  destruct (next_resp os) as [r os'] eqn:E. simpl in *.
  assert (in_device os' off = in_device os off) as Hin.
  { unfold in_device. by destruct He as [-> _]. }
  pose proof (lenZ_nonneg data).
  destruct r; simpl; split_and!; try done;
    try (intros Hnil; specialize (Hn Hnil); (by rewrite Hin) || done);
    rewrite ?Hd, ?Hin; unfold in_device; lia || done.
Qed.

(** ** Termination and effect of the loops *)

Definition io_need (os : Os) (offset len done : Z) : nat :=
  match os_script os with
  | [] => if (len <=? done) || (os_size os <=? offset + done) then 1 else 2
  | s => length s + 2
  end.

Lemma io_need_pos os offset len done : (1 <= io_need os offset len done)%nat.
Proof. unfold io_need. destruct (os_script os); [zcase|]; simpl; lia. Qed.

Lemma io_need_step os os' offset len done n :
  same_env os os' -> os_script os' = tail (os_script os) -> done < len ->
  (os_script os = [] -> n = in_device os (offset + done) (len - done) /\ n <> 0) ->
  (S (io_need os' offset len (done + n)) <= io_need os offset len done)%nat.
Proof.
  intros (Hsz & _ & _) Hs Hlt Hn. unfold io_need. rewrite Hs, Hsz.
  destruct (os_script os) as [|r [|r2 rs]]; simpl.
  - destruct (Hn eq_refl) as [-> Hne]. unfold in_device in *.
    replace (len <=? done) with false by lia.
    replace (os_size os <=? offset + done) with false by lia. simpl. zcase; lia.
  - zcase; lia.
  - lia.
Qed.

Lemma read_loop_spec fuel : forall os offset len done out,
  0 <= done <= len -> len = lenZ out -> (io_need os offset len done <= fuel)%nat ->
  exists os' st out', read_loop fuel os offset len done out = Some (os', st, out') /\
    same_env os os' /\ os_disk os' = os_disk os /\ length out' = length out /\
    (st = OK -> out' = take (Z.to_nat done) out
                 ++ disk_read (os_disk os) (offset + done) (Z.to_nat (len - done))).
Proof.
  induction fuel as [|fuel IH]; intros os offset len done out Hd Hl Hf.
  { pose proof (io_need_pos os offset len done). lia. }
  simpl. destruct (done <? len) eqn:Elt.
  2: { eexists _, _, _. split; [done|]. split; [apply same_env_refl|]. do 2 (split; [done|]). intros _.
       replace (Z.to_nat (len - done)) with 0%nat by lia. unfold disk_read. simpl.
       rewrite app_nil_r. symmetry. apply take_ge. unfold lenZ in Hl. lia. }
  pose proof (sys_pread_spec os (len - done) (offset + done) ltac:(lia)) as HS.
  destruct (sys_pread os (len - done) (offset + done)) as [[os' r] data].
  destruct HS as (He & Hdisk & Hscr & Hfull & Hdata).
  destruct r as [n| |].
  - destruct (Hdata n eq_refl) as [Hn ->]. destruct (n =? 0) eqn:En.
    { eexists _, _, _. split; [done|]. by split_and!. }
    set (chunk := disk_read (os_disk os) (offset + done) (Z.to_nat n)).
    assert (lenZ chunk = n) as Hchunk by (unfold chunk; rewrite lenZ_disk_read; lia).
    assert (lenZ (splice out done chunk) = lenZ out) as Hsp by (apply lenZ_splice; lia).
    destruct (IH os' offset len (done + n) (splice out done chunk))
      as (os2 & st & out2 & -> & He2 & Hd2 & Hlen2 & Hok); [lia|lia| |].
    { assert (S (io_need os' offset len (done + n)) <= io_need os offset len done)%nat.
      { apply io_need_step; try done; [lia|]. intros Hnil. specialize (Hfull Hnil).
        injection Hfull as ->. split; [done|lia]. }
      lia. }
    eexists _, _, _. split; [done|]. split; [by eapply same_env_trans|]. split; [congruence|]. split.
    + rewrite Hlen2. unfold lenZ in Hsp. lia.
    + intros HOK. rewrite (Hok HOK), Hdisk.
      replace (Z.to_nat (len - done)) with (Z.to_nat n + Z.to_nat (len - (done + n)))%nat by lia.
      rewrite disk_read_app. replace (offset + done + Z.of_nat (Z.to_nat n)) with (offset + (done + n)) by lia.
      rewrite app_assoc. f_equal. unfold splice.
      rewrite app_assoc. apply take_app_length'. unfold lenZ in *.
      rewrite length_app, length_take. unfold chunk. rewrite length_disk_read. lia.
  - destruct (IH os' offset len done out) as (os2 & st & out2 & -> & He2 & Hd2 & Hlen2 & Hok); [done..| |].
    { assert (S (io_need os' offset len (done + 0)) <= io_need os offset len done)%nat.
      { apply io_need_step; try done; [lia|]. intros Hnil. by specialize (Hfull Hnil). }
      rewrite Z.add_0_r in *. lia. }
    eexists _, _, _. split; [done|]. split; [by eapply same_env_trans|].
    split; [congruence|]. split; [done|]. by rewrite <- Hdisk.
  - eexists _, _, _. split; [done|]. by split_and!.
Qed.

Lemma write_loop_spec fuel : forall os offset done input,
  0 <= done <= lenZ input -> (io_need os offset (lenZ input) done <= fuel)%nat ->
  exists os' st, write_loop fuel os offset done input = Some (os', st) /\
    same_env os os' /\
    (forall a, os_disk os' a = os_disk os a \/ os_disk os' a =
       disk_write (os_disk os) (offset + done) (drop (Z.to_nat done) input) a) /\
    (st = OK -> forall a, os_disk os' a =
       disk_write (os_disk os) (offset + done) (drop (Z.to_nat done) input) a).
Proof.
  induction fuel as [|fuel IH]; intros os offset done input Hd Hf.
  { pose proof (io_need_pos os offset (lenZ input) done). lia. }
  simpl. destruct (done <? lenZ input) eqn:Elt.
  2: { eexists _, _. split; [done|]. split; [apply same_env_refl|]. split; [by left|]. intros _ a.
       rewrite disk_write_outside; [done|]. unfold outside. rewrite lenZ_drop by lia. lia. }
  pose proof (sys_pwrite_spec os (drop (Z.to_nat done) input) (offset + done)) as HS.
  destruct (sys_pwrite _ _ _) as [os' r]. destruct HS as (He & Hscr & Hfull & Heff).
  rewrite lenZ_drop in Hfull by lia. rewrite lenZ_drop in Heff by lia.
  replace (Z.max 0 (lenZ input - done)) with (lenZ input - done) in * by lia.
  destruct r as [n| |].
  - destruct Heff as [Hn Hdisk].
    set (goal := disk_write (os_disk os) (offset + done) (drop (Z.to_nat done) input)).
    assert (forall a, os_disk os' a = os_disk os a \/ os_disk os' a = goal a) as Hout.
    { intros a. rewrite Hdisk. unfold goal, disk_write. rewrite nthZ_take by lia.
      destruct (a - (offset + done) <? n); auto. }
    destruct (n =? 0) eqn:En.
    { eexists _, _. split; [done|]. by split_and!. }
    destruct (IH os' offset (done + n) input) as (os2 & st & -> & He2 & Hout2 & Hok); [lia| |].
    { assert (S (io_need os' offset (lenZ input) (done + n)) <= io_need os offset (lenZ input) done)%nat.
      { apply io_need_step; try done; [lia|]. intros Hnil. specialize (Hfull Hnil).
        injection Hfull as ->. split; [done|lia]. }
      lia. }
    assert (forall a, disk_write (os_disk os') (offset + (done + n)) (drop (Z.to_nat (done + n)) input) a
                      = goal a) as Hgoal.
    { intros a. rewrite Hdisk. unfold goal, disk_write. rewrite nthZ_take by lia.
      destruct (decide (done + n <= a - offset)) as [Hge|Hlt].
      * replace (a - (offset + done) <? n) with false by lia.
        rewrite !nthZ_drop by lia.
        by replace (done + n + (a - (offset + (done + n)))) with (done + (a - (offset + done))) by lia.
      * rewrite (nthZ_None (drop (Z.to_nat (done + n)) input)) by lia.
        destruct (a - (offset + done) <? n) eqn:?; [done|lia]. }
    eexists _, _. split; [done|]. split; [by eapply same_env_trans|]. split.
    + intros a. destruct (Hout2 a) as [->| ->]; [auto|]. right. apply Hgoal.
    + intros HOK a. rewrite (Hok HOK). apply Hgoal.
  - destruct (IH os' offset done input) as (os2 & st & -> & He2 & Hout2 & Hok); [done| |].
    { assert (S (io_need os' offset (lenZ input) (done + 0)) <= io_need os offset (lenZ input) done)%nat.
      { apply io_need_step; try done; [lia|]. intros Hnil. by specialize (Hfull Hnil). }
      rewrite Z.add_0_r in *. lia. }
    eexists _, _. split; [done|]. split; [by eapply same_env_trans|]. by rewrite <- Heff.
  - eexists _, _. split; [done|]. split; [done|]. split; [|done]. intros a. left. by rewrite Heff.
Qed.

Lemma io_fuel_enough os offset len done : (io_need os offset len done <= io_fuel os)%nat.
Proof. unfold io_need, io_fuel. destruct (os_script os); simpl; [zcase|]; lia. Qed.

Lemma read_loop_quiet os offset out :
  os_script os = [] -> offset + lenZ out <= os_size os ->
  exists out', read_loop (io_fuel os) os offset (lenZ out) 0 out = Some (os, OK, out').
Proof.
  intros Hs Hsz. unfold io_fuel. rewrite Hs. cbn [length Nat.add read_loop].
  destruct (0 <? lenZ out) eqn:E; [|eauto].
  unfold sys_pread, next_resp. rewrite Hs. unfold granted, in_device. cbn zeta iota beta.
  replace (Z.max 0 (Z.min (lenZ out - 0) (os_size os - (offset + 0)))) with (lenZ out) by lia.
  replace (lenZ out =? 0) with false by lia. rewrite Z.add_0_l, Z.ltb_irrefl. eauto.
Qed.

Lemma write_loop_quiet os offset input :
  os_script os = [] -> offset + lenZ input <= os_size os ->
  exists os', write_loop (io_fuel os) os offset 0 input = Some (os', OK) /\
    os_script os' = [] /\ os_size os' = os_size os.
Proof.
  intros Hs Hsz. unfold io_fuel. rewrite Hs. cbn [length Nat.add write_loop].
  destruct (0 <? lenZ input) eqn:E; [|eauto].
  unfold sys_pwrite, next_resp. rewrite Hs. unfold granted, in_device. cbn zeta iota beta.
  rewrite lenZ_drop by lia.
  replace (Z.max 0 (Z.min (Z.max 0 (lenZ input - 0)) (os_size os - (offset + 0)))) with (lenZ input) by lia.
  replace (lenZ input =? 0) with false by lia. rewrite Z.add_0_l, Z.ltb_irrefl.
  eexists. split; [done|]. done.
Qed.

(** ** The backend implements the device interface *)

Lemma Read_law b off buf : exists b' st buf',
  Read b off buf = Some (b', st, buf') /\ same_env (be_os b) (be_os b') /\
  os_disk (be_os b') = os_disk (be_os b) /\ length buf' = length buf /\
  (st = OK -> buf' = disk_read (os_disk (be_os b)) off (length buf)).
Proof.
  unfold Read. destruct (ok (ValidateRange b off (lenZ buf))) eqn:Ev; simpl.
  2: { eexists _, _, _. split; [done|]. split; [apply same_env_refl|]. do 2 (split; [done|]).
       intros HE. by rewrite HE in Ev. }
  destruct (lenZ buf =? 0) eqn:El.
  { eexists _, _, _. split; [done|]. split; [apply same_env_refl|]. do 2 (split; [done|]). intros _.
    apply Z.eqb_eq, lenZ_0 in El. by subst. }
  pose proof (sys_simple_env (be_os b)) as (He & Hd & _). destruct (sys_simple (be_os b)) as [os1 good].
  simpl in *. destruct good; simpl.
  2: { eexists _, _, _. split; [done|]. by split. }
  destruct (read_loop_spec (io_fuel os1) os1 off (lenZ buf) 0 buf) as
    (os2 & st & out & -> & He2 & Hd2 & Hl2 & Hok);
    [pose proof (lenZ_nonneg buf); lia|done|apply io_fuel_enough|].
  eexists _, _, _. split; [done|]. simpl. split; [by eapply same_env_trans|].
  split; [congruence|]. split; [done|]. intros HOK. rewrite (Hok HOK), Hd.
  rewrite Z.add_0_r, Z.sub_0_r. unfold lenZ. by rewrite Nat2Z.id.
Qed.

Lemma Write_law b off bs : exists b' st,
  Write b off bs = Some (b', st) /\ same_env (be_os b) (be_os b') /\
  (forall a, os_disk (be_os b') a = os_disk (be_os b) a \/
     os_disk (be_os b') a = disk_write (os_disk (be_os b)) off bs a) /\
  (st = OK -> forall a, os_disk (be_os b') a = disk_write (os_disk (be_os b)) off bs a).
Proof.
  unfold Write. destruct (ok (ValidateRange b off (lenZ bs))) eqn:Ev; simpl.
  2: { eexists _, _. split; [done|]. split; [apply same_env_refl|]. split; [by left|].
       intros HE. by rewrite HE in Ev. }
  destruct (lenZ bs =? 0) eqn:El.
  { eexists _, _. split; [done|]. split; [apply same_env_refl|]. split; [by left|]. intros _ a.
    rewrite disk_write_outside; [done|]. unfold outside. lia. }
  pose proof (sys_simple_env (be_os b)) as (He & Hd & _). destruct (sys_simple (be_os b)) as [os1 good].
  simpl in *. destruct good; simpl.
  2: { eexists _, _. split; [done|]. split; [done|]. split; [|done]. intros a. left. simpl. by rewrite Hd. }
  destruct (write_loop_spec (io_fuel os1) os1 off 0 bs) as (os2 & st & -> & He2 & Hout & Hok);
    [pose proof (lenZ_nonneg bs); lia|apply io_fuel_enough|].
  rewrite Z.add_0_r in *. rewrite Hd in *.
  eexists _, _. split; [done|]. simpl. split; [by eapply same_env_trans|]. by split.
Qed.

Lemma Sync_law b : exists b' st,
  Sync b = (b', st) /\ os_disk (be_os b') = os_disk (be_os b) /\
  (os_durable (be_os b') = os_durable (be_os b) \/ os_durable (be_os b') = os_disk (be_os b)) /\
  (st = OK -> os_durable (be_os b') = os_disk (be_os b)).
Proof.
  unfold Sync. destruct (fd_ b <? 0).
  { eexists _, _. split; [done|]. split; [done|]. split; [by left|]. done. }
  unfold sys_fdatasync. pose proof (sys_simple_env (be_os b)) as ((_ & _ & Hdur) & Hd & _).
  destruct (sys_simple (be_os b)) as [os1 good]. simpl in *.
  eexists _, _. split; [done|]. destruct good; simpl; rewrite ?Hd, ?Hdur; split_and!; try done; by (left + right).
Qed.

Lemma sys_simple_disk os :
  os_disk (sys_simple os).1 = os_disk os /\ os_durable (sys_simple os).1 = os_durable os.
Proof. pose proof (sys_simple_env os) as ((_ & _ & ?) & ? & _). done. Qed.

#[export] Instance IMRSimBackend_Laws : BlockDeviceLaws IMRSimBackend.
Proof.
  split; simpl.
  - intros b off buf. destruct (Read_law b off buf) as (b' & st & buf' & E & (_ & _ & Hdur) & Hd & Hl & Hok).
    exists b', st, buf'. rewrite Hd, Hdur. by split_and!.
  - intros b off bs. destruct (Write_law b off bs) as (b' & st & E & (_ & _ & Hdur) & Hout & Hok).
    exists b', st. rewrite Hdur. split; [done|]. split; [done|]. split; [by left|done].
  - intros b. destruct (Sync_law b) as (b' & st & E & Hd & Hdur & Hok).
    exists b', st. rewrite Hd. split; [done|]. split; [done|]. split.
    + intros a. destruct Hdur as [->| ->]; auto.
    + intros HOK a. by rewrite Hok.
  - intros b path. unfold Open. pose proof (sys_simple_disk (be_os b)) as [E1 E2].
    repeat case_match; simpl; rewrite ?E1, ?E2; done.
  - intros b. unfold Close. pose proof (sys_simple_disk (be_os b)) as [E1 E2].
    case_match; [done|]. destruct (sys_simple _) as [os1 g]. simpl in *. by rewrite E1, E2.
Qed.

(** Open, with no failures scripted, for ranges that pass validation and end
    inside the device. *)
Definition backend_healthy (R : Z -> Z -> Prop) (b : IMRSimBackend) : Prop :=
  os_script (be_os b) = [] /\ 0 <= fd_ b /\
  forall off n, R off n -> ValidateRange b off n = OK /\ off + n <= os_size (be_os b).

Lemma sys_simple_quiet os : os_script os = [] -> sys_simple os = (os, true).
Proof. unfold sys_simple, next_resp. by intros ->. Qed.

#[export] Program Instance IMRSimBackend_Healthy : HealthyDevice IMRSimBackend :=
  {| healthy := backend_healthy |}.
Next Obligation.
  intros R b off buf (Hs & Hfd & HR) Hr. destruct (HR _ _ Hr) as [Hv Hsz].
  simpl. unfold Read. rewrite Hv. simpl. destruct (lenZ buf =? 0); [by eexists _, _|].
  rewrite (sys_simple_quiet _ Hs). simpl.
  destruct (read_loop_quiet (be_os b) off buf Hs Hsz) as [out ->].
  eexists _, _. split; [done|]. done.
Qed.
Next Obligation.
  intros R b off bs (Hs & Hfd & HR) Hr. destruct (HR _ _ Hr) as [Hv Hsz].
  simpl. unfold Write. rewrite Hv. simpl. destruct (lenZ bs =? 0); [by eexists _|].
  rewrite (sys_simple_quiet _ Hs). simpl.
  destruct (write_loop_quiet (be_os b) off bs Hs Hsz) as (os' & -> & Hs' & Hsz').
  eexists. split; [done|]. split; [done|]. split; [done|]. simpl. rewrite Hsz'. apply HR.
Qed.
Next Obligation.
  intros R b (Hs & Hfd & HR). simpl. unfold Sync, sys_fdatasync.
  replace (fd_ b <? 0) with false by lia. rewrite (sys_simple_quiet _ Hs).
  eexists. split; [done|]. by split_and!.
Qed.

(** [IsPowerOfTwo] decides being a power of two. *)
Lemma land_pred_pow2 v : 0 < v -> Z.land v (v - 1) = 0 -> v = 2 ^ Z.log2 v.
Proof.
  intros Hv Hland. pose proof (Z.log2_spec v Hv) as [Hlo Hhi].
  destruct (Z.eq_dec v (2 ^ Z.log2 v)) as [|Hne]; [done|exfalso].
  pose proof (Z.log2_nonneg v) as Hk.
  assert (Z.log2 (v - 1) = Z.log2 v) as Hl.
  { apply Z.log2_unique; [done|]. rewrite Z.pow_succ_r in Hhi |- * by done. lia. }
  assert (Z.testbit (Z.land v (v - 1)) (Z.log2 v) = true) as Hb.
  { rewrite Z.land_spec, Z.bit_log2 by done. rewrite <- Hl.
    apply Z.bit_log2. assert (1 <= 2 ^ Z.log2 v) by (apply (Z.pow_le_mono_r 2 0); lia). lia. }
  by rewrite Hland, Z.bits_0 in Hb.
Qed.

Lemma IsPowerOfTwo_spec v :
  0 <= v < 2 ^ 64 -> IsPowerOfTwo v = true <-> exists k, 0 <= k /\ v = 2 ^ k.
Proof.
  intros Hv. unfold IsPowerOfTwo. rewrite andb_true_iff, negb_true_iff, Z.eqb_neq, Z.eqb_eq. split.
  - intros [Hne Hl]. rewrite u64_small in Hl by lia. exists (Z.log2 v).
    split; [apply Z.log2_nonneg|]. apply land_pred_pow2; lia.
  - intros (k & Hk & ->). assert (0 < 2 ^ k) by (apply Z.pow_pos_nonneg; lia).
    split; [lia|]. rewrite u64_small by lia.
    replace (2 ^ k - 1) with (Z.ones k) by (rewrite Z.ones_equiv; lia).
    rewrite Z.land_ones by done. apply Z.mod_same; lia.
Qed.

(** ** Properties *)

(** a write is exact and contained.  For every behaviour of the operating
    system (interruptions, short writes, failures, end of device) [Write]
    returns; when it reports success the device holds exactly the buffer on the
    written range, and whatever it reports no byte outside that range and no
    durable byte has changed. *)
Theorem backend_write_exact b off bs :
  exists b' st,
    Write b off bs = Some (b', st) /\
    (forall a, outside off (lenZ bs) a -> contents b' a = contents b a) /\
    (forall a, durable b' a = durable b a) /\
    (st = OK -> disk_read (contents b') off (length bs) = bs).
Proof.
  destruct (Write_law b off bs) as (b' & st & E & (_ & _ & Hdur) & Hout & Hok).
  exists b', st. split; [done|]. split.
  { intros a Ha. simpl. destruct (Hout a) as [->| ->]; [done|]. by apply disk_write_outside. }
  split; [simpl; by rewrite Hdur|]. intros HOK. rewrite (disk_read_ext (contents b') (disk_write (contents b) off bs)).
  - apply disk_read_write.
  - intros a _. by apply Hok.
Qed.

(** a read returns the device.  For every behaviour of the operating system
    [Read] returns, leaves the device alone and keeps the buffer length; when it
    reports success the buffer holds exactly the device bytes of the range. *)
Theorem backend_read_exact b off buf :
  exists b' st buf',
    Read b off buf = Some (b', st, buf') /\ length buf' = length buf /\
    (forall a, contents b' a = contents b a) /\
    (st = OK -> buf' = disk_read (contents b) off (length buf)).
Proof.
  destruct (Read_law b off buf) as (b' & st & buf' & E & _ & Hd & Hl & Hok).
  exists b', st, buf'. simpl. by rewrite Hd.
Qed.

(** range validation is what direct I/O needs.  On a backend that [Open]
    opened, the required alignment is a power of two of at least one sector, and
    a range passes [ValidateRange] exactly when offset and length are multiples
    of it and fit the signed file-offset types; then [offset + length] does not
    wrap. *)
Theorem open_validate_alignment b path b' off n :
  0 <= off < 2 ^ 64 -> 0 <= n < 2 ^ 64 -> env_logical_block_size (os_open_env (be_os b)) < 2 ^ 31 ->
  Open b path = (b', OK) ->
  (exists k, 9 <= k /\ direct_io_alignment_ b' = 2 ^ k) /\
  (ValidateRange b' off n = OK <->
     (direct_io_alignment_ b' | off) /\ (direct_io_alignment_ b' | n) /\ off < 2 ^ 63 /\ n < 2 ^ 63).
Proof.
  intros Hoff Hn Hlbs HO.
  assert (0 <= fd_ b' /\ exists k, 9 <= k /\ direct_io_alignment_ b' = 2 ^ k) as [Hfd (k & Hk & Hal)].
  { revert HO. unfold Open. zcase; intros HE; simplify_eq; simpl; (split; [lia|]).
    - match goal with H : _ || _ = false |- _ => apply orb_false_iff in H as [H1 H2] end.
      apply negb_false_iff in H2. unfold kSectorSize in H1. rewrite u64_small in H2 by lia.
      apply IsPowerOfTwo_spec in H2 as (k & Hk & Heq); [|lia]. exists k. split; [|done].
      destruct (Z.le_gt_cases 9 k) as [|Hlt]; [done|].
      assert (2 ^ k <= 2 ^ 8) by (apply Z.pow_le_mono_r; lia). lia.
    - exists 9. done. }
  split; [eauto|]. unfold ValidateRange. replace (fd_ b' <? 0) with false by lia. rewrite Hal.
  assert (0 < 2 ^ k) as Hpos by (apply Z.pow_pos_nonneg; lia).
  assert (forall x, (2 ^ k | x) -> (512 | x)) as Hdiv.
  { intros x Hx. eapply Z.divide_trans; [|done]. exists (2 ^ (k - 9)).
    change 512 with (2 ^ 9). rewrite <- Z.pow_add_r by lia. f_equal. lia. }
  unfold kSectorSize. rewrite <- !Z.mod_divide by lia.
  assert (forall x, x mod 2 ^ k = 0 -> x mod 512 = 0) as Hmod.
  { intros x. rewrite !Z.mod_divide by lia. apply Hdiv. }
  pose proof (Hmod off) as M1. pose proof (Hmod n) as M2.
  unfold off_t_max, ssize_t_max. split.
  - zcase; intros HE; try done.
    rewrite !orb_false_iff, ?negb_false_iff, ?Z.eqb_eq in *. lia.
  - intros (H1 & H2 & H3 & H4). specialize (M1 H1). specialize (M2 H2).
    rewrite M1, M2, H1, H2. simpl. rewrite u64_small by lia. zcase; lia || done.
Qed.

Definition witness_os : Os :=
  MkOs [SysEintr; SysShort 100; SysFull] (MkOpenEnv 3 true true true 4096) (2 ^ 28) (fun _ => 0) (fun _ => 0).

Lemma open_validate_alignment_witness :
  exists b', Open (Construct witness_os) (str "/dev/mapper/imrsim") = (b', OK) /\
  (exists k, 9 <= k /\ direct_io_alignment_ b' = 2 ^ k) /\
  (ValidateRange b' 8192 512 = OK <->
     (direct_io_alignment_ b' | 8192) /\ (direct_io_alignment_ b' | 512) /\ 8192 < 2 ^ 63 /\ 512 < 2 ^ 63).
Proof.
  eexists. split; [by vm_compute|].
  apply (open_validate_alignment (Construct witness_os) (str "/dev/mapper/imrsim") _ 8192 512);
    [lia|lia|vm_compute; reflexivity|by vm_compute].
Defined.

End Backend.
