(* ===== verification/MetaFs.v ===== *)
(** The file system as [PersistSnapshotLocked] and [LoadSnapshotLocked] use it
    ([db/kvimr.cc]): one metadata file, its temporary sibling and the directory.

    [meta_current] is what a process sees under the name [KVIMR-META],
    [meta_durable] what the last directory [fsync] fixed; a file carries a flag
    that says whether its data was synced.  As for the device, [fs_script]
    scripts the next system calls. *)

From S2P Require Import Prelude.

Module MetaFs.

Inductive FsResp :=
| FsOk
| FsShort (n : Z)    (* transfer at most [n] bytes *)
| FsEintr
| FsTolerated        (* [EINVAL] or [ENOTSUP] *)
| FsFail.

Record file := MkFile { file_data : bytes; file_synced : bool }.

Record Fs := MkFs {
  fs_script : list FsResp;
  meta_current : option file;
  meta_durable : option file;
  temp_file : option file;
}.

Definition next_resp (fs : Fs) : FsResp * Fs :=
  match fs_script fs with
  | [] => (FsOk, fs)
  | r :: rs => (r, MkFs rs (meta_current fs) (meta_durable fs) (temp_file fs))
  end.

Definition set_temp (t : option file) (fs : Fs) : Fs :=
  MkFs (fs_script fs) (meta_current fs) (meta_durable fs) t.

Definition good (r : FsResp) : bool := match r with FsOk | FsShort _ => true | _ => false end.

(** [open(temp, O_WRONLY | O_CREAT | O_TRUNC)] *)
Definition sys_open_temp (fs : Fs) : Fs * bool :=
  let (r, fs') := next_resp fs in
  if good r then (set_temp (Some (MkFile [] false)) fs', true) else (fs', false).

(** [write(fd, data)]: appends a prefix of [data]; [inl n] is its length. *)
Definition sys_write_temp (fs : Fs) (data : bytes) : Fs * (Z + FsResp) :=
  let (r, fs') := next_resp fs in
  if good r then
    let n := match r with FsShort n => Z.max 0 (Z.min n (lenZ data)) | _ => lenZ data end in
    let old := match temp_file fs' with Some f => file_data f | None => [] end in
    (set_temp (Some (MkFile (old ++ take (Z.to_nat n) data) false)) fs', inl n)
  else (fs', inr r).

Definition sys_fdatasync_temp (fs : Fs) : Fs * bool :=
  let (r, fs') := next_resp fs in
  if good r
  then (set_temp ((fun f => MkFile (file_data f) true) <$> temp_file fs') fs', true)
  else (fs', false).

Definition sys_close (fs : Fs) : Fs * bool :=
  let (r, fs') := next_resp fs in (fs', good r).

(** [rename(temp, KVIMR-META)] is atomic. *)
Definition sys_rename (fs : Fs) : Fs * bool :=
  let (r, fs') := next_resp fs in
  if good r
  then (MkFs (fs_script fs') (temp_file fs') (meta_durable fs') None, true)
  else (fs', false).

(** [open(dbname, O_RDONLY)] then [fsync(dirfd)]. *)
Definition sys_open_dir (fs : Fs) : Fs * FsResp :=
  let (r, fs') := next_resp fs in (fs', r).
Definition sys_fsync_dir (fs : Fs) : Fs * FsResp :=
  let (r, fs') := next_resp fs in
  if good r
  then (MkFs (fs_script fs') (meta_current fs') (meta_current fs') (temp_file fs'), r)
  else (fs', r).

(** ** The write protocol of [PersistSnapshotLocked] *)

(** The [while (written < bytes.size())] loop. *)
Fixpoint write_all (fuel : nat) (fs : Fs) (data : bytes) : option (Fs * bool) :=
  match fuel with
  | O => None
  | S fuel' =>
      if 0 <? lenZ data then
        match sys_write_temp fs data with
        | (fs', inr FsEintr) => write_all fuel' fs' data
        | (fs', inr _) => Some (fs', false)
        | (fs', inl n) =>
            if n <=? 0 then Some (fs', false)
            else write_all fuel' fs' (drop (Z.to_nat n) data)
        end
      else Some (fs, true)
  end.

Definition write_fuel (fs : Fs) : nat := length (fs_script fs) + 2.

Definition write_metadata (fs : Fs) (data : bytes) : option (Fs * Status) :=
  let (fs, opened) := sys_open_temp fs in
  if negb opened then Some (fs, IOError "open KVIMR metadata temporary file")
  else
    match write_all (write_fuel fs) fs data with
    | None => None
    | Some (fs, false) => Some ((sys_close fs).1, IOError "write KVIMR metadata")
    | Some (fs, true) =>
        let (fs, synced) := sys_fdatasync_temp fs in
        if negb synced then Some ((sys_close fs).1, IOError "fdatasync KVIMR metadata")
        else
          let (fs, closed) := sys_close fs in
          if negb closed then Some (fs, IOError "close KVIMR metadata")
          else
            let (fs, renamed) := sys_rename fs in
            if negb renamed then Some (fs, IOError "rename KVIMR metadata")
            else
              let (fs, dir) := sys_open_dir fs in
              if negb (good dir) then
                match dir with
                | FsTolerated => Some (fs, OK)
                | _ => Some (fs, IOError "open KVIMR metadata directory")
                end
              else
                let (fs, r) := sys_fsync_dir fs in
                match r with
                | FsEintr | FsFail =>
                    Some ((sys_close fs).1, IOError "fsync KVIMR metadata directory")
                | _ => Some ((sys_close fs).1, OK)
                end
    end.

(** ** The read loop of [LoadSnapshotLocked] *)

Inductive ReadResult := ReadNoEnt | ReadError (msg : string) | ReadData (data : bytes).

Fixpoint read_all (fuel : nat) (fs : Fs) (rest acc : bytes) : option (Fs * ReadResult) :=
  match fuel with
  | O => None
  | S fuel' =>
      let (r, fs') := next_resp fs in
      match r with
      | FsEintr => read_all fuel' fs' rest acc
      | FsOk | FsShort _ =>
          (* [read] returns 0 only at the end of the file *)
          let n := match r with
                   | FsShort n => Z.max 1 (Z.min n 4096) | _ => 4096 end in
          match rest with
          | [] => Some (fs', ReadData acc)
          | _ => read_all fuel' fs' (drop (Z.to_nat n) rest) (acc ++ take (Z.to_nat n) rest)
          end
      | _ => Some (fs', ReadError "read KVIMR metadata")
      end
  end.

Definition read_metadata (fs : Fs) : option (Fs * ReadResult) :=
  let (r, fs) := next_resp fs in
  if negb (good r) then Some (fs, ReadError "open KVIMR metadata")
  else match meta_current fs with
  | None => Some (fs, ReadNoEnt)
  | Some f =>
      match read_all (length (fs_script fs) + length (file_data f) + 2) fs (file_data f) [] with
      | Some (fs, r) => Some ((sys_close fs).1, r)
      | None => None
      end
  end.

(** What a restart can find: the durable file, or the current one when its data
    reached the disk. *)
Definition after_crash (fs : Fs) (m : option file) : Prop :=
  m = meta_durable fs \/ (m = meta_current fs /\ forall f, m = Some f -> file_synced f = true).

(** ** Lemmas *)

(** The metadata names are untouched (the temporary file may differ). *)
Definition same_meta (fs fs' : Fs) : Prop :=
  meta_current fs' = meta_current fs /\ meta_durable fs' = meta_durable fs.

Lemma same_meta_trans a b c : same_meta a b -> same_meta b c -> same_meta a c.
Proof. intros [? ?] [? ?]. split; congruence. Qed.

Lemma next_resp_spec fs :
  same_meta fs (next_resp fs).2 /\ temp_file (next_resp fs).2 = temp_file fs /\
  fs_script (next_resp fs).2 = tail (fs_script fs) /\
  (fs_script fs = [] -> (next_resp fs).1 = FsOk) /\
  (forall r, r ∈ fs_script (next_resp fs).2 -> r ∈ fs_script fs) /\
  ((next_resp fs).1 = FsOk \/ (next_resp fs).1 ∈ fs_script fs).
Proof.
  unfold next_resp. destruct (fs_script fs) as [|r rs] eqn:E; simpl.
  - split; [done|]. split; [done|]. rewrite E. by split_and!; auto.
  - split; [done|]. split; [done|]. split; [done|]. split; [done|].
    split; [by right|]. right. left.
Qed.

(** Run the next call: [r] is its response, [fs'] the state after it. *)
Ltac step_fs r fs' :=
  match goal with
  | |- context [next_resp ?fs] =>
      let H := fresh "Hn" in
      pose proof (next_resp_spec fs) as H;
      destruct (next_resp fs) as [r fs'] eqn:?; simpl in H
  end.

Definition temp_data (fs : Fs) : bytes :=
  match temp_file fs with Some f => file_data f | None => [] end.

(** The write loop ends, leaves the metadata names alone, and on success has
    appended all of [data]. *)
Lemma write_all_spec fuel : forall fs data,
  ((if (0 <? lenZ data)%Z then 2 + length (fs_script fs) else 1) <= fuel)%nat ->
  exists fs' b, write_all fuel fs data = Some (fs', b) /\ same_meta fs fs' /\
    (forall r, r ∈ fs_script fs' -> r ∈ fs_script fs) /\
    (b = true -> temp_data fs' = temp_data fs ++ data /\
                 (is_Some (temp_file fs) -> is_Some (temp_file fs'))).
Proof.
  induction fuel as [|fuel IH]; intros fs data Hf; [zcase_in Hf; lia|]. simpl.
  destruct (0 <? lenZ data) eqn:E.
  2: { eexists _, _. split; [done|]. split; [done|]. split; [done|]. intros _.
       assert (data = []) as -> by (apply lenZ_0; pose proof (lenZ_nonneg data); lia).
       by rewrite app_nil_r. }
  unfold sys_write_temp. pose proof (next_resp_spec fs) as (Hm & Ht & Hs & Hnil & Hin & Hr).
  destruct (next_resp fs) as [r fs1]. simpl in *.
  assert ((2 + length (fs_script fs1) <= fuel)%nat \/ fs_script fs = []) as Hfuel.
  { rewrite Hs. destruct (fs_script fs); simpl in *; [by right|left; lia]. }
  destruct (good r) eqn:Eg.
  - set (n := match r with FsShort n => _ | _ => _ end).
    assert (0 <= n <= lenZ data) as Hn by (unfold n; destruct r; lia).
    destruct (n <=? 0) eqn:En; [by eexists _, _|].
    set (fs2 := set_temp _ fs1).
    assert (temp_data fs2 = temp_data fs ++ take (Z.to_nat n) data) as Htd.
    { unfold fs2, temp_data at 1. simpl. unfold temp_data. by rewrite Ht. }
    destruct (IH fs2 (drop (Z.to_nat n) data)) as (fs3 & b & -> & Hm3 & Hin3 & Hok).
    { rewrite lenZ_drop by lia. simpl. destruct Hfuel as [?|Hnil2].
      - zcase; lia.
      - specialize (Hnil Hnil2). subst r. unfold n. zcase; lia. }
    eexists _, _. split; [done|]. split; [by eapply same_meta_trans|].
    split; [by auto|]. intros Hb. destruct (Hok Hb) as [H1 H2]. split; [|by eauto].
    rewrite H1, Htd, <- app_assoc. f_equal. apply take_drop.
  - destruct r; try done; try (eexists _, _; split; [done|]; by split_and!).
    destruct (IH fs1 data) as (fs3 & b & -> & Hm3 & Hin3 & Hok).
    { rewrite E. destruct Hfuel as [?|Hnil2]; [done|]. by specialize (Hnil Hnil2). }
    eexists _, _. split; [done|]. split; [by eapply same_meta_trans|].
    split; [by auto|]. intros Hb. destruct (Hok Hb) as [H1 H2].
    split; [rewrite H1; unfold temp_data; by rewrite Ht|]. by rewrite <- Ht.
Qed.

(** What a run of the write protocol may have done to the metadata names. *)
Definition protocol_result (fs : Fs) (new : file) (fs' : Fs) (st : Status) : Prop :=
  (meta_current fs' = meta_current fs \/ meta_current fs' = Some new) /\
  (meta_durable fs' = meta_durable fs \/
     (meta_durable fs' = Some new /\ meta_current fs' = Some new)) /\
  (st = OK -> meta_current fs' = Some new /\
     (FsTolerated ∉ fs_script fs -> meta_durable fs' = Some new)).

Lemma protocol_unchanged fs new fs' msg : same_meta fs fs' -> protocol_result fs new fs' (IOError msg).
Proof. intros [H1 H2]. unfold protocol_result. rewrite H1, H2. split_and!; auto; done. Qed.

Lemma sys_close_spec fs :
  same_meta fs (sys_close fs).1 /\ temp_file (sys_close fs).1 = temp_file fs /\
  (forall r, r ∈ fs_script (sys_close fs).1 -> r ∈ fs_script fs) /\
  (fs_script fs = [] -> fs_script (sys_close fs).1 = []).
Proof.
  unfold sys_close. step_fs r fs1. destruct Hn as (? & ? & Hs & _ & ? & _).
  split_and!; try done; try apply H. simpl. rewrite Hs. by intros ->.
Qed.

Lemma write_metadata_spec fs data :
  exists fs' st, write_metadata fs data = Some (fs', st) /\
    protocol_result fs (MkFile data true) fs' st.
Proof.
  unfold write_metadata, sys_open_temp. step_fs r1 fs1. destruct Hn as (Hm1 & _ & _ & _ & Hin1 & _).
  destruct (good r1); simpl.
  2: { eexists _, _. split; [done|]. by apply protocol_unchanged. }
  set (fs1' := set_temp (Some (MkFile [] false)) fs1).
  destruct (write_all_spec (write_fuel fs1') fs1' data) as (fs2 & b & -> & Hm2 & Hin2 & Hok2).
  { unfold write_fuel. destruct (0 <? lenZ data); lia. }
  assert (same_meta fs fs2) as Hm02 by (by apply (same_meta_trans fs fs1)).
  destruct b.
  2: { eexists _, _. split; [done|]. apply protocol_unchanged.
       eapply same_meta_trans; [done|apply sys_close_spec]. }
  destruct (Hok2 eq_refl) as [Htd Htemp]. specialize (Htemp ltac:(by eexists)).
  assert (temp_data fs2 = data) as Htd2 by (rewrite Htd; done). clear Hok2 Htd.
  unfold sys_fdatasync_temp. step_fs r3 fs3. destruct Hn as (Hm3 & Ht3 & _ & _ & Hin3 & _).
  assert (same_meta fs fs3) as Hm03 by (by apply (same_meta_trans fs fs2)).
  destruct (good r3); simpl.
  2: { eexists _, _. split; [done|]. apply protocol_unchanged.
       eapply same_meta_trans; [done|apply sys_close_spec]. }
  set (fs3' := set_temp _ fs3).
  assert (temp_file fs3' = Some (MkFile data true)) as Ht3'.
  { unfold fs3'. simpl. rewrite Ht3. unfold temp_data in Htd2.
    destruct Htemp as [f Hf]. rewrite Hf in *. simpl. by rewrite Htd2. }
  assert (same_meta fs fs3') as Hm03' by done.
  assert (forall r, r ∈ fs_script fs3' -> r ∈ fs_script fs) as Hin03 by (simpl; auto).
  clearbody fs3'. clear -Hm03' Hin03 Ht3'.
  pose proof (sys_close_spec fs3') as (Hm4 & Ht4 & Hin4 & _).
  destruct (sys_close fs3') as [fs4 c4]. simpl in *.
  assert (same_meta fs fs4) as Hm04 by (by apply (same_meta_trans fs fs3')).
  unfold sys_rename. destruct c4; simpl.
  2: { eexists _, _. split; [done|]. by apply protocol_unchanged. }
  step_fs r5 fs5. destruct Hn as (Hm5 & Ht5 & _ & _ & Hin5 & _).
  assert (same_meta fs fs5) as Hm05 by (by apply (same_meta_trans fs fs4)).
  destruct (good r5); simpl.
  2: { eexists _, _. split; [done|]. by apply protocol_unchanged. }
  set (fs5' := MkFs (fs_script fs5) _ _ None).
  assert (meta_current fs5' = Some (MkFile data true)) as Hc5 by (simpl; congruence).
  assert (meta_durable fs5' = meta_durable fs) as Hd5 by (simpl; apply Hm05).
  assert (forall r, r ∈ fs_script fs5' -> r ∈ fs_script fs) as Hin05 by (simpl; auto).
  clearbody fs5'. clear -Hc5 Hd5 Hin05.
  unfold sys_open_dir. step_fs r6 fs6. destruct Hn as ((Hc6 & Hd6) & _ & _ & _ & Hin6 & Hr6).
  unfold protocol_result.
  destruct (good r6) eqn:Eg; simpl.
  2: { destruct r6; try done; (eexists _, _; split; [done|]); rewrite Hc6, Hd6, Hc5, Hd5;
         (split; [by right|]); (split; [by left|]); try done.
       intros _. split; [done|]. intros Hnt. exfalso. apply Hnt, Hin05. by destruct Hr6. }
  unfold sys_fsync_dir. step_fs r7 fs7. destruct Hn as ((Hc7 & Hd7) & _ & _ & _ & Hin7 & Hr7).
  destruct r7; simpl; (eexists _, _; split; [done|]);
    match goal with |- context [(sys_close ?f)] =>
      destruct (sys_close_spec f) as [[-> ->] _]; simpl end;
    rewrite ?Hd7, ?Hc7, ?Hc6, ?Hd6, ?Hc5, ?Hd5; (split; [by right|]); (split; [by (left + right)|]); try done.
  intros _. split; [done|]. intros Hnt. exfalso. apply Hnt, Hin05, Hin6. by destruct Hr7.
Qed.

(** Calls only consume the script. *)
Definition shrinks (fs fs' : Fs) : Prop := forall r, r ∈ fs_script fs' -> r ∈ fs_script fs.

Lemma shrinks_refl fs : shrinks fs fs.
Proof. by intros r. Qed.
#[local] Hint Resolve shrinks_refl : core.
Lemma shrinks_trans a b c : shrinks a b -> shrinks b c -> shrinks a c.
Proof. unfold shrinks. auto. Qed.
Lemma shrinks_next fs : shrinks fs (next_resp fs).2.
Proof. by destruct (next_resp_spec fs) as (_ & _ & _ & _ & H & _). Qed.

(** Every call is one [next_resp] followed by an update of the files. *)
Ltac shrinks_call :=
  intros; match goal with
  | |- shrinks ?fs _ => pose proof (shrinks_next fs); destruct (next_resp fs)
  end; simpl in *; repeat case_match; simplify_eq; done.

Lemma shrinks_open fs fs' b : sys_open_temp fs = (fs', b) -> shrinks fs fs'.
Proof. unfold sys_open_temp. shrinks_call. Qed.
Lemma shrinks_write fs d fs' r : sys_write_temp fs d = (fs', r) -> shrinks fs fs'.
Proof. unfold sys_write_temp. shrinks_call. Qed.
Lemma shrinks_fdatasync fs fs' b : sys_fdatasync_temp fs = (fs', b) -> shrinks fs fs'.
Proof. unfold sys_fdatasync_temp. shrinks_call. Qed.
Lemma shrinks_close fs fs' b : sys_close fs = (fs', b) -> shrinks fs fs'.
Proof. unfold sys_close. shrinks_call. Qed.
Lemma shrinks_rename fs fs' b : sys_rename fs = (fs', b) -> shrinks fs fs'.
Proof. unfold sys_rename. shrinks_call. Qed.
Lemma shrinks_open_dir fs fs' b : sys_open_dir fs = (fs', b) -> shrinks fs fs'.
Proof. unfold sys_open_dir. shrinks_call. Qed.
Lemma shrinks_fsync_dir fs fs' b : sys_fsync_dir fs = (fs', b) -> shrinks fs fs'.
Proof. unfold sys_fsync_dir. shrinks_call. Qed.
Lemma shrinks_close_1 fs : shrinks fs (sys_close fs).1.
Proof. destruct (sys_close fs) eqn:E. by eapply shrinks_close. Qed.

Lemma shrinks_write_all fuel : forall fs d fs' b, write_all fuel fs d = Some (fs', b) -> shrinks fs fs'.
Proof.
  induction fuel as [|fuel IH]; intros fs d fs' b; simpl; [done|].
  destruct (0 <? lenZ d); [|by intros [= <- <-]].
  destruct (sys_write_temp fs d) as [fs1 r] eqn:E. apply shrinks_write in E.
  destruct r as [n|[]]; [destruct (n <=? 0)|..]; intros H; simplify_eq; try done;
    (eapply shrinks_trans; [done|by eapply IH]).
Qed.


Lemma write_metadata_shrinks fs d fs' st : write_metadata fs d = Some (fs', st) -> shrinks fs fs'.
Proof.
  unfold write_metadata. intros H.
  repeat (case_match; simplify_eq; try done);
    repeat match goal with
    | E : _ = (_, _) |- _ => first [apply shrinks_open in E | apply shrinks_fdatasync in E
        | apply shrinks_close in E | apply shrinks_rename in E | apply shrinks_open_dir in E
        | apply shrinks_fsync_dir in E]
    | E : write_all _ _ _ = Some _ |- _ => apply shrinks_write_all in E
    end; unfold shrinks in *; intros r Hr; try apply shrinks_close_1 in Hr; auto 10.
Qed.

(** On a file system that serves every call the protocol succeeds. *)
Lemma next_resp_quiet fs : fs_script fs = [] -> next_resp fs = (FsOk, fs).
Proof. unfold next_resp. by intros ->. Qed.

Lemma write_metadata_quiet fs d : fs_script fs = [] ->
  exists fs', write_metadata fs d = Some (fs', OK) /\ fs_script fs' = [].
Proof.
  intros Hs.
  assert (exists fs', write_metadata fs d = Some (fs', OK)) as [fs' E].
  { unfold write_metadata, sys_open_temp. rewrite next_resp_quiet by done. simpl.
    replace (write_fuel _) with 2%nat by (unfold write_fuel; simpl; by rewrite Hs).
    assert (forall fs1, fs_script fs1 = [] -> exists fs2, fs_script fs2 = [] /\
      (if 0 <? lenZ d then match sys_write_temp fs1 d with
         | (fs', inl n) => if n <=? 0 then Some (fs', false) else
              if 0 <? lenZ (drop (Z.to_nat n) d) then None else Some (fs', true)
         | (fs', inr _) => None end else Some (fs1, true)) = Some (fs2, true)) as Hw.
    { intros fs1 Hs1. destruct (0 <? lenZ d) eqn:E0; [|by exists fs1].
      unfold sys_write_temp. rewrite next_resp_quiet by done. simpl.
      replace (lenZ d <=? 0) with false by lia. rewrite to_nat_lenZ, drop_all. eexists. split; [|reflexivity]. done. }
    destruct (Hw (set_temp (Some (MkFile [] false)) fs) Hs) as (fs2 & Hs2 & Ew).
    assert (write_all 2 (set_temp (Some (MkFile [] false)) fs) d = Some (fs2, true)) as Ew2.
    { revert Ew. simpl. destruct (0 <? lenZ d); [|done].
      destruct (sys_write_temp _ d) as [fs' [n|r]]; [|done]. destruct (n <=? 0); [done|].
      by destruct (0 <? lenZ (drop (Z.to_nat n) d)). }
    rewrite Ew2. unfold sys_fdatasync_temp. rewrite next_resp_quiet by done. simpl.
    unfold sys_close. rewrite next_resp_quiet by done. simpl.
    unfold sys_rename. rewrite next_resp_quiet by done. simpl.
    unfold sys_open_dir. rewrite next_resp_quiet by done. simpl.
    unfold sys_fsync_dir. rewrite next_resp_quiet by done. simpl. by eexists. }
  exists fs'. split; [done|]. apply write_metadata_shrinks in E. unfold shrinks in E. rewrite Hs in E.
  destruct (fs_script fs') as [|r l]; [done|]. specialize (E r ltac:(left)). by apply elem_of_nil in E.
Qed.

Lemma read_all_shrinks fuel : forall fs rest acc fs' r, read_all fuel fs rest acc = Some (fs', r) -> shrinks fs fs'.
Proof.
  induction fuel as [|fuel IH]; intros fs rest acc fs' r; simpl; [done|].
  pose proof (shrinks_next fs) as Hn. destruct (next_resp fs) as [q fs1]. simpl in Hn.
  destruct q, rest; intros H; simplify_eq; try done; (eapply shrinks_trans; [done|by eapply IH]).
Qed.

Lemma read_metadata_shrinks fs fs' r : read_metadata fs = Some (fs', r) -> shrinks fs fs'.
Proof.
  unfold read_metadata. pose proof (shrinks_next fs) as Hn. destruct (next_resp fs) as [q fs1]. simpl in Hn.
  destruct (good q); simpl; [|by intros [= <- <-]]. destruct (meta_current fs1); [|by intros [= <- <-]].
  destruct (read_all _ fs1 _ []) as [[fs2 r2]|] eqn:E; [|done]. intros [= <- <-].
  eapply shrinks_trans; [done|]. eapply shrinks_trans; [by eapply read_all_shrinks|apply shrinks_close_1].
Qed.

Lemma read_all_spec fuel : forall fs rest acc,
  (length (fs_script fs) + length rest + 1 <= fuel)%nat ->
  exists fs' r, read_all fuel fs rest acc = Some (fs', r) /\ same_meta fs fs' /\
    (r = ReadData (acc ++ rest) \/ r = ReadError "read KVIMR metadata") /\
    (fs_script fs = [] -> r = ReadData (acc ++ rest) /\ fs_script fs' = []).
Proof.
  induction fuel as [|fuel IH]; intros fs rest acc Hf; [lia|]. simpl.
  step_fs r fs1. destruct Hn as (Hm & _ & Hs & Hnil & _ & _).
  assert (rest = [] \/ forall n, 1 <= n ->
    (length (fs_script fs1) + length (drop (Z.to_nat n) rest) + 1 <= fuel)%nat) as Hstep.
  { destruct rest as [|x rest]; [by left|right]. intros n Hn. rewrite Hs, length_drop.
    destruct (fs_script fs); simpl in *; lia. }
  assert (forall n, 1 <= n -> exists fs' q,
    match rest with
    | [] => Some (fs1, ReadData acc)
    | _ :: _ => read_all fuel fs1 (drop (Z.to_nat n) rest) (acc ++ take (Z.to_nat n) rest)
    end = Some (fs', q) /\ same_meta fs fs' /\
    (q = ReadData (acc ++ rest) \/ q = ReadError "read KVIMR metadata") /\
    (fs_script fs = [] -> q = ReadData (acc ++ rest) /\ fs_script fs' = [])) as Hgood.
  { intros n Hn. destruct Hstep as [->|Hstep].
    - eexists _, _. rewrite app_nil_r. split; [done|]. split; [done|]. split; [by left|].
      intros Hn0. rewrite Hs. by rewrite Hn0.
    - destruct (IH fs1 (drop (Z.to_nat n) rest) (acc ++ take (Z.to_nat n) rest))
        as (fs' & q & E & Hm' & Hq & Hq2); [by apply Hstep|].
      rewrite <- app_assoc, take_drop in Hq, Hq2.
      destruct rest as [|x rest].
      + eexists _, _. rewrite app_nil_r. split; [done|]. split; [done|]. split; [by left|].
        intros Hn0. rewrite Hs. by rewrite Hn0.
      + eexists _, _. split; [done|]. split; [by eapply same_meta_trans|]. split; [done|].
        intros Hn0. apply Hq2. rewrite Hs. by rewrite Hn0. }
  destruct r; simpl; try (apply Hgood; lia).
  - destruct (IH fs1 rest acc) as (fs' & q & E & Hm' & Hq & Hq2).
    { rewrite Hs. destruct (fs_script fs); simpl in *; [by specialize (Hnil eq_refl)|lia]. }
    eexists _, _. split; [done|]. split; [by eapply same_meta_trans|]. split; [done|].
    intros Hn0. by specialize (Hnil Hn0).
  - eexists _, _. split; [done|]. split; [done|]. split; [by right|].
    intros Hn0. by specialize (Hnil Hn0).
  - eexists _, _. split; [done|]. split; [done|]. split; [by right|].
    intros Hn0. by specialize (Hnil Hn0).
Qed.

Lemma read_metadata_spec fs :
  exists fs' r, read_metadata fs = Some (fs', r) /\ same_meta fs fs' /\
    match r with
    | ReadNoEnt => meta_current fs = None
    | ReadData d => exists f, meta_current fs = Some f /\ d = file_data f
    | ReadError _ => True
    end /\
    (fs_script fs = [] ->
       r = match meta_current fs with Some f => ReadData (file_data f) | None => ReadNoEnt end /\
       fs_script fs' = []).
Proof.
  unfold read_metadata. step_fs r fs1. destruct Hn as ((Hc & Hd) & _ & Hs & Hnil & _ & _).
  destruct (good r) eqn:Eg; simpl.
  2: { eexists _, _. split; [done|]. split; [done|]. split; [done|].
       intros Hn0. specialize (Hnil Hn0). by subst. }
  rewrite Hc. destruct (meta_current fs) as [f|] eqn:Ef.
  2: { eexists _, _. split; [done|]. split; [split; congruence|]. split; [done|].
       intros Hn0. rewrite Hs. by rewrite Hn0. }
  destruct (read_all_spec (length (fs_script fs1) + length (file_data f) + 2) fs1 (file_data f) [])
    as (fs2 & q & -> & [Hc2 Hd2] & Hq & Hq2); [lia|].
  destruct (sys_close_spec fs2) as ((Hc3 & Hd3) & _ & _ & Hs3).
  eexists _, _. split; [done|]. split; [split; congruence|]. split.
  - destruct Hq as [->| ->]; [|done]. by exists f.
  - intros Hn0. destruct Hq2 as [-> Hs2]; [rewrite Hs; by rewrite Hn0|]. split; [done|]. by apply Hs3.
Qed.

(** ** Properties *)

(** C20: replacing the metadata file is atomic.  Whatever the system calls do,
    the write-sync-rename protocol returns, and a crash at any point of it (each
    point is the end of a run whose next call fails) finds either what a crash
    before it would have found or the complete new snapshot.  When it reports
    success the new snapshot is visible, and it is durable unless the directory
    sync was refused as unsupported. *)
Theorem snapshot_write_atomic fs data :
  exists fs' st, write_metadata fs data = Some (fs', st) /\
    (forall m, after_crash fs' m -> after_crash fs m \/ m = Some (MkFile data true)) /\
    (st = OK -> meta_current fs' = Some (MkFile data true) /\
       (FsTolerated ∉ fs_script fs ->
          forall m, after_crash fs' m -> m = Some (MkFile data true))).
Proof.
  destruct (write_metadata_spec fs data) as (fs' & st & E & Hcur & Hdur & HOK).
  exists fs', st. split; [done|]. unfold after_crash. split.
  - intros m [->|[-> Hs]].
    + destruct Hdur as [->|[-> _]]; auto.
    + destruct Hcur as [Hc| ->]; [|by right]. rewrite Hc in *. auto.
  - intros H. destruct (HOK H) as [Hc Hd]. split; [done|]. intros Hnt m [->|[-> _]]; [by apply Hd|done].
Qed.

End MetaFs.
