(* ===== verification/KvimrState.v ===== *)
(** The state of the KVIMR middleware ([db/kvimr.h]): per-SSTable state, the
    SSTable-to-track map, the RMW counters, and the small string helpers of
    [db/kvimr.cc]. *)

From S2P Require Import Prelude StdMap TrackAllocator MetaFs.
Import TrackAllocator.

Inductive RMWMode := NAIVE | MERGED.

#[export] Instance RMWMode_eq_dec : EqDecision RMWMode.
Proof. solve_decision. Defined.

Record RMWCounters := MkCounters {
  naive_rmw_count : Z;
  naive_rmw_read_bytes : Z;
  naive_rmw_write_bytes : Z;
  direct_write_bytes : Z;
  merged_rmw_count : Z;
  merged_rmw_read_bytes : Z;
  merged_rmw_write_bytes : Z;
  merged_logical_update_count : Z;
  merged_updates_saved : Z;
  merged_buffer_create_count : Z;
  merged_buffer_hit_count : Z;
  merged_buffer_flush_count : Z;
}.

Definition zero_counters : RMWCounters := MkCounters 0 0 0 0 0 0 0 0 0 0 0 0.

Record PendingUpdate := MkPending { upd_offset : Z; upd_data : bytes }.

Record MergedTrackBuffer := MkBuffer {
  buf_segment : KVIMRTrackSegment;
  buf_data : bytes;
  buf_update_count : Z;
  buf_loaded : bool;
  buf_dirty : bool;
}.

(** A value-initialised buffer, as [merged_buffers[index]] creates it. *)
Definition empty_buffer : MergedTrackBuffer := MkBuffer (MkSegment 0 0 TOP 0 0) [] 0 false false.

Record SSTableState := MkState {
  file_number : Z;
  level : Z;
  effective_largest_level : Z;
  synced : bool;
  data : bytes;
  tracks : list KVIMRTrackSegment;
  pending_updates : list PendingUpdate;
  merged_buffers : stdmap Z MergedTrackBuffer;
}.

Definition new_state : SSTableState := MkState 0 (-1) (-1) false [] [] [] [].

Definition set_ids (fn lv el : Z) (s : SSTableState) : SSTableState :=
  MkState fn lv el (synced s) (data s) (tracks s) (pending_updates s) (merged_buffers s).
Definition set_synced (b : bool) (s : SSTableState) : SSTableState :=
  MkState (file_number s) (level s) (effective_largest_level s) b (data s) (tracks s)
    (pending_updates s) (merged_buffers s).
Definition set_data (d : bytes) (s : SSTableState) : SSTableState :=
  MkState (file_number s) (level s) (effective_largest_level s) (synced s) d (tracks s)
    (pending_updates s) (merged_buffers s).
Definition set_tracks (t : list KVIMRTrackSegment) (s : SSTableState) : SSTableState :=
  MkState (file_number s) (level s) (effective_largest_level s) (synced s) (data s) t
    (pending_updates s) (merged_buffers s).
Definition set_pending (p : list PendingUpdate) (s : SSTableState) : SSTableState :=
  MkState (file_number s) (level s) (effective_largest_level s) (synced s) (data s) (tracks s)
    p (merged_buffers s).
Definition set_buffers (m : stdmap Z MergedTrackBuffer) (s : SSTableState) : SSTableState :=
  MkState (file_number s) (level s) (effective_largest_level s) (synced s) (data s) (tracks s)
    (pending_updates s) m.

(** [class KVIMR], over the type [D] of its [backend_]; [fs_] is the file system
    its metadata lives in. *)
Record KVIMR (D : Type) := MkKVIMR {
  files_ : stdmap bytes SSTableState;
  s2tmap_ : stdmap Z (list KVIMRTrackSegment);
  allocator_ : KVIMRTrackAllocator;
  backend_ : D;
  persistence_enabled_ : bool;
  configured_zones_ : Z;
  dbname_ : bytes;
  metadata_path_ : bytes;
  rmw_counters_ : RMWCounters;
  rmw_mode_ : RMWMode;
  fs_ : MetaFs.Fs;
}.
Arguments MkKVIMR {D}.
Arguments files_ {D}.
Arguments s2tmap_ {D}.
Arguments allocator_ {D}.
Arguments backend_ {D}.
Arguments persistence_enabled_ {D}.
Arguments configured_zones_ {D}.
Arguments dbname_ {D}.
Arguments metadata_path_ {D}.
Arguments rmw_counters_ {D}.
Arguments rmw_mode_ {D}.
Arguments fs_ {D}.

Section Setters.
Context {D : Type}.
Implicit Types k : KVIMR D.

Definition set_files (f : stdmap bytes SSTableState) k : KVIMR D :=
  MkKVIMR f (s2tmap_ k) (allocator_ k) (backend_ k) (persistence_enabled_ k)
    (configured_zones_ k) (dbname_ k) (metadata_path_ k) (rmw_counters_ k) (rmw_mode_ k) (fs_ k).
Definition set_s2tmap (m : stdmap Z (list KVIMRTrackSegment)) k : KVIMR D :=
  MkKVIMR (files_ k) m (allocator_ k) (backend_ k) (persistence_enabled_ k)
    (configured_zones_ k) (dbname_ k) (metadata_path_ k) (rmw_counters_ k) (rmw_mode_ k) (fs_ k).
Definition set_allocator (a : KVIMRTrackAllocator) k : KVIMR D :=
  MkKVIMR (files_ k) (s2tmap_ k) a (backend_ k) (persistence_enabled_ k)
    (configured_zones_ k) (dbname_ k) (metadata_path_ k) (rmw_counters_ k) (rmw_mode_ k) (fs_ k).
Definition set_backend (d : D) k : KVIMR D :=
  MkKVIMR (files_ k) (s2tmap_ k) (allocator_ k) d (persistence_enabled_ k)
    (configured_zones_ k) (dbname_ k) (metadata_path_ k) (rmw_counters_ k) (rmw_mode_ k) (fs_ k).
Definition set_counters (c : RMWCounters) k : KVIMR D :=
  MkKVIMR (files_ k) (s2tmap_ k) (allocator_ k) (backend_ k) (persistence_enabled_ k)
    (configured_zones_ k) (dbname_ k) (metadata_path_ k) c (rmw_mode_ k) (fs_ k).
Definition set_mode (m : RMWMode) k : KVIMR D :=
  MkKVIMR (files_ k) (s2tmap_ k) (allocator_ k) (backend_ k) (persistence_enabled_ k)
    (configured_zones_ k) (dbname_ k) (metadata_path_ k) (rmw_counters_ k) m (fs_ k).
Definition set_fs (f : MetaFs.Fs) k : KVIMR D :=
  MkKVIMR (files_ k) (s2tmap_ k) (allocator_ k) (backend_ k) (persistence_enabled_ k)
    (configured_zones_ k) (dbname_ k) (metadata_path_ k) (rmw_counters_ k) (rmw_mode_ k) f.
(** Store [st] back into [files_[fname]]. *)
Definition put_file (fname : bytes) (st : SSTableState) k : KVIMR D :=
  set_files (m_insert fname st (files_ k)) k.
End Setters.

(** ** String helpers *)

Definition slash : Z := 47.
Definition backslash : Z := 92.
Definition dot : Z := 46.
Definition is_sep (c : Z) : bool := (c =? slash) || (c =? backslash).

(** [s.find_last_of("/\\")] from position [i]. *)
Fixpoint find_last_sep (s : bytes) (i : Z) : option Z :=
  match s with
  | [] => None
  | c :: s' =>
      match find_last_sep s' (i + 1) with
      | Some j => Some j
      | None => if is_sep c then Some i else None
      end
  end.

(** The digit loop of [FileNumber]. *)
Fixpoint parse_digits (s : bytes) (number : Z) : Z :=
  match s with
  | [] => number
  | c :: s' =>
      if (c <? 48) || (c >? 57) then 0
      else parse_digits s' ((number [*] 10) [+] (c - 48))
  end.

(** Bytes before the first ['.'], if there is one. *)
Fixpoint before_dot (s : bytes) : option bytes :=
  match s with
  | [] => None
  | c :: s' => if c =? dot then Some [] else (fun r => c :: r) <$> before_dot s'
  end.

Definition FileNumber (fname : bytes) : Z :=
  let begin := match find_last_sep fname 0 with Some i => i + 1 | None => 0 end in
  match before_dot (drop (Z.to_nat begin) fname) with
  | None | Some [] => 0
  | Some digits => parse_digits digits 0
  end.
