(* ===== verification/Snapshot.v ===== *)
(** The metadata snapshot format ([db/kvimr.cc]: [Put32]..[Get64] and the
    encoding and decoding parts of [PersistSnapshotLocked] and
    [LoadSnapshotLocked]).

    A decoder takes the bytes from the read position [pos] on and returns the
    bytes after what it consumed. *)

From S2P Require Import Prelude StdMap TrackAllocator KvimrState.
Import TrackAllocator.

Definition kMetadataVersion : Z := 1.
Definition kSectorSize : Z := 512.
Definition kMetadataMagic : bytes := str "KVIMR35A".

(** [n] times [push_back(static_cast<char>(value >> (i * 8)))]. *)
Fixpoint put_loop (i : Z) (n : nat) (value : Z) : bytes :=
  match n with
  | O => []
  | S n' => u8 (Z.shiftr value (i * 8)) :: put_loop (i + 1) n' value
  end.
Definition Put32 (value : Z) : bytes := put_loop 0 4 value.
Definition Put64 (value : Z) : bytes := put_loop 0 8 value.

(** [*value |= byte << (i * 8)] over the bytes. *)
Fixpoint get_loop (i : Z) (bs : bytes) (value : Z) : Z :=
  match bs with
  | [] => value
  | b :: bs' => get_loop (i + 1) bs' (Z.lor value (Z.shiftl b (i * 8)))
  end.
Definition get_bytes (n : nat) (bs : bytes) : option (Z * bytes) :=
  if lenZ bs <? Z.of_nat n then None else Some (get_loop 0 (take n bs) 0, drop n bs).
Definition Get32 (bs : bytes) : option (Z * bytes) := get_bytes 4 bs.
Definition Get64 (bs : bytes) : option (Z * bytes) := get_bytes 8 bs.
(** [bytes[pos++]] after the [pos >= bytes.size()] test. *)
Definition get_char (bs : bytes) : option (Z * bytes) :=
  match bs with [] => None | b :: bs' => Some (b, bs') end.

(** ** Encoding *)

Fixpoint strip_seps (s : bytes) : bytes :=
  match s with
  | [] => []
  | c :: s' => if is_sep c then strip_seps s' else s
  end.

Definition relative_path (dbname fname : bytes) : bytes :=
  if decide (take (length dbname) fname = dbname)
  then strip_seps (drop (length dbname) fname)
  else fname.

Definition bool_byte (b : bool) : Z := if b then 1 else 0.

Definition encode_segment (s : KVIMRTrackSegment) : bytes :=
  Put32 (seg_zone s) ++ Put32 (seg_group s) ++
  [bool_byte (bool_decide (seg_type s = BOTTOM))] ++
  Put64 (logical_sector_start s) ++ Put32 (sector_length s).

Definition encode_entry (dbname fname : bytes) (st : SSTableState) : bytes :=
  let relative := relative_path dbname fname in
  Put64 (file_number st) ++ Put32 (u32 (level st)) ++ Put32 (u32 (effective_largest_level st)) ++
  Put64 (lenZ (data st)) ++ [bool_byte (synced st)] ++
  Put32 (u32 (lenZ relative)) ++ relative ++
  Put32 (u32 (lenZ (tracks st))) ++ concat (map encode_segment (tracks st)).

Definition encode_header (zones count : Z) : bytes :=
  kMetadataMagic ++ Put32 kMetadataVersion ++ Put32 kSectorSize ++ Put32 kZoneSectors ++
  Put32 kGroupsPerZone ++ Put32 kTopSectors ++ Put32 kBottomSectors ++ Put32 zones ++ Put32 count.

Definition encode_snapshot (dbname : bytes) (zones : Z) (files : stdmap bytes SSTableState) : bytes :=
  encode_header zones (u32 (lenZ files)) ++
  concat (map (fun e => encode_entry dbname e.1 e.2) files).

(** ** Decoding *)

Inductive Res (A : Type) := Ret (x : A) | Err (st : Status).
Arguments Ret {A}.
Arguments Err {A}.

Definition bindR {A B} (m : Res A) (f : A -> Res B) : Res B :=
  match m with Ret x => f x | Err e => Err e end.
Definition or_else {A} (m : option A) (e : Status) : Res A :=
  match m with Some x => Ret x | None => Err e end.
Notation "'let*' p := m 'in' k" := (bindR m (fun p => k))
  (at level 10, p pattern, m at level 200, k at level 200).

Definition truncated_header : Status := Corruption "truncated KVIMR metadata".
Definition truncated_entry : Status := Corruption "truncated KVIMR metadata entry".
Definition truncated_segment : Status := Corruption "truncated KVIMR segment".

(** Magic, version and geometry; yields the entry count. *)
Definition decode_header (configured_zones : Z) (bs : bytes) : Res (Z * bytes) :=
  let n := length kMetadataMagic in
  if negb (bool_decide (take n bs = kMetadataMagic))
  then Err (Corruption "invalid KVIMR metadata magic")
  else
    let bs := drop n bs in
    let* (version, bs) := or_else (Get32 bs) truncated_header in
    let* (sector, bs) := or_else (Get32 bs) truncated_header in
    let* (zone_sectors, bs) := or_else (Get32 bs) truncated_header in
    let* (groups, bs) := or_else (Get32 bs) truncated_header in
    let* (top, bs) := or_else (Get32 bs) truncated_header in
    let* (bottom, bs) := or_else (Get32 bs) truncated_header in
    let* (zones, bs) := or_else (Get32 bs) truncated_header in
    let* (count, bs) := or_else (Get32 bs) truncated_header in
    if negb (version =? kMetadataVersion) || negb (sector =? kSectorSize)
       || negb (zone_sectors =? kZoneSectors) || negb (groups =? kGroupsPerZone)
       || negb (top =? kTopSectors) || negb (bottom =? kBottomSectors)
       || negb (zones =? configured_zones)
    then Err (InvalidArgument "KVIMR metadata geometry mismatch")
    else Ret (count, bs).

Definition decode_segment (bs : bytes) : Res (KVIMRTrackSegment * bytes) :=
  let* (zone, bs) := or_else (Get32 bs) truncated_segment in
  let* (group, bs) := or_else (Get32 bs) truncated_segment in
  let* (is_bottom, bs) := or_else (get_char bs) truncated_segment in
  let* (start, bs) := or_else (Get64 bs) truncated_segment in
  let* (length, bs) := or_else (Get32 bs) truncated_segment in
  Ret (MkSegment zone group (if negb (is_bottom =? 0) then BOTTOM else TOP) start length, bs).

Fixpoint decode_segments (n : nat) (bs : bytes) : Res (list KVIMRTrackSegment * bytes) :=
  match n with
  | O => Ret ([], bs)
  | S n' =>
      let* (s, bs) := decode_segment bs in
      let* (ss, bs) := decode_segments n' bs in
      Ret (s :: ss, bs)
  end.

(** One entry: the state with [data] resized to the recorded size (zeros), and
    the relative path. *)
Definition decode_entry (bs : bytes) : Res (SSTableState * bytes * bytes) :=
  let* (fn, bs) := or_else (Get64 bs) truncated_entry in
  let* (lv, bs) := or_else (Get32 bs) truncated_entry in
  let* (largest, bs) := or_else (Get32 bs) truncated_entry in
  let* (size, bs) := or_else (Get64 bs) truncated_entry in
  let* (sync, bs) := or_else (get_char bs) truncated_entry in
  let* (path_len, bs) := or_else (Get32 bs) truncated_entry in
  if path_len >? lenZ bs then Err truncated_entry
  else if size >? 2 ^ 64 - 1 then Err (InvalidArgument "KVIMR metadata file is too large")
  else
    let relative := take (Z.to_nat path_len) bs in
    let bs := drop (Z.to_nat path_len) bs in
    let* (seg_count, bs) := or_else (Get32 bs) (Corruption "truncated KVIMR segment list") in
    let* (segs, bs) := decode_segments (Z.to_nat seg_count) bs in
    Ret (MkState fn (i32 lv) (i32 largest) (negb (sync =? 0))
           (replicate (Z.to_nat size) 0) segs [] [], relative, bs).

(** All entries of a snapshot, with nothing done to them between. *)
Fixpoint decode_entries (n : nat) (bs : bytes) : Res (list (bytes * SSTableState) * bytes) :=
  match n with
  | O => Ret ([], bs)
  | S n' =>
      let* (state, relative, bs) := decode_entry bs in
      let* (es, bs) := decode_entries n' bs in
      Ret ((relative, state) :: es, bs)
  end.
Definition decode_snapshot (configured_zones : Z) (bs : bytes)
  : Res (list (bytes * SSTableState) * bytes) :=
  let* (count, bs) := decode_header configured_zones bs in decode_entries (Z.to_nat count) bs.

(** ** Lemmas *)

Lemma length_put_loop n i v : length (put_loop i n v) = n.
Proof. revert i. induction n as [|n IH]; intros i; simpl; [done|]. by rewrite IH. Qed.

Lemma testbit_u8 x i : 0 <= i -> Z.testbit (u8 x) i = (i <? 8) && Z.testbit x i.
Proof.
  intros Hi. unfold u8. destruct (i <? 8) eqn:E; simpl.
  - apply Z.mod_pow2_bits_low. lia.
  - apply Z.mod_pow2_bits_high. lia.
Qed.

(** The decode loop collects the bits the encode loop emitted. *)
Lemma get_put_loop n : forall i v acc k,
  0 <= i -> 0 <= k ->
  Z.testbit (get_loop i (put_loop i n v) acc) k =
    Z.testbit acc k || ((8 * i <=? k) && (k <? 8 * (i + Z.of_nat n)) && Z.testbit v k).
Proof.
  induction n as [|n IH]; intros i v acc k Hi Hk; simpl put_loop; simpl get_loop.
  - replace ((8 * i <=? k) && (k <? 8 * (i + Z.of_nat 0))) with false by lia.
    by rewrite orb_false_r.
  - rewrite IH, Z.lor_spec by lia. rewrite <- orb_assoc. f_equal.
    destruct (Z.ltb_spec k (i * 8)) as [Hlt|Hge].
    + rewrite Z.shiftl_spec_low by lia. replace (8 * (i + 1) <=? k) with false by lia.
      by replace (8 * i <=? k) with false by lia.
    + rewrite Z.shiftl_spec, testbit_u8, Z.shiftr_spec by lia.
      replace (k - i * 8 + i * 8) with k by lia.
      replace (8 * i <=? k) with true by lia.
      destruct (Z.ltb_spec (k - i * 8) 8) as [H8|H8].
      * replace (k <? 8 * (i + Z.of_nat (S n))) with true by lia.
        replace (8 * (i + 1) <=? k) with false by lia. simpl. by rewrite orb_false_r.
      * replace (8 * (i + 1) <=? k) with true by lia. simpl.
        by replace (k <? 8 * (i + 1 + Z.of_nat n)) with (k <? 8 * (i + Z.of_nat (S n))) by lia.
Qed.

Lemma get_put_bytes n v rest :
  0 <= v < 2 ^ (8 * Z.of_nat n) -> get_bytes n (put_loop 0 n v ++ rest) = Some (v, rest).
Proof.
  intros Hv. unfold get_bytes. rewrite lenZ_app. unfold lenZ at 1. rewrite length_put_loop.
  pose proof (lenZ_nonneg rest). replace (_ <? _) with false by lia.
  rewrite take_app_length', drop_app_length' by (by rewrite length_put_loop).
  do 2 f_equal. apply Z.bits_inj'. intros k Hk.
  rewrite get_put_loop, Z.bits_0 by lia. simpl.
  destruct (k <? 8 * Z.of_nat n) eqn:E.
  - rewrite Z.add_0_l, E. by replace (8 * 0 <=? k) with true by lia.
  - rewrite Z.add_0_l, E, andb_false_r. simpl. symmetry.
    rewrite <- (Z.mod_small v (2 ^ (8 * Z.of_nat n))) by done.
    apply Z.mod_pow2_bits_high. lia.
Qed.

Lemma Get_Put32 v rest : 0 <= v < 2 ^ 32 -> Get32 (Put32 v ++ rest) = Some (v, rest).
Proof. apply (get_put_bytes 4). Qed.
Lemma Get_Put64 v rest : 0 <= v < 2 ^ 64 -> Get64 (Put64 v ++ rest) = Some (v, rest).
Proof. apply (get_put_bytes 8). Qed.

(** A decoder that succeeds ignores what follows. *)
Lemma get_bytes_more n bs v r t : get_bytes n bs = Some (v, r) -> get_bytes n (bs ++ t) = Some (v, r ++ t).
Proof.
  unfold get_bytes. rewrite lenZ_app. pose proof (lenZ_nonneg t). unfold lenZ in *.
  destruct (Z.of_nat (length bs) <? Z.of_nat n) eqn:E; [done|]. intros [= <- <-].
  replace (_ <? _) with false by lia. rewrite take_app_le, drop_app_le by lia. done.
Qed.
Lemma Get32_more bs v r t : Get32 bs = Some (v, r) -> Get32 (bs ++ t) = Some (v, r ++ t).
Proof. apply get_bytes_more. Qed.
Lemma Get64_more bs v r t : Get64 bs = Some (v, r) -> Get64 (bs ++ t) = Some (v, r ++ t).
Proof. apply get_bytes_more. Qed.

Global Opaque Put32 Put64 Get32 Get64.

Create Rewrite HintDb codec.
#[export] Hint Rewrite Get_Put32 Get_Put64 using lia : codec.

(** Field ranges of a segment as the C++ type has them. *)
Definition segment_typed (s : KVIMRTrackSegment) : Prop :=
  0 <= seg_zone s < 2 ^ 32 /\ 0 <= seg_group s < 2 ^ 32 /\
  0 <= logical_sector_start s < 2 ^ 64 /\ 0 <= sector_length s < 2 ^ 32.

Lemma decode_encode_segment s rest :
  segment_typed s -> decode_segment (encode_segment s ++ rest) = Ret (s, rest).
Proof.
  intros (Hz & Hg & Hs & Hl). unfold encode_segment, decode_segment.
  rewrite <- !app_assoc. autorewrite with codec. simpl bindR. autorewrite with codec. simpl.
  autorewrite with codec. simpl. autorewrite with codec. simpl.
  destruct s as [z g [] st len]; simpl; done.
Qed.

Lemma decode_encode_segments ss rest :
  Forall segment_typed ss ->
  decode_segments (length ss) (concat (map encode_segment ss) ++ rest) = Ret (ss, rest).
Proof.
  induction 1 as [|s ss Hs _ IH]; simpl; [done|].
  rewrite <- app_assoc, decode_encode_segment by done. simpl. by rewrite IH.
Qed.

Lemma decode_encode_header zones count rest :
  0 <= zones < 2 ^ 32 -> 0 <= count < 2 ^ 32 ->
  decode_header zones (encode_header zones count ++ rest) = Ret (count, rest).
Proof.
  intros Hz Hc. unfold decode_header, encode_header. rewrite <- !app_assoc.
  rewrite take_app_length, drop_app_length. rewrite bool_decide_true by done. simpl negb. cbv iota.
  unfold kMetadataVersion, kSectorSize, kZoneSectors, kGroupsPerZone, kTopSectors, kBottomSectors.
  do 8 (autorewrite with codec; simpl). by rewrite Z.eqb_refl.
Qed.

(** The persistent part of an SSTable state, with its payload zeroed. *)
Definition stored_state (st : SSTableState) : SSTableState :=
  MkState (file_number st) (level st) (effective_largest_level st) (synced st)
    (replicate (length (data st)) 0) (tracks st) [] [].

(** Field ranges of a state as the C++ types have them, and containers no
    larger than their 32-bit counts can express. *)
Definition state_typed (dbname fname : bytes) (st : SSTableState) : Prop :=
  0 <= file_number st < 2 ^ 64 /\ - 2 ^ 31 <= level st < 2 ^ 31 /\
  - 2 ^ 31 <= effective_largest_level st < 2 ^ 31 /\ lenZ (data st) < 2 ^ 64 /\
  lenZ (tracks st) < 2 ^ 32 /\ lenZ (relative_path dbname fname) < 2 ^ 32 /\
  Forall segment_typed (tracks st).

Lemma decode_encode_entry dbname fname st rest :
  state_typed dbname fname st ->
  decode_entry (encode_entry dbname fname st ++ rest) =
    Ret (stored_state st, relative_path dbname fname, rest).
Proof.
  intros (Hfn & Hlv & Hel & Hd & Ht & Hp & Hs). unfold encode_entry, decode_entry.
  set (rel := relative_path dbname fname) in *. rewrite <- !app_assoc.
  pose proof (lenZ_nonneg (data st)). pose proof (lenZ_nonneg (tracks st)). pose proof (lenZ_nonneg rel).
  pose proof (u32_range (level st)). pose proof (u32_range (effective_largest_level st)).
  rewrite (u32_small (lenZ rel)), (u32_small (lenZ (tracks st))) by lia.
  do 4 (autorewrite with codec; simpl bindR). simpl get_char. simpl bindR.
  autorewrite with codec. simpl bindR. rewrite lenZ_app.
  pose proof (lenZ_nonneg (Put32 (lenZ (tracks st)) ++ concat (map encode_segment (tracks st)) ++ rest)).
  replace (_ >? _) with false by lia. replace (_ >? _) with false by lia.
  rewrite !to_nat_lenZ, take_app_length, drop_app_length. autorewrite with codec. simpl bindR.
  rewrite to_nat_lenZ, decode_encode_segments by done. simpl bindR.
  unfold stored_state. rewrite !i32_u32 by done.
  by destruct (synced st).
Qed.

(** A file directly under the database directory gets its name back. *)
Lemma strip_seps_id s : (forall c s', s = c :: s' -> is_sep c = false) -> strip_seps s = s.
Proof. destruct s as [|c s]; simpl; [done|]. intros H. by rewrite (H c s). Qed.

Lemma relative_path_under dbname rel :
  (forall c s', rel = c :: s' -> is_sep c = false) ->
  relative_path dbname (dbname ++ [slash] ++ rel) = rel.
Proof.
  intros H. unfold relative_path. rewrite take_app_length, decide_True, drop_app_length by done.
  simpl. by apply strip_seps_id.
Qed.

(** ** Truncation *)

Definition more {A} (dec : bytes -> Res (A * bytes)) : Prop :=
  forall bs x r t, dec bs = Ret (x, r) -> dec (bs ++ t) = Ret (x, r ++ t).

Lemma bindR_Ret {A B} (m : Res A) (f : A -> Res B) y :
  bindR m f = Ret y -> exists x, m = Ret x /\ f x = Ret y.
Proof. destruct m as [x|e]; [|done]. intros H. by exists x. Qed.

Lemma or_else_Ret {A} (m : option A) e x : or_else m e = Ret x -> m = Some x.
Proof. destruct m; [by intros [= ->]|done]. Qed.

Lemma get_char_more bs v r t : get_char bs = Some (v, r) -> get_char (bs ++ t) = Some (v, r ++ t).
Proof. destruct bs; [done|]. by intros [= -> ->]. Qed.

(** [H] says that a decoder succeeded on [bs]: read its next field on [bs ++ t]. *)
Ltac more_field t H :=
  let E := fresh "E" in let v := fresh "v" in let r := fresh "r" in
  apply bindR_Ret in H as ([v r] & E%or_else_Ret & H); cbv beta iota in H;
  first [apply (Get32_more _ _ _ t) in E | apply (Get64_more _ _ _ t) in E | apply (get_char_more _ _ _ t) in E];
  rewrite E; cbn [or_else bindR].

Lemma decode_segment_more : more decode_segment.
Proof.
  intros bs x rest t H. unfold decode_segment in *.
  do 5 more_field t H. by injection H as <- <-.
Qed.

Lemma decode_segments_more n : more (decode_segments n).
Proof.
  induction n as [|n IH]; intros bs x rest t H; simpl in *; [by injection H as <- <-|].
  apply bindR_Ret in H as ([s r] & E & H). apply (decode_segment_more _ _ _ t) in E. rewrite E. simpl.
  apply bindR_Ret in H as ([ss r2] & E2 & H). apply (IH _ _ _ t) in E2. rewrite E2. simpl.
  by injection H as <- <-.
Qed.

Lemma decode_entry_more bs x rel rest t :
  decode_entry bs = Ret (x, rel, rest) -> decode_entry (bs ++ t) = Ret (x, rel, rest ++ t).
Proof.
  intros H. unfold decode_entry in *. do 6 more_field t H.
  destruct (v4 >? lenZ r4) eqn:Ep; [done|]. rewrite lenZ_app. pose proof (lenZ_nonneg t).
  replace (v4 >? lenZ r4 + lenZ t) with false by lia. destruct (v2 >? _); [done|].
  assert (Z.to_nat v4 <= length r4)%nat by (unfold lenZ in *; lia).
  rewrite take_app_le, drop_app_le by done. more_field t H.
  apply bindR_Ret in H as ([ss r6] & E7 & H). apply (decode_segments_more _ _ _ _ t) in E7. rewrite E7. simpl.
  by injection H as <- <- <-.
Qed.

Lemma decode_entries_more n : more (decode_entries n).
Proof.
  induction n as [|n IH]; intros bs x rest t H; simpl in *; [by injection H as <- <-|].
  apply bindR_Ret in H as ([[s rel] r] & E & H). apply (decode_entry_more _ _ _ _ t) in E. rewrite E. simpl.
  apply bindR_Ret in H as ([ss r2] & E2 & H). apply (IH _ _ _ t) in E2. rewrite E2. simpl.
  by injection H as <- <-.
Qed.

Lemma decode_header_more zones : more (decode_header zones).
Proof.
  intros bs x rest t H. unfold decode_header in *.
  case_bool_decide as Em; [|done]. simpl negb in *. cbv iota in *.
  assert (length kMetadataMagic <= length bs)%nat as Hlen.
  { rewrite <- Em at 1. rewrite length_take. lia. }
  rewrite take_app_le, bool_decide_true, drop_app_le by done. simpl negb. cbv iota.
  do 8 more_field t H. destruct (_ || _); [done|]. by injection H as <- <-.
Qed.

Lemma decode_snapshot_more zones : more (decode_snapshot zones).
Proof.
  intros bs x rest t H. unfold decode_snapshot in *.
  apply bindR_Ret in H as ([c r] & E & H). apply (decode_header_more _ _ _ _ t) in E. rewrite E. simpl.
  by apply decode_entries_more.
Qed.

(** ** Whole snapshots *)

Definition snapshot_typed (dbname : bytes) (zones : Z) (files : stdmap bytes SSTableState) : Prop :=
  0 <= zones < 2 ^ 32 /\ lenZ files < 2 ^ 32 /\ Forall (fun e => state_typed dbname e.1 e.2) files.

Lemma decode_encode_entries dbname files rest :
  Forall (fun e => state_typed dbname e.1 e.2) files ->
  decode_entries (length files) (concat (map (fun e => encode_entry dbname e.1 e.2) files) ++ rest) =
    Ret (map (fun e => (relative_path dbname e.1, stored_state e.2)) files, rest).
Proof.
  induction 1 as [|e files He _ IH]; simpl; [done|].
  rewrite <- app_assoc, decode_encode_entry by done. simpl. by rewrite IH.
Qed.

Lemma decode_encode_snapshot dbname zones files :
  snapshot_typed dbname zones files ->
  decode_snapshot zones (encode_snapshot dbname zones files) =
    Ret (map (fun e => (relative_path dbname e.1, stored_state e.2)) files, []).
Proof.
  intros (Hz & Hl & Hf). pose proof (lenZ_nonneg files). unfold decode_snapshot, encode_snapshot.
  rewrite u32_small, decode_encode_header by lia. simpl. rewrite to_nat_lenZ.
  rewrite <- (app_nil_r (concat _)). by apply decode_encode_entries.
Qed.

(** No proper prefix of a snapshot decodes. *)
Lemma decode_prefix dbname zones files bs t x :
  snapshot_typed dbname zones files -> encode_snapshot dbname zones files = bs ++ t -> t <> [] ->
  decode_snapshot zones bs <> Ret x.
Proof.
  intros Ht E Hne. destruct x as [x r]. intros H. apply (decode_snapshot_more _ _ _ _ t) in H.
  rewrite <- E, decode_encode_snapshot in H by done. injection H as _ H. by destruct r, t.
Qed.

(** ** Decoding errors are errors *)

Definition err_ok {A} (m : Res A) : Prop := m <> Err OK.

Lemma err_ok_bind {A B} (m : Res A) (f : A -> Res B) :
  err_ok m -> (forall x, err_ok (f x)) -> err_ok (bindR m f).
Proof. unfold err_ok. destruct m as [x|e]; simpl; [intros _ H; apply H|intros H _ [= ->]; done]. Qed.
Lemma err_ok_or_else {A} (m : option A) e : e <> OK -> err_ok (or_else m e).
Proof. intros He. destruct m; [done|]. by intros [= ->]. Qed.
Lemma err_ok_Ret {A} (x : A) : err_ok (Ret x).
Proof. done. Qed.
Lemma err_ok_Err {A} e : e <> OK -> err_ok (@Err A e).
Proof. by intros He [= ->]. Qed.

Create HintDb errs.
#[export] Hint Resolve err_ok_Ret : errs.
#[export] Hint Extern 1 (err_ok (or_else _ _)) => apply err_ok_or_else; discriminate : errs.
#[export] Hint Extern 1 (err_ok (Err _)) => apply err_ok_Err; discriminate : errs.
#[export] Hint Extern 2 (err_ok (bindR _ _)) => apply err_ok_bind; [|intros [? ?]] : errs.
#[export] Hint Extern 3 (err_ok (if ?b then _ else _)) => destruct b : errs.

Lemma decode_segments_err n bs : err_ok (decode_segments n bs).
Proof.
  revert bs. induction n as [|n IH]; intros bs; simpl; [done|].
  apply err_ok_bind; [unfold decode_segment; auto 12 with errs|]. intros [s r].
  apply err_ok_bind; [apply IH|]. by intros [ss r2].
Qed.
#[export] Hint Resolve decode_segments_err : errs.

Lemma decode_entry_err bs : err_ok (decode_entry bs).
Proof. unfold decode_entry. auto 20 with errs. Qed.

Lemma decode_header_err zones bs : err_ok (decode_header zones bs).
Proof. unfold decode_header. cbv zeta. auto 30 with errs. Qed.
