(* ===== verification/Rmw.v ===== *)
(** Track-level read-modify-write ([db/kvimr.cc]: [ApplyPendingUpdatesLocked],
    [FlushMergedBuffersLocked], [RestorePayloadLocked]).

    A file's bytes are laid over its track segments in order.  TOP tracks are
    updated by reading, patching and rewriting the whole track (KVIMR-N), or
    through an in-memory track buffer flushed once (KVIMR-M); BOTTOM tracks are
    written directly in whole sectors. *)

From S2P Require Import Prelude StdMap TrackAllocator BlockDevice KvimrState Snapshot.
Import TrackAllocator.

(** ** Counter updates *)

Definition count_naive (capacity : Z) (c : RMWCounters) : RMWCounters :=
  MkCounters (naive_rmw_count c [+] 1) (naive_rmw_read_bytes c [+] capacity)
    (naive_rmw_write_bytes c [+] capacity) (direct_write_bytes c) (merged_rmw_count c)
    (merged_rmw_read_bytes c) (merged_rmw_write_bytes c) (merged_logical_update_count c)
    (merged_updates_saved c) (merged_buffer_create_count c) (merged_buffer_hit_count c)
    (merged_buffer_flush_count c).
Definition count_direct (n : Z) (c : RMWCounters) : RMWCounters :=
  MkCounters (naive_rmw_count c) (naive_rmw_read_bytes c) (naive_rmw_write_bytes c)
    (direct_write_bytes c [+] n) (merged_rmw_count c) (merged_rmw_read_bytes c)
    (merged_rmw_write_bytes c) (merged_logical_update_count c) (merged_updates_saved c)
    (merged_buffer_create_count c) (merged_buffer_hit_count c) (merged_buffer_flush_count c).
Definition count_logical (c : RMWCounters) : RMWCounters :=
  MkCounters (naive_rmw_count c) (naive_rmw_read_bytes c) (naive_rmw_write_bytes c)
    (direct_write_bytes c) (merged_rmw_count c) (merged_rmw_read_bytes c)
    (merged_rmw_write_bytes c) (merged_logical_update_count c [+] 1) (merged_updates_saved c)
    (merged_buffer_create_count c) (merged_buffer_hit_count c) (merged_buffer_flush_count c).
Definition count_create (capacity : Z) (c : RMWCounters) : RMWCounters :=
  MkCounters (naive_rmw_count c) (naive_rmw_read_bytes c) (naive_rmw_write_bytes c)
    (direct_write_bytes c) (merged_rmw_count c) (merged_rmw_read_bytes c [+] capacity)
    (merged_rmw_write_bytes c) (merged_logical_update_count c) (merged_updates_saved c)
    (merged_buffer_create_count c [+] 1) (merged_buffer_hit_count c) (merged_buffer_flush_count c).
Definition count_hit (c : RMWCounters) : RMWCounters :=
  MkCounters (naive_rmw_count c) (naive_rmw_read_bytes c) (naive_rmw_write_bytes c)
    (direct_write_bytes c) (merged_rmw_count c) (merged_rmw_read_bytes c)
    (merged_rmw_write_bytes c) (merged_logical_update_count c) (merged_updates_saved c [+] 1)
    (merged_buffer_create_count c) (merged_buffer_hit_count c [+] 1) (merged_buffer_flush_count c).
Definition count_flush (n : Z) (c : RMWCounters) : RMWCounters :=
  MkCounters (naive_rmw_count c) (naive_rmw_read_bytes c) (naive_rmw_write_bytes c)
    (direct_write_bytes c) (merged_rmw_count c [+] 1) (merged_rmw_read_bytes c)
    (merged_rmw_write_bytes c [+] n) (merged_logical_update_count c) (merged_updates_saved c)
    (merged_buffer_create_count c) (merged_buffer_hit_count c) (merged_buffer_flush_count c [+] 1).

Definition segment_capacity (s : KVIMRTrackSegment) : Z := sector_length s [*] kSectorSize.
Definition segment_address (s : KVIMRTrackSegment) : Z := logical_sector_start s [*] kSectorSize.

Section Rmw.
Context {D : Type} `{BD : BlockDevice D}.

(** What the loops mutate: the device, the counters and the file's buffers. *)
Record Ctx := MkCtx {
  cx_dev : D;
  cx_counters : RMWCounters;
  cx_buffers : stdmap Z MergedTrackBuffer;
}.

(** TOP track, KVIMR-N: read the track, patch it, write it back. *)
Definition rmw_naive (segment : KVIMRTrackSegment) (local : Z) (patch : bytes) (cx : Ctx)
  : option (Ctx * Status) :=
  let capacity := segment_capacity segment in
  let byte_offset := segment_address segment in
  match dev_read (cx_dev cx) byte_offset (replicate (Z.to_nat capacity) 0) with
  | None => None
  | Some (dev, st, track) =>
      if negb (ok st) then Some (MkCtx dev (cx_counters cx) (cx_buffers cx), st)
      else
        match dev_write dev byte_offset (splice track local patch) with
        | None => None
        | Some (dev, st) =>
            if negb (ok st) then Some (MkCtx dev (cx_counters cx) (cx_buffers cx), st)
            else Some (MkCtx dev (count_naive capacity (cx_counters cx)) (cx_buffers cx), OK)
        end
  end.

(** TOP track, KVIMR-M: patch the track's buffer, loading it on first use. *)
Definition rmw_merged (index : Z) (segment : KVIMRTrackSegment) (local : Z) (patch : bytes)
    (cx : Ctx) : option (Ctx * Status) :=
  let capacity := segment_capacity segment in
  let counters := count_logical (cx_counters cx) in
  let buffer := m_get empty_buffer index (cx_buffers cx) in
  let patched (b : MergedTrackBuffer) :=
    MkBuffer (buf_segment b) (splice (buf_data b) local patch) (buf_update_count b [+] 1)
      (buf_loaded b) true in
  if negb (buf_loaded buffer) then
    let fresh := take (Z.to_nat capacity)
                   (buf_data buffer ++ replicate (Z.to_nat capacity - length (buf_data buffer)) 0) in
    match dev_read (cx_dev cx) (segment_address segment) fresh with
    | None => None
    | Some (dev, st, loaded) =>
        if negb (ok st) then
          Some (MkCtx dev counters
                  (m_insert index
                     (MkBuffer segment loaded (buf_update_count buffer) false (buf_dirty buffer))
                     (cx_buffers cx)), st)
        else
          let buffer := MkBuffer segment loaded (buf_update_count buffer) true (buf_dirty buffer) in
          Some (MkCtx dev (count_create capacity counters)
                  (m_insert index (patched buffer) (cx_buffers cx)), OK)
    end
  else
    Some (MkCtx (cx_dev cx) (count_hit counters)
            (m_insert index (patched buffer) (cx_buffers cx)), OK).

(** BOTTOM track: write the touched sectors, taken from the file's bytes. *)
Definition write_direct (file : bytes) (segment : KVIMRTrackSegment)
    (segment_start overlap_start overlap_end : Z) (cx : Ctx) : option (Ctx * Status) :=
  let aligned_start := overlap_start / kSectorSize * kSectorSize in
  let aligned_end := (overlap_end [+] kSectorSize [-] 1) / kSectorSize * kSectorSize in
  let write_size := aligned_end [-] aligned_start in
  let direct :=
    if aligned_start <? lenZ file then
      let copy_size := Z.min write_size (lenZ file - aligned_start) in
      splice (replicate (Z.to_nat write_size) 0) 0 (slice file aligned_start copy_size)
    else replicate (Z.to_nat write_size) 0 in
  match dev_write (cx_dev cx) (segment_address segment [+] aligned_start [-] segment_start) direct with
  | None => None
  | Some (dev, st) =>
      if negb (ok st) then Some (MkCtx dev (cx_counters cx) (cx_buffers cx), st)
      else Some (MkCtx dev (count_direct write_size (cx_counters cx)) (cx_buffers cx), OK)
  end.

(** The part of one update that falls into one segment. *)
Definition apply_overlap (mode : RMWMode) (file : bytes) (update : PendingUpdate) (index : Z)
    (segment : KVIMRTrackSegment) (segment_start overlap_start overlap_end : Z) (cx : Ctx)
  : option (Ctx * Status) :=
  let local := overlap_start - segment_start in
  let patch := slice (upd_data update) (overlap_start - upd_offset update)
                 (overlap_end - overlap_start) in
  match seg_type segment with
  | TOP => match mode with
           | NAIVE => rmw_naive segment local patch cx
           | MERGED => rmw_merged index segment local patch cx
           end
  | BOTTOM => write_direct file segment segment_start overlap_start overlap_end cx
  end.

(** The inner loop over the file's segments, from [index] on. *)
Fixpoint apply_segments (mode : RMWMode) (file : bytes) (update : PendingUpdate) (index : Z)
    (segment_start : Z) (segments : list KVIMRTrackSegment) (cx : Ctx) : option (Ctx * Status) :=
  match segments with
  | [] => Some (cx, OK)
  | segment :: rest =>
      let update_end := upd_offset update [+] lenZ (upd_data update) in
      let segment_end := segment_start [+] segment_capacity segment in
      let overlap_start := Z.max (upd_offset update) segment_start in
      let overlap_end := Z.min update_end segment_end in
      match (if overlap_start <? overlap_end
             then apply_overlap mode file update index segment segment_start
                    overlap_start overlap_end cx
             else Some (cx, OK)) with
      | None => None
      | Some (cx, st) =>
          if negb (ok st) then Some (cx, st)
          else if segment_end >=? update_end then Some (cx, OK)
          else apply_segments mode file update (index + 1) segment_end rest cx
      end
  end.

(** The outer loop over the pending updates. *)
Fixpoint apply_updates (mode : RMWMode) (file : bytes) (segments : list KVIMRTrackSegment)
    (updates : list PendingUpdate) (cx : Ctx) : option (Ctx * Status) :=
  match updates with
  | [] => Some (cx, OK)
  | update :: rest =>
      match apply_segments mode file update 0 0 segments cx with
      | None => None
      | Some (cx, st) =>
          if negb (ok st) then Some (cx, st) else apply_updates mode file segments rest cx
      end
  end.

(** [FlushMergedBuffersLocked]: buffers in index order, dirty ones written. *)
Fixpoint flush_buffers (buffers : stdmap Z MergedTrackBuffer) (dev : D) (c : RMWCounters)
  : option (D * RMWCounters * Status) :=
  match buffers with
  | [] => Some (dev, c, OK)
  | (_, buffer) :: rest =>
      if negb (buf_dirty buffer) then flush_buffers rest dev c
      else
        match dev_write dev (segment_address (buf_segment buffer)) (buf_data buffer) with
        | None => None
        | Some (dev, st) =>
            if negb (ok st) then Some (dev, c, st)
            else flush_buffers rest dev (count_flush (lenZ (buf_data buffer)) c)
        end
  end.

Fixpoint total_capacity (segments : list KVIMRTrackSegment) : Z :=
  match segments with
  | [] => 0
  | s :: rest => segment_capacity s [+] total_capacity rest
  end.

Definition ApplyPendingUpdatesLocked (mode : RMWMode) (state : SSTableState) (cx : Ctx)
  : option (Ctx * Status) :=
  if lenZ (data state) >? total_capacity (tracks state)
  then Some (cx, IOError "KVIMR payload exceeds allocated tracks")
  else
    match apply_updates mode (data state) (tracks state) (pending_updates state) cx with
    | None => None
    | Some (cx, st) =>
        if negb (ok st) then Some (cx, st)
        else match mode with
        | MERGED =>
            match flush_buffers (cx_buffers cx) (cx_dev cx) (cx_counters cx) with
            | None => None
            | Some (dev, c, st) => Some (MkCtx dev c (cx_buffers cx), st)
            end
        | NAIVE => Some (cx, OK)
        end
    end.

(** The loop of [RestorePayloadLocked]: [restored] holds the bytes read so
    far, [size] is the recorded file size. *)
Fixpoint restore_segments (size : Z) (segments : list KVIMRTrackSegment) (restored : bytes)
    (dev : D) : option (D * Status * bytes) :=
  match segments with
  | [] => Some (dev, OK, restored)
  | segment :: rest =>
      if lenZ restored >=? size then Some (dev, OK, restored)
      else
        let capacity := segment_capacity segment in
        let chunk := Z.min capacity (size - lenZ restored) in
        let read_size := (chunk + kSectorSize - 1) / kSectorSize * kSectorSize in
        match dev_read dev (segment_address segment) (replicate (Z.to_nat read_size) 0) with
        | None => None
        | Some (dev, st, buffer) =>
            if negb (ok st) then Some (dev, st, restored)
            else restore_segments size rest (restored ++ take (Z.to_nat chunk) buffer) dev
        end
  end.

Definition RestorePayloadLocked (state : SSTableState) (dev : D)
  : option (D * Status * SSTableState) :=
  let size := lenZ (data state) in
  match restore_segments size (tracks state) [] dev with
  | None => None
  | Some (dev, st, restored) =>
      if negb (ok st) then Some (dev, st, state)
      else if negb (lenZ restored =? size)
      then Some (dev, IOError "KVIMR payload shorter than metadata", state)
      else Some (dev, OK, set_data restored state)
  end.
End Rmw.

Arguments Ctx : clear implicits.
Arguments MkCtx {D}.
