(* ===== verification/RmwSpec.v ===== *)
(** Correctness of the read-modify-write engine against the device interface.

    [located x i s b] says that file offset [x] lies in segment [s], the [i]-th
    of the file, which starts at file offset [b].  [persisted x] says that byte
    [x] is on the device, durable, and not contradicted by a track buffer;
    [visible x] that a completed run has delivered it (to the device, or to a
    dirty buffer that will be flushed).  Every step preserves [persisted] even
    when it fails, and delivers the bytes it covers when it succeeds. *)

From S2P Require Import Prelude StdMap TrackAllocator BlockDevice KvimrState Snapshot Rmw.
Import TrackAllocator.

(** ** Segment lists *)

(** Distinct tracks of a device, in the number one file can use. *)
Definition good_segments (segs : list KVIMRTrackSegment) : Prop :=
  lenZ segs < 2 ^ 40 /\
  exists trs, segs = map segment_of trs /\ NoDup trs /\ Forall (fun tr => 0 <= tr.2 < 2 ^ 38) trs.

Definition cap (s : KVIMRTrackSegment) : Z := 512 * track_sectors (seg_type s).

Fixpoint capsum (segs : list KVIMRTrackSegment) : Z :=
  match segs with [] => 0 | s :: r => cap s + capsum r end.

Definition seg_at (segs : list KVIMRTrackSegment) (i : Z) (s : KVIMRTrackSegment) (b : Z) : Prop :=
  nthZ segs i = Some s /\ b = capsum (take (Z.to_nat i) segs).

Definition located (segs : list KVIMRTrackSegment) (x i : Z) (s : KVIMRTrackSegment) (b : Z) : Prop :=
  seg_at segs i s b /\ b <= x < b + cap s.

Lemma cap_pos s : 0 < cap s <= 2326528.
Proof. unfold cap. pose proof (track_sectors_pos (seg_type s)). lia. Qed.
Lemma cap_mod s : cap s mod 512 = 0.
Proof. unfold cap. rewrite Z.mul_comm. by apply Z.mod_mul. Qed.

Lemma capsum_nonneg segs : 0 <= capsum segs.
Proof. induction segs as [|s segs IH]; simpl; [lia|]. pose proof (cap_pos s). lia. Qed.
Lemma capsum_app l k : capsum (l ++ k) = capsum l + capsum k.
Proof. induction l; simpl; lia. Qed.
Lemma capsum_bound segs : capsum segs <= lenZ segs * 2326528.
Proof.
  induction segs as [|s segs IH]; simpl; [done|]. rewrite lenZ_cons. pose proof (cap_pos s). lia.
Qed.
Lemma capsum_mod segs : capsum segs mod 512 = 0.
Proof.
  induction segs as [|s segs IH]; simpl; [done|].
  rewrite Z.add_mod, cap_mod, IH by lia. done.
Qed.

Section Good.
Variable segs : list KVIMRTrackSegment.
Hypothesis Hgood : good_segments segs.

Lemma good_elem s : s ∈ segs -> exists tr, s = segment_of tr /\ 0 <= tr.2 < 2 ^ 38.
Proof.
  destruct Hgood as (_ & trs & -> & _ & Hf). intros (tr & -> & Hin)%list_elem_of_fmap.
  exists tr. split; [done|]. rewrite Forall_forall in Hf. by apply Hf.
Qed.

Lemma good_capacity s : s ∈ segs -> segment_capacity s = cap s.
Proof.
  intros (tr & -> & _)%good_elem. unfold segment_capacity, cap, kSectorSize.
  rewrite segment_of_length, segment_of_type. rewrite u64_small; [lia|].
  pose proof (track_sectors_pos tr.1). lia.
Qed.

Lemma good_address s :
  s ∈ segs -> segment_address s = 512 * logical_sector_start s /\ 0 <= segment_address s < 2 ^ 61.
Proof.
  intros (tr & -> & Hr)%good_elem. unfold segment_address, kSectorSize.
  rewrite segment_of_start by done.
  assert (0 <= tier_offset tr.1 <= 3648) by (destruct tr.1; vm_compute; done).
  rewrite u64_small; lia.
Qed.

Lemma good_address_mod s : s ∈ segs -> segment_address s mod 512 = 0.
Proof. intros [-> _]%good_address. rewrite Z.mul_comm. by apply Z.mod_mul. Qed.

(** Distinct positions occupy disjoint byte ranges of the device. *)
Lemma good_disjoint i j s s' a :
  nthZ segs i = Some s -> nthZ segs j = Some s' ->
  segment_address s <= a < segment_address s + cap s ->
  segment_address s' <= a < segment_address s' + cap s' -> i = j.
Proof.
  intros Hi Hj Ha Ha'.
  destruct (good_address s) as [Ea _]; [by eapply nthZ_In|].
  destruct (good_address s') as [Ea' _]; [by eapply nthZ_In|].
  destruct Hgood as (_ & trs & -> & Hnd & Hf). rewrite Forall_forall in Hf.
  unfold nthZ in Hi, Hj. destruct (0 <=? i) eqn:Ei; [|done]. destruct (0 <=? j) eqn:Ej; [|done].
  rewrite list_lookup_fmap in Hi, Hj.
  destruct (trs !! Z.to_nat i) as [t1|] eqn:E1; [|done]. destruct (trs !! Z.to_nat j) as [t2|] eqn:E2; [|done].
  injection Hi as <-. injection Hj as <-. unfold cap in *.
  rewrite segment_of_type in Ha, Ha'.
  assert (t1 = t2) as ->.
  { apply (segments_disjoint_at t1 t2 (a / 512)); [by eapply Hf, list_elem_of_lookup_2..| |];
      unfold in_segment; rewrite segment_of_length; split;
      (apply Z.div_le_lower_bound || apply Z.div_lt_upper_bound); lia. }
  pose proof (NoDup_lookup _ _ _ _ Hnd E1 E2). lia.
Qed.

Lemma good_capsum : 0 <= capsum segs < 2 ^ 62.
Proof.
  destruct Hgood as [Hl _]. pose proof (capsum_bound segs). pose proof (capsum_nonneg segs). lia.
Qed.

Lemma seg_at_bound i s b : seg_at segs i s b -> 0 <= i /\ 0 <= b /\ b + cap s <= capsum segs.
Proof.
  intros [Hi ->]. pose proof (nthZ_Some _ _ _ Hi) as Hr. split; [lia|]. split; [apply capsum_nonneg|].
  unfold nthZ in Hi. destruct (0 <=? i) eqn:E; [|done].
  rewrite <- (take_drop (Z.to_nat i) segs) at 2. rewrite capsum_app.
  rewrite (drop_S _ _ _ Hi). simpl. pose proof (capsum_nonneg (drop (S (Z.to_nat i)) segs)). lia.
Qed.

Lemma seg_at_elem i s b : seg_at segs i s b -> s ∈ segs.
Proof. intros [Hi _]. by eapply nthZ_In. Qed.

Lemma seg_at_order i j s s' b b' :
  seg_at segs i s b -> seg_at segs j s' b' -> i < j -> b + cap s <= b'.
Proof.
  intros [Hi ->] [Hj ->] Hlt. pose proof (nthZ_Some _ _ _ Hi). pose proof (nthZ_Some _ _ _ Hj).
  unfold nthZ in Hi. destruct (0 <=? i) eqn:E; [|done].
  replace (Z.to_nat j) with (Z.to_nat i + (1 + (Z.to_nat j - Z.to_nat i - 1)))%nat by lia.
  rewrite <- take_take_drop, capsum_app. rewrite (drop_S _ _ _ Hi). simpl.
  pose proof (capsum_nonneg (take (Z.to_nat j - Z.to_nat i - 1) (drop (S (Z.to_nat i)) segs))). lia.
Qed.

Lemma seg_at_det i s s' b b' : seg_at segs i s b -> seg_at segs i s' b' -> s = s' /\ b = b'.
Proof. intros [Hi ->] [Hj ->]. split; [congruence|done]. Qed.

Lemma located_unique x i j s s' b b' :
  located segs x i s b -> located segs x j s' b' -> i = j /\ s = s' /\ b = b'.
Proof.
  intros [H1 R1] [H2 R2].
  destruct (Z.lt_trichotomy i j) as [Hlt|[->|Hgt]].
  - pose proof (seg_at_order _ _ _ _ _ _ H1 H2 Hlt). lia.
  - split; [done|]. by eapply seg_at_det.
  - pose proof (seg_at_order _ _ _ _ _ _ H2 H1 Hgt). lia.
Qed.

Lemma total_capacity_eq l : (forall s, s ∈ l -> s ∈ segs) -> capsum l < 2 ^ 62 -> total_capacity l = capsum l.
Proof.
  induction l as [|s l IH]; simpl; intros Hin Hb; [done|].
  pose proof (capsum_nonneg l). pose proof (cap_pos s).
  rewrite IH, good_capacity; [|apply Hin; left|intros; apply Hin; by right|lia].
  apply u64_small. lia.
Qed.
End Good.

(** Every offset below the total capacity is located. *)
Lemma located_exists segs x : 0 <= x < capsum segs -> exists i s b, located segs x i s b.
Proof.
  revert x. induction segs as [|s segs IH]; intros x Hx; simpl in Hx; [lia|].
  destruct (Z.lt_ge_cases x (cap s)) as [Hlt|Hge].
  - exists 0, s, 0. split; [by split|]. lia.
  - destruct (IH (x - cap s)) as (i & s' & b & [[Hi Hb] Hr]); [lia|].
    pose proof (nthZ_Some _ _ _ Hi).
    exists (i + 1), s', (cap s + b). split; [|lia]. split.
    + unfold nthZ in *. destruct (0 <=? i) eqn:E; [|done].
      rewrite (proj2 (Z.leb_le 0 (i + 1))) by lia. by replace (Z.to_nat (i + 1)) with (S (Z.to_nat i)) by lia.
    + replace (Z.to_nat (i + 1)) with (S (Z.to_nat i)) by lia. simpl. lia.
Qed.

Lemma seg_at_suffix segs pre s rest : segs = pre ++ s :: rest -> seg_at segs (lenZ pre) s (capsum pre).
Proof.
  intros ->. unfold seg_at, nthZ. pose proof (lenZ_nonneg pre).
  rewrite (proj2 (Z.leb_le _ _)) by lia. rewrite to_nat_lenZ. split.
  - by apply list_lookup_middle.
  - by rewrite take_app_length.
Qed.

(** ** Invariants of a run *)

Section Run.
Context {D : Type} `{BDL : BlockDeviceLaws D}.
Variable segs : list KVIMRTrackSegment.
Variable file : bytes.
Variable mode : RMWMode.
Hypothesis Hgood : good_segments segs.
Implicit Types cx : Ctx D.

(** Device address of file offset [x] in segment [s] based at [b]. *)
Definition addr (s : KVIMRTrackSegment) (b x : Z) : Z := segment_address s + (x - b).

(** Loaded buffers mirror a TOP segment of the file; dirty ones are loaded. *)
Record bufs_wf (bufs : stdmap Z MergedTrackBuffer) : Prop := {
  bw_sorted : sorted bufs;
  bw_dirty : forall i b, m_find i bufs = Some b -> buf_dirty b = true -> buf_loaded b = true;
  bw_loaded : forall i b, m_find i bufs = Some b -> buf_loaded b = true ->
    exists base, seg_at segs i (buf_segment b) base /\ seg_type (buf_segment b) = TOP /\
      lenZ (buf_data b) = cap (buf_segment b);
}.

Definition buffered (bufs : stdmap Z MergedTrackBuffer) (i l : Z) (v : Z) : Prop :=
  forall b, m_find i bufs = Some b -> buf_loaded b = true -> nthZ (buf_data b) l = Some v.

Definition persisted cx (x : Z) : Prop :=
  forall i s b v, located segs x i s b -> nthZ file x = Some v ->
    contents (cx_dev cx) (addr s b x) = v /\ durable (cx_dev cx) (addr s b x) = v /\
    buffered (cx_buffers cx) i (x - b) v.

(** TOP bytes of a merged run live in a dirty buffer until the flush. *)
Definition in_buffer (s : KVIMRTrackSegment) : bool :=
  bool_decide (mode = MERGED) && bool_decide (seg_type s = TOP).

Definition visible cx (x : Z) : Prop :=
  forall i s b v, located segs x i s b -> nthZ file x = Some v ->
    if in_buffer s
    then exists buf, m_find i (cx_buffers cx) = Some buf /\ buf_loaded buf = true /\
           buf_dirty buf = true /\ nthZ (buf_data buf) (x - b) = Some v
    else contents (cx_dev cx) (addr s b x) = v.

Definition outside_segs (a : Z) : Prop :=
  forall i s b, seg_at segs i s b -> outside (segment_address s) (cap s) a.

Record evolves (st : Status) cx cx' : Prop := {
  ev_frame : forall a, outside_segs a ->
    contents (cx_dev cx') a = contents (cx_dev cx) a /\
    durable (cx_dev cx') a = durable (cx_dev cx) a;
  ev_bufs : bufs_wf (cx_buffers cx');
  ev_persisted : forall x, persisted cx x -> persisted cx' x;
  ev_visible : st = OK -> forall x, visible cx x -> visible cx' x;
}.

Lemma evolves_refl st cx : bufs_wf (cx_buffers cx) -> evolves st cx cx.
Proof. by split. Qed.

Lemma evolves_trans st cx1 cx2 cx3 :
  evolves OK cx1 cx2 -> evolves st cx2 cx3 -> evolves st cx1 cx3.
Proof.
  intros [F1 B1 P1 V1] [F2 B2 P2 V2]. split; auto.
  intros a Ha. destruct (F1 a Ha), (F2 a Ha). split; congruence.
Qed.

(** An address of one segment is outside every other one. *)
Lemma addr_other i j s s' b b' x :
  seg_at segs i s b -> seg_at segs j s' b' -> i <> j -> b' <= x < b' + cap s' ->
  outside (segment_address s) (cap s) (addr s' b' x).
Proof.
  intros [Hi _] [Hj _] Hne Hx. unfold outside, addr.
  destruct (Z.lt_ge_cases (segment_address s' + (x - b')) (segment_address s)); [by left|].
  destruct (Z.le_gt_cases (segment_address s + cap s) (segment_address s' + (x - b'))); [by right|].
  exfalso. apply Hne. by apply (good_disjoint segs Hgood i j s s' (segment_address s' + (x - b'))); try lia.
Qed.

(** ** A device write inside one segment

    [lo] is the position of the write in the segment.  Bytes that were already
    right, or that the write covers, must be right in the written buffer. *)
Section WriteSegment.
Variables (cx : Ctx D) (i : Z) (s : KVIMRTrackSegment) (b lo : Z) (bs : bytes).
Variables (dev' : D) (st : Status) (covered : Z -> Prop) (c' : RMWCounters).
Hypothesis Hat : seg_at segs i s b.
Hypothesis Hlo : 0 <= lo /\ lo + lenZ bs <= cap s.
Hypothesis Hwf : bufs_wf (cx_buffers cx).
Hypothesis Hdirect : in_buffer s = false.
Hypothesis Hwrite : dev_write (cx_dev cx) (segment_address s + lo) bs = Some (dev', st).
Hypothesis Hbs : forall x v, b + lo <= x < b + lo + lenZ bs -> nthZ file x = Some v ->
  (contents (cx_dev cx) (addr s b x) = v \/ covered x) -> nthZ bs (x - b - lo) = Some v.

Let off := segment_address s + lo.

Lemma ws_outside disk a : outside (segment_address s) (cap s) a -> disk_write disk off bs a = disk a.
Proof. intros Ha. apply disk_write_outside. unfold outside, off in *. lia. Qed.

(** Bytes of segment [s] that were right stay right. *)
Lemma ws_inside disk x v :
  b <= x < b + cap s -> nthZ file x = Some v ->
  (contents (cx_dev cx) (addr s b x) = v \/ covered x) ->
  disk (addr s b x) = v \/ (covered x /\ b + lo <= x < b + lo + lenZ bs) ->
  disk_write disk off bs (addr s b x) = v.
Proof.
  intros Hx Hv Hc Hd. destruct (decide (b + lo <= x < b + lo + lenZ bs)) as [Hin|Hout].
  - apply disk_write_inside. unfold off, addr.
    replace (segment_address s + (x - b) - (segment_address s + lo)) with (x - b - lo) by lia. auto.
  - rewrite disk_write_outside; [tauto|]. unfold outside, off, addr. lia.
Qed.

Lemma write_segment_evolves :
  evolves st cx (MkCtx dev' c' (cx_buffers cx)) /\
  (st = OK -> forall x, b + lo <= x < b + lo + lenZ bs -> covered x ->
     visible (MkCtx dev' c' (cx_buffers cx)) x).
Proof.
  destruct (write_law (cx_dev cx) off bs) as (d & st' & E & Hc & Hd & Hok).
  unfold off in E. rewrite E in Hwrite. injection Hwrite as -> ->.
  assert (forall a, outside (segment_address s) (cap s) a ->
    contents dev' a = contents (cx_dev cx) a /\ durable dev' a = durable (cx_dev cx) a) as Hframe.
  { intros a Ha. split.
    - destruct (Hc a) as [->| ->]; [done|by apply ws_outside].
    - destruct (Hd a) as [->| ->]; [done|by apply ws_outside]. }
  split; [split; simpl|].
  - intros a Ha. apply Hframe. by eapply Ha.
  - done.
  - intros x Hp j s' b' v Hloc Hv. destruct (Hp j s' b' v Hloc Hv) as (Hcv & Hdv & Hbv).
    destruct Hloc as [Hat' Hx].
    destruct (decide (i = j)) as [<-|Hne].
    + destruct (seg_at_det _ _ _ _ _ _ Hat Hat') as [<- <-]. simpl. split_and!; [| |done].
      * destruct (Hc (addr s b x)) as [->| ->]; [done|]. apply ws_inside; auto.
      * destruct (Hd (addr s b x)) as [->| ->]; [done|]. apply ws_inside; auto.
    + simpl. destruct (Hframe (addr s' b' x)) as [-> ->]; [by eapply addr_other|]. done.
  - intros -> x Hvis j s' b' v Hloc Hv. specialize (Hvis j s' b' v Hloc Hv). simpl.
    destruct (in_buffer s') eqn:Eb; [done|]. destruct Hloc as [Hat' Hx]. rewrite (Hok eq_refl).
    destruct (decide (i = j)) as [<-|Hne].
    + destruct (seg_at_det _ _ _ _ _ _ Hat Hat') as [<- <-]. apply ws_inside; auto.
    + rewrite ws_outside; [done|]. by eapply addr_other.
  - intros -> x Hx Hcov j s' b' v Hloc Hv. simpl.
    assert (located segs x i s b) as Hloc' by (split; [done|lia]).
    destruct (located_unique _ _ _ _ _ _ _ _ Hloc Hloc') as (-> & -> & ->).
    rewrite Hdirect, (Hok eq_refl). apply ws_inside; auto. lia.
Qed.
End WriteSegment.

(** Reading the device changes nothing that matters. *)
Lemma evolves_same st cx dev' c' :
  bufs_wf (cx_buffers cx) ->
  (forall a, contents dev' a = contents (cx_dev cx) a) ->
  (forall a, durable dev' a = durable (cx_dev cx) a) ->
  evolves st cx (MkCtx dev' c' (cx_buffers cx)).
Proof.
  intros Hwf Hc Hd. split; simpl; try done.
  - intros x Hp i s b v Hl Hv. simpl. rewrite Hc, Hd. by apply Hp.
  - intros _ x Hp i s b v Hl Hv. simpl. rewrite Hc. by apply Hp.
Qed.

(** An update is a slice of the file. *)
Definition update_ok (u : PendingUpdate) : Prop :=
  0 <= upd_offset u /\ upd_offset u + lenZ (upd_data u) <= lenZ file /\
  forall k, 0 <= k < lenZ (upd_data u) -> nthZ (upd_data u) k = nthZ file (upd_offset u + k).

(** ** One update in one segment *)
Section Overlap.
Variables (u : PendingUpdate) (i : Z) (s : KVIMRTrackSegment) (b os oe : Z) (cx : Ctx D).
Hypothesis Hu : update_ok u.
Hypothesis Hat : seg_at segs i s b.
Hypothesis Hov : b <= os /\ os < oe /\ oe <= b + cap s.
Hypothesis Hin : upd_offset u <= os /\ oe <= upd_offset u + lenZ (upd_data u).
Hypothesis Hwf : bufs_wf (cx_buffers cx).
Hypothesis Hfile : lenZ file < 2 ^ 62.

Let patch := slice (upd_data u) (os - upd_offset u) (oe - os).

Lemma patch_len : lenZ patch = oe - os.
Proof. unfold patch. apply lenZ_slice; lia. Qed.

Lemma patch_nth x : os <= x < oe -> nthZ patch (x - os) = nthZ file x.
Proof.
  intros Hx. unfold patch. rewrite nthZ_slice by lia. replace (_ <? _) with true by lia.
  destruct Hu as (_ & _ & H). rewrite H by lia. f_equal. lia.
Qed.

Lemma seg_elem : s ∈ segs.
Proof. by eapply seg_at_elem. Qed.

(** A patched track holds the covered bytes and whatever it held before. *)
Lemma patched_nth (track : bytes) x v :
  lenZ track = cap s -> b <= x < b + cap s -> nthZ file x = Some v ->
  nthZ track (x - b) = Some v \/ os <= x < oe ->
  nthZ (splice track (os - b) patch) (x - b) = Some v.
Proof.
  intros Hl Hx Hv Hc. pose proof patch_len. rewrite nthZ_splice by lia.
  destruct (_ && _) eqn:E.
  - replace (x - b - (os - b)) with (x - os) by lia. rewrite patch_nth by lia. done.
  - destruct Hc as [?|?]; [done|lia].
Qed.

Lemma rmw_naive_spec :
  mode = NAIVE ->
  exists cx' st, rmw_naive s (os - b) patch cx = Some (cx', st) /\ evolves st cx cx' /\
    (st = OK -> forall x, os <= x < oe -> visible cx' x).
Proof.
  intros Hmode. unfold rmw_naive. rewrite (good_capacity _ Hgood _ seg_elem).
  pose proof (cap_pos s) as Hcap. pose proof patch_len as Hpl.
  destruct (read_law (cx_dev cx) (segment_address s) (replicate (Z.to_nat (cap s)) 0))
    as (d1 & st1 & track & -> & Hc1 & Hd1 & Hl & Hok). rewrite length_replicate in Hl, Hok.
  destruct (ok st1) eqn:E1; simpl.
  2: { eexists _, _. split; [done|]. split; [by apply evolves_same|]. by destruct st1. }
  apply ok_OK in E1. subst st1. specialize (Hok eq_refl).
  assert (lenZ track = cap s) as Htl by (unfold lenZ; lia).
  set (bs := splice track (os - b) patch).
  assert (lenZ bs = cap s) as Hbl by (unfold bs; rewrite lenZ_splice; lia).
  destruct (write_law d1 (segment_address s) bs) as (d2 & st2 & E2 & _). rewrite E2.
  set (cx1 := MkCtx d1 (cx_counters cx) (cx_buffers cx)).
  assert (evolves OK cx cx1) as HE1 by (by apply evolves_same).
  assert (forall c', evolves st2 cx1 (MkCtx d2 c' (cx_buffers cx1)) /\
    (st2 = OK -> forall x, b + 0 <= x < b + 0 + lenZ bs -> os <= x < oe ->
       visible (MkCtx d2 c' (cx_buffers cx1)) x)) as HW.
  { intros c'. apply (write_segment_evolves cx1 i s b 0 bs d2 st2 (fun x => os <= x < oe) c').
    - done.
    - lia.
    - done.
    - unfold in_buffer. by rewrite Hmode.
    - simpl. by rewrite Z.add_0_r.
    - intros x v Hx Hv Hcov. rewrite Z.sub_0_r. apply patched_nth; try done; [lia|].
      destruct Hcov as [Hcv|?]; [left|by right]. rewrite Hok, nthZ_disk_read by lia.
      rewrite <- Hcv. simpl. rewrite Hc1. unfold addr. do 2 f_equal. }
  destruct (ok st2) eqn:Es2; simpl.
  - apply ok_OK in Es2. subst. eexists _, _. split; [done|]. destruct (HW (count_naive (cap s) (cx_counters cx))) as [HE2 HV2].
    split; [by eapply evolves_trans|]. intros _ x Hx. apply HV2; [done|lia|done].
  - eexists _, _. split; [done|]. destruct (HW (cx_counters cx)) as [HE2 HV2].
    split; [by eapply evolves_trans|]. by destruct st2.
Qed.

Lemma aligned_bounds :
  let as_ := os / 512 * 512 in let ae := (oe + 511) / 512 * 512 in
  b <= as_ <= os /\ oe <= ae <= b + cap s /\ as_ mod 512 = 0.
Proof.
  pose proof (capsum_mod (take (Z.to_nat i) segs)) as Hb. destruct Hat as [_ Hbe]. rewrite <- Hbe in Hb.
  pose proof (cap_mod s) as Hc.
  pose proof (Z.div_mod b 512 ltac:(lia)). pose proof (Z.div_mod (cap s) 512 ltac:(lia)).
  pose proof (Z.div_mod os 512 ltac:(lia)). pose proof (Z.mod_pos_bound os 512 ltac:(lia)).
  pose proof (Z.div_mod (oe + 511) 512 ltac:(lia)). pose proof (Z.mod_pos_bound (oe + 511) 512 ltac:(lia)).
  simpl. split; [lia|]. split; [lia|]. by apply Z.mod_mul.
Qed.

Lemma write_direct_spec :
  seg_type s = BOTTOM ->
  exists cx' st, write_direct file s b os oe cx = Some (cx', st) /\ evolves st cx cx' /\
    (st = OK -> forall x, os <= x < oe -> visible cx' x).
Proof.
  intros Hty. unfold write_direct. change kSectorSize with 512.
  pose proof (good_address _ Hgood _ seg_elem) as [_ Haddr]. pose proof (cap_pos s) as Hcap.
  pose proof (seg_at_bound _ _ _ _ Hat) as (_ & Hb0 & Hb). pose proof (good_capsum _ Hgood) as Hcs.
  pose proof aligned_bounds as Hal. simpl in Hal.
  rewrite (u64_small (oe + 512)) by lia. rewrite (u64_small (oe + 512 - 1)) by lia.
  replace (oe + 512 - 1) with (oe + 511) by lia.
  set (as_ := os / 512 * 512) in *. set (ae := (oe + 511) / 512 * 512) in *.
  rewrite (u64_small (ae - as_)) by lia. rewrite (u64_small (segment_address s + as_)) by lia.
  rewrite (u64_small (segment_address s + as_ - b)) by lia.
  set (direct := if as_ <? lenZ file then _ else _).
  assert (lenZ direct = ae - as_ /\ forall x v, as_ <= x < ae -> nthZ file x = Some v ->
            nthZ direct (x - as_) = Some v) as [Hdl Hdn].
  { assert (lenZ (replicate (Z.to_nat (ae - as_)) 0) = ae - as_) as Hrep
      by (unfold lenZ; rewrite length_replicate; lia).
    unfold direct. destruct (as_ <? lenZ file) eqn:Ea.
    - set (n := Z.min (ae - as_) (lenZ file - as_)).
      assert (lenZ (slice file as_ n) = n) as Hsl by (apply lenZ_slice; lia).
      split; [rewrite lenZ_splice; lia|]. intros x v Hx Hv. pose proof (nthZ_Some _ _ _ Hv).
      rewrite nthZ_splice by lia. replace (_ && _) with true by lia.
      rewrite nthZ_slice by lia. replace (_ <? _) with true by lia. rewrite <- Hv. f_equal. lia.
    - split; [done|]. intros x v Hx Hv. pose proof (nthZ_Some _ _ _ Hv). lia. }
  clearbody direct.
  replace (segment_address s + as_ - b) with (segment_address s + (as_ - b)) by lia.
  destruct (write_law (cx_dev cx) (segment_address s + (as_ - b)) direct) as (d & st & E & _). rewrite E.
  assert (forall c', evolves st cx (MkCtx d c' (cx_buffers cx)) /\
    (st = OK -> forall x, b + (as_ - b) <= x < b + (as_ - b) + lenZ direct -> True ->
       visible (MkCtx d c' (cx_buffers cx)) x)) as HW.
  { intros c'. apply (write_segment_evolves cx i s b (as_ - b) direct d st (fun _ => True) c').
    - done.
    - lia.
    - done.
    - unfold in_buffer. rewrite Hty. by rewrite andb_false_r.
    - done.
    - intros x v Hx Hv _. replace (x - b - (as_ - b)) with (x - as_) by lia. apply Hdn; [lia|done]. }
  destruct (ok st) eqn:Es; simpl.
  - apply ok_OK in Es. subst. eexists _, _. split; [done|].
    destruct (HW (count_direct (ae - as_) (cx_counters cx))) as [HE HV].
    split; [done|]. intros _ x Hx. apply HV; [done|lia|done].
  - eexists _, _. split; [done|]. destruct (HW (cx_counters cx)) as [HE HV].
    split; [done|]. by destruct st.
Qed.

(** Installing a loaded, patched buffer for segment [s]. *)
Lemma insert_buffer_evolves (dev' : D) c' nb :
  mode = MERGED -> seg_type s = TOP ->
  (forall a, contents dev' a = contents (cx_dev cx) a) ->
  (forall a, durable dev' a = durable (cx_dev cx) a) ->
  buf_segment nb = s -> lenZ (buf_data nb) = cap s -> buf_loaded nb = true -> buf_dirty nb = true ->
  (forall x v, b <= x < b + cap s -> nthZ file x = Some v ->
     (contents (cx_dev cx) (addr s b x) = v /\ buffered (cx_buffers cx) i (x - b) v) \/
     (exists buf, m_find i (cx_buffers cx) = Some buf /\ buf_loaded buf = true /\
        nthZ (buf_data buf) (x - b) = Some v) \/ os <= x < oe ->
     nthZ (buf_data nb) (x - b) = Some v) ->
  evolves OK cx (MkCtx dev' c' (m_insert i nb (cx_buffers cx))) /\
  (forall x, os <= x < oe -> visible (MkCtx dev' c' (m_insert i nb (cx_buffers cx))) x).
Proof.
  intros Hmode Hty Hc Hd Hs Hl Hld Hdt Hdata.
  assert (in_buffer s = true) as Hib by (unfold in_buffer; by rewrite Hmode, Hty).
  split; [split; simpl|].
  - done.
  - destruct Hwf as [W1 W2 W3]. split.
    + by apply insert_sorted.
    + intros j bb. rewrite find_insert. case_decide; [intros [= <-]; done|apply W2].
    + intros j bb. rewrite find_insert. case_decide; [intros [= <-] _; subst j|apply W3].
      rewrite Hs. exists b. done.
  - intros x Hp j s' b' v Hloc Hv. destruct (Hp j s' b' v Hloc Hv) as (H1 & H2 & H3).
    simpl. rewrite Hc, Hd. split; [done|]. split; [done|]. intros bb. rewrite find_insert.
    case_decide as Hij; [|apply H3]. intros [= <-] _. subst j. destruct Hloc as [Hat' Hx].
    destruct (seg_at_det _ _ _ _ _ _ Hat Hat') as [<- <-]. apply Hdata; auto.
  - intros _ x Hvis j s' b' v Hloc Hv. specialize (Hvis j s' b' v Hloc Hv). simpl.
    rewrite Hc. destruct (in_buffer s') eqn:Eb; [|done]. destruct Hvis as (buf & H1 & H2 & H3 & H4).
    rewrite find_insert. case_decide as Hij; [|by exists buf]. subst j.
    destruct Hloc as [Hat' Hx]. destruct (seg_at_det _ _ _ _ _ _ Hat Hat') as [<- <-].
    exists nb. split_and!; try done. apply Hdata; eauto 8.
  - intros x Hx j s' b' v Hloc Hv. simpl.
    assert (located segs x i s b) as Hloc' by (split; [done|lia]).
    destruct (located_unique _ _ _ _ _ _ _ _ Hloc Hloc') as (-> & -> & ->).
    rewrite Hib. exists nb. rewrite find_insert_eq. split_and!; try done. apply Hdata; [lia|done|auto].
Qed.

Lemma rmw_merged_spec :
  mode = MERGED -> seg_type s = TOP ->
  exists cx' st, rmw_merged i s (os - b) patch cx = Some (cx', st) /\ evolves st cx cx' /\
    (st = OK -> forall x, os <= x < oe -> visible cx' x).
Proof.
  intros Hmode Hty. unfold rmw_merged, m_get. rewrite (good_capacity _ Hgood _ seg_elem).
  pose proof (cap_pos s) as Hcap. pose proof patch_len as Hpl.
  set (buffer := default empty_buffer (m_find i (cx_buffers cx))).
  destruct (buf_loaded buffer) eqn:Eld; simpl.
  - destruct (m_find i (cx_buffers cx)) as [buf|] eqn:Ef; [|done]. simpl in buffer. subst buffer.
    destruct (bw_loaded _ Hwf i buf Ef Eld) as (base & Hat' & _ & Hlen).
    destruct (seg_at_det _ _ _ _ _ _ Hat Hat') as [Hs <-]. rewrite <- Hs in Hlen.
    eexists _, _. split; [done|].
    destruct (insert_buffer_evolves (cx_dev cx) (count_hit (count_logical (cx_counters cx)))
      (MkBuffer (buf_segment buf) (splice (buf_data buf) (os - b) patch)
         (buf_update_count buf [+] 1) true true)) as [HE HV]; try done.
    + simpl. rewrite lenZ_splice; lia.
    + intros x v Hx Hv Hcase. simpl. apply patched_nth; try done.
      destruct Hcase as [[_ Hb]|[(buf' & E' & _ & Hb)|?]]; [left; by apply Hb|left; congruence|by right].
  - set (fresh := take _ _).
    assert (length fresh = Z.to_nat (cap s)) as Hfl.
    { unfold fresh. rewrite length_take, length_app, length_replicate. lia. }
    destruct (read_law (cx_dev cx) (segment_address s) fresh)
      as (d1 & st1 & ld & -> & Hc1 & Hd1 & Hl & Hok). rewrite Hfl in Hl, Hok.
    assert (forall buf, m_find i (cx_buffers cx) = Some buf -> buf_loaded buf = false) as Hnl.
    { intros buf E. unfold buffer in Eld. by rewrite E in Eld. }
    assert (buf_dirty buffer = false) as Hnd.
    { unfold buffer in *. destruct (m_find i (cx_buffers cx)) as [buf|] eqn:E; [|done].
      destruct (buf_dirty buf) eqn:Ed; [|done]. simpl in *. by rewrite (bw_dirty _ Hwf i buf E Ed) in Eld. }
    destruct (ok st1) eqn:E1; simpl.
    + apply ok_OK in E1. subst st1. specialize (Hok eq_refl). eexists _, _. split; [done|].
      destruct (insert_buffer_evolves d1 (count_create (cap s) (count_logical (cx_counters cx)))
        (MkBuffer s (splice ld (os - b) patch) (buf_update_count buffer [+] 1) true true)) as [HE HV]; try done.
      * simpl. assert (lenZ ld = cap s) by (unfold lenZ; lia). rewrite lenZ_splice; lia.
      * intros x v Hx Hv Hcase. simpl. apply patched_nth; try done; [unfold lenZ; lia|].
        destruct Hcase as [[Hcv _]|[(buf' & E' & Hl' & _)|?]]; [left| |by right].
        -- rewrite Hok, nthZ_disk_read by lia. by rewrite <- Hcv.
        -- by rewrite (Hnl _ E') in Hl'.
    + eexists _, _. split; [done|]. split; [|by destruct st1].
      split; simpl; [done| | |by intros ->].
      * destruct Hwf as [W1 W2 W3]. split.
        -- by apply insert_sorted.
        -- intros j bb. rewrite find_insert. case_decide; [intros [= <-]; simpl; congruence|apply W2].
        -- intros j bb. rewrite find_insert. case_decide; [by intros [= <-]|apply W3].
      * intros x Hp j s' b' v Hloc Hv. destruct (Hp j s' b' v Hloc Hv) as (H1 & H2 & H3).
        simpl. rewrite Hc1, Hd1. split; [done|]. split; [done|]. intros bb. rewrite find_insert.
        case_decide; [by intros [= <-]|apply H3].
Qed.

Lemma apply_overlap_spec :
  exists cx' st, apply_overlap mode file u i s b os oe cx = Some (cx', st) /\ evolves st cx cx' /\
    (st = OK -> forall x, os <= x < oe -> visible cx' x).
Proof.
  unfold apply_overlap. fold patch. destruct (seg_type s) eqn:Ety; [|by apply write_direct_spec].
  destruct mode eqn:Em; [by apply rmw_naive_spec|by apply rmw_merged_spec].
Qed.
End Overlap.

(** ** The loops *)

Hypothesis Hfit : lenZ file <= capsum segs.

Lemma apply_segments_spec u rest : forall pre cx,
  update_ok u -> segs = pre ++ rest -> bufs_wf (cx_buffers cx) ->
  exists cx' st, apply_segments mode file u (lenZ pre) (capsum pre) rest cx = Some (cx', st) /\
    evolves st cx cx' /\
    (st = OK -> forall x, Z.max (upd_offset u) (capsum pre) <= x < upd_offset u + lenZ (upd_data u) ->
       visible cx' x).
Proof.
  pose proof (good_capsum _ Hgood) as Hcs.
  induction rest as [|s rest IH]; intros pre cx Hu Hsegs Hwf; simpl.
  - eexists _, _. split; [done|]. split; [by apply evolves_refl|]. intros _ x Hx.
    rewrite app_nil_r in Hsegs. subst pre. destruct Hu as (_ & ? & _). lia.
  - pose proof (seg_at_suffix _ _ _ _ Hsegs) as Hat.
    pose proof (seg_at_bound _ _ _ _ Hat) as (_ & Hb0 & Hb).
    rewrite (good_capacity _ Hgood _ (seg_at_elem _ _ _ _ Hat)). pose proof (cap_pos s).
    pose proof Hu as (Ho & Hoe & _). pose proof (lenZ_nonneg (upd_data u)).
    rewrite (u64_small (upd_offset u + _)) by lia. rewrite (u64_small (capsum pre + _)) by lia.
    set (os := Z.max _ _). set (oe := Z.min _ _).
    assert (exists cx1 st1,
      (if os <? oe then apply_overlap mode file u (lenZ pre) s (capsum pre) os oe cx
       else Some (cx, OK)) = Some (cx1, st1) /\ evolves st1 cx cx1 /\
      (st1 = OK -> forall x, os <= x < oe -> visible cx1 x)) as (cx1 & st1 & -> & HE1 & HV1).
    { destruct (os <? oe) eqn:Eo.
      - apply apply_overlap_spec; try done; lia.
      - eexists _, _. split; [done|]. split; [by apply evolves_refl|]. lia. }
    destruct (ok st1) eqn:E1; simpl.
    2: { eexists _, _. split; [done|]. split; [done|]. by intros ->. }
    apply ok_OK in E1. subst st1. specialize (HV1 eq_refl). zcase.
    { eexists _, _. split; [done|]. split; [done|]. intros _ x Hx. apply HV1. lia. }
    specialize (IH (pre ++ [s]) cx1 Hu). rewrite <- app_assoc in IH. specialize (IH Hsegs (ev_bufs _ _ _ HE1)).
    rewrite lenZ_app, capsum_app in IH. simpl in IH. rewrite Z.add_0_r in IH.
    change (lenZ [s]) with 1 in IH. destruct IH as (cx2 & st2 & -> & HE2 & HV2).
    eexists _, _. split; [done|]. split; [by eapply evolves_trans|]. intros -> x Hx.
    destruct (decide (x < capsum pre + cap s)).
    + apply (ev_visible _ _ _ HE2 eq_refl), HV1. lia.
    + apply HV2; [done|lia].
Qed.

Definition covers (us : list PendingUpdate) (x : Z) : Prop :=
  exists u, u ∈ us /\ upd_offset u <= x < upd_offset u + lenZ (upd_data u).

Lemma apply_updates_spec us : forall cx,
  Forall update_ok us -> bufs_wf (cx_buffers cx) ->
  exists cx' st, apply_updates mode file segs us cx = Some (cx', st) /\ evolves st cx cx' /\
    (st = OK -> forall x, covers us x -> visible cx' x).
Proof.
  induction us as [|u us IH]; intros cx Hok Hwf; simpl.
  - eexists _, _. split; [done|]. split; [by apply evolves_refl|]. intros _ x (u & Hin & _). by apply not_elem_of_nil in Hin.
  - apply Forall_cons in Hok as [Hu Hus].
    destruct (apply_segments_spec u segs [] cx Hu eq_refl Hwf) as (cx1 & st1 & E1 & HE1 & HV1).
    change (lenZ (@nil KVIMRTrackSegment)) with 0 in E1. simpl in E1. rewrite E1.
    destruct (ok st1) eqn:Eok; simpl.
    2: { eexists _, _. split; [done|]. split; [done|]. by intros ->. }
    apply ok_OK in Eok. subst st1. specialize (HV1 eq_refl).
    destruct (IH cx1 Hus (ev_bufs _ _ _ HE1)) as (cx2 & st2 & -> & HE2 & HV2).
    eexists _, _. split; [done|]. split; [by eapply evolves_trans|].
    intros -> x (u' & [-> | Hin]%elem_of_cons & Hx).
    + apply (ev_visible _ _ _ HE2 eq_refl), HV1. destruct Hu as (? & _). simpl. lia.
    + apply HV2; [done|]. by exists u'.
Qed.

(** Flushing writes the dirty buffers and nothing else. *)
Definition apart (l : stdmap Z MergedTrackBuffer) (a : Z) : Prop :=
  forall i buf, (i, buf) ∈ l -> buf_dirty buf = true ->
    outside (segment_address (buf_segment buf)) (cap (buf_segment buf)) a.

Definition mirrors (l : stdmap Z MergedTrackBuffer) : Prop :=
  forall i buf, (i, buf) ∈ l -> buf_dirty buf = true ->
    lenZ (buf_data buf) = cap (buf_segment buf) /\ exists b, seg_at segs i (buf_segment buf) b.

Lemma bufs_mirrors bufs : bufs_wf bufs -> mirrors bufs.
Proof.
  intros [Hs Hd Hl] i buf Hin Hdirty. apply elem_of_find in Hin; [|done].
  destruct (Hl i buf Hin (Hd i buf Hin Hdirty)) as (b & ? & _ & ?). eauto.
Qed.


(** Bytes of one dirty buffer are outside the segment of any other. *)
Lemma mirrors_disjoint l i j buf buf' k :
  mirrors l -> (i, buf) ∈ l -> (j, buf') ∈ l -> buf_dirty buf = true -> buf_dirty buf' = true ->
  i <> j -> 0 <= k < lenZ (buf_data buf') ->
  outside (segment_address (buf_segment buf)) (cap (buf_segment buf))
    (segment_address (buf_segment buf') + k).
Proof.
  intros Hm Hi Hj Hd Hd' Hne Hk.
  destruct (Hm i buf Hi Hd) as (_ & b & Hat). destruct (Hm j buf' Hj Hd') as (Hl & b' & Hat').
  replace (segment_address (buf_segment buf') + k) with (addr (buf_segment buf') b' (b' + k))
    by (unfold addr; lia).
  eapply addr_other; [done..|lia].
Qed.

(** What the write of one buffer at [A] does. *)
Lemma write_buffer_law (dev : D) A bs :
  exists dev' st, dev_write dev A bs = Some (dev', st) /\
    (forall a, outside A (lenZ bs) a -> contents dev' a = contents dev a /\ durable dev' a = durable dev a) /\
    (forall k w, nthZ bs k = Some w ->
       (contents dev (A + k) = w -> contents dev' (A + k) = w) /\
       (durable dev (A + k) = w -> durable dev' (A + k) = w) /\
       (st = OK -> contents dev' (A + k) = w)).
Proof.
  destruct (write_law dev A bs) as (dev' & st & E & Hc & Hd & Hok).
  exists dev', st. split; [done|]. split.
  - intros a Ha. assert (forall disk, disk_write disk A bs a = disk a) as Hw
      by (intros; by apply disk_write_outside).
    split; [destruct (Hc a)|destruct (Hd a)]; congruence.
  - intros k w Hk. assert (forall disk, disk_write disk A bs (A + k) = w) as Hw.
    { intros disk. apply disk_write_inside. by replace (A + k - A) with k by lia. }
    split_and!.
    + destruct (Hc (A + k)) as [->| ->]; auto.
    + destruct (Hd (A + k)) as [->| ->]; auto.
    + intros ->. rewrite Hok by done. auto.
Qed.

Lemma flush_buffers_spec l : forall (dev : D) c,
  sorted l -> mirrors l ->
  exists dev' c' st, flush_buffers l dev c = Some (dev', c', st) /\
    (forall a, apart l a -> contents dev' a = contents dev a /\ durable dev' a = durable dev a) /\
    (forall i buf k w, (i, buf) ∈ l -> buf_dirty buf = true -> nthZ (buf_data buf) k = Some w ->
       (contents dev (segment_address (buf_segment buf) + k) = w ->
          contents dev' (segment_address (buf_segment buf) + k) = w) /\
       (durable dev (segment_address (buf_segment buf) + k) = w ->
          durable dev' (segment_address (buf_segment buf) + k) = w) /\
       (st = OK -> contents dev' (segment_address (buf_segment buf) + k) = w)).
Proof.
  induction l as [|[i buf] rest IH]; intros dev c Hs Hm; simpl.
  { eexists _, _, _. split; [done|]. split; [done|]. intros i buf k w Hin. by apply not_elem_of_nil in Hin. }
  assert (mirrors rest) as Hm' by (intros ????; apply (Hm i0 buf0); [by right|done]).
  assert (sorted rest) as Hs' by (by destruct Hs).
  destruct (buf_dirty buf) eqn:Ed; simpl.
  2: { destruct (IH dev c Hs' Hm') as (d & c' & st & -> & HA & HB). eexists _, _, _. split; [done|]. split.
       - intros a Ha. apply HA. intros j b' Hin. apply (Ha j b'). by right.
       - intros j b' k w [[= -> ->] | Hin]%elem_of_cons Hd Hk; [congruence|by eapply HB]. }
  destruct (Hm i buf) as (Hlen & _); [left|done|].
  destruct (write_buffer_law dev (segment_address (buf_segment buf)) (buf_data buf)) as (d1 & st1 & -> & Hfr & Hin1).
  rewrite Hlen in Hfr.
  assert (forall j b' k w, (j, b') ∈ rest -> buf_dirty b' = true -> nthZ (buf_data b') k = Some w ->
    contents d1 (segment_address (buf_segment b') + k) = contents dev (segment_address (buf_segment b') + k) /\
    durable d1 (segment_address (buf_segment b') + k) = durable dev (segment_address (buf_segment b') + k)) as Hrest.
  { intros j b' k w Hin Hdj Hk. apply Hfr. apply nthZ_Some in Hk.
    eapply (mirrors_disjoint ((i, buf) :: rest) i j); [done|left|by right|done..| |done].
    exact (head_key_fresh _ _ _ _ _ Hs Hin). }
  destruct (ok st1) eqn:E1; simpl.
  - apply ok_OK in E1. subst st1.
    destruct (IH d1 (count_flush (lenZ (buf_data buf)) c) Hs' Hm') as (d & c' & st & -> & HA & HB).
    eexists _, _, _. split; [done|]. split.
    + intros a Ha. destruct (HA a) as [-> ->]; [intros j b' Hin; apply (Ha j b'); by right|].
      apply Hfr. apply (Ha i buf); [left|done].
    + intros j b' k w [[= -> ->] | Hin]%elem_of_cons Hdj Hk.
      * destruct (HA (segment_address (buf_segment buf) + k)) as [-> ->]; [|destruct (Hin1 k w Hk); tauto].
        apply nthZ_Some in Hk. intros j b'' Hin Hdj'.
        eapply (mirrors_disjoint ((i, buf) :: rest) j i); [done|by right|left|done..| |done].
        apply not_eq_sym. exact (head_key_fresh _ _ _ _ _ Hs Hin).
      * destruct (Hrest j b' k w Hin Hdj Hk) as [<- <-]. by eapply HB.
  - eexists _, _, _. split; [done|]. split.
    + intros a Ha. apply Hfr. apply (Ha i buf); [left|done].
    + intros j b' k w [[= -> ->] | Hin]%elem_of_cons Hdj Hk; [by apply Hin1|].
      destruct (Hrest j b' k w Hin Hdj Hk) as [-> ->]. split_and!; [done..|by intros ->].
Qed.

(** Byte [x] is where a read of the tracks finds it. *)
Definition delivered cx (x : Z) : Prop :=
  forall i s b v, located segs x i s b -> nthZ file x = Some v -> contents (cx_dev cx) (addr s b x) = v.

Lemma persisted_delivered cx x : persisted cx x -> delivered cx x.
Proof. intros Hp i s b v Hl Hv. by destruct (Hp i s b v Hl Hv). Qed.

Lemma dirty_or_apart bufs x i s b :
  bufs_wf bufs -> located segs x i s b ->
  (exists buf, (i, buf) ∈ bufs /\ buf_dirty buf = true /\ buf_loaded buf = true /\
     buf_segment buf = s /\ seg_type s = TOP) \/ apart bufs (addr s b x).
Proof.
  intros Hwf Hl. pose proof Hwf as [Hs Hd Hld].
  destruct (m_find i bufs) as [buf|] eqn:Ef; [destruct (buf_dirty buf) eqn:Ed|].
  1: { left. exists buf. pose proof (Hd i buf Ef Ed) as Hlo. destruct (Hld i buf Ef Hlo) as (b' & Hat & Hty & _).
       destruct (seg_at_det _ _ _ _ _ _ Hat (proj1 Hl)) as [E _].
       split; [by apply elem_of_find|]. by rewrite <- E. }
  all: right; intros j buf' Hin Hdj; destruct (bufs_mirrors _ Hwf j buf' Hin Hdj) as (_ & bj & Hat);
    destruct Hl as [Hat' Hx]; eapply addr_other; [done..| |done];
    intros ->; apply elem_of_find in Hin; [|done]; congruence.
Qed.

Lemma flush_persisted (dev : D) c bufs : bufs_wf bufs ->
  exists dev' c' st, flush_buffers bufs dev c = Some (dev', c', st) /\
    (forall a, outside_segs a -> contents dev' a = contents dev a /\ durable dev' a = durable dev a) /\
    (forall x, persisted (MkCtx dev c bufs) x -> persisted (MkCtx dev' c' bufs) x) /\
    (mode = MERGED -> st = OK ->
       forall x, visible (MkCtx dev c bufs) x -> delivered (MkCtx dev' c' bufs) x).
Proof.
  intros Hwf. destruct (flush_buffers_spec bufs dev c) as (dev' & c' & st & E & HA & HB).
  { apply Hwf. }
  { by apply bufs_mirrors. }
  exists dev', c', st. split; [done|]. split_and!.
  - intros a Ha. apply HA. intros i buf Hin Hd. destruct (bufs_mirrors _ Hwf i buf Hin Hd) as (_ & b & Hat).
    by eapply Ha.
  - intros x Hp i s b v Hl Hv. destruct (Hp i s b v Hl Hv) as (H1 & H2 & H3). simpl in *.
    destruct (dirty_or_apart bufs x i s b Hwf Hl) as [(buf & Hin & Hd & Hlo & <- & _)|Hap].
    + assert (nthZ (buf_data buf) (x - b) = Some v) as Hk by (apply H3; [apply elem_of_find; [apply Hwf|done]|done]).
      destruct (HB i buf (x - b) v Hin Hd Hk) as (K1 & K2 & _). unfold addr in *. auto.
    + destruct (HA _ Hap) as [-> ->]. done.
  - intros Hm -> x Hvis i s b v Hl Hv. specialize (Hvis i s b v Hl Hv). simpl in *.
    destruct (in_buffer s) eqn:Eb.
    + destruct Hvis as (buf & Hf & Hlo & Hd & Hk).
      destruct (bw_loaded _ Hwf i buf Hf Hlo) as (b' & Hat & _).
      destruct (seg_at_det _ _ _ _ _ _ Hat (proj1 Hl)) as [<- _].
      apply (HB i buf (x - b) v); [apply elem_of_find; [apply Hwf|done]|done..].
    + destruct (dirty_or_apart bufs x i s b Hwf Hl) as [(buf & _ & _ & _ & _ & Hty)|Hap].
      * unfold in_buffer in Eb. by rewrite Hm, Hty in Eb.
      * destruct (HA _ Hap) as [-> _]. done.
Qed.

(** Everything the payload step promises, whatever its outcome. *)
Record applied (us : list PendingUpdate) (st : Status) cx cx' : Prop := {
  ap_frame : forall a, outside_segs a ->
    contents (cx_dev cx') a = contents (cx_dev cx) a /\
    durable (cx_dev cx') a = durable (cx_dev cx) a;
  ap_bufs : bufs_wf (cx_buffers cx');
  ap_persisted : forall x, persisted cx x -> persisted cx' x;
  ap_delivered : st = OK -> forall x, covers us x -> delivered cx' x;
}.

Lemma ApplyPending_spec state cx :
  data state = file -> tracks state = segs -> Forall update_ok (pending_updates state) ->
  bufs_wf (cx_buffers cx) ->
  exists cx' st, ApplyPendingUpdatesLocked mode state cx = Some (cx', st) /\
    applied (pending_updates state) st cx cx'.
Proof.
  intros Hd Ht Hus Hwf. unfold ApplyPendingUpdatesLocked. rewrite Hd, Ht.
  pose proof (good_capsum _ Hgood). rewrite (total_capacity_eq segs Hgood) by (done || lia).
  replace (lenZ file >? capsum segs) with false by lia.
  destruct (apply_updates_spec (pending_updates state) cx Hus Hwf) as (cx1 & st1 & -> & [F B P V] & HV).
  destruct (ok st1) eqn:E1; simpl.
  2: { eexists _, _. split; [done|]. split; try done. by intros ->. }
  apply ok_OK in E1. subst st1. specialize (HV eq_refl). destruct mode eqn:Em.
  - eexists _, _. split; [done|]. split; try done. intros _ x Hx i s b v Hl Hv.
    specialize (HV x Hx i s b v Hl Hv). unfold in_buffer in HV. by rewrite Em in HV.
  - destruct (flush_persisted (cx_dev cx1) (cx_counters cx1) (cx_buffers cx1) B)
      as (dev' & c' & st & -> & HF & HP & HD).
    eexists _, _. split; [done|]. destruct cx1 as [d1 c1 b1]. simpl in *. split; simpl.
    + intros a Ha. destruct (F a Ha), (HF a Ha). split; congruence.
    + done.
    + auto.
    + intros Hst x Hx. auto.
Qed.

(** ** Reading a file back *)

(** Every byte of the file is where the tracks say. *)
Definition stored (disk : Z -> Z) : Prop :=
  forall x i s b v, located segs x i s b -> nthZ file x = Some v -> disk (addr s b x) = v.

Lemma restore_segments_spec rest : forall pre (dev : D),
  segs = pre ++ rest -> stored (contents dev) ->
  exists dev' st out,
    restore_segments (lenZ file) rest (take (Z.to_nat (capsum pre)) file) dev = Some (dev', st, out) /\
    (forall a, contents dev' a = contents dev a) /\ (forall a, durable dev' a = durable dev a) /\
    (st = OK -> out = file).
Proof.
  induction rest as [|s rest IH]; intros pre dev Hsegs Hst; simpl; pose proof (capsum_nonneg pre).
  { eexists _, _, _. split; [done|]. split_and!; try done. intros _. rewrite app_nil_r in Hsegs. subst pre.
    apply firstn_all2. unfold lenZ in Hfit. lia. }
  rewrite lenZ_take by lia. zcase.
  { eexists _, _, _. split; [done|]. split_and!; try done. intros _.
    apply firstn_all2. unfold lenZ in *. lia. }
  pose proof (seg_at_suffix _ _ _ _ Hsegs) as Hat. pose proof (cap_pos s) as Hcap.
  rewrite (good_capacity _ Hgood _ (seg_at_elem _ _ _ _ Hat)).
  replace (Z.min (capsum pre) (lenZ file)) with (capsum pre) by lia.
  set (chunk := Z.min (cap s) (lenZ file - capsum pre)).
  change kSectorSize with 512. set (n := (chunk + 512 - 1) / 512 * 512).
  assert (chunk <= n) as Hn.
  { pose proof (Z.div_mod (chunk + 512 - 1) 512 ltac:(lia)).
    pose proof (Z.mod_pos_bound (chunk + 512 - 1) 512 ltac:(lia)). lia. }
  destruct (read_law dev (segment_address s) (replicate (Z.to_nat n) 0))
    as (d1 & st1 & buf & -> & Hc & Hd & _ & Hok). rewrite length_replicate in Hok.
  destruct (ok st1) eqn:E1; simpl.
  2: { eexists _, _, _. split; [done|]. split_and!; try done. by intros ->. }
  apply ok_OK in E1. subst st1. specialize (Hok eq_refl).
  assert (take (Z.to_nat (capsum pre)) file ++ take (Z.to_nat chunk) buf =
          take (Z.to_nat (capsum (pre ++ [s]))) file) as ->.
  { apply list_eq_nthZ; rewrite capsum_app; simpl; rewrite lenZ_app, !lenZ_take by lia;
      subst buf; rewrite lenZ_disk_read; [lia|].
    intros k Hk. rewrite nthZ_app, lenZ_take by lia. zcase.
    - rewrite !nthZ_take by lia. rewrite !(proj2 (Z.ltb_lt _ _)) by lia. done.
    - rewrite !nthZ_take by lia. rewrite !(proj2 (Z.ltb_lt _ _)) by lia.
      rewrite nthZ_disk_read by lia. destruct (nthZ_is_Some file k) as [v Hv]; [lia|]. rewrite Hv. f_equal.
      rewrite <- (Hst k (lenZ pre) s (capsum pre) v); [|by split; [|lia]|done]. unfold addr. f_equal. lia. }
  destruct (IH (pre ++ [s]) d1) as (d2 & st2 & out & E & H1 & H2 & H3).
  { by rewrite <- app_assoc. }
  { intros x i s' b v Hl Hv. rewrite Hc. by eapply Hst. }
  exists d2, st2, out. split; [done|]. split_and!; try done; intros; congruence.
Qed.
End Run.
