(* ===== verification/RmwEquiv.v ===== *)
(** KVIMR-M against KVIMR-N.

    [ref_updates] is the reference: the pending updates written straight to the
    disk, in order.  Both modes of [ApplyPendingUpdatesLocked] leave exactly the
    reference content on the whole device, although KVIMR-M collects the updates
    of a TOP track in a buffer and writes it once.  The counters say how much
    that saves. *)

From S2P Require Import Prelude StdMap TrackAllocator BlockDevice MetaFs KvimrState Snapshot Rmw RmwSpec.
Import TrackAllocator.

(** ** The reference *)

Definition ref_patch (u : PendingUpdate) (os oe : Z) : bytes :=
  slice (upd_data u) (os - upd_offset u) (oe - os).

(** The sectors a direct write covers, filled from the file. *)
Definition direct_bytes (file : bytes) (aligned_start n : Z) : bytes :=
  if aligned_start <? lenZ file
  then splice (replicate (Z.to_nat n) 0) 0
         (slice file aligned_start (Z.min n (lenZ file - aligned_start)))
  else replicate (Z.to_nat n) 0.

Definition ref_overlap (file : bytes) (u : PendingUpdate) (s : KVIMRTrackSegment) (b os oe : Z)
    (disk : Z -> Z) : Z -> Z :=
  match seg_type s with
  | TOP => disk_write disk (segment_address s + (os - b)) (ref_patch u os oe)
  | BOTTOM =>
      let aligned_start := os / 512 * 512 in
      let aligned_end := (oe + 511) / 512 * 512 in
      disk_write disk (segment_address s + (aligned_start - b))
        (direct_bytes file aligned_start (aligned_end - aligned_start))
  end.

Fixpoint ref_segments (file : bytes) (u : PendingUpdate) (b : Z) (segs : list KVIMRTrackSegment)
    (disk : Z -> Z) : Z -> Z :=
  match segs with
  | [] => disk
  | s :: rest =>
      let os := Z.max (upd_offset u) b in
      let oe := Z.min (upd_offset u + lenZ (upd_data u)) (b + cap s) in
      ref_segments file u (b + cap s) rest
        (if os <? oe then ref_overlap file u s b os oe disk else disk)
  end.

Definition ref_updates (file : bytes) (segs : list KVIMRTrackSegment) (us : list PendingUpdate)
    (disk : Z -> Z) : Z -> Z :=
  fold_left (fun d u => ref_segments file u 0 segs d) us disk.

(** ** The device as the buffers will leave it *)

Definition overlay (disk : Z -> Z) (bufs : stdmap Z MergedTrackBuffer) : Z -> Z :=
  fold_right (fun e d => if buf_loaded e.2 then disk_write d (segment_address (buf_segment e.2)) (buf_data e.2) else d)
    disk bufs.

Definition all_live (bufs : stdmap Z MergedTrackBuffer) : Prop :=
  forall i b, m_find i bufs = Some b -> buf_loaded b = true /\ buf_dirty b = true.

Lemma disk_write_ext d d' off bs a : (forall x, d x = d' x) -> disk_write d off bs a = disk_write d' off bs a.
Proof. intros H. unfold disk_write. by destruct (nthZ bs (a - off)). Qed.

Lemma ref_segments_ext file u segs : forall b d d', (forall x, d x = d' x) ->
  forall a, ref_segments file u b segs d a = ref_segments file u b segs d' a.
Proof.
  induction segs as [|s segs IH]; intros b d d' H a; simpl; [done|]. apply IH. intros x. case_match; [|done].
  unfold ref_overlap. case_match; by apply disk_write_ext.
Qed.

Lemma ref_updates_ext file segs us : forall d d', (forall x, d x = d' x) ->
  forall a, ref_updates file segs us d a = ref_updates file segs us d' a.
Proof.
  unfold ref_updates. induction us as [|u us IH]; intros d d' H a; simpl; [done|]. apply IH.
  by apply ref_segments_ext.
Qed.

Section Equiv.
Context {D : Type} `{BDL : BlockDeviceLaws D}.
Variables (segs : list KVIMRTrackSegment) (file : bytes) (mode : RMWMode).
Hypothesis Hgood : good_segments segs.
Implicit Types cx : Ctx D.

(** [a] is in the segment of no loaded buffer. *)
Definition clear_of (bufs : stdmap Z MergedTrackBuffer) (a : Z) : Prop :=
  forall i b, (i, b) ∈ bufs -> buf_loaded b = true ->
    outside (segment_address (buf_segment b)) (lenZ (buf_data b)) a.

Lemma overlay_clear disk bufs a : clear_of bufs a -> overlay disk bufs a = disk a.
Proof.
  induction bufs as [|[i b] bufs IH]; simpl; [done|]. intros Hc.
  assert (clear_of bufs a) as Hc' by (intros j b' Hin; apply (Hc j b'); by right).
  destruct (buf_loaded b) eqn:El; [|auto]. rewrite disk_write_outside; [auto|]. by apply (Hc i b); [left|].
Qed.

Lemma overlay_hit disk bufs i b k w :
  bufs_wf segs bufs -> m_find i bufs = Some b -> buf_loaded b = true -> nthZ (buf_data b) k = Some w ->
  overlay disk bufs (segment_address (buf_segment b) + k) = w.
Proof.
  intros Hwf. assert (forall j b', (j, b') ∈ bufs -> buf_loaded b' = true ->
    exists base, seg_at segs j (buf_segment b') base /\ lenZ (buf_data b') = cap (buf_segment b')) as Hall.
  { intros j b' Hin Hl. apply elem_of_find in Hin; [|apply Hwf].
    destruct (bw_loaded _ _ Hwf j b' Hin Hl) as (base & ? & _ & ?). eauto. }
  pose proof (bw_sorted _ _ Hwf) as Hs. clear Hwf.
  intros Hf Hl Hk. apply elem_of_find in Hf; [|done]. induction bufs as [|[j b'] bufs IH]; [by apply elem_of_nil in Hf|].
  simpl. apply elem_of_cons in Hf as [[= <- <-]|Hf].
  { rewrite Hl. apply disk_write_inside. by replace (_ - _) with k by lia. }
  pose proof (head_key_fresh _ _ _ _ _ Hs Hf) as Hji.
  assert (overlay disk bufs (segment_address (buf_segment b) + k) = w) as IH'.
  { apply IH; [|by destruct Hs|done]. intros j0 b0 Hin. apply (Hall j0 b0). by right. }
  destruct (buf_loaded b') eqn:El; [|done]. rewrite disk_write_outside; [done|].
  destruct (Hall j b') as (base' & Hat' & Hl'); [left|done|]. destruct (Hall i b) as (base & Hat & Hlb); [by right|done|].
  apply nthZ_Some in Hk. rewrite Hl'. replace (segment_address (buf_segment b) + k) with (addr (buf_segment b) base (base + k))
    by (unfold addr; lia).
  eapply addr_other; [done..|lia].
Qed.

(** Reading the overlay at a position of segment [s]. *)
Lemma overlay_at disk bufs i s b k :
  bufs_wf segs bufs -> seg_at segs i s b -> 0 <= k < cap s ->
  match m_find i bufs with
  | Some buf => if buf_loaded buf then nthZ (buf_data buf) k = Some (overlay disk bufs (segment_address s + k))
                else overlay disk bufs (segment_address s + k) = disk (segment_address s + k)
  | None => overlay disk bufs (segment_address s + k) = disk (segment_address s + k)
  end.
Proof.
  intros Hwf Hat Hk.
  assert ((forall buf, m_find i bufs = Some buf -> buf_loaded buf = false) ->
    overlay disk bufs (segment_address s + k) = disk (segment_address s + k)) as Hclear.
  { intros Hno. apply overlay_clear. intros j b' Hin Hl. apply elem_of_find in Hin; [|apply Hwf].
    destruct (bw_loaded _ _ Hwf j b' Hin Hl) as (base & Hat' & _ & ->).
    replace (segment_address s + k) with (addr s b (b + k)) by (unfold addr; lia).
    eapply addr_other; [done..| |lia]. intros ->. by rewrite (Hno b' Hin) in Hl. }
  destruct (m_find i bufs) as [buf|] eqn:Ef; [|by apply Hclear].
  destruct (buf_loaded buf) eqn:El; [|apply Hclear; by intros ? [= <-]].
  destruct (bw_loaded _ _ Hwf i buf Ef El) as (base & Hat' & _ & Hlen).
  destruct (seg_at_det _ _ _ _ _ _ Hat Hat') as [-> _].
  destruct (nthZ_is_Some (buf_data buf) k ltac:(lia)) as [w Hw]. rewrite Hw. f_equal. symmetry.
  by eapply overlay_hit.
Qed.

Lemma overlay_pointwise disk disk' bufs a : disk a = disk' a -> overlay disk bufs a = overlay disk' bufs a.
Proof.
  intros H. induction bufs as [|[i b] bufs IH]; simpl; [done|]. destruct (buf_loaded b); [|done].
  unfold disk_write. by destruct (nthZ _ _).
Qed.

(** Rewriting a whole range with a patch is writing the patch. *)
Lemma disk_write_splice disk off n p patch a :
  0 <= p -> p + lenZ patch <= n ->
  disk_write disk off (splice (disk_read disk off (Z.to_nat n)) p patch) a = disk_write disk (off + p) patch a.
Proof.
  intros Hp Hl. pose proof (lenZ_nonneg patch). unfold disk_write.
  assert (lenZ (disk_read disk off (Z.to_nat n)) = n) as Hn by (rewrite lenZ_disk_read; lia).
  destruct (decide (0 <= a - off < n)) as [Hin|Hout].
  - rewrite nthZ_splice by lia. destruct (_ && _) eqn:E.
    + replace (a - (off + p)) with (a - off - p) by lia.
      destruct (nthZ_is_Some patch (a - off - p) ltac:(lia)) as [v ->]. done.
    + rewrite (nthZ_None patch) by lia. rewrite nthZ_disk_read by lia. f_equal. lia.
  - rewrite (nthZ_None patch) by lia. rewrite nthZ_None; [done|]. rewrite lenZ_splice; lia.
Qed.

Lemma overlay_insert disk bufs j nb a :
  outside (segment_address (buf_segment nb)) (lenZ (buf_data nb)) a ->
  (forall buf, m_find j bufs = Some buf -> buf_loaded buf = true ->
     outside (segment_address (buf_segment buf)) (lenZ (buf_data buf)) a) ->
  overlay disk (m_insert j nb bufs) a = overlay disk bufs a.
Proof.
  intros Hnb. assert (forall m, (if buf_loaded nb then disk_write m (segment_address (buf_segment nb)) (buf_data nb) else m) a = m a)
    as Hskip by (intros m; destruct (buf_loaded nb); [by apply disk_write_outside|done]).
  induction bufs as [|[j' b'] bufs IH]; simpl; intros Hold; [apply Hskip|].
  case_decide as Hj; [|destruct (j <? j')]; simpl.
  - rewrite Hskip. destruct (buf_loaded b') eqn:El; [|done]. rewrite disk_write_outside; [done|]. by apply Hold.
  - apply Hskip.
  - specialize (IH Hold). destruct (buf_loaded b'); [|done]. unfold disk_write. by destruct (nthZ _ _).
Qed.

Definition agrees cx (d : Z -> Z) : Prop :=
  forall a, overlay (contents (cx_dev cx)) (cx_buffers cx) a = d a.

Definition run_ok cx : Prop :=
  bufs_wf segs (cx_buffers cx) /\ all_live (cx_buffers cx) /\ (mode = NAIVE -> cx_buffers cx = []).

Section Step.
Variables (u : PendingUpdate) (i : Z) (s : KVIMRTrackSegment) (b os oe : Z) (cx cx' : Ctx D) (d : Z -> Z).
Hypothesis Hu : update_ok file u.
Hypothesis Hat : seg_at segs i s b.
Hypothesis Hov : b <= os /\ os < oe /\ oe <= b + cap s.
Hypothesis Hin : upd_offset u <= os /\ oe <= upd_offset u + lenZ (upd_data u).
Hypothesis Hrun : run_ok cx.
Hypothesis Hag : agrees cx d.

Let patch := ref_patch u os oe.

Lemma ref_patch_len : lenZ patch = oe - os.
Proof. unfold patch, ref_patch. apply lenZ_slice; lia. Qed.

Lemma naive_agrees :
  mode = NAIVE -> rmw_naive s (os - b) patch cx = Some (cx', OK) ->
  cx_buffers cx' = cx_buffers cx /\ agrees cx' (disk_write d (segment_address s + (os - b)) patch).
Proof.
  intros Hm. unfold rmw_naive. rewrite (good_capacity _ Hgood _ (seg_at_elem _ _ _ _ Hat)).
  pose proof (cap_pos s). pose proof ref_patch_len as Hpl. destruct Hrun as (_ & _ & Hnil). specialize (Hnil Hm).
  destruct (read_law (cx_dev cx) (segment_address s) (replicate (Z.to_nat (cap s)) 0))
    as (d1 & st1 & track & -> & Hc1 & _ & _ & Hok). rewrite length_replicate in Hok.
  destruct (ok st1) eqn:E1; simpl; [|intros [= _ ->]; done]. apply ok_OK in E1. specialize (Hok E1).
  destruct (write_law d1 (segment_address s) (splice track (os - b) patch)) as (d2 & st2 & -> & _ & _ & Hok2).
  destruct (ok st2) eqn:E2; simpl; [|intros [= _ ->]; done]. apply ok_OK in E2. specialize (Hok2 E2).
  intros [= <-]. split; [done|]. intros a. unfold agrees in Hag. simpl. rewrite Hnil in *. simpl in *.
  rewrite Hok2, Hok. rewrite <- (disk_write_splice d _ (cap s)) by lia.
  assert (disk_read (contents (cx_dev cx)) (segment_address s) (Z.to_nat (cap s)) =
          disk_read d (segment_address s) (Z.to_nat (cap s))) as -> by (apply disk_read_ext; auto).
  apply disk_write_ext. intros x. by rewrite Hc1.
Qed.

Lemma direct_agrees :
  seg_type s = BOTTOM -> write_direct file s b os oe cx = Some (cx', OK) ->
  cx_buffers cx' = cx_buffers cx /\ agrees cx' (ref_overlap file u s b os oe d).
Proof.
  intros Hty. unfold write_direct, ref_overlap. rewrite Hty. change kSectorSize with 512.
  pose proof (good_address _ Hgood _ (seg_at_elem _ _ _ _ Hat)) as [_ Haddr]. pose proof (cap_pos s).
  pose proof (seg_at_bound _ _ _ _ Hat) as (_ & Hb0 & Hb). pose proof (good_capsum _ Hgood) as Hcs.
  pose proof (aligned_bounds segs i s b os oe Hat Hov) as Hal. simpl in Hal.
  rewrite (u64_small (oe + 512)) by lia. rewrite (u64_small (oe + 512 - 1)) by lia.
  replace (oe + 512 - 1) with (oe + 511) by lia.
  set (as_ := os / 512 * 512) in *. set (ae := (oe + 511) / 512 * 512) in *.
  rewrite (u64_small (ae - as_)) by lia. rewrite (u64_small (segment_address s + as_)) by lia.
  rewrite (u64_small (segment_address s + as_ - b)) by lia. fold (direct_bytes file as_ (ae - as_)).
  replace (segment_address s + as_ - b) with (segment_address s + (as_ - b)) by lia.
  set (off := segment_address s + (as_ - b)). set (bs := direct_bytes file as_ (ae - as_)).
  assert (lenZ bs <= cap s - (as_ - b)) as Hbl.
  { unfold bs, direct_bytes. assert (lenZ (replicate (Z.to_nat (ae - as_)) 0) = ae - as_) as Hz
      by (unfold lenZ; rewrite length_replicate; lia). zcase; [|lia].
    pose proof (lenZ_slice file as_ (Z.min (ae - as_) (lenZ file - as_)) ltac:(lia) ltac:(lia) ltac:(lia)).
    rewrite lenZ_splice; lia. }
  destruct (write_law (cx_dev cx) off bs) as (d2 & st2 & -> & _ & _ & Hok2).
  destruct (ok st2) eqn:E2; simpl; [|intros [= _ ->]; done]. apply ok_OK in E2. specialize (Hok2 E2).
  intros [= <-]. split; [done|]. intros a. simpl. unfold disk_write. destruct (nthZ bs (a - off)) as [v|] eqn:Ev.
  - pose proof (nthZ_Some _ _ _ Ev).
    pose proof (overlay_at (contents d2) (cx_buffers cx) i s b (a - segment_address s) (proj1 Hrun) Hat
      ltac:(unfold off in *; lia)) as Hoa.
    replace (segment_address s + (a - segment_address s)) with a in Hoa by lia.
    assert (contents d2 a = v) as Hv by (rewrite Hok2; by apply disk_write_inside).
    destruct (m_find i (cx_buffers cx)) as [buf|] eqn:Ef; [|congruence].
    destruct (buf_loaded buf) eqn:El; [|congruence]. exfalso.
    destruct (bw_loaded _ _ (proj1 Hrun) i buf Ef El) as (base & Hat' & Hty' & _).
    destruct (seg_at_det _ _ _ _ _ _ Hat Hat') as [Es _]. congruence.
  - rewrite <- Hag. apply overlay_pointwise. rewrite Hok2. unfold disk_write. by rewrite Ev.
Qed.

(** Installing the patched buffer of [s] writes the patch to the overlay. *)
Lemma insert_agrees (dev' : D) c' nb :
  (forall a, contents dev' a = contents (cx_dev cx) a) -> buf_segment nb = s -> buf_loaded nb = true ->
  bufs_wf segs (m_insert i nb (cx_buffers cx)) ->
  (forall k, 0 <= k < cap s -> nthZ (buf_data nb) k = Some (disk_write d (segment_address s + (os - b)) patch (segment_address s + k))) ->
  agrees (MkCtx dev' c' (m_insert i nb (cx_buffers cx))) (disk_write d (segment_address s + (os - b)) patch).
Proof.
  intros Hc Hs Hl Hwf' Hdata a. simpl. pose proof ref_patch_len as Hpl. destruct Hrun as (Hwf & _ & _).
  destruct (decide (0 <= a - segment_address s < cap s)) as [Hi|Ho].
  - replace a with (segment_address s + (a - segment_address s)) by lia. rewrite <- Hs at 1.
    apply (overlay_hit _ _ i nb); [done|by rewrite find_insert_eq|done|]. by apply Hdata.
  - rewrite (disk_write_outside d) by (unfold outside; lia). rewrite <- Hag.
rewrite (overlay_pointwise _ (contents (cx_dev cx))) by done.
    assert (lenZ (buf_data nb) = cap s) as Hlen.
    { destruct (bw_loaded _ _ Hwf' i nb) as (base & _ & _ & Hlen); [by rewrite find_insert_eq|done|]. congruence. }
    apply overlay_insert.
    + rewrite Hs, Hlen. unfold outside. lia.
    + intros buf Hf Hlb. destruct (bw_loaded _ _ Hwf i buf Hf Hlb) as (base & Hat' & _ & ->).
      destruct (seg_at_det _ _ _ _ _ _ Hat Hat') as [<- _]. unfold outside. lia.
Qed.

Lemma all_live_insert nb bufs : all_live bufs -> buf_loaded nb = true -> buf_dirty nb = true -> all_live (m_insert i nb bufs).
Proof. intros H H1 H2 j buf. rewrite find_insert. case_decide; [by intros [= <-]|apply H]. Qed.

Lemma merged_agrees :
  mode = MERGED -> seg_type s = TOP -> rmw_merged i s (os - b) patch cx = Some (cx', OK) ->
  bufs_wf segs (cx_buffers cx') ->
  all_live (cx_buffers cx') /\ agrees cx' (disk_write d (segment_address s + (os - b)) patch).
Proof.
  intros Hm Hty. unfold rmw_merged, m_get. rewrite (good_capacity _ Hgood _ (seg_at_elem _ _ _ _ Hat)).
  pose proof (cap_pos s). pose proof ref_patch_len as Hpl. pose proof Hrun as (Hwf & Hlive & _).
  assert (forall track : bytes, lenZ track = cap s ->
    (forall k, 0 <= k < cap s -> nthZ track k = Some (d (segment_address s + k))) ->
    forall k, 0 <= k < cap s -> nthZ (splice track (os - b) patch) k =
      Some (disk_write d (segment_address s + (os - b)) patch (segment_address s + k))) as Hsplice.
  { intros track Hl Htr k Hk. rewrite nthZ_splice by lia. unfold disk_write.
    replace (segment_address s + k - (segment_address s + (os - b))) with (k - (os - b)) by lia.
    destruct (_ && _) eqn:E.
    - by destruct (nthZ_is_Some patch (k - (os - b)) ltac:(lia)) as [v ->].
    - rewrite (nthZ_None patch) by lia. auto. }
  pose proof (fun k => overlay_at (contents (cx_dev cx)) (cx_buffers cx) i s b k Hwf Hat) as Hoa.
  destruct (m_find i (cx_buffers cx)) as [buf|] eqn:Ef; simpl.
  - destruct (Hlive i buf Ef) as [Hl Hd]. rewrite Hl in Hoa |- *. simpl. intros [= <-] Hwf'. simpl in *.
    destruct (bw_loaded _ _ Hwf i buf Ef Hl) as (base & Hat' & _ & Hlen).
    destruct (seg_at_det _ _ _ _ _ _ Hat Hat') as [Es _]. rewrite <- Es in Hlen.
    split; [by apply all_live_insert|]. apply insert_agrees; try done. simpl.
    apply Hsplice; [done|]. intros k Hk. rewrite <- Hag. by apply Hoa.
  - set (fresh := take _ _).
    assert (length fresh = Z.to_nat (cap s)) as Hfl.
    { unfold fresh. rewrite length_take, length_replicate. lia. }
    destruct (read_law (cx_dev cx) (segment_address s) fresh) as (d1 & st1 & ld & -> & Hc1 & _ & Hl & Hok).
    rewrite Hfl in Hl, Hok. destruct (ok st1) eqn:E1; simpl; [|intros [= _ ->]; done].
    apply ok_OK in E1. specialize (Hok E1). intros [= <-] Hwf'. simpl in *.
    split; [by apply all_live_insert|]. apply insert_agrees; try done. simpl.
    apply Hsplice; [unfold lenZ; lia|]. intros k Hk. rewrite Hok, nthZ_disk_read by lia.
    f_equal. rewrite <- Hag. symmetry. by apply Hoa.
Qed.

Lemma overlap_agrees :
  apply_overlap mode file u i s b os oe cx = Some (cx', OK) ->
  run_ok cx' /\ agrees cx' (ref_overlap file u s b os oe d).
Proof.
  intros E. destruct (apply_overlap_spec segs file mode Hgood u i s b os oe cx Hu Hat Hov Hin (proj1 Hrun))
    as (cx1 & st1 & E1 & HE & _). rewrite E in E1. injection E1 as <- <-. pose proof (ev_bufs _ _ _ _ _ _ HE) as Hwf'.
  revert E. unfold apply_overlap. fold (ref_patch u os oe). fold patch.
  unfold ref_overlap at 1. destruct (seg_type s) eqn:Ety; [destruct mode eqn:Em|]; intros E.
  - destruct (naive_agrees Em E) as [Eb Hag']. split; [|done]. split; [done|]. rewrite Eb. split; apply Hrun.
  - destruct (merged_agrees Em Ety E Hwf') as [Hlive Hag']. split; [|done]. split; [done|]. split; [done|]. congruence.
  - destruct (direct_agrees Ety E) as [Eb Hag']. unfold ref_overlap in Hag'. rewrite Ety in Hag'.
    split; [|done]. split; [done|]. rewrite Eb. split; apply Hrun.
Qed.
End Step.

(** ** The loops *)

Hypothesis Hfit : lenZ file <= capsum segs.

Lemma ref_segments_done u b rest d :
  upd_offset u + lenZ (upd_data u) <= b -> ref_segments file u b rest d = d.
Proof.
  revert b d. induction rest as [|s rest IH]; intros b d Hb; simpl; [done|]. pose proof (cap_pos s).
  replace (_ <? _) with false by lia. apply IH. lia.
Qed.

Lemma segments_agrees u rest : forall pre cx cx' d,
  update_ok file u -> segs = pre ++ rest -> run_ok cx -> agrees cx d ->
  apply_segments mode file u (lenZ pre) (capsum pre) rest cx = Some (cx', OK) ->
  run_ok cx' /\ agrees cx' (ref_segments file u (capsum pre) rest d).
Proof.
  pose proof (good_capsum _ Hgood) as Hcs.
  induction rest as [|s rest IH]; intros pre cx cx' d Hu Hsegs Hrun Hag; simpl; [by intros [= <-]|].
  pose proof (seg_at_suffix _ _ _ _ Hsegs) as Hat. pose proof (seg_at_bound _ _ _ _ Hat) as (_ & Hb0 & Hb).
  rewrite (good_capacity _ Hgood _ (seg_at_elem _ _ _ _ Hat)). pose proof (cap_pos s).
  pose proof Hu as (Ho & Hoe & _). pose proof (lenZ_nonneg (upd_data u)).
  rewrite (u64_small (upd_offset u + _)) by lia. rewrite (u64_small (capsum pre + _)) by lia.
  set (os := Z.max _ _). set (oe := Z.min _ _).
  set (d1 := if os <? oe then ref_overlap file u s (capsum pre) os oe d else d).
  assert (forall cx1, (if os <? oe then apply_overlap mode file u (lenZ pre) s (capsum pre) os oe cx
     else Some (cx, OK)) = Some (cx1, OK) -> run_ok cx1 /\ agrees cx1 d1) as Hstep.
  { intros cx1. unfold d1. destruct (os <? oe) eqn:Eo; [|by intros [= <-]].
    apply (overlap_agrees u (lenZ pre)); try done; lia. }
  destruct (if os <? oe then apply_overlap mode file u (lenZ pre) s (capsum pre) os oe cx
    else Some (cx, OK)) as [[cx1 st1]|]; [|done].
  destruct (ok st1) eqn:E1; simpl; [|by intros [= _ ->]]. apply ok_OK in E1. subst st1.
  destruct (Hstep cx1 eq_refl) as [Hrun1 Hag1]. zcase.
  - intros [= <-]. split; [done|]. by rewrite ref_segments_done by lia.
  - specialize (IH (pre ++ [s]) cx1 cx' d1 Hu). rewrite <- app_assoc in IH. specialize (IH Hsegs Hrun1 Hag1).
    rewrite lenZ_app, capsum_app in IH. simpl in IH. rewrite Z.add_0_r in IH. exact IH.
Qed.

Lemma updates_agrees us : forall cx cx' d,
  Forall (update_ok file) us -> run_ok cx -> agrees cx d ->
  apply_updates mode file segs us cx = Some (cx', OK) ->
  run_ok cx' /\ agrees cx' (ref_updates file segs us d).
Proof.
  induction us as [|u us IH]; intros cx cx' d Hus Hrun Hag; simpl; [by intros [= <-]|].
  apply Forall_cons in Hus as [Hu Hus].
  destruct (apply_segments mode file u 0 0 segs cx) as [[cx1 st1]|] eqn:E; [|done].
  destruct (ok st1) eqn:E1; simpl; [|by intros [= _ ->]]. apply ok_OK in E1. subst st1.
  destruct (segments_agrees u segs [] cx cx1 d Hu eq_refl Hrun Hag E) as [Hrun1 Hag1]. by apply IH.
Qed.

(** An address is in a dirty buffer or apart from all of them. *)
Lemma dirty_cases bufs a :
  apart bufs a \/ exists i b k, (i, b) ∈ bufs /\ buf_dirty b = true /\ 0 <= k < cap (buf_segment b) /\
    a = segment_address (buf_segment b) + k.
Proof.
  induction bufs as [|[i b] bufs IH]; [left; intros i b Hin; by apply elem_of_nil in Hin|].
  destruct IH as [Hap|(j & b' & k & Hin & Hr)]; [|right; exists j, b', k; split; [by right|done]].
  destruct (buf_dirty b) eqn:Ed.
  - destruct (decide (0 <= a - segment_address (buf_segment b) < cap (buf_segment b))) as [Hi|Ho].
    + right. exists i, b, (a - segment_address (buf_segment b)). split; [left|]. split_and!; try done; lia.
    + left. intros j b' [[= -> ->]|Hin]%elem_of_cons Hd; [unfold outside; lia|by apply (Hap j b')].
  - left. intros j b' [[= -> ->]|Hin]%elem_of_cons Hd; [congruence|by apply (Hap j b')].
Qed.

Lemma flush_overlay (dev dev' : D) c c' bufs :
  bufs_wf segs bufs -> all_live bufs -> flush_buffers bufs dev c = Some (dev', c', OK) ->
  forall a, contents dev' a = overlay (contents dev) bufs a.
Proof.
  intros Hwf Hlive E a.
  destruct (flush_buffers_spec segs Hgood bufs dev c) as (d2 & c2 & st2 & E2 & HA & HB).
  { apply Hwf. }
  { by apply bufs_mirrors. }
  rewrite E in E2. injection E2 as <- <- <-.
  destruct (dirty_cases bufs a) as [Hap|(i & b & k & Hin & Hd & Hk & ->)].
  - destruct (HA a Hap) as [-> _]. symmetry. apply overlay_clear. intros i b Hin Hl.
    apply elem_of_find in Hin as Hf; [|apply Hwf]. destruct (Hlive i b Hf) as [_ Hd].
    destruct (bw_loaded _ _ Hwf i b Hf Hl) as (_ & _ & _ & ->). by apply (Hap i b).
  - apply elem_of_find in Hin as Hf; [|apply Hwf]. destruct (Hlive i b Hf) as [Hl _].
    destruct (bw_loaded _ _ Hwf i b Hf Hl) as (base & _ & _ & Hlen).
    destruct (nthZ_is_Some (buf_data b) k ltac:(lia)) as [w Hw].
    destruct (HB i b k w Hin Hd Hw) as (_ & _ & ->); [|done]. symmetry. by eapply overlay_hit.
Qed.

Lemma ApplyPending_reference state (dev : D) c cx' :
  data state = file -> tracks state = segs -> Forall (update_ok file) (pending_updates state) ->
  ApplyPendingUpdatesLocked mode state (MkCtx dev c []) = Some (cx', OK) ->
  forall a, contents (cx_dev cx') a = ref_updates file segs (pending_updates state) (contents dev) a.
Proof.
  intros Hd Ht Hus. unfold ApplyPendingUpdatesLocked. rewrite Hd, Ht.
  pose proof (good_capsum _ Hgood). rewrite (total_capacity_eq segs Hgood) by (done || lia).
  replace (lenZ file >? capsum segs) with false by lia.
  destruct (apply_updates mode file segs (pending_updates state) (MkCtx dev c [])) as [[cx1 st1]|] eqn:E; [|done].
  destruct (ok st1) eqn:E1; simpl; [|by intros [= _ ->]]. apply ok_OK in E1. subst st1.
  assert (run_ok (MkCtx dev c [])) as Hrun0.
  { split; [split; [done|by intros i b Hb..]|]. split; [by intros i b Hb|done]. }
  destruct (updates_agrees _ _ cx1 (contents dev) Hus Hrun0 (fun a => eq_refl) E) as [(Hwf & Hlive & Hnil) Hag].
  destruct mode eqn:Em.
  - intros [= <-] a. rewrite <- Hag. by rewrite (Hnil eq_refl).
  - destruct (flush_buffers _ _ _) as [[[d2 c2] st2]|] eqn:Ef; [|done].
    intros [= <- ->] a. simpl. rewrite <- Hag. by eapply flush_overlay.
Qed.

End Equiv.

(** ** Counters *)

(** TOP tracks an update touches, and all of them for a list of updates. *)
Fixpoint seg_touches (u : PendingUpdate) (b : Z) (segs : list KVIMRTrackSegment) : Z :=
  match segs with
  | [] => 0
  | s :: rest =>
      (if (Z.max (upd_offset u) b <? Z.min (upd_offset u + lenZ (upd_data u)) (b + cap s))
          && bool_decide (seg_type s = TOP) then 1 else 0) + seg_touches u (b + cap s) rest
  end.

Definition top_touches (segs : list KVIMRTrackSegment) (us : list PendingUpdate) : Z :=
  fold_left (fun n u => n + seg_touches u 0 segs) us 0.

Definition top_bytes : Z := 512 * kTopSectors.

Definition naive_counts (c : RMWCounters) (t : Z) : Prop :=
  naive_rmw_count c = u64 t /\ naive_rmw_read_bytes c = u64 (t * top_bytes) /\
  naive_rmw_write_bytes c = u64 (t * top_bytes).

(** [t] touches so far, [n] of which loaded a buffer. *)
Definition merged_counts (c : RMWCounters) (t n : Z) : Prop :=
  merged_logical_update_count c = u64 t /\ merged_buffer_create_count c = u64 n /\
  merged_buffer_hit_count c = u64 (t - n) /\ merged_updates_saved c = u64 (t - n) /\
  merged_rmw_read_bytes c = u64 (n * top_bytes).

(** [m] buffers flushed so far. *)
Definition flush_counts (c : RMWCounters) (m : Z) : Prop :=
  merged_rmw_count c = u64 m /\ merged_buffer_flush_count c = u64 m /\
  merged_rmw_write_bytes c = u64 (m * top_bytes).

Lemma top_cap s : seg_type s = TOP -> top_bytes = cap s.
Proof. intros Hty. unfold cap. by rewrite Hty. Qed.

Section Counters.
Context {D : Type} `{BDL : BlockDeviceLaws D}.
Variables (segs : list KVIMRTrackSegment) (file : bytes).
Hypothesis Hgood : good_segments segs.
Implicit Types cx : Ctx D.

(** The part of the counters a mode advances, relative to the buffers. *)
Definition counted (mode : RMWMode) cx (t : Z) : Prop :=
  match mode with
  | NAIVE => naive_counts (cx_counters cx) t
  | MERGED => merged_counts (cx_counters cx) t (lenZ (cx_buffers cx)) /\ flush_counts (cx_counters cx) 0 /\
      lenZ (cx_buffers cx) <= t
  end.

Lemma top_capacity s : s ∈ segs -> seg_type s = TOP -> segment_capacity s = top_bytes.
Proof. intros Hs Hty. rewrite (good_capacity _ Hgood _ Hs). unfold cap. by rewrite Hty. Qed.

#[local] Opaque top_bytes.

Lemma overlap_counted mode u i s b os oe cx cx' t :
  s ∈ segs -> sorted (cx_buffers cx) -> all_live (cx_buffers cx) -> counted mode cx t ->
  apply_overlap mode file u i s b os oe cx = Some (cx', OK) ->
  counted mode cx' (t + if bool_decide (seg_type s = TOP) then 1 else 0).
Proof.
  intros Hs Hsorted Hlive Hc. unfold apply_overlap. destruct (seg_type s) eqn:Ety.
  - rewrite bool_decide_true by done. destruct mode; simpl in Hc.
    + unfold rmw_naive. rewrite (top_capacity s Hs Ety).
      destruct (dev_read _ _ _) as [[[d1 st1] tr]|]; [|done]. destruct (ok st1) eqn:E1; simpl; [|intros [= _ ->]; done].
      destruct (dev_write _ _ _) as [[d2 st2]|]; [|done]. destruct (ok st2) eqn:E2; simpl; [|intros [= _ ->]; done].
      intros [= <-]. destruct Hc as (H1 & H2 & H3). unfold counted, naive_counts. simpl.
      rewrite H1, H2, H3, !u64_add_l. split_and!; f_equal; lia.
    + destruct Hc as [(H1 & H2 & H3 & H4 & H5) [Hfl Hle]]. unfold rmw_merged, m_get. rewrite (top_capacity s Hs Ety).
      destruct (m_find i (cx_buffers cx)) as [buf|] eqn:Ef; simpl.
      * destruct (Hlive i buf Ef) as [-> _]. simpl. intros [= <-]. unfold counted, merged_counts. simpl.
        rewrite (lenZ_insert i _ buf) by done. rewrite H1, H2, H3, H4, H5, !u64_add_l.
        split; [split_and!; f_equal; lia|]. split; [done|lia].
      * destruct (dev_read _ _ _) as [[[d1 st1] ld]|]; [|done]. destruct (ok st1) eqn:E1; simpl; [|intros [= _ ->]; done].
        intros [= <-]. unfold counted, merged_counts. simpl. rewrite lenZ_insert_new by done.
        rewrite H1, H2, H3, H4, H5, !u64_add_l. split; [split_and!; f_equal; lia|]. split; [done|lia].
  - rewrite bool_decide_false by done. rewrite Z.add_0_r. unfold write_direct.
    destruct (dev_write _ _ _) as [[d2 st2]|]; [|done]. destruct (ok st2) eqn:E2; simpl; [|intros [= _ ->]; done].
    intros [= <-]. by destruct mode.
Qed.

Hypothesis Hfit : lenZ file <= capsum segs.

Lemma seg_touches_done u b rest : upd_offset u + lenZ (upd_data u) <= b -> seg_touches u b rest = 0.
Proof.
  revert b. induction rest as [|s rest IH]; intros b Hb; simpl; [done|]. pose proof (cap_pos s).
  replace (_ <? _) with false by lia. simpl. apply IH. lia.
Qed.

Lemma segments_counted mode u rest : forall pre cx cx' t,
  update_ok file u -> segs = pre ++ rest -> run_ok segs mode cx -> counted mode cx t ->
  apply_segments mode file u (lenZ pre) (capsum pre) rest cx = Some (cx', OK) ->
  run_ok segs mode cx' /\ counted mode cx' (t + seg_touches u (capsum pre) rest).
Proof.
  pose proof (good_capsum _ Hgood) as Hcs.
  induction rest as [|s rest IH]; intros pre cx cx' t Hu Hsegs Hrun Hc; simpl; [intros [= <-]; by rewrite Z.add_0_r|].
  pose proof (seg_at_suffix _ _ _ _ Hsegs) as Hat. pose proof (seg_at_bound _ _ _ _ Hat) as (_ & Hb0 & Hb).
  pose proof (seg_at_elem _ _ _ _ Hat) as Hs. rewrite (good_capacity _ Hgood _ Hs). pose proof (cap_pos s).
  pose proof Hu as (Ho & Hoe & _). pose proof (lenZ_nonneg (upd_data u)).
  rewrite (u64_small (upd_offset u + _)) by lia. rewrite (u64_small (capsum pre + _)) by lia.
  set (os := Z.max _ _). set (oe := Z.min _ _).
  set (t1 := t + if (os <? oe) && bool_decide (seg_type s = TOP) then 1 else 0).
  assert (forall cx1, (if os <? oe then apply_overlap mode file u (lenZ pre) s (capsum pre) os oe cx
     else Some (cx, OK)) = Some (cx1, OK) -> run_ok segs mode cx1 /\ counted mode cx1 t1) as Hstep.
  { intros cx1. unfold t1. destruct (os <? oe) eqn:Eo; [|intros [= <-]; simpl; by rewrite Z.add_0_r].
    intros E. split.
    - eapply (overlap_agrees segs file mode Hgood u (lenZ pre) s (capsum pre) os oe cx cx1); try done; lia.
    - destruct Hrun as (Hwf & Hlive & _). by eapply overlap_counted; [done|apply Hwf|..]. }
  destruct (if os <? oe then apply_overlap mode file u (lenZ pre) s (capsum pre) os oe cx
    else Some (cx, OK)) as [[cx1 st1]|]; [|done].
  destruct (ok st1) eqn:E1; simpl; [|by intros [= _ ->]]. apply ok_OK in E1. subst st1.
  destruct (Hstep cx1 eq_refl) as [Hrun1 Hc1]. rewrite Z.add_assoc. fold t1. zcase.
  - intros [= <-]. rewrite seg_touches_done by lia. by rewrite Z.add_0_r.
  - specialize (IH (pre ++ [s]) cx1 cx' t1 Hu). rewrite <- app_assoc in IH. specialize (IH Hsegs Hrun1 Hc1).
    rewrite lenZ_app, capsum_app in IH. simpl in IH. rewrite Z.add_0_r in IH. exact IH.
Qed.

Lemma updates_counted mode us : forall cx cx' t,
  Forall (update_ok file) us -> run_ok segs mode cx -> counted mode cx t ->
  apply_updates mode file segs us cx = Some (cx', OK) ->
  run_ok segs mode cx' /\ counted mode cx' (fold_left (fun n u => n + seg_touches u 0 segs) us t).
Proof.
  induction us as [|u us IH]; intros cx cx' t Hus Hrun Hc; simpl; [by intros [= <-]|].
  apply Forall_cons in Hus as [Hu Hus].
  destruct (apply_segments mode file u 0 0 segs cx) as [[cx1 st1]|] eqn:E; [|done].
  destruct (ok st1) eqn:E1; simpl; [|by intros [= _ ->]]. apply ok_OK in E1. subst st1.
  destruct (segments_counted mode u segs [] cx cx1 t Hu eq_refl Hrun Hc E) as [Hrun1 Hc1]. by apply IH.
Qed.

Lemma flush_counted bufs : forall (d d' : D) c c' m,
  bufs_wf segs bufs -> all_live bufs -> flush_counts c m -> flush_buffers bufs d c = Some (d', c', OK) ->
  flush_counts c' (m + lenZ bufs) /\
  (forall t n, merged_counts c t n -> merged_counts c' t n).
Proof.
  intros d d' c c' m Hwf Hlive.
  assert (forall i b, (i, b) ∈ bufs -> buf_dirty b = true /\ lenZ (buf_data b) = top_bytes) as Hall.
  { intros i b Hin. apply elem_of_find in Hin; [|apply Hwf]. destruct (Hlive i b Hin) as [Hl Hd].
    destruct (bw_loaded _ _ Hwf i b Hin Hl) as (base & _ & Hty & Hlen). split; [done|].
    rewrite Hlen. by rewrite <- (top_cap _ Hty). }
  clear Hwf Hlive. revert d c m. induction bufs as [|[i b] bufs IH]; intros d c m Hf; simpl.
  { intros [= <- <-]. by rewrite lenZ_nil, Z.add_0_r. }
  destruct (Hall i b) as [-> Hlen]; [left|]. simpl.
  destruct (dev_write _ _ _) as [[d1 st1]|]; [|done]. destruct (ok st1) eqn:E1; simpl; [|by intros [= _ _ ->]].
  rewrite lenZ_cons, Hlen. intros E. destruct Hf as (H1 & H2 & H3).
  destruct (IH) with (d := d1) (c := count_flush top_bytes c) (m := m + 1) as [Hfl Hmc]; try done.
  - intros j b' Hin. apply (Hall j b'). by right.
  - unfold flush_counts. simpl. rewrite H1, H2, H3, !u64_add_l. split_and!; f_equal; lia.
  - replace (m + (1 + lenZ bufs)) with (m + 1 + lenZ bufs) by lia. split; [done|]. intros t n Hm. by apply Hmc.
Qed.
End Counters.

(** The counters after a successful payload step that started from zero. *)
Lemma ApplyPending_counted {D : Type} `{BDL : BlockDeviceLaws D} mode state (dev : D) cx' :
  good_segments (tracks state) -> lenZ (data state) <= capsum (tracks state) ->
  Forall (update_ok (data state)) (pending_updates state) ->
  ApplyPendingUpdatesLocked mode state (MkCtx dev zero_counters []) = Some (cx', OK) ->
  (mode = NAIVE -> naive_counts (cx_counters cx') (top_touches (tracks state) (pending_updates state))) /\
  (mode = MERGED ->
     merged_counts (cx_counters cx') (top_touches (tracks state) (pending_updates state)) (lenZ (cx_buffers cx')) /\
     flush_counts (cx_counters cx') (lenZ (cx_buffers cx')) /\
     lenZ (cx_buffers cx') <= top_touches (tracks state) (pending_updates state)).
Proof.
  intros Hgood Hfit Hus. unfold ApplyPendingUpdatesLocked.
  pose proof (good_capsum _ Hgood). rewrite (total_capacity_eq _ Hgood) by (done || lia).
  replace (_ >? _) with false by lia.
  destruct (apply_updates mode _ _ _ _) as [[cx1 st1]|] eqn:E; [|done].
  destruct (ok st1) eqn:E1; simpl; [|by intros [= _ ->]]. apply ok_OK in E1. subst st1.
  assert (run_ok (tracks state) mode (MkCtx dev zero_counters [])) as Hrun0.
  { split; [split; [done|by intros i b Hb..]|]. split; [by intros i b Hb|done]. }
  assert (counted mode (MkCtx dev zero_counters []) 0) as Hc0.
  { destruct mode; simpl; unfold naive_counts, merged_counts, flush_counts; simpl; rewrite ?u64_small by lia; done. }
  destruct (updates_counted _ _ Hgood Hfit mode _ _ cx1 0 Hus Hrun0 Hc0 E) as [(Hwf & Hlive & _) Hc1].
  destruct mode; simpl in Hc1.
  - intros [= <-]. by split.
  - destruct (flush_buffers _ _ _) as [[[d2 c2] st2]|] eqn:Ef; [|done]. intros [= <- ->]. split; [done|]. intros _.
    destruct Hc1 as (Hm & Hf & Hle).
    destruct (flush_counted _ _ _ _ _ _ 0 Hwf Hlive Hf Ef) as [Hf' Hm']. simpl. split; [by apply Hm'|done].
Qed.
