(* ===== verification/Kvimr.v ===== *)
(** The KVIMR middleware ([class KVIMR], [db/kvimr.cc]).

    Every public operation takes the object's mutex for its whole body, so an
    execution is a sequence of the operations below.  Operations that run a
    device or file loop return [option]: [None] is a loop out of fuel, which the
    laws of the device and of the metadata protocol exclude. *)

From S2P Require Import Prelude StdMap TrackAllocator BlockDevice MetaFs KvimrState Snapshot Rmw.
Import TrackAllocator.

(** [Status::NotFound(fname)] and [Status::NotFound(fname, what)]. *)
Definition string_of (s : bytes) : string :=
  fold_right (fun c r => String (Ascii.ascii_of_N (Z.to_N c)) r) EmptyString s.
Definition not_found (fname : bytes) : Status := NotFound (string_of fname).
Definition not_found2 (fname : bytes) (what : string) : Status :=
  NotFound (string_of fname ++ ": " ++ what).

Section Kvimr.
Context {D : Type} `{BD : BlockDevice D}.
Implicit Types k : KVIMR D.

(** The singleton [KVIMR::Get()] right after construction; [KVIMRTrackAllocator]
    defaults to one zone. *)
Definition Construct (backend : D) (fs : MetaFs.Fs) : KVIMR D :=
  MkKVIMR [] [] (Reset 1) backend false 0 [] [] zero_counters NAIVE fs.

(** ** Operations on the in-memory state *)

Definition RegisterSSTable (fname : bytes) (number lv largest : Z) k : KVIMR D :=
  let state := m_get new_state fname (files_ k) in
  let k := put_file fname (set_ids number lv largest state) k in
  set_s2tmap (m_insert number (m_get [] number (s2tmap_ k)) (s2tmap_ k)) k.

Definition BeginWrite (fname : bytes) k : KVIMR D :=
  match m_find fname (files_ k) with
  | None => k
  | Some state =>
      let k :=
        if negb (bool_decide (tracks state = [])) then
          set_s2tmap (m_erase (file_number state) (s2tmap_ k))
            (set_allocator (Release (file_number state) (allocator_ k)).1 k)
        else k in
      put_file fname
        (MkState (file_number state) (level state) (effective_largest_level state) false [] [] [] []) k
  end.

Definition kvwrite (fname : bytes) (slice : bytes) k : KVIMR D * Status :=
  let state := m_get new_state fname (files_ k) in
  let offset := lenZ (data state) in
  let pending := if negb (lenZ slice =? 0)
                 then pending_updates state ++ [MkPending offset slice]
                 else pending_updates state in
  (put_file fname (set_synced false (set_pending pending (set_data (data state ++ slice) state))) k, OK).

(** The result slice is [None] when [*result] is left alone. *)
Definition kvread (fname : bytes) (offset n : Z) k : Status * option bytes :=
  match m_find fname (files_ k) with
  | None => (not_found2 fname "KVIMR SSTable not found", None)
  | Some state =>
      if offset >? lenZ (data state) then (OK, Some [])
      else
        let available := lenZ (data state) - offset in
        (OK, Some (slice (data state) offset (Z.min n available)))
  end.

Definition HasSSTable (fname : bytes) k : bool :=
  match m_find fname (files_ k) with Some _ => true | None => false end.

Definition GetSSTableSize (fname : bytes) k : Status * option Z :=
  match m_find fname (files_ k) with
  | None => (not_found fname, None)
  | Some state => (OK, Some (lenZ (data state)))
  end.

(** Parent directory and base name of a path. *)
Definition parent_of (fname : bytes) : bytes :=
  match find_last_sep fname 0 with Some i => take (Z.to_nat i) fname | None => [] end.
Definition base_of (fname : bytes) : bytes :=
  match find_last_sep fname 0 with Some i => drop (Z.to_nat (i + 1)) fname | None => fname end.

Definition ListSSTables (dir : bytes) k : list bytes :=
  map (fun e => base_of e.1) (filter (fun e => parent_of e.1 = dir) (files_ k)).

Definition SSTableCount k : Z := lenZ (files_ k).
Definition S2TMapSize k : Z := lenZ (s2tmap_ k).

Definition count_type (ty : KVIMRTrackType) (segments : list KVIMRTrackSegment) : Z :=
  lenZ (filter (fun s => seg_type s = ty) segments).
Definition GetTrackSegmentCounts k : Z * Z :=
  fold_left (fun acc (e : bytes * SSTableState) =>
      (acc.1 + count_type TOP (tracks e.2), acc.2 + count_type BOTTOM (tracks e.2)))
    (files_ k) (0, 0).

Definition ConfigureTrackAllocator (zones : Z) k : KVIMR D :=
  set_s2tmap []
    (set_files (map (fun e => (e.1, set_tracks [] e.2)) (files_ k))
       (set_allocator (Reset zones) k)).

Definition GetRMWCounters k : RMWCounters := rmw_counters_ k.
Definition ResetRMWCounters k : KVIMR D := set_counters zero_counters k.
Definition SetRMWMode (m : RMWMode) k : KVIMR D := set_mode m k.
Definition GetRMWMode k : RMWMode := rmw_mode_ k.

(** ** Persisting *)

(** [if (state.tracks.empty()) ... s2tmap_[file_number] = tracks], which
    [kvsync] and [PersistPayloadLocked] share. *)
Definition allocate_tracks (fname : bytes) (state : SSTableState) k
  : option (KVIMR D * SSTableState * Status) :=
  if negb (bool_decide (tracks state = [])) then Some (k, state, OK)
  else
    match Allocate (file_number state) (lenZ (data state)) (level state)
            (effective_largest_level state) (allocator_ k) with
    | None => None
    | Some (a, segs, st) =>
        let state := set_tracks segs state in
        let k := put_file fname state (set_allocator a k) in
        if negb (ok st) then Some (k, state, st)
        else Some (set_s2tmap (m_insert (file_number state) segs (s2tmap_ k)) k, state, OK)
    end.

(** [ApplyPendingUpdatesLocked] on [files_[fname]]. *)
Definition apply_pending (fname : bytes) (state : SSTableState) k
  : option (KVIMR D * SSTableState * Status) :=
  match ApplyPendingUpdatesLocked (rmw_mode_ k) state
          (MkCtx (backend_ k) (rmw_counters_ k) (merged_buffers state)) with
  | None => None
  | Some (cx, st) =>
      let state := set_buffers (cx_buffers cx) state in
      Some (put_file fname state (set_counters (cx_counters cx) (set_backend (cx_dev cx) k)), state, st)
  end.

Definition PersistPayloadLocked (fname : bytes) (state : SSTableState) k
  : option (KVIMR D * SSTableState * Status) :=
  match allocate_tracks fname state k with
  | None => None
  | Some (k, state, st) =>
      if negb (ok st) then Some (k, state, st) else apply_pending fname state k
  end.

Definition PersistSnapshotLocked k : option (KVIMR D * Status) :=
  match MetaFs.write_metadata (fs_ k) (encode_snapshot (dbname_ k) (configured_zones_ k) (files_ k)) with
  | None => None
  | Some (fs, st) => Some (set_fs fs k, st)
  end.

(** [backend_.Sync()] *)
Definition backend_sync k : KVIMR D * Status :=
  let (dev, st) := dev_sync (backend_ k) in (set_backend dev k, st).

(** The tail of [kvsync] once the payload is written and synced. *)
Definition commit_sync (fname : bytes) (state : SSTableState) k : option (KVIMR D * Status) :=
  let k := put_file fname (set_synced true state) k in
  match PersistSnapshotLocked k with
  | None => None
  | Some (k, st) =>
      if negb (ok st) then Some (put_file fname (set_synced false state) k, st)
      else Some (put_file fname (set_buffers [] (set_pending [] (set_synced true state))) k, st)
  end.

Definition kvsync (fname : bytes) k : option (KVIMR D * Status) :=
  match m_find fname (files_ k) with
  | None => Some (k, not_found fname)
  | Some state =>
      if bool_decide (data state = []) && bool_decide (pending_updates state = []) then
        let k := put_file fname (set_synced true state) k in
        if negb (persistence_enabled_ k) then Some (k, OK)
        else
          let (k, st) := backend_sync k in
          if negb (ok st) then Some (k, st)
          else
            match PersistSnapshotLocked k with
            | None => None
            | Some (k, st) =>
                Some (if negb (ok st) then put_file fname (set_synced false state) k else k, st)
            end
      else
        match allocate_tracks fname state k with
        | None => None
        | Some (k, state, st) =>
            if negb (ok st) then Some (k, st)
            else if persistence_enabled_ k then
              match PersistPayloadLocked fname state k with
              | None => None
              | Some (k, state, st) =>
                  if negb (ok st) then Some (k, st)
                  else
                    let (k, st) := backend_sync k in
                    if negb (ok st) then Some (k, st) else commit_sync fname state k
              end
            else Some (put_file fname (set_synced true state) k, OK)
        end
  end.

(** [PersistPayloadLocked] and [Sync] of a file with pending updates, before
    [kvunlink] removes it. *)
Definition settle (fname : bytes) (state : SSTableState) k
  : option (KVIMR D * SSTableState * Status) :=
  if persistence_enabled_ k && negb (bool_decide (pending_updates state = [])) then
    match PersistPayloadLocked fname state k with
    | None => None
    | Some (k, state, st) =>
        if negb (ok st) then Some (k, state, st)
        else let (k, st) := backend_sync k in Some (k, state, st)
    end
  else Some (k, state, OK).

Definition remove_file (fname : bytes) (state : SSTableState) k : KVIMR D :=
  set_files (m_erase fname (files_ k))
    (set_s2tmap (m_erase (file_number state) (s2tmap_ k))
       (set_allocator (Release (file_number state) (allocator_ k)).1 k)).

(** [persistence_enabled_ ? PersistSnapshotLocked() : Status::OK()] *)
Definition finish_unlink k : option (KVIMR D * Status) :=
  if persistence_enabled_ k then PersistSnapshotLocked k else Some (k, OK).

Definition kvunlink (fname : bytes) k : option (KVIMR D * Status) :=
  match m_find fname (files_ k) with
  | None => finish_unlink (set_s2tmap (m_erase (FileNumber fname) (s2tmap_ k)) k)
  | Some state =>
      match settle fname state k with
      | None => None
      | Some (k, state, st) =>
          if negb (ok st) then Some (k, st) else finish_unlink (remove_file fname state k)
      end
  end.

(** ** Loading *)

(** The body of the entry loop of [LoadSnapshotLocked]; [bs] is what is left. *)
Definition load_entry (bs : bytes) k : option (KVIMR D * Status * bytes) :=
  match decode_entry bs with
  | Err st => Some (k, st, bs)
  | Ret (state, relative, bs) =>
      let fname := dbname_ k ++ [slash] ++ relative in
      let '(a, st) :=
        if negb (bool_decide (tracks state = []))
        then Restore (file_number state) (tracks state) (allocator_ k)
        else (allocator_ k, OK) in
      let k := set_allocator a k in
      if negb (ok st) then Some (k, st, bs)
      else
        let k := put_file fname state
                   (set_s2tmap (m_insert (file_number state) (tracks state) (s2tmap_ k)) k) in
        match RestorePayloadLocked state (backend_ k) with
        | None => None
        | Some (dev, st, state) => Some (put_file fname state (set_backend dev k), st, bs)
        end
  end.

Fixpoint load_entries (count : nat) (bs : bytes) k : option (KVIMR D * Status) :=
  match count with
  | O => Some (k, OK)
  | S count =>
      match load_entry bs k with
      | None => None
      | Some (k, st, bs) => if negb (ok st) then Some (k, st) else load_entries count bs k
      end
  end.

Definition LoadSnapshotLocked k : option (KVIMR D * Status) :=
  match MetaFs.read_metadata (fs_ k) with
  | None => None
  | Some (fs, r) =>
      let k := set_fs fs k in
      match r with
      | MetaFs.ReadNoEnt => Some (k, OK)
      | MetaFs.ReadError msg => Some (k, IOError msg)
      | MetaFs.ReadData bs =>
          match decode_header (configured_zones_ k) bs with
          | Err st => Some (k, st)
          | Ret (count, bs) => load_entries (Z.to_nat count) bs k
          end
      end
  end.

(** [fs] is the file system under the directory [dbname]. *)
Definition InitializePersistence (dbname : bytes) (zones : Z) (device_path : bytes)
    (fs : MetaFs.Fs) k : option (KVIMR D * Status) :=
  if zones =? 0 then Some (k, InvalidArgument "KVIMR zone count must be nonzero")
  else
    let backend := if persistence_enabled_ k then (dev_close (backend_ k)).1 else backend_ k in
    let (backend, st) := dev_open backend device_path in
    let opened (enabled : bool) :=
      MkKVIMR [] [] (Reset zones) backend enabled zones dbname (dbname ++ str "/KVIMR-META")
        (rmw_counters_ k) (rmw_mode_ k) fs in
    if negb (ok st) then Some (opened (persistence_enabled_ k), st)
    else LoadSnapshotLocked (opened true).
End Kvimr.
