(* ===== verification/KvimrInv.v ===== *)
(** The invariant of the KVIMR middleware and its preservation by the steps the
    public operations are made of.

    [table_ok] relates the file table to the allocator: numbers are unique and a
    file's segments are exactly the tracks its number owns.  [payload_ok] says
    that every byte of a file is durable on its tracks or still pending.  The
    ghost map [G] gives, for each file whose last [kvsync] succeeded, the content
    that was committed; [inv] says it is durable and that every metadata file a
    crash can leave leads back to it. *)

From S2P Require Import Prelude StdMap TrackAllocator BlockDevice MetaFs KvimrState Snapshot Rmw RmwSpec Kvimr.
Import TrackAllocator.

(** ** The file table and the allocator *)

(** [segs] are exactly the tracks that file number [n] owns. *)
Definition owned (a : KVIMRTrackAllocator) (n : Z) (segs : list KVIMRTrackSegment) : Prop :=
  exists trs, segs = map segment_of trs /\ NoDup trs /\
    forall tr, tr ∈ trs <-> owner a tr = Some n /\ n <> 0.

(** A path the snapshot can store: inside the database directory. *)
Definition path_ok (dbname fname : bytes) : Prop :=
  exists rel, fname = dbname ++ [slash] ++ rel /\ (forall c s, rel = c :: s -> is_sep c = false) /\
    lenZ rel < 2 ^ 32.

Record entry_ok (dbname : bytes) (a : KVIMRTrackAllocator) (fname : bytes) (st : SSTableState) : Prop := {
  eo_path : path_ok dbname fname;
  eo_number : 0 <= file_number st < 2 ^ 64;
  eo_level : - 2 ^ 31 <= level st < 2 ^ 31;
  eo_largest : - 2 ^ 31 <= effective_largest_level st < 2 ^ 31;
  eo_size : lenZ (data st) < 2 ^ 63;
  eo_tracks : owned a (file_number st) (tracks st);
}.

Record table_ok (dbname : bytes) (a : KVIMRTrackAllocator) (files : stdmap bytes SSTableState) : Prop := {
  to_sorted : sorted files;
  to_count : lenZ files < 2 ^ 32;
  to_wf : wf a;
  to_zones : zones_ a < 2 ^ 25;
  to_unique : forall f1 f2 s1 s2, m_find f1 files = Some s1 -> m_find f2 files = Some s2 ->
    file_number s1 = file_number s2 -> file_number s1 <> 0 -> f1 = f2;
  to_entry : forall f st, m_find f files = Some st -> entry_ok dbname a f st;
}.

(** Every owner in the allocator is a live file. *)
Definition no_leak (a : KVIMRTrackAllocator) (files : stdmap bytes SSTableState) : Prop :=
  forall tr n, owner a tr = Some n -> n <> 0 -> exists f st, m_find f files = Some st /\ file_number st = n.

(** Tracks of a device are no more than two per group. *)
Lemma tracks_bounded (trs : list track) n :
  0 <= n -> NoDup trs -> (forall tr, tr ∈ trs -> 0 <= tr.2 < n) -> lenZ trs <= 2 * n.
Proof.
  intros Hn Hnd Hin.
  set (all := map (pair TOP) (map Z.of_nat (seq 0 (Z.to_nat n))) ++
              map (pair BOTTOM) (map Z.of_nat (seq 0 (Z.to_nat n)))).
  assert (length trs <= length all)%nat as Hle.
  { apply NoDup_incl_length; [by apply NoDup_ListNoDup|]. intros [ty i] Hi%list_elem_of_In.
    specialize (Hin _ Hi). simpl in Hin. unfold all. apply in_app_iff.
    assert (In i (map Z.of_nat (seq 0 (Z.to_nat n)))).
    { apply in_map_iff. exists (Z.to_nat i). split; [lia|]. apply in_seq. lia. }
    destruct ty; [left|right]; by apply in_map. }
  unfold all in Hle. rewrite length_app, !length_map, length_seq in Hle. unfold lenZ. lia.
Qed.

Lemma owned_good a n segs : wf a -> owned a n segs -> good_segments segs.
Proof.
  intros Hwf (trs & -> & Hnd & Ho). pose proof (wf_zones a Hwf).
  assert (forall tr, tr ∈ trs -> 0 <= tr.2 < zones_ a * 64) as Hr.
  { intros tr [Htr _]%Ho. by eapply owner_index. }
  split.
  - pose proof (tracks_bounded trs (zones_ a * 64) ltac:(lia) Hnd Hr). unfold lenZ in *. rewrite length_map. lia.
  - exists trs. split_and!; try done. apply Forall_forall. intros tr Htr. specialize (Hr tr Htr). lia.
Qed.

Lemma owned_count a n segs : wf a -> zones_ a < 2 ^ 25 -> owned a n segs -> lenZ segs < 2 ^ 32.
Proof.
  intros Hwf Hz (trs & -> & Hnd & Ho).
  assert (exists m, 0 <= m /\ m <= 2 ^ 31 - 1 /\ forall tr, tr ∈ trs -> 0 <= tr.2 < m) as (m & Hm0 & Hm & Hr).
  { exists (zones_ a * 64). pose proof (wf_zones a Hwf). split_and!; [lia|lia|].
    intros tr [Htr _]%Ho. by eapply owner_index. }
  pose proof (tracks_bounded trs m Hm0 Hnd Hr). unfold lenZ in *. rewrite length_map. lia.
Qed.

Lemma owned_typed a n segs : wf a -> owned a n segs -> Forall segment_typed segs.
Proof.
  intros Hwf (trs & -> & _ & Ho). apply Forall_fmap, Forall_forall. intros tr [Htr _]%Ho.
  pose proof (owner_index _ Hwf _ _ Htr). pose proof (wf_zones a Hwf).
  pose proof (track_sectors_pos tr.1). unfold segment_typed, compose. cbv beta.
  assert (0 <= tier_offset tr.1 <= 3648) by (destruct tr.1; vm_compute; done).
  rewrite segment_of_length, segment_of_start by lia. split_and!; try lia; simpl; apply u32_range.
Qed.

Lemma owned_zero a segs : owned a 0 segs -> segs = [].
Proof.
  intros (trs & -> & _ & Ho). destruct trs as [|tr trs]; [done|].
  destruct (proj1 (Ho tr)) as [_ ?]; [left|done].
Qed.

Lemma located_nil x i s b : ~ located [] x i s b.
Proof. intros [[Hn _] _]. apply nthZ_Some in Hn. unfold lenZ in Hn; simpl in Hn. lia. Qed.

Lemma owned_nil a n : (forall tr, owner a tr = Some n -> n = 0) -> owned a n [].
Proof.
  intros H. exists []. split; [done|]. split; [constructor|]. intros tr. rewrite elem_of_nil.
  split; [done|]. intros [Ho Hn]. by apply Hn, (H tr).
Qed.

Lemma owned_free a n : owned a n [] -> n <> 0 -> forall tr, owner a tr <> Some n.
Proof.
  intros (trs & E & _ & Ho) Hn tr Htr. symmetry in E. apply map_eq_nil in E. subst.
  destruct (Ho tr) as [_ H]. by apply elem_of_nil in H.
Qed.

(** Giving the free tracks [trs] to [id], which owned none. *)
Lemma owned_claimed id trs a a' n segs :
  claimed id trs a a' -> id <> 0 -> owned a id [] -> owned a n segs ->
  owned a' n (if decide (n = id) then map segment_of trs else segs).
Proof.
  intros [Hnd Hfree Hown Hoth] Hid Hnone Ho. case_decide as Hn.
  - subst n. exists trs. split; [done|]. split; [done|]. intros tr. split; [auto|].
    intros [Htr _]. destruct (decide (tr ∈ trs)) as [|Hni]; [done|]. exfalso.
    rewrite (Hoth tr Hni) in Htr. by apply (owned_free _ _ Hnone Hid tr).
  - destruct Ho as (trs' & -> & Hnd' & Ho). exists trs'. split; [done|]. split; [done|]. intros tr. rewrite Ho.
    destruct (decide (tr ∈ trs)) as [Hi|Hni]; [|by rewrite Hoth].
    rewrite (Hown tr Hi), (Hfree tr Hi). split; intros [[= ?] ?]; congruence.
Qed.

(** Releasing [id]. *)
Lemma owned_release id a n segs :
  owned a n segs -> owned (Release id a).1 n (if decide (n = id) then [] else segs).
Proof.
  intros Ho. case_decide as Hn.
  - subst n. apply owned_nil. intros tr. destruct (decide (id = 0)) as [->|Hid]; [done|].
    rewrite owner_Release by done. destruct (owner a tr) as [o|]; simpl; [|done]. zcase; intros [= ?]; lia.
  - destruct (decide (id = 0)) as [->|Hid]; [done|].
    destruct Ho as (trs & -> & Hnd & Ho). exists trs. split; [done|]. split; [done|]. intros tr. rewrite Ho.
    rewrite owner_Release by done. destruct (owner a tr) as [o|]; simpl; [|done].
    zcase; [|done]. subst. split; intros [[= ?] ?]; lia.
Qed.

(** Segments of different numbers never meet on the device. *)
Lemma owned_apart a n n' segs segs' i s b x :
  wf a -> owned a n segs -> owned a n' segs' -> n <> n' ->
  located segs' x i s b -> outside_segs segs (addr s b x).
Proof.
  intros Hwf Ho Ho' Hne [[Hs' _] Hx] j s0 b0 [Hs0 _].
  pose proof (owned_good _ _ _ Hwf Ho) as Hg. pose proof (owned_good _ _ _ Hwf Ho') as Hg'.
  pose proof (good_address _ Hg _ (nthZ_In _ _ _ Hs0)) as [Ea _].
  pose proof (good_address _ Hg' _ (nthZ_In _ _ _ Hs')) as [Ea' _].
  destruct Ho as (trs & -> & _ & Ho). destruct Ho' as (trs' & -> & _ & Ho').
  apply nthZ_In in Hs0. apply nthZ_In in Hs'.
  apply list_elem_of_fmap in Hs0 as (t0 & -> & H0). apply list_elem_of_fmap in Hs' as (t1 & -> & H1).
  apply Ho in H0 as [H0 _]. apply Ho' in H1 as [H1 _].
  pose proof (owner_index _ Hwf _ _ H0). pose proof (owner_index _ Hwf _ _ H1). pose proof (wf_zones a Hwf).
  unfold outside, addr, cap in *. rewrite segment_of_type in *.
  destruct (Z.lt_ge_cases (segment_address (segment_of t1) + (x - b)) (segment_address (segment_of t0))); [by left|].
  destruct (Z.le_gt_cases (segment_address (segment_of t0) + 512 * track_sectors t0.1)
              (segment_address (segment_of t1) + (x - b))); [by right|]. exfalso.
  assert (t0 = t1) as ->; [|congruence].
  apply (segments_disjoint_at t0 t1 ((segment_address (segment_of t1) + (x - b)) / 512)); [lia..| |];
    unfold in_segment; rewrite segment_of_length; split;
    (apply Z.div_le_lower_bound || apply Z.div_lt_upper_bound); lia.
Qed.

(** ** Updating the table *)

Section Table.
Variables (dbname : bytes) (a : KVIMRTrackAllocator) (files : stdmap bytes SSTableState).
Hypothesis Htab : table_ok dbname a files.

(** No other file has the number of [st]. *)
Definition fresh_number (f : bytes) (st : SSTableState) : Prop :=
  forall g sg, m_find g files = Some sg -> file_number sg = file_number st ->
    file_number st <> 0 -> g = f.

Lemma fresh_same f st st' : m_find f files = Some st -> file_number st' = file_number st -> fresh_number f st'.
Proof.
  intros Hf Hn g sg Hg Heq Hnz. apply (to_unique _ _ _ Htab g f sg st); congruence.
Qed.

(** The table after the allocator moved to [a'] and file [f] to [st]. *)
Lemma table_insert a' f st :
  wf a' -> zones_ a' = zones_ a -> fresh_number f st -> entry_ok dbname a' f st ->
  (is_Some (m_find f files) \/ lenZ files + 1 < 2 ^ 32) ->
  (forall g sg, m_find g files = Some sg -> g <> f -> owned a' (file_number sg) (tracks sg)) ->
  table_ok dbname a' (m_insert f st files).
Proof.
  intros Hwf Hz Hfresh Hst Hcount Hoth. destruct Htab as [Hs Hc _ Hzz Hu He]. split.
  - by apply insert_sorted.
  - destruct Hcount as [[w Hw]|Hlt]; [by erewrite lenZ_insert|]. pose proof (lenZ_insert_le f st files). lia.
  - done.
  - by rewrite Hz.
  - intros f1 f2 s1 s2. rewrite !find_insert. repeat case_decide; subst; intros; simplify_eq; try done; eauto.
    + symmetry. eauto.
    + apply (Hfresh f1 s1); congruence.
  - intros g sg. rewrite find_insert. case_decide; subst; [by intros [= <-]|]. intros Hg.
    destruct (He g sg Hg). split; eauto.
Qed.

Lemma table_put f st st0 :
  m_find f files = Some st0 -> file_number st = file_number st0 -> entry_ok dbname a f st ->
  table_ok dbname a (m_insert f st files).
Proof.
  intros Hf Hn He. apply table_insert; eauto using fresh_same.
  - apply Htab.
  - intros g sg Hg _. exact (eo_tracks _ _ _ _ (to_entry _ _ _ Htab g sg Hg)).
Qed.

Lemma table_erase f st : m_find f files = Some st ->
  table_ok dbname (Release (file_number st) a).1 (m_erase f files).
Proof.
  intros Hf. destruct Htab as [Hs Hc Hw Hz Hu He]. split.
  - by apply erase_sorted.
  - pose proof (lenZ_erase_le f files). lia.
  - by apply wf_Release.
  - by rewrite zones_Release.
  - intros f1 f2 s1 s2. rewrite !find_erase. repeat case_decide; try done. eauto.
  - intros g sg. rewrite find_erase. case_decide as Hg; [done|]. intros Hsg.
    destruct (He g sg Hsg) as [? ? ? ? ? Ho]. split; try done.
    apply (owned_release (file_number st)) in Ho. case_decide as Hn; [|done].
    destruct (decide (file_number sg = 0)) as [H0|H0].
    + destruct (He g sg Hsg) as [_ _ _ _ _ Ho']. rewrite H0 in Ho'. by rewrite (owned_zero _ _ Ho').
    + exfalso. apply Hg. symmetry. by apply (Hu g f sg st).
Qed.

Lemma no_leak_insert f st :
  no_leak a files -> (forall st0, m_find f files = Some st0 -> file_number st = file_number st0) ->
  no_leak a (m_insert f st files).
Proof.
  intros Hnl Hn tr n Htr Hnz. destruct (Hnl tr n Htr Hnz) as (g & sg & Hg & E).
  destruct (decide (f = g)) as [<-|Hne].
  - exists f, st. rewrite find_insert_eq. rewrite (Hn sg Hg). done.
  - exists g, sg. by rewrite find_insert_ne.
Qed.

Lemma no_leak_claimed id trs a' f st :
  no_leak a files -> claimed id trs a a' -> m_find f files = Some st -> file_number st = id ->
  no_leak a' files.
Proof.
  intros Hnl [_ _ Hown Hoth] Hf Hid tr n Htr Hn. destruct (decide (tr ∈ trs)) as [Hi|Hi].
  - rewrite (Hown tr Hi) in Htr. injection Htr as <-. by exists f, st.
  - rewrite (Hoth tr Hi) in Htr. eauto.
Qed.

Lemma no_leak_release n : no_leak a files -> no_leak (Release n a).1 files.
Proof.
  intros Hnl tr m. destruct (decide (n = 0)) as [->|Hn]; [apply Hnl|].
  rewrite owner_Release by done. destruct (owner a tr) as [o|] eqn:E; simpl; [|done].
  zcase; intros [= <-]; [done|]. by apply Hnl in E.
Qed.

Lemma no_leak_erase f st : no_leak a files -> m_find f files = Some st ->
  no_leak (Release (file_number st) a).1 (m_erase f files).
Proof.
  intros Hnl Hf tr m Htr Hm. destruct (no_leak_release (file_number st) Hnl tr m Htr Hm) as (g & sg & Hg & E).
  destruct (decide (f = g)) as [<-|Hne]; [|exists g, sg; by rewrite find_erase_ne].
  exfalso. assert (sg = st) as -> by congruence. subst m.
  rewrite owner_Release in Htr by done. destruct (owner a tr); simpl in Htr; [|done].
  zcase_in Htr; injection Htr; lia.
Qed.
End Table.

(** ** The invariant *)

Section Inv.
Context {D : Type} `{BDL : BlockDeviceLaws D}.
Implicit Types (k : KVIMR D) (dev : D) (G : stdmap bytes bytes).

(** Byte [x] of [st] is durable on its tracks and no track buffer contradicts it. *)
Definition safe dev (st : SSTableState) (x : Z) : Prop :=
  x < capsum (tracks st) /\
  persisted (tracks st) (data st) (MkCtx dev zero_counters (merged_buffers st)) x.

Record payload_ok dev (st : SSTableState) : Prop := {
  po_pending : Forall (update_ok (data st)) (pending_updates st);
  po_bufs : bufs_wf (tracks st) (merged_buffers st);
  po_bytes : forall x, 0 <= x < lenZ (data st) -> covers (pending_updates st) x \/ safe dev st x;
}.

Definition committed G k : Prop :=
  forall f c, m_find f G = Some c -> exists st, m_find f (files_ k) = Some st /\
    take (length c) (data st) = c /\ forall x, 0 <= x < lenZ c -> safe (backend_ k) st x.

(** A file table that fits the device. *)
Definition snapshot_ok (dbname : bytes) (zones : Z) (files0 : stdmap bytes SSTableState) : Prop :=
  exists a0, table_ok dbname a0 files0 /\ zones_ a0 = zones.

(** Metadata [m] leads back to the committed contents. *)
Definition recoverable G k (m : option MetaFs.file) : Prop :=
  match m with
  | None => forall f, m_find f G = None
  | Some file => exists files0,
      MetaFs.file_data file = encode_snapshot (dbname_ k) (configured_zones_ k) files0 /\
      snapshot_ok (dbname_ k) (configured_zones_ k) files0 /\
      forall f c, m_find f G = Some c -> exists st st0,
        m_find f (files_ k) = Some st /\ m_find f files0 = Some st0 /\
        (lenZ c = 0 \/ tracks st0 = tracks st) /\ lenZ c <= lenZ (data st0)
  end.

Record inv G k : Prop := {
  inv_table : table_ok (dbname_ k) (allocator_ k) (files_ k);
  inv_leak : no_leak (allocator_ k) (files_ k);
  inv_enabled : persistence_enabled_ k = true;
  inv_zones : zones_ (allocator_ k) = configured_zones_ k /\ configured_zones_ k <> 0;
  inv_payload : forall f st, m_find f (files_ k) = Some st -> payload_ok (backend_ k) st;
  inv_committed : committed G k;
  inv_meta : forall m, MetaFs.after_crash (fs_ k) m -> recoverable G k m;
  inv_fs : MetaFs.FsTolerated ∉ MetaFs.fs_script (fs_ k);
}.

(** What survives of file [st], with committed content [c], in [st']. *)
Definition keeps dev dev' (c : bytes) (st st' : SSTableState) : Prop :=
  (lenZ c = 0 \/ tracks st' = tracks st) /\ take (length c) (data st') = take (length c) (data st) /\
  forall x, 0 <= x < lenZ c -> safe dev st x -> safe dev' st' x.

(** The general preservation argument: the environment is unchanged and every
    file that stays committed keeps its content. *)
Lemma inv_update G G' k k' :
  inv G k -> dbname_ k' = dbname_ k -> configured_zones_ k' = configured_zones_ k ->
  persistence_enabled_ k' = persistence_enabled_ k -> fs_ k' = fs_ k ->
  zones_ (allocator_ k') = zones_ (allocator_ k) ->
  table_ok (dbname_ k) (allocator_ k') (files_ k') -> no_leak (allocator_ k') (files_ k') ->
  (forall f st, m_find f (files_ k') = Some st -> payload_ok (backend_ k') st) ->
  (forall f c, m_find f G' = Some c -> m_find f G = Some c) ->
  (forall f c st, m_find f G' = Some c -> m_find f (files_ k) = Some st ->
     exists st', m_find f (files_ k') = Some st' /\ keeps (backend_ k) (backend_ k') c st st') ->
  inv G' k'.
Proof.
  intros [Ht Hl He Hz Hp Hc Hm Hf] Edb Ezn Een Efs Eza Ht' Hl' Hp' HG Hk.
  split; rewrite ?Edb, ?Een, ?Efs, ?Eza, ?Ezn; try done.
  - intros f c Hfc. destruct (Hc f c (HG f c Hfc)) as (st & Hst & Hpre & Hsafe).
    destruct (Hk f c st Hfc Hst) as (st' & Hst' & _ & Htake & Hs). exists st'. split; [done|].
    split; [congruence|]. auto.
  - intros m Hmc. specialize (Hm m Hmc). unfold recoverable in *. rewrite Edb, Ezn.
    destruct m as [file|].
    + destruct Hm as (files0 & E & Hok & Hall). exists files0. split; [done|]. split; [done|].
      intros f c Hfc. destruct (Hall f c (HG f c Hfc)) as (st & st0 & Hst & Hst0 & Htr & Hlen).
      destruct (Hk f c st Hfc Hst) as (st' & Hst' & Htr' & _). exists st', st0. split_and!; try done.
      destruct Htr as [?|Htr]; [by left|]. destruct Htr' as [?|Htr']; [by left|right; congruence].
    + intros f. destruct (m_find f G') as [c|] eqn:E; [|done]. specialize (Hm f). by rewrite (HG f c E) in Hm.
Qed.

Lemma keeps_refl dev c st : keeps dev dev c st st.
Proof. unfold keeps. auto. Qed.

(** Files whose tracks are not touched keep everything. *)
Lemma safe_frame dev dev' segs st x :
  (forall a, outside_segs segs a -> contents dev' a = contents dev a /\ durable dev' a = durable dev a) ->
  (forall i s b, located (tracks st) x i s b -> outside_segs segs (addr s b x)) ->
  safe dev st x -> safe dev' st x.
Proof.
  intros Hfr Hout [Hx Hp]. split; [done|]. intros i s b v Hl Hv. destruct (Hp i s b v Hl Hv) as (H1 & H2 & H3).
  simpl in *. destruct (Hfr _ (Hout i s b Hl)) as [-> ->]. done.
Qed.

(** The device moved to [dev'], touching only segments of file [f]; [f] moved to
    [st'], which differs in flags and buffers only. *)
Lemma inv_file_step G k f st st' dev' c' :
  inv G k -> m_find f (files_ k) = Some st ->
  file_number st' = file_number st -> level st' = level st ->
  effective_largest_level st' = effective_largest_level st -> data st' = data st ->
  tracks st' = tracks st -> pending_updates st' = pending_updates st ->
  bufs_wf (tracks st) (merged_buffers st') ->
  (forall a, outside_segs (tracks st) a ->
     contents dev' a = contents (backend_ k) a /\ durable dev' a = durable (backend_ k) a) ->
  (forall x, safe (backend_ k) st x -> safe dev' st' x) ->
  inv G (put_file f st' (set_counters c' (set_backend dev' k))).
Proof.
  intros Hinv Hf En El Eg Ed Et Ep Hb Hfr Hs. pose proof Hinv as [Ht Hl He Hz Hp Hc Hm Hfs].
  pose proof (to_entry _ _ _ Ht f st Hf) as Hent.
  assert (forall g sg x, m_find g (files_ k) = Some sg -> g <> f -> safe (backend_ k) sg x -> safe dev' sg x) as Hoth.
  { intros g sg x Hg Hne Hsx. eapply safe_frame; [done| |done]. intros i s b Hloc.
    pose proof (to_entry _ _ _ Ht g sg Hg) as Heg.
    destruct (decide (file_number sg = file_number st)) as [E|E].
    - destruct (decide (file_number sg = 0)) as [H0|H0].
      + destruct Heg as [_ _ _ _ _ Ho]. rewrite H0 in Ho. rewrite (owned_zero _ _ Ho) in Hloc.
        by apply located_nil in Hloc.
      + exfalso. by apply Hne, (to_unique _ _ _ Ht g f sg st).
    - eapply owned_apart; [apply Ht|apply Hent|apply Heg| |done]. congruence. }
  apply (inv_update G G k); try done; simpl.
  - apply (table_put _ _ _ Ht f st' st); try done. destruct Hent. split; congruence.
  - apply no_leak_insert; [done|]. intros st0 H0. congruence.
  - intros g sg. rewrite find_insert. case_decide as Hg; [subst g; intros [= <-]|intros Hsg].
    + destruct (Hp f st Hf) as [P1 P2 P3]. split; rewrite ?Ed, ?Et, ?Ep; try done.
      intros x Hx. destruct (P3 x Hx); auto.
    + destruct (Hp g sg Hsg) as [P1 P2 P3]. split; try done. intros x Hx. destruct (P3 x Hx); eauto.
  - intros g c sg Hgc Hsg. rewrite find_insert. case_decide as Hg.
    + subst g. assert (sg = st) as -> by congruence. exists st'. split; [done|]. split; [by right|]. split; [by rewrite Ed|]. auto.
    + exists sg. split; [done|]. split; [by right|]. split; [done|]. intros x _. by eapply Hoth.
Qed.

(** ** Allocation *)

Lemma bufs_wf_nil segs bufs : bufs_wf [] bufs -> bufs_wf segs bufs.
Proof.
  intros [H1 H2 H3]. split; try done. intros i b Hf Hl. destruct (H3 i b Hf Hl) as (base & [Hn _] & _).
  apply nthZ_Some in Hn. unfold lenZ in Hn. simpl in Hn. lia.
Qed.

Lemma allocate_tracks_inv G k f st :
  inv G k -> m_find f (files_ k) = Some st ->
  exists k' segs s, allocate_tracks f st k = Some (k', set_tracks segs st, s) /\ inv G k' /\
    m_find f (files_ k') = Some (set_tracks segs st) /\ backend_ k' = backend_ k /\ rmw_mode_ k' = rmw_mode_ k /\
    (s <> OK -> segs = []).
Proof.
  intros Hinv Hf. pose proof Hinv as [Ht Hl He Hz Hp Hc Hm Hfs]. pose proof (to_entry _ _ _ Ht f st Hf) as Hent.
  unfold allocate_tracks. destruct (decide (tracks st = [])) as [Htr|Htr].
  2: { rewrite bool_decide_false by done. exists k, (tracks st), OK. by destruct st. }
  rewrite bool_decide_true by done. simpl.
  destruct (Allocate_cases (file_number st) (lenZ (data st)) (level st) (effective_largest_level st) (allocator_ k))
    as [(Hid & Hb & trs & a' & -> & Hwf & Hza & Hcl & _)|(e & -> & Ee & _)]; [apply Ht|apply lenZ_nonneg|..].
  2: { assert (ok e = false) as -> by (subst e; by destruct (_ || _)). eexists _, [], _. split; [done|].
       assert (set_tracks [] st = st) as -> by (unfold set_tracks; destruct st; simpl in *; congruence).
       split; [|by simpl; rewrite find_insert_eq].
       apply (inv_file_step G k f st st (backend_ k) (rmw_counters_ k)); try done. by apply Hp with f. }
  simpl. eexists _, _, _. split; [done|]. simpl. rewrite find_insert_eq. split; [|done].
  assert (owned (allocator_ k) (file_number st) []) as Hnone by (rewrite <- Htr; apply Hent).
  apply (inv_update G G k); try done; simpl.
  - apply (table_insert _ _ _ Ht); try done.
    + by apply (fresh_same _ _ _ Ht f st).
    + destruct Hent as [? ? ? ? ? Ho]. split; try done. simpl.
      apply (owned_claimed _ _ _ _ _ _ Hcl Hid Hnone) in Ho. by rewrite decide_True in Ho.
    + left. by rewrite Hf.
    + intros g sg Hg Hne. pose proof (eo_tracks _ _ _ _ (to_entry _ _ _ Ht g sg Hg)) as Ho.
      apply (owned_claimed _ _ _ _ _ _ Hcl Hid Hnone) in Ho. rewrite decide_False in Ho; [done|].
      intros E. apply Hne, (to_unique _ _ _ Ht g f sg st); congruence.
  - apply no_leak_insert; [by eapply no_leak_claimed|]. intros st0 H0. simpl. congruence.
  - intros g sg. rewrite find_insert. case_decide as Hg; [|by apply Hp]. subst g. intros [= <-].
    destruct (Hp f st Hf) as [P1 P2 P3]. rewrite Htr in P2. split; simpl; [done|by apply bufs_wf_nil|].
    intros x Hx. destruct (P3 x Hx) as [?|[Hcap _]]; [by left|]. rewrite Htr in Hcap. simpl in Hcap. lia.
  - intros g c sg Hgc Hsg. rewrite find_insert. case_decide as Hg; [|exists sg; split; [done|apply keeps_refl]].
    subst g. destruct (Hc f c Hgc) as (st1 & Hst1 & _ & Hs1). assert (st1 = st) as -> by congruence.
    assert (sg = st) as -> by congruence.
    assert (lenZ c = 0) as H0.
    { pose proof (lenZ_nonneg c). destruct (decide (lenZ c = 0)); [done|].
      destruct (Hs1 0 ltac:(lia)) as [Hcap _]. rewrite Htr in Hcap. simpl in Hcap. lia. }
    eexists. split; [done|]. split; [by left|]. split; [done|]. lia.
Qed.

(** ** Writing the payload *)

(** Every byte of [st] is on its tracks. *)
Definition on_tracks (disk : Z -> Z) (st : SSTableState) : Prop :=
  lenZ (data st) <= capsum (tracks st) /\ stored (tracks st) (data st) disk.

Lemma apply_pending_inv G k f st :
  inv G k -> m_find f (files_ k) = Some st ->
  exists k' bufs s, apply_pending f st k = Some (k', set_buffers bufs st, s) /\ inv G k' /\
    m_find f (files_ k') = Some (set_buffers bufs st) /\
    (s = OK -> on_tracks (contents (backend_ k')) st).
Proof.
  intros Hinv Hf. pose proof Hinv as [Ht Hl He Hz Hp Hc Hm Hfs]. pose proof (to_entry _ _ _ Ht f st Hf) as Hent.
  pose proof (owned_good _ _ _ (to_wf _ _ _ Ht) (eo_tracks _ _ _ _ Hent)) as Hgood.
  destruct (Hp f st Hf) as [P1 P2 P3]. unfold apply_pending.
  set (cx := MkCtx (backend_ k) (rmw_counters_ k) (merged_buffers st)).
  destruct (Z.le_gt_cases (lenZ (data st)) (capsum (tracks st))) as [Hfit|Hover].
  - destruct (ApplyPending_spec (tracks st) (data st) (rmw_mode_ k) Hgood Hfit st cx)
      as (cx' & s & -> & [F B P Dl]); try done.
    eexists _, _, _. split; [done|]. split; [|split].
    + apply (inv_file_step G k f st); try done. intros x [Hx Hsx]. split; [done|]. by apply P.
    + simpl. by rewrite find_insert_eq.
    + intros ->. split; [done|]. intros x i sg b v Hloc Hv. simpl.
      destruct (P3 x) as [Hcov|[_ Hsafe]].
      * by apply nthZ_Some in Hv.
      * exact (Dl eq_refl x Hcov i sg b v Hloc Hv).
      * by destruct (P x Hsafe i sg b v Hloc Hv).
  - pose proof (good_capsum _ Hgood). unfold ApplyPendingUpdatesLocked.
    rewrite (total_capacity_eq _ Hgood) by (done || lia). replace (_ >? _) with true by lia.
    eexists _, _, _. split; [done|]. split; [|split; [|done]].
    + by apply (inv_file_step G k f st).
    + simpl. by rewrite find_insert_eq.
Qed.

Lemma PersistPayload_inv G k f st :
  inv G k -> m_find f (files_ k) = Some st ->
  exists k' segs bufs s, PersistPayloadLocked f st k = Some (k', set_buffers bufs (set_tracks segs st), s) /\
    inv G k' /\ m_find f (files_ k') = Some (set_buffers bufs (set_tracks segs st)) /\
    (s = OK -> on_tracks (contents (backend_ k')) (set_tracks segs st)).
Proof.
  intros Hinv Hf. unfold PersistPayloadLocked.
  destruct (allocate_tracks_inv G k f st Hinv Hf) as (k1 & segs & s1 & -> & Hinv1 & Hf1 & _).
  destruct (ok s1) eqn:E1; simpl.
  - destruct (apply_pending_inv G k1 f _ Hinv1 Hf1) as (k2 & bufs & s2 & -> & Hinv2 & Hf2 & HOK). eauto 10.
  - exists k1, segs, (merged_buffers st), s1. assert (set_buffers (merged_buffers st) (set_tracks segs st) = set_tracks segs st) as -> by done.
    split_and!; try done. by intros ->.
Qed.

Lemma backend_sync_inv G k :
  inv G k -> exists k' s, backend_sync k = (k', s) /\ inv G k' /\ files_ k' = files_ k /\
    (forall a, contents (backend_ k') a = contents (backend_ k) a) /\
    (s = OK -> forall a, durable (backend_ k') a = contents (backend_ k) a).
Proof.
  intros Hinv. unfold backend_sync. destruct (sync_law (backend_ k)) as (d & s & -> & Hcn & Hdu & HOK).
  eexists _, _. split; [done|]. split; [|done]. pose proof Hinv as [Ht Hl He Hz Hp Hc Hm Hfs].
  assert (forall st x, safe (backend_ k) st x -> safe d st x) as Hs.
  { intros st x [Hx Hpx]. split; [done|]. intros i s' b v Hloc Hv. destruct (Hpx i s' b v Hloc Hv) as (H1 & H2 & H3).
    simpl in *. rewrite Hcn. destruct (Hdu (addr s' b x)) as [->| ->]; done. }
  apply (inv_update G G k); try done; simpl.
  - intros f st Hf. destruct (Hp f st Hf) as [P1 P2 P3]. split; try done. intros x Hx. destruct (P3 x Hx); auto.
  - intros f c st _ Hf. exists st. split; [done|]. split; [by right|]. split; [done|]. auto.
Qed.

(** Setting the [synced] flag. *)
Lemma set_synced_inv G k f st v :
  inv G k -> m_find f (files_ k) = Some st -> inv G (put_file f (set_synced v st) k).
Proof.
  intros Hinv Hf. apply (inv_file_step G k f st (set_synced v st) (backend_ k) (rmw_counters_ k)); try done.
  by destruct (inv_payload _ _ Hinv f st Hf).
Qed.

(** ** The metadata snapshot *)

Lemma committed_length (c d : bytes) : take (length c) d = c -> lenZ c <= lenZ d.
Proof. intros H. apply (f_equal length) in H. rewrite length_take in H. unfold lenZ. lia. Qed.

(** The snapshot [PersistSnapshotLocked] takes. *)
Definition snapshot_file k : MetaFs.file :=
  MetaFs.MkFile (encode_snapshot (dbname_ k) (configured_zones_ k) (files_ k)) true.

Lemma snapshot_recoverable G k : inv G k -> recoverable G k (Some (snapshot_file k)).
Proof.
  intros [Ht Hl He [Hz _] Hp Hc Hm Hfs]. exists (files_ k). split; [done|]. split; [by exists (allocator_ k)|].
  intros f c Hfc. destruct (Hc f c Hfc) as (st & Hst & Htake & _). exists st, st. split_and!; auto.
  by apply committed_length.
Qed.

Lemma PersistSnapshot_inv G k :
  inv G k -> exists fs' s, PersistSnapshotLocked k = Some (set_fs fs' k, s) /\ inv G (set_fs fs' k) /\
    (s = OK -> forall m, MetaFs.after_crash fs' m -> m = Some (snapshot_file k)).
Proof.
  intros Hinv. pose proof Hinv as [Ht Hl He Hz Hp Hc Hm Hfs]. unfold PersistSnapshotLocked.
  destruct (MetaFs.write_metadata_spec (fs_ k) (encode_snapshot (dbname_ k) (configured_zones_ k) (files_ k)))
    as (fs' & s & E & Hcur & Hdur & HOK). rewrite E.
  exists fs', s. split; [done|]. split.
  - split; try done; simpl.
    + intros m [->|[-> Hs]].
      * destruct Hdur as [->|[-> _]]; [apply Hm; by left|exact (snapshot_recoverable G k Hinv)].
      * destruct Hcur as [Hcur| ->]; [|exact (snapshot_recoverable G k Hinv)]. rewrite Hcur in *. apply Hm. by right.
    + intros Hin. by apply (MetaFs.write_metadata_shrinks _ _ _ _ E) in Hin.
  - intros Hs m [->|[-> _]]; destruct (HOK Hs) as [Hcu H]; [by rewrite (H Hfs)|by rewrite Hcu].
Qed.

Lemma inv_weaken G G' k : (forall f c, m_find f G' = Some c -> m_find f G = Some c) -> inv G k -> inv G' k.
Proof.
  intros HG Hinv. apply (inv_update G G' k); try done; try apply Hinv.
  intros f c st _ Hf. exists st. split; [done|apply keeps_refl].
Qed.

(** ** Committing a file *)

(** Once every crash finds snapshot [files1], in which [f] has its tracks and
    its size, the content of [f] is committed. *)
Lemma inv_commit G k f st files1 st1 :
  inv G k -> m_find f (files_ k) = Some st ->
  (forall x, 0 <= x < lenZ (data st) -> safe (backend_ k) st x) ->
  (forall m, MetaFs.after_crash (fs_ k) m ->
     m = Some (MetaFs.MkFile (encode_snapshot (dbname_ k) (configured_zones_ k) files1) true)) ->
  snapshot_ok (dbname_ k) (configured_zones_ k) files1 ->
  m_find f files1 = Some st1 -> (lenZ (data st) = 0 \/ tracks st1 = tracks st) -> data st1 = data st ->
  (forall g, g <> f -> m_find g files1 = m_find g (files_ k)) ->
  inv (m_insert f (data st) G) k.
Proof.
  intros [Ht Hl He Hz Hp Hc Hm Hfs] Hf Hsafe Hall Hok Hf1 Htr Hd Hoth. split; try done.
  - intros g c. rewrite find_insert. case_decide as Hg; [|by apply Hc]. subst g. intros [= <-].
    exists st. split; [done|]. split; [by apply firstn_all|done].
  - intros m Hmc. rewrite (Hall m Hmc). exists files1. split; [done|]. split; [done|].
    intros g c. rewrite find_insert. case_decide as Hg.
    + subst g. intros [= <-]. exists st, st1. rewrite Hd. split_and!; done.
    + intros Hgc. destruct (Hc g c Hgc) as (sg & Hsg & Htake & _). exists sg, sg.
      rewrite Hoth by done. split_and!; auto. by apply committed_length.
Qed.

Lemma commit_sync_inv G k f st :
  inv G k -> m_find f (files_ k) = Some st -> on_tracks (contents (backend_ k)) st ->
  (forall a, durable (backend_ k) a = contents (backend_ k) a) ->
  exists k' s, commit_sync f st k = Some (k', s) /\
    inv (if ok s then m_insert f (data st) G else G) k' /\ backend_ k' = backend_ k /\
    (s = OK -> m_find f (files_ k') = Some (set_buffers [] (set_pending [] (set_synced true st)))).
Proof.
  intros Hinv Hf [Hfit Hst] Hdur. unfold commit_sync.
  pose proof (set_synced_inv G k f st true Hinv Hf) as Hinv1. set (k1 := put_file f (set_synced true st) k) in *.
  assert (m_find f (files_ k1) = Some (set_synced true st)) as Hf1 by (simpl; by rewrite find_insert_eq).
  destruct (PersistSnapshot_inv G k1 Hinv1) as (fs' & s & -> & Hinv2 & HOK).
  destruct (ok s) eqn:Es; simpl.
  2: { eexists _, _. split; [done|]. rewrite Es. split; [|split; [done|by intros ->]].
       exact (set_synced_inv G (set_fs fs' k1) f (set_synced true st) false Hinv2 Hf1). }
  apply ok_OK in Es. subst s. eexists _, _. split; [done|]. split; [|split; [done|by simpl; rewrite find_insert_eq]].
  set (st2 := set_buffers [] (set_pending [] (set_synced true st))).
  assert (forall x, 0 <= x < lenZ (data st) -> safe (backend_ k) st2 x) as Hsafe.
  { intros x Hx. split; [simpl; lia|]. intros i sg b v Hloc Hv. simpl. rewrite Hdur.
    split_and!; [by eapply Hst..|by intros b0 H0]. }
  assert (inv G (put_file f st2 (set_fs fs' k1))) as Hinv3.
  { pose proof Hinv2 as [Ht Hl He Hz Hp Hc Hm Hfs]. apply (inv_update G G (set_fs fs' k1)); try done; simpl.
    - apply (table_put _ _ _ Ht f st2 (set_synced true st)); try done. by destruct (to_entry _ _ _ Ht f _ Hf1).
    - apply no_leak_insert; [done|]. intros st0 H0. simpl in H0. rewrite find_insert_eq in H0. by injection H0 as <-.
    - intros g sg. rewrite find_insert. case_decide as Hg; [|by intros ?; apply (Hp g)]. subst g. intros [= <-].
      split; [constructor|split; [done|by intros i b H0..]|]. right. by apply Hsafe.
    - intros g c sg Hgc Hsg. rewrite find_insert. case_decide as Hg; [|exists sg; split; [done|apply keeps_refl]].
      subst g. exists st2. split; [done|]. simpl in Hsg. rewrite find_insert_eq in Hsg. injection Hsg as <-.
      split; [by right|]. split; [done|]. intros x Hx _. apply Hsafe.
      destruct (Hc f c Hgc) as (st0 & Hf0 & Htake & _). simpl in Hf0. rewrite find_insert_eq in Hf0. injection Hf0 as <-.
      apply committed_length in Htake. simpl in Htake. lia. }
  apply (inv_commit G _ f st2 (files_ k1) (set_synced true st)); try done; simpl.
  - by rewrite find_insert_eq.
  - by apply HOK.
  - exists (allocator_ k). split; [apply Hinv1|apply Hinv].
  - by right.
  - intros g Hg. by rewrite !find_insert_ne.
Qed.

(** ** The operations *)

Definition content_of k (f : bytes) : bytes :=
  match m_find f (files_ k) with Some st => data st | None => [] end.

Lemma kvsync_inv G k f :
  inv G k -> exists k' s, kvsync f k = Some (k', s) /\
    inv (if ok s then m_insert f (content_of k f) G else G) k'.
Proof.
  intros Hinv. unfold kvsync, content_of. destruct (m_find f (files_ k)) as [st|] eqn:Hf; [|by eexists _, _].
  destruct (_ && _) eqn:Eempty.
  - apply andb_true_iff in Eempty as [Ed Ep]. apply bool_decide_eq_true in Ed, Ep.
    pose proof (set_synced_inv G k f st true Hinv Hf) as Hinv1. set (k1 := put_file f (set_synced true st) k) in *.
    assert (m_find f (files_ k1) = Some (set_synced true st)) as Hf1 by (simpl; by rewrite find_insert_eq).
    rewrite (inv_enabled _ _ Hinv1). simpl negb. cbv iota.
    destruct (backend_sync_inv G k1 Hinv1) as (k2 & s & -> & Hinv2 & Hfl & _ & _). rewrite <- Hfl in Hf1.
    destruct (ok s) eqn:Es; simpl; [|eexists _, _; split; [done|]; by rewrite Es].
    destruct (PersistSnapshot_inv G k2 Hinv2) as (fs' & s3 & -> & Hinv3 & HOK).
    eexists _, _. split; [done|]. destruct (ok s3) eqn:Es3; simpl.
    + apply ok_OK in Es3. subst s3.
      apply (inv_commit G (set_fs fs' k2) f (set_synced true st) (files_ k2) (set_synced true st)); try done.
      * simpl. rewrite Ed. unfold lenZ. simpl. lia.
      * by apply HOK.
      * exists (allocator_ k2). split; apply Hinv2.
      * by right.
    + exact (set_synced_inv G (set_fs fs' k2) f (set_synced true st) false Hinv3 Hf1).
  - destruct (allocate_tracks_inv G k f st Hinv Hf) as (k1 & segs & s1 & -> & Hinv1 & Hf1 & _).
    destruct (ok s1) eqn:E1; simpl; [|eexists _, _; split; [done|]; by rewrite E1].
    rewrite (inv_enabled _ _ Hinv1).
    destruct (PersistPayload_inv G k1 f _ Hinv1 Hf1) as (k2 & segs2 & bufs & s2 & -> & Hinv2 & Hf2 & HOK2).
    destruct (ok s2) eqn:E2; simpl; [|eexists _, _; split; [done|]; by rewrite E2].
    apply ok_OK in E2. specialize (HOK2 E2).
    destruct (backend_sync_inv G k2 Hinv2) as (k3 & s3 & -> & Hinv3 & Hfl & Hcn & HOK3).
    destruct (ok s3) eqn:E3; simpl; [|eexists _, _; split; [done|]; by rewrite E3].
    apply ok_OK in E3. specialize (HOK3 E3). rewrite <- Hfl in Hf2.
    destruct (commit_sync_inv G k3 f _ Hinv3 Hf2) as (k4 & s4 & -> & Hinv4 & _).
    + destruct HOK2 as [Hfit Hst]. split; [done|]. intros x i sg b v Hloc Hv. rewrite Hcn. by eapply Hst.
    + intros a. by rewrite HOK3, Hcn.
    + by eexists _, _.
Qed.

(** Metadata and table agree on where every file lies. *)
Definition layout (st : SSTableState) : list KVIMRTrackSegment * bytes := (tracks st, data st).

Definition snapshot_matches k : Prop :=
  exists files1, table_ok (dbname_ k) (allocator_ k) files1 /\
    (forall m, MetaFs.after_crash (fs_ k) m ->
       m = Some (MetaFs.MkFile (encode_snapshot (dbname_ k) (configured_zones_ k) files1) true)) /\
    (forall g, layout <$> m_find g files1 = layout <$> m_find g (files_ k)).

(** After a successful [kvsync] every crash finds the snapshot of the current
    table, and the file has no pending updates. *)
Lemma kvsync_snapshot G k f k' :
  inv G k -> kvsync f k = Some (k', OK) ->
  snapshot_matches k' /\ exists st, m_find f (files_ k') = Some st /\ pending_updates st = [] /\ data st = content_of k f.
Proof.
  intros Hinv. unfold kvsync, content_of. destruct (m_find f (files_ k)) as [st|] eqn:Hf; [|done].
  destruct (_ && _) eqn:Eempty.
  - apply andb_true_iff in Eempty as [Ed Ep]. apply bool_decide_eq_true in Ed, Ep.
    pose proof (set_synced_inv G k f st true Hinv Hf) as Hinv1. set (k1 := put_file f (set_synced true st) k) in *.
    rewrite (inv_enabled _ _ Hinv1). simpl negb. cbv iota.
    destruct (backend_sync_inv G k1 Hinv1) as (k2 & s & -> & Hinv2 & Hfl & _ & _).
    destruct (ok s) eqn:Es; simpl; [|intros [= <- ->]; done].
    destruct (PersistSnapshot_inv G k2 Hinv2) as (fs' & s3 & -> & Hinv3 & HOK).
    intros [= <- ->]. simpl. split.
    + exists (files_ k2). split; [apply Hinv2|]. split; [by apply HOK|done].
    + exists (set_synced true st). rewrite Hfl. simpl. by rewrite find_insert_eq.
  - destruct (allocate_tracks_inv G k f st Hinv Hf) as (k1 & segs & s1 & -> & Hinv1 & Hf1 & _).
    destruct (ok s1) eqn:E1; simpl; [|intros [= <- ->]; done].
    rewrite (inv_enabled _ _ Hinv1).
    destruct (PersistPayload_inv G k1 f _ Hinv1 Hf1) as (k2 & segs2 & bufs & s2 & -> & Hinv2 & Hf2 & _).
    destruct (ok s2) eqn:E2; simpl; [|intros [= <- ->]; done].
    destruct (backend_sync_inv G k2 Hinv2) as (k3 & s3 & -> & Hinv3 & Hfl & _). rewrite <- Hfl in Hf2.
    destruct (ok s3) eqn:E3; simpl; [|intros [= <- ->]; done].
    set (st3 := set_buffers bufs _) in *. unfold commit_sync.
    pose proof (set_synced_inv G k3 f st3 true Hinv3 Hf2) as Hinv4.
    destruct (PersistSnapshot_inv G _ Hinv4) as (fs' & s4 & -> & Hinv5 & HOK).
    destruct (ok s4) eqn:E4; simpl; [|intros [= <- ->]; done]. apply ok_OK in E4. intros [= <- _]. split.
    + exists (m_insert f (set_synced true st3) (files_ k3)). split; [apply Hinv4|]. split; [by apply HOK|].
      intros g. simpl. rewrite !find_insert. by repeat case_decide.
    + eexists. simpl. rewrite find_insert_eq. done.
Qed.

Lemma erase_sub (f g : bytes) (c : bytes) G : m_find g (m_erase f G) = Some c -> m_find g G = Some c /\ g <> f.
Proof. rewrite find_erase. by case_decide. Qed.

(** A file that is not in the table is not committed. *)
Lemma inv_erase_absent G k f : inv G k -> m_find f (files_ k) = None -> inv (m_erase f G) k.
Proof. intros Hinv _. apply (inv_weaken G); [|done]. by intros g c [H _]%erase_sub. Qed.

Lemma settle_inv G k f st :
  inv G k -> m_find f (files_ k) = Some st ->
  exists k' st' s, settle f st k = Some (k', st', s) /\ inv G k' /\ m_find f (files_ k') = Some st'.
Proof.
  intros Hinv Hf. unfold settle. rewrite (inv_enabled _ _ Hinv). destruct (bool_decide _); simpl; [by exists k, st, OK|].
  destruct (PersistPayload_inv G k f st Hinv Hf) as (k1 & segs & bufs & s1 & -> & Hinv1 & Hf1 & _).
  destruct (ok s1); simpl; [|eauto 10].
  destruct (backend_sync_inv G k1 Hinv1) as (k2 & s2 & -> & Hinv2 & Hfl & _). rewrite <- Hfl in Hf1. eauto 10.
Qed.

Lemma remove_file_inv G k f st :
  inv G k -> m_find f (files_ k) = Some st -> inv (m_erase f G) (remove_file f st k).
Proof.
  intros Hinv Hf. pose proof Hinv as [Ht Hl He Hz Hp Hc Hm Hfs].
  apply (inv_update G _ k); try done; simpl.
  - apply zones_Release.
  - by apply table_erase.
  - by eapply no_leak_erase.
  - intros g sg. rewrite find_erase. case_decide; [done|]. apply Hp.
  - by intros g c [H _]%erase_sub.
  - intros g c sg [_ Hne]%erase_sub Hg. exists sg. rewrite find_erase_ne by done. split; [done|apply keeps_refl].
Qed.

Lemma kvunlink_inv G k f :
  inv G k -> exists k' s, kvunlink f k = Some (k', s) /\
    inv (if HasSSTable f k' then G else m_erase f G) k' /\ (s = OK -> HasSSTable f k' = false).
Proof.
  intros Hinv. unfold kvunlink.
  assert (forall G k, inv G k -> m_find f (files_ k) = None -> exists k' s,
    finish_unlink k = Some (k', s) /\ inv G k' /\ HasSSTable f k' = false) as Hfinish.
  { intros G0 k0 Hinv0 Hn. unfold finish_unlink. rewrite (inv_enabled _ _ Hinv0).
    destruct (PersistSnapshot_inv G0 k0 Hinv0) as (fs' & s & -> & Hinv1 & _).
    eexists _, _. split; [done|]. split; [done|]. unfold HasSSTable. simpl. by rewrite Hn. }
  destruct (m_find f (files_ k)) as [st|] eqn:Hf.
  - destruct (settle_inv G k f st Hinv Hf) as (k1 & st1 & s1 & -> & Hinv1 & Hf1).
    destruct (ok s1) eqn:E1; simpl.
    + destruct (Hfinish (m_erase f G) (remove_file f st1 k1)) as (k2 & s2 & -> & Hinv2 & Hno).
      { by apply remove_file_inv. }
      { simpl. apply find_erase_eq. }
      eexists _, _. split; [done|]. by rewrite Hno.
    + eexists _, _. split; [done|]. unfold HasSSTable. rewrite Hf1. split; [done|]. by intros ->.
  - destruct (Hfinish (m_erase f G) (set_s2tmap (m_erase (FileNumber f) (s2tmap_ k)) k)) as (k2 & s2 & -> & Hinv2 & Hno).
    { apply inv_erase_absent; [|done]. by destruct Hinv; split. }
    { done. }
    eexists _, _. split; [done|]. by rewrite Hno.
Qed.

Lemma BeginWrite_inv G k f : inv G k -> inv (m_erase f G) (BeginWrite f k).
Proof.
  intros Hinv. pose proof Hinv as [Ht Hl He Hz Hp Hc Hm Hfs]. unfold BeginWrite.
  destruct (m_find f (files_ k)) as [st|] eqn:Hf; [|by apply inv_erase_absent].
  pose proof (to_entry _ _ _ Ht f st Hf) as [H1 H2 H3 H4 H5 Ho].
  set (st' := MkState _ _ _ false [] [] [] []).
  assert (forall a' k1, files_ k1 = files_ k -> backend_ k1 = backend_ k -> dbname_ k1 = dbname_ k ->
    configured_zones_ k1 = configured_zones_ k -> persistence_enabled_ k1 = persistence_enabled_ k ->
    fs_ k1 = fs_ k -> allocator_ k1 = a' -> wf a' -> zones_ a' = zones_ (allocator_ k) ->
    no_leak a' (files_ k) -> owned a' (file_number st) [] ->
    (forall g sg, m_find g (files_ k) = Some sg -> g <> f -> owned a' (file_number sg) (tracks sg)) ->
    inv (m_erase f G) (put_file f st' k1)) as Hgen.
  { intros a' k1 E1 E2 E3 E4 E5 E6 E7 Hwf Hza Hnl Hof Hog. apply (inv_update G _ k); simpl; rewrite ?E1, ?E2, ?E7; try done.
    - apply (table_insert _ _ _ Ht); try done.
      + by apply (fresh_same _ _ _ Ht f st).
      + left. by rewrite Hf.
    - apply no_leak_insert; [done|]. intros st0 H0. simpl. congruence.
    - intros g sg. rewrite find_insert. case_decide as Hg; [|apply Hp]. intros [= <-].
      split; simpl; [constructor|split; [done|by intros i b Hb..]|]. unfold lenZ. simpl. lia.
    - by intros g c [H _]%erase_sub.
    - intros g c sg [_ Hne]%erase_sub Hg. exists sg. rewrite find_insert_ne by done. split; [done|apply keeps_refl]. }
  case_bool_decide as Etr; simpl.
  - apply (Hgen (allocator_ k) k); try done; [apply Ht|by rewrite <- Etr|]. intros g sg Hg _. apply (to_entry _ _ _ Ht g sg Hg).
  - apply (Hgen (Release (file_number st) (allocator_ k)).1); try done.
    + apply wf_Release, Ht.
    + apply zones_Release.
    + by apply no_leak_release.
    + apply (owned_release (file_number st)) in Ho. by rewrite decide_True in Ho.
    + intros g sg Hg Hne. pose proof (eo_tracks _ _ _ _ (to_entry _ _ _ Ht g sg Hg)) as Hog.
      apply (owned_release (file_number st)) in Hog. case_decide as E; [|done].
      destruct (decide (file_number sg = 0)) as [H0|H0].
      * pose proof (eo_tracks _ _ _ _ (to_entry _ _ _ Ht g sg Hg)) as Hog'. rewrite H0 in Hog'.
        by rewrite (owned_zero _ _ Hog').
      * exfalso. by apply Hne, (to_unique _ _ _ Ht g f sg st).
Qed.

(** A longer file keeps its prefix. *)
Lemma nthZ_grow (d e : bytes) x : x < lenZ d -> nthZ (d ++ e) x = nthZ d x.
Proof.
  intros Hx. destruct (decide (0 <= x)).
  - pose proof (lenZ_nonneg e). rewrite nthZ_app by lia. by replace (x <? lenZ d) with true by lia.
  - rewrite !nthZ_None; [done|left; lia..].
Qed.

Lemma safe_grow dev st st' e x :
  tracks st' = tracks st -> merged_buffers st' = merged_buffers st -> data st' = data st ++ e ->
  x < lenZ (data st) -> safe dev st x -> safe dev st' x.
Proof.
  intros Et Eb Ed Hx [Hc Hp]. split; [by rewrite Et|]. rewrite Et, Eb, Ed. intros i s b v Hloc Hv.
  rewrite nthZ_grow in Hv by done. by apply (Hp i s b v).
Qed.

Definition append_state (st : SSTableState) (e : bytes) : SSTableState :=
  set_synced false (set_pending
    (if negb (lenZ e =? 0) then pending_updates st ++ [MkPending (lenZ (data st)) e] else pending_updates st)
    (set_data (data st ++ e) st)).

Lemma append_payload dev st e : payload_ok dev st -> payload_ok dev (append_state st e).
Proof.
  intros [P1 P2 P3]. pose proof (lenZ_nonneg (data st)). pose proof (lenZ_nonneg e).
  assert (Forall (update_ok (data st ++ e)) (pending_updates st)) as P1'.
  { eapply Forall_impl; [exact P1|]. intros u (U1 & U2 & U3). split; [done|]. rewrite lenZ_app. split; [lia|].
    intros j Hj. rewrite U3 by done. symmetry. apply nthZ_grow. lia. }
  split; simpl.
  - zcase; [|done]. apply Forall_app. split; [done|]. constructor; [|constructor].
    split; simpl; [done|]. rewrite lenZ_app. split; [lia|]. intros j Hj. rewrite nthZ_app by lia.
    replace (_ <? _) with false by lia. f_equal. lia.
  - done.
  - intros x. rewrite lenZ_app. intros Hx. destruct (decide (x < lenZ (data st))) as [Hlt|Hge].
    + destruct (P3 x ltac:(lia)) as [(u & Hu & Hux)|Hs].
      * left. exists u. split; [|done]. zcase; [apply elem_of_app; by left|done].
      * right. by apply (safe_grow dev st _ e).
    + left. exists (MkPending (lenZ (data st)) e). simpl. split; [|lia].
      zcase; [apply elem_of_app; right; by left|lia].
Qed.

Lemma kvwrite_inv G k f e :
  inv G k -> path_ok (dbname_ k) f -> lenZ (content_of k f) + lenZ e < 2 ^ 63 ->
  SSTableCount k + 1 < 2 ^ 32 -> inv G (kvwrite f e k).1.
Proof.
  intros Hinv Hpath Hsize Hcount. pose proof Hinv as [Ht Hl He Hz Hp Hc Hm Hfs].
  unfold kvwrite. cbv zeta. simpl fst. unfold m_get, content_of in *.
  set (st := default new_state (m_find f (files_ k))). change (set_synced _ _) with (append_state st e).
  assert (payload_ok (backend_ k) st) as Hpay.
  { unfold st. destruct (m_find f (files_ k)) as [s0|] eqn:E; simpl; [by apply (Hp f)|].
    split; simpl; [constructor|split; [done|by intros i b Hb..]|]. unfold lenZ. simpl. lia. }
  assert (entry_ok (dbname_ k) (allocator_ k) f (append_state st e)) as Hent.
  { unfold st. destruct (m_find f (files_ k)) as [s0|] eqn:E; simpl.
    - destruct (to_entry _ _ _ Ht f s0 E). split; simpl; try done. by rewrite lenZ_app.
    - split; simpl; try done. by apply owned_nil. }
  assert (forall s0, m_find f (files_ k) = Some s0 -> s0 = st) as Hst by (unfold st; by intros s0 ->).
  apply (inv_update G G k); try done; simpl.
  - apply (table_insert _ _ _ Ht); try done; [apply Ht| |right; done|].
    + intros g sg Hg Hn Hnz. simpl in Hn, Hnz. destruct (m_find f (files_ k)) as [s0|] eqn:E; [|done].
      pose proof (Hst s0 eq_refl) as Es. rewrite <- Es in Hn, Hnz.
      apply (to_unique _ _ _ Ht g f sg s0); congruence.
    + intros g sg Hg _. apply (to_entry _ _ _ Ht g sg Hg).
  - apply no_leak_insert; [done|]. intros s0 H0. by rewrite (Hst s0 H0).
  - intros g sg. rewrite find_insert. case_decide as Hg; [|apply Hp]. intros [= <-]. by apply append_payload.
  - intros g c sg Hgc Hsg. rewrite find_insert. case_decide as Hg; [|exists sg; split; [done|apply keeps_refl]].
    subst g. eexists. split; [done|]. pose proof (Hst sg Hsg) as ->.
    destruct (Hc f c Hgc) as (s1 & Hs1 & Htake & _). pose proof (Hst s1 Hs1) as ->.
    apply committed_length in Htake. split; [by right|]. split.
    + simpl. rewrite take_app_le; [done|]. unfold lenZ in Htake. lia.
    + intros x Hx Hs. apply (safe_grow (backend_ k) st _ e); try done. lia.
Qed.

(** RocksDB registers a file under a number no other live file has, before it
    gets tracks. *)
Definition may_register k (f : bytes) (number lv largest : Z) : Prop :=
  path_ok (dbname_ k) f /\ 0 < number < 2 ^ 64 /\ - 2 ^ 31 <= lv < 2 ^ 31 /\ - 2 ^ 31 <= largest < 2 ^ 31 /\
  SSTableCount k + 1 < 2 ^ 32 /\
  (forall g sg, m_find g (files_ k) = Some sg -> file_number sg = number -> g = f) /\
  (forall st, m_find f (files_ k) = Some st -> tracks st = [] \/ file_number st = number).

Lemma RegisterSSTable_inv G k f number lv largest :
  inv G k -> may_register k f number lv largest -> inv G (RegisterSSTable f number lv largest k).
Proof.
  intros Hinv (Hpath & Hn & Hlv & Hla & Hcount & Hfresh & Htr). pose proof Hinv as [Ht Hl He Hz Hp Hc Hm Hfs].
  unfold RegisterSSTable, m_get. set (st := default new_state (m_find f (files_ k))).
  assert (forall s0, m_find f (files_ k) = Some s0 -> s0 = st) as Hst by (unfold st; by intros s0 ->).
  assert (lenZ (data st) < 2 ^ 63) as Hsz.
  { unfold st. destruct (m_find f (files_ k)) as [s0|] eqn:E; simpl; [by apply (to_entry _ _ _ Ht f)|done]. }
  assert (owned (allocator_ k) number (tracks st)) as Ho.
  { destruct (decide (tracks st = [])) as [E|E].
    - rewrite E. apply owned_nil. intros tr Hown. destruct (Hl tr number Hown ltac:(lia)) as (g & sg & Hg & Hgn).
      pose proof (Hfresh g sg Hg Hgn) as ->. pose proof (Hst sg Hg) as ->.
      pose proof (eo_tracks _ _ _ _ (to_entry _ _ _ Ht f st Hg)) as Hof. rewrite E, Hgn in Hof.
      exfalso. apply (owned_free _ _ Hof ltac:(lia) tr Hown).
    - unfold st in *. destruct (m_find f (files_ k)) as [s0|] eqn:Ef; [|done]. simpl in *.
      destruct (Htr s0 eq_refl) as [?|<-]; [done|]. by apply (to_entry _ _ _ Ht f). }
  apply (inv_update G G k); try done; simpl.
  - apply (table_insert _ _ _ Ht); try done; [apply Ht| | |by right|].
    + intros g sg Hg Hgn _. by eapply Hfresh.
    + split; simpl; try done. lia.
    + intros g sg Hg _. apply (to_entry _ _ _ Ht g sg Hg).
  - intros tr m Hown Hm0. destruct (Hl tr m Hown Hm0) as (g & sg & Hg & Hgn).
    destruct (decide (f = g)) as [<-|Hne]; [|exists g, sg; by rewrite find_insert_ne].
    exists f. eexists. rewrite find_insert_eq. split; [done|]. simpl.
    destruct (Htr sg Hg) as [E|E]; [|congruence]. exfalso.
    pose proof (eo_tracks _ _ _ _ (to_entry _ _ _ Ht f sg Hg)) as Hof. rewrite E, Hgn in Hof.
    by apply (owned_free _ _ Hof Hm0 tr).
  - intros g sg. rewrite find_insert. case_decide as Hg; [|apply Hp]. intros [= <-].
    unfold st. destruct (m_find f (files_ k)) as [s0|] eqn:E; simpl.
    + destruct (Hp f s0 E) as [P1 P2 P3]. by split.
    + split; simpl; [constructor|split; [done|by intros i b Hb..]|]. unfold lenZ. simpl. lia.
  - intros g c sg Hgc Hsg. rewrite find_insert. case_decide as Hg; [|exists sg; split; [done|apply keeps_refl]].
    subst g. pose proof (Hst sg Hsg) as ->. eexists. split; [done|]. split; [by right|]. done.
Qed.

Lemma SetRMWMode_inv G k m : inv G k -> inv G (SetRMWMode m k).
Proof. intros []. by split. Qed.
Lemma ResetRMWCounters_inv G k : inv G k -> inv G (ResetRMWCounters k).
Proof. intros []. by split. Qed.
End Inv.
