(* ===== verification/KvimrRecovery.v ===== *)
(** Recovery ([RestorePayloadLocked], [LoadSnapshotLocked],
    [InitializePersistence] of [db/kvimr.cc]): loading a snapshot rebuilds the
    file table and the allocator and reads every payload back from its tracks. *)

From S2P Require Import Prelude StdMap TrackAllocator BlockDevice MetaFs KvimrState Snapshot Rmw RmwSpec Kvimr KvimrInv.
Import TrackAllocator.

(** ** Reading a payload *)

(** The bytes on the tracks [segs], in file order. *)
Definition disk_bytes (disk : Z -> Z) (segs : list KVIMRTrackSegment) : bytes :=
  concat (map (fun s => disk_read disk (segment_address s) (Z.to_nat (cap s))) segs).

Lemma lenZ_disk_bytes disk segs : lenZ (disk_bytes disk segs) = capsum segs.
Proof.
  induction segs as [|s segs IH]; simpl; [done|]. unfold disk_bytes in *. simpl.
  rewrite lenZ_app, lenZ_disk_read. pose proof (cap_pos s). lia.
Qed.

Lemma nthZ_disk_bytes disk segs x i s b :
  located segs x i s b -> nthZ (disk_bytes disk segs) x = Some (disk (addr s b x)).
Proof.
  revert x i b. induction segs as [|s0 segs IH]; intros x i b [[Hi ->] Hx].
  { apply nthZ_Some in Hi. unfold lenZ in Hi. simpl in Hi. lia. }
  pose proof (nthZ_Some _ _ _ Hi) as Hr. pose proof (cap_pos s0) as Hc0. pose proof (lenZ_nonneg (disk_bytes disk segs)).
  change (disk_bytes disk (s0 :: segs)) with
    (disk_read disk (segment_address s0) (Z.to_nat (cap s0)) ++ disk_bytes disk segs).
  assert (0 <= x) by (pose proof (capsum_nonneg (take (Z.to_nat i) (s0 :: segs))); lia).
  rewrite nthZ_app, lenZ_disk_read by lia. unfold nthZ in Hi. replace (0 <=? i) with true in Hi by lia.
  destruct (Z.to_nat i) as [|n] eqn:En; simpl in Hi, Hx |- *.
  - injection Hi as <-. replace (_ <? _) with true by lia. rewrite nthZ_disk_read by lia.
    unfold addr. do 2 f_equal. lia.
  - pose proof (capsum_nonneg (take n segs)). replace (_ <? _) with false by lia.
    rewrite (IH _ (Z.of_nat n) (capsum (take n segs))).
    + unfold addr. do 2 f_equal. lia.
    + split; [|lia]. split; [|by rewrite Nat2Z.id]. unfold nthZ. replace (0 <=? Z.of_nat n) with true by lia.
      by rewrite Nat2Z.id.
Qed.

(** What a restart knows about a file: its metadata and its bytes on disk. *)
Definition reload (disk : Z -> Z) (st : SSTableState) : SSTableState :=
  MkState (file_number st) (level st) (effective_largest_level st) (synced st)
    (take (length (data st)) (disk_bytes disk (tracks st))) (tracks st) [] [].

Definition fits (st : SSTableState) : Prop := lenZ (data st) <= capsum (tracks st).

Lemma lenZ_reload disk st : fits st -> lenZ (data (reload disk st)) = lenZ (data st).
Proof.
  unfold fits. intros Hf. simpl. pose proof (lenZ_disk_bytes disk (tracks st)) as H.
  unfold lenZ in *. rewrite length_take. lia.
Qed.

Lemma reload_nth disk st x i s b :
  located (tracks st) x i s b -> x < lenZ (data st) ->
  nthZ (data (reload disk st)) x = Some (disk (addr s b x)).
Proof.
  intros Hloc Hx. simpl. pose proof (nthZ_disk_bytes disk _ _ _ _ _ Hloc) as Hn.
  pose proof (nthZ_Some _ _ _ Hn). rewrite <- (to_nat_lenZ (data st)), nthZ_take by lia.
  by replace (x <? lenZ (data st)) with true by lia.
Qed.

Section Recovery.
Context {D : Type} `{BDL : BlockDeviceLaws D}.
Implicit Types (k : KVIMR D) (dev : D) (G : stdmap bytes bytes).

Lemma restore_segments_len size rest : forall restored dev dev' s out,
  restore_segments size rest restored dev = Some (dev', s, out) ->
  (forall g, g ∈ rest -> segment_capacity g = cap g) ->
  lenZ out <= lenZ restored + capsum rest.
Proof.
  induction rest as [|g rest IH]; intros restored dev dev' s out; simpl.
  { intros [= <- <- <-] _. lia. }
  intros H Hcap. pose proof (cap_pos g). pose proof (capsum_nonneg rest).
  zcase_in H; [by simplify_eq; lia|]. destruct (dev_read _ _ _) as [[[d st] buf]|]; [|done].
  zcase_in H; [by simplify_eq; lia|]. apply IH in H; [|intros; apply Hcap; by right].
  rewrite (Hcap g) in * by left. rewrite lenZ_app in H.
  assert (lenZ (take (Z.to_nat (Z.min (cap g) (size - lenZ restored))) buf) <= cap g) by (rewrite lenZ_take; lia).
  lia.
Qed.

Lemma restore_segments_total size rest : forall restored dev,
  exists dev' s out, restore_segments size rest restored dev = Some (dev', s, out) /\
    (forall a, contents dev' a = contents dev a) /\ (forall a, durable dev' a = durable dev a).
Proof.
  induction rest as [|g rest IH]; intros restored dev; simpl; [by eexists _, _, _|].
  zcase; [by eexists _, _, _|].
  match goal with |- context [dev_read dev ?o ?b] =>
    destruct (read_law dev o b) as (d & s & buf & -> & Hc & Hd & _) end.
  destruct (ok s); simpl; [|by eexists _, _, _].
  match goal with |- context [restore_segments _ _ ?r d] =>
    destruct (IH r d) as (d2 & s2 & out & -> & Hc2 & Hd2) end.
  eexists _, _, _. split; [done|]. split; intros a; congruence.
Qed.

Lemma RestorePayload_spec st dev :
  good_segments (tracks st) ->
  exists dev' s st', RestorePayloadLocked st dev = Some (dev', s, st') /\
    (forall a, contents dev' a = contents dev a) /\ (forall a, durable dev' a = durable dev a) /\
    (s = OK -> fits st /\ st' = set_data (data (reload (contents dev) st)) st) /\
    (s <> OK -> st' = st).
Proof.
  intros Hgood. unfold RestorePayloadLocked.
  set (file := take (length (data st)) (disk_bytes (contents dev) (tracks st))).
  assert (lenZ file = Z.min (lenZ (data st)) (capsum (tracks st))) as Hlen.
  { rewrite <- (lenZ_disk_bytes (contents dev)). unfold file, lenZ. rewrite length_take. lia. }
  destruct (decide (fits st)) as [Hfit|Hno]; unfold fits in *.
  - destruct (restore_segments_spec (tracks st) file Hgood ltac:(lia) (tracks st) [] dev eq_refl)
      as (d & s & out & E & Hc & Hd & Hok).
    { intros x i g b v Hloc Hv. pose proof (nthZ_Some _ _ _ Hv). unfold file in Hv.
      pose proof (nthZ_disk_bytes (contents dev) _ _ _ _ _ Hloc) as Hn.
      pose proof (nthZ_Some _ _ _ Hn). rewrite <- (to_nat_lenZ (data st)), nthZ_take in Hv by lia.
      replace (x <? lenZ (data st)) with true in Hv by lia. congruence. }
    simpl in E. change (take (Z.to_nat 0) file) with (@nil Z) in E.
    replace (lenZ file) with (lenZ (data st)) in E by lia. rewrite E.
    destruct (ok s) eqn:Es; simpl.
    + apply ok_OK in Es. subst s. rewrite Hok by done. replace (_ =? _) with true by lia. simpl.
      eexists _, _, _. split; [done|]. split_and!; try done.
    + eexists _, _, _. split; [done|]. split_and!; try done. by intros ->.
  - assert (exists d s out, restore_segments (lenZ (data st)) (tracks st) [] dev = Some (d, s, out) /\
      (forall a, contents d a = contents dev a) /\ (forall a, durable d a = durable dev a)) as (d & s & out & E & Hc & Hd).
    { apply restore_segments_total. }
    rewrite E. assert (lenZ out <= capsum (tracks st)) as Hle.
    { apply restore_segments_len in E; [|intros g Hg; by apply (good_capacity _ Hgood)].
      rewrite lenZ_nil in E. lia. }
    destruct (ok s) eqn:Es; simpl.
    + replace (_ =? _) with false by lia. simpl. eexists _, _, _. split; [done|]. split_and!; done.
    + eexists _, _, _. split; [done|]. split_and!; try done. by intros ->.
Qed.

(** ** Loading a snapshot *)

Section Load.
Variables (dbname : bytes) (files0 : stdmap bytes SSTableState) (a0 : KVIMRTrackAllocator) (disk : Z -> Z).
Hypothesis Htab0 : table_ok dbname a0 files0.

(** The object after the entries [done] have been loaded and before [todo]. *)
Record loading (done todo : stdmap bytes SSTableState) k : Prop := {
  ld_split : files0 = done ++ todo;
  ld_db : dbname_ k = dbname;
  ld_disk : forall a, contents (backend_ k) a = disk a;
  ld_durable : forall a, durable (backend_ k) a = disk a;
  ld_table : table_ok dbname (allocator_ k) (files_ k);
  ld_zones : zones_ (allocator_ k) = zones_ a0;
  ld_leak : no_leak (allocator_ k) (files_ k);
  ld_count : lenZ (files_ k) <= lenZ done;
  ld_find : forall f st, (f, st) ∈ done -> fits st /\ m_find f (files_ k) = Some (reload disk st);
  ld_only : forall f st, m_find f (files_ k) = Some st -> exists st0, (f, st0) ∈ done /\ st = reload disk st0;
  ld_free : forall f st tr, (f, st) ∈ todo -> owner a0 tr = Some (file_number st) -> file_number st <> 0 ->
    owner (allocator_ k) tr = Some 0;
}.

(** The parts of the object that loading does not touch. *)
Definition same_env k k' : Prop :=
  configured_zones_ k' = configured_zones_ k /\ persistence_enabled_ k' = persistence_enabled_ k /\
  fs_ k' = fs_ k /\ metadata_path_ k' = metadata_path_ k /\ rmw_mode_ k' = rmw_mode_ k.

Lemma entry_typed f st : m_find f files0 = Some st ->
  state_typed dbname f st /\ f = dbname ++ [slash] ++ relative_path dbname f.
Proof.
  intros Hf. destruct (to_entry _ _ _ Htab0 f st Hf) as [(rel & -> & Hsep & Hlen) H2 H3 H4 H5 Ho].
  rewrite relative_path_under by done. split; [|done]. unfold state_typed. rewrite relative_path_under by done.
  split_and!; try done; try lia.
  - by eapply owned_count, Ho; apply Htab0.
  - by eapply owned_typed, Ho; apply Htab0.
Qed.

(** [allocator_.Restore] for one entry. *)
Lemma restore_entry done f st todo k :
  loading done ((f, st) :: todo) k -> exists a',
    (if negb (bool_decide (tracks st = [])) then Restore (file_number st) (tracks st) (allocator_ k)
     else (allocator_ k, OK)) = (a', OK) /\
    wf a' /\ zones_ a' = zones_ (allocator_ k) /\ owned a' (file_number st) (tracks st) /\
    (forall g sg, m_find g (files_ k) = Some sg -> owned a' (file_number sg) (tracks sg)) /\
    (forall tr n, owner a' tr = Some n -> n <> 0 -> n = file_number st \/ owner (allocator_ k) tr = Some n) /\
    (forall tr, owner (allocator_ k) tr = Some 0 -> owner a0 tr <> Some (file_number st) -> owner a' tr = Some 0).
Proof.
  intros [Hsp Hdb Hdk Hdu Ht Hz Hl Hcn Hfd Hon Hfr].
  assert ((f, st) ∈ files0) as Hin by (rewrite Hsp; apply elem_of_app; right; left).
  assert (m_find f files0 = Some st) as Hf0 by (apply elem_of_find; [apply Htab0|done]).
  destruct (eo_tracks _ _ _ _ (to_entry _ _ _ Htab0 f st Hf0)) as (trs & Etr & Hnd & Ho).
  (* no loaded file has the number of [st] *)
  assert (file_number st <> 0 -> forall g sg, m_find g (files_ k) = Some sg -> file_number sg <> file_number st) as Hnum.
  { intros Hnz g sg Hg E. destruct (Hon g sg Hg) as (s0 & Hs0 & ->).
    assert (m_find g files0 = Some s0) as Hg0 by (apply elem_of_find; [apply Htab0|]; rewrite Hsp; apply elem_of_app; by left).
    pose proof (to_unique _ _ _ Htab0 g f s0 st Hg0 Hf0 E ltac:(simpl in E; congruence)) as ->.
    pose proof (sorted_NoDup_keys _ (to_sorted _ _ _ Htab0)) as Hk. rewrite Hsp, map_app, NoDup_app in Hk.
    destruct Hk as (_ & Hk & _). apply (Hk f); [|left]. apply list_elem_of_fmap. by exists (f, s0). }
  assert (forall g sg, m_find g (files_ k) = Some sg -> owned (allocator_ k) (file_number sg) (tracks sg)) as Hold.
  { intros g sg Hg. apply (to_entry _ _ _ Ht g sg Hg). }
  assert (file_number st <> 0 -> owned (allocator_ k) (file_number st) []) as Hnone.
  { intros Hnz. apply owned_nil. intros tr Hown. destruct (Hl tr _ Hown Hnz) as (g & sg & Hg & E).
    by apply (Hnum Hnz g sg Hg) in E. }
  case_bool_decide as Enil; simpl.
  - exists (allocator_ k). split; [done|]. split; [apply Ht|]. split; [done|]. split_and!; auto. rewrite Enil.
    destruct (decide (file_number st = 0)) as [->|Hnz]; [by apply owned_nil|auto].
  - assert (file_number st <> 0) as Hnz.
    { destruct trs as [|tr trs]; [by rewrite Etr in Enil|]. by destruct (proj1 (Ho tr)) as [_ ?]; [left|]. }
    destruct (Restore_tracks (file_number st) trs (allocator_ k)) as (a' & E & Hwf & Hza & Hcl); try done.
    { apply Ht. }
    { intros ->. by rewrite Etr in Enil. }
    { intros tr [Htr _]%Ho. by apply (Hfr f st); [left|..]. }
    rewrite Etr, E. exists a'. split; [done|]. split; [done|]. split; [done|].
    specialize (Hnone Hnz). split_and!.
    + pose proof (owned_claimed _ _ _ _ _ _ Hcl Hnz Hnone Hnone) as H. by rewrite decide_True in H.
    + intros g sg Hg. pose proof (owned_claimed _ _ _ _ _ _ Hcl Hnz Hnone (Hold g sg Hg)) as H.
      rewrite decide_False in H; [done|by eapply Hnum].
    + intros tr n Hown _. destruct (decide (tr ∈ trs)) as [Hi|Hi].
      * rewrite (claimed_owner _ _ _ _ Hcl tr Hi) in Hown. left. congruence.
      * rewrite (claimed_other _ _ _ _ Hcl tr Hi) in Hown. by right.
    + intros tr Hfree Hne. rewrite (claimed_other _ _ _ _ Hcl); [done|]. by intros [? _]%Ho.
Qed.


Lemma loaded_in_files0 done todo k g sg :
  loading done todo k -> m_find g (files_ k) = Some sg ->
  exists s0, (g, s0) ∈ done /\ sg = reload disk s0 /\ m_find g files0 = Some s0.
Proof.
  intros Hload Hg. destruct (ld_only _ _ _ Hload g sg Hg) as (s0 & Hs0 & ->). exists s0. split_and!; try done.
  apply elem_of_find; [apply Htab0|]. rewrite (ld_split _ _ _ Hload). apply elem_of_app. by left.
Qed.

Lemma todo_in_files0 done todo k g sg : loading done todo k -> (g, sg) ∈ todo -> m_find g files0 = Some sg.
Proof.
  intros Hload Hin. apply elem_of_find; [apply Htab0|]. rewrite (ld_split _ _ _ Hload). apply elem_of_app. by right.
Qed.

(** Loaded files and the rest have different names. *)
Lemma loaded_fresh done todo k g sg f st :
  loading done todo k -> m_find g (files_ k) = Some sg -> (f, st) ∈ todo -> g <> f.
Proof.
  intros Hload Hg Hin ->. destruct (ld_only _ _ _ Hload f sg Hg) as (s0 & Hs0 & _).
  pose proof (sorted_NoDup_keys _ (to_sorted _ _ _ Htab0)) as Hk.
  rewrite (ld_split _ _ _ Hload), map_app, NoDup_app in Hk. destruct Hk as (_ & Hk & _).
  apply (Hk f); apply list_elem_of_fmap; [by exists (f, s0)|by exists (f, st)].
Qed.

(** The table after the entry of [f] is inserted. *)
Lemma table_load done f st todo k a' :
  loading done ((f, st) :: todo) k -> wf a' -> zones_ a' = zones_ (allocator_ k) ->
  owned a' (file_number st) (tracks st) ->
  (forall g sg, m_find g (files_ k) = Some sg -> owned a' (file_number sg) (tracks sg)) -> fits st ->
  table_ok dbname a' (m_insert f (reload disk st) (m_insert f (stored_state st) (files_ k))).
Proof.
  intros Hload Hwf Hza Hown Hold Hfits. pose proof Hload as [Hsp _ _ _ Ht _ _ Hcn _ _ _].
  assert (m_find f files0 = Some st) as Hf0 by (eapply todo_in_files0; [done|left]).
  pose proof (to_entry _ _ _ Htab0 f st Hf0) as [E1 E2 E3 E4 E5 _].
  assert (lenZ (data (stored_state st)) = lenZ (data st)) as Hlen by (unfold lenZ; simpl; by rewrite length_replicate).
  assert (table_ok dbname a' (m_insert f (stored_state st) (files_ k))) as Ht1.
  { apply (table_insert _ _ _ Ht); try done.
    - intros g sg Hg Hn Hnz. exfalso. destruct (loaded_in_files0 _ _ _ _ _ Hload Hg) as (s0 & _ & -> & Hg0).
      eapply (loaded_fresh _ _ _ g); [done|done|left|].
      by apply (to_unique _ _ _ Htab0 g f s0 st); [..|simpl in *; congruence].
    - split; try done. by rewrite Hlen.
    - right. pose proof (to_count _ _ _ Htab0) as H. rewrite Hsp, lenZ_app, lenZ_cons in H.
      pose proof (lenZ_nonneg todo). lia.
    - intros g sg Hg _. eauto. }
  apply (table_put _ _ _ Ht1 f _ (stored_state st)); [by rewrite find_insert_eq|done|].
  split; try done. by rewrite lenZ_reload.
Qed.

Lemma load_entry_spec done f st todo rest k :
  loading done ((f, st) :: todo) k ->
  exists k' s rest', load_entry (encode_entry dbname f st ++ rest) k = Some (k', s, rest') /\
    (s = OK -> rest' = rest /\ loading (done ++ [(f, st)]) todo k' /\ same_env k k').
Proof.
  intros Hload. pose proof (restore_entry _ _ _ _ _ Hload) as (a' & Ha & Hwf & Hza & Hown & Hold & Hnew & Hfree).
  pose proof Hload as [Hsp Hdb Hdk Hdu Ht Hz Hl Hcn Hfd Hon Hfr].
  assert (m_find f files0 = Some st) as Hf0 by (eapply todo_in_files0; [done|left]).
  assert (forall g sg, m_find g (files_ k) = Some sg -> g <> f) as Hne
    by (intros; eapply loaded_fresh; [done|done|left]).
  destruct (entry_typed f st Hf0) as [Hty Hname].
  unfold load_entry. rewrite decode_encode_entry by done. rewrite Hdb, <- Hname.
  change (tracks (stored_state st)) with (tracks st). change (file_number (stored_state st)) with (file_number st).
  rewrite Ha. simpl negb. cbv iota.
  destruct (RestorePayload_spec (stored_state st) (backend_ k)) as (d & s & st' & E & Hc & Hd & Hok & _);
    [by eapply owned_good|].
  simpl backend_. rewrite E. eexists _, _, _. split; [done|]. intros Hs. destruct (Hok Hs) as [Hfit ->].
  set (k' := put_file _ _ _). split; [done|]. split; [|done].
  assert (set_data (data (reload (contents (backend_ k)) (stored_state st))) (stored_state st) = reload disk st) as Est.
  { unfold reload, set_data. simpl. rewrite length_replicate. do 2 f_equal. unfold disk_bytes. f_equal.
    apply map_ext. intros g. by apply disk_read_ext. }
  assert (fits st) as Hfits by (unfold fits, lenZ in *; simpl in Hfit; by rewrite length_replicate in Hfit).
  assert (files_ k' = m_insert f (reload disk st) (m_insert f (stored_state st) (files_ k))) as Efiles
    by (rewrite <- Est; done).
  assert (forall g, m_find g (files_ k') = if decide (f = g) then Some (reload disk st) else m_find g (files_ k)) as Hfind.
  { intros g. rewrite Efiles, !find_insert. by repeat case_decide. }
  split.
  - by rewrite <- app_assoc.
  - done.
  - intros a. simpl. by rewrite Hc.
  - intros a. simpl. by rewrite Hd.
  - rewrite Efiles. by eapply table_load.
  - simpl. by rewrite Hza.
  - intros tr n Htr Hn. destruct (Hnew tr n Htr Hn) as [->|Hold'].
    + exists f, (reload disk st). by rewrite Hfind, decide_True by done.
    + destruct (Hl tr n Hold' Hn) as (g & sg & Hg & Hgn). exists g, sg. rewrite Hfind, decide_False; [done|].
      apply not_eq_sym. eauto.
  - rewrite Efiles. erewrite lenZ_insert; [|by apply insert_sorted, Ht|apply find_insert_eq].
    pose proof (lenZ_insert_le f (stored_state st) (files_ k)). rewrite lenZ_app. change (lenZ [(f, st)]) with 1. lia.
  - intros g sg [Hin|Hin]%elem_of_app; rewrite Hfind.
    + destruct (Hfd g sg Hin) as [? Hg]. rewrite decide_False; [done|]. apply not_eq_sym. eauto.
    + apply list_elem_of_singleton in Hin. injection Hin as -> ->. by rewrite decide_True.
  - intros g sg. rewrite Hfind. case_decide as Hg.
    + intros [= <-]. exists st. split; [|done]. subst g. apply elem_of_app. right. left.
    + intros Hsg. destruct (Hon g sg Hsg) as (s0 & ? & ->). exists s0. split; [|done]. apply elem_of_app. by left.
  - intros g sg tr Hin Htr Hnz. simpl. apply Hfree; [by eapply Hfr; [right|..]|]. rewrite Htr. intros [= E'].
    assert (m_find g files0 = Some sg) as Hg0 by (eapply todo_in_files0; [done|by right]).
    pose proof (to_unique _ _ _ Htab0 g f sg st Hg0 Hf0 E' Hnz) as ->.
    assert (sorted ((f, st) :: todo)) as Hst.
    { pose proof (to_sorted _ _ _ Htab0) as H. rewrite Hsp in H. by apply sorted_app in H. }
    by apply (head_key_fresh _ _ _ _ _ Hst Hin).
Qed.

Lemma load_entries_spec todo : forall done k,
  loading done todo k ->
  exists k' s, load_entries (length todo) (concat (map (fun e => encode_entry dbname e.1 e.2) todo)) k = Some (k', s) /\
    (s = OK -> loading files0 [] k' /\ same_env k k').
Proof.
  induction todo as [|[f st] todo IH]; intros done k Hload; simpl.
  - eexists _, _. split; [done|]. intros _. split; [|done].
    pose proof (ld_split _ _ _ Hload) as Hsp. rewrite app_nil_r in Hsp. by subst done.
  - destruct (load_entry_spec done f st todo (concat (map (fun e => encode_entry dbname e.1 e.2) todo)) k Hload)
      as (k1 & s1 & rest & -> & Hok).
    destruct (ok s1) eqn:E; simpl; [|eexists _, _; split; [done|]; by intros ->].
    apply ok_OK in E. destruct (Hok E) as (-> & Hload1 & Henv1).
    destruct (IH _ _ Hload1) as (k2 & s2 & -> & Hok2). eexists _, _. split; [done|]. intros Hs2.
    destruct (Hok2 Hs2) as [Hload2 Henv2]. split; [done|]. unfold same_env in *. intuition congruence.
Qed.

(** The object right before its entries are loaded. *)
Lemma loading_start k :
  dbname_ k = dbname -> (forall a, contents (backend_ k) a = disk a) -> (forall a, durable (backend_ k) a = disk a) ->
  files_ k = [] -> allocator_ k = Reset (zones_ a0) -> loading [] files0 k.
Proof.
  intros Hdb Hc Hd Hf Ha. pose proof (wf_zones _ (to_wf _ _ _ Htab0)) as Hz.
  assert (forall tr n, owner (allocator_ k) tr = Some n -> n = 0) as Hfree.
  { intros tr n. rewrite Ha, owner_Reset by done. case_match; congruence. }
  split; try done; rewrite ?Hf; try done.
  - rewrite Ha. split; try done; [by apply wf_Reset|apply Htab0].
  - by rewrite Ha.
  - intros tr n Htr Hn. by apply Hfree in Htr.
  - intros f st Hin. by apply elem_of_nil in Hin.
  - intros f st tr _ Htr _. rewrite Ha, owner_Reset by done.
    pose proof (owner_index _ (to_wf _ _ _ Htab0) _ _ Htr) as Hi. replace (_ && _) with true by lia. done.
Qed.

(** Content [c] of [f] can be read back from the disk with entry [st0]. *)
Definition readable (c : bytes) (st0 : SSTableState) : Prop :=
  lenZ c <= lenZ (data st0) /\
  forall x i s b, 0 <= x < lenZ c -> located (tracks st0) x i s b -> nthZ c x = Some (disk (addr s b x)).

Lemma readable_prefix c st0 : readable c st0 -> fits st0 -> take (length c) (data (reload disk st0)) = c.
Proof.
  intros [Hlen Hr] Hfit. pose proof (lenZ_reload disk st0 Hfit) as Hl. pose proof (lenZ_nonneg c).
  rewrite <- (to_nat_lenZ c). apply list_eq_nthZ; rewrite lenZ_take by lia; [lia|].
  intros x Hx. rewrite nthZ_take by lia. replace (x <? lenZ c) with true by lia. unfold fits in Hfit.
  destruct (located_exists (tracks st0) x) as (i & s & b & Hloc); [lia|].
  rewrite (reload_nth disk st0 x i s b) by (done || lia). symmetry. apply (Hr x i s b); [lia|done].
Qed.

Lemma reload_safe k st0 x :
  (forall a, contents (backend_ k) a = disk a) -> (forall a, durable (backend_ k) a = disk a) -> fits st0 ->
  0 <= x < lenZ (data st0) -> safe (backend_ k) (reload disk st0) x.
Proof.
  intros Hc Hd Hfit Hx. unfold fits in Hfit. split; [simpl; lia|]. intros i s b v Hloc Hv.
  rewrite (reload_nth disk st0 x i s b Hloc ltac:(lia)) in Hv. injection Hv as <-. simpl.
  rewrite Hc, Hd. split_and!; try done.
Qed.

(** A fully loaded object satisfies the invariant for every content that can be
    read back. *)
Lemma loaded_inv G k file :
  loading files0 [] k -> persistence_enabled_ k = true -> configured_zones_ k = zones_ a0 -> zones_ a0 <> 0 ->
  MetaFs.meta_current (fs_ k) = Some file -> MetaFs.meta_durable (fs_ k) = Some file ->
  MetaFs.file_data file = encode_snapshot dbname (zones_ a0) files0 ->
  MetaFs.FsTolerated ∉ MetaFs.fs_script (fs_ k) ->
  (forall f c, m_find f G = Some c -> exists st0, m_find f files0 = Some st0 /\ readable c st0) ->
  inv G k.
Proof.
  intros Hload Hen Hz Hznz Hcur Hdur Hfile Hfs HG. pose proof Hload as [_ Hdb Hdk Hdu Ht Hza Hl Hcn Hfd Hon _].
  assert (forall f st0, m_find f files0 = Some st0 -> fits st0 /\ m_find f (files_ k) = Some (reload disk st0)) as Hfind.
  { intros f st0 H. apply Hfd. by apply find_elem_of. }
  split; try done.
  - by rewrite Hdb.
  - by rewrite Hz, Hza.
  - intros f st Hf. destruct (loaded_in_files0 _ _ _ _ _ Hload Hf) as (s0 & _ & -> & H0).
    destruct (Hfind f s0 H0) as [Hfit _]. split; simpl; [constructor|split; [done|by intros i b Hb..]|].
    intros x Hx. right. apply reload_safe; try done. by rewrite <- (lenZ_reload disk s0 Hfit).
  - intros f c Hfc. destruct (HG f c Hfc) as (st0 & Hf0 & Hr). destruct (Hfind f st0 Hf0) as [Hfit Hf].
    exists (reload disk st0). split; [done|]. split; [by apply readable_prefix|].
    intros x Hx. apply reload_safe; try done. destruct Hr. lia.
  - intros m Hm. assert (m = Some file) as -> by (destruct Hm as [->|[-> _]]; done).
    exists files0. rewrite Hdb, Hz. split; [done|]. split; [by exists a0|].
    intros f c Hfc. destruct (HG f c Hfc) as (st0 & Hf0 & [Hlen _]). destruct (Hfind f st0 Hf0) as [_ Hf].
    exists (reload disk st0), st0. split_and!; auto.
Qed.
End Load.

(** ** [InitializePersistence] *)

(** Metadata [m] and the device content [disk] hold the contents [G]. *)
Definition bootable (G : stdmap bytes bytes) (dbname : bytes) (zones : Z) (m : option MetaFs.file) (disk : Z -> Z) : Prop :=
  match m with
  | None => forall f, m_find f G = None
  | Some file => exists files0 a0,
      MetaFs.file_data file = encode_snapshot dbname zones files0 /\
      table_ok dbname a0 files0 /\ zones_ a0 = zones /\
      forall f c, m_find f G = Some c -> exists st0, m_find f files0 = Some st0 /\ readable disk c st0
  end.


(** The object [InitializePersistence] hands to [LoadSnapshotLocked]. *)
Definition opened_object dbname zones (fs : MetaFs.Fs) (dev : D) k0 : KVIMR D :=
  MkKVIMR [] [] (Reset zones) dev true zones dbname (dbname ++ str "/KVIMR-META")
    (rmw_counters_ k0) (rmw_mode_ k0) fs.

(** [InitializePersistence] up to the load. *)
Lemma initialize_open dbname zones disk path fs2 k0 :
  0 < zones ->
  (forall a, contents (backend_ k0) a = disk a) -> (forall a, durable (backend_ k0) a = disk a) ->
  (exists k' s, InitializePersistence dbname zones path fs2 k0 = Some (k', s) /\ s <> OK) \/
  (exists dev, InitializePersistence dbname zones path fs2 k0 =
       LoadSnapshotLocked (opened_object dbname zones fs2 dev k0) /\
     (forall a, contents dev a = disk a) /\ (forall a, durable dev a = disk a) /\
     (persistence_enabled_ k0 = false -> dev = (dev_open (backend_ k0) path).1)).
Proof.
  intros Hz Hc Hd. unfold InitializePersistence. replace (zones =? 0) with false by lia.
  set (b0 := if persistence_enabled_ k0 then _ else _).
  assert ((forall a, contents b0 a = disk a) /\ (forall a, durable b0 a = disk a)) as [Hc0 Hd0].
  { unfold b0. destruct (persistence_enabled_ k0); [|done].
    destruct (close_law (backend_ k0)) as [H1 H2]. split; intros a; rewrite ?H1, ?H2; auto. }
  destruct (open_law b0 path) as [Hc1 Hd1]. destruct (dev_open b0 path) as [b1 s1] eqn:Eo. simpl in Hc1, Hd1.
  destruct (ok s1) eqn:Es1; simpl.
  - right. exists b1. split; [done|]. split_and!; [intros a; rewrite Hc1; auto|intros a; rewrite Hd1; auto|].
    intros He. unfold b0 in Eo. rewrite He in Eo. by rewrite Eo.
  - left. eexists _, _. split; [done|]. by intros ->.
Qed.

(** Loading snapshot [files0] into the opened object. *)
Lemma load_snapshot dbname zones file files0 a0 disk fs2 dev k0 :
  MetaFs.file_data file = encode_snapshot dbname zones files0 -> table_ok dbname a0 files0 -> zones_ a0 = zones ->
  (forall a, contents dev a = disk a) -> (forall a, durable dev a = disk a) ->
  MetaFs.meta_current fs2 = Some file ->
  exists k' s, LoadSnapshotLocked (opened_object dbname zones fs2 dev k0) = Some (k', s) /\
    (s = OK -> loading dbname files0 a0 disk files0 [] k' /\ persistence_enabled_ k' = true /\
       configured_zones_ k' = zones /\ MetaFs.same_meta fs2 (fs_ k') /\ MetaFs.shrinks fs2 (fs_ k')).
Proof.
  intros Hdata Htab <- Hc Hd Hcur. unfold LoadSnapshotLocked. simpl fs_.
  destruct (MetaFs.read_metadata_spec fs2) as (fs3 & r & Er & Hm & Hr & _). rewrite Er.
  apply MetaFs.read_metadata_shrinks in Er. set (k1 := set_fs fs3 _).
  destruct r as [|msg|bs]; simpl; [congruence|by eexists _, _|].
  destruct Hr as (file' & Hf & ->). assert (file' = file) as -> by congruence. rewrite Hdata.
  pose proof (to_count _ _ _ Htab) as Hcount. pose proof (lenZ_nonneg files0).
  pose proof (wf_zones _ (to_wf _ _ _ Htab)). unfold encode_snapshot.
  rewrite decode_encode_header by (rewrite ?u32_small; lia). rewrite u32_small, to_nat_lenZ by lia.
  destruct (load_entries_spec dbname files0 a0 disk Htab files0 [] k1) as (k2 & s2 & -> & Hok).
  { by apply loading_start. }
  eexists _, _. split; [done|]. intros Hs2. destruct (Hok Hs2) as [Hload (E1 & E2 & E3 & _)].
  rewrite E1, E2, E3. done.
Qed.

Lemma load_nothing dbname zones fs2 dev k0 G :
  0 < zones < 2 ^ 25 -> MetaFs.meta_current fs2 = None -> MetaFs.meta_durable fs2 = None ->
  MetaFs.FsTolerated ∉ MetaFs.fs_script fs2 -> (forall f, m_find f G = None) ->
  exists k' s, LoadSnapshotLocked (opened_object dbname zones fs2 dev k0) = Some (k', s) /\
    (s = OK -> inv G k' /\ dbname_ k' = dbname /\ configured_zones_ k' = zones).
Proof.
  intros Hz Hcur Hdur Hfs HG. unfold LoadSnapshotLocked. simpl fs_.
  destruct (MetaFs.read_metadata_spec fs2) as (fs3 & r & Er & [Hm1 Hm2] & Hr & _). rewrite Er.
  apply MetaFs.read_metadata_shrinks in Er. destruct r as [|msg|bs]; simpl; [|by eexists _, _|].
  - eexists _, _. split; [done|]. intros _. split; [|done]. split; try done.
    + split; try done; [apply wf_Reset; lia|simpl; lia].
    + intros tr n. simpl. rewrite owner_Reset by lia. case_match; congruence.
    + simpl. lia.
    + intros f c Hf. by rewrite HG in Hf.
    + intros m' [->|[-> _]]; simpl; rewrite ?Hm1, ?Hm2, ?Hcur, ?Hdur; done.
    + intros H. by apply Er in H.
  - destruct Hr as (f & Hf & _). congruence.
Qed.

Lemma initialize_inv G dbname zones m disk path fs2 k0 :
  0 < zones < 2 ^ 25 -> bootable G dbname zones m disk ->
  (forall a, contents (backend_ k0) a = disk a) -> (forall a, durable (backend_ k0) a = disk a) ->
  MetaFs.meta_current fs2 = m -> MetaFs.meta_durable fs2 = m -> MetaFs.FsTolerated ∉ MetaFs.fs_script fs2 ->
  exists k' s, InitializePersistence dbname zones path fs2 k0 = Some (k', s) /\
    (s = OK -> inv G k' /\ dbname_ k' = dbname /\ configured_zones_ k' = zones).
Proof.
  intros Hz Hboot Hc Hd Hcur Hdur Hfs.
  destruct (initialize_open dbname zones disk path fs2 k0 ltac:(lia) Hc Hd) as [(k' & s & E & Hs)|(dev & -> & Hc1 & Hd1 & _)].
  { exists k', s. by split. }
  destruct m as [file|]; [|by apply load_nothing].
  destruct Hboot as (files0 & a0 & Hdata & Htab & Hza & HG).
  destruct (load_snapshot dbname zones file files0 a0 disk fs2 dev k0) as (k' & s & -> & Hok); try done.
  eexists _, _. split; [done|]. intros Hs. destruct (Hok Hs) as (Hload & He & Hzn & [Hm1 Hm2] & Hsh).
  split; [|split; [apply Hload|done]].
  apply (loaded_inv dbname files0 a0 disk Htab G k' file); try congruence; try done; [lia|].
  intros H. by apply Hsh in H.
Qed.

Lemma inv_bootable G k m :
  inv G k -> MetaFs.after_crash (fs_ k) m ->
  bootable G (dbname_ k) (configured_zones_ k) m (durable (backend_ k)).
Proof.
  intros Hinv Hm. pose proof Hinv as [Ht Hl He Hz Hp Hc Hmeta Hfs]. specialize (Hmeta m Hm).
  destruct m as [file|]; [|done]. destruct Hmeta as (files0 & E & (a0 & Htab & Hz0) & Hall).
  exists files0, a0. split; [done|]. split; [done|]. split; [done|].
  intros f c Hfc. destruct (Hall f c Hfc) as (st & st0 & Hst & Hst0 & Htr & Hlen). exists st0. split; [done|].
  split; [done|]. intros x i s b Hx Hloc. destruct Htr as [?|Htr]; [lia|].
  destruct (Hc f c Hfc) as (st' & Hst' & Htake & Hsafe). assert (st' = st) as -> by congruence.
  destruct (nthZ_is_Some c x) as [v Hv]; [lia|]. rewrite Hv. f_equal. rewrite Htr in Hloc.
  destruct (Hsafe x Hx) as [_ Hper]. destruct (Hper i s b v Hloc) as (_ & Hd & _); [|by symmetry].
  rewrite <- Htake, <- (to_nat_lenZ c), nthZ_take in Hv by lia. by replace (x <? lenZ c) with true in Hv by lia.
Qed.

Lemma inv_zone_range G k : inv G k -> 0 < configured_zones_ k < 2 ^ 25.
Proof.
  intros [Ht _ _ [Hz Hnz] _ _ _ _]. pose proof (wf_zones _ (to_wf _ _ _ Ht)). pose proof (to_zones _ _ _ Ht). lia.
Qed.
End Recovery.
