(* ===== verification/KvimrHealthy.v ===== *)
(** Progress of the middleware on a device and a file system that serve every
    request: the payload loops, [kvsync] and recovery succeed. *)

From S2P Require Import Prelude StdMap TrackAllocator BlockDevice MetaFs KvimrState Snapshot Rmw RmwSpec Kvimr KvimrInv KvimrRecovery.
Import TrackAllocator.

(** ** The payload loops *)

(** [R] admits every whole-sector range inside a segment. *)
Definition admits (R : Z -> Z -> Prop) (segs : list KVIMRTrackSegment) : Prop :=
  forall s lo n, s ∈ segs -> lo mod 512 = 0 -> n mod 512 = 0 -> 0 <= lo -> 0 <= n -> lo + n <= cap s ->
    R (segment_address s + lo) n.

Section Healthy.
Context {D : Type} `{BDL : BlockDeviceLaws D} `{HD : !HealthyDevice D}.
Variables (R : Z -> Z -> Prop) (segs : list KVIMRTrackSegment) (file : bytes) (mode : RMWMode).
Hypothesis Hgood : good_segments segs.
Hypothesis HR : admits R segs.
Implicit Types cx : Ctx D.

Lemma admits_whole s : s ∈ segs -> R (segment_address s) (cap s).
Proof.
  intros Hs. pose proof (cap_pos s). pose proof (cap_mod s).
  replace (segment_address s) with (segment_address s + 0) by lia. apply HR; try done; lia.
Qed.

(** A read that the device serves. *)
Lemma read_ok (d : D) off buf : healthy R d -> R off (lenZ buf) ->
  exists d' buf', dev_read d off buf = Some (d', OK, buf') /\ healthy R d' /\ lenZ buf' = lenZ buf.
Proof.
  intros Hh Hr. destruct (healthy_read R d off buf Hh Hr) as (d' & buf' & E & Hh').
  destruct (read_law d off buf) as (d2 & s2 & b2 & E2 & _ & _ & Hl & _). rewrite E in E2. injection E2 as <- <- <-.
  exists d', buf'. split_and!; try done. unfold lenZ. by rewrite Hl.
Qed.

Lemma lenZ_zeros n : 0 <= n -> lenZ (replicate (Z.to_nat n) 0) = n.
Proof. intros. unfold lenZ. rewrite length_replicate. lia. Qed.

Section One.
Variables (u : PendingUpdate) (i : Z) (s : KVIMRTrackSegment) (b os oe : Z) (cx : Ctx D).
Hypothesis Hu : update_ok file u.
Hypothesis Hat : seg_at segs i s b.
Hypothesis Hov : b <= os /\ os < oe /\ oe <= b + cap s.
Hypothesis Hin : upd_offset u <= os /\ oe <= upd_offset u + lenZ (upd_data u).
Hypothesis Hwf : bufs_wf segs (cx_buffers cx).
Hypothesis Hh : healthy R (cx_dev cx).

Let patch := slice (upd_data u) (os - upd_offset u) (oe - os).

Lemma apply_overlap_ok :
  exists cx', apply_overlap mode file u i s b os oe cx = Some (cx', OK) /\ healthy R (cx_dev cx').
Proof.
  pose proof (seg_at_elem _ _ _ _ Hat) as Hs. pose proof (good_capacity _ Hgood _ Hs) as Hcap.
  pose proof (cap_pos s).
  assert (lenZ patch = oe - os) as Hpatch by (unfold patch; apply lenZ_slice; lia).
  unfold apply_overlap. fold patch. destruct (seg_type s) eqn:Ety; [destruct mode|].
  - unfold rmw_naive. rewrite Hcap.
    destruct (read_ok (cx_dev cx) (segment_address s) (replicate (Z.to_nat (cap s)) 0) Hh)
      as (d1 & track & -> & Hh1 & Hl); [rewrite lenZ_zeros by lia; by apply admits_whole|]. simpl.
    rewrite lenZ_zeros in Hl by lia.
    destruct (healthy_write R d1 (segment_address s) (splice track (os - b) patch) Hh1) as (d2 & -> & Hh2).
    { rewrite lenZ_splice by lia. rewrite Hl. by apply admits_whole. }
    simpl. by eexists.
  - unfold rmw_merged, m_get. rewrite Hcap. destruct (buf_loaded _); simpl; [by eexists|].
    set (fresh := take _ _).
    assert (lenZ fresh = cap s) as Hfl.
    { unfold fresh, lenZ. rewrite length_take, length_app, length_replicate. lia. }
    destruct (read_ok (cx_dev cx) (segment_address s) fresh Hh) as (d1 & track & -> & Hh1 & _);
      [rewrite Hfl; by apply admits_whole|]. simpl. by eexists.
  - unfold write_direct. change kSectorSize with 512.
    pose proof (good_address _ Hgood _ Hs) as [_ Haddr].
    pose proof (seg_at_bound _ _ _ _ Hat) as (_ & Hb0 & Hb). pose proof (good_capsum _ Hgood) as Hcs.
    pose proof (aligned_bounds segs i s b os oe Hat Hov) as Hal. simpl in Hal.
    rewrite (u64_small (oe + 512)) by lia. rewrite (u64_small (oe + 512 - 1)) by lia.
    replace (oe + 512 - 1) with (oe + 511) by lia.
    assert (((oe + 511) / 512 * 512) mod 512 = 0) as Hae by (by apply Z.mod_mul).
    set (as_ := os / 512 * 512) in *. set (ae := (oe + 511) / 512 * 512) in *.
    rewrite (u64_small (ae - as_)) by lia. rewrite (u64_small (segment_address s + as_)) by lia.
    rewrite (u64_small (segment_address s + as_ - b)) by lia.
    match goal with |- context [dev_write _ _ ?bs] => set (direct := bs) end.
    assert (lenZ direct = ae - as_) as Hdl.
    { unfold direct. pose proof (lenZ_zeros (ae - as_) ltac:(lia)) as Hz. zcase; [|done].
      pose proof (lenZ_slice file as_ (Z.min (ae - as_) (lenZ file - as_)) ltac:(lia) ltac:(lia) ltac:(lia)).
      rewrite lenZ_splice; lia. }
    assert (b mod 512 = 0) as Hbm by (destruct Hat as [_ ->]; apply capsum_mod).
    destruct (healthy_write R (cx_dev cx) (segment_address s + as_ - b) direct Hh) as (d & -> & Hh1).
    { rewrite Hdl. replace (segment_address s + as_ - b) with (segment_address s + (as_ - b)) by lia.
      apply HR; try done; try lia; rewrite Zminus_mod, ?Hae, ?Hbm; destruct Hal as (_ & _ & ->); done. }
    simpl. by eexists.
Qed.
End One.

Hypothesis Hfit : lenZ file <= capsum segs.

Lemma apply_segments_ok u rest : forall pre cx,
  update_ok file u -> segs = pre ++ rest -> bufs_wf segs (cx_buffers cx) -> healthy R (cx_dev cx) ->
  exists cx', apply_segments mode file u (lenZ pre) (capsum pre) rest cx = Some (cx', OK) /\ healthy R (cx_dev cx').
Proof.
  pose proof (good_capsum _ Hgood) as Hcs.
  induction rest as [|s rest IH]; intros pre cx Hu Hsegs Hwf Hh; simpl; [by eexists|].
  pose proof (seg_at_suffix _ _ _ _ Hsegs) as Hat.
  pose proof (seg_at_bound _ _ _ _ Hat) as (_ & Hb0 & Hb).
  rewrite (good_capacity _ Hgood _ (seg_at_elem _ _ _ _ Hat)). pose proof (cap_pos s).
  pose proof Hu as (Ho & Hoe & _). pose proof (lenZ_nonneg (upd_data u)).
  rewrite (u64_small (upd_offset u + _)) by lia. rewrite (u64_small (capsum pre + _)) by lia.
  set (os := Z.max _ _). set (oe := Z.min _ _).
  assert (exists cx1, (if os <? oe then apply_overlap mode file u (lenZ pre) s (capsum pre) os oe cx
     else Some (cx, OK)) = Some (cx1, OK) /\ healthy R (cx_dev cx1) /\ bufs_wf segs (cx_buffers cx1))
    as (cx1 & -> & Hh1 & Hwf1).
  { destruct (os <? oe) eqn:Eo; [|by exists cx].
    destruct (apply_overlap_ok u (lenZ pre) s (capsum pre) os oe cx) as (cx1 & E & Hh1); try done; try lia.
    destruct (apply_overlap_spec segs file mode Hgood u (lenZ pre) s (capsum pre) os oe cx)
      as (cx1' & st' & E' & HE & _); try done; try lia.
    rewrite E in E'. injection E' as <- <-. exists cx1. split; [done|]. split; [done|]. apply HE. }
  simpl. zcase; [by eexists|].
  specialize (IH (pre ++ [s]) cx1 Hu). rewrite <- app_assoc in IH. specialize (IH Hsegs Hwf1 Hh1).
  rewrite lenZ_app, capsum_app in IH. simpl in IH. rewrite Z.add_0_r in IH. exact IH.
Qed.

Lemma apply_updates_ok us : forall cx,
  Forall (update_ok file) us -> bufs_wf segs (cx_buffers cx) -> healthy R (cx_dev cx) ->
  exists cx', apply_updates mode file segs us cx = Some (cx', OK) /\ healthy R (cx_dev cx').
Proof.
  induction us as [|u us IH]; intros cx Hok Hwf Hh; simpl; [by eexists|].
  apply Forall_cons in Hok as [Hu Hus].
  destruct (apply_segments_ok u segs [] cx Hu eq_refl Hwf Hh) as (cx1 & E & Hh1).
  destruct (apply_segments_spec segs file mode Hgood Hfit u segs [] cx Hu eq_refl Hwf) as (cx1' & st' & E' & HE & _).
  rewrite E in E'. injection E' as <- <-. change (lenZ (@nil KVIMRTrackSegment)) with 0 in E. simpl in E.
  rewrite E. simpl. apply IH; [done|apply HE|done].
Qed.

Lemma flush_buffers_ok l : forall (d : D) c, mirrors segs l -> healthy R d ->
  exists d' c', flush_buffers l d c = Some (d', c', OK) /\ healthy R d'.
Proof.
  induction l as [|[i buf] rest IH]; intros d c Hm Hh; simpl; [by eexists _, _|].
  assert (mirrors segs rest) as Hm' by (intros j b Hin; apply (Hm j b); by right).
  destruct (buf_dirty buf) eqn:Ed; simpl; [|by apply IH].
  destruct (Hm i buf) as (Hl & b & Hat); [left|done|].
  destruct (healthy_write R d (segment_address (buf_segment buf)) (buf_data buf) Hh) as (d1 & -> & Hh1).
  { rewrite Hl. apply admits_whole. by eapply seg_at_elem. }
  simpl. by apply IH.
Qed.

Lemma ApplyPending_ok state cx :
  data state = file -> tracks state = segs -> Forall (update_ok file) (pending_updates state) ->
  bufs_wf segs (cx_buffers cx) -> healthy R (cx_dev cx) ->
  exists cx', ApplyPendingUpdatesLocked mode state cx = Some (cx', OK) /\ healthy R (cx_dev cx').
Proof.
  intros Hd Ht Hus Hwf Hh. unfold ApplyPendingUpdatesLocked. rewrite Hd, Ht.
  pose proof (good_capsum _ Hgood). rewrite (total_capacity_eq segs Hgood) by (done || lia).
  replace (lenZ file >? capsum segs) with false by lia.
  destruct (apply_updates_ok (pending_updates state) cx Hus Hwf Hh) as (cx1 & E & Hh1).
  destruct (apply_updates_spec segs file mode Hgood Hfit _ cx Hus Hwf) as (cx1' & st' & E' & HE & _).
  rewrite E in E'. injection E' as <- <-. rewrite E. simpl. destruct mode; [by eexists|].
  destruct (flush_buffers_ok (cx_buffers cx1) (cx_dev cx1) (cx_counters cx1)) as (d & c & -> & Hh2).
  { apply bufs_mirrors, HE. }
  { done. }
  by eexists.
Qed.

(** Reading the payload back. *)
Lemma restore_segments_ok rest : forall restored (d : D) size,
  (forall s, s ∈ rest -> s ∈ segs) -> 0 <= lenZ restored -> healthy R d ->
  exists d' out, restore_segments size rest restored d = Some (d', OK, out) /\ healthy R d'.
Proof.
  induction rest as [|s rest IH]; intros restored d size Hin Hr Hh; simpl; [by eexists _, _|].
  zcase; [by eexists _, _|]. assert (s ∈ segs) as Hs by (apply Hin; left).
  rewrite (good_capacity _ Hgood _ Hs). change kSectorSize with 512. pose proof (cap_pos s) as Hc. pose proof (cap_mod s) as Hm.
  set (chunk := Z.min _ _). set (n := (chunk + 512 - 1) / 512 * 512).
  assert (0 <= n <= cap s) as Hn.
  { assert (0 <= chunk <= cap s) by lia. pose proof (Z.div_mod (cap s) 512 ltac:(lia)).
    pose proof (Z.div_mod (chunk + 512 - 1) 512 ltac:(lia)).
    pose proof (Z.mod_pos_bound (chunk + 512 - 1) 512 ltac:(lia)). lia. }
  destruct (read_ok d (segment_address s) (replicate (Z.to_nat n) 0) Hh) as (d1 & buf & -> & Hh1 & _).
  { rewrite lenZ_zeros by lia. replace (segment_address s) with (segment_address s + 0) by lia.
    apply HR; try done; try lia. by apply Z.mod_mul. }
  simpl. apply IH; [intros; apply Hin; by right|apply lenZ_nonneg|done].
Qed.
End Healthy.

(** ** [kvsync] *)

Lemma capsum_segments trs : capsum (map segment_of trs) = capacity trs.
Proof. induction trs as [|tr trs IH]; simpl; [done|]. unfold cap. by rewrite segment_of_type, IH. Qed.

(** [R] admits every whole-sector range inside a track of the device. *)
Definition admits_device (R : Z -> Z -> Prop) (zones : Z) : Prop :=
  forall tr, 0 <= tr.2 < zones * 64 -> admits R [segment_of tr].

Lemma owned_admits R a n segs : wf a -> admits_device R (zones_ a) -> owned a n segs -> admits R segs.
Proof.
  intros Hwf HR (trs & -> & _ & Ho) s lo len (tr & -> & Htr)%list_elem_of_fmap.
  apply Ho in Htr as [Htr _]. apply (HR tr); [by eapply owner_index|left].
Qed.

(** The file has its tracks, or there is room for it. *)
Definition has_room {D} (k : KVIMR D) (st : SSTableState) : Prop :=
  (tracks st <> [] /\ fits st) \/
  (tracks st = [] /\ file_number st <> 0 /\
   0 < lenZ (data st) <= available (level st =? effective_largest_level st) (allocator_ k)).

Section SyncOk.
Context {D : Type} `{BDL : BlockDeviceLaws D} `{HD : !HealthyDevice D}.
Implicit Types (k : KVIMR D) (G : stdmap bytes bytes).

(** Device and file system serve everything. *)
Definition quiet (R : Z -> Z -> Prop) k : Prop :=
  healthy R (backend_ k) /\ admits_device R (configured_zones_ k) /\ MetaFs.fs_script (fs_ k) = [].

Lemma allocate_tracks_ok G k f st :
  inv G k -> m_find f (files_ k) = Some st -> has_room k st ->
  exists k1 segs, allocate_tracks f st k = Some (k1, set_tracks segs st, OK) /\ segs <> [] /\
    fits (set_tracks segs st) /\ backend_ k1 = backend_ k /\ fs_ k1 = fs_ k /\
    configured_zones_ k1 = configured_zones_ k.
Proof.
  intros Hinv Hf Hroom. unfold allocate_tracks. destruct Hroom as [[Hne Hfit]|(Hnil & Hid & Hb)].
  - rewrite bool_decide_false by done. exists k, (tracks st). by destruct st.
  - rewrite bool_decide_true by done. simpl.
    destruct (Allocate_cases (file_number st) (lenZ (data st)) (level st) (effective_largest_level st) (allocator_ k))
      as [(_ & _ & trs & a' & -> & _ & _ & _ & Hcap & _)|(e & _ & _ & Hbad)];
      [apply Hinv|apply lenZ_nonneg| |lia].
    simpl. eexists _, _. split; [done|]. split; [|split; [|done]].
    + intros ->%map_eq_nil. simpl in Hcap. lia.
    + unfold fits. simpl. by rewrite capsum_segments.
Qed.

Lemma apply_pending_ok R G k f st :
  inv G k -> m_find f (files_ k) = Some st -> fits st -> quiet R k ->
  exists k1 bufs, apply_pending f st k = Some (k1, set_buffers bufs st, OK) /\ quiet R k1.
Proof.
  intros Hinv Hf Hfit (Hh & HR & Hfs). pose proof Hinv as [Ht _ _ [Hz _] Hp _ _ _].
  pose proof (eo_tracks _ _ _ _ (to_entry _ _ _ Ht f st Hf)) as Ho. destruct (Hp f st Hf) as [P1 P2 _].
  destruct (ApplyPending_ok R (tracks st) (data st) (rmw_mode_ k)) with (state := st)
    (cx := MkCtx (backend_ k) (rmw_counters_ k) (merged_buffers st)) as (cx & E & Hh1); try done.
  - by eapply owned_good, Ho; apply Ht.
  - eapply owned_admits, Ho; [apply Ht|by rewrite Hz].
  - unfold apply_pending. rewrite E. eexists _, _. split; [done|]. by split.
Qed.

Lemma PersistSnapshot_ok R k : quiet R k ->
  exists fs', PersistSnapshotLocked k = Some (set_fs fs' k, OK) /\ quiet R (set_fs fs' k).
Proof.
  intros (Hh & HR & Hfs). unfold PersistSnapshotLocked.
  destruct (MetaFs.write_metadata_quiet (fs_ k) (encode_snapshot (dbname_ k) (configured_zones_ k) (files_ k)) Hfs)
    as (fs' & -> & Hs). eexists. split; [done|]. by split.
Qed.

Lemma backend_sync_ok R k : quiet R k -> exists k1, backend_sync k = (k1, OK) /\ quiet R k1.
Proof.
  intros (Hh & HR & Hfs). unfold backend_sync. destruct (healthy_sync R (backend_ k) Hh) as (d & -> & Hh1).
  eexists. split; [done|]. by split.
Qed.

Lemma kvsync_ok R G k f st :
  inv G k -> m_find f (files_ k) = Some st -> quiet R k ->
  (data st = [] /\ pending_updates st = []) \/ has_room k st ->
  exists k', kvsync f k = Some (k', OK) /\ quiet R k'.
Proof.
  intros Hinv Hf Hq Hcase. unfold kvsync. rewrite Hf. destruct (_ && _) eqn:Ee.
  - rewrite (inv_enabled _ _ (set_synced_inv G k f st true Hinv Hf)). simpl negb. cbv iota.
    destruct (backend_sync_ok R (put_file f (set_synced true st) k)) as (k1 & -> & Hq1); [done|]. simpl.
    destruct (PersistSnapshot_ok R k1 Hq1) as (fs' & -> & Hq2). by eexists.
  - destruct Hcase as [[Hd Hp]|Hroom].
    { by rewrite Hd, Hp in Ee. }
    destruct (allocate_tracks_ok G k f st Hinv Hf Hroom) as (k1 & segs & E1 & Hne & Hfit & Eb & Ef & Ez).
    destruct (allocate_tracks_inv G k f st Hinv Hf) as (k1' & segs' & s1 & E1' & Hinv1 & Hf1 & _).
    rewrite E1 in E1'. injection E1' as <- E <-. rewrite <- E in Hf1. rewrite E1. simpl negb. cbv iota.
    rewrite (inv_enabled _ _ Hinv1).
    assert (quiet R k1) as Hq1 by (unfold quiet; by rewrite Eb, Ef, Ez).
    unfold PersistPayloadLocked, allocate_tracks. rewrite bool_decide_false by done. simpl negb. cbv iota.
    destruct (apply_pending_ok R G k1 f _ Hinv1 Hf1 Hfit Hq1) as (k2 & bufs & -> & Hq2). simpl.
    destruct (backend_sync_ok R k2 Hq2) as (k3 & -> & Hq3). simpl. unfold commit_sync.
    destruct (PersistSnapshot_ok R (put_file f (set_synced true (set_buffers bufs (set_tracks segs st))) k3))
      as (fs' & -> & Hq4); [done|]. simpl. by eexists.
Qed.
End SyncOk.

(** ** Recovery *)

Section RecoverOk.
Context {D : Type} `{BDL : BlockDeviceLaws D} `{HD : !HealthyDevice D}.
Variables (R : Z -> Z -> Prop) (dbname : bytes) (files0 : stdmap bytes SSTableState).
Variables (a0 : KVIMRTrackAllocator) (disk : Z -> Z).
Hypothesis Htab0 : table_ok dbname a0 files0.
Hypothesis HR : admits_device R (zones_ a0).
Hypothesis Hfits : forall f st, m_find f files0 = Some st -> fits st.
Implicit Types k : KVIMR D.

Lemma RestorePayload_ok st (d : D) :
  good_segments (tracks st) -> admits R (tracks st) -> fits st -> healthy R d ->
  exists d' st', RestorePayloadLocked st d = Some (d', OK, st') /\ healthy R d'.
Proof.
  intros Hgood Hadm Hfit Hh.
  destruct (restore_segments_ok R (tracks st) Hgood Hadm (tracks st) [] d (lenZ (data st)))
    as (d' & out & E & Hh'); try done.
  unfold RestorePayloadLocked. rewrite E. simpl.
  replace (lenZ out =? lenZ (data st)) with true; simpl; [by eexists _, _|].
  set (file := take (length (data st)) (disk_bytes (contents d) (tracks st))).
  assert (lenZ file = lenZ (data st)) as Hl by exact (lenZ_reload (contents d) st Hfit).
  unfold fits in Hfit.
  destruct (restore_segments_spec (tracks st) file Hgood ltac:(lia) (tracks st) [] d eq_refl)
    as (d3 & s3 & out3 & E3 & _ & _ & Hok).
  { intros x i g b v Hloc Hv. pose proof (nthZ_Some _ _ _ Hv) as Hx.
    change file with (data (reload (contents d) st)) in Hv.
    rewrite (reload_nth (contents d) st x i g b Hloc ltac:(lia)) in Hv. congruence. }
  change (take (Z.to_nat (capsum [])) file) with (@nil Z) in E3. rewrite Hl, E in E3. injection E3 as <- <- <-.
  rewrite Hok by done. lia.
Qed.

Lemma load_entries_ok todo : forall done k,
  loading dbname files0 a0 disk done todo k -> healthy R (backend_ k) ->
  exists k', load_entries (length todo) (concat (map (fun e => encode_entry dbname e.1 e.2) todo)) k = Some (k', OK).
Proof.
  induction todo as [|[f st] todo IH]; intros done k Hload Hh; simpl; [by eexists|].
  set (rest := concat _).
  assert (exists k1 r, load_entry (encode_entry dbname f st ++ rest) k = Some (k1, OK, r) /\ healthy R (backend_ k1))
    as (k1 & r & E & Hh1).
  { destruct (restore_entry _ _ _ _ Htab0 _ _ _ _ _ Hload) as (a' & Ha & Hwf & Hza & Hown & _).
    assert (m_find f files0 = Some st) as Hf0 by (eapply todo_in_files0; [done|done|left]).
    destruct (entry_typed _ _ _ Htab0 f st Hf0) as [Hty Hname].
    unfold load_entry. rewrite decode_encode_entry by done. rewrite (ld_db _ _ _ _ _ _ _ Hload), <- Hname.
    change (tracks (stored_state st)) with (tracks st). change (file_number (stored_state st)) with (file_number st).
    rewrite Ha. simpl negb. cbv iota.
    destruct (RestorePayload_ok (stored_state st) (backend_ k)) as (d & st' & E & Hh1); try done.
    - by eapply owned_good.
    - eapply owned_admits, Hown; [done|]. by rewrite Hza, (ld_zones _ _ _ _ _ _ _ Hload).
    - specialize (Hfits f st Hf0). unfold fits, lenZ in *. simpl. by rewrite length_replicate.
    - simpl backend_. rewrite E. eexists _, _. by split. }
  destruct (load_entry_spec _ _ _ _ Htab0 done f st todo rest k Hload) as (k1' & s' & r' & E' & Hok).
  rewrite E in E'. injection E' as <- <- <-. destruct (Hok eq_refl) as (-> & Hload1 & _).
  rewrite E. simpl. by eapply IH.
Qed.

(** A restart on a quiet system succeeds when every entry fits its tracks. *)
Lemma initialize_ok file path fs2 k0 :
  0 < zones_ a0 -> MetaFs.file_data file = encode_snapshot dbname (zones_ a0) files0 ->
  (forall a, contents (backend_ k0) a = disk a) -> (forall a, durable (backend_ k0) a = disk a) ->
  MetaFs.meta_current fs2 = Some file -> MetaFs.fs_script fs2 = [] -> persistence_enabled_ k0 = false ->
  (dev_open (backend_ k0) path).2 = OK -> healthy R (dev_open (backend_ k0) path).1 ->
  exists k', InitializePersistence dbname (zones_ a0) path fs2 k0 = Some (k', OK).
Proof.
  intros Hz Hdata Hc Hd Hcur Hfs Hen Hopen Hh. unfold InitializePersistence.
  replace (zones_ a0 =? 0) with false by lia. rewrite Hen.
  destruct (open_law (backend_ k0) path) as [Hc1 Hd1].
  destruct (dev_open (backend_ k0) path) as [b1 s1]. simpl in *. rewrite Hopen. simpl.
  unfold LoadSnapshotLocked. simpl fs_.
  destruct (MetaFs.read_metadata_spec fs2) as (fs3 & r & -> & _ & _ & Hq).
  destruct (Hq Hfs) as [-> _]. rewrite Hcur, Hdata.
  pose proof (to_count _ _ _ Htab0) as Hcount. pose proof (lenZ_nonneg files0).
  pose proof (wf_zones _ (to_wf _ _ _ Htab0)). simpl. unfold encode_snapshot.
  rewrite decode_encode_header by (rewrite ?u32_small; lia). rewrite u32_small, to_nat_lenZ by lia.
  eapply (load_entries_ok files0 []); [|done].
  apply loading_start; try done; intros a; simpl; rewrite ?Hc1, ?Hd1; auto.
Qed.
End RecoverOk.
