(* ===== verification/KvimrCorrect.v ===== *)
(** Correctness of the KVIMR middleware over whole executions.

    [step] interleaves the public operations, failures included, with crashes
    followed by a successful [InitializePersistence].  The second component of a
    state is the abstract view: the content each file had when its last [kvsync]
    returned [OK].  A crash inside an operation leaves the device and the
    metadata as the same operation does when the next system call fails, so
    steps that return an error stand for those crashes too. *)

From S2P Require Import Prelude StdMap TrackAllocator BlockDevice MetaFs KvimrState Snapshot Rmw RmwSpec Kvimr KvimrInv KvimrRecovery KvimrHealthy Backend.
Import TrackAllocator.

Section Correct.
Context {D : Type} `{BDL : BlockDeviceLaws D}.
Implicit Types (k : KVIMR D) (G : stdmap bytes bytes).

(** A process that starts on what the device and the directory kept. *)
Definition restarted (k k0 : KVIMR D) (fs2 : MetaFs.Fs) : Prop :=
  (forall a, contents (backend_ k0) a = durable (backend_ k) a) /\
  (forall a, durable (backend_ k0) a = durable (backend_ k) a) /\
  MetaFs.after_crash (fs_ k) (MetaFs.meta_current fs2) /\
  MetaFs.meta_durable fs2 = MetaFs.meta_current fs2 /\
  MetaFs.FsTolerated ∉ MetaFs.fs_script fs2.

Inductive step : KVIMR D * stdmap bytes bytes -> KVIMR D * stdmap bytes bytes -> Prop :=
| step_register k G f number lv largest :
    may_register k f number lv largest -> step (k, G) (RegisterSSTable f number lv largest k, G)
| step_begin k G f : step (k, G) (BeginWrite f k, m_erase f G)
| step_write k G f e :
    path_ok (dbname_ k) f -> lenZ (content_of k f) + lenZ e < 2 ^ 63 -> SSTableCount k + 1 < 2 ^ 32 ->
    step (k, G) ((kvwrite f e k).1, G)
| step_sync k G f k' s :
    kvsync f k = Some (k', s) -> step (k, G) (k', if ok s then m_insert f (content_of k f) G else G)
| step_unlink k G f k' s :
    kvunlink f k = Some (k', s) -> step (k, G) (k', if HasSSTable f k' then G else m_erase f G)
| step_mode k G m : step (k, G) (SetRMWMode m k, G)
| step_counters k G : step (k, G) (ResetRMWCounters k, G)
| step_crash k G k0 fs2 path k' :
    restarted k k0 fs2 ->
    InitializePersistence (dbname_ k) (configured_zones_ k) path fs2 k0 = Some (k', OK) ->
    step (k, G) (k', G).

(** States reachable from a first start without metadata. *)
Inductive reachable : KVIMR D * stdmap bytes bytes -> Prop :=
| reach_start dbname zones path fs k0 k :
    0 < zones < 2 ^ 25 -> MetaFs.meta_current fs = None -> MetaFs.meta_durable fs = None ->
    MetaFs.FsTolerated ∉ MetaFs.fs_script fs ->
    (forall a, contents (backend_ k0) a = durable (backend_ k0) a) ->
    InitializePersistence dbname zones path fs k0 = Some (k, OK) -> reachable (k, [])
| reach_step s s' : reachable s -> step s s' -> reachable s'.

Lemma step_inv s s' : inv s.2 s.1 -> step s s' -> inv s'.2 s'.1.
Proof.
  intros Hinv Hstep. destruct Hstep; simpl in *.
  - by apply RegisterSSTable_inv.
  - by apply BeginWrite_inv.
  - by apply kvwrite_inv.
  - destruct (kvsync_inv G k f Hinv) as (k1 & s1 & E & H1). rewrite H in E. by injection E as <- <-.
  - destruct (kvunlink_inv G k f Hinv) as (k1 & s1 & E & H1 & _). rewrite H in E. by injection E as <- <-.
  - by apply SetRMWMode_inv.
  - by apply ResetRMWCounters_inv.
  - destruct H as (Hc & Hd & Hm & Hmd & Hfs).
    destruct (initialize_inv G (dbname_ k) (configured_zones_ k) _ _ path fs2 k0
                (inv_zone_range G k Hinv) (inv_bootable G k _ Hinv Hm) Hc Hd eq_refl Hmd Hfs) as (k1 & s1 & E & H1).
    rewrite H0 in E. injection E as <- <-. by apply H1.
Qed.

Lemma reachable_inv s : reachable s -> inv s.2 s.1.
Proof.
  induction 1 as [dbname zones path fs k0 k Hz Hc Hd Hfs Hcd E|s s' _ IH Hstep]; simpl.
  - destruct (initialize_inv [] dbname zones None (durable (backend_ k0)) path fs k0) as (k1 & s1 & E1 & H1); try done.
    rewrite E in E1. injection E1 as <- <-. by apply H1.
  - by eapply step_inv.
Qed.


(** ** What an operation leaves alone *)

Lemma find_put f g st k : g <> f -> m_find g (files_ (put_file f st k)) = m_find g (files_ k).
Proof. intros H. simpl. by rewrite find_insert_ne. Qed.

Lemma allocate_tracks_others f st k k' st' s g :
  allocate_tracks f st k = Some (k', st', s) -> g <> f -> m_find g (files_ k') = m_find g (files_ k).
Proof.
  unfold allocate_tracks. intros H Hg. repeat case_match; simplify_eq; try done; simpl; by rewrite find_insert_ne.
Qed.

Lemma apply_pending_others f st k k' st' s g :
  apply_pending f st k = Some (k', st', s) -> g <> f -> m_find g (files_ k') = m_find g (files_ k).
Proof. unfold apply_pending. intros H Hg. repeat case_match; simplify_eq; simpl; by rewrite find_insert_ne. Qed.

Lemma PersistPayload_others f st k k' st' s g :
  PersistPayloadLocked f st k = Some (k', st', s) -> g <> f -> m_find g (files_ k') = m_find g (files_ k).
Proof.
  unfold PersistPayloadLocked. intros H Hg. destruct (allocate_tracks f st k) as [[[k1 st1] s1]|] eqn:E1; [|done].
  destruct (ok s1); simpl in H.
  - rewrite (apply_pending_others _ _ _ _ _ _ _ H Hg). by eapply allocate_tracks_others.
  - simplify_eq. by eapply allocate_tracks_others.
Qed.

Lemma PersistSnapshot_files k k' s : PersistSnapshotLocked k = Some (k', s) -> files_ k' = files_ k.
Proof. unfold PersistSnapshotLocked. intros H. by case_match; simplify_eq; case_match; simplify_eq. Qed.

Lemma backend_sync_files k k' s : backend_sync k = (k', s) -> files_ k' = files_ k.
Proof. unfold backend_sync. intros H. by case_match; simplify_eq. Qed.

Lemma settle_others f st k k' st' s g :
  settle f st k = Some (k', st', s) -> g <> f -> m_find g (files_ k') = m_find g (files_ k).
Proof.
  unfold settle. intros H Hg. case_match; [|by simplify_eq].
  destruct (PersistPayloadLocked f st k) as [[[k1 st1] s1]|] eqn:E1; [|done].
  apply (PersistPayload_others _ _ _ _ _ _ g) in E1; [|done]. destruct (ok s1); simpl in H; [|by simplify_eq].
  destruct (backend_sync k1) as [k2 s2] eqn:E2. simplify_eq. by rewrite (backend_sync_files _ _ _ E2).
Qed.

Lemma kvunlink_others f k k' s g :
  kvunlink f k = Some (k', s) -> g <> f -> m_find g (files_ k') = m_find g (files_ k).
Proof.
  intros H Hg.
  assert (forall k1, finish_unlink k1 = Some (k', s) -> files_ k' = files_ k1) as Hfin.
  { intros k1 E. unfold finish_unlink in E. destruct (persistence_enabled_ k1); [by eapply PersistSnapshot_files|by simplify_eq]. }
  unfold kvunlink in H. destruct (m_find f (files_ k)) as [st|]; [|by rewrite (Hfin _ H)].
  destruct (settle f st k) as [[[k1 st1] s1]|] eqn:E1; [|done].
  apply (settle_others _ _ _ _ _ _ g) in E1; [|done]. destruct (ok s1); simpl in H; [|by simplify_eq].
  rewrite (Hfin _ H). simpl. by rewrite find_erase_ne.
Qed.

(** ** Crash after a successful sync *)





(** ** Files and tracks *)

(** Device byte [a] lies in a segment of [st]. *)
Definition occupies (st : SSTableState) (a : Z) : Prop :=
  exists s, s ∈ tracks st /\ segment_address s <= a < segment_address s + cap s.

Lemma occupies_located st a : occupies st a -> exists x i s b, located (tracks st) x i s b /\ addr s b x = a.
Proof.
  intros (s & Hs & Ha). apply In_nthZ in Hs as [i Hi].
  exists (capsum (take (Z.to_nat i) (tracks st)) + (a - segment_address s)), i, s, (capsum (take (Z.to_nat i) (tracks st))).
  unfold located, addr. split; [split; [by split|lia]|lia].
Qed.

(** C17: In every reachable state the files are laid out on disjoint parts of the
    device: no device byte belongs to the segments of two different files, and
    every byte of a segment is inside the configured zones. *)
Theorem files_never_overlap G k f g st sg a :
  reachable (k, G) -> m_find f (files_ k) = Some st -> m_find g (files_ k) = Some sg ->
  occupies st a -> 0 <= a < configured_zones_ k * (kZoneSectors * 512) /\ (occupies sg a -> f = g).
Proof.
  intros Hr Hf Hg Ha. pose proof (reachable_inv _ Hr) as [Ht _ _ [Hz _] _ _ _ _]. simpl in *.
  pose proof (eo_tracks _ _ _ _ (to_entry _ _ _ Ht f st Hf)) as Hof.
  pose proof (eo_tracks _ _ _ _ (to_entry _ _ _ Ht g sg Hg)) as Hog.
  pose proof (to_wf _ _ _ Ht) as Hwf. split.
  - destruct Ha as (s & Hs & Ha). pose proof (owned_good _ _ _ Hwf Hof) as Hgood.
    destruct (good_address _ Hgood s Hs) as [Ea _]. destruct Hof as (trs & E & _ & Ho). rewrite E in Hs.
    apply list_elem_of_fmap in Hs as (tr & -> & Htr). apply Ho in Htr as [Htr _].
    unfold cap in Ha. rewrite segment_of_type in Ha. rewrite <- Hz.
    assert (in_segment (segment_of tr) (a / 512)) as Hin.
    { unfold in_segment. rewrite segment_of_length.
      split; (apply Z.div_le_lower_bound || apply Z.div_lt_upper_bound); lia. }
    pose proof (segment_in_device _ _ _ _ Hwf Htr Hin) as Hd. unfold kZoneSectors in *.
    pose proof (Z.div_mod a 512 ltac:(lia)). pose proof (Z.mod_pos_bound a 512 ltac:(lia)). lia.
  - intros Ha'. destruct (decide (f = g)) as [|Hne]; [done|]. exfalso.
    destruct (occupies_located _ _ Ha') as (x & i & s' & b & Hloc & <-).
    assert (file_number st <> file_number sg) as Hnum.
    { intros E. destruct (decide (file_number st = 0)) as [H0|H0]; [|by apply Hne, (to_unique _ _ _ Ht f g st sg)].
      rewrite H0 in Hof. destruct Ha as (s & Hs & _). rewrite (owned_zero _ _ Hof) in Hs. by apply elem_of_nil in Hs. }
    destruct Ha as (s & Hs & Ha). apply In_nthZ in Hs as [j Hj].
    pose proof (owned_apart _ _ _ _ _ _ _ _ _ Hwf Hof Hog Hnum Hloc j s _ (conj Hj eq_refl)) as [?|?]; lia.
Qed.

(** C18: The allocator and the file table agree in every reachable state: a track
    is owned by a nonzero number exactly when it is one of the segments of the
    live file with that number, so no track is leaked or used twice. *)
Theorem tracks_accounted G k tr n :
  reachable (k, G) -> n <> 0 ->
  owner (allocator_ k) tr = Some n <->
  exists f st, m_find f (files_ k) = Some st /\ file_number st = n /\ 0 <= tr.2 < 2 ^ 31 /\ segment_of tr ∈ tracks st.
Proof.
  intros Hr Hn. pose proof (reachable_inv _ Hr) as [Ht Hl _ _ _ _ _ _]. simpl in *.
  pose proof (to_zones _ _ _ Ht). split.
  - intros Ho. destruct (Hl tr n Ho Hn) as (f & st & Hf & E). exists f, st. split_and!; try done.
    + pose proof (owner_index _ (to_wf _ _ _ Ht) _ _ Ho). lia.
    + pose proof (owner_index _ (to_wf _ _ _ Ht) _ _ Ho). lia.
    + destruct (eo_tracks _ _ _ _ (to_entry _ _ _ Ht f st Hf)) as (trs & -> & _ & Hin).
      apply list_elem_of_fmap. exists tr. split; [done|]. apply Hin. by rewrite E.
  - intros (f & st & Hf & E & Hi & Hs).
    destruct (eo_tracks _ _ _ _ (to_entry _ _ _ Ht f st Hf)) as (trs & Etr & _ & Hin). rewrite Etr in Hs.
    apply list_elem_of_fmap in Hs as (tr' & Etr' & Htr'). apply Hin in Htr' as [Ho _].
    pose proof (owner_index _ (to_wf _ _ _ Ht) _ _ Ho).
    apply (f_equal segment_track) in Etr'. rewrite !segment_track_of in Etr' by lia. by rewrite Etr', Ho, E.
Qed.


(** [kvunlink] that returns OK removes the file and frees every track of its
    number, and leaves the content of all other files as it was. *)
Theorem unlink_frees_tracks G k f st k' :
  reachable (k, G) -> m_find f (files_ k) = Some st -> kvunlink f k = Some (k', OK) ->
  HasSSTable f k' = false /\
  (forall tr, owner (allocator_ k') tr = Some (file_number st) -> file_number st = 0) /\
  (forall g, g <> f -> m_find g (files_ k') = m_find g (files_ k)).
Proof.
  intros Hr Hf E. pose proof (reachable_inv _ Hr) as Hinv. simpl in Hinv.
  destruct (kvunlink_inv G k f Hinv) as (k1 & s1 & E1 & Hinv1 & Hgone). rewrite E in E1. injection E1 as <- <-.
  specialize (Hgone eq_refl). split; [done|]. rewrite Hgone in Hinv1.
  assert (forall g, g <> f -> m_find g (files_ k') = m_find g (files_ k)) as Hoth
    by (intros; by eapply kvunlink_others).
  split; [|done].
  intros tr Ho. destruct (decide (file_number st = 0)) as [|Hn]; [done|]. exfalso.
  destruct (inv_leak _ _ Hinv1 tr _ Ho Hn) as (g & sg & Hg & En).
  assert (g <> f) as Hne by (intros ->; unfold HasSSTable in Hgone; by rewrite Hg in Hgone).
  rewrite Hoth in Hg by done. by apply Hne, (to_unique _ _ _ (inv_table _ _ Hinv) g f sg st); [..|congruence].
Qed.

End Correct.

(** ** Progress *)

Section Live.
Context {D : Type} `{BDL : BlockDeviceLaws D} `{HD : !HealthyDevice D}.
Implicit Types (k : KVIMR D) (G : stdmap bytes bytes).

(** C22: On a device and a file system that serve every request, [kvsync]
    succeeds on a file that is empty, already has enough tracks, or for which the
    tiers of its level still have room. *)
Theorem sync_succeeds R G k f st :
  reachable (k, G) -> m_find f (files_ k) = Some st -> quiet R k ->
  (data st = [] /\ pending_updates st = []) \/ has_room k st ->
  exists k', kvsync f k = Some (k', OK).
Proof.
  intros Hr Hf Hq Hcase. destruct (kvsync_ok R G k f st (reachable_inv _ Hr) Hf Hq Hcase) as (k' & E & _). by exists k'.
Qed.

(** C23: After a successful [kvsync], if every file fits its tracks, a restart on
    a device and a file system that serve every request succeeds. *)
Theorem restart_succeeds R G k f k' k0 fs2 path :
  reachable (k, G) -> kvsync f k = Some (k', OK) -> restarted k' k0 fs2 ->
  (forall g st, m_find g (files_ k') = Some st -> fits st) ->
  MetaFs.fs_script fs2 = [] -> persistence_enabled_ k0 = false -> admits_device R (configured_zones_ k') ->
  (dev_open (backend_ k0) path).2 = OK -> healthy R (dev_open (backend_ k0) path).1 ->
  exists k2, InitializePersistence (dbname_ k') (configured_zones_ k') path fs2 k0 = Some (k2, OK).
Proof.
  intros Hr Hsync (Hc & Hd & Hm & _) Hfits Hfs Hen HR Hopen Hh.
  pose proof (reachable_inv _ Hr) as Hinv. simpl in Hinv.
  destruct (kvsync_snapshot G k f k' Hinv Hsync) as ((files1 & Htab & Hall & Hlay) & _).
  destruct (kvsync_inv G k f Hinv) as (k1 & s1 & E & Hinv'). rewrite Hsync in E. injection E as <- <-.
  apply Hall in Hm. pose proof (inv_zone_range _ _ Hinv'). destruct (inv_zones _ _ Hinv') as [Hz _].
  assert (forall g st, m_find g files1 = Some st -> fits st) as Hfits1.
  { intros g st Hg. specialize (Hlay g). rewrite Hg in Hlay. simpl in Hlay.
    destruct (m_find g (files_ k')) as [st'|] eqn:Eg; [|done]. injection Hlay as Et Ed.
    specialize (Hfits g st' Eg). unfold fits in *. by rewrite Et, Ed. }
  rewrite <- Hz in *.
  apply (initialize_ok R (dbname_ k') files1 (allocator_ k') (durable (backend_ k')) Htab HR Hfits1
    (MetaFs.MkFile (encode_snapshot (dbname_ k') (zones_ (allocator_ k')) files1) true)); try done. lia.
Qed.
End Live.

(** ** A concrete execution

    One zone, a file in the database directory, written, synced, and read after
    a crash and a restart, on the backend of [imrsim_backend.cc]. *)

Module Demo.
Import Backend.

Definition db : bytes := str "/db".
Definition dev_path : bytes := str "/dev/mapper/imrsim".
Definition file7 : bytes := str "/db/000007.sst".
Definition file8 : bytes := str "/db/000008.sst".

Definition os_with (disk : Z -> Z) : Os :=
  MkOs [] (MkOpenEnv 3 true true true 512) (2 ^ 28) disk disk.
Definition fs_with (m : option MetaFs.file) : MetaFs.Fs := MetaFs.MkFs [] m m None.
Definition process (disk : Z -> Z) (m : option MetaFs.file) : KVIMR IMRSimBackend :=
  Kvimr.Construct (Backend.Construct (os_with disk)) (fs_with m).

(** The state an operation left, and whether it returned OK. *)
Definition state_of (r : option (KVIMR IMRSimBackend * Status)) : KVIMR IMRSimBackend :=
  match r with Some (k, _) => k | None => process (fun _ => 0) None end.
Definition succeeded (r : option (KVIMR IMRSimBackend * Status)) : bool :=
  match r with Some (_, s) => ok s | None => false end.

Lemma succeeded_eq r : succeeded r = true -> r = Some (state_of r, OK).
Proof. destruct r as [[k s]|]; simpl; [|done]. intros H. by rewrite (ok_OK _ H). Qed.

(** A crash that keeps the current metadata, and a new process. *)
Lemma crash_restart (k : KVIMR IMRSimBackend) :
  MetaFs.file_synced <$> MetaFs.meta_current (fs_ k) = Some true ->
  restarted k (process (durable (backend_ k)) None) (fs_with (MetaFs.meta_current (fs_ k))).
Proof.
  intros Hs. split; [done|]. split; [done|]. split; [|split; [done|by intros ?%elem_of_nil]].
  right. split; [done|]. simpl. intros f Hf. rewrite Hf in Hs. by injection Hs.
Qed.

Definition k0 := process (fun _ => 0) None.
Definition k1 := state_of (InitializePersistence db 1 dev_path (fs_with None) k0).
Definition k2 := RegisterSSTable file7 7 2 2 k1.
Definition k3 := (kvwrite file7 (str "hello") k2).1.
Definition k4 := state_of (kvsync file7 k3).
Definition fs5 : MetaFs.Fs := fs_with (MetaFs.meta_current (fs_ k4)).
Definition k5 := process (durable (backend_ k4)) None.
Definition k6 := state_of (InitializePersistence db 1 dev_path fs5 k5).
Definition committed_map : stdmap bytes bytes := [(file7, str "hello")].

Lemma init_ok : InitializePersistence db 1 dev_path (fs_with None) k0 = Some (k1, OK).
Proof. unfold k1. apply succeeded_eq. vm_compute. reflexivity. Qed.

Lemma reach1 : reachable (k1, []).
Proof.
  apply (reach_start db 1 dev_path (fs_with None) k0 k1); [done..| |done|exact init_ok].
  by intros ?%elem_of_nil.
Qed.

Lemma path7 : path_ok db file7.
Proof. exists (str "000007.sst"). split; [done|]. split; [|done]. by intros c s [= <- _]. Qed.

Lemma reach2 : reachable (k2, []).
Proof.
  eapply reach_step; [exact reach1|]. apply step_register.
  split; [exact path7|]. split; [lia|]. split; [lia|]. split; [lia|].
  split; [vm_compute; reflexivity|]. split; [intros g sg Hg; discriminate Hg|intros st Hst; discriminate Hst].
Qed.

Lemma reach3 : reachable (k3, []).
Proof. eapply reach_step; [exact reach2|]. apply step_write; [exact path7|vm_compute; reflexivity..]. Qed.

Lemma sync_ok : kvsync file7 k3 = Some (k4, OK).
Proof. unfold k4. apply succeeded_eq. vm_compute. reflexivity. Qed.

Lemma reach4 : reachable (k4, committed_map).
Proof.
  eapply reach_step; [exact reach3|]. replace committed_map with
    (if ok OK then m_insert file7 (content_of k3 file7) [] else []) by (vm_compute; reflexivity).
  apply step_sync, sync_ok.
Qed.

Lemma synced5 : MetaFs.file_synced <$> MetaFs.meta_current (fs_ k4) = Some true.
Proof. vm_compute. reflexivity. Qed.

Lemma restarted5 : restarted k4 k5 fs5.
Proof. exact (crash_restart k4 synced5). Qed.

Lemma restart_ok : InitializePersistence (dbname_ k4) (configured_zones_ k4) dev_path fs5 k5 = Some (k6, OK).
Proof. unfold k6. apply succeeded_eq. vm_compute. reflexivity. Qed.

Lemma reach6 : reachable (k6, committed_map).
Proof. eapply reach_step; [exact reach4|]. eapply step_crash; [exact restarted5|exact restart_ok]. Qed.

(** A second file, after the restart. *)
Definition k7 := RegisterSSTable file8 8 2 2 k6.
Definition k8 := (kvwrite file8 (str "world") k7).1.
Definition k9 := state_of (kvsync file8 k8).
Definition committed_both : stdmap bytes bytes := [(file7, str "hello"); (file8, str "world")].

Lemma path8 : path_ok db file8.
Proof. exists (str "000008.sst"). split; [done|]. split; [|done]. by intros c s [= <- _]. Qed.

(** The table of [k6], by evaluation. *)
Lemma names6 : map (fun e => (e.1, file_number e.2)) (files_ k6) = [(file7, 7)].
Proof. vm_compute. reflexivity. Qed.
Lemma db6 : dbname_ k6 = db.
Proof. vm_compute. reflexivity. Qed.

Lemma reach7 : reachable (k7, committed_map).
Proof.
  eapply reach_step; [exact reach6|]. apply step_register.
  split; [rewrite db6; exact path8|]. split; [lia|]. split; [lia|]. split; [lia|].
  split; [vm_compute; reflexivity|]. split.
  - intros g sg Hg Hn. exfalso. apply find_elem_of in Hg.
    assert ((g, file_number sg) ∈ map (fun e => (e.1, file_number e.2)) (files_ k6)) as Hin
      by (apply list_elem_of_fmap; by exists (g, sg)).
    rewrite names6 in Hin. apply list_elem_of_singleton in Hin. injection Hin as -> E. rewrite E in Hn. lia.
  - intros st Hst. exfalso. apply find_elem_of in Hst.
    assert ((file8, file_number st) ∈ map (fun e => (e.1, file_number e.2)) (files_ k6)) as Hin
      by (apply list_elem_of_fmap; by exists (file8, st)).
    rewrite names6 in Hin. apply list_elem_of_singleton in Hin. discriminate Hin.
Qed.

Lemma reach8 : reachable (k8, committed_map).
Proof.
  eapply reach_step; [exact reach7|]. apply step_write; [|vm_compute; reflexivity..].
  assert (dbname_ k7 = db) as -> by (vm_compute; reflexivity). exact path8.
Qed.

Lemma sync9_ok : kvsync file8 k8 = Some (k9, OK).
Proof. unfold k9. apply succeeded_eq. vm_compute. reflexivity. Qed.

Lemma reach9 : reachable (k9, committed_both).
Proof.
  eapply reach_step; [exact reach8|].
  replace committed_both with (if ok OK then m_insert file8 (content_of k8 file8) committed_map else committed_map)
    by (vm_compute; reflexivity).
  apply step_sync, sync9_ok.
Qed.

Definition found (f : bytes) (k : KVIMR IMRSimBackend) : SSTableState := default new_state (m_find f (files_ k)).
Lemma found_eq f k : HasSSTable f k = true -> m_find f (files_ k) = Some (found f k).
Proof. unfold HasSSTable, found. by destruct (m_find f (files_ k)). Qed.

Lemma has7 : m_find file7 (files_ k9) = Some (found file7 k9).
Proof. apply found_eq. vm_compute. reflexivity. Qed.
Lemma has8 : m_find file8 (files_ k9) = Some (found file8 k9).
Proof. apply found_eq. vm_compute. reflexivity. Qed.
Lemma tracks7 : tracks (found file7 k9) = [SegmentAt BOTTOM 0].
Proof. vm_compute. reflexivity. Qed.
Lemma address0 : segment_address (SegmentAt BOTTOM 0) = 1867776.
Proof. vm_compute. reflexivity. Qed.

Definition unlinked := state_of (kvunlink file7 k9).
Lemma unlink_ok : kvunlink file7 k9 = Some (unlinked, OK).
Proof. unfold unlinked. apply succeeded_eq. vm_compute. reflexivity. Qed.


(** The ranges of a one-zone device with 512-byte blocks. *)
Definition demo_range (off n : Z) : Prop :=
  0 <= off /\ 0 <= n /\ off + n <= 2 ^ 28 /\ off mod 512 = 0 /\ n mod 512 = 0.

Lemma demo_admits : admits_device demo_range 1.
Proof.
  intros tr Htr s lo n Hs Hlo Hn H1 H2 H3. apply list_elem_of_singleton in Hs as ->.
  assert (exists q, 0 <= q /\ segment_address (segment_of tr) = q * 512 /\ q * 512 + cap (segment_of tr) <= 2 ^ 28)
    as (q & Hq & -> & Hle).
  { exists (logical_sector_start (segment_of tr)). unfold segment_address, cap. change Snapshot.kSectorSize with 512.
    rewrite segment_of_type, segment_of_start by lia.
    destruct tr as [[] i]; simpl in *; unfold kTopSectors, kBottomSectors; rewrite u64_small; lia. }
  unfold demo_range. rewrite Z.add_comm, Z.mod_add by lia. split_and!; try done; lia.
Qed.

Lemma demo_healthy (b : IMRSimBackend) :
  os_script (be_os b) = [] -> fd_ b = 3 -> direct_io_alignment_ b = 512 -> os_size (be_os b) = 2 ^ 28 ->
  backend_healthy demo_range b.
Proof.
  intros Hs Hfd Ha Hsz. split; [done|]. split; [lia|]. intros off n (H1 & H2 & H3 & H4 & H5). split; [|lia].
  unfold ValidateRange. rewrite Hfd, Ha. change kSectorSize with 512. rewrite H4, H5. simpl.
  unfold off_t_max, ssize_t_max. replace (off >? 2 ^ 63 - 1) with false by lia. replace (n >? 2 ^ 63 - 1) with false by lia.
  rewrite u64_small by lia. replace (off + n <? off) with false by lia. done.
Qed.
End Demo.

#[local] Existing Instances Backend.IMRSimBackend_BlockDevice Backend.IMRSimBackend_Laws.



Lemma files_never_overlap_witness :
  (0 <= 1867776 < configured_zones_ Demo.k9 * (kZoneSectors * 512)) /\
  (occupies (Demo.found Demo.file8 Demo.k9) 1867776 -> Demo.file7 = Demo.file8).
Proof.
  apply (files_never_overlap Demo.committed_both Demo.k9 Demo.file7 Demo.file8 _ _ 1867776
           Demo.reach9 Demo.has7 Demo.has8).
  exists (SegmentAt BOTTOM 0). rewrite Demo.tracks7, Demo.address0. split; [left|].
  pose proof (cap_pos (SegmentAt BOTTOM 0)). lia.
Defined.

Lemma tracks_accounted_witness :
  owner (allocator_ Demo.k9) (BOTTOM, 0) = Some 7 <->
  exists f st, m_find f (files_ Demo.k9) = Some st /\ file_number st = 7 /\ 0 <= 0 < 2 ^ 31 /\
    segment_of (BOTTOM, 0) ∈ tracks st.
Proof. apply (tracks_accounted Demo.committed_both Demo.k9 (BOTTOM, 0) 7 Demo.reach9). lia. Defined.


Lemma unlink_frees_tracks_witness :
  HasSSTable Demo.file7 Demo.unlinked = false /\
  m_find Demo.file8 (files_ Demo.unlinked) = m_find Demo.file8 (files_ Demo.k9).
Proof.
  destruct (unlink_frees_tracks Demo.committed_both Demo.k9 Demo.file7 _ Demo.unlinked
              Demo.reach9 Demo.has7 Demo.unlink_ok) as (H1 & _ & H2).
  split; [exact H1|]. apply H2. discriminate.
Defined.


#[local] Existing Instance Backend.IMRSimBackend_Healthy.

Lemma sync_succeeds_witness : exists k', kvsync Demo.file7 Demo.k3 = Some (k', OK).
Proof.
  apply (sync_succeeds Demo.demo_range [] Demo.k3 Demo.file7 (Demo.found Demo.file7 Demo.k3) Demo.reach3).
  - apply Demo.found_eq. vm_compute. reflexivity.
  - split; [apply Demo.demo_healthy; vm_compute; reflexivity|]. split; [|vm_compute; reflexivity].
    assert (configured_zones_ Demo.k3 = 1) as -> by (vm_compute; reflexivity). exact Demo.demo_admits.
  - right. right. split; [vm_compute; reflexivity|]. split; [vm_compute; discriminate|].
    split; [vm_compute; reflexivity|vm_compute; discriminate].
Defined.

Lemma restart_succeeds_witness :
  exists k2, InitializePersistence (dbname_ Demo.k4) (configured_zones_ Demo.k4) Demo.dev_path Demo.fs5 Demo.k5 = Some (k2, OK).
Proof.
  apply (restart_succeeds Demo.demo_range [] Demo.k3 Demo.file7 Demo.k4 Demo.k5 Demo.fs5 Demo.dev_path
           Demo.reach3 Demo.sync_ok Demo.restarted5).
  - intros g st Hg. apply find_elem_of in Hg.
    assert (lenZ (data st) ∈ map (fun e => lenZ (data e.2)) (files_ Demo.k4)) as H1
      by (apply list_elem_of_fmap; by exists (g, st)).
    assert (tracks st ∈ map (fun e => tracks e.2) (files_ Demo.k4)) as H2
      by (apply list_elem_of_fmap; by exists (g, st)).
    assert (map (fun e => lenZ (data e.2)) (files_ Demo.k4) = [5]) as E1 by (vm_compute; reflexivity).
    assert (map (fun e => tracks e.2) (files_ Demo.k4) = [[SegmentAt BOTTOM 0]]) as E2 by (vm_compute; reflexivity).
    rewrite E1 in H1. rewrite E2 in H2. apply list_elem_of_singleton in H1, H2.
    unfold fits. rewrite H1, H2. vm_compute. discriminate.
  - vm_compute. reflexivity.
  - vm_compute. reflexivity.
  - assert (configured_zones_ Demo.k4 = 1) as -> by (vm_compute; reflexivity). exact Demo.demo_admits.
  - vm_compute. reflexivity.
  - apply Demo.demo_healthy; vm_compute; reflexivity.
Defined.
