(* ===== verification/KvimrRefine.v ===== *)
(** The middleware refines a map from file names to contents.

    [view] abstracts the object to the bytes each file holds; [spec_op] is what
    an operation does to that map.  The refinement needs no invariant: it holds
    in every state, whatever the device does. *)

From S2P Require Import Prelude StdMap TrackAllocator BlockDevice MetaFs KvimrState Snapshot Rmw Kvimr.
Import TrackAllocator.

(** ** The abstract specification *)

Definition filemap : Type := bytes -> option bytes.

Definition fupd (f : bytes) (v : option bytes) (m : filemap) : filemap :=
  fun g => if decide (g = f) then v else m g.

Inductive fop :=
| OpRegister (f : bytes) (number lv largest : Z)
| OpBegin (f : bytes)
| OpWrite (f e : bytes)
| OpSync (f : bytes)
| OpUnlink (f : bytes).

Definition op_file (o : fop) : bytes :=
  match o with OpRegister f _ _ _ | OpBegin f | OpWrite f _ | OpSync f | OpUnlink f => f end.

Definition spec_op (o : fop) (m : filemap) : filemap :=
  match o with
  | OpRegister f _ _ _ => fupd f (Some (default [] (m f))) m
  | OpBegin f => fupd f ((fun _ => []) <$> m f) m
  | OpWrite f e => fupd f (Some (default [] (m f) ++ e)) m
  | OpSync _ => m
  | OpUnlink f => fupd f None m
  end.

(** [kvread] on the abstract map. *)
Definition spec_read (f : bytes) (offset n : Z) (m : filemap) : Status * option bytes :=
  match m f with
  | None => (not_found2 f "KVIMR SSTable not found", None)
  | Some d => (OK, Some (take (Z.to_nat n) (drop (Z.to_nat offset) d)))
  end.

Section Refine.
Context {D : Type} `{BD : BlockDevice D}.
Implicit Types k : KVIMR D.

Definition view k : filemap := fun f => data <$> m_find f (files_ k).

Definition exec (o : fop) k : option (KVIMR D * Status) :=
  match o with
  | OpRegister f number lv largest => Some (RegisterSSTable f number lv largest k, OK)
  | OpBegin f => Some (BeginWrite f k, OK)
  | OpWrite f e => Some (kvwrite f e k)
  | OpSync f => kvsync f k
  | OpUnlink f => kvunlink f k
  end.

(** ** Lemmas *)

(** A step that keeps every content and the presence of [f]. *)
Definition keeps_view k k' (f : bytes) (st' : SSTableState) : Prop :=
  (forall g, view k' g = view k g) /\ m_find f (files_ k') = Some st'.

Lemma put_same_data f st st' k :
  m_find f (files_ k) = Some st -> data st' = data st -> keeps_view k (put_file f st' k) f st'.
Proof.
  intros Hf Hd. unfold keeps_view, view. simpl. split; [|apply find_insert_eq].
  intros g. rewrite find_insert. case_decide; [|done]. subst g. rewrite Hf. simpl. by rewrite Hd.
Qed.

Lemma keeps_view_trans k1 k2 k3 f st2 st3 :
  keeps_view k1 k2 f st2 -> keeps_view k2 k3 f st3 -> keeps_view k1 k3 f st3.
Proof. intros [H1 _] [H2 H3]. split; [|done]. intros g. by rewrite H2. Qed.

Lemma allocate_tracks_view f st k k' st' s :
  m_find f (files_ k) = Some st -> allocate_tracks f st k = Some (k', st', s) ->
  keeps_view k k' f st' /\ data st' = data st.
Proof.
  intros Hf. unfold allocate_tracks. case_bool_decide; simpl; [|by intros [= <- <- <-]].
  destruct (Allocate _ _ _ _ _) as [[[a segs] sa]|]; [|done].
  destruct (ok sa); simpl; intros [= <- <- <-]; (split; [|done]);
    by apply (put_same_data f st (set_tracks segs st) k).
Qed.

Lemma apply_pending_view f st k k' st' s :
  m_find f (files_ k) = Some st -> apply_pending f st k = Some (k', st', s) ->
  keeps_view k k' f st' /\ data st' = data st.
Proof.
  intros Hf. unfold apply_pending. destruct (ApplyPendingUpdatesLocked _ _ _) as [[cx sa]|]; [|done].
  intros [= <- <- <-]. split; [|done]. by apply (put_same_data f st (set_buffers (cx_buffers cx) st) k).
Qed.

Lemma PersistPayload_view f st k k' st' s :
  m_find f (files_ k) = Some st -> PersistPayloadLocked f st k = Some (k', st', s) ->
  keeps_view k k' f st' /\ data st' = data st.
Proof.
  intros Hf. unfold PersistPayloadLocked.
  destruct (allocate_tracks f st k) as [[[k1 st1] s1]|] eqn:E1; [|done].
  destruct (allocate_tracks_view _ _ _ _ _ _ Hf E1) as [Hv1 Hd1].
  destruct (ok s1); simpl; [|by intros [= <- <- <-]]. intros E2.
  destruct (apply_pending_view _ _ _ _ _ _ (proj2 Hv1) E2) as [Hv2 Hd2].
  split; [by eapply keeps_view_trans|congruence].
Qed.

Lemma backend_sync_view k k' s f st :
  backend_sync k = (k', s) -> m_find f (files_ k) = Some st -> keeps_view k k' f st.
Proof. unfold backend_sync. destruct (dev_sync _). intros [= <- <-] Hf. by split. Qed.

Lemma PersistSnapshot_view k k' s : PersistSnapshotLocked k = Some (k', s) -> files_ k' = files_ k.
Proof. unfold PersistSnapshotLocked. destruct (MetaFs.write_metadata _ _) as [[fs sa]|]; [|done]. by intros [= <- <-]. Qed.

Lemma commit_sync_view f st k k' s :
  m_find f (files_ k) = Some st -> commit_sync f st k = Some (k', s) -> forall g, view k' g = view k g.
Proof.
  intros Hf. unfold commit_sync. destruct (PersistSnapshotLocked _) as [[k1 s1]|] eqn:E1; [|done].
  apply PersistSnapshot_view in E1. destruct (ok s1); simpl; intros [= <- <-] g;
    unfold view; simpl; rewrite E1; simpl; rewrite !find_insert; (repeat case_decide; [|done]);
    subst g; by rewrite Hf.
Qed.

Lemma kvsync_view f k k' s : kvsync f k = Some (k', s) -> forall g, view k' g = view k g.
Proof.
  unfold kvsync. destruct (m_find f (files_ k)) as [st|] eqn:Hf; [|by intros [= <- <-]].
  destruct (_ && _).
  - destruct (put_same_data f st (set_synced true st) k Hf eq_refl) as [Hv1 Hf1].
    destruct (persistence_enabled_ _); simpl; [|by intros [= <- <-]].
    destruct (backend_sync _) as [k1 s1] eqn:E1. destruct (backend_sync_view _ _ _ _ _ E1 Hf1) as [Hv2 Hf2].
    destruct (ok s1); simpl; [|intros [= <- <-] g; by rewrite Hv2].
    destruct (PersistSnapshotLocked k1) as [[k2 s2]|] eqn:E2; [|done]. apply PersistSnapshot_view in E2.
    assert (m_find f (files_ k2) = Some (set_synced true st)) as Hf3 by (by rewrite E2).
    assert (forall g, view k2 g = view k g) as Hv3 by (intros g; unfold view at 1; rewrite E2; fold (view k1 g); by rewrite Hv2).
    intros [= <- <-] g. destruct (ok s2); simpl; [done|].
    destruct (put_same_data f _ (set_synced false st) k2 Hf3 eq_refl) as [Hv4 _]. by rewrite Hv4.
  - destruct (allocate_tracks f st k) as [[[k1 st1] s1]|] eqn:E1; [|done].
    destruct (allocate_tracks_view _ _ _ _ _ _ Hf E1) as [[Hv1 Hf1] _].
    destruct (ok s1); simpl; [|by intros [= <- <-]]. destruct (persistence_enabled_ k1).
    2: { intros [= <- <-] g. destruct (put_same_data f _ (set_synced true st1) k1 Hf1 eq_refl) as [Hv _]. by rewrite Hv. }
    destruct (PersistPayloadLocked f st1 k1) as [[[k2 st2] s2]|] eqn:E2; [|done].
    destruct (PersistPayload_view _ _ _ _ _ _ Hf1 E2) as [[Hv2 Hf2] _].
    destruct (ok s2); simpl; [|intros [= <- <-] g; by rewrite Hv2].
    destruct (backend_sync k2) as [k3 s3] eqn:E3. destruct (backend_sync_view _ _ _ _ _ E3 Hf2) as [Hv3 Hf3].
    destruct (ok s3); simpl; [|intros [= <- <-] g; by rewrite Hv3, Hv2].
    intros E4 g. rewrite (commit_sync_view _ _ _ _ _ Hf3 E4), Hv3, Hv2. done.
Qed.

Lemma settle_view f st k k' st' s :
  m_find f (files_ k) = Some st -> settle f st k = Some (k', st', s) -> keeps_view k k' f st'.
Proof.
  intros Hf. unfold settle. destruct (_ && _); [|by intros [= <- <- <-]].
  destruct (PersistPayloadLocked f st k) as [[[k1 st1] s1]|] eqn:E1; [|done].
  destruct (PersistPayload_view _ _ _ _ _ _ Hf E1) as [Hv1 _].
  destruct (ok s1); simpl; [|by intros [= <- <- <-]]. destruct (backend_sync k1) as [k2 s2] eqn:E2.
  intros [= <- <- <-]. eapply keeps_view_trans; [done|]. by eapply backend_sync_view, Hv1.
Qed.

(** Success removes the file; an error keeps everything, or loses only the
    metadata update. *)
Lemma kvunlink_view f k k' s : kvunlink f k = Some (k', s) ->
  (forall g, view k' g = fupd f None (view k) g) \/ (s <> OK /\ forall g, view k' g = view k g).
Proof.
  assert (forall k1, finish_unlink k1 = Some (k', s) -> files_ k' = files_ k1) as Hfin.
  { intros k1. unfold finish_unlink. destruct (persistence_enabled_ k1); [apply PersistSnapshot_view|by intros [= <- <-]]. }
  unfold kvunlink. destruct (m_find f (files_ k)) as [st|] eqn:Hf.
  - destruct (settle f st k) as [[[k1 st1] s1]|] eqn:E1; [|done].
    destruct (settle_view _ _ _ _ _ _ Hf E1) as [Hv1 _].
    destruct (ok s1) eqn:Es; simpl; [|intros [= <- <-]; right; split; [by intros ->|done]].
    intros E2. left. intros g. unfold view. rewrite (Hfin _ E2). simpl. rewrite find_erase. unfold fupd.
    destruct (decide (f = g)) as [->|Hne]; [by rewrite decide_True|]. rewrite decide_False by done. apply Hv1.
  - intros E2. left. intros g. unfold view, fupd. rewrite (Hfin _ E2). simpl. case_decide; [|done]. subst g. by rewrite Hf.
Qed.

Lemma kvread_spec f offset n k :
  0 <= offset -> 0 <= n -> kvread f offset n k = spec_read f offset n (view k).
Proof.
  intros Ho Hn. unfold kvread, spec_read, view. destruct (m_find f (files_ k)) as [st|]; [|done]. simpl.
  zcase.
  - rewrite drop_ge, take_nil; [done|]. unfold lenZ in *. lia.
  - do 2 f_equal. unfold slice. destruct (Z.min_spec n (lenZ (data st) - offset)) as [[_ ->]|[Hlt ->]]; [done|].
    rewrite !firstn_all2; [done|..]; rewrite length_drop; unfold lenZ in *; lia.
Qed.
End Refine.

Section Theorems.
Context {D : Type} `{BD : BlockDevice D}.
Implicit Types k : KVIMR D.

(** C7: The middleware refines a map from names to contents: an operation that
    returns OK changes the contents exactly as the abstract operation does, and
    one that fails changes them as the abstract operation or not at all. *)
Theorem operations_refine_filemap o k k' s :
  exec o k = Some (k', s) ->
  (forall g, view k' g = spec_op o (view k) g) \/ (s <> OK /\ forall g, view k' g = view k g).
Proof.
  destruct o as [f number lv largest|f|f e|f|f]; simpl.
  - intros [= <- <-]. left. intros g. unfold RegisterSSTable, view, fupd, m_get. simpl. rewrite find_insert.
    destruct (decide (f = g)) as [<-|Hne]; [rewrite decide_True by done|by rewrite decide_False].
    by destruct (m_find f (files_ k)).
  - intros [= <- <-]. left. intros g. unfold BeginWrite, view, fupd.
    destruct (m_find f (files_ k)) as [st|] eqn:Hf; simpl.
    + assert (forall k1, files_ k1 = files_ k -> data <$> m_find g (files_ (put_file f
        (MkState (file_number st) (level st) (effective_largest_level st) false [] [] [] []) k1)) =
        (if decide (g = f) then Some [] else data <$> m_find g (files_ k))) as Hput.
      { intros k1 E. simpl. rewrite E, find_insert. destruct (decide (f = g)) as [<-|Hne];
          [by rewrite decide_True|by rewrite decide_False]. }
      destruct (negb _); by apply Hput.
    + case_decide; [|done]. subst g. by rewrite Hf.
  - intros [= <- <-]. left. intros g. unfold view, fupd, m_get. simpl. rewrite find_insert.
    destruct (decide (f = g)) as [<-|Hne]; [rewrite decide_True by done|by rewrite decide_False].
    by destruct (m_find f (files_ k)).
  - intros E. left. by eapply kvsync_view.
  - intros E. by eapply kvunlink_view.
Qed.

(** [kvread] returns the requested range of the file's content, cut at its
    end, and NotFound exactly for unknown files. *)
Theorem kvread_refines f offset n k :
  0 <= offset -> 0 <= n -> kvread f offset n k = spec_read f offset n (view k).
Proof. apply kvread_spec. Qed.
End Theorems.

(** A store in memory serves as device in the witnesses: [persistence_enabled_]
    is false, so it is never used. *)
Definition no_device : BlockDevice unit :=
  {| contents := fun _ _ => 0; durable := fun _ _ => 0; dev_open := fun d _ => (d, OK); dev_close := fun d => (d, OK);
     dev_read := fun d _ b => Some (d, OK, b); dev_write := fun d _ _ => Some (d, OK); dev_sync := fun d => (d, OK) |}.

Definition plain : KVIMR unit :=
  (kvwrite (str "/db/000009.sst") (str "abc")
     (RegisterSSTable (str "/db/000009.sst") 9 0 6
        (Construct tt (MetaFs.MkFs [] None None None)))).1.

Lemma operations_refine_filemap_witness :
  (forall g, view (kvwrite (str "/db/000009.sst") (str "de") plain).1 g =
     spec_op (OpWrite (str "/db/000009.sst") (str "de")) (view plain) g) \/
  (OK <> OK /\ forall g, view (kvwrite (str "/db/000009.sst") (str "de") plain).1 g = view plain g).
Proof.
  apply (@operations_refine_filemap unit no_device (OpWrite (str "/db/000009.sst") (str "de")) plain).
  reflexivity.
Defined.

Lemma kvread_refines_witness :
  kvread (str "/db/000009.sst") 1 7 plain = (OK, Some (str "bc")).
Proof.
  rewrite (@kvread_refines unit (str "/db/000009.sst") 1 7 plain) by lia. vm_compute. reflexivity.
Defined.
