(* ===== verification/RmwTheorems.v ===== *)
(** What the payload step ([ApplyPendingUpdatesLocked], [db/kvimr.cc])
    guarantees, and how KVIMR-M relates to KVIMR-N. *)

From S2P Require Import Prelude StdMap TrackAllocator BlockDevice MetaFs KvimrState Snapshot Rmw RmwSpec RmwEquiv Kvimr KvimrInv KvimrRecovery KvimrHealthy Backend KvimrCorrect.
Import TrackAllocator.

Section Theorems.
Context {D : Type} `{BDL : BlockDeviceLaws D}.

(** The state the payload step starts from: distinct tracks that hold the data,
    pending updates that are slices of it. *)
Definition payload_ready (state : SSTableState) : Prop :=
  good_segments (tracks state) /\ lenZ (data state) <= capsum (tracks state) /\
  Forall (update_ok (data state)) (pending_updates state).

(** C21: The payload step never damages anything.  In both modes and whatever the
    device does, it ends; no byte outside the file's own tracks changes, now or
    after a crash; bytes of the file that were durable stay durable; and if it
    returns OK every byte of every pending update is on the file's tracks. *)
Theorem payload_step_safe mode state (cx : Ctx D) :
  payload_ready state -> bufs_wf (tracks state) (cx_buffers cx) ->
  exists cx' st, ApplyPendingUpdatesLocked mode state cx = Some (cx', st) /\
    (forall a, outside_segs (tracks state) a ->
       contents (cx_dev cx') a = contents (cx_dev cx) a /\ durable (cx_dev cx') a = durable (cx_dev cx) a) /\
    (forall x, persisted (tracks state) (data state) cx x -> persisted (tracks state) (data state) cx' x) /\
    (st = OK -> forall x, covers (pending_updates state) x -> delivered (tracks state) (data state) cx' x).
Proof.
  intros (Hgood & Hfit & Hus) Hwf.
  destruct (ApplyPending_spec (tracks state) (data state) mode Hgood Hfit state cx eq_refl eq_refl Hus Hwf)
    as (cx' & st & E & [F _ P Dl]). eauto 10.
Qed.

(** C6: KVIMR-M is equivalent to KVIMR-N.  From the same device content and no
    track buffers, a successful merged run and a successful naive run leave the
    same content at every address of the device, namely that of writing the
    pending updates in order. *)
Theorem merged_equals_naive state (dN dM : D) cN cM cxN cxM :
  payload_ready state -> (forall a, contents dM a = contents dN a) ->
  ApplyPendingUpdatesLocked NAIVE state (MkCtx dN cN []) = Some (cxN, OK) ->
  ApplyPendingUpdatesLocked MERGED state (MkCtx dM cM []) = Some (cxM, OK) ->
  forall a, contents (cx_dev cxM) a = contents (cx_dev cxN) a /\
    contents (cx_dev cxN) a = ref_updates (data state) (tracks state) (pending_updates state) (contents dN) a.
Proof.
  intros (Hgood & Hfit & Hus) Hc EN EM a.
  pose proof (ApplyPending_reference _ _ _ Hgood Hfit state dN cN cxN eq_refl eq_refl Hus EN a) as HN.
  pose proof (ApplyPending_reference _ _ _ Hgood Hfit state dM cM cxM eq_refl eq_refl Hus EM a) as HM.
  split; [|done]. rewrite HN, HM. apply ref_updates_ext. auto.
Qed.

(** C24: What merging saves.  If [t] is the number of TOP-track touches of the
    pending updates, KVIMR-N performs [t] read-modify-writes; KVIMR-M counts [t]
    logical updates but performs only [n <= t] physical ones, one per touched
    track, and reports the difference as saved; bytes read and written scale
    accordingly (all counters modulo 2^64). *)
Theorem merged_saves_rmw state (dN dM : D) cxN cxM :
  payload_ready state ->
  ApplyPendingUpdatesLocked NAIVE state (MkCtx dN zero_counters []) = Some (cxN, OK) ->
  ApplyPendingUpdatesLocked MERGED state (MkCtx dM zero_counters []) = Some (cxM, OK) ->
  let t := top_touches (tracks state) (pending_updates state) in
  let n := lenZ (cx_buffers cxM) in
  0 <= n <= t /\ naive_counts (cx_counters cxN) t /\ merged_counts (cx_counters cxM) t n /\
  flush_counts (cx_counters cxM) n.
Proof.
  intros (Hgood & Hfit & Hus) EN EM t n.
  destruct (ApplyPending_counted NAIVE state _ _ Hgood Hfit Hus EN) as [HN _].
  destruct (ApplyPending_counted MERGED state _ _ Hgood Hfit Hus EM) as [_ (HM & HF & Hle)]; [done|].
  specialize (HN eq_refl). split; [|done]. pose proof (lenZ_nonneg (cx_buffers cxM)). unfold n, t. lia.
Qed.
End Theorems.

(** ** A file on one TOP and one BOTTOM track, written in two pieces *)

#[local] Existing Instances Backend.IMRSimBackend_BlockDevice Backend.IMRSimBackend_Laws
  Backend.IMRSimBackend_Healthy.

Definition two_tracks : list KVIMRTrackSegment := map segment_of [(TOP, 0); (BOTTOM, 0)].
Definition two_pieces : SSTableState :=
  MkState 7 2 2 false (str "hello, world") two_tracks
    [MkPending 0 (str "hello"); MkPending 5 (str ", world")] [].
Definition open_device : Backend.IMRSimBackend := backend_ Demo.k1.

Lemma two_tracks_good : good_segments two_tracks.
Proof.
  split; [done|]. exists [(TOP, 0); (BOTTOM, 0)]. split; [done|]. split.
  - apply NoDup_cons. split; [by rewrite list_elem_of_singleton|]. apply NoDup_singleton.
  - repeat constructor; simpl; lia.
Qed.

Lemma two_pieces_ready : payload_ready two_pieces.
Proof.
  split; [exact two_tracks_good|]. split; [by vm_compute|]. repeat constructor; simpl; try done;
    intros k Hk; change (lenZ _) with 5 in Hk || change (lenZ _) with 7 in Hk.
  - assert (k = 0 \/ k = 1 \/ k = 2 \/ k = 3 \/ k = 4) as Hc by lia.
    destruct Hc as [-> |[-> |[-> |[-> | ->]]]]; reflexivity.
  - assert (k = 0 \/ k = 1 \/ k = 2 \/ k = 3 \/ k = 4 \/ k = 5 \/ k = 6) as Hc by lia.
    destruct Hc as [-> |[-> |[-> |[-> |[-> |[-> | ->]]]]]]; reflexivity.
Qed.

Lemma two_pieces_run mode : exists cx', ApplyPendingUpdatesLocked mode two_pieces (MkCtx open_device zero_counters []) = Some (cx', OK).
Proof.
  destruct two_pieces_ready as (Hgood & Hfit & Hus).
  destruct (ApplyPending_ok Demo.demo_range two_tracks (data two_pieces) mode Hgood) with
    (state := two_pieces) (cx := MkCtx open_device zero_counters (@nil (Z * MergedTrackBuffer))) as (cx' & E & _); try done.
  - intros s lo n Hs. apply list_elem_of_fmap in Hs as (tr & -> & Htr).
    apply (Demo.demo_admits tr); [|left]. rewrite elem_of_cons, list_elem_of_singleton in Htr.
    destruct Htr as [->| ->]; simpl; lia.
  - apply Demo.demo_healthy; vm_compute; reflexivity.
  - by exists cx'.
Qed.

Lemma payload_step_safe_witness :
  exists cx' st, ApplyPendingUpdatesLocked MERGED two_pieces (MkCtx open_device zero_counters []) = Some (cx', st) /\
    (forall a, outside_segs two_tracks a ->
       contents (cx_dev cx') a = contents open_device a /\ durable (cx_dev cx') a = durable open_device a).
Proof.
  destruct (payload_step_safe MERGED two_pieces (MkCtx open_device zero_counters []) two_pieces_ready) as (cx' & st & E & F & _).
  - split; [done|by intros i b Hb..].
  - exists cx', st. split; [exact E|exact F].
Defined.

Lemma merged_equals_naive_witness :
  exists cxN cxM, ApplyPendingUpdatesLocked NAIVE two_pieces (MkCtx open_device zero_counters []) = Some (cxN, OK) /\
    ApplyPendingUpdatesLocked MERGED two_pieces (MkCtx open_device zero_counters []) = Some (cxM, OK) /\
    contents (cx_dev cxM) 3 = contents (cx_dev cxN) 3.
Proof.
  destruct (two_pieces_run NAIVE) as [cxN EN]. destruct (two_pieces_run MERGED) as [cxM EM].
  exists cxN, cxM. split; [exact EN|]. split; [exact EM|].
  apply (merged_equals_naive two_pieces open_device open_device zero_counters zero_counters cxN cxM
           two_pieces_ready (fun _ => eq_refl) EN EM).
Defined.

Lemma merged_saves_rmw_witness :
  exists cxN cxM : Ctx Backend.IMRSimBackend, naive_counts (cx_counters cxN) 2 /\ lenZ (cx_buffers cxM) <= 2.
Proof.
  destruct (two_pieces_run NAIVE) as [cxN EN]. destruct (two_pieces_run MERGED) as [cxM EM].
  exists cxN, cxM.
  destruct (merged_saves_rmw two_pieces open_device open_device cxN cxM two_pieces_ready EN EM) as (Hle & HN & _).
  assert (top_touches (tracks two_pieces) (pending_updates two_pieces) = 2) as Ht by (vm_compute; reflexivity).
  rewrite Ht in Hle, HN. split; [exact HN|apply Hle].
Defined.
