(* ===== verification/SnapshotCorrect.v ===== *)
(** Correctness of the snapshot format as [PersistSnapshotLocked] writes it and
    [LoadSnapshotLocked] reads it. *)

From S2P Require Import Prelude StdMap TrackAllocator BlockDevice MetaFs KvimrState Snapshot Rmw Kvimr KvimrRefine.
Import TrackAllocator.

Section Load.
Context {D : Type} `{BD : BlockDevice D}.
Implicit Types k : KVIMR D.

(** Loading succeeds only on entries that decode. *)
Lemma load_entries_decode n : forall bs k k',
  load_entries n bs k = Some (k', OK) -> exists x, decode_entries n bs = Ret x.
Proof.
  induction n as [|n IH]; intros bs k k'; simpl; [by eexists|]. unfold load_entry.
  pose proof (decode_entry_err bs) as Herr.
  destruct (decode_entry bs) as [[[st rel] bs1]|e]; simpl.
  2: { destruct e; simpl; done. }
  destruct (if negb _ then _ else _) as [a sa]. destruct sa; simpl; try done.
  destruct (RestorePayloadLocked st (backend_ k)) as [[[dev sr] st']|]; [|done].
  destruct sr; simpl; try done. intros [[es r] Ex]%IH. rewrite Ex. by eexists.
Qed.

Lemma load_decode k k' fs bs :
  MetaFs.read_metadata (fs_ k) = Some (fs, MetaFs.ReadData bs) ->
  LoadSnapshotLocked k = Some (k', OK) -> exists x, decode_snapshot (configured_zones_ k) bs = Ret x.
Proof.
  intros Hread. unfold LoadSnapshotLocked, decode_snapshot. rewrite Hread. simpl.
  pose proof (decode_header_err (configured_zones_ k) bs) as Herr.
  destruct (decode_header _ bs) as [[count bs1]|e]; simpl.
  - apply load_entries_decode.
  - intros [= _ ->]. done.
Qed.

(** C37: Decoding an encoded snapshot gives back every entry, with its path
    relative to the database directory, its number, levels, synced flag, size
    and track list; nothing is left over. *)
Theorem snapshot_roundtrip dbname zones files :
  snapshot_typed dbname zones files ->
  decode_snapshot zones (encode_snapshot dbname zones files) =
    Ret (map (fun e => (relative_path dbname e.1, stored_state e.2)) files, []).
Proof. apply decode_encode_snapshot. Qed.

(** C36: A metadata file that holds only a proper prefix of a snapshot is
    rejected: [LoadSnapshotLocked] never reports success on it. *)
Theorem truncated_snapshot_rejected dbname files bs t fs k k' s :
  snapshot_typed dbname (configured_zones_ k) files ->
  encode_snapshot dbname (configured_zones_ k) files = bs ++ t -> t <> [] ->
  MetaFs.read_metadata (fs_ k) = Some (fs, MetaFs.ReadData bs) ->
  LoadSnapshotLocked k = Some (k', s) -> s <> OK.
Proof.
  intros Ht E Hne Hread Hload ->. destruct (load_decode _ _ _ _ Hread Hload) as [x Hx].
  by eapply decode_prefix in Hx.
Qed.
End Load.

(** ** Witnesses *)

Definition one_file : stdmap bytes SSTableState :=
  [(str "/db/000009.sst", MkState 9 0 6 true (str "abc") [MkSegment 0 0 BOTTOM 456 568] [] [])].

Lemma one_file_typed : snapshot_typed (str "/db") 2 one_file.
Proof.
  split; [lia|]. split; [unfold lenZ; simpl; lia|]. apply Forall_singleton.
  change (relative_path (str "/db") (str "/db/000009.sst")) with (str "000009.sst").
  unfold state_typed, lenZ; simpl. split_and!; try lia. apply Forall_singleton. unfold segment_typed; simpl; lia.
Qed.

Lemma snapshot_roundtrip_witness :
  decode_snapshot 2 (encode_snapshot (str "/db") 2 one_file) =
    Ret ([(str "000009.sst", MkState 9 0 6 true [0; 0; 0] [MkSegment 0 0 BOTTOM 456 568] [] [])], []).
Proof. exact (snapshot_roundtrip (str "/db") 2 one_file one_file_typed). Defined.

Definition cut : bytes := removelast (encode_snapshot (str "/db") 2 one_file).
Definition cut_kvimr : KVIMR unit :=
  MkKVIMR [] [] (Reset 2) tt true 2 (str "/db") (str "/db/KVIMR-META") zero_counters NAIVE
    (MetaFs.MkFs [] (Some (MetaFs.MkFile cut true)) None None).

#[local] Existing Instance no_device.

Lemma truncated_snapshot_rejected_witness :
  exists k s, LoadSnapshotLocked cut_kvimr = Some (k, s) /\ s <> OK.
Proof.
  destruct (LoadSnapshotLocked cut_kvimr) as [[k s]|] eqn:E; [|by vm_compute in E].
  exists k, s. split; [done|].
  apply (truncated_snapshot_rejected (str "/db") one_file cut [0] (MetaFs.MkFs [] (Some (MetaFs.MkFile cut true)) None None) cut_kvimr k s).
  - exact one_file_typed.
  - vm_compute. reflexivity.
  - discriminate.
  - vm_compute. reflexivity.
  - exact E.
Defined.
