(* ===== verification/KvimrEnv.v ===== *)
(** The RocksDB side of KVIMR: the [Env] wrapper ([db/kvimr_env.cc]), the hooks
    that register tables ([db/builder.cc], [db/compaction_job.cc]), table file
    names ([util/filename.cc]) and the JNI entry points ([java/rocksjni/env.cc]).

    The wrapped [Env] is code of RocksDB and the operating system: a record of
    operations over its own state, about which nothing is assumed. *)

From S2P Require Import Prelude StdMap TrackAllocator BlockDevice MetaFs KvimrState Snapshot Rmw Kvimr KvimrRefine.
Import TrackAllocator.

Module KvimrEnv.

Definition sst_ext : bytes := str ".sst".

Definition IsSSTable (fname : bytes) : bool :=
  (4 <=? lenZ fname) && bool_decide (drop (length fname - 4) fname = sst_ext).

(** The operations of the wrapped environment that [KVIMREnv] forwards to. *)
Record BaseEnv (E : Type) := MkBase {
  base_new_random_access_file : bytes -> E -> E * Status;
  base_new_writable_file : bytes -> E -> E * Status;
  base_delete_file : bytes -> E -> E * Status;
  base_file_exists : bytes -> E -> E * Status;
  base_get_children : bytes -> E -> E * Status * list bytes;
  base_get_file_size : bytes -> E -> E * Status * option Z;
}.
Arguments base_new_random_access_file {E}.
Arguments base_new_writable_file {E}.
Arguments base_delete_file {E}.
Arguments base_file_exists {E}.
Arguments base_get_children {E}.
Arguments base_get_file_size {E}.

Section Env.
Context {D E : Type} `{BD : BlockDevice D}.
Variable base : BaseEnv E.

(** The singleton middleware and the wrapped environment. *)
Definition World : Type := KVIMR D * E.
Implicit Types w : World.

(** ** File objects *)

Definition Append (fname data : bytes) w : World * Status :=
  let (k, s) := kvwrite fname data w.1 in ((k, w.2), s).

Definition lift (r : option (KVIMR D * Status)) w : option (World * Status) :=
  match r with Some (k, s) => Some ((k, w.2), s) | None => None end.

Definition Close (fname : bytes) w : option (World * Status) := lift (kvsync fname w.1) w.
Definition Flush w : World * Status := (w, OK).
Definition Sync (fname : bytes) w : option (World * Status) := lift (kvsync fname w.1) w.
(** [size] stays 0 when the file is unknown. *)
Definition WritableFileSize (fname : bytes) w : Z := default 0 (GetSSTableSize fname w.1).2.
Definition Read (fname : bytes) (offset n : Z) w : Status * option bytes := kvread fname offset n w.1.

(** ** [KVIMREnv] *)

Definition NewRandomAccessFile (fname : bytes) w : World * Status :=
  if negb (IsSSTable fname) then
    let (e, s) := base_new_random_access_file base fname w.2 in ((w.1, e), s)
  else if negb (HasSSTable fname w.1) then (w, not_found fname)
  else (w, OK).

Definition NewWritableFile (fname : bytes) w : World * Status :=
  if negb (IsSSTable fname) then
    let (e, s) := base_new_writable_file base fname w.2 in ((w.1, e), s)
  else ((BeginWrite fname w.1, w.2), OK).

Definition DeleteFile (fname : bytes) w : option (World * Status) :=
  if negb (IsSSTable fname) then
    let (e, s) := base_delete_file base fname w.2 in Some ((w.1, e), s)
  else lift (kvunlink fname w.1) w.

Definition FileExists (fname : bytes) w : World * Status :=
  if negb (IsSSTable fname) then
    let (e, s) := base_file_exists base fname w.2 in ((w.1, e), s)
  else (w, if HasSSTable fname w.1 then OK else not_found fname).

Definition GetChildren (dir : bytes) w : World * Status * list bytes :=
  let '(e, s, result) := base_get_children base dir w.2 in
  if negb (ok s) then ((w.1, e), s, result)
  else ((w.1, e), OK, result ++ ListSSTables dir w.1).

Definition GetFileSize (fname : bytes) w : World * Status * option Z :=
  if negb (IsSSTable fname) then
    let '(e, s, size) := base_get_file_size base fname w.2 in ((w.1, e), s, size)
  else let (s, size) := GetSSTableSize fname w.1 in (w, s, size).

(** A call on the environment or on one of its open table files. *)
Inductive env_call :=
| CNewRandomAccess (f : bytes)
| CNewWritable (f : bytes)
| CDelete (f : bytes)
| CExists (f : bytes)
| CSize (f : bytes).

Definition call_file (c : env_call) : bytes :=
  match c with CNewRandomAccess f | CNewWritable f | CDelete f | CExists f | CSize f => f end.

Definition env_exec (c : env_call) w : option (World * Status) :=
  match c with
  | CNewRandomAccess f => Some (NewRandomAccessFile f w)
  | CNewWritable f => Some (NewWritableFile f w)
  | CDelete f => DeleteFile f w
  | CExists f => Some (FileExists f w)
  | CSize f => Some (GetFileSize f w).1
  end.

(** ** Hooks in RocksDB *)

(** [BuildTable] registers the output before it opens it. *)
Definition BuildTable_open (fname : bytes) (number level effective_largest_level : Z) w : World * Status :=
  let largest := if effective_largest_level >=? 0 then effective_largest_level else level in
  NewWritableFile fname (RegisterSSTable fname number level largest w.1, w.2).

Definition OpenCompactionOutputFile (fname : bytes) (number output_level num_non_empty_levels : Z) w : World * Status :=
  NewWritableFile fname
    (RegisterSSTable fname number output_level (Z.max output_level (num_non_empty_levels - 1)) w.1, w.2).

(** ** [newKVIMREnv] *)

Inductive JniResult := NewEnv | IllegalArgument (s : Status) | RocksDBException (s : Status) | NullResult.

(** [None] arguments are null references; [chars_ok] says that the three
    [GetStringUTFChars] calls succeeded. *)
Definition newKVIMREnv (db_path device : option bytes) (zones : Z) (rmw_mode : option bytes)
    (chars_ok : bool) (fs : MetaFs.Fs) (k : KVIMR D) : option (KVIMR D * JniResult) :=
  match db_path, device, rmw_mode with
  | Some db_path, Some device, Some mode =>
      if (zones <=? 0) || (u64 zones >? 4294967295)
      then Some (k, IllegalArgument (InvalidArgument "KVIMR requires nonempty paths and a valid zone count"))
      else if negb chars_ok then Some (k, NullResult)
      else
        let '(k, status) :=
          if bool_decide (db_path = []) || bool_decide (device = [])
          then (k, InvalidArgument "KVIMR database and device paths must not be empty")
          else if bool_decide (mode = str "naive") then (SetRMWMode NAIVE k, OK)
          else if bool_decide (mode = str "merged") then (SetRMWMode MERGED k, OK)
          else (k, InvalidArgument "KVIMR rmw_mode must be naive or merged") in
        match (if ok status then InitializePersistence db_path (u32 zones) device fs k else Some (k, status)) with
        | None => None
        | Some (k, status) =>
            Some (k, if negb (ok status)
                     then match status with InvalidArgument _ => IllegalArgument status | _ => RocksDBException status end
                     else NewEnv)
        end
  | _, _, _ => Some (k, IllegalArgument (InvalidArgument "KVIMR requires nonempty paths and a valid zone count"))
  end.

(** The counter getters: [static_cast<jlong>] of a [uint64_t] field. *)
Definition jni_counter (field : RMWCounters -> Z) (k : KVIMR D) : Z := i64 (field (GetRMWCounters k)).
End Env.

(** ** Table file names *)

(** [%llu]: decimal digits, most significant first. *)
Fixpoint decimal_loop (fuel : nat) (n : Z) (acc : bytes) : bytes :=
  match fuel with
  | O => acc
  | S fuel => let acc := (48 + n mod 10) :: acc in if n <? 10 then acc else decimal_loop fuel (n / 10) acc
  end.
Definition decimal (n : Z) : bytes := decimal_loop 20 n [].
(** [%06llu] *)
Definition decimal6 (n : Z) : bytes := replicate (6 - length (decimal n)) 48 ++ decimal n.

(** [MakeFileName(path, number, "sst")]: [path + "/%06llu.sst"]. *)
Definition MakeTableFileName (path : bytes) (number : Z) : bytes :=
  path ++ [slash] ++ decimal6 number ++ sst_ext.

(** [while (--pos >= 0 && isdigit(name[pos])) ...] over the bytes before the
    dot, last one first. *)
Fixpoint number_loop (rev_name : bytes) (number base : Z) : Z :=
  match rev_name with
  | [] => number
  | c :: rest =>
      if (48 <=? c) && (c <=? 57)
      then number_loop rest (number [+] ((c - 48) [*] base)) (base [*] 10)
      else number
  end.

(** The bytes before the last ['.'], reversed; [find_last_of] gives -1 as an
    [int] when there is none, and the loop does not run. *)
Fixpoint rev_before_last_dot (rev_name : bytes) : bytes :=
  match rev_name with
  | [] => []
  | c :: rest => if c =? dot then rest else rev_before_last_dot rest
  end.

Definition TableFileNameToNumber (name : bytes) : Z :=
  number_loop (rev_before_last_dot (rev name)) 0 1.

(** ** Lemmas on names *)

Definition digit (c : Z) : Prop := 48 <= c <= 57.
(** The number a digit string denotes, continuing from [acc]. *)
Definition dval (l : bytes) (acc : Z) : Z := fold_left (fun a c => a * 10 + (c - 48)) l acc.

Lemma dval_app l1 l2 acc : dval (l1 ++ l2) acc = dval l2 (dval l1 acc).
Proof. apply fold_left_app. Qed.

Lemma decimal_loop_spec fuel : forall n acc,
  0 <= n < 10 ^ Z.of_nat (S fuel) -> Forall digit acc ->
  Forall digit (decimal_loop (S fuel) n acc) /\ decimal_loop (S fuel) n acc <> [] /\
  dval (decimal_loop (S fuel) n acc) 0 = dval acc n.
Proof.
  induction fuel as [|fuel IH]; intros n acc Hn Hacc.
  - simpl decimal_loop. assert (0 <= n < 10) as Hn' by (simpl in Hn; lia).
    rewrite (Z.mod_small n 10) by lia.
    replace (n <? 10) with true by lia. split_and!; [|done|].
    + constructor; [unfold digit; lia|done].
    + unfold dval. simpl. f_equal. lia.
  - remember (S fuel) as fuel'. simpl decimal_loop.
    pose proof (Z.mod_pos_bound n 10 ltac:(lia)) as Hmod. pose proof (Z.div_mod n 10 ltac:(lia)) as Hdiv.
    assert (Forall digit (48 + n mod 10 :: acc)) as Hacc'
      by (constructor; [unfold digit; lia|done]).
    destruct (n <? 10) eqn:E.
    + split_and!; [done|done|]. unfold dval. simpl. f_equal. rewrite Z.mod_small; lia.
    + destruct (IH (n / 10) (48 + n mod 10 :: acc)) as (H1 & H2 & H3); [|done|].
      * subst fuel'. rewrite Nat2Z.inj_succ, Z.pow_succ_r in Hn by lia.
        split; [apply Z.div_pos; lia|apply Z.div_lt_upper_bound; lia].
      * split_and!; [done|done|]. rewrite H3. unfold dval. simpl. f_equal. lia.
Qed.

Lemma decimal_spec n : 0 <= n < 2 ^ 64 ->
  Forall digit (decimal n) /\ decimal n <> [] /\ dval (decimal n) 0 = n.
Proof. intros Hn. apply (decimal_loop_spec 19 n []); [lia|constructor]. Qed.

Lemma decimal6_spec n : 0 <= n < 2 ^ 64 ->
  Forall digit (decimal6 n) /\ decimal6 n <> [] /\ dval (decimal6 n) 0 = n.
Proof.
  intros Hn. destruct (decimal_spec n Hn) as (H1 & H2 & H3). unfold decimal6.
  assert (forall m, Forall digit (replicate m 48)) as Hz.
  { intros m. apply Forall_replicate. unfold digit. lia. }
  split_and!; [by apply Forall_app| |].
  - intros [_ ?]%app_eq_nil. done.
  - rewrite dval_app. replace (dval (replicate _ 48) 0) with 0; [done|].
    induction (6 - length (decimal n))%nat as [|m IH]; [done|]. unfold dval. simpl. exact IH.
Qed.

Lemma parse_digits_spec l : forall a, Forall digit l -> parse_digits l (u64 a) = u64 (dval l a).
Proof.
  induction l as [|c l IH]; intros a Hl; simpl; [done|]. apply Forall_cons in Hl as [Hc Hl].
  unfold digit in Hc. replace ((c <? 48) || (c >? 57)) with false by lia.
  rewrite u64_mul_l, u64_add_l. by apply IH.
Qed.

(** Digits, then anything that stops the backward scan. *)
Lemma number_loop_spec l stop : forall num base,
  Forall digit l -> (forall c s, stop = c :: s -> ~ digit c) ->
  number_loop (rev l ++ stop) (u64 num) (u64 base) = u64 (num + base * dval l 0).
Proof.
  induction l as [|c l IH] using rev_ind; intros num base Hl Hstop.
  - simpl. unfold dval. simpl. rewrite Z.mul_0_r, Z.add_0_r. destruct stop as [|c s]; [done|]. simpl.
    specialize (Hstop c s eq_refl). unfold digit in Hstop. by replace ((48 <=? c) && (c <=? 57)) with false by lia.
  - apply Forall_app in Hl as [Hl Hc]. apply Forall_cons in Hc as [Hc _]. unfold digit in Hc.
    rewrite rev_app_distr. simpl. replace ((48 <=? c) && (c <=? 57)) with true by lia.
    rewrite u64_mul_l, (Z.mul_comm (c - 48)), u64_mul_l, u64_add_l, u64_add_r, IH by done.
    f_equal. rewrite dval_app. unfold dval at 2. simpl. fold (dval l 0). lia.
Qed.

Lemma find_last_sep_none l i : Forall (fun c => is_sep c = false) l -> find_last_sep l i = None.
Proof.
  revert i. induction l as [|c l IH]; intros i Hl; simpl; [done|].
  apply Forall_cons in Hl as [-> Hl]. by rewrite IH.
Qed.

Lemma find_last_sep_app p l i :
  Forall (fun c => is_sep c = false) l -> find_last_sep (p ++ slash :: l) i = Some (i + lenZ p).
Proof.
  revert i. induction p as [|c p IH]; intros i Hl; simpl.
  - rewrite find_last_sep_none by done. simpl. f_equal. unfold lenZ. simpl. lia.
  - rewrite IH by done. f_equal. unfold lenZ. simpl. lia.
Qed.

Lemma before_dot_digits l rest : Forall digit l -> before_dot (l ++ dot :: rest) = Some l.
Proof.
  induction 1 as [|c l Hc _ IH]; simpl; [done|]. unfold digit in Hc. unfold dot at 1.
  replace (c =? 46) with false by lia. by rewrite IH.
Qed.

Lemma digits_no_sep l : Forall digit l -> Forall (fun c => is_sep c = false) (l ++ sst_ext).
Proof.
  intros Hl. apply Forall_app. split.
  - eapply Forall_impl; [exact Hl|]. intros c Hc. unfold digit in Hc. unfold is_sep, slash, backslash. lia.
  - repeat constructor.
Qed.

Lemma table_name_sep path n : 0 <= n < 2 ^ 64 ->
  find_last_sep (MakeTableFileName path n) 0 = Some (lenZ path).
Proof.
  intros Hn. destruct (decimal6_spec n Hn) as (Hd & _ & _).
  apply (find_last_sep_app path (decimal6 n ++ sst_ext) 0). by apply digits_no_sep.
Qed.

Lemma table_name_parts path n : 0 <= n < 2 ^ 64 ->
  parent_of (MakeTableFileName path n) = path /\
  base_of (MakeTableFileName path n) = decimal6 n ++ sst_ext.
Proof.
  intros Hn. unfold parent_of, base_of. rewrite table_name_sep, to_nat_lenZ by done.
  unfold MakeTableFileName. split.
  - apply take_app_length.
  - replace (Z.to_nat (lenZ path + 1)) with (length path + 1)%nat by (unfold lenZ; lia).
    by rewrite <- drop_drop, drop_app_length.
Qed.

Lemma table_name_is_sst path n : IsSSTable (MakeTableFileName path n) = true.
Proof.
  unfold IsSSTable, MakeTableFileName. rewrite !app_assoc. set (p := (path ++ _) ++ _).
  rewrite lenZ_app. pose proof (lenZ_nonneg p). change (lenZ sst_ext) with 4.
  replace (4 <=? lenZ p + 4) with true by lia. simpl. apply bool_decide_eq_true_2.
  rewrite length_app. change (length sst_ext) with 4%nat.
  by rewrite Nat.add_sub, drop_app_length.
Qed.

Lemma table_name_number pre n :
  0 <= n < 2 ^ 64 -> (forall c s, rev pre = c :: s -> ~ digit c) ->
  TableFileNameToNumber (pre ++ decimal6 n ++ sst_ext) = n.
Proof.
  intros Hn Hpre. destruct (decimal6_spec n Hn) as (Hd & _ & Hval).
  unfold TableFileNameToNumber. rewrite !rev_app_distr. simpl.
  pose proof (number_loop_spec (decimal6 n) (rev pre) 0 1 Hd Hpre) as Hl.
  rewrite !u64_small in Hl by lia. rewrite Hl, Hval. lia.
Qed.

(** ** Lemmas on contents *)

Section Contents.
Context {D E : Type} `{BD : BlockDevice D}.
Implicit Types w : World (D := D) (E := E).

Definition append_all (f : bytes) (chunks : list bytes) w : World :=
  fold_left (fun w c => (Append f c w).1) chunks w.

Lemma Append_view f c w g :
  view (Append f c w).1.1 g = if decide (g = f) then Some (default [] (view w.1 f) ++ c) else view w.1 g.
Proof.
  unfold Append, view. simpl. rewrite find_insert.
  destruct (decide (f = g)) as [<-|Hne]; [rewrite decide_True by done|by rewrite decide_False].
  unfold m_get. simpl. by destruct (m_find f (files_ w.1)).
Qed.

Lemma append_all_view f chunks : forall w d,
  view w.1 f = Some d ->
  view (append_all f chunks w).1 f = Some (d ++ concat chunks) /\ (append_all f chunks w).2 = w.2.
Proof.
  induction chunks as [|c chunks IH]; intros w d Hd; [simpl; by rewrite app_nil_r|].
  change (append_all f (c :: chunks) w) with (append_all f chunks (Append f c w).1).
  destruct (IH (Append f c w).1 (d ++ c)) as [H1 H2].
  - rewrite Append_view, decide_True, Hd by done. done.
  - rewrite H1, H2. simpl. by rewrite app_assoc.
Qed.

Lemma opened_view f n lv largest (k : KVIMR D) :
  view (BeginWrite f (RegisterSSTable f n lv largest k)) f = Some [].
Proof.
  unfold BeginWrite, view, RegisterSSTable. simpl. rewrite find_insert_eq. simpl.
  destruct (negb _); simpl; by rewrite find_insert_eq.
Qed.

Lemma view_has f d (k : KVIMR D) : view k f = Some d ->
  HasSSTable f k = true /\ GetSSTableSize f k = (OK, Some (lenZ d)).
Proof.
  unfold view, HasSSTable, GetSSTableSize. destruct (m_find f (files_ k)) as [st|]; [|done].
  by intros [= <-].
Qed.

Lemma view_listed f d (k : KVIMR D) : view k f = Some d -> base_of f ∈ ListSSTables (parent_of f) k.
Proof.
  unfold view, ListSSTables. destruct (m_find f (files_ k)) as [st|] eqn:Hf; [|done]. intros _.
  apply list_elem_of_fmap. exists (f, st). split; [done|]. apply list_elem_of_filter. split; [done|].
  by apply find_elem_of.
Qed.
End Contents.

(** ** Lemmas on initialisation *)

Section Init.
Context {D : Type} `{BD : BlockDevice D}.
Implicit Types k : KVIMR D.

Definition config k : RMWMode * bool * Z * bytes :=
  (rmw_mode_ k, persistence_enabled_ k, configured_zones_ k, dbname_ k).

Lemma load_entry_config bs k k' s bs' : load_entry bs k = Some (k', s, bs') -> config k' = config k.
Proof.
  unfold load_entry. destruct (decode_entry bs) as [[[st rel] bs1]|e]; [|by intros [= <- _ _]].
  destruct (if negb _ then _ else _) as [a sa]. destruct (ok sa); simpl; [|by intros [= <- _ _]].
  destruct (RestorePayloadLocked st (backend_ k)) as [[[dev sr] st']|]; [|done]. by intros [= <- _ _].
Qed.

Lemma load_entries_config n : forall bs k k' s, load_entries n bs k = Some (k', s) -> config k' = config k.
Proof.
  induction n as [|n IH]; intros bs k k' s; simpl; [by intros [= <- _]|].
  destruct (load_entry bs k) as [[[k1 s1] bs1]|] eqn:E1; [|done]. apply load_entry_config in E1. rewrite <- E1.
  destruct (ok s1); simpl; [apply IH|by intros [= <- _]].
Qed.

Lemma initialize_config p z dev fs k k' :
  InitializePersistence p z dev fs k = Some (k', OK) -> config k' = (rmw_mode_ k, true, z, p).
Proof.
  unfold InitializePersistence. destruct (z =? 0); [by intros [= _ <-]|].
  destruct (dev_open _ dev) as [b s]. destruct (ok s) eqn:Es; simpl; [|by intros [= _ ->]].
  unfold LoadSnapshotLocked. simpl. destruct (MetaFs.read_metadata fs) as [[fs' r]|]; [|done].
  destruct r as [|msg|bs]; [by intros [= <-]|done|].
  destruct (decode_header z bs) as [[count bs1]|e]; [|by intros [= <- ->]].
  intros E%load_entries_config. exact E.
Qed.
End Init.

(** ** Theorems *)

Section Theorems.
Context {D E : Type} `{BD : BlockDevice D}.
Variable base : BaseEnv E.
Implicit Types w : World (D := D) (E := E).

(** C38: A table that RocksDB opens through either hook, appends to in any
    pieces and closes is found by the environment with the exact size and reads
    back as the concatenation of the pieces, whatever [Close] returned and
    whatever it replaced; the wrapped environment is not involved. *)
Theorem table_write_read f n lv largest chunks w1 w2 s2 w :
  IsSSTable f = true ->
  (BuildTable_open base f n lv largest w = (w1, OK) \/
   OpenCompactionOutputFile base f n lv largest w = (w1, OK)) ->
  Close f (append_all f chunks w1) = Some (w2, s2) ->
  w2.2 = w.2 /\ NewRandomAccessFile base f w2 = (w2, OK) /\
  GetFileSize base f w2 = (w2, OK, Some (lenZ (concat chunks))) /\
  forall offset len, 0 <= offset -> 0 <= len ->
    Read f offset len w2 = (OK, Some (take (Z.to_nat len) (drop (Z.to_nat offset) (concat chunks)))).
Proof.
  intros Hsst Hopen Hclose.
  assert (view w1.1 f = Some [] /\ w1.2 = w.2) as [Hv1 Hb1].
  { unfold BuildTable_open, OpenCompactionOutputFile, NewWritableFile in Hopen. rewrite Hsst in Hopen. simpl in Hopen.
    destruct Hopen as [[= <-]|[= <-]]; (split; [apply opened_view|done]). }
  destruct (append_all_view f chunks w1 [] Hv1) as [Hv2 Hb2].
  unfold Close, lift in Hclose. destruct (kvsync f _) as [[k3 s3]|] eqn:Esync; [|done]. injection Hclose as <- <-.
  pose proof (kvsync_view _ _ _ _ Esync f) as Hv3. rewrite Hv2 in Hv3. simpl in Hv3.
  destruct (view_has _ _ _ Hv3) as [Hhas Hsize]. unfold NewRandomAccessFile, GetFileSize, Read. simpl.
  rewrite Hsst, Hhas, Hsize. simpl. split_and!; [congruence|done|done|].
  intros offset len Ho Hl. rewrite kvread_spec by done. unfold spec_read. by rewrite Hv3.
Qed.

(** The environment routes by file name alone: a call on a table leaves the
    wrapped environment as it was and does the same whatever environment is
    wrapped, and a call on any other file leaves the middleware as it was. *)
Theorem env_routes_by_suffix c w w' s :
  env_exec base c w = Some (w', s) ->
  (IsSSTable (call_file c) = true -> w'.2 = w.2 /\ forall base', env_exec base' c w = Some (w', s)) /\
  (IsSSTable (call_file c) = false -> w'.1 = w.1).
Proof.
  destruct c as [f|f|f|f|f]; simpl; unfold NewRandomAccessFile, NewWritableFile, DeleteFile, FileExists, GetFileSize;
    destruct (IsSSTable f); simpl; intros Hex; (split; [|try done]); try done.
  - intros _. destruct (HasSSTable f w.1); simpl in *; by injection Hex as <- <-.
  - intros _. destruct (base_new_random_access_file base f w.2). by injection Hex as <- <-.
  - intros _. by injection Hex as <- <-.
  - intros _. destruct (base_new_writable_file base f w.2). by injection Hex as <- <-.
  - intros _. unfold lift in *. destruct (kvunlink f w.1) as [[k' s']|]; [|done]. by injection Hex as <- <-.
  - intros _. destruct (base_delete_file base f w.2). by injection Hex as <- <-.
  - intros _. by injection Hex as <- <-.
  - intros _. destruct (base_file_exists base f w.2). by injection Hex as <- <-.
  - intros _. destruct (GetSSTableSize f w.1). by injection Hex as <- <-.
  - intros _. destruct (base_get_file_size base f w.2) as [[e1 s1] z1]. by injection Hex as <- <-.
Qed.

(** The number RocksDB puts into a table's name is the number both name
    parsers read back, for every 64-bit number and every directory; the name is
    a table name. *)
Theorem table_number_roundtrip path n :
  0 <= n < 2 ^ 64 ->
  IsSSTable (MakeTableFileName path n) = true /\
  FileNumber (MakeTableFileName path n) = n /\ TableFileNameToNumber (MakeTableFileName path n) = n.
Proof.
  intros Hn. destruct (decimal6_spec n Hn) as (Hd & Hne & Hval). split; [apply table_name_is_sst|]. split.
  - unfold FileNumber. destruct (table_name_parts path n Hn) as [_ Hbase]. unfold base_of in Hbase.
    rewrite table_name_sep in * by done. rewrite Hbase.
    change sst_ext with (dot :: str "sst"). rewrite before_dot_digits by done.
    destruct (decimal6 n) as [|d ds] eqn:Ed; [done|].
    pose proof (parse_digits_spec (d :: ds) 0 Hd) as Hp. rewrite Hval in Hp. change (u64 0) with 0 in Hp.
    by rewrite u64_small in Hp.
  - unfold MakeTableFileName. rewrite app_assoc. apply table_name_number; [done|].
    rewrite rev_app_distr. simpl. intros c r [= <- _]. unfold digit, slash. lia.
Qed.

(** Every table of a directory is among the directory's children, under a
    name from which RocksDB recovers the table's number. *)
Theorem children_list_tables dir n d l w w' :
  0 <= n < 2 ^ 64 -> view w.1 (MakeTableFileName dir n) = Some d ->
  GetChildren base dir w = (w', OK, l) ->
  exists name, name ∈ l /\ MakeTableFileName dir n = dir ++ [slash] ++ name /\ TableFileNameToNumber name = n.
Proof.
  intros Hn Hv. unfold GetChildren. destruct (base_get_children base dir w.2) as [[e s] r].
  destruct (ok s) eqn:Es; simpl; [|by intros [= _ -> _]]. intros [= _ <-].
  apply view_listed in Hv. destruct (table_name_parts dir n Hn) as [Hp Hb]. rewrite Hp, Hb in Hv.
  exists (decimal6 n ++ sst_ext). split_and!; [apply elem_of_app; by right|done|].
  by apply (table_name_number [] n).
Qed.

(** [newKVIMREnv] hands out an environment only for nonempty paths, a zone
    count between 1 and 2^32 - 1 and one of the two mode names, and then the
    middleware persists under that directory, with that zone count and mode. *)
Theorem new_env_configured db_path device zones rmw_mode chars_ok fs (k k' : KVIMR D) :
  - 2 ^ 63 <= zones < 2 ^ 63 ->
  newKVIMREnv db_path device zones rmw_mode chars_ok fs k = Some (k', NewEnv) ->
  exists p m, db_path = Some p /\ p <> [] /\ device <> None /\ device <> Some [] /\ 0 < zones < 2 ^ 32 /\
    (rmw_mode = Some (str "naive") /\ m = NAIVE \/ rmw_mode = Some (str "merged") /\ m = MERGED) /\
    config k' = (m, true, zones, p).
Proof.
  intros Hz. unfold newKVIMREnv. destruct db_path as [p|], device as [d|], rmw_mode as [mode|]; try done.
  destruct ((zones <=? 0) || _) eqn:Ez; [done|]. destruct chars_ok; simpl; [|done].
  rewrite (u64_small zones) in Ez by lia. assert (0 < zones < 2 ^ 32) as Hz' by lia.
  assert (u32 zones = zones) as -> by (apply u32_small; lia).
  repeat case_bool_decide; simpl; try done;
    (destruct (InitializePersistence _ _ _ _ _) as [[k1 s1]|] eqn:Ei; [|done]);
    (destruct s1; simpl; try done); intros [= <-]; apply initialize_config in Ei; simpl in Ei;
    subst mode; eexists p, _; (split_and!; [done|done|done|congruence|lia|lia|eauto|exact Ei]).
Qed.
End Theorems.

(** ** Witnesses: an in-memory middleware over an environment that counts its
    calls. *)

Definition counting : BaseEnv nat :=
  MkBase nat (fun _ e => (S e, OK)) (fun _ e => (S e, OK)) (fun _ e => (S e, OK)) (fun _ e => (S e, OK))
    (fun _ e => (S e, OK, [])) (fun _ e => (S e, OK, Some 0)).

#[local] Existing Instance no_device.

Definition table9 : bytes := MakeTableFileName (str "/db") 9.
Definition world0 : World := (Construct tt (MetaFs.MkFs [] None None None), 0%nat).
Definition world1 : World := (BuildTable_open counting table9 9 0 6 world0).1.
Definition world2 : World := append_all table9 [str "ab"; str "cde"] world1.

Lemma table_write_read_witness :
  exists w, Close table9 world2 = Some (w, OK) /\ Read table9 1 3 w = (OK, Some (str "bcd")).
Proof.
  destruct (Close table9 world2) as [[w s]|] eqn:E; [|by vm_compute in E].
  assert (s = OK) as -> by (vm_compute in E; congruence).
  exists w. split; [done|].
  destruct (table_write_read counting table9 9 0 6 [str "ab"; str "cde"] world1 w OK world0) as (_ & _ & _ & H);
    [reflexivity|left; reflexivity|exact E|]. exact (H 1 3 ltac:(lia) ltac:(lia)).
Defined.

Lemma env_routes_by_suffix_witness :
  IsSSTable table9 = true /\ (NewWritableFile counting table9 world0).1.2 = 0%nat.
Proof.
  split; [reflexivity|].
  apply (env_routes_by_suffix counting (CNewWritable table9) world0 (NewWritableFile counting table9 world0).1 OK);
    reflexivity.
Defined.

Lemma table_number_roundtrip_witness : FileNumber (str "/db/1234567.sst") = 1234567.
Proof. apply (table_number_roundtrip (str "/db") 1234567). lia. Defined.

Lemma children_list_tables_witness :
  exists name, name ∈ [str "000009.sst"] /\ table9 = str "/db" ++ [slash] ++ name /\ TableFileNameToNumber name = 9.
Proof.
  apply (children_list_tables counting (str "/db") 9 [] [str "000009.sst"] world1
    (GetChildren counting (str "/db") world1).1.1); [lia|reflexivity|reflexivity].
Defined.

(** No metadata file yet: every call finds nothing. *)
Lemma new_env_configured_witness :
  exists k p m, newKVIMREnv (Some (str "/db")) (Some (str "/dev/dm-0")) 2 (Some (str "merged")) true
    (MetaFs.MkFs [] None None None) world0.1 = Some (k, NewEnv) /\ config k = (m, true, 2, p).
Proof.
  destruct (newKVIMREnv (Some (str "/db")) (Some (str "/dev/dm-0")) 2 (Some (str "merged")) true
    (MetaFs.MkFs [] None None None) world0.1) as [[k r]|] eqn:E; [|by vm_compute in E].
  assert (r = NewEnv) as -> by (vm_compute in E; congruence).
  destruct (new_env_configured _ _ _ _ _ _ _ _ (conj (ltac:(lia) : - 2 ^ 63 <= 2) (ltac:(lia) : 2 < 2 ^ 63)) E)
    as (p & m & _ & _ & _ & _ & _ & _ & H).
  by exists k, p, m.
Defined.
End KvimrEnv.
