(* ===== verification/ImrPrelude.v ===== *)
(** Shared definitions of the IMRSim kernel target ([imrsim_kmod/dm-imrsim.c]):
    error codes, results, statistics, the memory allocator and constants. *)

From S2P Require Import Prelude.

(** ** Results *)

(** A function that returns 0 or an error code and fills an out parameter. *)
Inductive cres (A : Type) := Ok (x : A) | Fail (err : Z).
Arguments Ok {A}.
Arguments Fail {A}.

Definition ENOMEM : Z := 12.
Definition EBUSY : Z := 16.
Definition ENODEV : Z := 19.
Definition EINVAL : Z := 22.
Definition ENOSPC : Z := 28.
Definition ERANGE : Z := 34.
Definition EAGAIN : Z := 11.
Definition E2BIG : Z := 7.
Definition EOVERFLOW : Z := 75.
Definition EUCLEAN : Z := 117.

(** ** Statistics

    [struct imr_lsm_stats] is a flat structure of counters and last-seen values;
    it is a function from field names. *)
Definition counters : Type := string -> Z.
Definition set_stat (f : string) (v : Z) (c : counters) : counters :=
  fun g => if String.eqb g f then v else c g.
Definition add_stat (f : string) (n : Z) (c : counters) : counters := set_stat f (u64 (c f + n)) c.
Definition inc_stat (f : string) (c : counters) : counters := add_stat f 1 c.
Definition zero_stats : counters := fun _ => 0.

(** ** Memory

    [kzalloc] and [vzalloc] answer from a script ([false] is a null pointer;
    they succeed when it is used up) and hand out fresh addresses. *)
Record heap := MkHeap { hp_script : list bool; hp_next : Z }.
Definition kzalloc (h : heap) : heap * option Z :=
  match hp_script h with
  | [] => (MkHeap [] (hp_next h + 1), Some (hp_next h))
  | true :: r => (MkHeap r (hp_next h + 1), Some (hp_next h))
  | false :: r => (MkHeap r (hp_next h), None)
  end.

(** ** Constants *)

Definition IMR_ZONE_SIZE_SHIFT : Z := 16.
Definition IMR_BLOCK_SIZE_SHIFT : Z := 3.
Definition TOP_TRACK_NUM_TOTAL : Z := 64.
Definition IMR_TOP_TRACK_SIZE : Z := 456.
Definition IMR_BOTTOM_TRACK_SIZE : Z := 568.
Definition TOTAL_ITEMS : Z := (IMR_TOP_TRACK_SIZE + IMR_BOTTOM_TRACK_SIZE) * TOP_TRACK_NUM_TOTAL.
(** [(__u32)~0U], the value of [IMR_LSM_KEY_EMPTY], [IMR_LSM_SEGMENT_NONE],
    [IMR_LSM_SEGMENT_ZONE_MIXED] and [IMR_LSM_ZONE_COMPACTION_NONE]. *)
Definition U32_MAX : Z := 4294967295.
Definition U64_MAX : Z := 18446744073709551615.
Definition IMR_LSM_KEY_EMPTY : Z := U32_MAX.
Definition IMR_LSM_SEGMENT_ZONE_MIXED : Z := U32_MAX.
Definition IMR_LSM_ZONE_COMPACTION_NONE : Z := U32_MAX.

Definition IMR_LSM_LEVELS : Z := 7.
Definition IMR_LSM_MAX_LEVEL : Z := 6.
Definition IMR_LSM_COMPACTION_THRESHOLD : Z := 16.
Definition IMR_LSM_LEVEL_RATIO_DEFAULT : Z := 10.
Definition IMR_LSM_RECORD_BYTES : Z := 32.
Definition IMR_LSM_MAX_BYTES_FOR_LEVEL_BASE_DEFAULT : Z := 512.
Definition IMR_LSM_SCORE_SCALE : Z := 1000.
Definition IMR_LSM_SCORE_BOOST : Z := 10.
Definition IMR_LSM_READ_TREE_LIMIT : Z := 4096.
