(* ===== verification/ImrGeometry.v ===== *)
(** Zone geometry of the IMRSim target: sector, zone and append-slot addresses
    ([dm-imrsim.c], from [num_sectors_zone] to [imr_lsm_zone_append_slot]). *)

From S2P Require Import Prelude ImrPrelude.

Definition num_sectors_zone : Z := u32 (Z.shiftl (u32 (Z.shiftl 1 IMR_BLOCK_SIZE_SHIFT)) IMR_ZONE_SIZE_SHIFT).

Definition zone_idx_lba (idx : Z) : Z :=
  u64 (Z.shiftl (u64 (Z.shiftl idx IMR_BLOCK_SIZE_SHIFT)) IMR_ZONE_SIZE_SHIFT).

Definition imrsim_lba_zone_idx (lba : Z) : Z :=
  u32 (Z.shiftr (Z.shiftr lba IMR_BLOCK_SIZE_SHIFT) IMR_ZONE_SIZE_SHIFT).

(** [while(num >>= 1) ++index;] *)
Fixpoint index_loop (fuel : nat) (num index : Z) : Z :=
  match fuel with
  | O => index
  | S fuel => let num := Z.shiftr num 1 in if num =? 0 then index else index_loop fuel num (index + 1)
  end.
Definition index_power_of_2 (num : Z) : Z := index_loop 64 num 0.

Definition imr_lsm_zone_key_start (zone_idx : Z) : Z := u64 (Z.shiftl zone_idx IMR_ZONE_SIZE_SHIFT).
Definition imr_lsm_bottom_range_blocks : Z := u32 (IMR_BOTTOM_TRACK_SIZE * TOP_TRACK_NUM_TOTAL).
Definition imr_lsm_track_group_blocks : Z := u32 (IMR_TOP_TRACK_SIZE + IMR_BOTTOM_TRACK_SIZE).

Definition imr_lsm_zone_bottom_pba (zone_idx bottom_block_offset : Z) : Z :=
  let track := bottom_block_offset / IMR_BOTTOM_TRACK_SIZE in
  let block := bottom_block_offset mod IMR_BOTTOM_TRACK_SIZE in
  let zone_block := u32 (u32 (u32 (track * imr_lsm_track_group_blocks) + IMR_TOP_TRACK_SIZE) + block) in
  u64 (zone_idx_lba zone_idx + u64 (Z.shiftl zone_block IMR_BLOCK_SIZE_SHIFT)).

Definition imr_lsm_zone_top_pba (zone_idx top_block_offset : Z) : Z :=
  let track := top_block_offset / IMR_TOP_TRACK_SIZE in
  let block := top_block_offset mod IMR_TOP_TRACK_SIZE in
  let zone_block := u32 (u32 (track * imr_lsm_track_group_blocks) + block) in
  u64 (zone_idx_lba zone_idx + u64 (Z.shiftl zone_block IMR_BLOCK_SIZE_SHIFT)).

Definition imr_lsm_zone_append_pba (zone_idx slot : Z) : Z :=
  let bottom_blocks := imr_lsm_bottom_range_blocks in
  if slot <? bottom_blocks then imr_lsm_zone_bottom_pba zone_idx slot
  else imr_lsm_zone_top_pba zone_idx (u32 (slot - bottom_blocks)).

Definition imr_lsm_zone_append_slot (zone_idx pba : Z) : cres Z :=
  let group_blocks := imr_lsm_track_group_blocks in
  let bottom_blocks := imr_lsm_bottom_range_blocks in
  let zone_start := zone_idx_lba zone_idx in
  if pba <? zone_start then Fail (- ERANGE)
  else
    let zone_block := Z.shiftr (u64 (pba - zone_start)) IMR_BLOCK_SIZE_SHIFT in
    if zone_block >=? TOTAL_ITEMS then Fail (- ERANGE)
    else
      let track := u32 (zone_block / group_blocks) in
      let block := u32 (zone_block mod group_blocks) in
      if track >=? TOP_TRACK_NUM_TOTAL then Fail (- ERANGE)
      else
        let slot :=
          if block <? IMR_TOP_TRACK_SIZE
          then u32 (u32 (bottom_blocks + u32 (track * IMR_TOP_TRACK_SIZE)) + block)
          else u32 (u32 (u32 (track * IMR_BOTTOM_TRACK_SIZE) + block) - IMR_TOP_TRACK_SIZE) in
        if slot <? TOTAL_ITEMS then Ok slot else Fail (- ERANGE).

(** ** Lemmas *)

Lemma zone_idx_lba_eq z : 0 <= z < 2 ^ 32 -> zone_idx_lba z = z * 524288.
Proof.
  intros Hz. unfold zone_idx_lba, IMR_BLOCK_SIZE_SHIFT, IMR_ZONE_SIZE_SHIFT.
  rewrite !Z.shiftl_mul_pow2 by lia. change (2 ^ 3) with 8. change (2 ^ 16) with 65536.
  rewrite (u64_small (z * 8)) by lia. rewrite u64_small by lia. lia.
Qed.

Lemma lba_zone_idx_eq lba : 0 <= lba < 2 ^ 51 -> imrsim_lba_zone_idx lba = lba / 524288.
Proof.
  intros Hl. unfold imrsim_lba_zone_idx, IMR_BLOCK_SIZE_SHIFT, IMR_ZONE_SIZE_SHIFT.
  rewrite Z.shiftr_shiftr, Z.shiftr_div_pow2 by lia. change (2 ^ (3 + 16)) with 524288.
  rewrite u32_small; [done|]. split; [apply Z.div_pos; lia|apply Z.div_lt_upper_bound; lia].
Qed.

Lemma bottom_range_eq : imr_lsm_bottom_range_blocks = 36352.
Proof. reflexivity. Qed.
Lemma group_blocks_eq : imr_lsm_track_group_blocks = 1024.
Proof. reflexivity. Qed.

(** The block of a zone that append slot [slot] names. *)
Definition slot_block (slot : Z) : Z :=
  if slot <? 36352 then slot / 568 * 1024 + 456 + slot mod 568
  else (slot - 36352) / 456 * 1024 + (slot - 36352) mod 456.
Definition block_slot (block : Z) : Z :=
  if block mod 1024 <? 456 then 36352 + block / 1024 * 456 + block mod 1024
  else block / 1024 * 568 + block mod 1024 - 456.

Lemma slot_block_range slot : 0 <= slot < 65536 -> 0 <= slot_block slot < 65536.
Proof.
  intros Hs. unfold slot_block. zcase; Z.to_euclidean_division_equations; lia.
Qed.

Lemma block_slot_range block : 0 <= block < 65536 -> 0 <= block_slot block < 65536.
Proof.
  intros Hs. unfold block_slot. zcase; Z.to_euclidean_division_equations; lia.
Qed.

Lemma group_split q r : 0 <= r < 1024 -> (q * 1024 + r) / 1024 = q /\ (q * 1024 + r) mod 1024 = r.
Proof.
  intros Hr. rewrite Z.div_add_l, Z.div_small by lia. split; [lia|].
  rewrite Z.add_comm, Z.mod_add, Z.mod_small; lia.
Qed.

Lemma block_slot_block slot : 0 <= slot < 65536 -> block_slot (slot_block slot) = slot.
Proof.
  intros Hs. unfold slot_block, block_slot. destruct (slot <? 36352) eqn:E.
  - pose proof (Z.mod_pos_bound slot 568 ltac:(lia)). pose proof (Z.div_mod slot 568 ltac:(lia)).
    destruct (group_split (slot / 568) (456 + slot mod 568)) as [Hd Hm]; [lia|].
    rewrite Z.add_assoc in Hd, Hm. rewrite Hd, Hm. zcase; lia.
  - pose proof (Z.mod_pos_bound (slot - 36352) 456 ltac:(lia)).
    pose proof (Z.div_mod (slot - 36352) 456 ltac:(lia)).
    destruct (group_split ((slot - 36352) / 456) ((slot - 36352) mod 456)) as [Hd Hm]; [lia|].
    rewrite Hd, Hm. zcase; lia.
Qed.

Lemma slot_block_slot block : 0 <= block < 65536 -> slot_block (block_slot block) = block.
Proof.
  intros Hb. pose proof (Z.mod_pos_bound block 1024 ltac:(lia)). pose proof (Z.div_mod block 1024 ltac:(lia)).
  assert (0 <= block / 1024 < 64) by (split; [apply Z.div_pos; lia|apply Z.div_lt_upper_bound; lia]).
  unfold block_slot. destruct (block mod 1024 <? 456) eqn:E; unfold slot_block.
  - replace (_ <? 36352) with false by lia.
    replace (36352 + block / 1024 * 456 + block mod 1024 - 36352) with (block / 1024 * 456 + block mod 1024) by lia.
    rewrite Z.div_add_l, (Z.div_small (block mod 1024)), Z.add_comm, (Z.add_comm (block / 1024 * 456)),
      Z.mod_add, (Z.mod_small (block mod 1024)) by lia. lia.
  - replace (_ <? 36352) with true by lia.
    replace (block / 1024 * 568 + block mod 1024 - 456) with (block / 1024 * 568 + (block mod 1024 - 456)) by lia.
    rewrite Z.div_add_l, (Z.div_small (block mod 1024 - 456)), (Z.add_comm (block / 1024 * 568)),
      Z.mod_add, (Z.mod_small (block mod 1024 - 456)) by lia. lia.
Qed.

Lemma append_pba_eq z slot :
  0 <= z < 2 ^ 32 -> 0 <= slot < TOTAL_ITEMS ->
  imr_lsm_zone_append_pba z slot = z * 524288 + slot_block slot * 8.
Proof.
  change TOTAL_ITEMS with 65536. intros Hz Hs. pose proof (slot_block_range slot Hs) as Hb.
  unfold imr_lsm_zone_append_pba, imr_lsm_zone_bottom_pba, imr_lsm_zone_top_pba.
  rewrite bottom_range_eq, group_blocks_eq, zone_idx_lba_eq by done.
  unfold IMR_BOTTOM_TRACK_SIZE, IMR_TOP_TRACK_SIZE, IMR_BLOCK_SIZE_SHIFT. rewrite !Z.shiftl_mul_pow2 by lia.
  change (2 ^ 3) with 8. unfold slot_block in *. destruct (slot <? 36352) eqn:E.
  - pose proof (Z.mod_pos_bound slot 568 ltac:(lia)). assert (0 <= slot / 568) by (apply Z.div_pos; lia).
    rewrite (u32_small (slot / 568 * 1024)), (u32_small (slot / 568 * 1024 + 456)), u32_small by lia.
    rewrite (u64_small ((_ + _) * 8)), u64_small by lia. done.
  - rewrite (u32_small (slot - 36352)) by lia. pose proof (Z.mod_pos_bound (slot - 36352) 456 ltac:(lia)).
    assert (0 <= (slot - 36352) / 456) by (apply Z.div_pos; lia).
    rewrite (u32_small ((slot - 36352) / 456 * 1024)), u32_small by lia.
    rewrite (u64_small ((_ + _) * 8)), u64_small by lia. done.
Qed.

Lemma append_slot_eq z block :
  0 <= z < 2 ^ 32 -> 0 <= block < TOTAL_ITEMS ->
  imr_lsm_zone_append_slot z (z * 524288 + block * 8) = Ok (block_slot block).
Proof.
  change TOTAL_ITEMS with 65536. intros Hz Hb. pose proof (block_slot_range block Hb) as Hs.
  unfold imr_lsm_zone_append_slot.
  rewrite bottom_range_eq, group_blocks_eq, zone_idx_lba_eq by done.
  replace (_ <? _) with false by lia. rewrite u64_small by lia.
  unfold IMR_BLOCK_SIZE_SHIFT. rewrite Z.shiftr_div_pow2 by lia. change (2 ^ 3) with 8.
  replace (z * 524288 + block * 8 - z * 524288) with (block * 8) by lia. rewrite Z.div_mul by lia.
  change TOTAL_ITEMS with 65536. unfold TOP_TRACK_NUM_TOTAL, IMR_BOTTOM_TRACK_SIZE, IMR_TOP_TRACK_SIZE.
  replace (_ >=? _) with false by lia. pose proof (Z.mod_pos_bound block 1024 ltac:(lia)).
  assert (0 <= block / 1024 < 64) by (split; [apply Z.div_pos; lia|apply Z.div_lt_upper_bound; lia]).
  rewrite (u32_small (block / 1024)), (u32_small (block mod 1024)) by lia.
  replace (_ >=? _) with false by lia. unfold block_slot in *. destruct (block mod 1024 <? 456) eqn:E.
  - rewrite (u32_small (block / 1024 * 456)), (u32_small (36352 + _)), u32_small by lia.
    by replace (_ <? _) with true by lia.
  - rewrite (u32_small (block / 1024 * 568)), (u32_small (_ + block mod 1024)), u32_small by lia.
    by replace (_ <? _) with true by lia.
Qed.

Lemma append_pba_zone z slot :
  0 <= z < 2 ^ 32 -> 0 <= slot < TOTAL_ITEMS -> imrsim_lba_zone_idx (imr_lsm_zone_append_pba z slot) = z.
Proof.
  intros Hz Hs. rewrite append_pba_eq by done. pose proof (slot_block_range slot Hs).
  rewrite lba_zone_idx_eq by lia. rewrite Z.div_add_l, Z.div_small; lia.
Qed.

(** ** Theorems *)

(** The append layout is a bijection. Slot [s] of zone [z] names one aligned
    4 KiB block inside the zone, [imr_lsm_zone_append_slot] recovers the slot,
    the first 36352 slots are on bottom tracks and the others on top tracks, and
    every block of the zone is named by exactly one slot. *)
Theorem append_layout_bijection z slot :
  0 <= z < 2 ^ 32 -> 0 <= slot < TOTAL_ITEMS ->
  let pba := imr_lsm_zone_append_pba z slot in
  imr_lsm_zone_append_slot z pba = Ok slot /\ imrsim_lba_zone_idx pba = z /\
  (exists block, 0 <= block < TOTAL_ITEMS /\ pba = zone_idx_lba z + block * 8 /\
     (slot < imr_lsm_bottom_range_blocks <-> IMR_TOP_TRACK_SIZE <= block mod imr_lsm_track_group_blocks)) /\
  (forall block, 0 <= block < TOTAL_ITEMS ->
     exists s, 0 <= s < TOTAL_ITEMS /\ imr_lsm_zone_append_pba z s = zone_idx_lba z + block * 8 /\
       forall s', 0 <= s' < TOTAL_ITEMS -> imr_lsm_zone_append_pba z s' = zone_idx_lba z + block * 8 -> s' = s).
Proof.
  intros Hz Hs pba. subst pba. rewrite append_pba_zone by done. rewrite append_pba_eq, zone_idx_lba_eq by done.
  pose proof (slot_block_range slot Hs) as Hb. rewrite append_slot_eq, block_slot_block by done.
  split_and!; [done|done| |].
  - exists (slot_block slot). split_and!; [apply Hb|apply Hb|lia|].
    rewrite bottom_range_eq, group_blocks_eq. unfold IMR_TOP_TRACK_SIZE, slot_block.
    change TOTAL_ITEMS with 65536 in Hs. destruct (slot <? 36352) eqn:E.
    + pose proof (Z.mod_pos_bound slot 568 ltac:(lia)).
      destruct (group_split (slot / 568) (456 + slot mod 568)) as [_ Hm]; [lia|]. rewrite Z.add_assoc in Hm. lia.
    + pose proof (Z.mod_pos_bound (slot - 36352) 456 ltac:(lia)).
      destruct (group_split ((slot - 36352) / 456) ((slot - 36352) mod 456)) as [_ Hm]; lia.
  - intros block Hblock. exists (block_slot block). split; [by apply block_slot_range|].
    rewrite append_pba_eq, slot_block_slot by (done || by apply block_slot_range). split; [done|].
    intros s' Hs' E. rewrite append_pba_eq in E by done.
    rewrite <- (block_slot_block s' Hs'). f_equal. lia.
Qed.

Lemma append_layout_bijection_witness : imr_lsm_zone_append_slot 3 (imr_lsm_zone_append_pba 3 40000) = Ok 40000.
Proof.
  destruct (append_layout_bijection 3 40000) as [H _]; [lia|vm_compute; split; [discriminate|reflexivity]|exact H].
Defined.
