(* ===== verification/ImrBloom.v ===== *)
(** Bloom filters of the LSM segments ([dm-imrsim.c], from
    [imr_lsm_next_power_of_two_u32] to [imr_lsm_segment_build_bloom]). *)

From S2P Require Import Prelude ImrPrelude.

Definition IMR_LSM_BLOOM_MIN_BITS : Z := 256.
Definition IMR_LSM_BLOOM_MAX_BITS : Z := 16384.
Definition IMR_LSM_BLOOM_MIN_HASHES : Z := 3.
Definition IMR_LSM_BLOOM_MAX_HASHES : Z := 7.

(** [while(result < value && result <= ~0U / 2) result <<= 1;] *)
Fixpoint pow2_loop (fuel : nat) (value result : Z) : Z :=
  match fuel with
  | O => result
  | S fuel => if (result <? value) && (result <=? U32_MAX / 2) then pow2_loop fuel value (u32 (Z.shiftl result 1)) else result
  end.
Definition imr_lsm_next_power_of_two_u32 (value : Z) : Z :=
  if value <=? 1 then 1 else pow2_loop 32 value 1.

Definition imr_lsm_bloom_choose_bits (key_count bits_per_key : Z) : Z :=
  if key_count =? 0 then IMR_LSM_BLOOM_MIN_BITS
  else
    let target_bits := key_count [*] bits_per_key in
    let target_bits := if target_bits <? IMR_LSM_BLOOM_MIN_BITS then IMR_LSM_BLOOM_MIN_BITS else target_bits in
    let target_bits := if target_bits >? IMR_LSM_BLOOM_MAX_BITS then IMR_LSM_BLOOM_MAX_BITS else target_bits in
    let bits := imr_lsm_next_power_of_two_u32 (u32 target_bits) in
    let bits := if bits <? IMR_LSM_BLOOM_MIN_BITS then IMR_LSM_BLOOM_MIN_BITS else bits in
    if bits >? IMR_LSM_BLOOM_MAX_BITS then IMR_LSM_BLOOM_MAX_BITS else bits.

Definition imr_lsm_bloom_choose_hashes (bits_per_key : Z) : Z :=
  let hashes := u32 (bits_per_key * 69) / 100 in
  let hashes := if hashes <? IMR_LSM_BLOOM_MIN_HASHES then IMR_LSM_BLOOM_MIN_HASHES else hashes in
  if hashes >? IMR_LSM_BLOOM_MAX_HASHES then IMR_LSM_BLOOM_MAX_HASHES else hashes.

Definition imr_lsm_bloom_hash (key seed bloom_bits : Z) : Z :=
  let key := Z.lxor key ((seed [+] 1) [*] 11400714819323198485) in
  let key := Z.lxor key (Z.shiftr key 33) in
  let key := key [*] 18397679294719823053 in
  let key := Z.lxor key (Z.shiftr key 33) in
  let key := key [*] 14181476777654086739 in
  let key := Z.lxor key (Z.shiftr key 33) in
  u32 (Z.land key (u32 (bloom_bits - 1))).

(** [bloom_words[bit / 64] |= 1ULL << (bit % 64)]; an index out of range would be
    undefined behaviour, which [bloom_bit_range] excludes. *)
Definition set_bit (words : list Z) (bit : Z) : list Z :=
  match nthZ words (bit / 64) with
  | Some w => updZ words (bit / 64) (Z.lor w (u64 (Z.shiftl 1 (bit mod 64))))
  | None => words
  end.
Definition get_bit (words : list Z) (bit : Z) : bool :=
  match nthZ words (bit / 64) with
  | Some w => negb (Z.land w (u64 (Z.shiftl 1 (bit mod 64))) =? 0)
  | None => false
  end.

(** [for(hash_idx = i; hash_idx < i + togo; ...)] of [imr_lsm_bloom_add]. *)
Fixpoint bloom_add_loop (togo : nat) (hash_idx : Z) (bloom_words : list Z) (bloom_bits key : Z) : list Z :=
  match togo with
  | O => bloom_words
  | S togo =>
      bloom_add_loop togo (hash_idx + 1)
        (set_bit bloom_words (imr_lsm_bloom_hash key hash_idx bloom_bits)) bloom_bits key
  end.
Definition imr_lsm_bloom_add (bloom_words : list Z) (bloom_bits bloom_hashes key : Z) : list Z :=
  bloom_add_loop (Z.to_nat bloom_hashes) 0 bloom_words bloom_bits key.

(** The bloom fields of [struct imr_lsm_segment]; [bloom_bits] is null until the
    filter is built. *)
Record bloom := MkBloom {
  bloom_key_count : Z;
  bloom_bits_count : Z;
  bloom_word_count : Z;
  bloom_hash_count : Z;
  bloom_bits : option (list Z);
}.
Definition no_bloom : bloom := MkBloom 0 0 0 0 None.

Fixpoint contains_loop (togo : nat) (hash_idx : Z) (words : list Z) (bits key : Z) : bool :=
  match togo with
  | O => true
  | S togo =>
      if negb (get_bit words (imr_lsm_bloom_hash key hash_idx bits)) then false
      else contains_loop togo (hash_idx + 1) words bits key
  end.
Definition imr_lsm_bloom_may_contain (b : bloom) (key : Z) : bool :=
  match bloom_bits b with
  | None => true
  | Some words =>
      if (bloom_bits_count b =? 0) || (bloom_hash_count b =? 0) then true
      else contains_loop (Z.to_nat (bloom_hash_count b)) 0 words (bloom_bits_count b) key
  end.

(** [keys] are the keys of the segment's block table. *)
Definition imr_lsm_segment_build_bloom (keys : list Z) (configured_bits_per_key : Z) (h : heap)
  : heap * cres bloom :=
  let key_count := u32 (lenZ keys) in
  let bits := imr_lsm_bloom_choose_bits key_count configured_bits_per_key in
  let words := bits / 64 in
  let bits_per_key := if negb (key_count =? 0) then Z.max 1 (bits / key_count) else configured_bits_per_key in
  let hashes := imr_lsm_bloom_choose_hashes bits_per_key in
  if words >? U64_MAX / 8 then (h, Fail (- ENOMEM))
  else
    match kzalloc h with
    | (h, None) => (h, Fail (- ENOMEM))
    | (h, Some _) =>
        (h, Ok (MkBloom key_count bits words hashes
                  (Some (fold_left (fun ws key => imr_lsm_bloom_add ws bits hashes key) keys
                           (replicate (Z.to_nat words) 0)))))
    end.

(** ** Lemmas *)

Definition bloom_size (bits : Z) : Prop :=
  exists e, 8 <= e <= 14 /\ bits = 2 ^ e.

Lemma pow2_loop_spec fuel : forall value e,
  0 <= e -> e <= 14 -> value <= 2 ^ 14 -> 14 - e < Z.of_nat fuel ->
  exists e', e <= e' <= 14 /\ pow2_loop fuel value (2 ^ e) = 2 ^ e' /\ value <= 2 ^ e'.
Proof.
  induction fuel as [|fuel IH]; intros value e He Hle Hv Hf; [lia|]. simpl.
  assert (2 ^ e <= 2 ^ 14) as Hp by (apply Z.pow_le_mono_r; lia).
  change (U32_MAX / 2) with 2147483647. change (2 ^ 14) with 16384 in Hp.
  destruct (2 ^ e <? value) eqn:E; simpl.
  - replace (2 ^ e <=? 2147483647) with true by lia.
    assert (e < 14) as Hlt. { destruct (decide (e = 14)) as [->|]; [|lia]. change (2 ^ 14) with 16384 in *. lia. }
    assert (0 < 2 ^ e) by (apply Z.pow_pos_nonneg; lia).
    rewrite Z.shiftl_mul_pow2, u32_small by lia.
    replace (2 ^ e * 2 ^ 1) with (2 ^ (e + 1)) by (rewrite Z.pow_add_r; lia).
    destruct (IH value (e + 1)) as (e' & He' & -> & Hv'); [lia|lia|done|lia|].
    exists e'. split_and!; [lia|lia|done|done].
  - exists e. split_and!; [lia|lia|done|lia].
Qed.

Lemma choose_bits_size key_count bits_per_key :
  bloom_size (imr_lsm_bloom_choose_bits key_count bits_per_key).
Proof.
  unfold imr_lsm_bloom_choose_bits. destruct (key_count =? 0); [by exists 8|]. cbv zeta.
  match goal with |- context [u32 ?x] => set (t := x) end. assert (256 <= t <= 16384) as Ht.
  { subst t. unfold IMR_LSM_BLOOM_MAX_BITS, IMR_LSM_BLOOM_MIN_BITS. zcase; lia. }
  rewrite u32_small by lia. unfold imr_lsm_next_power_of_two_u32. replace (t <=? 1) with false by lia.
  destruct (pow2_loop_spec 32 t 0) as (e & He & E & Hv); [lia|lia|lia|lia|]. change (2 ^ 0) with 1 in E. rewrite E.
  assert (8 <= e).
  { destruct (decide (8 <= e)); [done|]. assert (2 ^ e <= 2 ^ 7) by (apply Z.pow_le_mono_r; lia).
    change (2 ^ 7) with 128 in *. lia. }
  assert (2 ^ 8 <= 2 ^ e <= 2 ^ 14) as Hr by (split; apply Z.pow_le_mono_r; lia).
  change (2 ^ 8) with 256 in Hr. change (2 ^ 14) with 16384 in Hr.
  unfold IMR_LSM_BLOOM_MAX_BITS, IMR_LSM_BLOOM_MIN_BITS.
  replace (2 ^ e <? 256) with false by lia. replace (2 ^ e >? 16384) with false by lia. exists e; split; [lia|done].
Qed.

Lemma bloom_size_bounds bits : bloom_size bits -> 256 <= bits <= 16384 /\ bits mod 64 = 0.
Proof.
  intros (e & He & ->). assert (2 ^ 8 <= 2 ^ e <= 2 ^ 14) as Hr by (split; apply Z.pow_le_mono_r; lia).
  change (2 ^ 8) with 256 in Hr. change (2 ^ 14) with 16384 in Hr. split; [done|].
  replace e with (6 + (e - 6)) by lia. rewrite Z.pow_add_r by lia. change (2 ^ 6) with 64.
  rewrite Z.mul_comm. apply Z.mod_mul. lia.
Qed.

(** Every hash is a bit of the filter. *)
Lemma bloom_bit_range key seed bits : bloom_size bits -> 0 <= imr_lsm_bloom_hash key seed bits < bits.
Proof.
  intros Hb. pose proof (bloom_size_bounds bits Hb) as [Hr _]. destruct Hb as (e & He & ->).
  unfold imr_lsm_bloom_hash. cbv zeta. set (x := Z.lxor _ (Z.shiftr _ 33)).
  rewrite (u32_small (2 ^ e - 1)) by lia.
  replace (2 ^ e - 1) with (Z.ones e) by (rewrite Z.ones_equiv; lia). rewrite Z.land_ones by lia.
  pose proof (Z.mod_pos_bound x (2 ^ e) ltac:(lia)). rewrite u32_small by lia. lia.
Qed.

Lemma get_set_bit words bit : 0 <= bit < 64 * lenZ words -> get_bit (set_bit words bit) bit = true.
Proof.
  intros Hb. assert (0 <= bit / 64 < lenZ words) as Hi.
  { split; [apply Z.div_pos; lia|apply Z.div_lt_upper_bound; lia]. }
  unfold set_bit, get_bit. destruct (nthZ words (bit / 64)) as [w|] eqn:Ew.
  2: { apply nthZ_is_Some in Hi as [? Hi]. congruence. }
  rewrite nthZ_updZ_eq by done. pose proof (Z.mod_pos_bound bit 64 ltac:(lia)) as Hm.
  assert (u64 (Z.shiftl 1 (bit mod 64)) = 2 ^ (bit mod 64)) as ->.
  { rewrite Z.shiftl_mul_pow2, Z.mul_1_l by lia. apply u64_small. split; [apply Z.pow_nonneg; lia|].
    apply Z.pow_lt_mono_r; lia. }
  apply negb_true_iff, Z.eqb_neq. intros E.
  assert (Z.testbit (Z.land (Z.lor w (2 ^ (bit mod 64))) (2 ^ (bit mod 64))) (bit mod 64) = true) as Ht.
  { rewrite Z.land_spec, Z.lor_spec, Z.pow2_bits_true by lia. by rewrite orb_true_r. }
  by rewrite E, Z.bits_0 in Ht.
Qed.

Lemma get_set_bit_mono words bit b : get_bit words b = true -> get_bit (set_bit words bit) b = true.
Proof.
  unfold set_bit. destruct (nthZ words (bit / 64)) as [w|] eqn:Ew; [|done]. unfold get_bit.
  destruct (decide (b / 64 = bit / 64)) as [E|Hne].
  - rewrite E, Ew. rewrite nthZ_updZ_eq by (by apply nthZ_Some in Ew). intros H.
    apply negb_true_iff, Z.eqb_neq in H. apply negb_true_iff, Z.eqb_neq. intros H2. apply H.
    apply Z.bits_inj'. intros n Hn. assert (Z.testbit (Z.land (Z.lor w (u64 (Z.shiftl 1 (bit mod 64))))
      (u64 (Z.shiftl 1 (b mod 64)))) n = false) as Hb by (rewrite H2; apply Z.bits_0).
    rewrite Z.land_spec, Z.lor_spec in Hb. rewrite Z.land_spec, Z.bits_0.
    destruct (Z.testbit w n), (Z.testbit (u64 (Z.shiftl 1 (b mod 64))) n); simpl in *; try done.
  - by rewrite nthZ_updZ_ne.
Qed.

Lemma lenZ_set_bit words bit : lenZ (set_bit words bit) = lenZ words.
Proof. unfold set_bit. destruct (nthZ _ _); [apply lenZ_updZ|done]. Qed.

Lemma bloom_add_loop_spec togo : forall i words bits key,
  bloom_size bits -> lenZ words * 64 = bits ->
  lenZ (bloom_add_loop togo i words bits key) = lenZ words /\
  (forall b, get_bit words b = true -> get_bit (bloom_add_loop togo i words bits key) b = true) /\
  (forall j, i <= j < i + Z.of_nat togo ->
     get_bit (bloom_add_loop togo i words bits key) (imr_lsm_bloom_hash key j bits) = true).
Proof.
  induction togo as [|togo IH]; intros i words bits key Hb Hw; simpl; [by split_and!; [..|intros; lia]|].
  destruct (IH (i + 1) (set_bit words (imr_lsm_bloom_hash key i bits)) bits key Hb) as (H1 & H2 & H3).
  { by rewrite lenZ_set_bit. }
  rewrite lenZ_set_bit in H1. split_and!; [done|intros b Hg; apply H2; by apply get_set_bit_mono|].
  intros j Hj. destruct (decide (j = i)) as [->|]; [|apply H3; lia].
  apply H2, get_set_bit. pose proof (bloom_bit_range key i bits Hb). lia.
Qed.

Lemma bloom_fill keys bits hashes : forall words,
  bloom_size bits -> lenZ words * 64 = bits -> 0 <= hashes ->
  let filled := fold_left (fun ws key => imr_lsm_bloom_add ws bits hashes key) keys words in
  (forall b, get_bit words b = true -> get_bit filled b = true) /\
  (forall key j, key ∈ keys -> 0 <= j < hashes -> get_bit filled (imr_lsm_bloom_hash key j bits) = true).
Proof.
  induction keys as [|key keys IH]; intros words Hb Hw Hh; simpl; [by split; [|intros ? ? ?%elem_of_nil]|].
  destruct (bloom_add_loop_spec (Z.to_nat hashes) 0 words bits key Hb Hw) as (H1 & H2 & H3).
  destruct (IH (imr_lsm_bloom_add words bits hashes key)) as [H4 H5]; [done|by unfold imr_lsm_bloom_add; rewrite H1|done|].
  split; [intros b Hg; by apply H4, H2|]. intros key' j Hin Hj.
  apply elem_of_cons in Hin as [->|Hin]; [|by apply H5]. apply H4, H3. lia.
Qed.

Lemma contains_loop_true togo : forall i words bits key,
  (forall j, i <= j < i + Z.of_nat togo -> get_bit words (imr_lsm_bloom_hash key j bits) = true) ->
  contains_loop togo i words bits key = true.
Proof.
  induction togo as [|togo IH]; intros i words bits key H; simpl; [done|].
  rewrite (H i) by lia. simpl. apply IH. intros j Hj. apply H. lia.
Qed.

Lemma choose_hashes_range b : 3 <= imr_lsm_bloom_choose_hashes b <= 7.
Proof.
  unfold imr_lsm_bloom_choose_hashes, IMR_LSM_BLOOM_MIN_HASHES, IMR_LSM_BLOOM_MAX_HASHES. cbv zeta. zcase; lia.
Qed.

(** The filter of a key list admits every key of it. *)
Definition admits_keys (keys : list Z) (b : bloom) : Prop :=
  forall key, key ∈ keys -> imr_lsm_bloom_may_contain b key = true.

Lemma build_bloom_spec keys bpk h :
  exists h' r, imr_lsm_segment_build_bloom keys bpk h = (h', r) /\
    (r = Fail (- ENOMEM) \/
     exists b, r = Ok b /\ admits_keys keys b /\ bloom_key_count b = u32 (lenZ keys) /\
       bloom_size (bloom_bits_count b) /\ bloom_word_count b = bloom_bits_count b / 64 /\
       3 <= bloom_hash_count b <= 7).
Proof.
  unfold imr_lsm_segment_build_bloom. cbv zeta.
  set (bits := imr_lsm_bloom_choose_bits _ _). set (hashes := imr_lsm_bloom_choose_hashes _).
  assert (bloom_size bits) as Hb by apply choose_bits_size. pose proof (bloom_size_bounds bits Hb) as [Hr Hm].
  pose proof (choose_hashes_range (if negb (u32 (lenZ keys) =? 0) then Z.max 1 (bits / u32 (lenZ keys)) else bpk)) as Hh.
  fold hashes in Hh. change (U64_MAX / 8) with 2305843009213693951.
  assert (bits / 64 * 64 = bits) as Hd by (rewrite (Z.div_mod bits 64) at 2 by lia; lia).
  replace (_ >? _) with false by lia.
  destruct (kzalloc h) as [h' [a|]]; [|eexists _, _; split; [done|by left]].
  eexists _, _. split; [done|]. right. eexists. split; [done|]. simpl.
  split_and!; try done; try lia. intros key Hin. unfold imr_lsm_bloom_may_contain. simpl.
  replace (bits =? 0) with false by lia. replace (hashes =? 0) with false by lia. simpl.
  apply contains_loop_true. intros j Hj.
  apply (bloom_fill keys bits hashes (replicate (Z.to_nat (bits / 64)) 0)); [done| |lia|done|lia].
  unfold lenZ. rewrite length_replicate. lia.
Qed.

(** ** Theorems *)

(** C27: Bloom filters have no false negatives. Building the filter of a block
    table either fails for lack of memory or gives a filter, of a power-of-two
    size between 256 and 16384 bits with 3 to 7 hashes, that answers "may
    contain" for every key of the table. *)
Theorem bloom_no_false_negative keys bits_per_key h :
  exists h' r, imr_lsm_segment_build_bloom keys bits_per_key h = (h', r) /\
    (r = Fail (- ENOMEM) \/
     exists b, r = Ok b /\ (forall key, key ∈ keys -> imr_lsm_bloom_may_contain b key = true) /\
       (exists e, 8 <= e <= 14 /\ bloom_bits_count b = 2 ^ e) /\ 3 <= bloom_hash_count b <= 7).
Proof.
  destruct (build_bloom_spec keys bits_per_key h) as (h' & r & E & [Hf|(b & Hr & Ha & _ & Hs & _ & Hh)]).
  - exists h', r. split; [done|by left].
  - exists h', r. split; [done|]. right. by exists b.
Qed.
