(* ===== verification/ImrState.v ===== *)
(** State of the IMRSim kernel target ([dm-imrsim.c], [imrsim_types.h]): the
    in-memory LSM metadata ([imr_lsm_meta]) with its nodes, segments, read tree
    and newest-key index, the zone table, and the globals the code reads.

    Lists of C nodes are lists of records; a node carries its address so that
    pointer comparisons can be written. Published segments are never freed or
    reordered while the metadata lives, so a pointer to a segment is its index in
    the segment list and a pointer to a table entry is a pair of indices. Flags
    of type [__u8] that only hold 0 or 1 are booleans. The pure diagnostics
    ([imrsim_diag], [printk]) are left out: nothing reads them back. *)

From S2P Require Import Prelude StdMap ImrPrelude ImrBloom.

(** ** Metadata *)

(** [struct imr_lsm_unsorted_node] and [struct imr_lsm_sorted_node], which have
    the same fields; [n_addr] is the node's address. *)
Record lsm_node := MkNode {
  n_addr : Z;
  n_key : Z;
  n_pba : Z;
  n_zone_idx : Z;
  n_valid : bool;
  n_timestamp : Z;
}.

Record level_state := MkLevel {
  unsorted_head : list lsm_node;
  sorted_head : list lsm_node;
  unsorted_count : Z;
  sorted_count : Z;
}.
Definition set_unsorted_head v (l : level_state) : level_state :=
  MkLevel v (sorted_head l) (unsorted_count l) (sorted_count l).
Definition set_sorted_head v (l : level_state) : level_state :=
  MkLevel (unsorted_head l) v (unsorted_count l) (sorted_count l).
Definition set_unsorted_count v (l : level_state) : level_state :=
  MkLevel (unsorted_head l) (sorted_head l) v (sorted_count l).
Definition set_sorted_count v (l : level_state) : level_state :=
  MkLevel (unsorted_head l) (sorted_head l) (unsorted_count l) v.

Record read_node := MkReadNode {
  rn_pba : Z;
  rn_valid : bool;
  rn_timestamp : Z;
}.

(** [nn_live] is the list that [live_segment_head] and the [newest_next] links
    form: (segment index, entry index). *)
Record newest_node := MkNewest {
  nn_timestamp : Z;
  nn_valid : bool;
  nn_live : list (nat * nat);
}.
Definition set_nn_timestamp v (n : newest_node) : newest_node :=
  MkNewest v (nn_valid n) (nn_live n).
Definition set_nn_valid v (n : newest_node) : newest_node :=
  MkNewest (nn_timestamp n) v (nn_live n).
Definition set_nn_live v (n : newest_node) : newest_node :=
  MkNewest (nn_timestamp n) (nn_valid n) v.

(** [be_acct] is [accounting_segment != NULL]: the pointer is only ever null or
    the segment the entry belongs to. *)
Record block_entry := MkEntry {
  be_key : Z;
  be_pba : Z;
  be_zone_idx : Z;
  be_source_pba : Z;
  be_output_pba : Z;
  be_source_pba_valid : bool;
  be_output_mapped : bool;
  be_output_copy_planned : bool;
  be_output_copied : bool;
  be_output_committed : bool;
  be_valid : bool;
  be_timestamp : Z;
  be_acct : bool;
  be_newest_linked : bool;
  be_acct_invalid : bool;
  be_acct_obsolete : bool;
  be_acct_delete_invalid : bool;
}.
Definition set_be_pba v (e : block_entry) : block_entry :=
  MkEntry (be_key e) v (be_zone_idx e) (be_source_pba e) (be_output_pba e) (be_source_pba_valid e) (be_output_mapped
    e) (be_output_copy_planned e) (be_output_copied e) (be_output_committed e) (be_valid e) (be_timestamp e) (be_acct
    e) (be_newest_linked e) (be_acct_invalid e) (be_acct_obsolete e) (be_acct_delete_invalid e).
Definition set_be_source_pba v (e : block_entry) : block_entry :=
  MkEntry (be_key e) (be_pba e) (be_zone_idx e) v (be_output_pba e) (be_source_pba_valid e) (be_output_mapped e)
    (be_output_copy_planned e) (be_output_copied e) (be_output_committed e) (be_valid e) (be_timestamp e) (be_acct e)
    (be_newest_linked e) (be_acct_invalid e) (be_acct_obsolete e) (be_acct_delete_invalid e).
Definition set_be_output_pba v (e : block_entry) : block_entry :=
  MkEntry (be_key e) (be_pba e) (be_zone_idx e) (be_source_pba e) v (be_source_pba_valid e) (be_output_mapped e)
    (be_output_copy_planned e) (be_output_copied e) (be_output_committed e) (be_valid e) (be_timestamp e) (be_acct e)
    (be_newest_linked e) (be_acct_invalid e) (be_acct_obsolete e) (be_acct_delete_invalid e).
Definition set_be_source_pba_valid v (e : block_entry) : block_entry :=
  MkEntry (be_key e) (be_pba e) (be_zone_idx e) (be_source_pba e) (be_output_pba e) v (be_output_mapped e)
    (be_output_copy_planned e) (be_output_copied e) (be_output_committed e) (be_valid e) (be_timestamp e) (be_acct e)
    (be_newest_linked e) (be_acct_invalid e) (be_acct_obsolete e) (be_acct_delete_invalid e).
Definition set_be_output_mapped v (e : block_entry) : block_entry :=
  MkEntry (be_key e) (be_pba e) (be_zone_idx e) (be_source_pba e) (be_output_pba e) (be_source_pba_valid e) v
    (be_output_copy_planned e) (be_output_copied e) (be_output_committed e) (be_valid e) (be_timestamp e) (be_acct e)
    (be_newest_linked e) (be_acct_invalid e) (be_acct_obsolete e) (be_acct_delete_invalid e).
Definition set_be_output_copy_planned v (e : block_entry) : block_entry :=
  MkEntry (be_key e) (be_pba e) (be_zone_idx e) (be_source_pba e) (be_output_pba e) (be_source_pba_valid e)
    (be_output_mapped e) v (be_output_copied e) (be_output_committed e) (be_valid e) (be_timestamp e) (be_acct e)
    (be_newest_linked e) (be_acct_invalid e) (be_acct_obsolete e) (be_acct_delete_invalid e).
Definition set_be_output_copied v (e : block_entry) : block_entry :=
  MkEntry (be_key e) (be_pba e) (be_zone_idx e) (be_source_pba e) (be_output_pba e) (be_source_pba_valid e)
    (be_output_mapped e) (be_output_copy_planned e) v (be_output_committed e) (be_valid e) (be_timestamp e) (be_acct
    e) (be_newest_linked e) (be_acct_invalid e) (be_acct_obsolete e) (be_acct_delete_invalid e).
Definition set_be_output_committed v (e : block_entry) : block_entry :=
  MkEntry (be_key e) (be_pba e) (be_zone_idx e) (be_source_pba e) (be_output_pba e) (be_source_pba_valid e)
    (be_output_mapped e) (be_output_copy_planned e) (be_output_copied e) v (be_valid e) (be_timestamp e) (be_acct e)
    (be_newest_linked e) (be_acct_invalid e) (be_acct_obsolete e) (be_acct_delete_invalid e).
Definition set_be_acct v (e : block_entry) : block_entry :=
  MkEntry (be_key e) (be_pba e) (be_zone_idx e) (be_source_pba e) (be_output_pba e) (be_source_pba_valid e)
    (be_output_mapped e) (be_output_copy_planned e) (be_output_copied e) (be_output_committed e) (be_valid e)
    (be_timestamp e) v (be_newest_linked e) (be_acct_invalid e) (be_acct_obsolete e) (be_acct_delete_invalid e).
Definition set_be_newest_linked v (e : block_entry) : block_entry :=
  MkEntry (be_key e) (be_pba e) (be_zone_idx e) (be_source_pba e) (be_output_pba e) (be_source_pba_valid e)
    (be_output_mapped e) (be_output_copy_planned e) (be_output_copied e) (be_output_committed e) (be_valid e)
    (be_timestamp e) (be_acct e) v (be_acct_invalid e) (be_acct_obsolete e) (be_acct_delete_invalid e).
Definition set_be_acct_invalid v (e : block_entry) : block_entry :=
  MkEntry (be_key e) (be_pba e) (be_zone_idx e) (be_source_pba e) (be_output_pba e) (be_source_pba_valid e)
    (be_output_mapped e) (be_output_copy_planned e) (be_output_copied e) (be_output_committed e) (be_valid e)
    (be_timestamp e) (be_acct e) (be_newest_linked e) v (be_acct_obsolete e) (be_acct_delete_invalid e).
Definition set_be_acct_obsolete v (e : block_entry) : block_entry :=
  MkEntry (be_key e) (be_pba e) (be_zone_idx e) (be_source_pba e) (be_output_pba e) (be_source_pba_valid e)
    (be_output_mapped e) (be_output_copy_planned e) (be_output_copied e) (be_output_committed e) (be_valid e)
    (be_timestamp e) (be_acct e) (be_newest_linked e) (be_acct_invalid e) v (be_acct_delete_invalid e).
Definition set_be_acct_delete_invalid v (e : block_entry) : block_entry :=
  MkEntry (be_key e) (be_pba e) (be_zone_idx e) (be_source_pba e) (be_output_pba e) (be_source_pba_valid e)
    (be_output_mapped e) (be_output_copy_planned e) (be_output_copied e) (be_output_committed e) (be_valid e)
    (be_timestamp e) (be_acct e) (be_newest_linked e) (be_acct_invalid e) (be_acct_obsolete e) v.

(** The placement and output fields of a segment. *)
Record placement := MkPlacement {
  placement_policy : Z;
  placement_target_track_type : Z;
  placement_bottom_track_start : Z;
  placement_bottom_track_end : Z;
  placement_bottom_key_start : Z;
  placement_bottom_key_end : Z;
  placement_top_track_start : Z;
  placement_top_track_end : Z;
  placement_top_pba_start : Z;
  placement_top_pba_end : Z;
}.
Definition set_placement_policy v (p : placement) : placement :=
  MkPlacement v (placement_target_track_type p) (placement_bottom_track_start p) (placement_bottom_track_end p)
    (placement_bottom_key_start p) (placement_bottom_key_end p) (placement_top_track_start p) (placement_top_track_end
    p) (placement_top_pba_start p) (placement_top_pba_end p).
Definition set_placement_target_track_type v (p : placement) : placement :=
  MkPlacement (placement_policy p) v (placement_bottom_track_start p) (placement_bottom_track_end p)
    (placement_bottom_key_start p) (placement_bottom_key_end p) (placement_top_track_start p) (placement_top_track_end
    p) (placement_top_pba_start p) (placement_top_pba_end p).
Record seg_output := MkOutput {
  output_allocated : bool;
  output_track_type : Z;
  output_block_count : Z;
  output_pba_start : Z;
  output_pba_end : Z;
}.
Definition no_placement : placement := MkPlacement 0 0 0 0 0 0 0 0 0 0.
Definition no_output : seg_output := MkOutput false 0 0 0 0.

(** The accounting counters of a segment. *)
Record seg_acct := MkAcct {
  live_count : Z;
  invalid_count : Z;
  obsolete_count : Z;
  tombstone_count : Z;
  delete_invalid_count : Z;
  obsolete_ratio_permille : Z;
}.
Definition set_live_count v (a : seg_acct) : seg_acct :=
  MkAcct v (invalid_count a) (obsolete_count a) (tombstone_count a) (delete_invalid_count a) (obsolete_ratio_permille
    a).
Definition set_invalid_count v (a : seg_acct) : seg_acct :=
  MkAcct (live_count a) v (obsolete_count a) (tombstone_count a) (delete_invalid_count a) (obsolete_ratio_permille a).
Definition set_obsolete_count v (a : seg_acct) : seg_acct :=
  MkAcct (live_count a) (invalid_count a) v (tombstone_count a) (delete_invalid_count a) (obsolete_ratio_permille a).
Definition set_tombstone_count v (a : seg_acct) : seg_acct :=
  MkAcct (live_count a) (invalid_count a) (obsolete_count a) v (delete_invalid_count a) (obsolete_ratio_permille a).
Definition set_delete_invalid_count v (a : seg_acct) : seg_acct :=
  MkAcct (live_count a) (invalid_count a) (obsolete_count a) (tombstone_count a) v (obsolete_ratio_permille a).
Definition set_obsolete_ratio_permille v (a : seg_acct) : seg_acct :=
  MkAcct (live_count a) (invalid_count a) (obsolete_count a) (tombstone_count a) (delete_invalid_count a) v.
Definition zero_acct : seg_acct := MkAcct 0 0 0 0 0 0.

(** [struct imr_lsm_segment]; [block_table_count] is the length of the table. *)
Record segment := MkSegment {
  sg_id : Z;
  sg_level : Z;
  sg_zone_idx : Z;
  sg_track_type : Z;
  sg_retired : bool;
  sg_accounted : bool;
  sg_node_count : Z;
  sg_min_key : Z;
  sg_max_key : Z;
  sg_min_timestamp : Z;
  sg_max_timestamp : Z;
  sg_bloom : bloom;
  sg_table : list block_entry;
  sg_acct : seg_acct;
  sg_candidate : bool;
  sg_score : Z;
  sg_read_hit_count : Z;
  sg_last_read_timestamp : Z;
  sg_placement : placement;
  sg_output : seg_output;
}.
Definition set_sg_id v (g : segment) : segment :=
  MkSegment v (sg_level g) (sg_zone_idx g) (sg_track_type g) (sg_retired g) (sg_accounted g) (sg_node_count g)
    (sg_min_key g) (sg_max_key g) (sg_min_timestamp g) (sg_max_timestamp g) (sg_bloom g) (sg_table g) (sg_acct g)
    (sg_candidate g) (sg_score g) (sg_read_hit_count g) (sg_last_read_timestamp g) (sg_placement g) (sg_output g).
Definition set_sg_retired v (g : segment) : segment :=
  MkSegment (sg_id g) (sg_level g) (sg_zone_idx g) (sg_track_type g) v (sg_accounted g) (sg_node_count g) (sg_min_key
    g) (sg_max_key g) (sg_min_timestamp g) (sg_max_timestamp g) (sg_bloom g) (sg_table g) (sg_acct g) (sg_candidate g)
    (sg_score g) (sg_read_hit_count g) (sg_last_read_timestamp g) (sg_placement g) (sg_output g).
Definition set_sg_accounted v (g : segment) : segment :=
  MkSegment (sg_id g) (sg_level g) (sg_zone_idx g) (sg_track_type g) (sg_retired g) v (sg_node_count g) (sg_min_key g)
    (sg_max_key g) (sg_min_timestamp g) (sg_max_timestamp g) (sg_bloom g) (sg_table g) (sg_acct g) (sg_candidate g)
    (sg_score g) (sg_read_hit_count g) (sg_last_read_timestamp g) (sg_placement g) (sg_output g).
Definition set_sg_table v (g : segment) : segment :=
  MkSegment (sg_id g) (sg_level g) (sg_zone_idx g) (sg_track_type g) (sg_retired g) (sg_accounted g) (sg_node_count g)
    (sg_min_key g) (sg_max_key g) (sg_min_timestamp g) (sg_max_timestamp g) (sg_bloom g) v (sg_acct g) (sg_candidate
    g) (sg_score g) (sg_read_hit_count g) (sg_last_read_timestamp g) (sg_placement g) (sg_output g).
Definition set_sg_acct v (g : segment) : segment :=
  MkSegment (sg_id g) (sg_level g) (sg_zone_idx g) (sg_track_type g) (sg_retired g) (sg_accounted g) (sg_node_count g)
    (sg_min_key g) (sg_max_key g) (sg_min_timestamp g) (sg_max_timestamp g) (sg_bloom g) (sg_table g) v (sg_candidate
    g) (sg_score g) (sg_read_hit_count g) (sg_last_read_timestamp g) (sg_placement g) (sg_output g).
Definition set_sg_candidate v (g : segment) : segment :=
  MkSegment (sg_id g) (sg_level g) (sg_zone_idx g) (sg_track_type g) (sg_retired g) (sg_accounted g) (sg_node_count g)
    (sg_min_key g) (sg_max_key g) (sg_min_timestamp g) (sg_max_timestamp g) (sg_bloom g) (sg_table g) (sg_acct g) v
    (sg_score g) (sg_read_hit_count g) (sg_last_read_timestamp g) (sg_placement g) (sg_output g).
Definition set_sg_score v (g : segment) : segment :=
  MkSegment (sg_id g) (sg_level g) (sg_zone_idx g) (sg_track_type g) (sg_retired g) (sg_accounted g) (sg_node_count g)
    (sg_min_key g) (sg_max_key g) (sg_min_timestamp g) (sg_max_timestamp g) (sg_bloom g) (sg_table g) (sg_acct g)
    (sg_candidate g) v (sg_read_hit_count g) (sg_last_read_timestamp g) (sg_placement g) (sg_output g).
Definition set_sg_read_hit_count v (g : segment) : segment :=
  MkSegment (sg_id g) (sg_level g) (sg_zone_idx g) (sg_track_type g) (sg_retired g) (sg_accounted g) (sg_node_count g)
    (sg_min_key g) (sg_max_key g) (sg_min_timestamp g) (sg_max_timestamp g) (sg_bloom g) (sg_table g) (sg_acct g)
    (sg_candidate g) (sg_score g) v (sg_last_read_timestamp g) (sg_placement g) (sg_output g).
Definition set_sg_last_read_timestamp v (g : segment) : segment :=
  MkSegment (sg_id g) (sg_level g) (sg_zone_idx g) (sg_track_type g) (sg_retired g) (sg_accounted g) (sg_node_count g)
    (sg_min_key g) (sg_max_key g) (sg_min_timestamp g) (sg_max_timestamp g) (sg_bloom g) (sg_table g) (sg_acct g)
    (sg_candidate g) (sg_score g) (sg_read_hit_count g) v (sg_placement g) (sg_output g).
Definition set_sg_placement v (g : segment) : segment :=
  MkSegment (sg_id g) (sg_level g) (sg_zone_idx g) (sg_track_type g) (sg_retired g) (sg_accounted g) (sg_node_count g)
    (sg_min_key g) (sg_max_key g) (sg_min_timestamp g) (sg_max_timestamp g) (sg_bloom g) (sg_table g) (sg_acct g)
    (sg_candidate g) (sg_score g) (sg_read_hit_count g) (sg_last_read_timestamp g) v (sg_output g).
Definition set_sg_output v (g : segment) : segment :=
  MkSegment (sg_id g) (sg_level g) (sg_zone_idx g) (sg_track_type g) (sg_retired g) (sg_accounted g) (sg_node_count g)
    (sg_min_key g) (sg_max_key g) (sg_min_timestamp g) (sg_max_timestamp g) (sg_bloom g) (sg_table g) (sg_acct g)
    (sg_candidate g) (sg_score g) (sg_read_hit_count g) (sg_last_read_timestamp g) (sg_placement g) v.
Definition block_table_count (g : segment) : Z := lenZ (sg_table g).

(** [struct imr_lsm_metadata]; [segment_count] is kept beside the list. *)
Record metadata := MkMeta {
  initialized : bool;
  zone_compaction_auto_run : bool;
  zone_compaction_auto_running : bool;
  zone_compaction_auto_pending : bool;
  level_compaction_pending : bool;
  level_compaction_running : bool;
  zone_compaction_auto_pending_zone : Z;
  timestamp : Z;
  active_write_level : Z;
  base_level : Z;
  effective_level_multiplier : Z;
  lowest_unnecessary_level : Z;
  level_max_bytes : list Z;
  next_segment_id : Z;
  segment_count : Z;
  segments : list segment;
  read_tree : stdmap Z read_node;
  read_lru : list Z;
  read_tree_limit : Z;
  read_tree_size : Z;
  newest_tree : stdmap Z newest_node;
  newest_tree_size : Z;
  newest_index_valid : bool;
  stats : counters;
  levels : list level_state;
}.
Definition set_initialized v (m : metadata) : metadata :=
  MkMeta v (zone_compaction_auto_run m) (zone_compaction_auto_running m) (zone_compaction_auto_pending m)
    (level_compaction_pending m) (level_compaction_running m) (zone_compaction_auto_pending_zone m) (timestamp m)
    (active_write_level m) (base_level m) (effective_level_multiplier m) (lowest_unnecessary_level m) (level_max_bytes
    m) (next_segment_id m) (segment_count m) (segments m) (read_tree m) (read_lru m) (read_tree_limit m)
    (read_tree_size m) (newest_tree m) (newest_tree_size m) (newest_index_valid m) (stats m) (levels m).
Definition set_zone_compaction_auto_run v (m : metadata) : metadata :=
  MkMeta (initialized m) v (zone_compaction_auto_running m) (zone_compaction_auto_pending m) (level_compaction_pending
    m) (level_compaction_running m) (zone_compaction_auto_pending_zone m) (timestamp m) (active_write_level m)
    (base_level m) (effective_level_multiplier m) (lowest_unnecessary_level m) (level_max_bytes m) (next_segment_id m)
    (segment_count m) (segments m) (read_tree m) (read_lru m) (read_tree_limit m) (read_tree_size m) (newest_tree m)
    (newest_tree_size m) (newest_index_valid m) (stats m) (levels m).
Definition set_zone_compaction_auto_running v (m : metadata) : metadata :=
  MkMeta (initialized m) (zone_compaction_auto_run m) v (zone_compaction_auto_pending m) (level_compaction_pending m)
    (level_compaction_running m) (zone_compaction_auto_pending_zone m) (timestamp m) (active_write_level m)
    (base_level m) (effective_level_multiplier m) (lowest_unnecessary_level m) (level_max_bytes m) (next_segment_id m)
    (segment_count m) (segments m) (read_tree m) (read_lru m) (read_tree_limit m) (read_tree_size m) (newest_tree m)
    (newest_tree_size m) (newest_index_valid m) (stats m) (levels m).
Definition set_zone_compaction_auto_pending v (m : metadata) : metadata :=
  MkMeta (initialized m) (zone_compaction_auto_run m) (zone_compaction_auto_running m) v (level_compaction_pending m)
    (level_compaction_running m) (zone_compaction_auto_pending_zone m) (timestamp m) (active_write_level m)
    (base_level m) (effective_level_multiplier m) (lowest_unnecessary_level m) (level_max_bytes m) (next_segment_id m)
    (segment_count m) (segments m) (read_tree m) (read_lru m) (read_tree_limit m) (read_tree_size m) (newest_tree m)
    (newest_tree_size m) (newest_index_valid m) (stats m) (levels m).
Definition set_level_compaction_pending v (m : metadata) : metadata :=
  MkMeta (initialized m) (zone_compaction_auto_run m) (zone_compaction_auto_running m) (zone_compaction_auto_pending
    m) v (level_compaction_running m) (zone_compaction_auto_pending_zone m) (timestamp m) (active_write_level m)
    (base_level m) (effective_level_multiplier m) (lowest_unnecessary_level m) (level_max_bytes m) (next_segment_id m)
    (segment_count m) (segments m) (read_tree m) (read_lru m) (read_tree_limit m) (read_tree_size m) (newest_tree m)
    (newest_tree_size m) (newest_index_valid m) (stats m) (levels m).
Definition set_level_compaction_running v (m : metadata) : metadata :=
  MkMeta (initialized m) (zone_compaction_auto_run m) (zone_compaction_auto_running m) (zone_compaction_auto_pending
    m) (level_compaction_pending m) v (zone_compaction_auto_pending_zone m) (timestamp m) (active_write_level m)
    (base_level m) (effective_level_multiplier m) (lowest_unnecessary_level m) (level_max_bytes m) (next_segment_id m)
    (segment_count m) (segments m) (read_tree m) (read_lru m) (read_tree_limit m) (read_tree_size m) (newest_tree m)
    (newest_tree_size m) (newest_index_valid m) (stats m) (levels m).
Definition set_zone_compaction_auto_pending_zone v (m : metadata) : metadata :=
  MkMeta (initialized m) (zone_compaction_auto_run m) (zone_compaction_auto_running m) (zone_compaction_auto_pending
    m) (level_compaction_pending m) (level_compaction_running m) v (timestamp m) (active_write_level m) (base_level m)
    (effective_level_multiplier m) (lowest_unnecessary_level m) (level_max_bytes m) (next_segment_id m) (segment_count
    m) (segments m) (read_tree m) (read_lru m) (read_tree_limit m) (read_tree_size m) (newest_tree m)
    (newest_tree_size m) (newest_index_valid m) (stats m) (levels m).
Definition set_timestamp v (m : metadata) : metadata :=
  MkMeta (initialized m) (zone_compaction_auto_run m) (zone_compaction_auto_running m) (zone_compaction_auto_pending
    m) (level_compaction_pending m) (level_compaction_running m) (zone_compaction_auto_pending_zone m) v
    (active_write_level m) (base_level m) (effective_level_multiplier m) (lowest_unnecessary_level m) (level_max_bytes
    m) (next_segment_id m) (segment_count m) (segments m) (read_tree m) (read_lru m) (read_tree_limit m)
    (read_tree_size m) (newest_tree m) (newest_tree_size m) (newest_index_valid m) (stats m) (levels m).
Definition set_active_write_level v (m : metadata) : metadata :=
  MkMeta (initialized m) (zone_compaction_auto_run m) (zone_compaction_auto_running m) (zone_compaction_auto_pending
    m) (level_compaction_pending m) (level_compaction_running m) (zone_compaction_auto_pending_zone m) (timestamp m) v
    (base_level m) (effective_level_multiplier m) (lowest_unnecessary_level m) (level_max_bytes m) (next_segment_id m)
    (segment_count m) (segments m) (read_tree m) (read_lru m) (read_tree_limit m) (read_tree_size m) (newest_tree m)
    (newest_tree_size m) (newest_index_valid m) (stats m) (levels m).
Definition set_base_level v (m : metadata) : metadata :=
  MkMeta (initialized m) (zone_compaction_auto_run m) (zone_compaction_auto_running m) (zone_compaction_auto_pending
    m) (level_compaction_pending m) (level_compaction_running m) (zone_compaction_auto_pending_zone m) (timestamp m)
    (active_write_level m) v (effective_level_multiplier m) (lowest_unnecessary_level m) (level_max_bytes m)
    (next_segment_id m) (segment_count m) (segments m) (read_tree m) (read_lru m) (read_tree_limit m) (read_tree_size
    m) (newest_tree m) (newest_tree_size m) (newest_index_valid m) (stats m) (levels m).
Definition set_effective_level_multiplier v (m : metadata) : metadata :=
  MkMeta (initialized m) (zone_compaction_auto_run m) (zone_compaction_auto_running m) (zone_compaction_auto_pending
    m) (level_compaction_pending m) (level_compaction_running m) (zone_compaction_auto_pending_zone m) (timestamp m)
    (active_write_level m) (base_level m) v (lowest_unnecessary_level m) (level_max_bytes m) (next_segment_id m)
    (segment_count m) (segments m) (read_tree m) (read_lru m) (read_tree_limit m) (read_tree_size m) (newest_tree m)
    (newest_tree_size m) (newest_index_valid m) (stats m) (levels m).
Definition set_lowest_unnecessary_level v (m : metadata) : metadata :=
  MkMeta (initialized m) (zone_compaction_auto_run m) (zone_compaction_auto_running m) (zone_compaction_auto_pending
    m) (level_compaction_pending m) (level_compaction_running m) (zone_compaction_auto_pending_zone m) (timestamp m)
    (active_write_level m) (base_level m) (effective_level_multiplier m) v (level_max_bytes m) (next_segment_id m)
    (segment_count m) (segments m) (read_tree m) (read_lru m) (read_tree_limit m) (read_tree_size m) (newest_tree m)
    (newest_tree_size m) (newest_index_valid m) (stats m) (levels m).
Definition set_level_max_bytes v (m : metadata) : metadata :=
  MkMeta (initialized m) (zone_compaction_auto_run m) (zone_compaction_auto_running m) (zone_compaction_auto_pending
    m) (level_compaction_pending m) (level_compaction_running m) (zone_compaction_auto_pending_zone m) (timestamp m)
    (active_write_level m) (base_level m) (effective_level_multiplier m) (lowest_unnecessary_level m) v
    (next_segment_id m) (segment_count m) (segments m) (read_tree m) (read_lru m) (read_tree_limit m) (read_tree_size
    m) (newest_tree m) (newest_tree_size m) (newest_index_valid m) (stats m) (levels m).
Definition set_next_segment_id v (m : metadata) : metadata :=
  MkMeta (initialized m) (zone_compaction_auto_run m) (zone_compaction_auto_running m) (zone_compaction_auto_pending
    m) (level_compaction_pending m) (level_compaction_running m) (zone_compaction_auto_pending_zone m) (timestamp m)
    (active_write_level m) (base_level m) (effective_level_multiplier m) (lowest_unnecessary_level m) (level_max_bytes
    m) v (segment_count m) (segments m) (read_tree m) (read_lru m) (read_tree_limit m) (read_tree_size m) (newest_tree
    m) (newest_tree_size m) (newest_index_valid m) (stats m) (levels m).
Definition set_segment_count v (m : metadata) : metadata :=
  MkMeta (initialized m) (zone_compaction_auto_run m) (zone_compaction_auto_running m) (zone_compaction_auto_pending
    m) (level_compaction_pending m) (level_compaction_running m) (zone_compaction_auto_pending_zone m) (timestamp m)
    (active_write_level m) (base_level m) (effective_level_multiplier m) (lowest_unnecessary_level m) (level_max_bytes
    m) (next_segment_id m) v (segments m) (read_tree m) (read_lru m) (read_tree_limit m) (read_tree_size m)
    (newest_tree m) (newest_tree_size m) (newest_index_valid m) (stats m) (levels m).
Definition set_segments v (m : metadata) : metadata :=
  MkMeta (initialized m) (zone_compaction_auto_run m) (zone_compaction_auto_running m) (zone_compaction_auto_pending
    m) (level_compaction_pending m) (level_compaction_running m) (zone_compaction_auto_pending_zone m) (timestamp m)
    (active_write_level m) (base_level m) (effective_level_multiplier m) (lowest_unnecessary_level m) (level_max_bytes
    m) (next_segment_id m) (segment_count m) v (read_tree m) (read_lru m) (read_tree_limit m) (read_tree_size m)
    (newest_tree m) (newest_tree_size m) (newest_index_valid m) (stats m) (levels m).
Definition set_read_tree v (m : metadata) : metadata :=
  MkMeta (initialized m) (zone_compaction_auto_run m) (zone_compaction_auto_running m) (zone_compaction_auto_pending
    m) (level_compaction_pending m) (level_compaction_running m) (zone_compaction_auto_pending_zone m) (timestamp m)
    (active_write_level m) (base_level m) (effective_level_multiplier m) (lowest_unnecessary_level m) (level_max_bytes
    m) (next_segment_id m) (segment_count m) (segments m) v (read_lru m) (read_tree_limit m) (read_tree_size m)
    (newest_tree m) (newest_tree_size m) (newest_index_valid m) (stats m) (levels m).
Definition set_read_lru v (m : metadata) : metadata :=
  MkMeta (initialized m) (zone_compaction_auto_run m) (zone_compaction_auto_running m) (zone_compaction_auto_pending
    m) (level_compaction_pending m) (level_compaction_running m) (zone_compaction_auto_pending_zone m) (timestamp m)
    (active_write_level m) (base_level m) (effective_level_multiplier m) (lowest_unnecessary_level m) (level_max_bytes
    m) (next_segment_id m) (segment_count m) (segments m) (read_tree m) v (read_tree_limit m) (read_tree_size m)
    (newest_tree m) (newest_tree_size m) (newest_index_valid m) (stats m) (levels m).
Definition set_read_tree_limit v (m : metadata) : metadata :=
  MkMeta (initialized m) (zone_compaction_auto_run m) (zone_compaction_auto_running m) (zone_compaction_auto_pending
    m) (level_compaction_pending m) (level_compaction_running m) (zone_compaction_auto_pending_zone m) (timestamp m)
    (active_write_level m) (base_level m) (effective_level_multiplier m) (lowest_unnecessary_level m) (level_max_bytes
    m) (next_segment_id m) (segment_count m) (segments m) (read_tree m) (read_lru m) v (read_tree_size m) (newest_tree
    m) (newest_tree_size m) (newest_index_valid m) (stats m) (levels m).
Definition set_read_tree_size v (m : metadata) : metadata :=
  MkMeta (initialized m) (zone_compaction_auto_run m) (zone_compaction_auto_running m) (zone_compaction_auto_pending
    m) (level_compaction_pending m) (level_compaction_running m) (zone_compaction_auto_pending_zone m) (timestamp m)
    (active_write_level m) (base_level m) (effective_level_multiplier m) (lowest_unnecessary_level m) (level_max_bytes
    m) (next_segment_id m) (segment_count m) (segments m) (read_tree m) (read_lru m) (read_tree_limit m) v
    (newest_tree m) (newest_tree_size m) (newest_index_valid m) (stats m) (levels m).
Definition set_newest_tree v (m : metadata) : metadata :=
  MkMeta (initialized m) (zone_compaction_auto_run m) (zone_compaction_auto_running m) (zone_compaction_auto_pending
    m) (level_compaction_pending m) (level_compaction_running m) (zone_compaction_auto_pending_zone m) (timestamp m)
    (active_write_level m) (base_level m) (effective_level_multiplier m) (lowest_unnecessary_level m) (level_max_bytes
    m) (next_segment_id m) (segment_count m) (segments m) (read_tree m) (read_lru m) (read_tree_limit m)
    (read_tree_size m) v (newest_tree_size m) (newest_index_valid m) (stats m) (levels m).
Definition set_newest_tree_size v (m : metadata) : metadata :=
  MkMeta (initialized m) (zone_compaction_auto_run m) (zone_compaction_auto_running m) (zone_compaction_auto_pending
    m) (level_compaction_pending m) (level_compaction_running m) (zone_compaction_auto_pending_zone m) (timestamp m)
    (active_write_level m) (base_level m) (effective_level_multiplier m) (lowest_unnecessary_level m) (level_max_bytes
    m) (next_segment_id m) (segment_count m) (segments m) (read_tree m) (read_lru m) (read_tree_limit m)
    (read_tree_size m) (newest_tree m) v (newest_index_valid m) (stats m) (levels m).
Definition set_newest_index_valid v (m : metadata) : metadata :=
  MkMeta (initialized m) (zone_compaction_auto_run m) (zone_compaction_auto_running m) (zone_compaction_auto_pending
    m) (level_compaction_pending m) (level_compaction_running m) (zone_compaction_auto_pending_zone m) (timestamp m)
    (active_write_level m) (base_level m) (effective_level_multiplier m) (lowest_unnecessary_level m) (level_max_bytes
    m) (next_segment_id m) (segment_count m) (segments m) (read_tree m) (read_lru m) (read_tree_limit m)
    (read_tree_size m) (newest_tree m) (newest_tree_size m) v (stats m) (levels m).
Definition set_stats v (m : metadata) : metadata :=
  MkMeta (initialized m) (zone_compaction_auto_run m) (zone_compaction_auto_running m) (zone_compaction_auto_pending
    m) (level_compaction_pending m) (level_compaction_running m) (zone_compaction_auto_pending_zone m) (timestamp m)
    (active_write_level m) (base_level m) (effective_level_multiplier m) (lowest_unnecessary_level m) (level_max_bytes
    m) (next_segment_id m) (segment_count m) (segments m) (read_tree m) (read_lru m) (read_tree_limit m)
    (read_tree_size m) (newest_tree m) (newest_tree_size m) (newest_index_valid m) v (levels m).
Definition set_levels v (m : metadata) : metadata :=
  MkMeta (initialized m) (zone_compaction_auto_run m) (zone_compaction_auto_running m) (zone_compaction_auto_pending
    m) (level_compaction_pending m) (level_compaction_running m) (zone_compaction_auto_pending_zone m) (timestamp m)
    (active_write_level m) (base_level m) (effective_level_multiplier m) (lowest_unnecessary_level m) (level_max_bytes
    m) (next_segment_id m) (segment_count m) (segments m) (read_tree m) (read_lru m) (read_tree_limit m)
    (read_tree_size m) (newest_tree m) (newest_tree_size m) (newest_index_valid m) (stats m) v.

(** ** Zones *)

(** [struct imrsim_zone_status]. The arrays of 65536 entries are functions from
    their index; [z_tracks] is [z_tracks[track].isUsedBlock[block]]. *)
Record zone_status := MkZone {
  z_start : Z;
  z_length : Z;
  z_conds : Z;
  z_type : Z;
  z_flag : Z;
  z_tracks : Z -> Z -> Z;
  z_map_size : Z;
  z_live_count : Z;
  z_generation : Z;
  z_pba_map : Z -> Z;
  z_key_map : Z -> Z;
}.
Definition set_z_start v (z : zone_status) : zone_status :=
  MkZone v (z_length z) (z_conds z) (z_type z) (z_flag z) (z_tracks z) (z_map_size z) (z_live_count z) (z_generation
    z) (z_pba_map z) (z_key_map z).
Definition set_z_length v (z : zone_status) : zone_status :=
  MkZone (z_start z) v (z_conds z) (z_type z) (z_flag z) (z_tracks z) (z_map_size z) (z_live_count z) (z_generation z)
    (z_pba_map z) (z_key_map z).
Definition set_z_conds v (z : zone_status) : zone_status :=
  MkZone (z_start z) (z_length z) v (z_type z) (z_flag z) (z_tracks z) (z_map_size z) (z_live_count z) (z_generation
    z) (z_pba_map z) (z_key_map z).
Definition set_z_type v (z : zone_status) : zone_status :=
  MkZone (z_start z) (z_length z) (z_conds z) v (z_flag z) (z_tracks z) (z_map_size z) (z_live_count z) (z_generation
    z) (z_pba_map z) (z_key_map z).
Definition set_z_flag v (z : zone_status) : zone_status :=
  MkZone (z_start z) (z_length z) (z_conds z) (z_type z) v (z_tracks z) (z_map_size z) (z_live_count z) (z_generation
    z) (z_pba_map z) (z_key_map z).
Definition set_z_tracks v (z : zone_status) : zone_status :=
  MkZone (z_start z) (z_length z) (z_conds z) (z_type z) (z_flag z) v (z_map_size z) (z_live_count z) (z_generation z)
    (z_pba_map z) (z_key_map z).
Definition set_z_map_size v (z : zone_status) : zone_status :=
  MkZone (z_start z) (z_length z) (z_conds z) (z_type z) (z_flag z) (z_tracks z) v (z_live_count z) (z_generation z)
    (z_pba_map z) (z_key_map z).
Definition set_z_live_count v (z : zone_status) : zone_status :=
  MkZone (z_start z) (z_length z) (z_conds z) (z_type z) (z_flag z) (z_tracks z) (z_map_size z) v (z_generation z)
    (z_pba_map z) (z_key_map z).
Definition set_z_generation v (z : zone_status) : zone_status :=
  MkZone (z_start z) (z_length z) (z_conds z) (z_type z) (z_flag z) (z_tracks z) (z_map_size z) (z_live_count z) v
    (z_pba_map z) (z_key_map z).
Definition set_z_pba_map v (z : zone_status) : zone_status :=
  MkZone (z_start z) (z_length z) (z_conds z) (z_type z) (z_flag z) (z_tracks z) (z_map_size z) (z_live_count z)
    (z_generation z) v (z_key_map z).
Definition set_z_key_map v (z : zone_status) : zone_status :=
  MkZone (z_start z) (z_length z) (z_conds z) (z_type z) (z_flag z) (z_tracks z) (z_map_size z) (z_live_count z)
    (z_generation z) (z_pba_map z) v.

(** [struct imr_lsm_active_zone_allocator]. *)
Record allocator := MkAllocator {
  active_zone : Z;
  free_cursor : Z;
  next_generation : Z;
}.
Definition set_active_zone v (c : allocator) : allocator :=
  MkAllocator v (free_cursor c) (next_generation c).
Definition set_free_cursor v (c : allocator) : allocator :=
  MkAllocator (active_zone c) v (next_generation c).
Definition set_next_generation v (c : allocator) : allocator :=
  MkAllocator (active_zone c) (free_cursor c) v.

(** The dirty-zone queue of [struct imrsim_pstore_task]: the occupied part of
    [stu_zone_idx] with its gap counter and flags. *)
Record pstore := MkPstore {
  stu_zone_idx : list Z;
  stu_zone_idx_gap : Z;
  ps_flag : Z;
}.
Definition set_stu_zone_idx v (q : pstore) : pstore :=
  MkPstore v (stu_zone_idx_gap q) (ps_flag q).
Definition set_stu_zone_idx_gap v (q : pstore) : pstore :=
  MkPstore (stu_zone_idx q) v (ps_flag q).
Definition set_ps_flag v (q : pstore) : pstore :=
  MkPstore (stu_zone_idx q) (stu_zone_idx_gap q) v.

(** [struct imrsim_stats] without the idle times and [num_zones]: the totals and,
    by zone, [out_of_policy_read_stats.span_zones_count], the two counters of
    [out_of_policy_write_stats], [z_extra_write_total] and [z_write_total]. *)
Record wstats := MkWstats {
  extra_write_total : Z;
  write_total : Z;
  z_span_zones_count : Z -> Z;
  z_write_span_zones_count : Z -> Z;
  z_unaligned_count : Z -> Z;
  z_extra_write_total : Z -> Z;
  z_write_total : Z -> Z;
}.
Definition set_write_total v (w : wstats) : wstats :=
  MkWstats (extra_write_total w) v (z_span_zones_count w) (z_write_span_zones_count w) (z_unaligned_count w) (z_extra_write_total w) (z_write_total w).
Definition set_z_write_total v (w : wstats) : wstats :=
  MkWstats (extra_write_total w) (write_total w) (z_span_zones_count w) (z_write_span_zones_count w) (z_unaligned_count w) (z_extra_write_total w) v.
Definition set_z_unaligned_count v (w : wstats) : wstats :=
  MkWstats (extra_write_total w) (write_total w) (z_span_zones_count w) (z_write_span_zones_count w) v (z_extra_write_total w) (z_write_total w).
Definition set_z_span_zones_count v (w : wstats) : wstats :=
  MkWstats (extra_write_total w) (write_total w) v (z_write_span_zones_count w) (z_unaligned_count w) (z_extra_write_total w) (z_write_total w).
Definition zero_wstats : wstats := MkWstats 0 0 (fun _ => 0) (fun _ => 0) (fun _ => 0) (fun _ => 0) (fun _ => 0).

(** ** Globals *)

(** The validation overrides ([imr_lsm_compaction_threshold] and the others). *)
Record config := MkConfig {
  cfg_compaction_threshold : Z;
  cfg_max_bytes_for_level_base : Z;
  cfg_max_bytes_for_level_multiplier : Z;
  cfg_bloom_bits_per_key : Z;
  cfg_build_delay_ms : Z;
  cfg_zone_gc_min_invalid_ratio_permille : Z;
  cfg_zone_gc_free_low_watermark : Z;
}.

(** The state of the target. [zones] is [zone_status] ([None] is a null pointer)
    with [IMR_NUMZONES]; [target_active] is [imrsim_single ==
    IMRSIM_TARGET_ACTIVE] and [zone_state_set] is [zone_state != NULL].
    [copy_active] with its two zones is the reservation of a zone copy. *)
Record kstate := MkState {
  meta : metadata;
  cfg : config;
  metadata_epoch : Z;
  output_bdev : option Z;
  target_active : bool;
  zone_state_set : bool;
  zones : option (list zone_status);
  IMR_NUMZONES : Z;
  alloc : allocator;
  ptask : pstore;
  copy_active : bool;
  copy_source : Z;
  copy_dest : Z;
  output_bdev_start : Z;
  append_writes_inflight : Z;
  write_stats : wstats;
  hp : heap;
}.
Definition set_meta v (s : kstate) : kstate :=
  MkState v (cfg s) (metadata_epoch s) (output_bdev s) (target_active s) (zone_state_set s) (zones s) (IMR_NUMZONES s)
    (alloc s) (ptask s) (copy_active s) (copy_source s) (copy_dest s) (output_bdev_start s) (append_writes_inflight s)
    (write_stats s) (hp s).
Definition set_cfg v (s : kstate) : kstate :=
  MkState (meta s) v (metadata_epoch s) (output_bdev s) (target_active s) (zone_state_set s) (zones s) (IMR_NUMZONES
    s) (alloc s) (ptask s) (copy_active s) (copy_source s) (copy_dest s) (output_bdev_start s) (append_writes_inflight
    s) (write_stats s) (hp s).
Definition set_metadata_epoch v (s : kstate) : kstate :=
  MkState (meta s) (cfg s) v (output_bdev s) (target_active s) (zone_state_set s) (zones s) (IMR_NUMZONES s) (alloc s)
    (ptask s) (copy_active s) (copy_source s) (copy_dest s) (output_bdev_start s) (append_writes_inflight s)
    (write_stats s) (hp s).
Definition set_zones v (s : kstate) : kstate :=
  MkState (meta s) (cfg s) (metadata_epoch s) (output_bdev s) (target_active s) (zone_state_set s) v (IMR_NUMZONES s)
    (alloc s) (ptask s) (copy_active s) (copy_source s) (copy_dest s) (output_bdev_start s) (append_writes_inflight s)
    (write_stats s) (hp s).
Definition set_alloc v (s : kstate) : kstate :=
  MkState (meta s) (cfg s) (metadata_epoch s) (output_bdev s) (target_active s) (zone_state_set s) (zones s)
    (IMR_NUMZONES s) v (ptask s) (copy_active s) (copy_source s) (copy_dest s) (output_bdev_start s)
    (append_writes_inflight s) (write_stats s) (hp s).
Definition set_ptask v (s : kstate) : kstate :=
  MkState (meta s) (cfg s) (metadata_epoch s) (output_bdev s) (target_active s) (zone_state_set s) (zones s)
    (IMR_NUMZONES s) (alloc s) v (copy_active s) (copy_source s) (copy_dest s) (output_bdev_start s)
    (append_writes_inflight s) (write_stats s) (hp s).
Definition set_copy_active v (s : kstate) : kstate :=
  MkState (meta s) (cfg s) (metadata_epoch s) (output_bdev s) (target_active s) (zone_state_set s) (zones s)
    (IMR_NUMZONES s) (alloc s) (ptask s) v (copy_source s) (copy_dest s) (output_bdev_start s) (append_writes_inflight
    s) (write_stats s) (hp s).
Definition set_copy_source v (s : kstate) : kstate :=
  MkState (meta s) (cfg s) (metadata_epoch s) (output_bdev s) (target_active s) (zone_state_set s) (zones s)
    (IMR_NUMZONES s) (alloc s) (ptask s) (copy_active s) v (copy_dest s) (output_bdev_start s) (append_writes_inflight
    s) (write_stats s) (hp s).
Definition set_copy_dest v (s : kstate) : kstate :=
  MkState (meta s) (cfg s) (metadata_epoch s) (output_bdev s) (target_active s) (zone_state_set s) (zones s)
    (IMR_NUMZONES s) (alloc s) (ptask s) (copy_active s) (copy_source s) v (output_bdev_start s)
    (append_writes_inflight s) (write_stats s) (hp s).
Definition set_append_writes_inflight v (s : kstate) : kstate :=
  MkState (meta s) (cfg s) (metadata_epoch s) (output_bdev s) (target_active s) (zone_state_set s) (zones s)
    (IMR_NUMZONES s) (alloc s) (ptask s) (copy_active s) (copy_source s) (copy_dest s) (output_bdev_start s) v
    (write_stats s) (hp s).
Definition set_write_stats v (s : kstate) : kstate :=
  MkState (meta s) (cfg s) (metadata_epoch s) (output_bdev s) (target_active s) (zone_state_set s) (zones s)
    (IMR_NUMZONES s) (alloc s) (ptask s) (copy_active s) (copy_source s) (copy_dest s) (output_bdev_start s)
    (append_writes_inflight s) v (hp s).
Definition set_hp v (s : kstate) : kstate :=
  MkState (meta s) (cfg s) (metadata_epoch s) (output_bdev s) (target_active s) (zone_state_set s) (zones s)
    (IMR_NUMZONES s) (alloc s) (ptask s) (copy_active s) (copy_source s) (copy_dest s) (output_bdev_start s)
    (append_writes_inflight s) (write_stats s) v.

(** ** Access *)

Definition upd_meta (f : metadata -> metadata) (s : kstate) : kstate := set_meta (f (meta s)) s.

(** [imr_lsm_meta.stats.f = v], [stats.f++], [stats.f += n], [stats.f]. *)
Definition st_set (f : string) (v : Z) : kstate -> kstate := upd_meta (fun m => set_stats (set_stat f v (stats m)) m).
Definition st_inc (f : string) : kstate -> kstate := upd_meta (fun m => set_stats (inc_stat f (stats m)) m).
Definition st_add (f : string) (n : Z) : kstate -> kstate := upd_meta (fun m => set_stats (add_stat f n (stats m)) m).
Definition stat (f : string) (s : kstate) : Z := stats (meta s) f.

(** [kzalloc] in the state. *)
Definition st_alloc (s : kstate) : kstate * option Z :=
  let '(h, a) := kzalloc (hp s) in (set_hp h s, a).

Definition empty_level : level_state := MkLevel [] [] 0 0.

(** [imr_lsm_meta.levels[level]]; the index is below [IMR_LSM_LEVELS]. *)
Definition level (i : Z) (s : kstate) : level_state :=
  match nthZ (levels (meta s)) i with Some l => l | None => empty_level end.
Definition upd_level (i : Z) (f : level_state -> level_state) (s : kstate) : kstate :=
  upd_meta (fun m => set_levels (updZ (levels m) i (f (level i s))) m) s.

Definition seg (i : nat) (s : kstate) : option segment := segments (meta s) !! i.
Definition upd_seg (i : nat) (f : segment -> segment) : kstate -> kstate :=
  upd_meta (fun m => set_segments (alter f i (segments m)) m).

(** A table entry by reference. *)
Definition entry_at (r : nat * nat) (s : kstate) : option block_entry :=
  match seg r.1 s with Some g => sg_table g !! r.2 | None => None end.
Definition upd_entry (r : nat * nat) (f : block_entry -> block_entry) : kstate -> kstate :=
  upd_seg r.1 (fun g => set_sg_table (alter f r.2 (sg_table g)) g).

(** [zone_status[i]] of an index below [IMR_NUMZONES]. *)
Definition zone (i : Z) (s : kstate) : option zone_status :=
  match zones s with Some zs => nthZ zs i | None => None end.
Definition upd_zone (i : Z) (f : zone_status -> zone_status) (s : kstate) : kstate :=
  match zones s with
  | Some zs => match nthZ zs i with Some z => set_zones (Some (updZ zs i (f z))) s | None => s end
  | None => s
  end.

Definition imrsim_target_ready_locked (s : kstate) : bool :=
  target_active s && zone_state_set s && (match zones s with Some _ => true | None => false end).

(** ** Static initial values *)

Definition zero_meta : metadata :=
  MkMeta false false false false false false 0 0 0 0 0 0 (replicate 7 0) 0 0 [] [] [] 0 0 [] 0 false zero_stats
    (replicate 7 empty_level).
Definition default_config : config := MkConfig IMR_LSM_COMPACTION_THRESHOLD IMR_LSM_MAX_BYTES_FOR_LEVEL_BASE_DEFAULT
  IMR_LSM_LEVEL_RATIO_DEFAULT 10 0 250 3.
Definition static_state : kstate :=
  MkState zero_meta default_config 0 None false false None 0 (MkAllocator IMR_LSM_ZONE_COMPACTION_NONE 0 1)
    (MkPstore [] 0 0) false IMR_LSM_ZONE_COMPACTION_NONE IMR_LSM_ZONE_COMPACTION_NONE 0 0 zero_wstats
    (MkHeap [] 0).
