(* ===== verification/ImrReadTree.v ===== *)
(** The read tree: an rb-tree of recently used keys with an LRU list and a size
    limit ([dm-imrsim.c], from [imr_lsm_init_read_tree_locked] to
    [imr_lsm_tree_update_locked]). *)

From S2P Require Import Prelude StdMap ImrPrelude ImrBloom ImrState.

(** [enum imr_lsm_lookup_result] with the address of a valid record. *)
Inductive lookup_result := LOOKUP_MISS | LOOKUP_VALID (pba : Z) | LOOKUP_DELETED.

Definition imr_lsm_init_read_tree_locked (s : kstate) : kstate :=
  upd_meta (fun m => set_read_tree_size 0 (set_read_tree_limit IMR_LSM_READ_TREE_LIMIT
    (set_read_lru [] (set_read_tree [] m)))) s.

Definition imr_lsm_read_tree_limit_locked (s : kstate) : Z :=
  if negb (read_tree_limit (meta s) =? 0) then read_tree_limit (meta s) else IMR_LSM_READ_TREE_LIMIT.

(** [while((rb = rb_first(...))) { rb_erase; list_del; cleared++; }] *)
Fixpoint clear_loop (tree : stdmap Z read_node) (cleared : Z) : Z :=
  match tree with [] => cleared | _ :: tree => clear_loop tree (u32 (cleared + 1)) end.
Definition imr_lsm_clear_read_tree_locked (s : kstate) : kstate * Z :=
  let cleared := clear_loop (read_tree (meta s)) 0 in
  (upd_meta (fun m => set_read_tree_size 0 (set_read_lru [] (set_read_tree [] m))) s, cleared).

Definition imr_lsm_tree_find_node_locked (key : Z) (s : kstate) : option read_node := m_find key (read_tree (meta s)).

Definition imr_lsm_tree_record_last_locked (key pba : Z) (valid : bool) (ts : Z) (hit : bool) (s : kstate) : kstate :=
  st_set "last_read_tree_hit" (Z.b2z hit) (st_set "last_read_tree_valid" (Z.b2z valid)
    (st_set "last_read_tree_timestamp" ts (st_set "last_read_tree_pba" pba (st_set "last_read_tree_key" key s)))).

(** [list_move_tail(&node->lru, &read_lru)] *)
Definition lru_del (key : Z) (l : list Z) : list Z := filter (fun k => k <> key) l.
#[global] Arguments lru_del : simpl never.
Definition lru_move_tail (key : Z) (s : kstate) : kstate :=
  upd_meta (fun m => set_read_lru (lru_del key (read_lru m) ++ [key]) m) s.

Definition imr_lsm_tree_lookup_locked (key : Z) (s : kstate) : kstate * lookup_result :=
  let s := st_inc "read_tree_lookup_count" s in
  match imr_lsm_tree_find_node_locked key s with
  | None =>
      let s := st_inc "read_tree_miss_count" s in
      (imr_lsm_tree_record_last_locked key 0 false 0 false s, LOOKUP_MISS)
  | Some n =>
      let s := lru_move_tail key s in
      let s := st_inc "read_tree_hit_count" s in
      let s := imr_lsm_tree_record_last_locked key (rn_pba n) (rn_valid n) (rn_timestamp n) true s in
      (s, if rn_valid n then LOOKUP_VALID (rn_pba n) else LOOKUP_DELETED)
  end.

Definition imr_lsm_tree_remove_node_locked (key : Z) (s : kstate) : kstate :=
  let s := upd_meta (fun m => set_read_lru (lru_del key (read_lru m)) (set_read_tree (m_erase key (read_tree m)) m)) s in
  let s := if negb (read_tree_size (meta s) =? 0)
           then upd_meta (fun m => set_read_tree_size (u32 (read_tree_size m - 1)) m) s else s in
  st_inc "read_tree_remove_count" s.

Definition imr_lsm_tree_remove_locked (key : Z) (s : kstate) : kstate :=
  match imr_lsm_tree_find_node_locked key s with
  | Some _ => imr_lsm_tree_remove_node_locked key s
  | None => s
  end.

(** The eviction loop takes the first entry of the LRU list each time, so it is a
    recursion on that list. *)
Fixpoint evict_loop (limit : Z) (lru : list Z) (s : kstate) : kstate :=
  match lru with
  | [] => s
  | key :: lru =>
      if read_tree_size (meta s) >? limit then
        let s := upd_meta (fun m => set_read_tree_size (u32 (read_tree_size m - 1)) (set_read_lru lru
                   (set_read_tree (m_erase key (read_tree m)) m))) s in
        evict_loop limit lru (st_inc "read_tree_evict_count" s)
      else s
  end.
Definition imr_lsm_tree_evict_locked (s : kstate) : kstate :=
  evict_loop (imr_lsm_read_tree_limit_locked s) (read_lru (meta s)) s.

Definition imr_lsm_tree_update_locked (key pba : Z) (valid : bool) (ts : Z) (s : kstate) : kstate :=
  match m_find key (read_tree (meta s)) with
  | Some n =>
      let s := if ts >=? rn_timestamp n then
          st_inc "read_tree_update_count"
            (upd_meta (fun m => set_read_tree (m_insert key (MkReadNode pba valid ts) (read_tree m)) m) s)
        else s in
      lru_move_tail key s
  | None =>
      match st_alloc s with
      | (s, None) => st_inc "read_tree_update_fail_count" s
      | (s, Some _) =>
          let s := upd_meta (fun m =>
            set_read_tree_size (u32 (read_tree_size m + 1)) (set_read_lru (read_lru m ++ [key])
              (set_read_tree (m_insert key (MkReadNode pba valid ts) (read_tree m)) m))) s in
          imr_lsm_tree_evict_locked (st_inc "read_tree_update_count" s)
      end
  end.

(** ** Specification

    The read tree is an LRU cache: a list of keys with their records, least
    recently used first. *)

Abbreviation cache_list := (list (Z * read_node)).

Definition cached (t : stdmap Z read_node) (l : list Z) : cache_list :=
  omap (fun k => n ← m_find k t; Some (k, n)) l.
Definition cache (m : metadata) : cache_list := cached (read_tree m) (read_lru m).

Definition cache_drop (key : Z) (c : cache_list) : cache_list := filter (fun p => p.1 <> key) c.

(** [key] with record [n] becomes the most recently used. *)
Definition cache_touch (key : Z) (n : read_node) (c : cache_list) : cache_list := cache_drop key c ++ [(key, n)].

(** Keep the [limit] most recently used. *)
Definition cache_trim (limit : Z) (c : cache_list) : cache_list := drop (Z.to_nat (lenZ c - limit)) c.

Definition newer (n : read_node) (pba : Z) (valid : bool) (ts : Z) : read_node :=
  if ts >=? rn_timestamp n then MkReadNode pba valid ts else n.

Record rt_shape (m : metadata) : Prop := {
  rts_sorted : sorted (read_tree m);
  rts_nodup : NoDup (read_lru m);
  rts_keys : forall k, k ∈ read_lru m <-> is_Some (m_find k (read_tree m));
  rts_size : read_tree_size m = lenZ (read_lru m);
  rts_bound : lenZ (read_lru m) < 2 ^ 32;
}.

Definition tree_limit (m : metadata) : Z := if negb (read_tree_limit m =? 0) then read_tree_limit m else IMR_LSM_READ_TREE_LIMIT.

(** The invariant: tree and LRU list agree and respect the limit. *)
Definition rt_wf (m : metadata) : Prop :=
  rt_shape m /\ 0 <= read_tree_limit m <= IMR_LSM_READ_TREE_LIMIT /\ lenZ (read_lru m) <= tree_limit m.

(** Everything the read tree operations leave alone: the state with the read
    tree, its list and size, the statistics and the heap erased. *)
Definition no_rt (s : kstate) : kstate :=
  set_hp (MkHeap [] 0) (upd_meta (fun m => set_stats zero_stats (set_read_tree_size 0 (set_read_lru [] (set_read_tree [] m)))) s).

(** ** Lemmas *)

Lemma lru_del_not_in key l : key ∉ l -> lru_del key l = l.
Proof.
  unfold lru_del. induction l as [|k l IH]; [done|]. rewrite not_elem_of_cons. intros [Hk Hl].
  rewrite filter_cons. destruct (decide (k <> key)); [by rewrite IH|naive_solver].
Qed.

Lemma elem_of_lru_del k key l : k ∈ lru_del key l <-> k <> key /\ k ∈ l.
Proof. unfold lru_del. by rewrite list_elem_of_filter. Qed.

Lemma NoDup_lru_del key l : NoDup l -> NoDup (lru_del key l).
Proof. unfold lru_del. apply NoDup_filter. Qed.

Lemma lenZ_lru_del key l : NoDup l -> key ∈ l -> lenZ (lru_del key l) = lenZ l - 1.
Proof.
  intros Hn. induction l as [|k l IH]; [by intros ?%elem_of_nil|]. apply NoDup_cons in Hn as [Hk Hn].
  rewrite elem_of_cons. unfold lru_del in *. rewrite filter_cons. intros [->|Hin].
  - rewrite decide_False by naive_solver. fold (lru_del k l). rewrite lru_del_not_in, lenZ_cons by done. lia.
  - rewrite decide_True by (intros ->; done). rewrite !lenZ_cons, IH by done. lia.
Qed.

(** The record of a cached key. *)
Lemma cache_in m k n : rt_shape m -> (k, n) ∈ cache m <-> m_find k (read_tree m) = Some n.
Proof.
  intros Hw. unfold cache, cached. rewrite list_elem_of_omap. split.
  - intros (k' & _ & H). destruct (m_find k' (read_tree m)) eqn:E; simplify_eq/=. done.
  - intros H. exists k. rewrite H. split; [|done]. apply Hw. by rewrite H.
Qed.

Lemma lenZ_cache m : rt_shape m -> lenZ (cache m) = lenZ (read_lru m).
Proof.
  intros Hw. unfold cache. assert (forall l, (forall k, k ∈ l -> is_Some (m_find k (read_tree m))) ->
    lenZ (cached (read_tree m) l) = lenZ l) as H.
  { induction l as [|k l IH]; intros Hl; [done|]. destruct (Hl k) as [n Hn]; [by left|].
    unfold cached in *. cbn. rewrite Hn. cbn. rewrite !lenZ_cons, IH; [done|]. intros; apply Hl; by right. }
  apply H. intros k. by apply Hw.
Qed.

(** [cache] under a change of the tree that keeps the records of the listed keys. *)
Lemma cache_ext l (t1 t2 : stdmap Z read_node) :
  (forall k, k ∈ l -> m_find k t1 = m_find k t2) ->
  cached t1 l = cached t2 l.
Proof.
  unfold cached. induction l as [|k l IH]; intros H; [done|]. cbn. rewrite (H k) by (by left).
  rewrite IH; [done|]. intros; apply H; by right.
Qed.

Lemma cache_filter key l (t : stdmap Z read_node) :
  cached t (lru_del key l) = cache_drop key (cached t l).
Proof.
  unfold lru_del, cache_drop, cached. induction l as [|k l IH]; [done|]. rewrite filter_cons. cbn.
  destruct (decide (k <> key)); cbn; destruct (m_find k t); cbn; rewrite ?filter_cons; cbn.
  - rewrite decide_True by done. by rewrite IH.
  - done.
  - rewrite decide_False by done. done.
  - done.
Qed.

Lemma shape_erase m key :
  rt_shape m -> key ∈ read_lru m -> forall sz st,
  sz = read_tree_size m - 1 ->
  rt_shape (set_stats st (set_read_tree_size sz (set_read_lru (lru_del key (read_lru m)) (set_read_tree (m_erase key (read_tree m)) m)))).
Proof.
  intros [H1 H2 H3 H4 H5] Hin sz st ->. split; cbn.
  - by apply erase_sorted.
  - by apply NoDup_lru_del.
  - intros k. rewrite elem_of_lru_del, find_erase, H3. case_decide; [|naive_solver].
    split; [naive_solver|]. by intros [].
  - rewrite lenZ_lru_del by done. lia.
  - rewrite lenZ_lru_del by done. lia.
Qed.

Lemma shape_move m key st :
  rt_shape m -> key ∈ read_lru m -> rt_shape (set_stats st (set_read_lru (lru_del key (read_lru m) ++ [key]) m)).
Proof.
  intros [H1 H2 H3 H4 H5] Hin. split; cbn; [done| | | |].
  - apply NoDup_app. split_and!; [by apply NoDup_lru_del| |apply NoDup_singleton].
    intros k Hk%elem_of_lru_del Hk'%list_elem_of_singleton. naive_solver.
  - intros k. rewrite elem_of_app, elem_of_lru_del, list_elem_of_singleton, <- H3.
    destruct (decide (k = key)); naive_solver.
  - rewrite lenZ_app, lenZ_lru_del, lenZ_cons, lenZ_nil by done. lia.
  - rewrite lenZ_app, lenZ_lru_del, lenZ_cons, lenZ_nil by done. lia.
Qed.

Lemma evict_loop_spec limit lru : forall s,
  read_lru (meta s) = lru -> rt_shape (meta s) -> 0 <= limit ->
  let s' := evict_loop limit lru s in
  rt_shape (meta s') /\ read_lru (meta s') = drop (Z.to_nat (lenZ lru - limit)) lru /\
  (forall k, k ∈ read_lru (meta s') -> m_find k (read_tree (meta s')) = m_find k (read_tree (meta s))) /\
  no_rt s' = no_rt s.
Proof.
  induction lru as [|key lru IH]; intros s Hl Hw Hlim; cbn [evict_loop]; cbv zeta.
  { rewrite Hl, drop_nil. done. }
  pose proof (rts_size _ Hw) as Hsz. rewrite Hl, lenZ_cons in Hsz. pose proof (lenZ_nonneg lru).
  pose proof (rts_bound _ Hw) as Hb. rewrite Hl, lenZ_cons in Hb.
  pose proof (rts_nodup _ Hw) as Hn. rewrite Hl in Hn. apply NoDup_cons in Hn as [Hk Hn].
  destruct (read_tree_size (meta s) >? limit) eqn:E; rewrite lenZ_cons.
  - match goal with |- context [evict_loop limit lru ?x] => set (s1 := x) end.
    assert (lru = lru_del key (key :: lru)) as Hd.
    { unfold lru_del. rewrite filter_cons, decide_False by naive_solver. symmetry. by apply lru_del_not_in. }
    assert (rt_shape (meta s1)) as Hw1.
    { subst s1. unfold st_inc, upd_meta. cbn. replace lru with (lru_del key (read_lru (meta s))) at 1
        by (rewrite Hl; by rewrite <- Hd).
      apply shape_erase; [done|rewrite Hl; by left|]. rewrite u32_small; lia. }
    destruct (IH s1) as (I1 & I2 & I3 & I4); [done|done|done|].
    replace (Z.to_nat (1 + lenZ lru - limit)) with (S (Z.to_nat (lenZ lru - limit))) by lia.
    split_and!; [done|by rewrite I2|..].
    + intros k Hin. rewrite I3 by done. subst s1. cbn. apply find_erase_ne.
      intros ->. rewrite I2 in Hin. by apply subseteq_drop in Hin.
    + rewrite I4. done.
  - replace (Z.to_nat (1 + lenZ lru - limit)) with O by lia. by rewrite drop_0.
Qed.

Lemma cache_trim_drop m n : rt_shape m ->
  cached (read_tree m) (drop n (read_lru m)) = drop n (cache m).
Proof.
  intros Hw. unfold cache, cached.
  assert (forall l n, (forall k, k ∈ l -> is_Some (m_find k (read_tree m))) ->
    cached (read_tree m) (drop n l) = drop n (cached (read_tree m) l)) as H.
  { unfold cached. induction l as [|k l IH]; intros [|n'] Hl; cbn; try done.
    destruct (Hl k) as [x Hx]; [by left|]. rewrite Hx. cbn. apply IH. intros; apply Hl; by right. }
  apply H. intros k. by apply Hw.
Qed.

(** Eviction keeps the most recently used records. *)
Lemma evict_spec s :
  rt_shape (meta s) -> 0 <= read_tree_limit (meta s) <= IMR_LSM_READ_TREE_LIMIT ->
  let s' := imr_lsm_tree_evict_locked s in
  rt_wf (meta s') /\ cache (meta s') = cache_trim (tree_limit (meta s)) (cache (meta s)) /\ no_rt s' = no_rt s.
Proof.
  intros Hw Hl s'. subst s'. unfold imr_lsm_tree_evict_locked. change (imr_lsm_read_tree_limit_locked s) with (tree_limit (meta s)).
  assert (0 < tree_limit (meta s)) by (unfold tree_limit, IMR_LSM_READ_TREE_LIMIT in *; zcase; lia).
  destruct (evict_loop_spec (tree_limit (meta s)) (read_lru (meta s)) s) as (H1 & H2 & H3 & H4); [done|done|lia|].
  set (s' := evict_loop _ _ s) in *.
  assert (read_tree_limit (meta s') = read_tree_limit (meta s)) as Hlim by (by apply (f_equal (fun s => read_tree_limit (meta s))) in H4).
  split; [split; [done|split; [by rewrite Hlim|]]|split; [|done]].
  - unfold tree_limit at 1. rewrite Hlim. fold (tree_limit (meta s)). rewrite H2. unfold lenZ. rewrite length_drop. lia.
  - unfold cache at 1. rewrite (cache_ext _ _ (read_tree (meta s))) by done. rewrite H2.
    rewrite cache_trim_drop by done. unfold cache_trim. by rewrite lenZ_cache.
Qed.

Lemma cache_move m key n st :
  rt_shape m -> m_find key (read_tree m) = Some n ->
  cache (set_stats st (set_read_lru (lru_del key (read_lru m) ++ [key]) m)) = cache_touch key n (cache m).
Proof.
  intros Hw Hn. unfold cache, cache_touch. cbn. rewrite <- cache_filter. unfold cached. rewrite omap_app. f_equal.
  cbn. by rewrite Hn.
Qed.

Lemma lookup_spec key s :
  rt_wf (meta s) ->
  let '(s', r) := imr_lsm_tree_lookup_locked key s in
  rt_wf (meta s') /\ no_rt s' = no_rt s /\
  match m_find key (read_tree (meta s)) with
  | None => r = LOOKUP_MISS /\ cache (meta s') = cache (meta s)
  | Some n => r = (if rn_valid n then LOOKUP_VALID (rn_pba n) else LOOKUP_DELETED) /\
              cache (meta s') = cache_touch key n (cache (meta s))
  end.
Proof.
  intros (Hw & Hl & Hb). unfold imr_lsm_tree_lookup_locked, imr_lsm_tree_find_node_locked. cbn.
  destruct (m_find key (read_tree (meta s))) as [n|] eqn:En.
  - assert (key ∈ read_lru (meta s)) as Hin by (apply Hw; by rewrite En).
    split; [split; [|split; [done|]]|split_and!; [done|done|]].
    + cbn. split; cbn; try apply (shape_move _ _ zero_stats Hw Hin).
    + cbn. rewrite lenZ_app, lenZ_lru_del, lenZ_cons, lenZ_nil by (by try apply Hw). unfold tree_limit in *. cbn. lia.
    + exact (cache_move (meta s) key n zero_stats Hw En).
  - split_and!; try done. split; [|done]. split; cbn; apply Hw.
Qed.

Lemma shape_set_same m key n :
  rt_shape m -> is_Some (m_find key (read_tree m)) -> forall st,
  rt_shape (set_stats st (set_read_tree (m_insert key n (read_tree m)) m)).
Proof.
  intros [H1 H2 H3 H4 H5] Hs st. split; cbn; [by apply insert_sorted|done| |done|done].
  intros k. rewrite find_insert. case_decide; [subst; rewrite H3; naive_solver|apply H3].
Qed.

Lemma shape_add m key n sz st :
  rt_shape m -> m_find key (read_tree m) = None -> lenZ (read_lru m) < 2 ^ 32 - 1 -> sz = lenZ (read_lru m) + 1 ->
  rt_shape (set_stats st (set_read_tree_size sz (set_read_lru (read_lru m ++ [key]) (set_read_tree (m_insert key n (read_tree m)) m)))).
Proof.
  intros [H1 H2 H3 H4 H5] Hn Hlt ->. split; cbn; [by apply insert_sorted| | | |].
  - apply NoDup_app. split_and!; [done| |apply NoDup_singleton].
    intros k Hk Hk'%list_elem_of_singleton. subst. apply H3 in Hk. rewrite Hn in Hk. by destruct Hk.
  - intros k. rewrite elem_of_app, list_elem_of_singleton, find_insert, H3. case_decide; naive_solver.
  - rewrite lenZ_app, lenZ_cons, lenZ_nil. lia.
  - rewrite lenZ_app, lenZ_cons, lenZ_nil. lia.
Qed.

Lemma cache_add m key n sz st :
  rt_shape m -> m_find key (read_tree m) = None ->
  cache (set_stats st (set_read_tree_size sz (set_read_lru (read_lru m ++ [key]) (set_read_tree (m_insert key n (read_tree m)) m)))) =
  cache m ++ [(key, n)].
Proof.
  intros Hw Hn. unfold cache. cbn. unfold cached. rewrite omap_app. cbn. rewrite find_insert_eq. cbn. f_equal.
  apply (cache_ext (read_lru m)). intros k Hk. apply find_insert_ne. intros ->.
  apply Hw in Hk. rewrite Hn in Hk. by destruct Hk.
Qed.

Lemma cache_drop_absent m key : rt_shape m -> m_find key (read_tree m) = None -> cache_drop key (cache m) = cache m.
Proof.
  intros Hw Hn. unfold cache. rewrite <- cache_filter. f_equal. apply lru_del_not_in.
  rewrite (rts_keys _ Hw), Hn. by intros [].
Qed.

(** What an update does: [None] for the allocation means it failed. *)
Definition cache_update (limit key pba : Z) (valid : bool) (ts : Z) (allocated : bool) (c : cache_list) (old : option read_node)
  : cache_list :=
  match old with
  | Some n => cache_touch key (newer n pba valid ts) c
  | None => if allocated then cache_trim limit (cache_touch key (MkReadNode pba valid ts) c) else c
  end.

Lemma update_present key n s :
  rt_wf (meta s) -> m_find key (read_tree (meta s)) = Some n -> forall n' st,
  let m' := set_stats st (set_read_lru (lru_del key (read_lru (meta s)) ++ [key])
              (set_read_tree (m_insert key n' (read_tree (meta s))) (meta s))) in
  rt_wf m' /\ cache m' = cache_touch key n' (cache (meta s)).
Proof.
  intros (Hw & Hl & Hb) En n' st m'.
  assert (key ∈ read_lru (meta s)) as Hin by (apply Hw; by rewrite En).
  pose proof (shape_set_same (meta s) key n' Hw ltac:(by rewrite En) st) as Hw2.
  pose proof (shape_move _ key st Hw2 Hin) as Hw3. split; [split; [exact Hw3|split; [done|]]|].
  - subst m'. cbn. rewrite lenZ_app, lenZ_lru_del, lenZ_cons, lenZ_nil by (by try apply Hw).
    unfold tree_limit in *. cbn. lia.
  - etransitivity; [exact (cache_move _ key n' st Hw2 (find_insert_eq _ _ _))|].
    unfold cache_touch. f_equal. unfold cache. rewrite <- !cache_filter. apply cache_ext. cbn.
    intros k [Hk _]%elem_of_lru_del. by apply find_insert_ne.
Qed.

Lemma update_spec key pba valid ts s :
  rt_wf (meta s) ->
  let s' := imr_lsm_tree_update_locked key pba valid ts s in
  rt_wf (meta s') /\ no_rt s' = no_rt s /\
  cache (meta s') = cache_update (tree_limit (meta s)) key pba valid ts
    (match (kzalloc (hp s)).2 with Some _ => true | None => false end) (cache (meta s)) (m_find key (read_tree (meta s))).
Proof.
  intros Hwf s'. subst s'. unfold imr_lsm_tree_update_locked.
  destruct (m_find key (read_tree (meta s))) as [n|] eqn:En; cbn [cache_update].
  - unfold newer. destruct (ts >=? rn_timestamp n).
    + destruct (update_present key n s Hwf En (MkReadNode pba valid ts) (stats (meta s))) as [[H1 H2] H3].
      split; [split; [split; apply H1|exact H2]|split; [done|exact H3]].
    + destruct Hwf as (Hw & Hl & Hb). assert (key ∈ read_lru (meta s)) as Hin by (apply Hw; by rewrite En).
      split; [split; [exact (shape_move _ key (stats (meta s)) Hw Hin)|split; [done|]]|split; [done|]].
      * cbn. rewrite lenZ_app, lenZ_lru_del, lenZ_cons, lenZ_nil by (by try apply Hw). unfold tree_limit in *. cbn. lia.
      * exact (cache_move (meta s) key n (stats (meta s)) Hw En).
  - destruct Hwf as (Hw & Hl & Hb). unfold st_alloc. destruct (kzalloc (hp s)) as [h [a|]]; cbn [snd].
    2: { split; [split; [split; apply Hw|by split]|done]. }
    assert (lenZ (read_lru (meta s)) <= 4096) as Hlt.
    { unfold tree_limit, IMR_LSM_READ_TREE_LIMIT in *. destruct (negb _); lia. }
    match goal with |- context [imr_lsm_tree_evict_locked ?x] => set (s1 := x) end.
    assert (rt_shape (meta s1)) as Hw1.
    { pose proof (lenZ_nonneg (read_lru (meta s))).
      apply (shape_add (meta s) key (MkReadNode pba valid ts)); [done|done|lia|]. cbn.
      rewrite (rts_size _ Hw). rewrite u32_small; lia. }
    destruct (evict_spec s1 Hw1 Hl) as (H1 & H2 & H3). split_and!; [done|done|].
    rewrite H2. f_equal. unfold cache_touch. rewrite cache_drop_absent by done.
    exact (cache_add (meta s) key (MkReadNode pba valid ts) _ _ Hw En).
Qed.

Lemma remove_spec key s :
  rt_wf (meta s) ->
  let s' := imr_lsm_tree_remove_locked key s in
  rt_wf (meta s') /\ no_rt s' = no_rt s /\ cache (meta s') = cache_drop key (cache (meta s)).
Proof.
  intros (Hw & Hl & Hb) s'. subst s'. unfold imr_lsm_tree_remove_locked, imr_lsm_tree_find_node_locked.
  destruct (m_find key (read_tree (meta s))) as [n|] eqn:En; [|by rewrite cache_drop_absent].
  assert (key ∈ read_lru (meta s)) as Hin by (apply Hw; by rewrite En).
  pose proof (lenZ_lru_del key (read_lru (meta s)) (rts_nodup _ Hw) Hin) as Hlen.
  pose proof (lenZ_nonneg (lru_del key (read_lru (meta s)))). pose proof (rts_bound _ Hw). pose proof (rts_size _ Hw) as Hsz.
  unfold imr_lsm_tree_remove_node_locked. cbn [read_tree_size meta upd_meta set_meta set_read_lru set_read_tree].
  replace (read_tree_size (meta s) =? 0) with false by lia. cbn [negb].
  split; [split; [|split; [done|]]|split; [done|]].
  - apply (shape_erase (meta s) key Hw Hin). cbn. rewrite u32_small; lia.
  - cbn. unfold tree_limit in *. cbn. lia.
  - unfold cache. cbn. rewrite <- cache_filter. apply cache_ext. intros k [Hk _]%elem_of_lru_del. by apply find_erase_ne.
Qed.

Lemma clear_spec s :
  rt_wf (meta s) ->
  let s' := (imr_lsm_clear_read_tree_locked s).1 in rt_wf (meta s') /\ no_rt s' = no_rt s /\ cache (meta s') = [].
Proof.
  intros (Hw & Hl & Hb). split; [split; [|split; [done|]]|done].
  - split; cbn; try done; try apply NoDup_nil_2. intros k. split; [by intros ?%elem_of_nil|by intros []].
  - cbn. unfold tree_limit, IMR_LSM_READ_TREE_LIMIT in *. cbn. zcase; rewrite lenZ_nil; lia.
Qed.

(** The record a cached key has after an update. *)
Lemma cache_update_in limit key pba valid ts a m k n :
  rt_shape m ->
  (k, n) ∈ cache_update limit key pba valid ts a (cache m) (m_find key (read_tree m)) ->
  (k <> key /\ (k, n) ∈ cache m) \/
  (k = key /\ (n = MkReadNode pba valid ts \/ (m_find key (read_tree m) = Some n /\ ts < rn_timestamp n))).
Proof.
  intros Hw. unfold cache_update.
  assert (forall x, (k, n) ∈ cache_touch key x (cache m) -> (k <> key /\ (k, n) ∈ cache m) \/ (k = key /\ n = x)) as Ht.
  { intros x. unfold cache_touch, cache_drop. rewrite elem_of_app, list_elem_of_filter, list_elem_of_singleton. naive_solver. }
  destruct (m_find key (read_tree m)) as [o|] eqn:Eo.
  - intros [H|[-> ->]]%Ht; [by left|]. right. split; [done|]. unfold newer. destruct (ts >=? rn_timestamp o) eqn:E; [by left|].
    right. split; [done|lia].
  - destruct a.
    + intros [H|[-> ->]]%subseteq_drop%Ht; [by left|]. right. split; [done|by left].
    + intros H. left. split; [|done]. intros ->. apply cache_in in H; [congruence|done].
Qed.

(** C26: The read tree is an LRU cache. As long as tree and list agree and the
    size is within the limit, a lookup answers from the cached record and makes
    the key the most recently used, and an update of a cached key keeps the
    record with the newer timestamp, while an update of a new key adds it and
    evicts the least recently used keys beyond the limit (or changes nothing when
    the node cannot be allocated); both keep the agreement and the bound. *)
Theorem read_tree_is_lru_cache key pba valid ts s :
  rt_wf (meta s) ->
  (let '(s', r) := imr_lsm_tree_lookup_locked key s in
   rt_wf (meta s') /\
   match m_find key (read_tree (meta s)) with
   | None => r = LOOKUP_MISS /\ cache (meta s') = cache (meta s)
   | Some n => r = (if rn_valid n then LOOKUP_VALID (rn_pba n) else LOOKUP_DELETED) /\
               cache (meta s') = cache_touch key n (cache (meta s))
   end) /\
  (let s' := imr_lsm_tree_update_locked key pba valid ts s in
   rt_wf (meta s') /\
   cache (meta s') =
     match m_find key (read_tree (meta s)) with
     | Some n => cache_touch key (newer n pba valid ts) (cache (meta s))
     | None => match (kzalloc (hp s)).2 with
               | Some _ => cache_trim (tree_limit (meta s)) (cache_touch key (MkReadNode pba valid ts) (cache (meta s)))
               | None => cache (meta s)
               end
     end).
Proof.
  intros Hw. split.
  - pose proof (lookup_spec key s Hw) as H. destruct (imr_lsm_tree_lookup_locked key s). naive_solver.
  - destruct (update_spec key pba valid ts s Hw) as (H1 & _ & H3). split; [done|]. rewrite H3.
    unfold cache_update. destruct (m_find _ _); [done|]. by destruct (kzalloc (hp s)) as [? []].
Qed.

Lemma rt_wf_init s : rt_wf (meta (imr_lsm_init_read_tree_locked s)).
Proof.
  split; [|split].
  - split; cbn; try done; try apply NoDup_nil_2. intros k. split; [by intros ?%elem_of_nil|by intros []].
  - cbn. unfold IMR_LSM_READ_TREE_LIMIT. lia.
  - done.
Qed.

Lemma read_tree_is_lru_cache_witness :
  cache (meta (imr_lsm_tree_update_locked 7 80 true 1 (imr_lsm_init_read_tree_locked static_state))) =
  [(7, MkReadNode 80 true 1)].
Proof.
  destruct (read_tree_is_lru_cache 7 80 true 1 (imr_lsm_init_read_tree_locked static_state)) as [_ [_ H]].
  - apply rt_wf_init.
  - rewrite H. reflexivity.
Defined.
