(* ===== verification/ImrLevels.v ===== *)
(** LSM level sizing and compaction picking ([dm-imrsim.c], from
    [imr_lsm_compaction_threshold_locked] to
    [imr_lsm_calculate_dynamic_levels_locked], and from
    [imr_lsm_compaction_dst_level_locked] to
    [imr_lsm_mark_level_compaction_pending_locked]). *)

From S2P Require Import Prelude StdMap ImrPrelude ImrBloom ImrState.

Definition imr_lsm_compaction_threshold_locked (s : kstate) : Z :=
  let t := cfg_compaction_threshold (cfg s) in if negb (t =? 0) then t else IMR_LSM_COMPACTION_THRESHOLD.
Definition imr_lsm_max_bytes_for_level_base_locked (s : kstate) : Z :=
  let b := cfg_max_bytes_for_level_base (cfg s) in if negb (b =? 0) then b else IMR_LSM_MAX_BYTES_FOR_LEVEL_BASE_DEFAULT.
Definition imr_lsm_max_bytes_for_level_multiplier_locked (s : kstate) : Z :=
  let m := cfg_max_bytes_for_level_multiplier (cfg s) in if negb (m =? 0) then m else IMR_LSM_LEVEL_RATIO_DEFAULT.
Definition IMR_LSM_BLOOM_BITS_PER_KEY : Z := 10.
Definition imr_lsm_bloom_bits_per_key_locked (s : kstate) : Z :=
  let b := cfg_bloom_bits_per_key (cfg s) in if negb (b =? 0) then b else IMR_LSM_BLOOM_BITS_PER_KEY.
Definition imr_lsm_reset_validation_overrides_locked (s : kstate) : kstate := set_cfg default_config s.

(** [imr_lsm_meta.level_max_bytes[level]] *)
Definition max_bytes (level : Z) (s : kstate) : Z := default 0 (nthZ (level_max_bytes (meta s)) level).

Definition imr_lsm_level_target_bytes_locked (level : Z) (s : kstate) : Z :=
  if level =? 0 then u64 (imr_lsm_compaction_threshold_locked s * IMR_LSM_RECORD_BYTES)
  else if (level >=? IMR_LSM_LEVELS) || (max_bytes level s =? 0) || (max_bytes level s =? U64_MAX) then 0
  else max_bytes level s.

Definition imr_lsm_level_capacity (level : Z) (s : kstate) : Z :=
  if (level =? 0) || (level >=? IMR_LSM_LEVELS) then imr_lsm_compaction_threshold_locked s
  else
    let target_bytes := imr_lsm_level_target_bytes_locked level s in
    if target_bytes =? 0 then imr_lsm_compaction_threshold_locked s
    else
      let target_entries := target_bytes / IMR_LSM_RECORD_BYTES in
      let target_entries := if negb (target_bytes mod IMR_LSM_RECORD_BYTES =? 0) then target_entries [+] 1 else target_entries in
      if target_entries =? 0 then 1
      else if target_entries >? U32_MAX then U32_MAX
      else u32 target_entries.

Definition imr_lsm_level_total_count_locked (i : Z) (s : kstate) : Z :=
  u32 (unsorted_count (level i s) + sorted_count (level i s)).
Definition imr_lsm_level_actual_bytes_locked (i : Z) (s : kstate) : Z :=
  u64 (imr_lsm_level_total_count_locked i s * IMR_LSM_RECORD_BYTES).

Definition imr_lsm_div_round_up_u64 (value divisor : Z) : Z :=
  if divisor =? 0 then value
  else
    let quotient := value / divisor in
    if negb (value mod divisor =? 0) then quotient [+] 1 else quotient.

(** [for(level = IMR_LSM_MAX_LEVEL - 1; level >= 1; level--)] *)
Fixpoint level1_loop (level : nat) (last_level_bytes multiplier : Z) : Z :=
  match level with
  | O => last_level_bytes
  | S level => level1_loop level (imr_lsm_div_round_up_u64 last_level_bytes multiplier) multiplier
  end.
Definition imr_lsm_level1_target_for_multiplier (last_level_bytes multiplier : Z) : Z :=
  level1_loop 5 last_level_bytes multiplier.

(** The doubling loop and the binary search; 33 rounds of each cover 32 bits
    ([effective_multiplier_spec]). *)
Fixpoint grow_loop (fuel : nat) (max_level_bytes base_bytes_max high : Z) : Z :=
  match fuel with
  | O => high
  | S fuel =>
      if high <? U32_MAX then
        let high := if high >? U32_MAX / 2 then U32_MAX else u32 (high * 2) in
        if imr_lsm_level1_target_for_multiplier max_level_bytes high <=? base_bytes_max then high
        else grow_loop fuel max_level_bytes base_bytes_max high
      else high
  end.
Fixpoint search_loop (fuel : nat) (max_level_bytes base_bytes_max low high : Z) : Z :=
  match fuel with
  | O => low
  | S fuel =>
      if low <? high then
        let middle := u32 (low + u32 (high - low) / 2) in
        if imr_lsm_level1_target_for_multiplier max_level_bytes middle <=? base_bytes_max
        then search_loop fuel max_level_bytes base_bytes_max low middle
        else search_loop fuel max_level_bytes base_bytes_max (u32 (middle + 1)) high
      else low
  end.
Definition imr_lsm_effective_level_multiplier (max_level_bytes base_bytes_max configured_multiplier : Z) : Z :=
  if imr_lsm_level1_target_for_multiplier max_level_bytes configured_multiplier <=? base_bytes_max then configured_multiplier
  else
    let high := grow_loop 33 max_level_bytes base_bytes_max configured_multiplier in
    search_loop 33 max_level_bytes base_bytes_max configured_multiplier high.

(** The backward loop from level 5: targets and base level. *)
Fixpoint targets_loop (level : nat) (multiplier base_min base_max current : Z) (targets : list Z) (base : Z) : list Z * Z :=
  match level with
  | O => (targets, base)
  | S below =>
      let previous := imr_lsm_div_round_up_u64 current multiplier in
      let targets := updZ targets (Z.of_nat level) previous in
      if previous <=? base_max then
        ((if previous <=? base_min then updZ targets (Z.of_nat level) (base_min [+] 1) else targets), Z.of_nat level)
      else targets_loop below multiplier base_min base_max previous targets (Z.of_nat level)
  end.

(** [1; ...; 6]: the levels the sizing loops visit. *)
Definition upper_levels : list Z := [1; 2; 3; 4; 5; 6].

Definition imr_lsm_calculate_dynamic_levels_locked (s : kstate) : kstate :=
  let base_bytes_max := imr_lsm_max_bytes_for_level_base_locked s in
  let level_multiplier := imr_lsm_max_bytes_for_level_multiplier_locked s in
  let max_level_bytes :=
    fold_left (fun mx l => let b := imr_lsm_level_actual_bytes_locked l s in if b >? mx then b else mx) upper_levels 0 in
  let level_multiplier :=
    if max_level_bytes >? base_bytes_max
    then imr_lsm_effective_level_multiplier max_level_bytes base_bytes_max level_multiplier else level_multiplier in
  let base_bytes_min := base_bytes_max / level_multiplier in
  let base_bytes_min := if base_bytes_min =? 0 then 1 else base_bytes_min in
  let unset := replicate 7 U64_MAX in
  let '(targets, base) :=
    if max_level_bytes <=? base_bytes_max then (updZ unset IMR_LSM_MAX_LEVEL base_bytes_max, IMR_LSM_MAX_LEVEL)
    else targets_loop 5 level_multiplier base_bytes_min base_bytes_max max_level_bytes
           (updZ unset IMR_LSM_MAX_LEVEL max_level_bytes) IMR_LSM_MAX_LEVEL in
  let lowest :=
    fold_left (fun r l => if (l <? base) && negb (imr_lsm_level_total_count_locked l s =? 0) then l else r) upper_levels (-1) in
  upd_meta (fun m => set_lowest_unnecessary_level lowest (set_base_level base (set_level_max_bytes targets
    (set_effective_level_multiplier level_multiplier (set_active_write_level 0 m))))) s.

(** [for(dst = level + 1; dst < IMR_LSM_LEVELS; dst++)] *)
Fixpoint dst_loop (fuel : nat) (dst : Z) (s : kstate) : Z :=
  match fuel with
  | O => IMR_LSM_MAX_LEVEL
  | S fuel =>
      if dst <? IMR_LSM_LEVELS then
        if negb (max_bytes dst s =? U64_MAX) then dst else dst_loop fuel (dst + 1) s
      else IMR_LSM_MAX_LEVEL
  end.
Definition imr_lsm_compaction_dst_level_locked (level : Z) (s : kstate) : kstate * Z :=
  if level >=? IMR_LSM_MAX_LEVEL then (s, IMR_LSM_MAX_LEVEL)
  else let s := imr_lsm_calculate_dynamic_levels_locked s in (s, dst_loop 7 (level + 1) s).

Definition imr_lsm_compaction_score_locked (level total_downcompact_bytes : Z) (s : kstate) : Z :=
  if level >=? IMR_LSM_LEVELS - 1 then 0
  else if level =? 0 then
    let level_entries := imr_lsm_level_total_count_locked level s in
    if level_entries =? 0 then 0
    else level_entries [*] IMR_LSM_SCORE_SCALE / imr_lsm_compaction_threshold_locked s
  else
    let level_bytes := imr_lsm_level_actual_bytes_locked level s in
    let lowest := lowest_unnecessary_level (meta s) in
    if level_bytes =? 0 then 0
    else if (lowest >=? 0) && (level <=? u32 lowest)
    then u64 (IMR_LSM_SCORE_SCALE * IMR_LSM_SCORE_BOOST + 1 + u32 (u32 lowest - level))
    else
      let target := imr_lsm_level_target_bytes_locked level s in
      let target := if target =? 0 then 1 else target in
      let denominator := target [+] total_downcompact_bytes in
      let denominator := if denominator <? target then U64_MAX else denominator in
      level_bytes [*] IMR_LSM_SCORE_SCALE / denominator.

(** What a level adds to the bytes that move down. *)
Definition downcompact_bytes (level : Z) (s : kstate) : Z :=
  let level_entries := imr_lsm_level_total_count_locked level s in
  let level_bytes := imr_lsm_level_actual_bytes_locked level s in
  let target_bytes := imr_lsm_level_target_bytes_locked level s in
  let lowest := lowest_unnecessary_level (meta s) in
  if level =? 0 then if level_entries >=? imr_lsm_compaction_threshold_locked s then level_bytes else 0
  else if (lowest >=? 0) && (level <=? u32 lowest) then level_bytes
  else if negb (target_bytes =? 0) && (level_bytes >? target_bytes) then level_bytes [-] target_bytes
  else 0.

Record pick := MkPick { pk_level : Z; pk_score : Z; pk_total : Z }.
Definition pick_step (s : kstate) (p : pick) (level : Z) : pick :=
  let score := imr_lsm_compaction_score_locked level (pk_total p) s in
  let '(bl, bs) := if score >? pk_score p then (level, score) else (pk_level p, pk_score p) in
  MkPick bl bs (pk_total p [+] downcompact_bytes level s).
Definition imr_lsm_pick_compaction_level_locked (s : kstate) : kstate * Z :=
  let s := imr_lsm_calculate_dynamic_levels_locked s in
  let p := fold_left (pick_step s) [0; 1; 2; 3; 4; 5] (MkPick IMR_LSM_LEVELS 0 0) in
  (s, if pk_score p >=? IMR_LSM_SCORE_SCALE then pk_level p else IMR_LSM_LEVELS).

Definition imr_lsm_level_compaction_needed_locked (s : kstate) : kstate * bool :=
  let s := imr_lsm_calculate_dynamic_levels_locked s in
  if unsorted_count (level 0 s) >=? imr_lsm_compaction_threshold_locked s then (s, true)
  else if (base_level (meta s) <? IMR_LSM_MAX_LEVEL) && negb (unsorted_count (level IMR_LSM_MAX_LEVEL s) =? 0) then (s, true)
  else let '(s, l) := imr_lsm_pick_compaction_level_locked s in (s, l <? IMR_LSM_LEVELS).

Definition imr_lsm_mark_level_compaction_pending_locked (s : kstate) : kstate :=
  let '(s, needed) := imr_lsm_level_compaction_needed_locked s in
  if negb needed then s
  else if level_compaction_pending (meta s) then s
  else st_inc "level_compaction_work_schedule_count" (upd_meta (set_level_compaction_pending true) s).

(** ** Lemmas *)

Definition in_u64 (x : Z) : Prop := 0 <= x < 2 ^ 64.
Definition in_u32 (x : Z) : Prop := 0 <= x < 2 ^ 32.

(** Rounded-up division: the least [q] with [value <= q * divisor]. *)
Lemma div_round_up_spec value divisor q :
  in_u64 value -> 1 <= divisor ->
  imr_lsm_div_round_up_u64 value divisor = q <-> (q - 1) * divisor < value <= q * divisor.
Proof.
  intros Hv Hd. unfold imr_lsm_div_round_up_u64, in_u64 in *. replace (divisor =? 0) with false by lia.
  pose proof (Z.div_mod value divisor ltac:(lia)) as E. pose proof (Z.mod_pos_bound value divisor ltac:(lia)) as Hm.
  assert (0 <= value / divisor) by (apply Z.div_pos; lia).
  destruct (value mod divisor =? 0) eqn:Em; cbn [negb].
  - split; [intros <-|]; nia.
  - assert (value / divisor + 1 < 2 ^ 64) by nia. rewrite u64_small by lia. split; [intros <-|]; nia.
Qed.

Lemma div_round_up_range value divisor :
  in_u64 value -> 1 <= divisor -> 0 <= imr_lsm_div_round_up_u64 value divisor <= value.
Proof.
  intros Hv Hd. destruct (proj1 (div_round_up_spec value divisor _ Hv Hd) eq_refl). unfold in_u64 in *. nia.
Qed.

Lemma div_round_up_mono v1 v2 d1 d2 :
  in_u64 v2 -> 0 <= v1 <= v2 -> 1 <= d2 <= d1 -> imr_lsm_div_round_up_u64 v1 d1 <= imr_lsm_div_round_up_u64 v2 d2.
Proof.
  intros Hv2 Hv Hd. assert (in_u64 v1) as Hv1 by (unfold in_u64 in *; lia).
  destruct (proj1 (div_round_up_spec v1 d1 _ Hv1 ltac:(lia)) eq_refl).
  destruct (proj1 (div_round_up_spec v2 d2 _ Hv2 ltac:(lia)) eq_refl).
  pose proof (div_round_up_range v2 d2 Hv2 ltac:(lia)). nia.
Qed.

Lemma level1_loop_mono n : forall v1 v2 m1 m2,
  in_u64 v2 -> 0 <= v1 <= v2 -> 1 <= m2 <= m1 -> level1_loop n v1 m1 <= level1_loop n v2 m2.
Proof.
  induction n as [|n IH]; intros v1 v2 m1 m2 Hv2 Hv Hm; cbn; [lia|].
  pose proof (div_round_up_range v2 m2 Hv2 ltac:(lia)) as Hr.
  assert (in_u64 v1) as Hv1 by (unfold in_u64 in *; lia).
  pose proof (div_round_up_range v1 m1 Hv1 ltac:(lia)).
  apply IH; [unfold in_u64 in *; lia|split; [lia|by apply div_round_up_mono]|done].
Qed.

(** A larger multiplier never gives a larger level 1. *)
Lemma level1_antitone v m1 m2 :
  in_u64 v -> 1 <= m1 <= m2 -> imr_lsm_level1_target_for_multiplier v m2 <= imr_lsm_level1_target_for_multiplier v m1.
Proof. intros Hv Hm. apply level1_loop_mono; [done|unfold in_u64 in *; lia|done]. Qed.

(** The largest multiplier brings any size down to at most one byte. *)
Lemma level1_at_max v : in_u64 v -> imr_lsm_level1_target_for_multiplier v U32_MAX <= 1.
Proof.
  intros Hv. transitivity (imr_lsm_level1_target_for_multiplier U64_MAX U32_MAX); [|reflexivity || (vm_compute; discriminate)].
  apply level1_loop_mono; unfold in_u64, U64_MAX, U32_MAX in *; lia.
Qed.

Lemma grow_loop_spec fuel v b : forall h,
  in_u64 v -> 1 <= b -> 1 <= h <= U32_MAX -> U32_MAX <= h * 2 ^ Z.of_nat fuel ->
  b < imr_lsm_level1_target_for_multiplier v h ->
  let r := grow_loop fuel v b h in h <= r <= U32_MAX /\ imr_lsm_level1_target_for_multiplier v r <= b.
Proof.
  induction fuel as [|fuel IH]; intros h Hv Hb Hh Hf Ht; cbn [grow_loop]; cbv zeta.
  { cbn in Hf. assert (h = U32_MAX) as -> by lia. pose proof (level1_at_max v Hv). lia. }
  change (U32_MAX / 2) with 2147483647.
  destruct (h <? U32_MAX) eqn:E.
  2: { assert (h = U32_MAX) as -> by lia. pose proof (level1_at_max v Hv). lia. }
  set (h' := if h >? 2147483647 then U32_MAX else u32 (h * 2)).
  assert (h < h' <= U32_MAX /\ (h' = U32_MAX \/ h' = h * 2)) as Hh'.
  { subst h'. unfold U32_MAX in *. destruct (h >? 2147483647) eqn:E2; [lia|]. rewrite u32_small; lia. }
  clearbody h'. destruct Hh' as [Hl Hor]. destruct (imr_lsm_level1_target_for_multiplier v h' <=? b) eqn:E1; [split; lia|].
  assert (0 < 2 ^ Z.of_nat fuel) by (apply Z.pow_pos_nonneg; lia).
  rewrite Nat2Z.inj_succ, Z.pow_succ_r in Hf by lia.
  assert (U32_MAX <= h' * 2 ^ Z.of_nat fuel) by (unfold U32_MAX in *; destruct Hor; nia).
  destruct (IH h') as [I1 I2]; [done|done|lia|done|lia|]. split; [lia|done].
Qed.

Lemma search_loop_spec fuel v b : forall c low high,
  in_u64 v -> 1 <= c <= low -> low <= high <= U32_MAX -> high - low < 2 ^ Z.of_nat fuel ->
  imr_lsm_level1_target_for_multiplier v high <= b ->
  (forall m, c <= m < low -> b < imr_lsm_level1_target_for_multiplier v m) ->
  let r := search_loop fuel v b low high in
  low <= r <= high /\ imr_lsm_level1_target_for_multiplier v r <= b /\
  (forall m, c <= m < r -> b < imr_lsm_level1_target_for_multiplier v m).
Proof.
  induction fuel as [|fuel IH]; intros c low high Hv Hc Hlh Hf Hh Hlow.
  { cbn in Hf. assert (low = high) as -> by lia. cbn. split_and!; [lia|lia|done|done]. }
  cbn [search_loop]. destruct (low <? high) eqn:E.
  2: { assert (low = high) as -> by lia. split_and!; [lia|lia|done|done]. }
  unfold U32_MAX in *. rewrite (u32_small (high - low)) by lia.
  pose proof (Z.div_mod (high - low) 2 ltac:(lia)). pose proof (Z.mod_pos_bound (high - low) 2 ltac:(lia)).
  rewrite Nat2Z.inj_succ, Z.pow_succ_r in Hf by lia.
  rewrite (u32_small (low + (high - low) / 2)) by lia. cbv zeta.
  set (mid := low + (high - low) / 2) in *. assert (low <= mid < high) as Hm by lia.
  destruct (imr_lsm_level1_target_for_multiplier v mid <=? b) eqn:Em.
  - destruct (IH c low mid) as (I1 & I2 & I3); [done|done|lia|lia|lia|done|]. split_and!; [lia|lia|done|done].
  - rewrite (u32_small (mid + 1)) by lia.
    destruct (IH c (mid + 1) high) as (I1 & I2 & I3); [done|lia|lia|lia|done| |split_and!; [lia|lia|done|done]].
    intros m Hmm. destruct (decide (m < low)); [apply Hlow; lia|].
    pose proof (level1_antitone v m mid Hv ltac:(lia)). lia.
Qed.

(** The effective multiplier is the least one, from the configured one up, that
    keeps level 1 within the base size. *)
Lemma effective_multiplier_least v b c :
  in_u64 v -> 1 <= b -> 1 <= c <= U32_MAX ->
  let r := imr_lsm_effective_level_multiplier v b c in
  c <= r <= U32_MAX /\ imr_lsm_level1_target_for_multiplier v r <= b /\
  (forall m, c <= m < r -> b < imr_lsm_level1_target_for_multiplier v m).
Proof.
  intros Hv Hb Hc. unfold imr_lsm_effective_level_multiplier.
  destruct (imr_lsm_level1_target_for_multiplier v c <=? b) eqn:E; cbv zeta; [split_and!; [lia..|intros; lia]|].
  destruct (grow_loop_spec 33 v b c) as [H1 H2]; [done|done|done|change (2 ^ Z.of_nat 33) with 8589934592; unfold U32_MAX in *; lia|lia|].
  set (h := grow_loop 33 v b c) in *.
  destruct (search_loop_spec 33 v b c c h) as (H3 & H4 & H5); [done|lia|lia|change (2 ^ Z.of_nat 33) with 8589934592; unfold U32_MAX in *; lia|done|intros; lia|].
  split_and!; [lia|lia|done|done].
Qed.

Lemma level1_loop_S n v m : level1_loop (S n) v m = imr_lsm_div_round_up_u64 (level1_loop n v m) m.
Proof. revert v. induction n as [|n IH]; intros v; [done|]. cbn [level1_loop] in *. by rewrite IH. Qed.

Lemma level1_loop_range n : forall v m, in_u64 v -> 1 <= m -> 0 <= level1_loop n v m <= v.
Proof.
  induction n as [|n IH]; intros v m Hv Hm; cbn [level1_loop]; [unfold in_u64 in *; lia|].
  pose proof (div_round_up_range v m Hv Hm). pose proof (IH (imr_lsm_div_round_up_u64 v m) m) as H1.
  unfold in_u64 in *. lia.
Qed.

(** The backward loop stops at the first level whose size fits the base size. *)
Lemma targets_loop_spec n m bmin bmax : forall cur targets base,
  in_u64 cur -> 1 <= m -> bmax < cur -> level1_loop n cur m <= bmax -> lenZ targets = 7 -> (n <= 5)%nat ->
  let r := targets_loop n m bmin bmax cur targets base in
  exists b, 1 <= b <= Z.of_nat n /\ r.2 = b /\ lenZ r.1 = 7 /\
    (forall j, b < j <= Z.of_nat n -> nthZ r.1 j = Some (level1_loop (Z.to_nat (Z.of_nat n - j + 1)) cur m) /\
               bmax < level1_loop (Z.to_nat (Z.of_nat n - j + 1)) cur m) /\
    level1_loop (Z.to_nat (Z.of_nat n - b + 1)) cur m <= bmax /\
    nthZ r.1 b = Some (let x := level1_loop (Z.to_nat (Z.of_nat n - b + 1)) cur m in if x <=? bmin then bmin [+] 1 else x) /\
    (forall j, (j < b \/ Z.of_nat n < j) -> nthZ r.1 j = nthZ targets j).
Proof.
  induction n as [|n IH]; intros cur targets base Hc Hm Hlt Hle Hlen Hn; [cbn in Hle; lia|].
  cbn [targets_loop level1_loop] in *. cbv zeta. set (p := imr_lsm_div_round_up_u64 cur m) in *.
  assert (in_u64 p) as Hp. { pose proof (div_round_up_range cur m Hc Hm). unfold in_u64 in *. lia. }
  set (lv := Z.of_nat (S n)) in *. assert (0 <= lv < 7) as Hlv by lia.
  assert (lenZ (updZ targets lv p) = 7) as Hlen2 by (by rewrite lenZ_updZ).
  destruct (p <=? bmax) eqn:E.
  - exists lv. cbn [fst snd]. replace (Z.to_nat (lv - lv + 1)) with 1%nat by lia. cbn [level1_loop]. fold p.
    split_and!; try lia; try (destruct (p <=? bmin); [rewrite lenZ_updZ|]; done).
    + destruct (p <=? bmin); [rewrite nthZ_updZ_eq by lia; done|rewrite nthZ_updZ_eq by lia; done].
    + intros j Hj. assert (lv <> j) by lia. destruct (p <=? bmin); [rewrite nthZ_updZ_ne by done|]; by rewrite nthZ_updZ_ne.
  - destruct (IH p (updZ targets lv p) lv Hp Hm) as (b & Hb & Hr & Hl & H1 & H2 & H3 & H4); [lia|done|done|lia|].
    assert (forall j, j <= Z.of_nat n -> level1_loop (Z.to_nat (lv - j + 1)) cur m = level1_loop (Z.to_nat (Z.of_nat n - j + 1)) p m) as Hs.
    { intros j Hj. replace (Z.to_nat (lv - j + 1)) with (S (Z.to_nat (Z.of_nat n - j + 1))) by lia. done. }
    exists b. split_and!; [lia|lia|done|done| |..].
    + intros j Hj. destruct (decide (j = lv)) as [->|]; [|rewrite Hs by lia; apply H1; lia].
      rewrite H4 by lia. rewrite nthZ_updZ_eq by lia. replace (Z.to_nat (lv - lv + 1)) with 1%nat by lia. cbn [level1_loop]. fold p.
      split; [done|lia].
    + by rewrite Hs by lia.
    + by rewrite Hs by lia.
    + intros j Hj. rewrite H4 by lia. apply nthZ_updZ_ne. lia.
Qed.

(** The configured values, as the debugfs files bound them. *)
Definition cfg_ok (s : kstate) : Prop :=
  2 <= imr_lsm_max_bytes_for_level_base_locked s < 2 ^ 63 /\
  2 <= imr_lsm_max_bytes_for_level_multiplier_locked s <= U32_MAX /\
  1 <= imr_lsm_compaction_threshold_locked s <= U32_MAX.

(** The largest level. *)
Definition largest_level_bytes (s : kstate) : Z :=
  fold_right Z.max 0 (map (fun l => imr_lsm_level_actual_bytes_locked l s) upper_levels).

Lemma largest_fold (f : Z -> Z) (l : list Z) : forall a,
  0 <= a -> (forall x, 0 <= f x) ->
  fold_left (fun mx l => let b := f l in if b >? mx then b else mx) l a = Z.max a (fold_right Z.max 0 (map f l)).
Proof.
  induction l as [|x l IH]; intros a Ha Hf; cbn; [lia|]. rewrite IH; [|destruct (f x >? a) eqn:E; pose proof (Hf x); lia|done].
  destruct (f x >? a) eqn:E; lia.
Qed.

Lemma largest_level_range s : in_u64 (largest_level_bytes s).
Proof.
  unfold largest_level_bytes. induction upper_levels as [|x l IH]; cbn; [unfold in_u64; lia|].
  pose proof (u64_range (imr_lsm_level_total_count_locked x s * IMR_LSM_RECORD_BYTES)).
  unfold imr_lsm_level_actual_bytes_locked, in_u64 in *. lia.
Qed.

Lemma lowest_fold (f : Z -> bool) : forall l r,
  fold_left (fun r l => if f l then l else r) l r = default r (last (List.filter f l)).
Proof.
  induction l as [|x l IH]; intros r; cbn; [done|]. rewrite IH. destruct (f x); cbn; [|done].
  destruct (List.filter f l) as [|z k]; [done|].
  destruct (proj2 (last_is_Some (z :: k)) ltac:(done)) as [w Hw]. change (last (x :: z :: k)) with (last (z :: k)).
  by rewrite Hw.
Qed.

(** What [imr_lsm_calculate_dynamic_levels_locked] leaves alone. *)
Definition no_shape (s : kstate) : kstate :=
  upd_meta (fun m => set_lowest_unnecessary_level 0 (set_base_level 0 (set_level_max_bytes []
    (set_effective_level_multiplier 0 (set_active_write_level 0 m))))) s.

Lemma calc_no_shape s : no_shape (imr_lsm_calculate_dynamic_levels_locked s) = no_shape s.
Proof.
  unfold imr_lsm_calculate_dynamic_levels_locked. cbv zeta. by destruct (if _ <=? _ then _ else _).
Qed.
Lemma calc_active_level s : active_write_level (meta (imr_lsm_calculate_dynamic_levels_locked s)) = 0.
Proof.
  unfold imr_lsm_calculate_dynamic_levels_locked. cbv zeta. by destruct (if _ <=? _ then _ else _).
Qed.

Definition level_size_of (s : kstate) (j : Z) : option Z := nthZ (level_max_bytes (meta s)) j.

(** The sizing of the levels. *)
Record sized (s s' : kstate) : Prop := {
  sz_base : 1 <= base_level (meta s') <= IMR_LSM_MAX_LEVEL;
  sz_mult : imr_lsm_max_bytes_for_level_multiplier_locked s <= effective_level_multiplier (meta s') <= U32_MAX;
  sz_below : forall j, 0 <= j < base_level (meta s') -> level_size_of s' j = Some U64_MAX;
  sz_small : largest_level_bytes s <= imr_lsm_max_bytes_for_level_base_locked s ->
    base_level (meta s') = IMR_LSM_MAX_LEVEL /\
    level_size_of s' IMR_LSM_MAX_LEVEL = Some (imr_lsm_max_bytes_for_level_base_locked s);
  sz_large : imr_lsm_max_bytes_for_level_base_locked s < largest_level_bytes s ->
    base_level (meta s') < IMR_LSM_MAX_LEVEL /\
    level_size_of s' IMR_LSM_MAX_LEVEL = Some (largest_level_bytes s) /\
    (forall j, base_level (meta s') < j < IMR_LSM_MAX_LEVEL -> exists x y,
       level_size_of s' j = Some x /\ level_size_of s' (j + 1) = Some y /\ imr_lsm_max_bytes_for_level_base_locked s < x /\
       x = imr_lsm_div_round_up_u64 y (effective_level_multiplier (meta s'))) /\
    (exists x, level_size_of s' (base_level (meta s')) = Some x /\
       imr_lsm_max_bytes_for_level_base_locked s / effective_level_multiplier (meta s') < x <= imr_lsm_max_bytes_for_level_base_locked s);
  sz_lowest : lowest_unnecessary_level (meta s') =
    default (-1) (last (List.filter (fun l => (l <? base_level (meta s')) && negb (imr_lsm_level_total_count_locked l s =? 0)) upper_levels));
}.

#[local] Arguments largest_level_bytes : simpl never.
#[local] Arguments upper_levels : simpl never.
#[local] Arguments imr_lsm_max_bytes_for_level_base_locked : simpl never.
#[local] Arguments imr_lsm_max_bytes_for_level_multiplier_locked : simpl never.
#[local] Arguments imr_lsm_level_total_count_locked : simpl never.

Lemma calc_sized s : cfg_ok s -> sized s (imr_lsm_calculate_dynamic_levels_locked s).
Proof.
  intros (Hb & Hm & _). pose proof (largest_level_range s) as HM.
  unfold imr_lsm_calculate_dynamic_levels_locked.
  rewrite (largest_fold (fun l => imr_lsm_level_actual_bytes_locked l s)) by
    (try lia; intros x; unfold imr_lsm_level_actual_bytes_locked; apply u64_range).
  fold (largest_level_bytes s). rewrite Z.max_r by (unfold in_u64 in HM; lia). cbv zeta.
  set (B := imr_lsm_max_bytes_for_level_base_locked s) in *. set (M := largest_level_bytes s) in *.
  set (c := imr_lsm_max_bytes_for_level_multiplier_locked s) in *.
  destruct (M <=? B) eqn:E.
  - replace (M >? B) with false by lia.
    split; unfold level_size_of; cbn; fold B c M.
    + unfold IMR_LSM_MAX_LEVEL. lia.
    + lia.
    + intros j Hj. unfold IMR_LSM_MAX_LEVEL in Hj. assert (j = 0 \/ j = 1 \/ j = 2 \/ j = 3 \/ j = 4 \/ j = 5) as Hc by lia.
      by destruct_or! Hc; subst.
    + done.
    + intros ?. exfalso. lia.
    + by rewrite lowest_fold.
  - replace (M >? B) with true by lia.
    destruct (effective_multiplier_least M B c HM ltac:(lia) ltac:(lia)) as (H1 & H2 & _).
    set (m := imr_lsm_effective_level_multiplier M B c) in *.
    set (bmin := if B / m =? 0 then 1 else B / m).
    assert (1 <= bmin /\ B / m <= bmin /\ bmin + 1 <= B) as Hbm.
    { assert (0 <= B / m) by (apply Z.div_pos; lia). assert (B / m <= B / 2) by (apply Z.div_le_compat_l; lia).
      assert (B / 2 < B) by (apply Z.div_lt; lia). subst bmin. destruct (B / m =? 0) eqn:E0; lia. }
    set (targets := updZ (replicate 7 U64_MAX) IMR_LSM_MAX_LEVEL M).
    destruct (targets_loop_spec 5 m bmin B M targets IMR_LSM_MAX_LEVEL) as (b & Hbr & Hr2 & Hl & T1 & T2 & T3 & T4);
      [done|lia|lia|exact H2|done|lia|].
    destruct (targets_loop 5 m bmin B M targets IMR_LSM_MAX_LEVEL) as [ts base]. cbn [fst snd] in *. subst base.
    change (Z.of_nat 5) with 5 in *.
    assert (nthZ ts 6 = Some M) as H6 by (rewrite T4 by lia; done).
    split; unfold level_size_of; cbn; fold B c M.
    + unfold IMR_LSM_MAX_LEVEL. lia.
    + lia.
    + intros j Hj. rewrite T4 by lia. assert (j = 0 \/ j = 1 \/ j = 2 \/ j = 3 \/ j = 4) as Hc by lia.
      by destruct_or! Hc; subst.
    + intros ?. exfalso. lia.
    + intros _. split_and!; [unfold IMR_LSM_MAX_LEVEL; lia|exact H6| |].
      * intros j Hj. unfold IMR_LSM_MAX_LEVEL in Hj. destruct (T1 j ltac:(lia)) as [Hx Hlt].
        destruct (decide (j = 5)) as [->|].
        -- exists (imr_lsm_div_round_up_u64 M m), M. split_and!; [exact Hx|exact H6|exact Hlt|done].
        -- destruct (T1 (j + 1) ltac:(lia)) as [Hy _]. eexists _, _. split_and!; [exact Hx|exact Hy|done|].
           replace (Z.to_nat (5 - j + 1)) with (S (Z.to_nat (5 - (j + 1) + 1))) by lia. by rewrite level1_loop_S.
      * eexists. split; [exact T3|]. cbv zeta. set (x := level1_loop _ M m) in *. destruct (x <=? bmin) eqn:Ex; [|lia].
        rewrite u64_small by lia. lia.
    + by rewrite lowest_fold.
Qed.

(** C28: Dynamic level sizing. With a base size B of at least 2 bytes and a
    multiplier of at least 2, sizing the levels always succeeds: when the largest
    level fits B, the base level is the last level with target B; otherwise the
    last level's target is the largest level, every level above it down to the
    base level is the next one divided by the effective multiplier rounded up,
    the base level is the first whose target is at most B and its target lies in
    (B / multiplier, B]; the effective multiplier is at least the configured one,
    levels above the base have no target, and the level to drain is the deepest
    non-empty one among them. *)
Theorem dynamic_levels_sized s : cfg_ok s -> sized s (imr_lsm_calculate_dynamic_levels_locked s).
Proof. apply calc_sized. Qed.

Lemma dynamic_levels_sized_witness : sized static_state (imr_lsm_calculate_dynamic_levels_locked static_state).
Proof. apply dynamic_levels_sized. split_and!; vm_compute; congruence. Defined.

(** The effective level multiplier is the least multiplier, from the
    configured one up, for which level 1 fits the base size; it always exists
    within 32 bits, so the doubling loop and the binary search terminate with it. *)
Theorem effective_multiplier_spec max_level_bytes base configured :
  0 <= max_level_bytes < 2 ^ 64 -> 1 <= base -> 1 <= configured <= U32_MAX ->
  let r := imr_lsm_effective_level_multiplier max_level_bytes base configured in
  configured <= r <= U32_MAX /\ imr_lsm_level1_target_for_multiplier max_level_bytes r <= base /\
  (forall m, configured <= m < r -> base < imr_lsm_level1_target_for_multiplier max_level_bytes m).
Proof. apply effective_multiplier_least. Qed.

Lemma effective_multiplier_spec_witness :
  let r := imr_lsm_effective_level_multiplier 1000000 512 2 in
  2 <= r <= U32_MAX /\ imr_lsm_level1_target_for_multiplier 1000000 r <= 512 /\
  (forall m, 2 <= m < r -> 512 < imr_lsm_level1_target_for_multiplier 1000000 m).
Proof. apply (effective_multiplier_spec 1000000 512 2); unfold U32_MAX; lia. Defined.

(** ** Picking *)

(** The bytes that move down from the levels above [level], and the score of a
    level with them. *)
Definition total_above (level : nat) (s : kstate) : Z :=
  fold_left (fun t x => t [+] downcompact_bytes x s) (map Z.of_nat (seq 0 level)) 0.
Definition level_score (level : nat) (s : kstate) : Z :=
  imr_lsm_compaction_score_locked (Z.of_nat level) (total_above level s) s.

Lemma total_above_S n s : total_above (S n) s = total_above n s [+] downcompact_bytes (Z.of_nat n) s.
Proof. unfold total_above. by rewrite seq_S, map_app, fold_left_app. Qed.

Lemma pick_prefix s n :
  let p := fold_left (pick_step s) (map Z.of_nat (seq 0 n)) (MkPick IMR_LSM_LEVELS 0 0) in
  pk_total p = total_above n s /\ (forall i, (i < n)%nat -> level_score i s <= pk_score p) /\ 0 <= pk_score p /\
  (pk_score p = 0 \/ exists i, (i < n)%nat /\ pk_level p = Z.of_nat i /\ pk_score p = level_score i s).
Proof.
  induction n as [|n IH]; [split_and!; [done|lia|done|by left]|].
  rewrite seq_S, map_app, fold_left_app. cbn [map fold_left] in *. cbv zeta in *. change (0 + n)%nat with n.
  set (p := fold_left _ _ _) in *. destruct IH as (I1 & I2 & I3 & I4).
  unfold pick_step. rewrite I1. fold (level_score n s). split_and!.
  - rewrite total_above_S. by destruct (_ >? _).
  - intros i Hi. destruct (level_score n s >? pk_score p) eqn:E; cbn; (destruct (decide (i = n)) as [->|]; [lia|]);
      pose proof (I2 i ltac:(lia)); lia.
  - destruct (level_score n s >? pk_score p) eqn:E; cbn; lia.
  - destruct (level_score n s >? pk_score p) eqn:E; cbn; [right; exists n; split_and!; [lia|done|done]|].
    destruct I4 as [|(i & Hi & ? & ?)]; [by left|]. right. exists i. split_and!; [lia|done|done].
Qed.

(** The picker chooses a level with the highest score among levels 0 to 5,
    and only one whose score reaches the scale (1000); when it reports no level,
    every score is below the scale. *)
Theorem pick_compaction_level_spec s :
  let '(s', l) := imr_lsm_pick_compaction_level_locked s in
  (l = IMR_LSM_LEVELS /\ (forall i, (i < 6)%nat -> level_score i s' < IMR_LSM_SCORE_SCALE)) \/
  (exists n, l = Z.of_nat n /\ (n < 6)%nat /\ IMR_LSM_SCORE_SCALE <= level_score n s' /\
     (forall i, (i < 6)%nat -> level_score i s' <= level_score n s')).
Proof.
  unfold imr_lsm_pick_compaction_level_locked. set (s' := imr_lsm_calculate_dynamic_levels_locked s).
  destruct (pick_prefix s' 6) as (_ & H2 & H3 & H4). cbv zeta in *.
  change (map Z.of_nat (seq 0 6)) with [0; 1; 2; 3; 4; 5] in *.
  set (p := fold_left _ _ _) in *. destruct (pk_score p >=? IMR_LSM_SCORE_SCALE) eqn:E.
  - right. unfold IMR_LSM_SCORE_SCALE in *. destruct H4 as [|(i & Hi & Hl & Hs)]; [lia|]. exists i.
    split_and!; [done|done|lia|]. intros j Hj. rewrite <- Hs. by apply H2.
  - left. split; [done|]. intros i Hi. specialize (H2 i Hi). lia.
Qed.

Lemma level0_score s :
  cfg_ok s -> imr_lsm_compaction_threshold_locked s <= imr_lsm_level_total_count_locked 0 s ->
  IMR_LSM_SCORE_SCALE <= level_score 0 s.
Proof.
  intros (_ & _ & Ht) Hc. unfold level_score, imr_lsm_compaction_score_locked. change (Z.of_nat 0) with 0. cbn [Z.geb Z.compare].
  unfold IMR_LSM_SCORE_SCALE, IMR_LSM_LEVELS, U32_MAX in *.
  assert (0 <= imr_lsm_level_total_count_locked 0 s < 2 ^ 32) as Hr by apply u32_range.
  replace (0 >=? 7 - 1) with false by lia. replace (0 =? 0) with true by lia. cbv zeta.
  replace (imr_lsm_level_total_count_locked 0 s =? 0) with false by lia.
  rewrite u64_small by lia. apply Z.div_le_lower_bound; lia.
Qed.
