(* ===== verification/ImrSegment.v ===== *)
(** Segments: the block table builder, the binary search, and preparing a segment
    ([dm-imrsim.c], from [imr_lsm_segment_builder_release] to
    [imr_lsm_block_entry_key_compare], and [imr_lsm_segment_block_table_find]). *)

From Stdlib Require Import Sorted.
From S2P Require Import Prelude StdMap ImrPrelude ImrBloom ImrState.

(** [struct imr_lsm_segment_builder]; [block_table_count] is the length of the table. *)
Record builder := MkBuilder {
  sb_node_count : Z;
  sb_zone_idx : Z;
  sb_min_key : Z;
  sb_max_key : Z;
  sb_min_timestamp : Z;
  sb_max_timestamp : Z;
  sb_table : list block_entry;
  sb_capacity : Z;
}.
Definition empty_builder : builder := MkBuilder 0 0 0 0 0 0 [] 0.
Definition set_table (t : list block_entry) (capacity : Z) (b : builder) : builder :=
  MkBuilder (sb_node_count b) (sb_zone_idx b) (sb_min_key b) (sb_max_key b) (sb_min_timestamp b) (sb_max_timestamp b) t capacity.

Definition imr_lsm_segment_builder_release (b : builder) : builder := set_table [] 0 b.

(** [sizeof(struct imr_lsm_block_entry)] on x86-64. *)
Definition sizeof_block_entry : Z := 80.

(** [threshold] is [imr_lsm_compaction_threshold_locked()]. *)
Definition imr_lsm_segment_builder_reserve_block_table (threshold : Z) (b : builder) (h : heap) : heap * cres builder :=
  if lenZ (sb_table b) <? sb_capacity b then (h, Ok b)
  else
    let grow (new_capacity : Z) :=
      if new_capacity >? U64_MAX / sizeof_block_entry then (h, Fail (- ENOMEM))
      else match kzalloc h with
           | (h, None) => (h, Fail (- ENOMEM))
           | (h, Some _) => (h, Ok (set_table (sb_table b) new_capacity b))
           end in
    if negb (sb_capacity b =? 0) then
      if sb_capacity b >? U32_MAX / 2 then (h, Fail (- ENOMEM)) else grow (u32 (sb_capacity b * 2))
    else grow threshold.

(** [while(pos < count && block_table[pos].key < key) pos++;] *)
Fixpoint scan_pos (t : list block_entry) (key : Z) : nat :=
  match t with
  | [] => 0
  | e :: t => if be_key e <? key then S (scan_pos t key) else 0
  end.

(** A fresh entry: [memset], then the record. *)
Definition new_entry (key pba zone_idx : Z) (valid : bool) (ts : Z) : block_entry :=
  MkEntry key pba zone_idx 0 0 false false false false false valid ts false false false false false.

(** The overwrite of an entry by a newer record of its key. *)
Definition refresh_entry (pba zone_idx : Z) (valid : bool) (ts : Z) (e : block_entry) : block_entry :=
  MkEntry (be_key e) pba zone_idx 0 0 false false false false false valid ts
    (be_acct e) (be_newest_linked e) (be_acct_invalid e) (be_acct_obsolete e) (be_acct_delete_invalid e).

Definition imr_lsm_segment_builder_add_block_entry (threshold : Z) (b : builder) (key pba zone_idx : Z) (valid : bool) (ts : Z)
    (h : heap) : heap * cres builder :=
  let t := sb_table b in
  let pos :=
    match last t with
    | Some e => if be_key e <? key then length t else scan_pos t key
    | None => scan_pos t key
    end in
  let insert_new (_ : unit) :=
    match imr_lsm_segment_builder_reserve_block_table threshold b h with
    | (h, Fail e) => (h, Fail e)
    | (h, Ok b) => (h, Ok (set_table (take pos t ++ new_entry key pba zone_idx valid ts :: drop pos t) (sb_capacity b) b))
    end in
  match t !! pos with
  | Some e =>
      if be_key e =? key then
        (h, Ok (if ts >? be_timestamp e
                then set_table (<[pos := refresh_entry pba zone_idx valid ts e]> t) (sb_capacity b) b else b))
      else insert_new tt
  | None => insert_new tt
  end.

(** The range fields of the builder after one more record. *)
Definition widen (key zone_idx ts : Z) (b : builder) : builder :=
  if sb_node_count b =? 0 then MkBuilder (u32 (sb_node_count b + 1)) zone_idx key key ts ts (sb_table b) (sb_capacity b)
  else
    MkBuilder (u32 (sb_node_count b + 1))
      (if negb (sb_zone_idx b =? zone_idx) then IMR_LSM_SEGMENT_ZONE_MIXED else sb_zone_idx b)
      (if key <? sb_min_key b then key else sb_min_key b) (if key >? sb_max_key b then key else sb_max_key b)
      (if ts <? sb_min_timestamp b then ts else sb_min_timestamp b) (if ts >? sb_max_timestamp b then ts else sb_max_timestamp b)
      (sb_table b) (sb_capacity b).

Definition imr_lsm_segment_builder_add (threshold : Z) (b : builder) (key pba zone_idx : Z) (valid : bool) (ts : Z)
    (h : heap) : heap * cres builder :=
  match imr_lsm_segment_builder_add_block_entry threshold b key pba zone_idx valid ts h with
  | (h, Fail e) => (h, Fail e)
  | (h, Ok b) => (h, Ok (widen key zone_idx ts b))
  end.

(** [imr_lsm_segment_builder_add_unsorted] and [..._add_sorted]. *)
Definition imr_lsm_segment_builder_add_node (threshold : Z) (b : builder) (n : lsm_node) (h : heap) : heap * cres builder :=
  imr_lsm_segment_builder_add threshold b (n_key n) (n_pba n) (n_zone_idx n) (n_valid n) (n_timestamp n) h.

(** [imr_lsm_segment_builder_append_zone_gc]: append in discovery order. *)
Definition gc_entry (key pba source_pba zone_idx ts : Z) : block_entry :=
  MkEntry key pba zone_idx source_pba 0 true false false false false true ts false false false false false.
Definition imr_lsm_segment_builder_append_zone_gc (threshold : Z) (b : builder) (key pba source_pba zone_idx ts : Z)
    (h : heap) : heap * cres builder :=
  match imr_lsm_segment_builder_reserve_block_table threshold b h with
  | (h, Fail e) => (h, Fail e)
  | (h, Ok b) =>
      let b := set_table (sb_table b ++ [gc_entry key pba source_pba zone_idx ts]) (sb_capacity b) b in
      (h, Ok (if sb_node_count b =? 0
              then MkBuilder (u32 (sb_node_count b + 1)) IMR_LSM_SEGMENT_ZONE_MIXED key key ts ts (sb_table b) (sb_capacity b)
              else MkBuilder (u32 (sb_node_count b + 1)) (sb_zone_idx b)
                     (if key <? sb_min_key b then key else sb_min_key b) (if key >? sb_max_key b then key else sb_max_key b)
                     (if ts <? sb_min_timestamp b then ts else sb_min_timestamp b)
                     (if ts >? sb_max_timestamp b then ts else sb_max_timestamp b) (sb_table b) (sb_capacity b)))
  end.

Definition imr_lsm_block_entry_key_compare (a b : block_entry) : Z :=
  if be_key a <? be_key b then -1 else if be_key a >? be_key b then 1 else 0.

(** Preparing a segment: the builder keeps its table when preparation fails. *)
Definition imr_lsm_prepare_segment (level track_type : Z) (b : builder) (bloom_bits_per_key : Z) (h : heap)
  : heap * builder * cres (option segment) :=
  if sb_node_count b =? 0 then (h, imr_lsm_segment_builder_release b, Ok None)
  else
    match kzalloc h with
    | (h, None) => (h, b, Fail (- ENOMEM))
    | (h, Some _) =>
        match imr_lsm_segment_build_bloom (map be_key (sb_table b)) bloom_bits_per_key h with
        | (h, Fail e) => (h, b, Fail e)
        | (h, Ok bl) =>
            (h, set_table [] 0 b,
             Ok (Some (MkSegment 0 level (sb_zone_idx b) track_type false false (sb_node_count b) (sb_min_key b) (sb_max_key b)
                         (sb_min_timestamp b) (sb_max_timestamp b) bl (sb_table b) zero_acct false 0 0 0 no_placement no_output)))
        end
    end.

(** The binary search of a block table. *)
Fixpoint search_table (fuel : nat) (t : list block_entry) (key lo hi : Z) : option block_entry :=
  match fuel with
  | O => None
  | S fuel =>
      if lo <? hi then
        let mid := u32 (lo + u32 (hi - lo) / 2) in
        match nthZ t mid with
        | None => None
        | Some e =>
            if be_key e =? key then Some e
            else if be_key e <? key then search_table fuel t key (u32 (mid + 1)) hi
            else search_table fuel t key lo mid
        end
      else None
  end.
Definition imr_lsm_segment_block_table_find (g : segment) (key : Z) : option block_entry :=
  search_table (S (length (sg_table g))) (sg_table g) key 0 (lenZ (sg_table g)).

(** ** Specification

    A block table is a list of entries with strictly increasing keys. *)

Definition tbl_sorted : list block_entry -> Prop := StronglySorted (fun a b => be_key a < be_key b).

Definition tbl_find (key : Z) (t : list block_entry) : option block_entry := List.find (fun e => be_key e =? key) t.

(** Reference: insertion into a sorted table, the newer record of a key winning. *)
Fixpoint tbl_add (key pba zone_idx : Z) (valid : bool) (ts : Z) (t : list block_entry) : list block_entry :=
  match t with
  | [] => [new_entry key pba zone_idx valid ts]
  | e :: t' =>
      if be_key e <? key then e :: tbl_add key pba zone_idx valid ts t'
      else if be_key e =? key then (if ts >? be_timestamp e then refresh_entry pba zone_idx valid ts e else e) :: t'
      else new_entry key pba zone_idx valid ts :: t
  end.

(** ** Lemmas *)

Lemma tbl_sorted_cons e t : tbl_sorted (e :: t) <-> (forall x, x ∈ t -> be_key e < be_key x) /\ tbl_sorted t.
Proof.
  unfold tbl_sorted. split.
  - intros H. inversion H; subst. split; [|done]. by apply Forall_forall.
  - intros [H1 H2]. constructor; [done|]. by apply Forall_forall.
Qed.

Lemma tbl_find_Some key t e : tbl_find key t = Some e -> e ∈ t /\ be_key e = key.
Proof. unfold tbl_find. intros [H1 H2]%List.find_some. split; [by apply list_elem_of_In|lia]. Qed.

Lemma tbl_find_None key t : tbl_find key t = None <-> forall e, e ∈ t -> be_key e <> key.
Proof.
  unfold tbl_find. induction t as [|e t IH]; cbn; [split; [by intros _ ? ?%elem_of_nil|done]|].
  destruct (be_key e =? key) eqn:E.
  - split; [done|]. intros H. specialize (H e (list_elem_of_here _ _)). lia.
  - rewrite IH. split.
    + intros H x [->|Hx]%elem_of_cons; [lia|by apply H].
    + intros H x Hx. apply H. by right.
Qed.

Lemma tbl_find_in t e : tbl_sorted t -> e ∈ t -> tbl_find (be_key e) t = Some e.
Proof.
  induction t as [|x t IH]; [by intros _ ?%elem_of_nil|]. intros [H1 H2]%tbl_sorted_cons.
  unfold tbl_find in *. cbn. rewrite elem_of_cons. intros [->|Hin].
  - by rewrite Z.eqb_refl.
  - pose proof (H1 e Hin). destruct (be_key x =? be_key e) eqn:E; [lia|]. by apply IH.
Qed.

Lemma scan_pos_add key pba zone_idx valid ts t :
  match t !! scan_pos t key with
  | Some e => if be_key e =? key
              then (if ts >? be_timestamp e then <[scan_pos t key := refresh_entry pba zone_idx valid ts e]> t else t)
              else take (scan_pos t key) t ++ new_entry key pba zone_idx valid ts :: drop (scan_pos t key) t
  | None => take (scan_pos t key) t ++ new_entry key pba zone_idx valid ts :: drop (scan_pos t key) t
  end = tbl_add key pba zone_idx valid ts t.
Proof.
  induction t as [|e t IH]; cbn; [done|]. destruct (be_key e <? key) eqn:E; cbn.
  - rewrite <- IH. destruct (t !! scan_pos t key) as [x|]; [|done].
    destruct (be_key x =? key); [|done]. by destruct (ts >? be_timestamp x).
  - destruct (be_key e =? key); [|done]. by destruct (ts >? be_timestamp e).
Qed.

(** On a sorted table the shortcut for keys beyond the last one finds the same
    position as the scan. *)
Lemma scan_pos_last t key e : tbl_sorted t -> last t = Some e -> be_key e < key -> scan_pos t key = length t.
Proof.
  intros Hs Hl Hk. assert (forall x, x ∈ t -> be_key x < key) as Hall.
  { intros x Hx. apply last_Some in Hl as [l' ->]. unfold tbl_sorted in Hs.
    apply elem_of_app in Hx as [Hx|Hx%list_elem_of_singleton]; [|by subst].
    apply list_elem_of_lookup in Hx as [i Hi]. clear -Hs Hi Hk. revert i Hi.
    induction l' as [|y l' IH]; intros i Hi; [done|]. apply tbl_sorted_cons in Hs as [H1 H2].
    destruct i; cbn in Hi; [|by eapply IH]. simplify_eq. specialize (H1 e). rewrite elem_of_app, list_elem_of_singleton in H1.
    specialize (H1 (or_intror eq_refl)). lia. }
  clear Hs Hl. induction t as [|x t IH]; cbn; [done|].
  replace (be_key x <? key) with true by (specialize (Hall x (list_elem_of_here _ _)); lia).
  f_equal. apply IH. intros y Hy. apply Hall. by right.
Qed.

Lemma tbl_add_keys key pba zone_idx valid ts t x :
  x ∈ tbl_add key pba zone_idx valid ts t -> x ∈ t \/ (be_key x = key).
Proof.
  induction t as [|e t IH]; cbn; [intros ->%list_elem_of_singleton; by right|].
  destruct (be_key e <? key) eqn:E1.
  - intros [->|H]%elem_of_cons; [left; by left|]. destruct (IH H); [left; by right|by right].
  - destruct (be_key e =? key) eqn:E2.
    + intros [->|H]%elem_of_cons; [|left; by right]. right. destruct (ts >? be_timestamp e); cbn; lia.
    + intros [->|H]%elem_of_cons; [by right|by left].
Qed.

Lemma tbl_add_sorted key pba zone_idx valid ts t : tbl_sorted t -> tbl_sorted (tbl_add key pba zone_idx valid ts t).
Proof.
  induction t as [|e t IH]; cbn; intros Hs; [apply tbl_sorted_cons; split; [by intros ? ?%elem_of_nil|constructor]|].
  pose proof Hs as [H1 H2]%tbl_sorted_cons. destruct (be_key e <? key) eqn:E1.
  - apply tbl_sorted_cons. split; [|by apply IH]. intros x [Hx|Hx]%tbl_add_keys; [by apply H1|lia].
  - destruct (be_key e =? key) eqn:E2.
    + apply tbl_sorted_cons. split; [|done]. intros x Hx. specialize (H1 x Hx). destruct (ts >? be_timestamp e); cbn; lia.
    + apply tbl_sorted_cons. split; [|done]. cbn. intros x [->|Hx]%elem_of_cons; [lia|]. specialize (H1 x Hx). lia.
Qed.

(** The entry of [key] after an addition. *)
Definition newest_entry (key pba zone_idx : Z) (valid : bool) (ts : Z) (old : option block_entry) : block_entry :=
  match old with
  | None => new_entry key pba zone_idx valid ts
  | Some e => if ts >? be_timestamp e then refresh_entry pba zone_idx valid ts e else e
  end.

Lemma tbl_find_add key pba zone_idx valid ts t k :
  tbl_sorted t ->
  tbl_find k (tbl_add key pba zone_idx valid ts t) =
  if k =? key then Some (newest_entry key pba zone_idx valid ts (tbl_find key t)) else tbl_find k t.
Proof.
  intros Hs. induction t as [|e t IH]; cbn.
  { unfold tbl_find. cbn. rewrite (Z.eqb_sym key k). by destruct (k =? key). }
  apply tbl_sorted_cons in Hs as [H1 H2]. specialize (IH H2). unfold tbl_find in *.
  destruct (be_key e <? key) eqn:E1; cbn.
  - replace (be_key e =? key) with false by lia. rewrite IH. destruct (k =? key) eqn:Ek; [|done].
    replace (be_key e =? k) with false by lia. done.
  - destruct (be_key e =? key) eqn:E2; cbn.
    + assert (be_key (if ts >? be_timestamp e then refresh_entry pba zone_idx valid ts e else e) = be_key e) as ->
        by (by destruct (ts >? be_timestamp e)).
      destruct (k =? key) eqn:Ek; [replace (be_key e =? k) with true by lia; done|].
      replace (be_key e =? k) with false by lia. done.
    + rewrite (Z.eqb_sym key k). destruct (k =? key) eqn:Ek; [|done].
      assert (List.find (fun e => be_key e =? key) t = None) as ->; [|done].
      apply tbl_find_None. intros x Hx. specialize (H1 x Hx). lia.
Qed.

Lemma tbl_sorted_lt t i j a b :
  tbl_sorted t -> nthZ t i = Some a -> nthZ t j = Some b -> i < j -> be_key a < be_key b.
Proof.
  intros Hs Ha Hb Hij. pose proof (nthZ_Some _ _ _ Ha). pose proof (nthZ_Some _ _ _ Hb). unfold nthZ in *.
  replace (0 <=? i) with true in Ha by lia. replace (0 <=? j) with true in Hb by lia.
  assert (Z.to_nat i < Z.to_nat j)%nat as Hlt by lia. clear Hij. revert Ha Hb Hlt.
  generalize (Z.to_nat i) (Z.to_nat j). clear -Hs. induction t as [|e t IH]; intros n m Ha Hb Hlt; [done|].
  apply tbl_sorted_cons in Hs as [H1 H2]. destruct m; [lia|]. cbn in Hb. destruct n; cbn in Ha; simplify_eq.
  - apply H1. by eapply list_elem_of_lookup_2.
  - eapply IH; [done..|lia].
Qed.

Lemma search_table_spec fuel t key : forall lo hi,
  tbl_sorted t -> lenZ t < 2 ^ 32 -> 0 <= lo <= hi -> hi <= lenZ t -> hi - lo < Z.of_nat fuel ->
  (forall i e, i < lo -> nthZ t i = Some e -> be_key e < key) ->
  (forall i e, hi <= i -> nthZ t i = Some e -> key < be_key e) ->
  search_table fuel t key lo hi = tbl_find key t.
Proof.
  induction fuel as [|fuel IH]; intros lo hi Hs Hlen Hlh Hhi Hf Hlo Hup; [lia|]. cbn [search_table].
  destruct (lo <? hi) eqn:E.
  2: { symmetry. apply tbl_find_None. intros e [i Hi]%In_nthZ Hk. destruct (decide (i < lo)) as [H|H].
       - pose proof (Hlo i e H Hi). lia.
       - pose proof (Hup i e ltac:(lia) Hi). lia. }
  rewrite (u32_small (hi - lo)) by lia.
  pose proof (Z.div_mod (hi - lo) 2 ltac:(lia)). pose proof (Z.mod_pos_bound (hi - lo) 2 ltac:(lia)).
  rewrite (u32_small (lo + (hi - lo) / 2)) by lia. cbv zeta.
  set (mid := lo + (hi - lo) / 2) in *. assert (lo <= mid < hi) as Hm by lia. clearbody mid.
  destruct (nthZ_is_Some t mid ltac:(lia)) as [e He]. rewrite He.
  destruct (be_key e =? key) eqn:Ek.
  { replace key with (be_key e) by lia. symmetry. apply tbl_find_in; [done|]. by eapply nthZ_In. }
  destruct (be_key e <? key) eqn:El.
  - rewrite u32_small by lia. apply IH; [done|done|lia|lia|lia| |done].
    intros i x Hi Hx. destruct (decide (i = mid)) as [->|]; [simplify_eq; lia|].
    pose proof (tbl_sorted_lt t i mid x e Hs Hx He ltac:(lia)). lia.
  - apply IH; [done|done|lia|lia|lia|done|].
    intros i x Hi Hx. destruct (decide (i = mid)) as [->|]; [simplify_eq; lia|].
    pose proof (tbl_sorted_lt t mid i e x Hs He Hx ltac:(lia)). lia.
Qed.

Lemma table_find_eq g key :
  tbl_sorted (sg_table g) -> lenZ (sg_table g) < 2 ^ 32 -> imr_lsm_segment_block_table_find g key = tbl_find key (sg_table g).
Proof.
  intros Hs Hl. unfold imr_lsm_segment_block_table_find. apply search_table_spec; [done|done| | | |..].
  - pose proof (lenZ_nonneg (sg_table g)). lia.
  - lia.
  - unfold lenZ. lia.
  - intros i e Hi He. apply nthZ_Some in He. lia.
  - intros i e Hi He. apply nthZ_Some in He. lia.
Qed.

(** The builder's invariant. *)
Record sb_wf (b : builder) : Prop := {
  sbw_sorted : tbl_sorted (sb_table b);
  sbw_cap : lenZ (sb_table b) <= sb_capacity b <= U32_MAX;
  sbw_range : forall e, e ∈ sb_table b ->
    sb_min_key b <= be_key e <= sb_max_key b /\ sb_min_timestamp b <= be_timestamp e <= sb_max_timestamp b;
}.

Lemma reserve_spec threshold b h :
  1 <= threshold <= U32_MAX -> lenZ (sb_table b) <= sb_capacity b <= U32_MAX ->
  let '(h', r) := imr_lsm_segment_builder_reserve_block_table threshold b h in
  r = Fail (- ENOMEM) \/ exists cap, r = Ok (set_table (sb_table b) cap b) /\ lenZ (sb_table b) < cap <= U32_MAX.
Proof.
  intros Ht Hc. unfold imr_lsm_segment_builder_reserve_block_table. pose proof (lenZ_nonneg (sb_table b)).
  destruct (lenZ (sb_table b) <? sb_capacity b) eqn:E.
  { right. exists (sb_capacity b). split; [by destruct b|lia]. }
  change (U64_MAX / sizeof_block_entry) with 230584300921369395. change (U32_MAX / 2) with 2147483647.
  assert (forall cap h0, lenZ (sb_table b) < cap <= U32_MAX ->
    let '(h', r) := (if cap >? 230584300921369395 then (h0, Fail (- ENOMEM)) else
      match kzalloc h0 with (h1, None) => (h1, Fail (- ENOMEM)) | (h1, Some _) => (h1, Ok (set_table (sb_table b) cap b)) end) in
    r = Fail (- ENOMEM) \/ exists c, r = Ok (set_table (sb_table b) c b) /\ lenZ (sb_table b) < c <= U32_MAX) as Hg.
  { intros cap h0 Hcap. unfold U32_MAX in *. replace (cap >? _) with false by lia.
    destruct (kzalloc h0) as [h1 [a|]]; [right; by exists cap|by left]. }
  destruct (sb_capacity b =? 0) eqn:E0; cbn [negb]; [apply Hg; lia|].
  destruct (sb_capacity b >? 2147483647) eqn:E1; [by left|]. unfold U32_MAX in *. apply Hg. rewrite u32_small; lia.
Qed.

(** Adding a record to a builder: the table is the reference insertion. *)
Lemma builder_add_table threshold b key pba zone_idx valid ts h :
  1 <= threshold <= U32_MAX -> sb_wf b ->
  let '(h', r) := imr_lsm_segment_builder_add_block_entry threshold b key pba zone_idx valid ts h in
  r = Fail (- ENOMEM) \/
  exists cap, r = Ok (set_table (tbl_add key pba zone_idx valid ts (sb_table b)) cap b) /\
    lenZ (tbl_add key pba zone_idx valid ts (sb_table b)) <= cap <= U32_MAX.
Proof.
  intros Ht [Hs Hc _]. unfold imr_lsm_segment_builder_add_block_entry.
  assert (match last (sb_table b) with Some e => if be_key e <? key then length (sb_table b) else scan_pos (sb_table b) key
    | None => scan_pos (sb_table b) key end = scan_pos (sb_table b) key) as ->.
  { destruct (last (sb_table b)) as [e|] eqn:El; [|done]. destruct (be_key e <? key) eqn:E; [|done].
    symmetry. eapply scan_pos_last; [done..|lia]. }
  pose proof (scan_pos_add key pba zone_idx valid ts (sb_table b)) as Hadd. cbv zeta.
  set (pos := scan_pos (sb_table b) key) in *. pose proof (reserve_spec threshold b h Ht Hc) as Hres.
  destruct (imr_lsm_segment_builder_reserve_block_table threshold b h) as [h1 r1].
  assert (forall t, take pos (sb_table b) ++ new_entry key pba zone_idx valid ts :: drop pos (sb_table b) = t ->
    let '(_, r) := match r1 with Fail e => (h1, Fail e)
      | Ok b0 => (h1, Ok (set_table (take pos (sb_table b) ++ new_entry key pba zone_idx valid ts :: drop pos (sb_table b)) (sb_capacity b0) b0)) end in
    r = Fail (- ENOMEM) \/ exists cap, r = Ok (set_table t cap b) /\ lenZ t <= cap <= U32_MAX) as Hnew.
  { intros t <-. destruct Hres as [->|(cap & -> & Hcap)]; [by left|]. right. exists cap. split; [done|].
    rewrite lenZ_app, lenZ_cons. unfold lenZ in *. rewrite length_take, length_drop. lia. }
  destruct (sb_table b !! pos) as [e|] eqn:Ee; [|by apply Hnew].
  destruct (be_key e =? key); [|by apply Hnew]. right. rewrite <- Hadd. exists (sb_capacity b).
  destruct (ts >? be_timestamp e); [|split; [by destruct b|done]]. split; [done|].
  unfold lenZ in *. by rewrite length_insert.
Qed.

(** The binary search of a block table, with its 32-bit midpoint arithmetic,
    finds the same entry as a linear scan of the table, for every table with
    strictly increasing keys and fewer than 2^32 entries. *)
Theorem block_table_search_is_scan g key :
  tbl_sorted (sg_table g) -> lenZ (sg_table g) < 2 ^ 32 -> imr_lsm_segment_block_table_find g key = tbl_find key (sg_table g).
Proof. apply table_find_eq. Qed.

Definition sample_table : list block_entry :=
  [new_entry 1 10 0 true 1; new_entry 4 40 0 true 2; new_entry 6 60 0 false 3; new_entry 9 90 0 true 4].
Lemma block_table_search_is_scan_witness :
  let g := MkSegment 1 0 0 1 false false 4 1 9 1 4 no_bloom sample_table zero_acct false 0 0 0 no_placement no_output in
  imr_lsm_segment_block_table_find g 6 = tbl_find 6 sample_table /\ imr_lsm_segment_block_table_find g 6 = Some (new_entry 6 60 0 false 3).
Proof.
  intros g. split; [|vm_compute; reflexivity]. apply (block_table_search_is_scan g).
  - repeat constructor.
  - vm_compute. reflexivity.
Defined.
