(* ===== verification/ImrPlacement.v ===== *)
(** Output placement of a new segment on the top tracks ([dm-imrsim.c], from
    [imr_lsm_reset_segment_output_locked] to
    [imr_lsm_map_segment_output_entries_locked], and
    [imr_lsm_apply_segment_placement_locked]).

    The segment being placed is not yet linked into the segment list, so the
    functions take it beside the state. *)

From S2P Require Import Prelude StdMap ImrPrelude ImrGeometry ImrBloom ImrState.

Definition IMR_LSM_TRACK_BOTTOM : Z := 1.
Definition IMR_LSM_TRACK_TOP : Z := 2.
Definition IMR_LSM_PLACEMENT_NONE : Z := 0.
Definition IMR_LSM_PLACEMENT_BOTTOM_TO_TOP : Z := 1.

Definition imr_lsm_reset_segment_output_locked (g : segment) : segment := set_sg_output no_output g.

Definition imr_lsm_segment_output_sector_count (g : segment) : Z :=
  let block_count := block_table_count g in
  let block_count := if block_count =? 0 then sg_node_count g else block_count in
  if block_count =? 0 then 0 else u64 (Z.shiftl block_count IMR_BLOCK_SIZE_SHIFT).

Definition imr_lsm_pba_ranges_overlap (a_start a_end b_start b_end : Z) : bool :=
  if (a_start >? a_end) || (b_start >? b_end) then false else (a_start <=? b_end) && (b_start <=? a_end).

Definition imr_lsm_find_output_overlap_locked (pba_start pba_end : Z) (s : kstate) : option segment :=
  List.find (fun other => negb (sg_retired other) && output_allocated (sg_output other) &&
    imr_lsm_pba_ranges_overlap pba_start pba_end (output_pba_start (sg_output other)) (output_pba_end (sg_output other)))
    (segments (meta s)).

Definition imr_lsm_record_last_placement_output_locked (g : segment) (s : kstate) : kstate :=
  let o := sg_output g in
  st_set "last_placement_output_pba_end" (output_pba_end o) (st_set "last_placement_output_pba_start" (output_pba_start o)
    (st_set "last_placement_output_block_count" (output_block_count o) (st_set "last_placement_output_track_type" (output_track_type o)
      (st_set "last_placement_output_allocated" (Z.b2z (output_allocated o)) (st_set "last_placement_output_segment_id" (sg_id g) s))))).

Definition imr_lsm_note_segment_output_no_target_locked (g : segment) (s : kstate) : segment * kstate :=
  let g := imr_lsm_reset_segment_output_locked g in
  (g, imr_lsm_record_last_placement_output_locked g (st_inc "placement_output_no_target_count" s)).

(** The search for a free range: the cursor moves past each overlapping output.
    [None] means that nothing fits. Every round but the last passes the end of one
    more allocated output, so one round per segment is enough
    ([find_output_complete]). *)
Fixpoint output_loop (fuel : nat) (top_end count cursor : Z) (s : kstate) : option Z :=
  match fuel with
  | O => None
  | S fuel =>
      if cursor <=? top_end then
        let candidate_end := u64 (u64 (cursor + count) - 1) in
        if (candidate_end <? cursor) || (candidate_end >? top_end) then None
        else
          match imr_lsm_find_output_overlap_locked cursor candidate_end s with
          | None => Some cursor
          | Some o =>
              if output_pba_end (sg_output o) >=? top_end then None
              else output_loop fuel top_end count (u64 (output_pba_end (sg_output o) + 1)) s
          end
      else None
  end.

Definition imr_lsm_allocate_segment_output_locked (g : segment) (s : kstate) : segment * kstate :=
  let g := imr_lsm_reset_segment_output_locked g in
  let p := sg_placement g in
  let fail (stat : string) := (g, imr_lsm_record_last_placement_output_locked g (st_inc stat s)) in
  if negb (placement_policy p =? IMR_LSM_PLACEMENT_BOTTOM_TO_TOP) || negb (placement_target_track_type p =? IMR_LSM_TRACK_TOP) ||
     (placement_top_pba_start p >? placement_top_pba_end p) then fail "placement_output_no_target_count"
  else
    let output_sector_count := imr_lsm_segment_output_sector_count g in
    if output_sector_count =? 0 then fail "placement_output_no_target_count"
    else
      let target_sector_count := u64 (u64 (placement_top_pba_end p - placement_top_pba_start p) + 1) in
      if output_sector_count >? target_sector_count then fail "placement_output_no_space_count"
      else
        match output_loop (S (length (segments (meta s)))) (placement_top_pba_end p) output_sector_count
                (placement_top_pba_start p) s with
        | None => fail "placement_output_no_space_count"
        | Some cursor =>
            let block_count := if negb (block_table_count g =? 0) then block_table_count g else sg_node_count g in
            let g := set_sg_output (MkOutput true (placement_target_track_type p) block_count cursor
                                      (u64 (u64 (cursor + output_sector_count) - 1))) g in
            (g, imr_lsm_record_last_placement_output_locked g (st_inc "placement_output_alloc_count" s))
        end.

(** The entry loop of [imr_lsm_map_segment_output_entries_locked]; it stops with
    the entry it is at reset when the cursor passes the end. *)
Definition clear_output (e : block_entry) : block_entry :=
  set_be_output_committed false (set_be_output_copied false (set_be_output_copy_planned false (set_be_output_mapped false
    (set_be_source_pba_valid false (set_be_source_pba 0 (set_be_output_pba 0 e)))))).
Fixpoint map_entries_loop (t : list block_entry) (cursor pba_end mapped : Z) : list block_entry * Z * Z :=
  match t with
  | [] => ([], cursor, mapped)
  | e :: t =>
      let e := clear_output e in
      if negb (be_valid e) then
        let '(t, cursor, mapped) := map_entries_loop t cursor pba_end mapped in (e :: t, cursor, mapped)
      else if cursor >? pba_end then (e :: t, cursor, mapped)
      else
        let e := set_be_output_mapped true (set_be_output_pba cursor e) in
        let '(t, cursor, mapped) := map_entries_loop t (u64 (cursor + Z.shiftl 1 IMR_BLOCK_SIZE_SHIFT)) pba_end (u32 (mapped + 1)) in
        (e :: t, cursor, mapped)
  end.
Definition imr_lsm_map_segment_output_entries_locked (g : segment) (s : kstate) : segment * kstate :=
  let s := st_set "last_segment_output_mapping_pba_end" 0 (st_set "last_segment_output_mapping_pba_start" 0
    (st_set "last_segment_output_mapping_entry_count" 0 (st_set "last_segment_output_mapping_segment_id" (sg_id g) s))) in
  if negb (output_allocated (sg_output g)) || (block_table_count g =? 0) then (g, st_inc "segment_output_mapping_no_output_count" s)
  else
    let o := sg_output g in
    let '(t, cursor, mapped) := map_entries_loop (sg_table g) (output_pba_start o) (output_pba_end o) 0 in
    let s := st_set "last_segment_output_mapping_entry_count" mapped
      (st_add "segment_output_mapping_entry_count" mapped (st_inc "segment_output_mapping_count" s)) in
    let s := if negb (mapped =? 0) then
        st_set "last_segment_output_mapping_pba_end" (u64 (cursor - 1)) (st_set "last_segment_output_mapping_pba_start" (output_pba_start o) s)
      else s in
    (set_sg_table t g, s).

Definition imr_lsm_record_last_placement_locked (g : segment) (s : kstate) : kstate :=
  let p := sg_placement g in
  let s := st_set "last_placement_top_pba_end" (placement_top_pba_end p) (st_set "last_placement_top_pba_start" (placement_top_pba_start p)
    (st_set "last_placement_top_track_end" (placement_top_track_end p) (st_set "last_placement_top_track_start" (placement_top_track_start p)
      (st_set "last_placement_bottom_track_end" (placement_bottom_track_end p)
        (st_set "last_placement_bottom_track_start" (placement_bottom_track_start p)
          (st_set "last_placement_policy" (placement_policy p) (st_set "last_placement_segment_id" (sg_id g) s))))))) in
  imr_lsm_record_last_placement_output_locked g s.

Definition imr_lsm_apply_segment_placement_locked (g : segment) (s : kstate) : segment * kstate :=
  let bottom_range_blocks := imr_lsm_bottom_range_blocks in
  let group_blocks := imr_lsm_track_group_blocks in
  let s := st_inc "placement_policy_count" s in
  let g := set_sg_placement (set_placement_target_track_type 0 (set_placement_policy IMR_LSM_PLACEMENT_NONE (sg_placement g))) g in
  let g := imr_lsm_reset_segment_output_locked g in
  let no_target (s : kstate) :=
    let '(g, s) := imr_lsm_note_segment_output_no_target_locked g (st_inc "placement_no_target_count" s) in
    (g, imr_lsm_record_last_placement_locked g s) in
  if sg_zone_idx g =? IMR_LSM_SEGMENT_ZONE_MIXED then no_target (st_inc "placement_mixed_zone_count" s)
  else
    let zone_key_start := imr_lsm_zone_key_start (sg_zone_idx g) in
    let zone_key_end := u64 (u64 (zone_key_start + Z.shiftl 1 IMR_ZONE_SIZE_SHIFT) - 1) in
    if (sg_max_key g <? zone_key_start) || (sg_min_key g >? zone_key_end) then no_target s
    else
      let zone_min_key := if sg_min_key g >? zone_key_start then u64 (sg_min_key g - zone_key_start) else 0 in
      let zone_max_key := if sg_max_key g <? zone_key_end then u64 (sg_max_key g - zone_key_start) else u64 (zone_key_end - zone_key_start) in
      if zone_min_key >=? bottom_range_blocks then no_target s
      else
        let zone_max_key := if zone_max_key >=? bottom_range_blocks then bottom_range_blocks - 1 else zone_max_key in
        let track_start := u32 (zone_min_key / IMR_BOTTOM_TRACK_SIZE) in
        let track_end := u32 (zone_max_key / IMR_BOTTOM_TRACK_SIZE) in
        let track_start := if track_start >=? TOP_TRACK_NUM_TOTAL then TOP_TRACK_NUM_TOTAL - 1 else track_start in
        let track_end := if track_end >=? TOP_TRACK_NUM_TOTAL then TOP_TRACK_NUM_TOTAL - 1 else track_end in
        let top_block_start := u32 (track_start * group_blocks) in
        let top_block_end := u32 (u32 (u32 (track_end * group_blocks) + IMR_TOP_TRACK_SIZE) - 1) in
        let top_start := u64 (zone_idx_lba (sg_zone_idx g) + u64 (Z.shiftl top_block_start IMR_BLOCK_SIZE_SHIFT)) in
        let top_end := u64 (u64 (zone_idx_lba (sg_zone_idx g) + u64 (Z.shiftl top_block_end IMR_BLOCK_SIZE_SHIFT)) +
                            (Z.shiftl 1 IMR_BLOCK_SIZE_SHIFT - 1)) in
        let g := set_sg_placement (MkPlacement IMR_LSM_PLACEMENT_BOTTOM_TO_TOP IMR_LSM_TRACK_TOP track_start track_end
                   (u64 (zone_key_start + zone_min_key)) (u64 (zone_key_start + zone_max_key)) track_start track_end top_start top_end) g in
        let '(g, s) := imr_lsm_allocate_segment_output_locked g (st_inc "placement_bottom_to_top_count" s) in
        (g, imr_lsm_record_last_placement_locked g s).

(** ** Lemmas *)

(** An active output of the segment list that the range [pba_start, pba_end] meets. *)
Definition meets (pba_start pba_end : Z) (o : segment) : bool :=
  negb (sg_retired o) && output_allocated (sg_output o) &&
  imr_lsm_pba_ranges_overlap pba_start pba_end (output_pba_start (sg_output o)) (output_pba_end (sg_output o)).

(** [count] sectors from [x] on meet no active output. *)
Definition free_at (count x : Z) (s : kstate) : Prop := forall o, o ∈ segments (meta s) -> meets x (x + count - 1) o = false.

Lemma find_overlap_None a b s :
  imr_lsm_find_output_overlap_locked a b s = None <-> forall o, o ∈ segments (meta s) -> meets a b o = false.
Proof.
  unfold imr_lsm_find_output_overlap_locked. fold (meets a b). induction (segments (meta s)) as [|g l IH]; cbn.
  - split; [by intros _ ? ?%elem_of_nil|done].
  - destruct (meets a b g) eqn:E; [split; [done|]; intros H; specialize (H g (list_elem_of_here _ _)); congruence|].
    rewrite IH. split; [intros H o [->|Ho]%elem_of_cons; [done|by apply H]|intros H o Ho; apply H; by right].
Qed.

Lemma find_overlap_Some a b s o : imr_lsm_find_output_overlap_locked a b s = Some o -> o ∈ segments (meta s) /\ meets a b o = true.
Proof. unfold imr_lsm_find_output_overlap_locked. intros [H1 H2]%List.find_some. split; [by apply list_elem_of_In|done]. Qed.

Lemma meets_spec a b o : meets a b o = true ->
  a <= b /\ a <= output_pba_end (sg_output o) /\ output_pba_start (sg_output o) <= b /\ output_pba_start (sg_output o) <= output_pba_end (sg_output o).
Proof. unfold meets, imr_lsm_pba_ranges_overlap. destruct (sg_retired o), (output_allocated (sg_output o)); cbn; try done. zcase; lia. Qed.

(** The outputs that end at or after the cursor. *)
Definition ahead (cursor : Z) (l : list segment) : nat := length (List.filter (fun o => cursor <=? output_pba_end (sg_output o)) l).

Lemma ahead_mono c1 c2 l : c1 <= c2 -> (ahead c2 l <= ahead c1 l)%nat.
Proof.
  intros Hc. unfold ahead. induction l as [|g l IH]; cbn; [done|].
  destruct (c1 <=? output_pba_end (sg_output g)) eqn:E1, (c2 <=? output_pba_end (sg_output g)) eqn:E2; cbn; lia.
Qed.
Lemma ahead_lt c1 c2 l o :
  o ∈ l -> c1 <= output_pba_end (sg_output o) < c2 -> (ahead c2 l < ahead c1 l)%nat.
Proof.
  intros Hin Hc. induction l as [|g l IH]; [by apply elem_of_nil in Hin|]. apply elem_of_cons in Hin as [->|Hin].
  - pose proof (ahead_mono c1 c2 l ltac:(lia)). unfold ahead in *. cbn.
    replace (c1 <=? output_pba_end (sg_output g)) with true by lia.
    replace (c2 <=? output_pba_end (sg_output g)) with false by lia. cbn. lia.
  - specialize (IH Hin). unfold ahead in *. cbn.
    destruct (c1 <=? output_pba_end (sg_output g)) eqn:E1, (c2 <=? output_pba_end (sg_output g)) eqn:E2; cbn; lia.
Qed.

(** The loop is a complete first-fit search. *)
Lemma output_loop_spec fuel top_end count s : forall cursor,
  0 <= cursor -> 1 <= count <= 2 ^ 62 -> top_end < 2 ^ 62 -> (ahead cursor (segments (meta s)) < fuel)%nat ->
  match output_loop fuel top_end count cursor s with
  | Some c => cursor <= c /\ c + count - 1 <= top_end /\ free_at count c s /\ (forall x, cursor <= x < c -> ~ free_at count x s)
  | None => forall x, cursor <= x -> x + count - 1 <= top_end -> ~ free_at count x s
  end.
Proof.
  induction fuel as [|fuel IH]; intros cursor Hc Hn Ht Hf; [lia|]. cbn [output_loop].
  destruct (cursor <=? top_end) eqn:E; [|intros x Hx Hxe; lia]. cbv zeta.
  rewrite (u64_small (cursor + count)) by lia. rewrite u64_small by lia.
  destruct ((cursor + count - 1 <? cursor) || (cursor + count - 1 >? top_end)) eqn:E1; [intros x Hx Hxe; lia|].
  destruct (imr_lsm_find_output_overlap_locked cursor (cursor + count - 1) s) as [o|] eqn:Eo.
  2: { split_and!; [lia|lia| |intros; lia]. exact (proj1 (find_overlap_None _ _ _) Eo). }
  apply find_overlap_Some in Eo as [Hin Hmeets]. pose proof (meets_spec _ _ _ Hmeets) as Hm.
  assert (forall x, cursor <= x <= output_pba_end (sg_output o) -> ~ free_at count x s) as Hskip.
  { intros x Hx Hfree. specialize (Hfree o Hin). unfold meets, imr_lsm_pba_ranges_overlap in *.
    destruct (sg_retired o), (output_allocated (sg_output o)); cbn in *; try done. zcase_in Hmeets; zcase_in Hfree; lia. }
  destruct (output_pba_end (sg_output o) >=? top_end) eqn:E2; [intros x Hx Hxe; apply Hskip; lia|].
  rewrite u64_small by lia.
  pose proof (ahead_lt cursor (output_pba_end (sg_output o) + 1) _ o Hin ltac:(lia)).
  pose proof (IH (output_pba_end (sg_output o) + 1) ltac:(lia) Hn Ht ltac:(lia)) as Hrec.
  destruct (output_loop fuel top_end count (output_pba_end (sg_output o) + 1) s) as [c|].
  - destruct Hrec as (H1 & H2 & H3 & H4). split_and!; [lia|lia|done|]. intros x Hx.
    destruct (decide (x <= output_pba_end (sg_output o))); [apply Hskip; lia|apply H4; lia].
  - intros x Hx Hxe. destruct (decide (x <= output_pba_end (sg_output o))); [apply Hskip; lia|apply Hrec; lia].
Qed.

(** C29: Output placement is a complete first-fit search that never overlaps. For
    a segment with a target range of top tracks and enough room in it, the
    allocation takes the lowest range of the target that meets no output of an
    active segment; it reports "no space" only when every such range meets one. *)
Theorem segment_output_first_fit g s :
  let p := sg_placement g in
  let count := imr_lsm_segment_output_sector_count g in
  placement_policy p = IMR_LSM_PLACEMENT_BOTTOM_TO_TOP -> placement_target_track_type p = IMR_LSM_TRACK_TOP ->
  0 <= placement_top_pba_start p <= placement_top_pba_end p -> placement_top_pba_end p < 2 ^ 62 ->
  1 <= count <= placement_top_pba_end p - placement_top_pba_start p + 1 ->
  let '(g', s') := imr_lsm_allocate_segment_output_locked g s in
  let o := sg_output g' in
  if output_allocated o then
    placement_top_pba_start p <= output_pba_start o /\ output_pba_end o = output_pba_start o + count - 1 /\
    output_pba_end o <= placement_top_pba_end p /\ free_at count (output_pba_start o) s /\
    (forall x, placement_top_pba_start p <= x < output_pba_start o -> ~ free_at count x s)
  else
    forall x, placement_top_pba_start p <= x -> x + count - 1 <= placement_top_pba_end p -> ~ free_at count x s.
Proof.
  intros p count Hp Ht Hr He Hc. unfold imr_lsm_allocate_segment_output_locked.
  change (sg_placement (imr_lsm_reset_segment_output_locked g)) with p.
  change (imr_lsm_segment_output_sector_count (imr_lsm_reset_segment_output_locked g)) with count.
  rewrite Hp, Ht. cbv zeta. rewrite !Z.eqb_refl. cbn [negb orb].
  replace (placement_top_pba_start p >? placement_top_pba_end p) with false by lia.
  replace (count =? 0) with false by lia. rewrite (u64_small (placement_top_pba_end p - _)) by lia. rewrite (u64_small (_ + 1)) by lia.
  replace (count >? _) with false by lia.
  pose proof (output_loop_spec (S (length (segments (meta s)))) (placement_top_pba_end p) count s (placement_top_pba_start p)) as H.
  destruct (output_loop _ _ count _ s) as [c|]; cbn.
  - destruct H as (H1 & H2 & H3 & H4); [lia|lia|done|unfold ahead; pose proof (List.filter_length_le (fun o => placement_top_pba_start p <=? output_pba_end (sg_output o)) (segments (meta s))); lia|].
    rewrite (u64_small (c + count)) by lia. rewrite u64_small by lia. split_and!; [lia|lia|lia|done|done].
  - apply H; [lia|lia|done|]. unfold ahead. pose proof (List.filter_length_le (fun o => placement_top_pba_start p <=? output_pba_end (sg_output o)) (segments (meta s))). lia.
Qed.

(** A segment of one record in zone 0. *)
Definition sample_segment : segment :=
  MkSegment 0 6 0 IMR_LSM_TRACK_BOTTOM false false 1 3 3 1 1 no_bloom [] zero_acct false 0 0 0
    (MkPlacement IMR_LSM_PLACEMENT_BOTTOM_TO_TOP IMR_LSM_TRACK_TOP 0 0 3 3 0 0 0 3647) no_output.

Lemma segment_output_first_fit_witness :
  output_allocated (sg_output (imr_lsm_allocate_segment_output_locked sample_segment static_state).1) = true /\
  output_pba_start (sg_output (imr_lsm_allocate_segment_output_locked sample_segment static_state).1) = 0.
Proof.
  pose proof (segment_output_first_fit sample_segment static_state eq_refl eq_refl) as H. cbv zeta in H.
  destruct (imr_lsm_allocate_segment_output_locked sample_segment static_state) as [g' s'] eqn:E.
  assert (output_allocated (sg_output g') = true) as Ha by (apply (f_equal fst) in E; cbn in E; by subst g').
  rewrite Ha in H. split; [done|].
  destruct H as (H1 & _ & _ & _ & H5); [cbn; lia|cbn; lia|vm_compute; split; congruence|].
  cbn in H1. destruct (decide (output_pba_start (sg_output g') = 0)) as [|Hne]; [done|]. exfalso.
  apply (H5 0); [cbn; lia|]. intros o Ho. by apply elem_of_nil in Ho.
Defined.
