(* ===== verification/ImrAccounting.v ===== *)
(** Record lookup across the LSM, the newest-key index and the accounting of
    obsolete segment entries ([dm-imrsim.c], [imr_lsm_newest_index_find_locked],
    [imr_lsm_newest_index_update_locked], and from
    [imr_lsm_update_newer_record] to
    [imr_lsm_selected_segment_compaction_candidate_locked]). *)

From S2P Require Import Prelude StdMap ImrPrelude ImrBloom ImrState ImrLevels ImrSegment ImrPlacement.

(** ** Searching every level *)

(** The scan of a sorted list: it stops at the key or beyond it. *)
Fixpoint sorted_scan (key : Z) (l : list lsm_node) : option lsm_node :=
  match l with
  | [] => None
  | n :: l => if n_key n =? key then Some n else if n_key n >? key then None else sorted_scan key l
  end.

(** The accumulator of a search for the newest record: timestamp, validity,
    address, and whether one was found. *)
Record found := MkFound { fd_timestamp : Z; fd_valid : bool; fd_pba : Z; fd_found : bool }.
Definition imr_lsm_update_latest_record (ts : Z) (valid : bool) (pba : Z) (a : found) : found :=
  if ts >? fd_timestamp a then MkFound ts valid pba true else a.
(** [imr_lsm_update_newer_record] keeps no address. *)
Definition imr_lsm_update_newer_record (ts : Z) (valid : bool) (a : found) : found :=
  if ts >? fd_timestamp a then MkFound ts valid (fd_pba a) true else a.

Definition scan_unsorted {A} (key : Z) (f : lsm_node -> A -> A) (l : list lsm_node) (a : A) : A :=
  fold_left (fun a n => if n_key n =? key then f n a else a) l a.
Definition scan_level {A} (key : Z) (f : lsm_node -> A -> A) (a : A) (l : level_state) : A :=
  let a := scan_unsorted key f (unsorted_head l) a in
  match sorted_scan key (sorted_head l) with Some n => f n a | None => a end.
Definition scan_segments {A} (key : Z) (f : block_entry -> A -> A) (l : list segment) (a : A) : A :=
  fold_left (fun a g => if sg_retired g then a
                        else match imr_lsm_segment_block_table_find g key with Some e => f e a | None => a end) l a.

Definition imr_lsm_find_latest_record_locked (key : Z) (s : kstate) : found :=
  let node (n : lsm_node) := imr_lsm_update_latest_record (n_timestamp n) (n_valid n) (n_pba n) in
  let a := fold_left (scan_level key node) (levels (meta s)) (MkFound 0 false 0 false) in
  scan_segments key (fun e => imr_lsm_update_latest_record (be_timestamp e) (be_valid e) (be_pba e)) (segments (meta s)) a.

Definition imr_lsm_find_newer_record_scan_locked (key ts : Z) (s : kstate) : found :=
  let node (n : lsm_node) (a : found) :=
    if n_timestamp n >? ts then imr_lsm_update_newer_record (n_timestamp n) (n_valid n) a else a in
  let a := fold_left (scan_level key node) (levels (meta s)) (MkFound ts false 0 false) in
  scan_segments key (fun e a => if be_timestamp e >? ts then imr_lsm_update_newer_record (be_timestamp e) (be_valid e) a else a)
    (segments (meta s)) a.

Definition imr_lsm_newest_index_find_locked (key : Z) (s : kstate) : option newest_node := m_find key (newest_tree (meta s)).

Definition imr_lsm_find_newer_record_locked (key ts : Z) (s : kstate) : found :=
  if negb (newest_index_valid (meta s)) then imr_lsm_find_newer_record_scan_locked key ts s
  else
    match imr_lsm_newest_index_find_locked key s with
    | None => imr_lsm_find_newer_record_scan_locked key ts s
    | Some n => if nn_timestamp n <=? ts then MkFound ts false 0 false else MkFound (nn_timestamp n) (nn_valid n) 0 true
    end.

Definition imr_lsm_find_older_valid_record_locked (key ts : Z) (s : kstate) : bool :=
  let older (n : lsm_node) := n_valid n && (n_timestamp n <? ts) in
  existsb (fun l => existsb (fun n => (n_key n =? key) && older n) (unsorted_head l) ||
                    (match sorted_scan key (sorted_head l) with Some n => older n | None => false end)) (levels (meta s)) ||
  existsb (fun g => negb (sg_retired g) &&
                    (match imr_lsm_segment_block_table_find g key with
                     | Some e => be_valid e && (be_timestamp e <? ts)
                     | None => false
                     end)) (segments (meta s)).

Definition imr_lsm_zone_map_has_key (key : Z) (s : kstate) : bool :=
  match zones s with
  | None => false
  | Some _ =>
      let zone_idx := u32 (Z.shiftr key IMR_ZONE_SIZE_SHIFT) in
      if zone_idx >=? IMR_NUMZONES s then false
      else
        let block_offset := u64 (key - Z.shiftl zone_idx IMR_ZONE_SIZE_SHIFT) in
        if block_offset >=? TOTAL_ITEMS then false
        else match zone zone_idx s with Some z => negb (z_pba_map z block_offset =? -1) | None => false end
  end.

Definition imr_lsm_tombstone_should_keep_locked (e : block_entry) (s : kstate) : bool :=
  if imr_lsm_zone_map_has_key (be_key e) s then true
  else imr_lsm_find_older_valid_record_locked (be_key e) (be_timestamp e) s.

Definition imr_lsm_segment_entry_should_keep_locked (e : block_entry) (s : kstate) : bool :=
  if fd_found (imr_lsm_find_newer_record_locked (be_key e) (be_timestamp e) s) then false
  else if be_valid e then true
  else imr_lsm_tombstone_should_keep_locked e s.

(** ** Per-segment accounting *)

Definition IMR_LSM_COMPACTION_MIN_OBSOLETE_RATIO : Z := 250.
Definition IMR_LSM_COMPACTION_MIN_INVALID : Z := 1.
Definition IMR_LSM_COMPACTION_DELETE_BOOST : Z := 1000.
Definition IMR_LSM_COMPACTION_TOMBSTONE_BOOST : Z := 500.

Definition imr_lsm_segment_compaction_score (g : segment) : Z :=
  let a := sg_acct g in
  if sg_retired g then 0
  else if invalid_count a <? IMR_LSM_COMPACTION_MIN_INVALID then 0
  else if obsolete_ratio_permille a <? IMR_LSM_COMPACTION_MIN_OBSOLETE_RATIO then 0
  else u64 (u64 (u64 (obsolete_ratio_permille a * invalid_count a) + u64 (delete_invalid_count a * IMR_LSM_COMPACTION_DELETE_BOOST)) +
            u64 (tombstone_count a * IMR_LSM_COMPACTION_TOMBSTONE_BOOST)).

(** Changing the fields of a node in place. *)
Definition m_alter {V} (key : Z) (f : V -> V) (m : stdmap Z V) : stdmap Z V :=
  map (fun '(k, v) => if decide (k = key) then (k, f v) else (k, v)) m.
Definition upd_newest (key : Z) (f : newest_node -> newest_node) : kstate -> kstate :=
  upd_meta (fun m => set_newest_tree (m_alter key f (newest_tree m)) m).

(** Unlinking an entry from the list of its owner. *)
Fixpoint unlink (r : nat * nat) (l : list (nat * nat)) : list (nat * nat) :=
  match l with
  | [] => []
  | x :: l => if decide (x = r) then l else x :: unlink r l
  end.

(** [owner] is the key of the owning node, [None] for a null pointer. *)
Definition imr_lsm_detach_live_segment_entry_locked (owner : option Z) (r : nat * nat) (s : kstate) : kstate :=
  match owner, entry_at r s with
  | Some key, Some e =>
      if negb (be_newest_linked e) then s
      else upd_entry r (set_be_newest_linked false) (upd_newest key (fun n => set_nn_live (unlink r (nn_live n)) n) s)
  | _, _ => s
  end.
Definition imr_lsm_attach_live_segment_entry_locked (key : Z) (r : nat * nat) (s : kstate) : kstate :=
  let s := imr_lsm_detach_live_segment_entry_locked (Some key) r s in
  upd_newest key (fun n => set_nn_live (r :: nn_live n) n) (upd_entry r (set_be_newest_linked true) s).

Definition refresh_ratio (g : segment) : segment :=
  let a := sg_acct g in
  let ratio := if negb (block_table_count g =? 0) then u32 (u64 (invalid_count a * 1000) / block_table_count g) else 0 in
  set_sg_acct (set_obsolete_ratio_permille ratio a) g.
Definition imr_lsm_refresh_segment_invalid_ratio_locked (i : nat) (s : kstate) : kstate :=
  upd_seg i (fun g => let g := refresh_ratio g in set_sg_score (imr_lsm_segment_compaction_score g) g) s.

(** [if(segment->obsolete_ratio_permille > stats.max_obsolete_ratio_permille) ...] *)
Definition note_max_ratio (i : nat) (s : kstate) : kstate :=
  match seg i s with
  | Some g =>
      if obsolete_ratio_permille (sg_acct g) >? stat "max_obsolete_ratio_permille" s then
        st_set "max_obsolete_segment_id" (sg_id g) (st_set "max_obsolete_ratio_permille" (obsolete_ratio_permille (sg_acct g)) s)
      else s
  | None => s
  end.

Definition upd_acct (i : nat) (f : seg_acct -> seg_acct) : kstate -> kstate := upd_seg i (fun g => set_sg_acct (f (sg_acct g)) g).

Definition imr_lsm_mark_segment_entry_invalid_locked (owner : option Z) (r : nat * nat) (obsolete newer_valid : bool) (s : kstate) : kstate :=
  match entry_at r s, seg r.1 s with
  | Some e, Some g =>
      if negb (be_acct e) || sg_retired g || negb (sg_accounted g) then imr_lsm_detach_live_segment_entry_locked owner r s
      else
        let s := if negb (be_acct_invalid e) then
            let s := if negb (live_count (sg_acct g) =? 0) then upd_acct r.1 (fun a => set_live_count (live_count a - 1) a) s else s in
            let s := if invalid_count (sg_acct g) =? 0 then st_inc "invalid_segment_count" s else s in
            upd_entry r (set_be_acct_invalid true) (st_inc "invalid_entry_count"
              (upd_acct r.1 (fun a => set_invalid_count (u32 (invalid_count a + 1)) a) s))
          else s in
        let s := if obsolete && negb (be_acct_obsolete e) then
            upd_entry r (set_be_acct_obsolete true) (st_inc "obsolete_entry_count"
              (upd_acct r.1 (fun a => set_obsolete_count (u32 (obsolete_count a + 1)) a) s))
          else s in
        let s := if obsolete && be_valid e && negb newer_valid && negb (be_acct_delete_invalid e) then
            upd_entry r (set_be_acct_delete_invalid true) (st_inc "delete_invalid_entry_count"
              (upd_acct r.1 (fun a => set_delete_invalid_count (u32 (delete_invalid_count a + 1)) a) s))
          else s in
        let s := imr_lsm_detach_live_segment_entry_locked owner r s in
        note_max_ratio r.1 (imr_lsm_refresh_segment_invalid_ratio_locked r.1 s)
  | _, _ => s
  end.

(** [while(node->live_segment_head)]: every round unlinks the head, so the length
    of the list bounds the rounds ([supersede_empties]). *)
Fixpoint supersede_loop (fuel : nat) (key : Z) (newer_valid : bool) (s : kstate) : kstate :=
  match fuel with
  | O => s
  | S fuel =>
      match m_find key (newest_tree (meta s)) with
      | Some n =>
          match nn_live n with
          | [] => s
          | r :: _ => supersede_loop fuel key newer_valid (imr_lsm_mark_segment_entry_invalid_locked (Some key) r true newer_valid s)
          end
      | None => s
      end
  end.
Definition imr_lsm_incremental_supersede_locked (key : Z) (newer_valid : bool) (s : kstate) : kstate :=
  match m_find key (newest_tree (meta s)) with
  | Some n => supersede_loop (length (nn_live n)) key newer_valid s
  | None => s
  end.

(** Returns false for [-ENOMEM]. *)
Definition imr_lsm_newest_index_update_locked (key ts : Z) (valid : bool) (s : kstate) : kstate * bool :=
  match m_find key (newest_tree (meta s)) with
  | Some n =>
      if ts >=? nn_timestamp n then
        let s := if (ts >? nn_timestamp n) && newest_index_valid (meta s)
                 then imr_lsm_incremental_supersede_locked key valid s else s in
        (upd_newest key (fun n => set_nn_valid valid (set_nn_timestamp ts n)) s, true)
      else (s, true)
  | None =>
      match st_alloc s with
      | (s, None) => (upd_meta (set_newest_index_valid false) s, false)
      | (s, Some _) =>
          (upd_meta (fun m => set_newest_tree_size (u32 (newest_tree_size m + 1))
             (set_newest_tree (m_insert key (MkNewest ts valid []) (newest_tree m)) m)) s, true)
      end
  end.

Definition imr_lsm_refresh_max_obsolete_ratio_locked (s : kstate) : kstate :=
  let '(ratio, id) := fold_left (fun '(ratio, id) g =>
      if negb (sg_retired g) && sg_accounted g && (obsolete_ratio_permille (sg_acct g) >? ratio)
      then (obsolete_ratio_permille (sg_acct g), sg_id g) else (ratio, id)) (segments (meta s)) (0, 0) in
  st_set "max_obsolete_segment_id" id (st_set "max_obsolete_ratio_permille" ratio s).

(** ** Choosing the segment to compact *)

Definition imr_lsm_segment_age_locked (g : segment) (s : kstate) : Z :=
  if timestamp (meta s) <=? sg_max_timestamp g then 0 else u64 (timestamp (meta s) - sg_max_timestamp g).

Definition imr_lsm_segment_placement_cost_permille (g : segment) : Z :=
  let p := sg_placement g in
  let o := sg_output g in
  if negb (placement_policy p =? IMR_LSM_PLACEMENT_BOTTOM_TO_TOP) || negb (placement_target_track_type p =? IMR_LSM_TRACK_TOP) ||
     (placement_top_pba_start p >? placement_top_pba_end p) then 1000
  else if negb (output_allocated o) || (output_pba_start o >? output_pba_end o) then 1000
  else
    let target_sectors := u64 (u64 (placement_top_pba_end p - placement_top_pba_start p) + 1) in
    let output_sectors := u64 (u64 (output_pba_end o - output_pba_start o) + 1) in
    if target_sectors =? 0 then 1000
    else
      let cost := u64 (output_sectors * 1000) / target_sectors in
      if cost >? 1000 then 1000 else u32 cost.

Definition imr_lsm_segment_rmw_cost_permille (g : segment) : Z :=
  let entries := if negb (block_table_count g =? 0) then block_table_count g else sg_node_count g in
  if entries =? 0 then 0
  else if sg_track_type g =? IMR_LSM_TRACK_TOP then 0
  else if negb (sg_track_type g =? IMR_LSM_TRACK_BOTTOM) then 500
  else u32 (u64 (live_count (sg_acct g) * 1000) / entries).

Definition imr_lsm_segment_zone_fullness_permille (g : segment) (s : kstate) : Z :=
  if (sg_zone_idx g =? IMR_LSM_SEGMENT_ZONE_MIXED) || (sg_zone_idx g >=? IMR_NUMZONES s) then 0
  else
    match zone (sg_zone_idx g) s with
    | None => 0
    | Some z =>
        let zone_blocks := Z.shiftr (z_length z) IMR_BLOCK_SIZE_SHIFT in
        let zone_blocks := if zone_blocks =? 0 then TOTAL_ITEMS else zone_blocks in
        let fullness := u64 (z_map_size z * 1000) / zone_blocks in
        if fullness >? 1000 then 1000 else u32 fullness
    end.

(** The [final_score] of [imr_lsm_segment_policy_score_locked]; the weights are 1
    (age), -100 (hotness), -1 (placement), -1 (rewrite) and 1 (zone fullness). *)
Definition imr_lsm_segment_policy_score_locked (g : segment) (s : kstate) : Z :=
  let age := imr_lsm_segment_age_locked g s in
  let read_hotness := sg_read_hit_count g in
  let placement_cost := imr_lsm_segment_placement_cost_permille g in
  let rmw_cost := imr_lsm_segment_rmw_cost_permille g in
  let zone_fullness := imr_lsm_segment_zone_fullness_permille g s in
  i64 (i64 (i64 (i64 (i64 (i64 (sg_score g) + i64 age * 1) + i64 read_hotness * -100) + placement_cost * -1) + rmw_cost * -1) +
       zone_fullness * 1).

(** Whether [g] with [score] replaces the best candidate so far. *)
Definition better (score : Z) (g : segment) (best_score : Z) (b : segment) : bool :=
  (score >? best_score) ||
  ((score =? best_score) && (sg_score g >? sg_score b)) ||
  ((score =? best_score) && (sg_score g =? sg_score b) &&
   (obsolete_ratio_permille (sg_acct g) >? obsolete_ratio_permille (sg_acct b))) ||
  ((score =? best_score) && (sg_score g =? sg_score b) &&
   (obsolete_ratio_permille (sg_acct g) =? obsolete_ratio_permille (sg_acct b)) &&
   (invalid_count (sg_acct g) >? invalid_count (sg_acct b))).

Definition rescore (g : segment) : segment :=
  let g := set_sg_score (imr_lsm_segment_compaction_score g) g in
  set_sg_candidate (negb (sg_score g =? 0)) g.

Definition select_step (s : kstate) (a : option (segment * Z) * Z) (g : segment) : option (segment * Z) * Z :=
  let '(best, count) := a in
  if sg_candidate g then
    let score := imr_lsm_segment_policy_score_locked g s in
    (match best with
     | None => Some (g, score)
     | Some (b, bs) => if better score g bs b then Some (g, score) else best
     end, u64 (count + 1))
  else (best, count).

Definition imr_lsm_update_segment_compaction_selection_locked (s : kstate) : kstate :=
  let s := upd_meta (fun m => set_segments (map rescore (segments m)) m) s in
  let '(best, count) := fold_left (select_step s) (segments (meta s)) (None, 0) in
  let s := st_set "segment_compaction_candidate_count" count (st_inc "segment_compaction_selection_count" s) in
  match best with
  | Some (b, _) =>
      st_set "segment_compaction_candidate_tombstone_count" (tombstone_count (sg_acct b))
        (st_set "segment_compaction_candidate_delete_invalid_count" (delete_invalid_count (sg_acct b))
          (st_set "segment_compaction_candidate_invalid_count" (invalid_count (sg_acct b))
            (st_set "segment_compaction_candidate_ratio_permille" (obsolete_ratio_permille (sg_acct b))
              (st_set "segment_compaction_candidate_score" (sg_score b)
                (st_set "segment_compaction_candidate_level" (sg_level b)
                  (st_set "segment_compaction_candidate_segment_id" (sg_id b) s))))))
  | None =>
      st_set "segment_compaction_candidate_tombstone_count" 0 (st_set "segment_compaction_candidate_delete_invalid_count" 0
        (st_set "segment_compaction_candidate_invalid_count" 0 (st_set "segment_compaction_candidate_ratio_permille" 0
          (st_set "segment_compaction_candidate_score" 0 (st_set "segment_compaction_candidate_level" IMR_LSM_LEVELS
            (st_set "segment_compaction_candidate_segment_id" 0 (st_inc "segment_compaction_no_candidate_count" s)))))))
  end.

(** ** Full recalculation *)

Definition clear_entry_acct (e : block_entry) : block_entry :=
  set_be_acct_delete_invalid false (set_be_acct_obsolete false (set_be_acct_invalid false
    (set_be_newest_linked false (set_be_acct false e)))).

(** One entry of a segment: counters of the segment and of the whole run. *)
Record totals := MkTotals { to_invalid_segs : Z; to_invalid : Z; to_obsolete : Z; to_tombstone : Z; to_delete_invalid : Z;
                            to_max_ratio : Z; to_max_id : Z; to_segments : Z; to_entries : Z }.

Definition recalc_entry (i : nat) (a : kstate * totals) (j : nat) : kstate * totals :=
  let '(s, t) := a in
  match entry_at (i, j) s with
  | None => a
  | Some e =>
      let t := MkTotals (to_invalid_segs t) (to_invalid t) (to_obsolete t) (to_tombstone t) (to_delete_invalid t)
                 (to_max_ratio t) (to_max_id t) (to_segments t) (u32 (to_entries t + 1)) in
      let '(s, t, invalid) :=
        if negb (be_valid e) then
          (upd_acct i (fun c => set_tombstone_count (u32 (tombstone_count c + 1)) c) s,
           MkTotals (to_invalid_segs t) (to_invalid t) (to_obsolete t) (u64 (to_tombstone t + 1)) (to_delete_invalid t)
             (to_max_ratio t) (to_max_id t) (to_segments t) (to_entries t),
           negb (imr_lsm_tombstone_should_keep_locked e s))
        else (s, t, false) in
      let newer := imr_lsm_find_newer_record_locked (be_key e) (be_timestamp e) s in
      let '(s, t, invalid) :=
        if fd_found newer then
          let s := upd_entry (i, j) (set_be_acct_obsolete true) (upd_acct i (fun c => set_obsolete_count (u32 (obsolete_count c + 1)) c) s) in
          let t := MkTotals (to_invalid_segs t) (to_invalid t) (u64 (to_obsolete t + 1)) (to_tombstone t) (to_delete_invalid t)
                     (to_max_ratio t) (to_max_id t) (to_segments t) (to_entries t) in
          if be_valid e && negb (fd_valid newer) then
            (upd_entry (i, j) (set_be_acct_delete_invalid true)
               (upd_acct i (fun c => set_delete_invalid_count (u32 (delete_invalid_count c + 1)) c) s),
             MkTotals (to_invalid_segs t) (to_invalid t) (to_obsolete t) (to_tombstone t) (u64 (to_delete_invalid t + 1))
               (to_max_ratio t) (to_max_id t) (to_segments t) (to_entries t), true)
          else (s, t, true)
        else (s, t, invalid) in
      let '(s, t) :=
        if (invalid : bool) then
          (upd_entry (i, j) (set_be_acct_invalid true) (upd_acct i (fun c => set_invalid_count (u32 (invalid_count c + 1)) c) s),
           MkTotals (to_invalid_segs t) (u64 (to_invalid t + 1)) (to_obsolete t) (to_tombstone t) (to_delete_invalid t)
             (to_max_ratio t) (to_max_id t) (to_segments t) (to_entries t))
        else
          let s := upd_acct i (fun c => set_live_count (u32 (live_count c + 1)) c) s in
          let node := if newest_index_valid (meta s) then imr_lsm_newest_index_find_locked (be_key e) s else None in
          (match node with
           | Some n => if nn_timestamp n =? be_timestamp e then imr_lsm_attach_live_segment_entry_locked (be_key e) (i, j) s else s
           | None => s
           end, t) in
      (upd_entry (i, j) (set_be_acct true) s, t)
  end.

Definition recalc_segment (a : kstate * totals) (i : nat) : kstate * totals :=
  let '(s, t) := a in
  let bump (t : totals) := MkTotals (to_invalid_segs t) (to_invalid t) (to_obsolete t) (to_tombstone t) (to_delete_invalid t)
                             (to_max_ratio t) (to_max_id t) (u32 (to_segments t + 1)) (to_entries t) in
  let s := upd_seg i (fun g => set_sg_table (map clear_entry_acct (sg_table g)) (set_sg_accounted false g)) s in
  match seg i s with
  | None => a
  | Some g =>
      if sg_retired g then (s, bump t)
      else
        let s := upd_seg i (set_sg_acct zero_acct) s in
        let '(s, t) := fold_left (recalc_entry i) (seq 0 (length (sg_table g))) (s, t) in
        let s := upd_seg i (fun g => set_sg_accounted true (if negb (block_table_count g =? 0) then refresh_ratio g else g)) s in
        match seg i s with
        | None => (s, t)
        | Some g =>
            let c := sg_acct g in
            let '(mr, mi) := if obsolete_ratio_permille c >? to_max_ratio t then (obsolete_ratio_permille c, sg_id g)
                             else (to_max_ratio t, to_max_id t) in
            (s, bump (MkTotals (if negb (invalid_count c =? 0) then u64 (to_invalid_segs t + 1) else to_invalid_segs t)
                        (to_invalid t) (to_obsolete t) (to_tombstone t) (to_delete_invalid t) mr mi (to_segments t) (to_entries t)))
        end
  end.

Definition imr_lsm_recalculate_segment_invalid_stats_locked (s : kstate) : kstate :=
  let s := upd_meta (fun m => set_newest_tree (map (fun '(k, n) => (k, set_nn_live [] n)) (newest_tree m)) m) s in
  let '(s, t) := fold_left recalc_segment (seq 0 (length (segments (meta s)))) (s, MkTotals 0 0 0 0 0 0 0 0 0) in
  let s := st_set "last_invalid_recalc_entries" (to_entries t) (st_set "last_invalid_recalc_segments" (to_segments t)
    (st_set "max_obsolete_segment_id" (to_max_id t) (st_set "max_obsolete_ratio_permille" (to_max_ratio t)
      (st_set "delete_invalid_entry_count" (to_delete_invalid t) (st_set "tombstone_entry_count" (to_tombstone t)
        (st_set "obsolete_entry_count" (to_obsolete t) (st_set "invalid_entry_count" (to_invalid t)
          (st_set "invalid_segment_count" (to_invalid_segs t) (st_inc "invalid_recalc_count" s))))))))) in
  imr_lsm_update_segment_compaction_selection_locked s.

(** ** Incremental accounting *)

(** The repair loop: every key of the new table is in the index with a timestamp
    that is at least its own. [false] is a failed allocation. *)
Fixpoint repair_loop (t : list block_entry) (s : kstate) : kstate * bool :=
  match t with
  | [] => (s, true)
  | e :: t =>
      let stale := match imr_lsm_newest_index_find_locked (be_key e) s with
                   | None => true
                   | Some n => nn_timestamp n <? be_timestamp e
                   end in
      if stale then
        match imr_lsm_newest_index_update_locked (be_key e) (be_timestamp e) (be_valid e) s with
        | (s, false) => (s, false)
        | (s, true) => repair_loop t s
        end
      else repair_loop t s
  end.

(** One entry of the new segment; the repair loop has made sure that its key has
    a node. *)
Definition account_entry (i : nat) (s : kstate) (j : nat) : kstate :=
  match entry_at (i, j) s with
  | None => s
  | Some e =>
      match imr_lsm_newest_index_find_locked (be_key e) s with
      | None => s
      | Some n =>
          let s := upd_entry (i, j) (fun e => set_be_acct true (set_be_acct_delete_invalid false (set_be_acct_obsolete false
                     (set_be_acct_invalid false (set_be_newest_linked false e))))) s in
          let '(s, invalid) :=
            if negb (be_valid e) then
              (upd_acct i (fun c => set_tombstone_count (u32 (tombstone_count c + 1)) c) s, negb (imr_lsm_tombstone_should_keep_locked e s))
            else (s, false) in
          let '(s, invalid) :=
            if nn_timestamp n >? be_timestamp e then
              let s := upd_entry (i, j) (set_be_acct_obsolete true) (upd_acct i (fun c => set_obsolete_count (u32 (obsolete_count c + 1)) c) s) in
              (if be_valid e && negb (nn_valid n) then
                 upd_entry (i, j) (set_be_acct_delete_invalid true)
                   (upd_acct i (fun c => set_delete_invalid_count (u32 (delete_invalid_count c + 1)) c) s)
               else s, true)
            else (s, invalid) in
          if (invalid : bool) then
            upd_entry (i, j) (set_be_acct_invalid true) (upd_acct i (fun c => set_invalid_count (u32 (invalid_count c + 1)) c) s)
          else
            let s := upd_acct i (fun c => set_live_count (u32 (live_count c + 1)) c) s in
            if nn_timestamp n =? be_timestamp e then imr_lsm_attach_live_segment_entry_locked (be_key e) (i, j) s else s
      end
  end.

(** Account the published segment [i]; [false] means that the statistics were
    recalculated instead. *)
Definition imr_lsm_account_new_segment_invalid_stats_locked (i : nat) (s : kstate) : kstate * bool :=
  match seg i s with
  | None => (s, true)
  | Some g =>
      if sg_retired g || sg_accounted g then (s, true)
      else if negb (newest_index_valid (meta s)) then (imr_lsm_recalculate_segment_invalid_stats_locked s, false)
      else
        match repair_loop (sg_table g) s with
        | (s, false) => (imr_lsm_recalculate_segment_invalid_stats_locked s, false)
        | (s, true) =>
            let s := upd_seg i (set_sg_acct zero_acct) s in
            let s := fold_left (account_entry i) (seq 0 (length (sg_table g))) s in
            let s := imr_lsm_refresh_segment_invalid_ratio_locked i (upd_seg i (set_sg_accounted true) s) in
            match seg i s with
            | None => (s, true)
            | Some g =>
                let c := sg_acct g in
                let s := if negb (invalid_count c =? 0) then st_inc "invalid_segment_count" s else s in
                let s := st_add "delete_invalid_entry_count" (delete_invalid_count c) (st_add "tombstone_entry_count" (tombstone_count c)
                  (st_add "obsolete_entry_count" (obsolete_count c) (st_add "invalid_entry_count" (invalid_count c) s))) in
                (note_max_ratio i s, true)
            end
        end
  end.

Definition unaccount_entry (i : nat) (s : kstate) (j : nat) : kstate :=
  match entry_at (i, j) s with
  | None => s
  | Some e =>
      let owner := if be_newest_linked e then match imr_lsm_newest_index_find_locked (be_key e) s with Some _ => Some (be_key e) | None => None end
                   else None in
      upd_entry (i, j) (set_be_acct false) (imr_lsm_detach_live_segment_entry_locked owner (i, j) s)
  end.
Definition imr_lsm_unaccount_segment_invalid_stats_locked (i : nat) (s : kstate) : kstate :=
  match seg i s with
  | None => s
  | Some g =>
      if negb (sg_accounted g) then s
      else
        let s := fold_left (unaccount_entry i) (seq 0 (length (sg_table g))) s in
        let c := sg_acct g in
        let s := if negb (invalid_count c =? 0) && negb (stat "invalid_segment_count" s =? 0)
                 then st_add "invalid_segment_count" (-1) s else s in
        let s := st_add "delete_invalid_entry_count" (- delete_invalid_count c) (st_add "tombstone_entry_count" (- tombstone_count c)
          (st_add "obsolete_entry_count" (- obsolete_count c) (st_add "invalid_entry_count" (- invalid_count c) s))) in
        upd_seg i (set_sg_accounted false) s
  end.

(** The entries a key's node links to, each read with its successor first. *)
Fixpoint reevaluate_links (key : Z) (links : list (nat * nat)) (s : kstate) : kstate :=
  match links with
  | [] => s
  | r :: links =>
      let s := match entry_at r s with
               | Some e =>
                   if negb (be_valid e) && negb (imr_lsm_tombstone_should_keep_locked e s)
                   then imr_lsm_mark_segment_entry_invalid_locked (Some key) r false false s else s
               | None => s
               end in
      reevaluate_links key links s
  end.
Definition imr_lsm_reevaluate_latest_tombstones_locked (i : nat) (s : kstate) : kstate :=
  match seg i s with
  | None => s
  | Some g =>
      fold_left (fun s e => match imr_lsm_newest_index_find_locked (be_key e) s with
                            | None => s
                            | Some n => reevaluate_links (be_key e) (nn_live n) s
                            end) (sg_table g) s
  end.

(** [segment->retired = 1] with its accounting undone, as level compaction and
    segment compaction both do. *)
Definition retire_segment (i : nat) (s : kstate) : kstate :=
  let s := imr_lsm_unaccount_segment_invalid_stats_locked i s in
  let s := upd_seg i (fun g => set_sg_score 0 (set_sg_candidate false (set_sg_retired true g))) s in
  imr_lsm_reevaluate_latest_tombstones_locked i s.

Definition imr_lsm_retire_level_segments_locked (level : Z) (s : kstate) : kstate * Z :=
  fold_left (fun '(s, retired) i =>
      match seg i s with
      | Some g => if (sg_level g =? level) && negb (sg_retired g) then (retire_segment i s, u32 (retired + 1)) else (s, retired)
      | None => (s, retired)
      end) (seq 0 (length (segments (meta s)))) (s, 0).

Definition imr_lsm_segment_count_locked (level : Z) (s : kstate) : Z :=
  fold_left (fun count g => if sg_level g =? level then u32 (count + 1) else count) (segments (meta s)) 0.

Definition imr_lsm_selected_segment_compaction_candidate_locked (s : kstate) : option nat :=
  if stat "segment_compaction_candidate_score" s =? 0 then None
  else
    let id := stat "segment_compaction_candidate_segment_id" s in
    fst <$> list_find (fun g => Is_true (negb (sg_retired g) && (sg_id g =? id))) (segments (meta s)).
