(* ===== verification/ImrCore.v ===== *)
(** The part of the LSM state that decides what a lookup returns, and the
    operations that leave it alone: statistics, accounting, the read tree, level
    sizing and output placement. *)

From S2P Require Import Prelude StdMap ImrPrelude ImrGeometry ImrBloom ImrState ImrReadTree ImrLevels ImrSegment ImrPlacement ImrAccounting.

(** ** Erasure *)

(** An entry without its accounting and output-copy fields. *)
Definition entry_core (e : block_entry) : block_entry := clear_output (clear_entry_acct e).

(** A segment without accounting, scores, read statistics and placement. *)
Definition seg_core (g : segment) : segment :=
  set_sg_table (map entry_core (sg_table g)) (set_sg_acct zero_acct (set_sg_accounted false (set_sg_candidate false (set_sg_score 0
    (set_sg_read_hit_count 0 (set_sg_last_read_timestamp 0 (set_sg_placement no_placement (set_sg_output no_output g)))))))).

(** The metadata without statistics, newest-key index and level sizing. *)
Definition meta_core (m : metadata) : metadata :=
  set_stats zero_stats (set_newest_tree [] (set_newest_tree_size 0 (set_newest_index_valid true
    (set_active_write_level 0 (set_base_level 0 (set_effective_level_multiplier 0 (set_lowest_unnecessary_level 0
      (set_level_max_bytes [] (set_level_compaction_pending false (set_segments (map seg_core (segments m)) m)))))))))).
Definition core (s : kstate) : kstate := upd_meta meta_core s.

(** The same without the heap, and without the read tree too. *)
Definition nh (s : kstate) : kstate := set_hp (MkHeap [] 0) s.
Definition unrt (s : kstate) : kstate :=
  upd_meta (fun m => set_read_tree_limit 0 (set_read_tree_size 0 (set_read_lru [] (set_read_tree [] m)))) s.
Definition view (s : kstate) : kstate := unrt (nh (core s)).

(** [s'] has the core of [s] and at least its addresses allocated. *)
Record keeps_rt (s s' : kstate) : Prop := {
  kr_core : nh (core s') = nh (core s);
  kr_hp : hp_next (hp s) <= hp_next (hp s');
}.
(** The same except for the read tree. *)
Record keeps (s s' : kstate) : Prop := {
  kp_view : view s' = view s;
  kp_hp : hp_next (hp s) <= hp_next (hp s');
}.

#[export] Instance keeps_rt_refl : Reflexive keeps_rt.
Proof. intros s. by split. Qed.
#[export] Instance keeps_rt_trans : Transitive keeps_rt.
Proof. intros s1 s2 s3 [H1 H2] [H3 H4]. split; [congruence|lia]. Qed.
#[export] Instance keeps_refl : Reflexive keeps.
Proof. intros s. by split. Qed.
#[export] Instance keeps_trans : Transitive keeps.
Proof. intros s1 s2 s3 [H1 H2] [H3 H4]. split; [congruence|lia]. Qed.

Lemma keeps_rt_keeps s s' : keeps_rt s s' -> keeps s s'.
Proof.
  intros [H1 H2]. split; [|done]. exact (f_equal unrt H1).
Qed.

Lemma core_keeps s s' : core s' = core s -> keeps_rt s s'.
Proof.
  intros H. split; [by rewrite H|]. assert (hp s' = hp s) as ->; [|done].
  change (hp (core s') = hp (core s)). by rewrite H.
Qed.

(** The read tree is untouched. *)
Record same_rt (m m' : metadata) : Prop := {
  srt_tree : read_tree m' = read_tree m;
  srt_lru : read_lru m' = read_lru m;
  srt_size : read_tree_size m' = read_tree_size m;
  srt_limit : read_tree_limit m' = read_tree_limit m;
}.
Lemma keeps_rt_same s s' : keeps_rt s s' -> same_rt (meta s) (meta s').
Proof.
  intros [H _]. split.
  - by apply (f_equal (fun s => read_tree (meta s))) in H.
  - by apply (f_equal (fun s => read_lru (meta s))) in H.
  - by apply (f_equal (fun s => read_tree_size (meta s))) in H.
  - by apply (f_equal (fun s => read_tree_limit (meta s))) in H.
Qed.
Lemma same_rt_wf m m' : same_rt m m' -> rt_wf m -> rt_wf m'.
Proof.
  intros [E1 E2 E3 E4] (Hw & Hl & Hb). unfold rt_wf, tree_limit in *. rewrite E2, E4. split; [|done].
  destruct Hw. split; rewrite ?E1, ?E2, ?E3; done.
Qed.

Lemma keeps_st_alloc s : keeps_rt s (st_alloc s).1.
Proof.
  unfold st_alloc, kzalloc. split; [by destruct (hp_script (hp s)) as [|[] ?]|].
  destruct (hp_script (hp s)) as [|[] ?]; cbn; lia.
Qed.

(** ** Primitive updates *)

Create Rewrite HintDb core.

Lemma core_st_set f v s : core (st_set f v s) = core s.
Proof. reflexivity. Qed.
Lemma core_st_inc f s : core (st_inc f s) = core s.
Proof. reflexivity. Qed.
Lemma core_st_add f n s : core (st_add f n s) = core s.
Proof. reflexivity. Qed.
Lemma core_upd_newest k f s : core (upd_newest k f s) = core s.
Proof. reflexivity. Qed.
Lemma core_newest_valid b s : core (upd_meta (set_newest_index_valid b) s) = core s.
Proof. reflexivity. Qed.
Lemma core_pending b s : core (upd_meta (set_level_compaction_pending b) s) = core s.
Proof. reflexivity. Qed.

#[export] Hint Rewrite core_st_set core_st_inc core_st_add core_upd_newest core_newest_valid core_pending : core.

Lemma map_alter_core {A B} (c : A -> B) (f : A -> A) i (l : list A) :
  (forall x, c (f x) = c x) -> map c (alter f i l) = map c l.
Proof.
  intros H. revert i. induction l as [|x l IH]; intros [|i]; cbn; try done; [by rewrite H|].
  f_equal. apply IH.
Qed.

Lemma core_upd_seg i f s : (forall g, seg_core (f g) = seg_core g) -> core (upd_seg i f s) = core s.
Proof.
  intros H. unfold core, upd_seg, upd_meta, meta_core. cbn. by rewrite map_alter_core.
Qed.

Lemma core_upd_entry r f s : (forall e, entry_core (f e) = entry_core e) -> core (upd_entry r f s) = core s.
Proof.
  intros H. apply core_upd_seg. intros g. unfold seg_core. cbn. by rewrite map_alter_core.
Qed.

Lemma core_upd_acct i f s : core (upd_acct i f s) = core s.
Proof. by apply core_upd_seg. Qed.

Lemma core_map_segments f s : (forall g, seg_core (f g) = seg_core g) ->
  core (upd_meta (fun m => set_segments (map f (segments m)) m) s) = core s.
Proof.
  intros H. unfold core, upd_meta, meta_core. cbn. rewrite map_map. by rewrite (map_ext _ seg_core).
Qed.

Ltac core_side := intros; solve [reflexivity | repeat (match goal with |- context [if ?b then _ else _] => destruct b end; try reflexivity)].

#[export] Hint Rewrite core_upd_acct : core.
#[export] Hint Rewrite core_upd_seg core_upd_entry core_map_segments using core_side : core.

(** A loop of operations that keep the core keeps it. *)
Lemma core_fold {A} (f : kstate -> A -> kstate) l : forall s,
  (forall s x, core (f s x) = core s) -> core (fold_left f l s) = core s.
Proof. induction l as [|x l IH]; intros s H; cbn; [done|]. rewrite IH by done. apply H. Qed.

Ltac core_solve :=
  repeat first
    [ progress autorewrite with core
    | progress cbn [fst snd]
    | match goal with
      | |- context [if ?b then _ else _] => destruct b
      | |- context [match ?x with _ => _ end] => destruct x
      end ]; try done.

(** ** Accounting *)

Lemma core_detach o r s : core (imr_lsm_detach_live_segment_entry_locked o r s) = core s.
Proof. unfold imr_lsm_detach_live_segment_entry_locked. core_solve. Qed.
#[export] Hint Rewrite core_detach : core.
Lemma core_attach k r s : core (imr_lsm_attach_live_segment_entry_locked k r s) = core s.
Proof. unfold imr_lsm_attach_live_segment_entry_locked. cbv zeta. core_solve. Qed.
#[export] Hint Rewrite core_attach : core.
Lemma core_refresh_ratio i s : core (imr_lsm_refresh_segment_invalid_ratio_locked i s) = core s.
Proof. unfold imr_lsm_refresh_segment_invalid_ratio_locked. core_solve. Qed.
Lemma core_note_max i s : core (note_max_ratio i s) = core s.
Proof. unfold note_max_ratio. core_solve. Qed.
#[export] Hint Rewrite core_refresh_ratio core_note_max : core.

Lemma core_mark_invalid o r ob nv s : core (imr_lsm_mark_segment_entry_invalid_locked o r ob nv s) = core s.
Proof. unfold imr_lsm_mark_segment_entry_invalid_locked. cbv zeta. core_solve. Qed.
#[export] Hint Rewrite core_mark_invalid : core.

Lemma core_supersede_loop fuel : forall key nv s, core (supersede_loop fuel key nv s) = core s.
Proof.
  induction fuel as [|fuel IH]; intros key nv s; cbn; [done|].
  destruct (m_find key (newest_tree (meta s))) as [n|]; [|done]. destruct (nn_live n); [done|]. rewrite IH. core_solve.
Qed.
Lemma core_supersede key nv s : core (imr_lsm_incremental_supersede_locked key nv s) = core s.
Proof. unfold imr_lsm_incremental_supersede_locked. destruct (m_find _ _); [apply core_supersede_loop|done]. Qed.
#[export] Hint Rewrite core_supersede : core.

Lemma keeps_newest_update key ts v s : keeps_rt s (imr_lsm_newest_index_update_locked key ts v s).1.
Proof.
  unfold imr_lsm_newest_index_update_locked. destruct (m_find _ _) as [n|].
  - destruct (ts >=? nn_timestamp n); [|done]. cbn [fst]. apply core_keeps. core_solve.
  - pose proof (keeps_st_alloc s) as H. destruct (st_alloc s) as [s1 [a|]]; cbn in *; (etransitivity; [exact H|]); by apply core_keeps.
Qed.
Lemma keeps_repair t : forall s, keeps_rt s (repair_loop t s).1.
Proof.
  induction t as [|e t IH]; intros s; cbn [repair_loop]; [done|]. cbv zeta.
  match goal with |- context [if ?b then _ else _] => destruct b end; [|apply IH].
  pose proof (keeps_newest_update (be_key e) (be_timestamp e) (be_valid e) s) as H.
  destruct (imr_lsm_newest_index_update_locked _ _ _ s) as [s1 [|]]; cbn [fst] in *; [|done].
  etransitivity; [exact H|apply IH].
Qed.

Lemma core_account_entry i s j : core (account_entry i s j) = core s.
Proof. unfold account_entry. cbv zeta. core_solve. Qed.
Lemma core_unaccount_entry i s j : core (unaccount_entry i s j) = core s.
Proof. unfold unaccount_entry. cbv zeta. core_solve. Qed.

Lemma core_select s : core (imr_lsm_update_segment_compaction_selection_locked s) = core s.
Proof. unfold imr_lsm_update_segment_compaction_selection_locked. cbv zeta. core_solve. Qed.
Lemma core_refresh_max s : core (imr_lsm_refresh_max_obsolete_ratio_locked s) = core s.
Proof. unfold imr_lsm_refresh_max_obsolete_ratio_locked. core_solve. Qed.
#[export] Hint Rewrite core_select core_refresh_max : core.

Lemma core_recalc_entry i a j : core (recalc_entry i a j).1 = core a.1.
Proof.
  destruct a as [s t]. unfold recalc_entry. destruct (entry_at (i, j) s) as [e|]; [|done]. cbv zeta. cbn [fst snd].
  core_solve.
Qed.

Lemma core_fold_fst {A B} (f : kstate * B -> A -> kstate * B) l : forall a,
  (forall a x, core (f a x).1 = core a.1) -> core (fold_left f l a).1 = core a.1.
Proof. induction l as [|x l IH]; intros a H; cbn; [done|]. rewrite IH by done. apply H. Qed.

Lemma seg_core_clear_acct g : seg_core (set_sg_table (map clear_entry_acct (sg_table g)) (set_sg_accounted false g)) = seg_core g.
Proof. unfold seg_core. cbn. rewrite map_map. f_equal. Qed.

Lemma core_recalc_segment a i : core (recalc_segment a i).1 = core a.1.
Proof.
  destruct a as [s t]. unfold recalc_segment. cbv zeta.
  set (s1 := upd_seg i _ s). assert (core s1 = core s) as H1 by (apply core_upd_seg, seg_core_clear_acct).
  destruct (seg i s1) as [g|]; [|done]. destruct (sg_retired g); [done|].
  pose proof (core_fold_fst (recalc_entry i) (seq 0 (length (sg_table g))) (upd_seg i (set_sg_acct zero_acct) s1, t) (core_recalc_entry i)) as H2.
  destruct (fold_left (recalc_entry i) _ _) as [s2 t2]. cbn [fst] in H2.
  rewrite core_upd_seg in H2 by done. rewrite H1 in H2. core_solve.
Qed.

Lemma core_recalc s : core (imr_lsm_recalculate_segment_invalid_stats_locked s) = core s.
Proof.
  unfold imr_lsm_recalculate_segment_invalid_stats_locked. cbv zeta.
  set (s1 := upd_meta _ s). pose proof (core_fold_fst recalc_segment (seq 0 (length (segments (meta s1)))) (s1, MkTotals 0 0 0 0 0 0 0 0 0) core_recalc_segment) as H.
  destruct (fold_left recalc_segment _ _) as [s2 t2]. cbn [fst] in H. autorewrite with core. exact H.
Qed.
#[export] Hint Rewrite core_recalc : core.

Lemma keeps_account_new i s : keeps_rt s (imr_lsm_account_new_segment_invalid_stats_locked i s).1.
Proof.
  unfold imr_lsm_account_new_segment_invalid_stats_locked. destruct (seg i s) as [g|]; [|done].
  destruct (sg_retired g || sg_accounted g); [done|].
  destruct (newest_index_valid (meta s)); cbn [negb]; [|apply core_keeps, core_recalc].
  pose proof (keeps_repair (sg_table g) s) as H1. destruct (repair_loop (sg_table g) s) as [s1 [|]]; cbn [fst] in *;
    (etransitivity; [exact H1|]); apply core_keeps; [|apply core_recalc].
  cbv zeta. pose proof (core_fold (account_entry i) (seq 0 (length (sg_table g))) (upd_seg i (set_sg_acct zero_acct) s1) (core_account_entry i)) as H2.
  set (s2 := fold_left _ _ _) in *. rewrite core_upd_seg in H2 by done.
  set (s3 := imr_lsm_refresh_segment_invalid_ratio_locked i (upd_seg i (set_sg_accounted true) s2)).
  assert (core s3 = core s1) as H3 by (subst s3; by autorewrite with core). clearbody s3. core_solve.
Qed.

Lemma core_unaccount i s : core (imr_lsm_unaccount_segment_invalid_stats_locked i s) = core s.
Proof.
  unfold imr_lsm_unaccount_segment_invalid_stats_locked. destruct (seg i s) as [g|]; [|done].
  destruct (sg_accounted g); [|done]. cbn [negb]. cbv zeta.
  pose proof (core_fold (unaccount_entry i) (seq 0 (length (sg_table g))) s (core_unaccount_entry i)) as H. core_solve.
Qed.

Lemma core_reevaluate_links key links : forall s, core (reevaluate_links key links s) = core s.
Proof. induction links as [|r l IH]; intros s; cbn; [done|]. rewrite IH. core_solve. Qed.
Lemma core_reevaluate i s : core (imr_lsm_reevaluate_latest_tombstones_locked i s) = core s.
Proof.
  unfold imr_lsm_reevaluate_latest_tombstones_locked. destruct (seg i s) as [g|]; [|done].
  apply core_fold. intros s1 e. destruct (imr_lsm_newest_index_find_locked _ s1); [apply core_reevaluate_links|done].
Qed.
#[export] Hint Rewrite core_unaccount core_reevaluate : core.

(** ** The read tree, level sizing and scheduling *)

Lemma keeps_no_rt s s' : no_rt s' = no_rt s -> hp_next (hp s) <= hp_next (hp s') -> keeps s s'.
Proof.
  intros H Hh. split; [|done]. change (view s') with (view (no_rt s')). change (view s) with (view (no_rt s)). by rewrite H.
Qed.

Lemma hp_evict limit lru : forall s, hp (evict_loop limit lru s) = hp s.
Proof. induction lru as [|k l IH]; intros s; cbn [evict_loop]; [done|]. destruct (_ >? _); [|done]. by rewrite IH. Qed.

Lemma keeps_tree_update key pba v ts s : rt_wf (meta s) -> keeps s (imr_lsm_tree_update_locked key pba v ts s).
Proof.
  intros Hw. apply keeps_no_rt; [by apply update_spec|]. unfold imr_lsm_tree_update_locked.
  destruct (m_find _ _) as [n|]; [by destruct (ts >=? rn_timestamp n)|].
  pose proof (kr_hp _ _ (keeps_st_alloc s)) as H. destruct (st_alloc s) as [s1 [a|]]; cbn [fst] in H; [|exact H].
  unfold imr_lsm_tree_evict_locked. rewrite hp_evict. exact H.
Qed.
Lemma keeps_tree_lookup key s : rt_wf (meta s) -> keeps s (imr_lsm_tree_lookup_locked key s).1.
Proof.
  intros Hw. pose proof (lookup_spec key s Hw) as H. apply keeps_no_rt.
  - destruct (imr_lsm_tree_lookup_locked key s). by destruct H as (_ & H & _).
  - unfold imr_lsm_tree_lookup_locked. by destruct (imr_lsm_tree_find_node_locked _ _).
Qed.
Lemma keeps_tree_remove key s : rt_wf (meta s) -> keeps s (imr_lsm_tree_remove_locked key s).
Proof.
  intros Hw. apply keeps_no_rt; [by apply remove_spec|]. unfold imr_lsm_tree_remove_locked.
  destruct (imr_lsm_tree_find_node_locked _ _); [|done]. unfold imr_lsm_tree_remove_node_locked. cbv zeta. by destruct (negb _).
Qed.

Lemma core_no_shape s s' : no_shape s' = no_shape s -> core s' = core s.
Proof. intros H. change (core s') with (core (no_shape s')). change (core s) with (core (no_shape s)). by rewrite H. Qed.
Lemma core_calc s : core (imr_lsm_calculate_dynamic_levels_locked s) = core s.
Proof. apply core_no_shape, calc_no_shape. Qed.
Lemma core_pick s : core (imr_lsm_pick_compaction_level_locked s).1 = core s.
Proof. apply core_calc. Qed.
Lemma core_needed s : core (imr_lsm_level_compaction_needed_locked s).1 = core s.
Proof.
  unfold imr_lsm_level_compaction_needed_locked. cbv zeta. set (s1 := imr_lsm_calculate_dynamic_levels_locked s).
  destruct (_ >=? _); [apply core_calc|]. destruct (_ && _); [apply core_calc|].
  pose proof (core_pick s1). destruct (imr_lsm_pick_compaction_level_locked s1). cbn in *. rewrite H. apply core_calc.
Qed.
Lemma core_mark_pending s : core (imr_lsm_mark_level_compaction_pending_locked s) = core s.
Proof.
  unfold imr_lsm_mark_level_compaction_pending_locked. pose proof (core_needed s) as H.
  destruct (imr_lsm_level_compaction_needed_locked s) as [s1 b]. cbn in H. core_solve.
Qed.
