(* ===== verification/ImrLsm.v ===== *)
(** Operations of the in-memory LSM: metadata lifetime, insertion, deletion,
    lookup and level compaction ([dm-imrsim.c]; the functions keep their names).

    The mutexes serialise each operation, so an operation is a function on the
    state; level compaction drops the locks between its three phases, which are
    therefore three functions that other operations may interleave with. *)

From S2P Require Import Prelude StdMap ImrPrelude ImrGeometry ImrBloom ImrState ImrReadTree ImrLevels ImrSegment ImrPlacement ImrAccounting ImrCore.

(** ** Metadata lifetime *)

Definition imr_lsm_init_newest_index_locked (s : kstate) : kstate :=
  upd_meta (fun m => set_newest_index_valid true (set_newest_tree_size 0 (set_newest_tree [] m))) s.

(** Nodes, segments and trees are freed; the epoch moves on and skips 0. *)
Definition imr_lsm_release_metadata_locked (s : kstate) : kstate :=
  let epoch := u64 (metadata_epoch s + 1) in
  let epoch := if epoch =? 0 then u64 (epoch + 1) else epoch in
  let s := set_meta zero_meta (set_metadata_epoch epoch s) in
  imr_lsm_init_newest_index_locked (imr_lsm_init_read_tree_locked s).

(** The statistics that hold "no segment" or "no zone" after initialisation. *)
Definition none_stats : list string :=
  ["last_segment_compaction_from_id"; "last_segment_compaction_to_id"; "last_placement_output_segment_id";
   "last_segment_output_mapping_segment_id"; "last_segment_output_copy_plan_segment_id";
   "last_segment_output_metadata_commit_segment_id"; "last_segment_output_physical_copy_segment_id";
   "zone_compaction_candidate_zone"; "zone_compaction_candidate_dest_zone"; "last_zone_compaction_candidate_zone";
   "last_zone_compaction_candidate_dest_zone"; "last_zone_compaction_auto_pending_zone"; "last_zone_compaction_auto_run_zone";
   "last_zone_compaction_source_zone"; "last_zone_compaction_dest_zone0"; "last_zone_compaction_dest_zone1"]%string.

Definition imr_lsm_initialize_metadata_locked (s : kstate) : kstate :=
  let s := imr_lsm_release_metadata_locked s in
  let s := upd_meta (fun m => set_zone_compaction_auto_pending_zone IMR_LSM_ZONE_COMPACTION_NONE
    (set_lowest_unnecessary_level (-1) (set_base_level IMR_LSM_MAX_LEVEL (set_active_write_level 0
      (set_timestamp 0 (set_zone_compaction_auto_run true (set_initialized true m))))))) s in
  fold_left (fun s f => st_set f U32_MAX s) none_stats s.

(** [if(!imr_lsm_meta.initialized) imr_lsm_initialize_metadata_locked();] *)
Definition ensure_initialized (s : kstate) : kstate :=
  if negb (initialized (meta s)) then imr_lsm_initialize_metadata_locked s else s.

(** ** Insertion and deletion *)

Definition imr_lsm_append_unsorted_node_locked (lv key pba zone_idx : Z) (valid : bool) (s : kstate) : kstate * Z :=
  match st_alloc s with
  | (s, None) => (s, - ENOMEM)
  | (s, Some addr) =>
      let ts := u64 (timestamp (meta s) + 1) in
      let s := upd_meta (set_timestamp ts) s in
      let n := MkNode addr key pba zone_idx valid ts in
      let s := upd_level lv (fun l => set_unsorted_count (u32 (unsorted_count l + 1)) (set_unsorted_head (n :: unsorted_head l) l)) s in
      let s := (imr_lsm_newest_index_update_locked key ts valid s).1 in
      let s := imr_lsm_tree_update_locked key pba valid ts s in
      (imr_lsm_mark_level_compaction_pending_locked s, 0)
  end.

(** The queueing of the compaction work item is the environment's: the worker
    may run at any later time. *)
Definition imr_lsm_append_unsorting_node (lv key pba zone_idx : Z) (s : kstate) : kstate * Z :=
  if lv >=? IMR_LSM_LEVELS then (s, - EINVAL)
  else
    let s := imr_lsm_calculate_dynamic_levels_locked (ensure_initialized s) in
    let target_level := if lv =? 0 then active_write_level (meta s) else lv in
    let '(s, ret) := imr_lsm_append_unsorted_node_locked target_level key pba zone_idx true s in
    (if ret =? 0 then st_inc "lsm_write_count" s else s, ret).

(** [imr_lsm_unsorted_write] and [imr_lsm_insert] pass their arguments on. *)
Definition imr_lsm_insert (lv key pba zone_idx : Z) (s : kstate) : kstate * Z := imr_lsm_append_unsorting_node lv key pba zone_idx s.

(** [imr_lsm_record_insert], called by [imr_lsm_record_insert_and_check_zone_full]. *)
Definition imr_lsm_record_insert (zone_idx logical_lba physical_lba : Z) (s : kstate) : kstate * Z :=
  let key := Z.shiftr logical_lba IMR_BLOCK_SIZE_SHIFT in
  let s := st_inc "lsm_record_insert_count" (ensure_initialized s) in
  imr_lsm_insert 0 key physical_lba zone_idx s.

Definition imr_lsm_record_logical_write (s : kstate) : kstate := st_inc "logical_write_count" (ensure_initialized s).
Definition imr_lsm_record_fallback (s : kstate) : kstate := if initialized (meta s) then st_inc "fallback_count" s else s.

Definition imr_lsm_delete_locked (key : Z) (s : kstate) : kstate * Z :=
  let s := imr_lsm_calculate_dynamic_levels_locked (ensure_initialized s) in
  let s := imr_lsm_tree_remove_locked key s in
  let '(s, ret) := imr_lsm_append_unsorted_node_locked (active_write_level (meta s)) key 0 0 false s in
  (if ret =? 0 then st_inc "delete_count" s else s, ret).

(** ** Lookup *)

(** [struct imr_lsm_read_filter_stats] *)
Record filter_stats := MkFilter {
  fs_segment_lookup : Z; fs_segment_skip : Z; fs_segment_candidate : Z;
  fs_bloom_lookup : Z; fs_bloom_negative : Z; fs_bloom_maybe : Z;
  fs_table_lookup : Z; fs_table_hit : Z; fs_table_miss : Z;
  fs_entry : option block_entry;
}.
Definition no_filter : filter_stats := MkFilter 0 0 0 0 0 0 0 0 0 None.

(** The newer of a candidate and an optional entry. *)
Definition newer_entry (e : block_entry) (o : option block_entry) : option block_entry :=
  match o with
  | None => Some e
  | Some x => if be_timestamp e >? be_timestamp x then Some e else o
  end.

(** The outcome of one segment: its read statistics, the filter counters, the
    level's best entry and the two flags. *)
Record level_scan := MkScan { ls_filter : filter_stats; ls_entry : option block_entry; ls_has_segment : bool; ls_needs_sorted : bool }.

Definition lookup_segment (lv key now : Z) (g : segment) (a : level_scan) : segment * level_scan :=
  if sg_level g =? lv then
    if sg_retired g then (g, MkScan (ls_filter a) (ls_entry a) true (ls_needs_sorted a))
    else
      let f := ls_filter a in
      if (key <? sg_min_key g) || (key >? sg_max_key g) then
        (g, MkScan (MkFilter (fs_segment_lookup f + 1) (fs_segment_skip f + 1) (fs_segment_candidate f) (fs_bloom_lookup f)
                      (fs_bloom_negative f) (fs_bloom_maybe f) (fs_table_lookup f) (fs_table_hit f) (fs_table_miss f) (fs_entry f))
              (ls_entry a) true (ls_needs_sorted a))
      else if (bloom_key_count (sg_bloom g) =? 0) || imr_lsm_bloom_may_contain (sg_bloom g) key then
        if negb (block_table_count g =? 0) then
          match imr_lsm_segment_block_table_find g key with
          | Some e =>
              (set_sg_last_read_timestamp now (set_sg_read_hit_count (u64 (sg_read_hit_count g + 1)) g),
               MkScan (MkFilter (fs_segment_lookup f + 1) (fs_segment_skip f) (fs_segment_candidate f + 1) (fs_bloom_lookup f + 1)
                         (fs_bloom_negative f) (fs_bloom_maybe f + 1) (fs_table_lookup f + 1) (fs_table_hit f + 1) (fs_table_miss f)
                         (newer_entry e (fs_entry f)))
                 (newer_entry e (ls_entry a)) true (ls_needs_sorted a))
          | None =>
              (g, MkScan (MkFilter (fs_segment_lookup f + 1) (fs_segment_skip f) (fs_segment_candidate f + 1) (fs_bloom_lookup f + 1)
                            (fs_bloom_negative f) (fs_bloom_maybe f + 1) (fs_table_lookup f + 1) (fs_table_hit f) (fs_table_miss f + 1)
                            (fs_entry f)) (ls_entry a) true (ls_needs_sorted a))
          end
        else
          (g, MkScan (MkFilter (fs_segment_lookup f + 1) (fs_segment_skip f) (fs_segment_candidate f + 1) (fs_bloom_lookup f + 1)
                        (fs_bloom_negative f) (fs_bloom_maybe f + 1) (fs_table_lookup f) (fs_table_hit f) (fs_table_miss f) (fs_entry f))
                (ls_entry a) true true)
      else
        (g, MkScan (MkFilter (fs_segment_lookup f + 1) (fs_segment_skip f) (fs_segment_candidate f + 1) (fs_bloom_lookup f + 1)
                      (fs_bloom_negative f + 1) (fs_bloom_maybe f) (fs_table_lookup f) (fs_table_hit f) (fs_table_miss f) (fs_entry f))
              (ls_entry a) true (ls_needs_sorted a))
  else (g, a).

Fixpoint lookup_segments (lv key now : Z) (l : list segment) (a : level_scan) : list segment * level_scan :=
  match l with
  | [] => ([], a)
  | g :: l =>
      let '(g, a) := lookup_segment lv key now g a in
      let '(l, a) := lookup_segments lv key now l a in (g :: l, a)
  end.

(** Returns the level's entry, if any, and whether the sorted list must be
    scanned as a fallback. *)
Definition imr_lsm_segment_lookup_level_locked (lv key : Z) (f : filter_stats) (s : kstate)
  : kstate * filter_stats * option block_entry * bool :=
  let '(l, a) := lookup_segments lv key (timestamp (meta s)) (segments (meta s)) (MkScan f None false false) in
  (upd_meta (set_segments l) s, ls_filter a, ls_entry a, if negb (ls_has_segment a) then true else ls_needs_sorted a).

Inductive read_source := SOURCE_NONE | SOURCE_UNSORTED | SOURCE_SEGMENT | SOURCE_SORTED.

(** The newest record so far: timestamp, validity, address and source. *)
Record newest := MkBest { nw_timestamp : Z; nw_valid : bool; nw_pba : Z; nw_source : read_source }.
Definition no_newest : newest := MkBest 0 false 0 SOURCE_NONE.
Definition take_newer (ts : Z) (valid : bool) (pba : Z) (src : read_source) (w : newest) : newest :=
  if ts >? nw_timestamp w then MkBest ts valid pba src else w.

Definition read_unsorted (key : Z) (w : newest) (l : level_state) : newest :=
  fold_left (fun w n => if n_key n =? key then take_newer (n_timestamp n) (n_valid n) (n_pba n) SOURCE_UNSORTED w else w)
    (unsorted_head l) w.

Definition read_level (key : Z) (a : kstate * filter_stats * newest) (lv : Z) : kstate * filter_stats * newest :=
  let '(s, f, w) := a in
  let '(s, f, e, fallback) := imr_lsm_segment_lookup_level_locked lv key f s in
  let w := match e with
           | Some e => take_newer (be_timestamp e) (be_valid e) (be_pba e) SOURCE_SEGMENT w
           | None => w
           end in
  if negb (fallback : bool) || (sorted_count (level lv s) =? 0) then (s, f, w)
  else
    match sorted_scan key (sorted_head (level lv s)) with
    | Some n => (s, f, take_newer (n_timestamp n) (n_valid n) (n_pba n) SOURCE_SORTED w)
    | None => (s, f, w)
    end.

(** The statistics of the filter. *)
Definition record_filter (key : Z) (f : filter_stats) (s : kstate) : kstate :=
  let adds := [("segment_lookup_count", fs_segment_lookup f); ("segment_skip_count", fs_segment_skip f);
               ("segment_candidate_count", fs_segment_candidate f); ("bloom_lookup_count", fs_bloom_lookup f);
               ("bloom_negative_count", fs_bloom_negative f); ("bloom_maybe_count", fs_bloom_maybe f);
               ("block_table_lookup_count", fs_table_lookup f); ("block_table_hit_count", fs_table_hit f);
               ("block_table_miss_count", fs_table_miss f)]%string in
  let sets := [("last_segment_read_key", key); ("last_segment_lookup_count", fs_segment_lookup f);
               ("last_segment_skip_count", fs_segment_skip f); ("last_segment_candidate_count", fs_segment_candidate f);
               ("last_bloom_lookup_count", fs_bloom_lookup f); ("last_bloom_negative_count", fs_bloom_negative f);
               ("last_bloom_maybe_count", fs_bloom_maybe f); ("last_block_table_lookup_count", fs_table_lookup f);
               ("last_block_table_hit_count", fs_table_hit f); ("last_block_table_miss_count", fs_table_miss f)]%string in
  let '(hk, hp, ht, hv) := match fs_entry f with
                           | Some e => (be_key e, be_pba e, be_timestamp e, Z.b2z (be_valid e))
                           | None => (0, 0, 0, 0)
                           end in
  let hits := [("last_block_table_hit_key", hk); ("last_block_table_hit_pba", hp); ("last_block_table_hit_timestamp", ht);
               ("last_block_table_hit_valid", hv)]%string in
  fold_left (fun s '(n, v) => st_set n v s) (sets ++ hits) (fold_left (fun s '(n, v) => st_add n v s) adds s).

Definition imr_lsm_read (key : Z) (s : kstate) : kstate * lookup_result :=
  let s := st_inc "read_lookup_count" s in
  if negb (initialized (meta s)) then (st_inc "read_miss_count" s, LOOKUP_MISS)
  else
    match imr_lsm_tree_lookup_locked key s with
    | (s, LOOKUP_VALID pba) => (st_inc "tree_hit_count" s, LOOKUP_VALID pba)
    | (s, LOOKUP_DELETED) => (st_inc "tombstone_hit_count" s, LOOKUP_DELETED)
    | (s, LOOKUP_MISS) =>
        let w := fold_left (read_unsorted key) (levels (meta s)) no_newest in
        let '(s, f, w) := fold_left (read_level key) [0; 1; 2; 3; 4; 5; 6] (s, no_filter, w) in
        let s := record_filter key f s in
        match nw_source w with
        | SOURCE_NONE => (st_inc "read_miss_count" s, LOOKUP_MISS)
        | src =>
            let s := imr_lsm_tree_update_locked key (nw_pba w) (nw_valid w) (nw_timestamp w) s in
            if nw_valid w then
              (st_inc (match src with SOURCE_UNSORTED => "unsorted_hit_count" | SOURCE_SEGMENT => "segment_hit_count" | _ => "sorted_hit_count" end) s,
               LOOKUP_VALID (nw_pba w))
            else (st_inc "tombstone_hit_count" s, LOOKUP_DELETED)
        end
    end.

(** ** Controls of the read tree

    The debugfs writes, from the parsed number on. *)

Definition imr_lsm_debugfs_clear_read_tree_write (run : Z) (s : kstate) : kstate * Z :=
  if run =? 0 then (s, - EINVAL)
  else if negb (imrsim_target_ready_locked s) then (s, - ENODEV)
  else ((if initialized (meta s) then (imr_lsm_clear_read_tree_locked s).1 else s), 0).

Definition imr_lsm_debugfs_read_tree_limit_write (limit : Z) (s : kstate) : kstate * Z :=
  if limit >? IMR_LSM_READ_TREE_LIMIT then (s, - EINVAL)
  else
    let limit := if limit =? 0 then IMR_LSM_READ_TREE_LIMIT else limit in
    if negb (imrsim_target_ready_locked s) then (s, - ENODEV)
    else (imr_lsm_tree_evict_locked (upd_meta (set_read_tree_limit limit) (ensure_initialized s)), 0).
