(* ===== verification/ImrLsmInv.v ===== *)
(** The invariant of the in-memory LSM against the abstract map from keys to
    their newest record, and lookups under it. *)

From Stdlib Require Import Sorted.
From S2P Require Import Prelude StdMap ImrPrelude ImrGeometry ImrBloom ImrState ImrReadTree ImrLevels ImrSegment ImrPlacement ImrAccounting ImrCore ImrLsm.

(** ** Specification *)

(** A record: physical address, validity (false for a tombstone), timestamp. *)
Record rec := MkRec { r_pba : Z; r_valid : bool; r_ts : Z }.
Abbreviation newest_map := (Z -> option rec).

Definition node_rec (n : lsm_node) : rec := MkRec (n_pba n) (n_valid n) (n_timestamp n).
Definition entry_rec (e : block_entry) : rec := MkRec (be_pba e) (be_valid e) (be_timestamp e).

(** What a lookup must answer. *)
Definition answer (o : option rec) : lookup_result :=
  match o with
  | None => LOOKUP_MISS
  | Some r => if r_valid r then LOOKUP_VALID (r_pba r) else LOOKUP_DELETED
  end.

Definition record (H : newest_map) (k : Z) (r : rec) : newest_map := fun k' => if decide (k' = k) then Some r else H k'.

(** ** Invariant *)

(** A stored record is the newest of its key or older than it. *)
Definition bounded (H : newest_map) (k : Z) (r : rec) : Prop :=
  exists r0, H k = Some r0 /\ (r_ts r < r_ts r0 \/ r = r0).

Record seg_ok (g : segment) : Prop := {
  sgo_sorted : tbl_sorted (sg_table g);
  sgo_len : 0 < lenZ (sg_table g) < 2 ^ 32;
  sgo_level : 0 <= sg_level g <= IMR_LSM_MAX_LEVEL;
  sgo_range : forall e, e ∈ sg_table g -> sg_min_key g <= be_key e <= sg_max_key g;
  sgo_bloom : forall e, e ∈ sg_table g -> imr_lsm_bloom_may_contain (sg_bloom g) (be_key e) = true;
}.

Definition nodes_sorted : list lsm_node -> Prop := StronglySorted (fun a b => n_key a < n_key b).

(** The number of nodes of a level, and of a list of levels. *)
Definition weight (l : level_state) : Z := lenZ (unsorted_head l) + lenZ (sorted_head l).
Fixpoint total (lv : list level_state) : Z := match lv with [] => 0 | l :: lv => weight l + total lv end.

(** [k] has its newest record [r] where a lookup finds it. *)
Definition present (lv : list level_state) (gs : list segment) (k : Z) (r : rec) : Prop :=
  (exists l n, l ∈ lv /\ n ∈ unsorted_head l /\ n_key n = k /\ node_rec n = r) \/
  (exists g e, g ∈ gs /\ sg_retired g = false /\ e ∈ sg_table g /\ be_key e = k /\ entry_rec e = r).

(** An entry of a segment above the last level has a sorted node of its level
    that is at least as new. *)
Definition covered (lv : list level_state) (g : segment) (e : block_entry) : Prop :=
  exists l n, nthZ lv (sg_level g) = Some l /\ n ∈ sorted_head l /\ n_key n = be_key e /\ be_timestamp e <= n_timestamp n.

Record lsm_ok (H : newest_map) (lv : list level_state) (gs : list segment) (now : Z) : Prop := {
  ok_levels : lenZ lv = 7;
  ok_counts : forall l, l ∈ lv -> unsorted_count l = lenZ (unsorted_head l) /\ sorted_count l = lenZ (sorted_head l);
  ok_total : total lv <= now < 2 ^ 32;
  ok_now : forall k r, H k = Some r -> 1 <= r_ts r <= now;
  ok_unsorted : forall l n, l ∈ lv -> n ∈ unsorted_head l -> bounded H (n_key n) (node_rec n);
  ok_sorted : forall l n, l ∈ lv -> n ∈ sorted_head l -> bounded H (n_key n) (node_rec n);
  ok_order : forall l, l ∈ lv -> nodes_sorted (sorted_head l);
  ok_segs : forall g, g ∈ gs -> seg_ok g;
  ok_entries : forall g e, g ∈ gs -> sg_retired g = false -> e ∈ sg_table g -> bounded H (be_key e) (entry_rec e);
  ok_present : forall k r, H k = Some r -> present lv gs k r;
  ok_covered : forall g e, g ∈ gs -> sg_retired g = false -> sg_level g < IMR_LSM_MAX_LEVEL -> e ∈ sg_table g -> covered lv g e;
}.

(** The node addresses of each unsorted list are distinct and allocated. *)
Definition addr_ok (lv : list level_state) (bound : Z) : Prop :=
  forall l, l ∈ lv -> NoDup (map n_addr (unsorted_head l)) /\ forall n, n ∈ unsorted_head l -> n_addr n < bound.

(** The read tree holds newest records only. *)
Definition rt_agrees (H : newest_map) (m : metadata) : Prop :=
  forall k n, m_find k (read_tree m) = Some n -> H k = Some (MkRec (rn_pba n) (rn_valid n) (rn_timestamp n)).

Record lsm_inv (H : newest_map) (s : kstate) : Prop := {
  inv_init : initialized (meta s) = true;
  inv_ok : lsm_ok H (levels (meta s)) (map seg_core (segments (meta s))) (timestamp (meta s));
  inv_addr : addr_ok (levels (meta s)) (hp_next (hp s));
  inv_rt_wf : rt_wf (meta s);
  inv_rt : rt_agrees H (meta s);
}.

(** ** Frames *)

Lemma keeps_levels s s' : keeps s s' -> levels (meta s') = levels (meta s).
Proof. intros [H _]. by apply (f_equal (fun s => levels (meta s))) in H. Qed.
Lemma keeps_segments s s' : keeps s s' -> map seg_core (segments (meta s')) = map seg_core (segments (meta s)).
Proof. intros [H _]. by apply (f_equal (fun s => segments (meta s))) in H. Qed.
Lemma keeps_timestamp s s' : keeps s s' -> timestamp (meta s') = timestamp (meta s).
Proof. intros [H _]. by apply (f_equal (fun s => timestamp (meta s))) in H. Qed.
Lemma keeps_initialized s s' : keeps s s' -> initialized (meta s') = initialized (meta s).
Proof. intros [H _]. by apply (f_equal (fun s => initialized (meta s))) in H. Qed.

Lemma addr_ok_mono lv b b' : b <= b' -> addr_ok lv b -> addr_ok lv b'.
Proof. intros Hb Ha l Hl. destruct (Ha l Hl) as [H1 H2]. split; [done|]. intros n Hn. specialize (H2 n Hn). lia. Qed.

(** Operations on the read tree only need to keep its two clauses. *)
Lemma inv_keeps H s s' : keeps s s' -> rt_wf (meta s') -> rt_agrees H (meta s') -> lsm_inv H s -> lsm_inv H s'.
Proof.
  intros Hk Hw Ha [I1 I2 I3 _ _]. split; [by rewrite (keeps_initialized _ _ Hk)| | |done|done].
  - by rewrite (keeps_levels _ _ Hk), (keeps_segments _ _ Hk), (keeps_timestamp _ _ Hk).
  - rewrite (keeps_levels _ _ Hk). eapply addr_ok_mono; [|exact I3]. apply Hk.
Qed.

(** Operations that leave the read tree alone keep the whole invariant. *)
Lemma inv_keeps_rt H s s' : keeps_rt s s' -> lsm_inv H s -> lsm_inv H s'.
Proof.
  intros Hk Hi. pose proof (keeps_rt_same _ _ Hk) as Hs. apply (inv_keeps H s); [by apply keeps_rt_keeps| | |done].
  - eapply same_rt_wf; [done|]. apply Hi.
  - unfold rt_agrees. rewrite (srt_tree _ _ Hs). apply Hi.
Qed.

Lemma inv_core H s s' : core s' = core s -> lsm_inv H s -> lsm_inv H s'.
Proof. intros E. apply inv_keeps_rt. by apply core_keeps. Qed.

(** An update of the read tree with the newest record of its key. *)
Lemma inv_tree_update H key pba valid ts s :
  H key = Some (MkRec pba valid ts) -> lsm_inv H s -> lsm_inv H (imr_lsm_tree_update_locked key pba valid ts s).
Proof.
  intros Hk Hi. pose proof (inv_rt_wf _ _ Hi) as Hw. destruct (update_spec key pba valid ts s Hw) as (H1 & _ & H3).
  apply (inv_keeps H s); [by apply keeps_tree_update|done| |done].
  intros k n Hn. apply (cache_in _ k n (proj1 H1)) in Hn. rewrite H3 in Hn.
  apply (cache_update_in _ _ _ _ _ _ _ _ _ (proj1 Hw)) in Hn.
  destruct Hn as [[Hne Hin]|[-> [->|[Hold _]]]].
  - apply Hi. by apply cache_in; [apply Hw|].
  - done.
  - by apply Hi.
Qed.

(** ** Lookup *)

Lemma tbl_sorted_map t : tbl_sorted (map entry_core t) <-> tbl_sorted t.
Proof.
  induction t as [|e t IH]; cbn; [done|]. rewrite !tbl_sorted_cons, IH. split; (intros [H1 H2]; split; [|done]).
  - intros x Hx. apply (H1 (entry_core x)). apply list_elem_of_fmap. by exists x.
  - intros x (y & -> & Hy)%list_elem_of_fmap. by apply (H1 y).
Qed.

Lemma seg_ok_core g : seg_ok (seg_core g) <-> seg_ok g.
Proof.
  assert (lenZ (map entry_core (sg_table g)) = lenZ (sg_table g)) as E by (unfold lenZ; by rewrite length_map).
  split; intros [H1 H2 H3 H4 H5]; cbn in *.
  - split; [by apply tbl_sorted_map|by rewrite <- E|done|..].
    + intros e He. apply (H4 (entry_core e)). apply list_elem_of_fmap. by exists e.
    + intros e He. apply (H5 (entry_core e)). apply list_elem_of_fmap. by exists e.
  - split; cbn; [by apply tbl_sorted_map|by rewrite E|done|..].
    + intros e (x & -> & Hx)%list_elem_of_fmap. by apply (H4 x).
    + intros e (x & -> & Hx)%list_elem_of_fmap. by apply (H5 x).
Qed.

(** A lookup in a well-formed segment finds exactly the entry of its key. *)
Lemma lookup_segment_spec lv key now g a :
  seg_ok g ->
  let '(g', a') := lookup_segment lv key now g a in
  seg_core g' = seg_core g /\
  ls_has_segment a' = ls_has_segment a || (sg_level g =? lv) /\
  ls_needs_sorted a' = ls_needs_sorted a /\
  ls_entry a' = (if (sg_level g =? lv) && negb (sg_retired g)
                 then match tbl_find key (sg_table g) with Some e => newer_entry e (ls_entry a) | None => ls_entry a end
                 else ls_entry a).
Proof.
  intros [Hs Hl _ Hr Hb]. unfold lookup_segment. destruct (sg_level g =? lv) eqn:El; [|by rewrite orb_false_r].
  rewrite orb_true_r. destruct (sg_retired g) eqn:Er; [done|]. cbn [andb negb].
  destruct ((key <? sg_min_key g) || (key >? sg_max_key g)) eqn:Ek.
  { assert (tbl_find key (sg_table g) = None) as ->; [|done].
    apply tbl_find_None. intros e He. specialize (Hr e He). lia. }
  destruct ((bloom_key_count (sg_bloom g) =? 0) || imr_lsm_bloom_may_contain (sg_bloom g) key) eqn:Em.
  - unfold block_table_count. replace (lenZ (sg_table g) =? 0) with false by lia. cbn [negb].
    rewrite table_find_eq by (done || lia). by destruct (tbl_find key (sg_table g)).
  - assert (tbl_find key (sg_table g) = None) as ->; [|done].
    destruct (tbl_find key (sg_table g)) as [e|] eqn:Ef; [|done]. exfalso. apply tbl_find_Some in Ef as [He <-].
    rewrite (Hb e He), orb_true_r in Em. done.
Qed.

Definition entry_ts (o : option block_entry) : Z := match o with Some e => be_timestamp e | None => 0 end.

Lemma lookup_segments_spec lv key now : forall l a,
  (forall g, g ∈ l -> seg_ok g) ->
  let '(l', a') := lookup_segments lv key now l a in
  map seg_core l' = map seg_core l /\ ls_needs_sorted a' = ls_needs_sorted a /\
  (forall e, ls_entry a' = Some e -> ls_entry a = Some e \/
     exists g, g ∈ l /\ sg_retired g = false /\ tbl_find key (sg_table g) = Some e) /\
  (forall e, ls_entry a = Some e -> exists e', ls_entry a' = Some e' /\ be_timestamp e <= be_timestamp e') /\
  (forall g e, g ∈ l -> sg_retired g = false -> sg_level g = lv -> tbl_find key (sg_table g) = Some e ->
     exists e', ls_entry a' = Some e' /\ be_timestamp e <= be_timestamp e').
Proof.
  induction l as [|g l IH]; intros a Hok; cbn [lookup_segments].
  { split_and!; [done|done|by left|by eauto with lia|by intros ? ? ?%elem_of_nil]. }
  pose proof (lookup_segment_spec lv key now g a (Hok g (list_elem_of_here _ _))) as Hg.
  destruct (lookup_segment lv key now g a) as [g' a1]. destruct Hg as (Hc & _ & Hn & He).
  specialize (IH a1 (fun x Hx => Hok x (list_elem_of_further _ _ _ Hx))).
  destruct (lookup_segments lv key now l a1) as [l' a']. destruct IH as (I1 & I2 & I3 & I4 & I5).
  assert (forall x o, exists y, newer_entry x o = Some y /\ be_timestamp x <= be_timestamp y /\ (forall z, o = Some z -> be_timestamp z <= be_timestamp y)
    /\ (y = x \/ o = Some y)) as Hnew.
  { intros x [z|]; cbn; [|exists x; naive_solver lia].
    destruct (be_timestamp x >? be_timestamp z) eqn:E; [exists x|exists z]; split_and!; naive_solver lia. }
  split_and!.
  - cbn. by rewrite Hc, I1.
  - by rewrite I2.
  - intros e Hee. destruct (I3 e Hee) as [H1|(x & Hx & ? & ?)]; [|right; exists x; split_and!; [by right|done|done]].
    rewrite He in H1. destruct ((sg_level g =? lv) && negb (sg_retired g)) eqn:Eb; [|by left].
    destruct (tbl_find key (sg_table g)) as [y|] eqn:Ey; [|by left].
    destruct (Hnew y (ls_entry a)) as (z & Hz & _ & _ & Hor). rewrite H1 in Hz. simplify_eq.
    destruct Hor as [->|]; [|by left]. right. exists g. split_and!; [by left| |done].
    destruct (sg_retired g); [|done]. by rewrite andb_false_r in Eb.
  - intros e Hee. assert (exists y, ls_entry a1 = Some y /\ be_timestamp e <= be_timestamp y) as (y & Hy & Hle).
    { rewrite He. destruct ((sg_level g =? lv) && negb (sg_retired g)); [|by eauto with lia].
      destruct (tbl_find key (sg_table g)) as [y|]; [|by eauto with lia].
      destruct (Hnew y (ls_entry a)) as (z & Hz & _ & Hm & _). exists z. split; [done|by apply Hm]. }
    destruct (I4 y Hy) as (z & Hz & ?). exists z. split; [done|lia].
  - intros x e [->|Hx]%elem_of_cons Hr Hl Hf; [|by eapply I5].
    rewrite Hl, Z.eqb_refl, Hr, Hf in He. cbn [andb negb] in He.
    destruct (Hnew e (ls_entry a)) as (z & Hz & Hle & _). rewrite Hz in He.
    destruct (I4 z He) as (y & Hy & ?). exists y. split; [done|lia].
Qed.

(** The record the search has so far: none yet, or one that is stored. *)
Definition best_ok (H : newest_map) (key : Z) (w : newest) : Prop :=
  w = no_newest \/ (nw_source w <> SOURCE_NONE /\ bounded H key (MkRec (nw_pba w) (nw_valid w) (nw_timestamp w))).

Lemma take_newer_spec H key ts valid pba src w :
  src <> SOURCE_NONE -> bounded H key (MkRec pba valid ts) -> best_ok H key w ->
  let w' := take_newer ts valid pba src w in
  best_ok H key w' /\ nw_timestamp w <= nw_timestamp w' /\ ts <= nw_timestamp w'.
Proof.
  intros Hs Hb Hw. unfold take_newer. destruct (ts >? nw_timestamp w) eqn:E; cbn; split_and!; try lia; [by right|done].
Qed.

Lemma read_unsorted_spec H key nodes : forall w,
  (forall n, n ∈ nodes -> bounded H (n_key n) (node_rec n)) -> best_ok H key w ->
  let w' := fold_left (fun w n => if n_key n =? key then take_newer (n_timestamp n) (n_valid n) (n_pba n) SOURCE_UNSORTED w else w) nodes w in
  best_ok H key w' /\ nw_timestamp w <= nw_timestamp w' /\
  (forall n, n ∈ nodes -> n_key n = key -> n_timestamp n <= nw_timestamp w').
Proof.
  induction nodes as [|n l IH]; intros w Hb Hw; cbn [fold_left]; [split_and!; [done|lia|by intros ? ?%elem_of_nil]|].
  assert (forall x, x ∈ l -> bounded H (n_key x) (node_rec x)) as Hb' by (intros; apply Hb; by right).
  destruct (n_key n =? key) eqn:E.
  - destruct (take_newer_spec H key (n_timestamp n) (n_valid n) (n_pba n) SOURCE_UNSORTED w) as (T1 & T2 & T3);
      [done|replace key with (n_key n) by lia; apply (Hb n); by left|done|].
    destruct (IH _ Hb' T1) as (I1 & I2 & I3). split_and!; [done|lia|].
    intros x [->|Hx]%elem_of_cons Hk; [lia|by apply I3].
  - destruct (IH w Hb' Hw) as (I1 & I2 & I3). split_and!; [done|lia|].
    intros x [->|Hx]%elem_of_cons Hk; [lia|by apply I3].
Qed.

Lemma read_all_unsorted_spec H key lv : forall w,
  (forall l n, l ∈ lv -> n ∈ unsorted_head l -> bounded H (n_key n) (node_rec n)) -> best_ok H key w ->
  let w' := fold_left (read_unsorted key) lv w in
  best_ok H key w' /\ nw_timestamp w <= nw_timestamp w' /\
  (forall l n, l ∈ lv -> n ∈ unsorted_head l -> n_key n = key -> n_timestamp n <= nw_timestamp w').
Proof.
  induction lv as [|l lv IH]; intros w Hb Hw; cbn [fold_left]; [split_and!; [done|lia|by intros ? ? ?%elem_of_nil]|].
  destruct (read_unsorted_spec H key (unsorted_head l) w) as (R1 & R2 & R3); [intros; eapply Hb; [by left|done]|done|].
  fold (read_unsorted key w l) in *.
  destruct (IH (read_unsorted key w l)) as (I1 & I2 & I3); [intros; eapply Hb; [by right|done]|done|].
  split_and!; [done|unfold read_unsorted in *; lia|]. intros x n [->|Hx]%elem_of_cons Hn Hk; [|by eapply I3].
  specialize (R3 n Hn Hk). unfold read_unsorted in *. lia.
Qed.

Lemma sorted_scan_in key l n : sorted_scan key l = Some n -> n ∈ l /\ n_key n = key.
Proof.
  induction l as [|x l IH]; cbn; [done|]. destruct (n_key x =? key) eqn:E.
  - intros [= ->]. split; [by left|lia].
  - destruct (n_key x >? key); [done|]. intros H. destruct (IH H). split; [by right|done].
Qed.

Lemma level_in i s l : nthZ (levels (meta s)) i = Some l -> level i s = l.
Proof. unfold level. by intros ->. Qed.

(** Reading one level. *)
Lemma read_level_spec H key s f w lv :
  lsm_ok H (levels (meta s)) (map seg_core (segments (meta s))) (timestamp (meta s)) -> best_ok H key w -> 0 <= lv <= 6 ->
  let '(s', f', w') := read_level key (s, f, w) lv in
  core s' = core s /\ best_ok H key w' /\ nw_timestamp w <= nw_timestamp w' /\
  (forall g e, g ∈ segments (meta s) -> sg_retired g = false -> sg_level g = lv -> e ∈ sg_table g -> be_key e = key ->
     be_timestamp e <= nw_timestamp w').
Proof.
  intros Hok Hw Hlv. unfold read_level, imr_lsm_segment_lookup_level_locked.
  assert (forall g, g ∈ segments (meta s) -> seg_ok g) as Hsegs.
  { intros g Hg. apply seg_ok_core, (ok_segs _ _ _ _ Hok), list_elem_of_fmap. by exists g. }
  pose proof (lookup_segments_spec lv key (timestamp (meta s)) (segments (meta s)) (MkScan f None false false) Hsegs) as Hl.
  destruct (lookup_segments _ _ _ _ _) as [l' a]. destruct Hl as (L1 & _ & L3 & _ & L5).
  set (s1 := upd_meta (set_segments l') s).
  assert (core s1 = core s) as Hc.
  { unfold s1, core, upd_meta, meta_core. cbn. by rewrite L1. }
  set (w1 := match ls_entry a with Some e => take_newer (be_timestamp e) (be_valid e) (be_pba e) SOURCE_SEGMENT w | None => w end).
  assert (best_ok H key w1 /\ nw_timestamp w <= nw_timestamp w1 /\ (forall e, ls_entry a = Some e -> be_timestamp e <= nw_timestamp w1)) as (W1 & W2 & W3).
  { subst w1. destruct (ls_entry a) as [e|] eqn:Ee; [|by split_and!; [|lia|]].
    destruct (L3 e eq_refl) as [|(g & Hg & Hr & Hf)]; [done|]. apply tbl_find_Some in Hf as [He Hk].
    destruct (take_newer_spec H key (be_timestamp e) (be_valid e) (be_pba e) SOURCE_SEGMENT w) as (T1 & T2 & T3); [done| |done|].
    - rewrite <- Hk. apply (ok_entries _ _ _ _ Hok (seg_core g) (entry_core e)); [apply list_elem_of_fmap; by exists g|done|].
      apply list_elem_of_fmap. by exists e.
    - split_and!; [done|done|]. by intros ? [= <-]. }
  assert (forall g e, g ∈ segments (meta s) -> sg_retired g = false -> sg_level g = lv -> e ∈ sg_table g -> be_key e = key ->
     be_timestamp e <= nw_timestamp w1) as Hcov.
  { intros g e Hg Hr Hl He Hk. destruct (L5 g e Hg Hr Hl) as (e' & He' & Hle).
    - rewrite <- Hk. apply tbl_find_in; [apply (Hsegs g Hg)|done].
    - specialize (W3 e' He'). lia. }
  destruct (negb _ || (sorted_count (level lv s1) =? 0)); [by split_and!|].
  change (level lv s1) with (level lv s).
  destruct (sorted_scan key (sorted_head (level lv s))) as [n|] eqn:En; [|by split_and!].
  apply sorted_scan_in in En as [Hn Hk].
  assert (bounded H key (MkRec (n_pba n) (n_valid n) (n_timestamp n))) as Hb.
  { rewrite <- Hk. unfold level in Hn. destruct (nthZ (levels (meta s)) lv) as [l|] eqn:El; [|by apply elem_of_nil in Hn].
    apply (ok_sorted _ _ _ _ Hok l n); [by eapply nthZ_In|done]. }
  destruct (take_newer_spec H key (n_timestamp n) (n_valid n) (n_pba n) SOURCE_SORTED w1) as (T1 & T2 & T3); [done|done|done|].
  split_and!; [done|done|lia|]. intros g e Hg Hr Hl He Hke. specialize (Hcov g e Hg Hr Hl He Hke). lia.
Qed.

Lemma core_fields s s' : core s' = core s ->
  levels (meta s') = levels (meta s) /\ map seg_core (segments (meta s')) = map seg_core (segments (meta s)) /\
  timestamp (meta s') = timestamp (meta s).
Proof.
  intros E. split_and!.
  - by apply (f_equal (fun s => levels (meta s))) in E.
  - by apply (f_equal (fun s => segments (meta s))) in E.
  - by apply (f_equal (fun s => timestamp (meta s))) in E.
Qed.

Lemma read_levels_spec H key lvs : forall s f w,
  lsm_ok H (levels (meta s)) (map seg_core (segments (meta s))) (timestamp (meta s)) -> best_ok H key w ->
  (forall lv, lv ∈ lvs -> 0 <= lv <= 6) ->
  let '(s', f', w') := fold_left (read_level key) lvs (s, f, w) in
  core s' = core s /\ best_ok H key w' /\ nw_timestamp w <= nw_timestamp w' /\
  (forall g e, g ∈ map seg_core (segments (meta s)) -> sg_retired g = false -> sg_level g ∈ lvs -> e ∈ sg_table g -> be_key e = key ->
     be_timestamp e <= nw_timestamp w').
Proof.
  induction lvs as [|lv lvs IH]; intros s f w Hok Hw Hlvs; cbn [fold_left].
  { split_and!; [done|done|lia|by intros ? ? ? ? ?%elem_of_nil]. }
  pose proof (read_level_spec H key s f w lv Hok Hw (Hlvs lv (list_elem_of_here _ _))) as Hl.
  destruct (read_level key (s, f, w) lv) as [[s1 f1] w1]. destruct Hl as (C1 & W1 & T1 & E1).
  destruct (core_fields _ _ C1) as (F1 & F2 & F3).
  specialize (IH s1 f1 w1 ltac:(by rewrite F1, F2, F3) W1 (fun x Hx => Hlvs x (list_elem_of_further _ _ _ Hx))).
  destruct (fold_left (read_level key) lvs (s1, f1, w1)) as [[s2 f2] w2]. destruct IH as (C2 & W2 & T2 & E2).
  split_and!; [by rewrite C2|done|lia|]. intros g e Hg Hr Hlv He Hk.
  apply elem_of_cons in Hlv as [Hlv|Hlv]; [|eapply E2; [by rewrite F2|done..]].
  apply list_elem_of_fmap in Hg as (g0 & -> & Hg). apply list_elem_of_fmap in He as (e0 & -> & He).
  specialize (E1 g0 e0 Hg Hr Hlv He Hk). cbn. lia.
Qed.

Lemma bounded_best H key w r :
  best_ok H key w -> H key = Some r -> 1 <= r_ts r <= nw_timestamp w ->
  nw_source w <> SOURCE_NONE /\ MkRec (nw_pba w) (nw_valid w) (nw_timestamp w) = r.
Proof.
  intros [->|[Hs (r0 & Hr0 & Hor)]] Hr Hts; [cbn in Hts; lia|]. rewrite Hr in Hr0. simplify_eq.
  split; [done|]. destruct Hor as [Hlt|]; [cbn in Hlt; lia|done].
Qed.

Lemma core_record_filter key f s : core (record_filter key f s) = core s.
Proof.
  unfold record_filter. cbv zeta. destruct (fs_entry f); (rewrite !core_fold; [done|..]); intros s1 [n v]; by autorewrite with core.
Qed.

(** A lookup answers with the newest record and keeps the invariant. *)
Lemma read_spec H key s :
  lsm_inv H s -> let '(s', r) := imr_lsm_read key s in r = answer (H key) /\ lsm_inv H s' /\ keeps s s'.
Proof.
  intros Hi. unfold imr_lsm_read. cbv zeta. set (s0 := st_inc "read_lookup_count" s).
  assert (lsm_inv H s0) as Hi0 by (by apply (inv_core H s)).
  change (initialized (meta s0)) with (initialized (meta s)). rewrite (inv_init _ _ Hi). cbn [negb].
  pose proof (lookup_spec key s0 (inv_rt_wf _ _ Hi0)) as Hlk. pose proof (keeps_tree_lookup key s0 (inv_rt_wf _ _ Hi0)) as Hkl.
  destruct (imr_lsm_tree_lookup_locked key s0) as [s1 r]. destruct Hlk as (Hw1 & _ & Hr). cbn [fst] in Hkl.
  assert (keeps s s1) as Hk1. { etransitivity; [apply keeps_rt_keeps, core_keeps|exact Hkl]. done. }
  assert (lsm_inv H s1) as Hi1.
  { apply (inv_keeps H s0); [done|done| |done]. intros k n Hn. apply (inv_rt _ _ Hi0 k).
    apply (cache_in _ k n (proj1 Hw1)) in Hn. apply (cache_in _ k n (proj1 (inv_rt_wf _ _ Hi0))).
    destruct (m_find key (read_tree (meta s0))) as [x|] eqn:Ex; destruct Hr as [_ Hr]; rewrite Hr in Hn; [|done].
    unfold cache_touch, cache_drop in Hn. rewrite elem_of_app, list_elem_of_filter, list_elem_of_singleton in Hn.
    destruct Hn as [[_ Hn]|Heq]; [done|]. injection Heq as -> ->. by apply cache_in; [apply (inv_rt_wf _ _ Hi0)|]. }
  destruct (m_find key (read_tree (meta s0))) as [x|] eqn:Ex.
  { destruct Hr as [-> _]. pose proof (inv_rt _ _ Hi0 key x Ex) as Hx. rewrite Hx. cbn.
    destruct (rn_valid x); (split; [done|]); (split; [by apply (inv_core H s1)|]); (etransitivity; [exact Hk1|by apply keeps_rt_keeps, core_keeps]). }
  destruct Hr as [-> _].
  pose proof (inv_ok _ _ Hi1) as Hok.
  destruct (read_all_unsorted_spec H key (levels (meta s1)) no_newest) as (U1 & U2 & U3);
    [by apply (ok_unsorted _ _ _ _ Hok)|by left|].
  set (w := fold_left (read_unsorted key) (levels (meta s1)) no_newest) in *.
  pose proof (read_levels_spec H key [0; 1; 2; 3; 4; 5; 6] s1 no_filter w Hok U1) as Hls.
  destruct (fold_left (read_level key) _ (s1, no_filter, w)) as [[s2 f] w2].
  destruct Hls as (C2 & W2 & T2 & E2).
  { intros lv. rewrite !elem_of_cons, elem_of_nil. lia. }
  set (s3 := record_filter key f s2). assert (core s3 = core s1) as C3 by (subst s3; by rewrite core_record_filter, C2).
  assert (lsm_inv H s3) as Hi3 by (by apply (inv_core H s1)).
  assert (keeps s s3) as Hk3 by (etransitivity; [exact Hk1|by apply keeps_rt_keeps, core_keeps]).
  destruct (H key) as [r|] eqn:Er.
  - assert (1 <= r_ts r <= nw_timestamp w2) as Hts.
    { split; [by apply (ok_now _ _ _ _ Hok key)|]. destruct (ok_present _ _ _ _ Hok key r Er) as [(l & n & Hl & Hn & Hk & <-)|(g & e & Hg & Hret & He & Hk & <-)].
      - specialize (U3 l n Hl Hn Hk). cbn. lia.
      - apply (E2 g e Hg Hret); [|done|done]. destruct (ok_segs _ _ _ _ Hok g Hg) as [_ _ Hlv _ _].
        unfold IMR_LSM_MAX_LEVEL in Hlv. rewrite !elem_of_cons, elem_of_nil. lia. }
    destruct (bounded_best H key w2 r W2 Er Hts) as [Hsrc <-]. cbn [answer r_valid r_pba] in *.
    assert (lsm_inv H (imr_lsm_tree_update_locked key (nw_pba w2) (nw_valid w2) (nw_timestamp w2) s3)) as Hi4 by (by apply inv_tree_update).
    assert (keeps s (imr_lsm_tree_update_locked key (nw_pba w2) (nw_valid w2) (nw_timestamp w2) s3)) as Hk4.
    { etransitivity; [exact Hk3|]. apply keeps_tree_update, Hi3. }
    destruct (nw_source w2); [done|..]; destruct (nw_valid w2); (split; [done|]); (split; [by eapply inv_core; [|exact Hi4]|]);
      (etransitivity; [exact Hk4|by apply keeps_rt_keeps, core_keeps]).
  - assert (w2 = no_newest) as ->.
    { destruct W2 as [|[_ (r0 & Hr0 & _)]]; [done|congruence]. }
    cbn. split; [done|]. split; [by apply (inv_core H s3)|]. etransitivity; [exact Hk3|by apply keeps_rt_keeps, core_keeps].
Qed.
