(* ===== verification/ImrLsmOps.v ===== *)
(** Insertion, deletion and the read-tree controls keep the LSM invariant. *)

From Stdlib Require Import Sorted.
From S2P Require Import Prelude StdMap ImrPrelude ImrGeometry ImrBloom ImrState ImrReadTree ImrLevels ImrSegment ImrPlacement ImrAccounting ImrCore ImrLsm ImrLsmInv.

(** ** Updating one level *)

Lemma elem_of_updZ {A} (l : list A) i x y : y ∈ updZ l i x -> y = x \/ y ∈ l.
Proof.
  intros (j & Hj)%In_nthZ. destruct (decide (i = j)) as [->|Hne].
  - pose proof (nthZ_Some _ _ _ Hj) as Hr. rewrite lenZ_updZ in Hr. rewrite nthZ_updZ_eq in Hj by done. left. congruence.
  - rewrite nthZ_updZ_ne in Hj by done. right. by eapply nthZ_In.
Qed.
Lemma updZ_elem_of {A} (l : list A) i x old y : nthZ l i = Some old -> y ∈ l -> y = old \/ y ∈ updZ l i x.
Proof.
  intros Ho (j & Hj)%In_nthZ. destruct (decide (i = j)) as [->|Hne]; [left; congruence|]. right.
  apply (nthZ_In _ j). by rewrite nthZ_updZ_ne.
Qed.
Lemma updZ_here {A} (l : list A) i x old : nthZ l i = Some old -> x ∈ updZ l i x.
Proof. intros Ho%nthZ_Some. apply (nthZ_In _ i). by apply nthZ_updZ_eq. Qed.

Lemma weight_nonneg l : 0 <= weight l.
Proof. unfold weight. pose proof (lenZ_nonneg (unsorted_head l)). pose proof (lenZ_nonneg (sorted_head l)). lia. Qed.
Lemma total_nonneg lv : 0 <= total lv.
Proof. induction lv as [|l lv IH]; cbn; [lia|]. pose proof (weight_nonneg l). lia. Qed.
Lemma weight_total lv l : l ∈ lv -> weight l <= total lv.
Proof.
  induction lv as [|x lv IH]; [by intros ?%elem_of_nil|]. cbn. pose proof (total_nonneg lv). pose proof (weight_nonneg x).
  intros [->|Hl]%elem_of_cons; [lia|]. specialize (IH Hl). lia.
Qed.
Lemma total_updZ lv i l l' : nthZ lv i = Some l -> total (updZ lv i l') = total lv - weight l + weight l'.
Proof.
  intros H. pose proof (nthZ_Some _ _ _ H) as Hr. unfold nthZ, updZ in *. replace (0 <=? i) with true in * by lia.
  clear Hr. revert H. generalize (Z.to_nat i). clear i. induction lv as [|x lv IH]; intros [|n] H; cbn in *; try done.
  - simplify_eq. lia.
  - etransitivity; [apply (f_equal (Z.add (weight x)) (IH n H))|lia].
Qed.

(** ** Recording a newer record *)

Lemma bounded_record H key r now k x :
  (forall k r, H k = Some r -> 1 <= r_ts r <= now) -> now < r_ts r -> bounded H k x -> bounded (record H key r) k x.
Proof.
  intros Hn Hr (r0 & Hr0 & Hor). unfold bounded, record. destruct (decide (k = key)) as [->|]; [|by exists r0].
  exists r. split; [done|]. left. specialize (Hn key r0 Hr0). destruct Hor as [| -> ]; lia.
Qed.

Definition push_node (n : lsm_node) (l : level_state) : level_state :=
  set_unsorted_count (u32 (unsorted_count l + 1)) (set_unsorted_head (n :: unsorted_head l) l).

Lemma lsm_ok_append H lv gs now i l n :
  lsm_ok H lv gs now -> nthZ lv i = Some l -> now + 1 < 2 ^ 32 -> n_timestamp n = now + 1 ->
  lsm_ok (record H (n_key n) (node_rec n)) (updZ lv i (push_node n l)) gs (now + 1).
Proof.
  intros Hok Hl Hnow Hts. pose proof (nthZ_In _ _ _ Hl) as Hin.
  assert (forall k x, bounded H k x -> bounded (record H (n_key n) (node_rec n)) k x) as Hb.
  { intros k x. apply bounded_record with now; [apply Hok|cbn; lia]. }
  destruct (ok_counts _ _ _ _ Hok l Hin) as [Hc1 Hc2]. pose proof (weight_total lv l Hin) as Hw.
  pose proof (ok_total _ _ _ _ Hok) as Ht. unfold weight in Hw. pose proof (lenZ_nonneg (unsorted_head l)). pose proof (lenZ_nonneg (sorted_head l)).
  split.
  - rewrite lenZ_updZ. apply Hok.
  - intros x [->|Hx]%elem_of_updZ; [|by apply Hok]. cbn. rewrite lenZ_cons, Hc1. split; [|done]. rewrite u32_small; lia.
  - rewrite (total_updZ _ _ _ _ Hl). unfold weight. cbn. rewrite lenZ_cons. lia.
  - intros k r. unfold record. destruct (decide (k = n_key n)); [intros [= <-]; cbn; pose proof (total_nonneg lv); lia|].
    intros Hr. pose proof (ok_now _ _ _ _ Hok k r Hr). lia.
  - intros x y [->|Hx]%elem_of_updZ Hy; [|by apply Hb, (ok_unsorted _ _ _ _ Hok x)]. cbn in Hy.
    apply elem_of_cons in Hy as [->|Hy]; [|by apply Hb, (ok_unsorted _ _ _ _ Hok l)].
    exists (node_rec n). unfold record. rewrite decide_True by done. split; [done|by right].
  - intros x y [->|Hx]%elem_of_updZ Hy; [by apply Hb, (ok_sorted _ _ _ _ Hok l)|by apply Hb, (ok_sorted _ _ _ _ Hok x)].
  - intros x [->|Hx]%elem_of_updZ; [by apply (ok_order _ _ _ _ Hok l)|by apply Hok].
  - apply Hok.
  - intros g e Hg Hr He. by apply Hb, (ok_entries _ _ _ _ Hok g e).
  - intros k r. unfold record. destruct (decide (k = n_key n)) as [->|Hne].
    + intros [= <-]. left. exists (push_node n l), n. split_and!; [by eapply updZ_here|by left|done|done].
    + intros Hr. destruct (ok_present _ _ _ _ Hok k r Hr) as [(x & y & Hx & Hy & ? & ?)|Hg]; [left|by right].
      destruct (updZ_elem_of lv i (push_node n l) l x Hl Hx) as [->|Hx']; [|by exists x, y].
      exists (push_node n l), y. split_and!; [by eapply updZ_here|cbn; by right|done|done].
  - intros g e Hg Hr Hlv He. destruct (ok_covered _ _ _ _ Hok g e Hg Hr Hlv He) as (x & y & Hx & Hy & ? & ?).
    destruct (decide (i = sg_level g)) as [->|Hne].
    + exists (push_node n l), y. assert (x = l) as -> by congruence.
      split_and!; [apply nthZ_updZ_eq; by eapply nthZ_Some|done|done|done].
    + exists x, y. split_and!; [by rewrite nthZ_updZ_ne|done|done|done].
Qed.

Lemma addr_ok_append lv bound i l n :
  addr_ok lv bound -> nthZ lv i = Some l -> n_addr n = bound -> addr_ok (updZ lv i (push_node n l)) (bound + 1).
Proof.
  intros Ha Hl Hn x [->|Hx]%elem_of_updZ.
  - destruct (Ha l (nthZ_In _ _ _ Hl)) as [H1 H2]. cbn. split.
    + apply NoDup_cons. split; [|done]. intros (y & Hy & Hin)%list_elem_of_fmap. specialize (H2 y Hin). lia.
    + intros y [->|Hy]%elem_of_cons; [lia|]. specialize (H2 y Hy). lia.
  - destruct (Ha x Hx) as [H1 H2]. split; [done|]. intros y Hy. specialize (H2 y Hy). lia.
Qed.

(** The allocator's two outcomes. *)
Lemma st_alloc_cases s :
  exists h, (st_alloc s = (set_hp h s, None) /\ hp_next h = hp_next (hp s)) \/
            (st_alloc s = (set_hp h s, Some (hp_next (hp s))) /\ hp_next h = hp_next (hp s) + 1).
Proof.
  unfold st_alloc, kzalloc. destruct (hp_script (hp s)) as [|[] r]; cbn; eexists; [right|right|left]; split; reflexivity.
Qed.

Lemma keeps_set_hp h s : hp_next (hp s) <= hp_next h -> keeps s (set_hp h s).
Proof. by split. Qed.

(** The state with one more node in an unsorted list. *)
Definition pushed (lv : Z) (n : lsm_node) (s : kstate) : kstate :=
  upd_meta (fun m => set_levels (updZ (levels m) lv (push_node n (level lv s))) (set_timestamp (n_timestamp n) m)) s.

(** A new record in an unsorted list becomes the newest of its key. *)
Lemma append_spec H lv key pba zone_idx valid s :
  lsm_inv H s -> 0 <= lv <= 6 -> timestamp (meta s) + 1 < 2 ^ 32 ->
  let '(s', ret) := imr_lsm_append_unsorted_node_locked lv key pba zone_idx valid s in
  (ret = - ENOMEM /\ lsm_inv H s' /\ keeps_rt s s') \/
  (ret = 0 /\ lsm_inv (record H key (MkRec pba valid (timestamp (meta s) + 1))) s' /\
   exists n, n_key n = key /\ node_rec n = MkRec pba valid (timestamp (meta s) + 1) /\
     hp_next (hp s) <= n_addr n /\ keeps (pushed lv n s) s').
Proof.
  intros Hi Hlv Hts. unfold imr_lsm_append_unsorted_node_locked. destruct (st_alloc_cases s) as (h & [[-> Hh]|[-> Hh]]).
  { left. assert (keeps_rt s (set_hp h s)) as Hk by (split; [done|cbn; lia]). split_and!; [done|by apply (inv_keeps_rt H s)|done]. }
  right. cbv zeta. cbn [meta set_hp timestamp].
  pose proof (inv_ok _ _ Hi) as Hok. destruct (nthZ_is_Some (levels (meta s)) lv) as [l Hl].
  { rewrite (ok_levels _ _ _ _ Hok). lia. }
  assert (0 <= timestamp (meta s)) as Hpos by (pose proof (ok_total _ _ _ _ Hok); pose proof (total_nonneg (levels (meta s))); lia).
  rewrite (u64_small (timestamp (meta s) + 1)) by lia. set (ts := timestamp (meta s) + 1).
  set (n := MkNode (hp_next (hp s)) key pba zone_idx valid ts). set (H' := record H key (MkRec pba valid ts)).
  set (s2 := upd_level lv _ _).
  assert (s2 = set_hp h (upd_meta (fun m => set_levels (updZ (levels m) lv (push_node n l)) (set_timestamp ts m)) s)) as E2.
  { unfold s2, upd_level, upd_meta, push_node, level. cbn. by rewrite Hl. }
  assert (lsm_ok H' (levels (meta s2)) (map seg_core (segments (meta s2))) (timestamp (meta s2))) as Hok2.
  { rewrite E2. cbn. by apply (lsm_ok_append H _ _ _ _ _ n). }
  assert (addr_ok (levels (meta s2)) (hp_next (hp s2))) as Ha2.
  { rewrite E2. cbn. rewrite Hh. apply (addr_ok_append _ _ _ _ n); [apply Hi|done|done]. }
  assert (rt_wf (meta s2)) as Hw2 by (rewrite E2; apply (same_rt_wf (meta s)); [done|apply Hi]).
  assert (initialized (meta s2) = true) as Hin2 by (rewrite E2; apply Hi).
  assert (read_tree (meta s2) = read_tree (meta s) /\ timestamp (meta s2) = ts) as [Hrt2 Ht2] by (by rewrite E2).
  assert (keeps (pushed lv n s) s2) as Hpush.
  { rewrite E2. unfold pushed, level. rewrite Hl. apply keeps_set_hp. cbn. lia. }
  clearbody s2. clear E2.
  pose proof (keeps_newest_update key ts valid s2) as Hk3. set (s3 := (imr_lsm_newest_index_update_locked key ts valid s2).1) in *. clearbody s3.
  pose proof (keeps_rt_keeps _ _ Hk3) as Hk3'. pose proof (keeps_rt_same _ _ Hk3) as Hs3.
  assert (rt_wf (meta s3)) as Hw3 by (by apply (same_rt_wf (meta s2))).
  pose proof (keeps_tree_update key pba valid ts s3 Hw3) as Hk4. destruct (update_spec key pba valid ts s3 Hw3) as (Hw4 & _ & Hc4).
  set (s4 := imr_lsm_tree_update_locked key pba valid ts s3) in *.
  assert (keeps s2 s4) as Hk24 by (by etransitivity).
  assert (lsm_inv H' s4) as Hi4.
  { split; [by rewrite (keeps_initialized _ _ Hk24)| | |done|].
    - by rewrite (keeps_levels _ _ Hk24), (keeps_segments _ _ Hk24), (keeps_timestamp _ _ Hk24).
    - rewrite (keeps_levels _ _ Hk24). eapply addr_ok_mono; [|exact Ha2]. apply Hk24.
    - intros k x Hx. apply (cache_in _ k x (proj1 Hw4)) in Hx. rewrite Hc4 in Hx.
      assert (forall k x, (k, x) ∈ cache (meta s3) -> H k = Some (MkRec (rn_pba x) (rn_valid x) (rn_timestamp x))) as Hold.
      { intros k0 x0 Hx0. apply (cache_in _ _ _ (proj1 Hw3)) in Hx0. rewrite (srt_tree _ _ Hs3), Hrt2 in Hx0. by apply Hi. }
      apply (cache_update_in _ _ _ _ _ _ _ _ _ (proj1 Hw3)) in Hx. unfold H', record.
      destruct Hx as [[Hne Hin]|[-> Hor]].
      + rewrite decide_False by done. by apply Hold.
      + rewrite decide_True by done. destruct Hor as [->|[Hf Hlt]]; [done|]. exfalso.
        apply (cache_in _ _ _ (proj1 Hw3)) in Hf. apply Hold in Hf. apply (ok_now _ _ _ _ Hok) in Hf. cbn in Hf. lia. }
  split; [done|]. split.
  - eapply inv_core; [apply core_mark_pending|done].
  - exists n. split_and!; [done|done|cbn; lia|]. etransitivity; [exact Hpush|]. etransitivity; [exact Hk24|].
    apply keeps_rt_keeps, core_keeps, core_mark_pending.
Qed.

(** ** The operations *)

Lemma ensure_initialized_id s : initialized (meta s) = true -> ensure_initialized s = s.
Proof. unfold ensure_initialized. by intros ->. Qed.

(** How an operation that appends one record ends. *)
Definition appends (H : newest_map) (key pba : Z) (valid : bool) (s s' : kstate) (ret : Z) : Prop :=
  (ret = - ENOMEM /\ lsm_inv H s' /\ keeps s s') \/
  (ret = 0 /\ lsm_inv (record H key (MkRec pba valid (timestamp (meta s) + 1))) s' /\
   exists n, n_key n = key /\ node_rec n = MkRec pba valid (timestamp (meta s) + 1) /\
     hp_next (hp s) <= n_addr n /\ keeps (pushed 0 n s) s').

Lemma view_pushed lv n s s' : view s' = view s -> view (pushed lv n s') = view (pushed lv n s).
Proof.
  intros E. assert (forall s, view (pushed lv n s) = pushed lv n (view s)) as Hc by done.
  rewrite (Hc s'), (Hc s). exact (f_equal (pushed lv n) E).
Qed.

Lemma keeps_pushed lv n s s' : keeps s s' -> keeps (pushed lv n s) (pushed lv n s').
Proof. intros [E Hh]. split; [by apply view_pushed|exact Hh]. Qed.

Lemma appends_before H key pba valid s s0 s' ret : keeps s s0 -> appends H key pba valid s0 s' ret -> appends H key pba valid s s' ret.
Proof.
  intros Hk. pose proof (keeps_timestamp _ _ Hk) as Ht. unfold appends. rewrite Ht.
  intros [(-> & Hi & Hk1)|(-> & Hi & n & Hn & Hr & Ha & Hk1)]; [left|right].
  - split_and!; [done|done|]. etransitivity; [exact Hk|done].
  - split_and!; [done|done|]. exists n. split_and!; [done|done| |].
    + pose proof (kp_hp _ _ Hk). lia.
    + etransitivity; [by apply keeps_pushed|done].
Qed.

(** A wrapper that keeps the core before and after the append. *)
Lemma appends_wrap H key pba zone_idx valid s s0 stat :
  keeps s s0 -> lsm_inv H s0 -> timestamp (meta s) + 1 < 2 ^ 32 ->
  let '(s1, ret) := imr_lsm_append_unsorted_node_locked 0 key pba zone_idx valid s0 in
  appends H key pba valid s (if ret =? 0 then st_inc stat s1 else s1) ret.
Proof.
  intros Hk Hi Hts. pose proof (keeps_timestamp _ _ Hk) as Ht. rewrite <- Ht in Hts.
  pose proof (append_spec H 0 key pba zone_idx valid s0 Hi ltac:(lia) Hts) as Ha.
  destruct (imr_lsm_append_unsorted_node_locked 0 key pba zone_idx valid s0) as [s1 ret].
  apply (appends_before _ _ _ _ s s0); [done|].
  destruct Ha as [(-> & Hi1 & Hk1)|(-> & Hi1 & n & Hn & Hr & Ha & Hk1)].
  - left. split_and!; [done|done|by apply keeps_rt_keeps].
  - right. split_and!; [done|by apply (inv_core _ s1)|]. exists n. split_and!; [done|done|done|].
    etransitivity; [exact Hk1|]. by apply keeps_rt_keeps, core_keeps.
Qed.

Lemma insert_spec H key pba zone_idx s :
  lsm_inv H s -> timestamp (meta s) + 1 < 2 ^ 32 ->
  let '(s', ret) := imr_lsm_insert 0 key pba zone_idx s in appends H key pba true s s' ret.
Proof.
  intros Hi Hts. unfold imr_lsm_insert, imr_lsm_append_unsorting_node. change (0 >=? IMR_LSM_LEVELS) with false.
  change (0 =? 0) with true. cbv zeta iota. rewrite ensure_initialized_id by apply Hi. rewrite calc_active_level.
  pose proof (appends_wrap H key pba zone_idx true s (imr_lsm_calculate_dynamic_levels_locked s) "lsm_write_count"
    (keeps_rt_keeps _ _ (core_keeps _ _ (core_calc s))) (inv_core H s _ (core_calc s) Hi) Hts) as Hw.
  by destruct (imr_lsm_append_unsorted_node_locked 0 key pba zone_idx true _).
Qed.

Lemma record_insert_spec H zone_idx lba pba s :
  lsm_inv H s -> timestamp (meta s) + 1 < 2 ^ 32 ->
  let '(s', ret) := imr_lsm_record_insert zone_idx lba pba s in appends H (Z.shiftr lba IMR_BLOCK_SIZE_SHIFT) pba true s s' ret.
Proof.
  intros Hi Hts. unfold imr_lsm_record_insert. cbv zeta. rewrite ensure_initialized_id by apply Hi.
  set (s0 := st_inc "lsm_record_insert_count" s).
  pose proof (insert_spec H (Z.shiftr lba IMR_BLOCK_SIZE_SHIFT) pba zone_idx s0 (inv_core H s s0 (core_st_inc _ s) Hi) Hts) as Hins.
  destruct (imr_lsm_insert 0 _ pba zone_idx s0) as [s' ret].
  eapply appends_before; [|exact Hins]. apply keeps_rt_keeps, core_keeps, core_st_inc.
Qed.

Lemma rt_agrees_sub H s s' :
  rt_wf (meta s) -> rt_wf (meta s') -> (forall p, p ∈ cache (meta s') -> p ∈ cache (meta s)) -> rt_agrees H (meta s) -> rt_agrees H (meta s').
Proof.
  intros Hw Hw' Hsub Ha k n Hn. apply Ha. apply (cache_in _ k n (proj1 Hw)), Hsub. by apply (cache_in _ k n (proj1 Hw')).
Qed.

Lemma delete_spec H key s :
  lsm_inv H s -> timestamp (meta s) + 1 < 2 ^ 32 ->
  let '(s', ret) := imr_lsm_delete_locked key s in appends H key 0 false s s' ret.
Proof.
  intros Hi Hts. unfold imr_lsm_delete_locked. cbv zeta. rewrite ensure_initialized_id by apply Hi.
  set (s0 := imr_lsm_calculate_dynamic_levels_locked s). assert (lsm_inv H s0) as Hi0 by (apply (inv_core H s), Hi; apply core_calc).
  destruct (remove_spec key s0 (inv_rt_wf _ _ Hi0)) as (R1 & R2 & R3).
  pose proof (keeps_tree_remove key s0 (inv_rt_wf _ _ Hi0)) as Hk. set (s1 := imr_lsm_tree_remove_locked key s0) in *.
  assert (lsm_inv H s1) as Hi1.
  { apply (inv_keeps H s0); [done|done| |done]. apply (rt_agrees_sub H s0); [apply Hi0|done| |apply Hi0].
    intros p. rewrite R3. unfold cache_drop. rewrite list_elem_of_filter. by intros [_ ?]. }
  assert (active_write_level (meta s1) = 0) as ->.
  { transitivity (active_write_level (meta s0)); [|apply calc_active_level].
    by apply (f_equal (fun s => active_write_level (meta s))) in R2. }
  assert (keeps s s1) as Hk1 by (etransitivity; [apply keeps_rt_keeps, core_keeps, core_calc|exact Hk]).
  pose proof (appends_wrap H key 0 0 false s s1 "delete_count" Hk1 Hi1 Hts) as Hw.
  by destruct (imr_lsm_append_unsorted_node_locked 0 key 0 0 false s1).
Qed.

Lemma clear_read_tree_spec H run s :
  lsm_inv H s -> let s' := (imr_lsm_debugfs_clear_read_tree_write run s).1 in lsm_inv H s' /\ keeps s s'.
Proof.
  intros Hi. unfold imr_lsm_debugfs_clear_read_tree_write. destruct (run =? 0); [done|].
  destruct (negb (imrsim_target_ready_locked s)); [done|]. rewrite (inv_init _ _ Hi). cbn [fst].
  destruct (clear_spec s (inv_rt_wf _ _ Hi)) as (C1 & C2 & C3). set (s' := (imr_lsm_clear_read_tree_locked s).1) in *.
  assert (keeps s s') as Hk by (by apply keeps_no_rt). split; [|done].
  apply (inv_keeps H s); [done|done| |done]. apply (rt_agrees_sub H s); [apply Hi|done| |apply Hi].
  intros p. rewrite C3. by intros ?%elem_of_nil.
Qed.

Lemma read_tree_limit_spec H limit s :
  lsm_inv H s -> 0 <= limit -> let s' := (imr_lsm_debugfs_read_tree_limit_write limit s).1 in lsm_inv H s' /\ keeps s s'.
Proof.
  intros Hi Hl. unfold imr_lsm_debugfs_read_tree_limit_write. destruct (limit >? IMR_LSM_READ_TREE_LIMIT) eqn:E; [done|].
  set (lim := if limit =? 0 then IMR_LSM_READ_TREE_LIMIT else limit).
  assert (0 <= lim <= IMR_LSM_READ_TREE_LIMIT) as Hlim by (subst lim; unfold IMR_LSM_READ_TREE_LIMIT in *; destruct (limit =? 0); lia).
  cbv zeta. destruct (negb (imrsim_target_ready_locked s)); [done|]. rewrite ensure_initialized_id by apply Hi. cbn [fst].
  set (s0 := upd_meta (set_read_tree_limit lim) s).
  assert (rt_shape (meta s0)) as Hw0 by (destruct (proj1 (inv_rt_wf _ _ Hi)); by split).
  destruct (evict_spec s0 Hw0 Hlim) as (E1 & E2 & E3). set (s' := imr_lsm_tree_evict_locked s0) in *.
  assert (keeps s s') as Hk.
  { transitivity s0; [by split|]. apply keeps_no_rt; [done|]. unfold s', imr_lsm_tree_evict_locked. by rewrite hp_evict. }
  split; [|done]. apply (inv_keeps H s); [done|done| |done]. apply (rt_agrees_sub H s); [apply Hi|done| |apply Hi].
  intros p. rewrite E2. unfold cache_trim. by intros ?%subseteq_drop.
Qed.

(** ** The initial state *)

Lemma fold_st_set_core l v : forall s, core (fold_left (fun s f => st_set f v s) l s) = core s.
Proof. intros s. by apply core_fold. Qed.

Lemma initialize_spec s : lsm_inv (fun _ => None) (imr_lsm_initialize_metadata_locked s).
Proof.
  unfold imr_lsm_initialize_metadata_locked. cbv zeta.
  eapply inv_core; [apply fold_st_set_core|]. set (s1 := upd_meta _ _).
  assert (levels (meta s1) = replicate 7 empty_level) as El by done.
  assert (forall l, l ∈ levels (meta s1) -> l = empty_level) as Hl by (intros l; rewrite El; by intros [-> _]%elem_of_replicate).
  split.
  - done.
  - split; try done.
    + intros l ->%Hl. done.
    + intros l n ->%Hl ?%elem_of_nil. done.
    + intros l n ->%Hl ?%elem_of_nil. done.
    + intros l ->%Hl. constructor.
    + by intros g ?%elem_of_nil.
    + by intros g e ?%elem_of_nil.
    + by intros g e ?%elem_of_nil.
  - intros l ->%Hl. cbn. split; [constructor|by intros n ?%elem_of_nil].
  - exact (rt_wf_init s1).
  - by intros k n.
Qed.
