(* ===== verification/ImrCompaction.v ===== *)
(** Level compaction: publishing a segment and the prepare, build and publish
    phases of a level compaction plan ([dm-imrsim.c],
    [imr_lsm_publish_prepared_segment_locked],
    [imr_lsm_append_segment_with_accounting_locked], and from
    [imr_lsm_prepare_level_compaction_locked] to
    [imr_lsm_level_compaction_auto_work]). *)

From S2P Require Import Prelude StdMap ImrPrelude ImrGeometry ImrBloom ImrState ImrReadTree ImrLevels ImrSegment ImrPlacement ImrAccounting ImrCore ImrLsm.

(** ** Publishing a segment *)

(** The segment gets its id, placement and output mapping and becomes the tail of
    the list; its index is returned. *)
Definition imr_lsm_publish_prepared_segment_locked (g : segment) (account : bool) (s : kstate) : kstate * nat :=
  let g := set_sg_id (next_segment_id (meta s)) g in
  let s := upd_meta (fun m => set_next_segment_id (u32 (next_segment_id m + 1)) m) s in
  let '(g, s) := imr_lsm_apply_segment_placement_locked g s in
  let '(g, s) := imr_lsm_map_segment_output_entries_locked g s in
  let i := length (segments (meta s)) in
  let s := upd_meta (fun m => set_segment_count (u32 (segment_count m + 1)) (set_segments (segments m ++ [g]) m)) s in
  if account then
    match imr_lsm_account_new_segment_invalid_stats_locked i s with
    | (s, true) => (imr_lsm_update_segment_compaction_selection_locked s, i)
    | (s, false) => (s, i)
    end
  else (s, i).

(** Returns the builder too: it keeps its table when the preparation fails. *)
Definition imr_lsm_append_segment_with_accounting_locked (lv track_type : Z) (b : builder) (account : bool) (s : kstate)
  : kstate * builder * Z :=
  match imr_lsm_prepare_segment lv track_type b (imr_lsm_bloom_bits_per_key_locked s) (hp s) with
  | (h, b, Fail e) => (set_hp h s, b, e)
  | (h, b, Ok None) => (set_hp h s, b, 0)
  | (h, b, Ok (Some g)) => ((imr_lsm_publish_prepared_segment_locked g account (set_hp h s)).1, b, 0)
  end.

(** ** The plan *)

(** [struct imr_lsm_level_compaction_plan]; pointers to list nodes are their
    addresses, [None] for null. Retired and discarded nodes are only kept to be
    freed, so they do not appear. *)
Record level_plan := MkPlan {
  pl_builder : builder;
  pl_source_head : option Z;
  pl_source_tail : option Z;
  pl_source_after : option Z;
  pl_source_sorted_head : option Z;
  pl_destination_sorted_head : option Z;
  pl_prepared : list lsm_node;
  pl_output : option segment;
  pl_source_level : Z;
  pl_destination_level : Z;
  pl_source_unsorted_count : Z;
  pl_source_sorted_count : Z;
  pl_destination_sorted_count : Z;
  pl_input_entries : Z;
  pl_output_entries : Z;
  pl_bloom_bits_per_key : Z;
  pl_epoch : Z;
  pl_bdev : option Z;
  pl_retire_source : bool;
}.

Definition addr_of (l : list lsm_node) : option Z := n_addr <$> head l.

(** The walk over the run to compact: the tail of the run and the node after it;
    [None] when the list ends early. *)
Fixpoint walk (count : nat) (l : list lsm_node) (tail : option Z) : option (option Z * list lsm_node) :=
  match count with
  | O => Some (tail, l)
  | S count => match l with [] => None | n :: l => walk count l (Some (n_addr n)) end
  end.

(** [Ok None] is a plan that is not [prepared]: there is nothing to do. *)
Definition imr_lsm_prepare_level_compaction_locked (lv max_unsorted : Z) (s : kstate) : kstate * cres (option level_plan) :=
  if lv >=? IMR_LSM_LEVELS then (s, Fail (- EINVAL))
  else
    let available := unsorted_count (level lv s) in
    let '(s, dst) := imr_lsm_compaction_dst_level_locked lv s in
    let count := Z.min available max_unsorted in
    let move_sorted := count =? available in
    let retire_source := negb (dst =? lv) && move_sorted in
    let src_sorted := if retire_source then sorted_count (level lv s) else 0 in
    if (count =? 0) && (src_sorted =? 0) then (s, Ok None)
    else
      match walk (Z.to_nat count) (unsorted_head (level lv s)) None with
      | None => (s, Fail (- EUCLEAN))
      | Some (tail, after) =>
          (s, Ok (Some (MkPlan empty_builder (addr_of (unsorted_head (level lv s))) tail (addr_of after)
                          (if retire_source then addr_of (sorted_head (level lv s)) else None)
                          (addr_of (sorted_head (level dst s))) [] None lv dst count src_sorted (sorted_count (level dst s))
                          (u32 (count + src_sorted)) 0 (imr_lsm_bloom_bits_per_key_locked s) (metadata_epoch s) (output_bdev s)
                          retire_source)))
      end.

(** ** Build: without the locks, reading the live lists through the captured
    pointers *)

(** The list from the node with a given address on. *)
Fixpoint from_addr (a : Z) (l : list lsm_node) : list lsm_node :=
  match l with [] => [] | n :: l' => if n_addr n =? a then l else from_addr a l' end.
Definition from_ptr (a : option Z) (l : list lsm_node) : list lsm_node := match a with Some a => from_addr a l | None => [] end.

(** The two input loops: [count] nodes are added; the rest of the list is returned. *)
Fixpoint build_run (threshold : Z) (count : nat) (l : list lsm_node) (b : builder) (h : heap) : heap * builder * cres (list lsm_node) :=
  match count with
  | O => (h, b, Ok l)
  | S count =>
      match l with
      | [] => (h, b, Fail (- EAGAIN))
      | n :: l =>
          match imr_lsm_segment_builder_add_node threshold b n h with
          | (h, Fail e) => (h, b, Fail e)
          | (h, Ok b) => build_run threshold count l b h
          end
      end
  end.

Fixpoint imr_lsm_build_prepared_sorted_nodes (t : list block_entry) (h : heap) : heap * cres (list lsm_node) :=
  match t with
  | [] => (h, Ok [])
  | e :: t =>
      match kzalloc h with
      | (h, None) => (h, Fail (- ENOMEM))
      | (h, Some a) =>
          match imr_lsm_build_prepared_sorted_nodes t h with
          | (h, Fail x) => (h, Fail x)
          | (h, Ok l) => (h, Ok (MkNode a (be_key e) (be_pba e) (be_zone_idx e) (be_valid e) (be_timestamp e) :: l))
          end
      end
  end.

Definition imr_lsm_build_level_compaction_plan (p : level_plan) (s : kstate) : kstate * cres level_plan :=
  let threshold := imr_lsm_compaction_threshold_locked s in
  let src := level (pl_source_level p) s in
  match build_run threshold (Z.to_nat (pl_source_unsorted_count p)) (from_ptr (pl_source_head p) (unsorted_head src)) (pl_builder p) (hp s) with
  | (h, _, Fail e) => (set_hp h s, Fail e)
  | (h, b, Ok rest) =>
      if negb (bool_decide (addr_of rest = pl_source_after p)) then (set_hp h s, Fail (- EAGAIN))
      else
        match build_run threshold (Z.to_nat (pl_source_sorted_count p)) (from_ptr (pl_source_sorted_head p) (sorted_head src)) b h with
        | (h, _, Fail e) => (set_hp h s, Fail e)
        | (h, b, Ok rest) =>
            match rest with
            | _ :: _ => (set_hp h s, Fail (- EAGAIN))
            | [] =>
                match imr_lsm_build_prepared_sorted_nodes (sb_table b) h with
                | (h, Fail e) => (set_hp h s, Fail e)
                | (h, Ok prepared) =>
                    match imr_lsm_prepare_segment (pl_destination_level p) IMR_LSM_TRACK_BOTTOM b (pl_bloom_bits_per_key p) h with
                    | (h, _, Fail e) => (set_hp h s, Fail e)
                    | (h, b', Ok g) =>
                        (set_hp h s,
                         Ok (MkPlan b' (pl_source_head p) (pl_source_tail p) (pl_source_after p) (pl_source_sorted_head p)
                               (pl_destination_sorted_head p) prepared g (pl_source_level p) (pl_destination_level p)
                               (pl_source_unsorted_count p) (pl_source_sorted_count p) (pl_destination_sorted_count p)
                               (pl_input_entries p) (lenZ (sb_table b)) (pl_bloom_bits_per_key p) (pl_epoch p) (pl_bdev p)
                               (pl_retire_source p)))
                    end
                end
            end
        end
  end.

(** ** Publish *)

(** The loop that advances [link] to the captured head or the end of the list:
    how many nodes come before the run. *)
Fixpoint find_link (a : option Z) (l : list lsm_node) : nat :=
  match l with
  | [] => 0
  | n :: l => if bool_decide (Some (n_addr n) = a) then 0 else S (find_link a l)
  end.

(** The check of the run: it is long enough, its last node is the captured tail
    and the node after it is the captured one. *)
Fixpoint check_run (count : nat) (l : list lsm_node) (tail after : option Z) : bool :=
  match count with
  | O => bool_decide (addr_of l = after)
  | S count =>
      match l with
      | [] => false
      | n :: l => if (count =? 0)%nat && negb (bool_decide (Some (n_addr n) = tail)) then false else check_run count l tail after
      end
  end.

(** [Some k]: the plan is valid and its run starts after [k] nodes. *)
Definition imr_lsm_validate_level_compaction_plan_locked (p : level_plan) (s : kstate) : option nat :=
  let src := level (pl_source_level p) s in
  let dst := level (pl_destination_level p) s in
  match pl_output p with
  | None => None
  | Some _ =>
      if negb (imrsim_target_ready_locked s) || negb (initialized (meta s)) || negb (metadata_epoch s =? pl_epoch p) ||
         negb (bool_decide (output_bdev s = pl_bdev p)) then None
      else if negb (bool_decide (addr_of (sorted_head dst) = pl_destination_sorted_head p)) ||
              negb (sorted_count dst =? pl_destination_sorted_count p) then None
      else if pl_retire_source p && (negb (bool_decide (addr_of (sorted_head src) = pl_source_sorted_head p)) ||
                                     negb (sorted_count src =? pl_source_sorted_count p)) then None
      else if unsorted_count src <? pl_source_unsorted_count p then None
      else
        let k := find_link (pl_source_head p) (unsorted_head src) in
        let run := drop k (unsorted_head src) in
        if negb (pl_source_unsorted_count p =? 0) && (match run with [] => true | _ => false end) then None
        else if check_run (Z.to_nat (pl_source_unsorted_count p)) run (pl_source_tail p) (pl_source_after p) then Some k else None
  end.

(** The record of [p] in the node [e]. *)
Definition overwrite_node (e p : lsm_node) : lsm_node :=
  MkNode (n_addr e) (n_key e) (n_pba p) (n_zone_idx p) (n_valid p) (n_timestamp p).

(** The merge of the prepared nodes into the destination list, with the number of
    nodes inserted. *)
Fixpoint merge_sorted (l : list lsm_node) : list lsm_node -> list lsm_node * Z :=
  fix go (ps : list lsm_node) :=
    match ps with
    | [] => (l, 0)
    | p :: ps' =>
        match l with
        | [] => let '(r, c) := go ps' in (p :: r, c + 1)
        | e :: l' =>
            if n_key e <? n_key p then let '(r, c) := merge_sorted l' ps in (e :: r, c)
            else if n_key e =? n_key p then
              let '(r, c) := merge_sorted l' ps' in
              ((if n_timestamp p >? n_timestamp e then overwrite_node e p else e) :: r, c)
            else let '(r, c) := go ps' in (p :: r, c + 1)
        end
    end.
Definition imr_lsm_merge_prepared_sorted_locked (p : level_plan) (s : kstate) : kstate :=
  upd_level (pl_destination_level p) (fun l =>
    let '(r, c) := merge_sorted (sorted_head l) (pl_prepared p) in
    set_sorted_count (u32 (sorted_count l + c)) (set_sorted_head r l)) s.

Definition imr_lsm_publish_level_compaction_locked (p : level_plan) (s : kstate) : kstate * Z :=
  match imr_lsm_validate_level_compaction_plan_locked p s, pl_output p with
  | Some k, Some g =>
      let s := if negb (pl_source_unsorted_count p =? 0) then
          upd_level (pl_source_level p) (fun l =>
            set_unsorted_count (u32 (unsorted_count l - pl_source_unsorted_count p))
              (set_unsorted_head (take k (unsorted_head l) ++ drop (k + Z.to_nat (pl_source_unsorted_count p)) (unsorted_head l)) l)) s
        else s in
      let s := if pl_retire_source p then upd_level (pl_source_level p) (fun l => set_sorted_count 0 (set_sorted_head [] l)) s else s in
      let s := imr_lsm_merge_prepared_sorted_locked p s in
      let '(s, i) := imr_lsm_publish_prepared_segment_locked g false s in
      let s := if pl_retire_source p then (imr_lsm_retire_level_segments_locked (pl_source_level p) s).1 else s in
      let s := match imr_lsm_account_new_segment_invalid_stats_locked i s with
               | (s, true) => imr_lsm_update_segment_compaction_selection_locked (imr_lsm_refresh_max_obsolete_ratio_locked s)
               | (s, false) => s
               end in
      let inb := u64 (pl_input_entries p * IMR_LSM_RECORD_BYTES) in
      let outb := u64 (pl_output_entries p * IMR_LSM_RECORD_BYTES) in
      let s := st_set "last_compaction_output_bytes" outb (st_set "last_compaction_input_bytes" inb (st_inc "compaction_count" s)) in
      let s := st_add "metadata_compaction_output_bytes" outb (st_add "metadata_compaction_input_bytes" inb s) in
      let s := st_set "last_compaction_input" (pl_input_entries p) (st_set "last_compaction_to" (pl_destination_level p)
        (st_set "last_compaction_from" (pl_source_level p) s)) in
      let s := st_set "last_compaction_output_total" (sorted_count (level (pl_destination_level p) s)) s in
      (imr_lsm_calculate_dynamic_levels_locked s, 0)
  | _, _ => (s, - EAGAIN)
  end.

(** ** The phases of [imr_lsm_execute_level_compaction] *)

(** The prepare phase, under the locks. *)
Definition compaction_prepare (automatic : bool) (requested_level : Z) (s : kstate) : kstate * cres (option level_plan) :=
  if negb (imrsim_target_ready_locked s) || (match output_bdev s with None => true | Some _ => false end) then (s, Fail (- ENODEV))
  else if negb (initialized (meta s)) && automatic then (s, Fail (- ENODEV))
  else
    let s := ensure_initialized s in
    if automatic then
      let s := imr_lsm_calculate_dynamic_levels_locked s in
      if (base_level (meta s) <? IMR_LSM_MAX_LEVEL) && negb (unsorted_count (level IMR_LSM_MAX_LEVEL s) =? 0)
      then imr_lsm_prepare_level_compaction_locked IMR_LSM_MAX_LEVEL U32_MAX s
      else
        let '(s, lv) := imr_lsm_pick_compaction_level_locked s in
        if lv >=? IMR_LSM_LEVELS then (s, Ok None)
        else imr_lsm_prepare_level_compaction_locked lv (if lv =? 0 then imr_lsm_compaction_threshold_locked s else U32_MAX) s
    else if requested_level >=? IMR_LSM_LEVELS then (s, Fail (- EINVAL))
    else imr_lsm_prepare_level_compaction_locked requested_level U32_MAX s.

(** The three phases in a row, as when nothing else runs in between; [did_work]
    and the return value. *)
Definition imr_lsm_execute_level_compaction (automatic : bool) (requested_level : Z) (s : kstate) : kstate * bool * Z :=
  match compaction_prepare automatic requested_level s with
  | (s, Fail e) => (s, false, e)
  | (s, Ok None) => (s, false, 0)
  | (s, Ok (Some p)) =>
      match imr_lsm_build_level_compaction_plan p s with
      | (s, Fail e) => (s, true, e)
      | (s, Ok p) => let '(s, ret) := imr_lsm_publish_level_compaction_locked p s in (s, true, ret)
      end
  end.

(** The worker: one round of compaction and the rescheduling decision. *)
Definition imr_lsm_level_compaction_auto_work (s : kstate) : kstate :=
  let s := upd_meta (set_level_compaction_running true) s in
  let no_bdev (s : kstate) := match output_bdev s with None => true | Some _ => false end in
  if negb (target_active s) || negb (initialized (meta s)) || no_bdev s then
    upd_meta (fun m => set_level_compaction_running false (set_level_compaction_pending false m)) s
  else
    let s := upd_meta (fun m => set_level_compaction_running true (set_level_compaction_pending false m)) s in
    let s := st_inc "level_compaction_work_run_count" s in
    let '(s, did_work, ret) := imr_lsm_execute_level_compaction true IMR_LSM_LEVELS s in
    let successful := if (did_work : bool) && (ret =? 0) then 1 else 0 in
    let s := st_add "level_compaction_work_round_count" successful s in
    let s :=
      if (ret =? 0) && imrsim_target_ready_locked s && initialized (meta s) && negb (no_bdev s) then
        match imr_lsm_level_compaction_needed_locked s with
        | (s, true) =>
            let s := if negb (level_compaction_pending (meta s))
                     then st_inc "level_compaction_work_schedule_count" (upd_meta (set_level_compaction_pending true) s) else s in
            st_inc "level_compaction_work_requeue_count" s
        | (s, false) => upd_meta (set_level_compaction_pending false) s
        end
      else
        let s := upd_meta (set_level_compaction_pending false) s in
        if negb (ret =? 0) then st_set "last_level_compaction_work_error" ret (st_inc "level_compaction_work_error_count" s) else s in
    upd_meta (set_level_compaction_running false) s.
