(* ===== verification/ImrBuild.v ===== *)
(** Lemmas on the pieces of a level compaction: building the output table from
    the input nodes, preparing the segment, merging the sorted list, finding the
    captured run again. *)

From Stdlib Require Import Sorted.
From S2P Require Import Prelude StdMap ImrPrelude ImrGeometry ImrBloom ImrState ImrReadTree ImrLevels ImrSegment ImrPlacement ImrAccounting ImrCore ImrLsm ImrLsmInv ImrCompaction.

(** ** Records of lists *)

(** [k] has a record at least as new as [ts] in the table. *)
Definition tbl_has (t : list block_entry) (k ts : Z) : Prop := exists e, e ∈ t /\ be_key e = k /\ ts <= be_timestamp e.
Definition nodes_have (l : list lsm_node) (k ts : Z) : Prop := exists n, n ∈ l /\ n_key n = k /\ ts <= n_timestamp n.
(** The record [r] of [k] is one of the list's. *)
Definition node_of (l : list lsm_node) (k : Z) (r : rec) : Prop := exists n, n ∈ l /\ n_key n = k /\ node_rec n = r.

(** ** Adding nodes to a builder *)

Record sb_ok (b : builder) : Prop := {
  sbo_wf : sb_wf b;
  sbo_count : 0 <= sb_node_count b;
  sbo_empty : sb_node_count b = 0 -> sb_table b = [];
  sbo_len : lenZ (sb_table b) <= sb_node_count b;
}.

Lemma empty_builder_ok : sb_ok empty_builder.
Proof.
  split; [|done|done|done]. split; cbn; [constructor|split; [done|unfold U32_MAX; lia]|by intros e ?%elem_of_nil].
Qed.

Lemma tbl_add_len key pba z v ts t : lenZ (tbl_add key pba z v ts t) <= lenZ t + 1.
Proof.
  induction t as [|e t IH]; cbn; [done|]. destruct (be_key e <? key); [rewrite !lenZ_cons; lia|].
  destruct (be_key e =? key); rewrite !lenZ_cons; lia.
Qed.

(** What one addition does to the records. *)
Lemma tbl_add_records n t :
  tbl_sorted t ->
  let t' := tbl_add (n_key n) (n_pba n) (n_zone_idx n) (n_valid n) (n_timestamp n) t in
  tbl_has t' (n_key n) (n_timestamp n) /\
  (forall k ts, tbl_has t k ts -> tbl_has t' k ts) /\
  (forall e, e ∈ t' -> e ∈ t \/ (be_key e = n_key n /\ entry_rec e = node_rec n)).
Proof.
  intros Hs t'. assert (tbl_sorted t') as Hs' by (by apply tbl_add_sorted).
  pose proof (fun k => tbl_find_add (n_key n) (n_pba n) (n_zone_idx n) (n_valid n) (n_timestamp n) t k Hs) as Hf.
  fold t' in Hf. split_and!.
  - specialize (Hf (n_key n)). rewrite Z.eqb_refl in Hf. apply tbl_find_Some in Hf as [Hin Hk].
    eexists. split_and!; [exact Hin|exact Hk|]. unfold newest_entry. destruct (tbl_find (n_key n) t) as [e|]; [|done].
    destruct (n_timestamp n >? be_timestamp e) eqn:E; cbn; lia.
  - intros k ts (e & He & Hk & Hts). specialize (Hf k). destruct (k =? n_key n) eqn:Ek.
    + apply tbl_find_Some in Hf as [Hin Hk']. eexists. split_and!; [exact Hin|exact Hk'|].
      replace (n_key n) with k in * by lia. subst k. rewrite (tbl_find_in t e Hs He). cbn.
      destruct (n_timestamp n >? be_timestamp e) eqn:E; cbn; lia.
    + rewrite <- Hk, (tbl_find_in t e Hs He) in Hf. apply tbl_find_Some in Hf as [Hin _]. by exists e.
  - intros e He. pose proof (tbl_find_in t' e Hs' He) as Hfe. rewrite Hf in Hfe. destruct (be_key e =? n_key n) eqn:Ek.
    + injection Hfe as Hfe. unfold newest_entry in Hfe. destruct (tbl_find (n_key n) t) as [x|] eqn:Ex.
      * destruct (n_timestamp n >? be_timestamp x); subst e; [right|left; by apply tbl_find_Some in Ex as [? _]].
        split; [cbn in *; lia|done].
      * subst e. by right.
    + left. by apply tbl_find_Some in Hfe as [? _].
Qed.

Lemma builder_add_spec threshold b n h :
  1 <= threshold <= U32_MAX -> sb_ok b -> sb_node_count b + 1 < 2 ^ 32 ->
  let '(h', r) := imr_lsm_segment_builder_add_node threshold b n h in
  r = Fail (- ENOMEM) \/
  exists b', r = Ok b' /\ sb_ok b' /\ sb_node_count b' = sb_node_count b + 1 /\
    sb_table b' = tbl_add (n_key n) (n_pba n) (n_zone_idx n) (n_valid n) (n_timestamp n) (sb_table b).
Proof.
  intros Ht [Hwf Hc He Hlen] Hn. unfold imr_lsm_segment_builder_add_node, imr_lsm_segment_builder_add.
  pose proof (builder_add_table threshold b (n_key n) (n_pba n) (n_zone_idx n) (n_valid n) (n_timestamp n) h Ht Hwf) as Hadd.
  destruct (imr_lsm_segment_builder_add_block_entry _ _ _ _ _ _ _ _) as [h' r]. destruct Hadd as [->|(cap & -> & Hcap)]; [by left|].
  right. eexists. split; [done|]. set (t' := tbl_add _ _ _ _ _ _) in *.
  destruct (tbl_add_records n (sb_table b) (sbw_sorted _ Hwf)) as (_ & _ & Hrec). fold t' in Hrec.
  assert (tbl_sorted t') as Hs' by (apply tbl_add_sorted, Hwf).
  pose proof (tbl_add_len (n_key n) (n_pba n) (n_zone_idx n) (n_valid n) (n_timestamp n) (sb_table b)) as Hl'. fold t' in Hl'.
  assert (forall e, be_key e = n_key n /\ entry_rec e = node_rec n -> be_timestamp e = n_timestamp n) as Hts
    by (intros e [_ E]; by injection E).
  unfold widen. cbn [sb_node_count set_table]. rewrite u32_small by lia. destruct (sb_node_count b =? 0) eqn:E0.
  - split_and!; [|cbn; lia|done]. split; cbn; [|lia|lia|lia]. split; cbn; [done|done|]. intros e Hin.
    destruct (Hrec e Hin) as [Hold|Hnew]; [rewrite He in Hold by lia; by apply elem_of_nil in Hold|].
    rewrite (Hts e Hnew). destruct Hnew as [-> _]. lia.
  - split_and!; [|done|done]. split; cbn; [|lia|lia|lia]. split; cbn; [done|done|]. intros e Hin.
    destruct (Hrec e Hin) as [Hold|Hnew].
    + destruct (sbw_range _ Hwf e Hold). zcase; lia.
    + rewrite (Hts e Hnew). destruct Hnew as [-> _]. zcase; lia.
Qed.

Lemma build_run_spec threshold count : forall l b h,
  1 <= threshold <= U32_MAX -> sb_ok b -> sb_node_count b + Z.of_nat count < 2 ^ 32 -> (count <= length l)%nat ->
  let '(h', b', r) := build_run threshold count l b h in
  r = Fail (- ENOMEM) \/
  (r = Ok (drop count l) /\ sb_ok b' /\ sb_node_count b' = sb_node_count b + Z.of_nat count /\
   (forall n, n ∈ take count l -> tbl_has (sb_table b') (n_key n) (n_timestamp n)) /\
   (forall k ts, tbl_has (sb_table b) k ts -> tbl_has (sb_table b') k ts) /\
   (forall e, e ∈ sb_table b' -> e ∈ sb_table b \/ node_of (take count l) (be_key e) (entry_rec e))).
Proof.
  induction count as [|count IH]; intros l b h Ht Hb Hn Hl; cbn [build_run].
  { right. split_and!; [done|done|lia|by intros n ?%elem_of_nil|done|by left]. }
  destruct l as [|n l]; [cbn in Hl; lia|].
  pose proof (builder_add_spec threshold b n h Ht Hb ltac:(lia)) as Ha.
  destruct (imr_lsm_segment_builder_add_node threshold b n h) as [h1 r1].
  destruct Ha as [->|(b1 & -> & Hb1 & Hn1 & Ht1)]; [by left|].
  destruct (tbl_add_records n (sb_table b) (sbw_sorted _ (sbo_wf _ Hb))) as (R1 & R2 & R3). rewrite <- Ht1 in *.
  specialize (IH l b1 h1 Ht Hb1 ltac:(lia) ltac:(cbn in Hl; lia)).
  destruct (build_run threshold count l b1 h1) as [[h2 b2] r2]. destruct IH as [->|(-> & I1 & I2 & I3 & I4 & I5)]; [by left|].
  right. split_and!; [done|done|lia|..].
  - intros x [->|Hx]%elem_of_cons; [by apply I4|by apply I3].
  - intros k ts Hk. by apply I4, R2.
  - intros e He. destruct (I5 e He) as [He1|(x & Hx & Hk & Hr)]; [|right; exists x; split_and!; [by right|done|done]].
    destruct (R3 e He1) as [|[Hk Hr]]; [by left|]. right. exists n. split_and!; [by left|done|done].
Qed.

(** ** The prepared nodes and the segment *)

Lemma prepared_nodes_spec t : forall h,
  let '(h', r) := imr_lsm_build_prepared_sorted_nodes t h in
  r = Fail (- ENOMEM) \/
  exists l, r = Ok l /\ map (fun n => (n_key n, node_rec n)) l = map (fun e => (be_key e, entry_rec e)) t.
Proof.
  induction t as [|e t IH]; intros h; cbn [imr_lsm_build_prepared_sorted_nodes]; [right; by exists []|].
  destruct (kzalloc h) as [h1 [a|]]; [|by left]. specialize (IH h1).
  destruct (imr_lsm_build_prepared_sorted_nodes t h1) as [h2 r]. destruct IH as [->|(l & -> & Hl)]; [by left|].
  right. eexists. split; [done|]. cbn. by rewrite Hl.
Qed.

Lemma prepare_segment_spec lv track b bpk h :
  sb_ok b -> sb_table b <> [] -> 0 <= lv <= IMR_LSM_MAX_LEVEL ->
  let '(h', b', r) := imr_lsm_prepare_segment lv track b bpk h in
  r = Fail (- ENOMEM) \/
  exists g, r = Ok (Some g) /\ seg_ok g /\ sg_table g = sb_table b /\ sg_level g = lv /\ sg_retired g = false.
Proof.
  intros [Hwf Hc He Hlen] Hne Hlv. unfold imr_lsm_prepare_segment.
  destruct (sb_node_count b =? 0) eqn:E0; [exfalso; apply Hne, He; lia|].
  destruct (kzalloc h) as [h1 [a|]]; [|by left].
  destruct (build_bloom_spec (map be_key (sb_table b)) bpk h1) as (h2 & r & -> & [->|(bl & -> & Hadm & _)]); [by left|].
  right. eexists. split; [done|]. split_and!; try done. split; cbn.
  - apply Hwf.
  - pose proof (sbw_cap _ Hwf). unfold U32_MAX in *. destruct (sb_table b); [done|]. rewrite lenZ_cons in *. pose proof (lenZ_nonneg l). lia.
  - done.
  - intros e Hin. by apply (sbw_range _ Hwf).
  - intros e Hin. apply Hadm, list_elem_of_fmap. by exists e.
Qed.

(** ** Merging into the sorted list *)

Record merged (l ps r : list lsm_node) (c : Z) : Prop := {
  mg_sorted : nodes_sorted l -> nodes_sorted ps -> nodes_sorted r;
  mg_old : forall x, x ∈ l -> nodes_have r (n_key x) (n_timestamp x);
  mg_new : forall x, x ∈ ps -> nodes_have r (n_key x) (n_timestamp x);
  mg_from : forall y, y ∈ r -> node_of l (n_key y) (node_rec y) \/ node_of ps (n_key y) (node_rec y);
  mg_len : lenZ r = lenZ l + c /\ 0 <= c <= lenZ ps;
}.

Lemma nodes_have_cons y r k ts : nodes_have r k ts -> nodes_have (y :: r) k ts.
Proof. intros (n & ? & ? & ?). exists n. split_and!; [by right|done|done]. Qed.
Lemma nodes_have_here y r k ts : n_key y = k -> ts <= n_timestamp y -> nodes_have (y :: r) k ts.
Proof. intros. exists y. split_and!; [by left|done|done]. Qed.
Lemma node_of_cons y l k r : node_of l k r -> node_of (y :: l) k r.
Proof. intros (n & ? & ? & ?). exists n. split_and!; [by right|done|done]. Qed.
Lemma node_of_here y l : node_of (y :: l) (n_key y) (node_rec y).
Proof. exists y. split_and!; [by left|done|done]. Qed.

Lemma nodes_sorted_cons n l : nodes_sorted (n :: l) <-> (forall x, x ∈ l -> n_key n < n_key x) /\ nodes_sorted l.
Proof.
  unfold nodes_sorted. split.
  - intros H. inversion H as [|? ? H1 H2]; subst. split; [|done]. by apply Forall_forall.
  - intros [H1 H2]. constructor; [done|]. by apply Forall_forall.
Qed.

(** A head below every key of the rest of both lists stays in front. *)
Lemma merged_below l ps r c n k :
  merged l ps r c -> nodes_sorted l -> nodes_sorted ps -> n_key n = k ->
  (forall x, x ∈ l -> k < n_key x) -> (forall x, x ∈ ps -> k < n_key x) -> nodes_sorted (n :: r).
Proof.
  intros M Hl Hp <- H1 H2. apply nodes_sorted_cons. split; [|by apply M].
  intros y [(x & Hx & <- & _)|(x & Hx & <- & _)]%(mg_from _ _ _ _ M); auto.
Qed.

Lemma merged_nil l : merged l [] l 0.
Proof.
  split; [done|intros x Hx; exists x; split_and!; [done|done|lia]|by intros x ?%elem_of_nil| |split; [lia|done]].
  intros y Hy. left. by exists y.
Qed.

Lemma merged_take e p l ps r c :
  n_key e < n_key p -> merged l (p :: ps) r c -> merged (e :: l) (p :: ps) (e :: r) c.
Proof.
  intros Hlt M. split.
  - intros [H1 H2]%nodes_sorted_cons Hp. eapply (merged_below l (p :: ps)); [done|done|done|done|done|].
    pose proof Hp as [H3 _]%nodes_sorted_cons. intros x [->|Hx]%elem_of_cons; [done|]. specialize (H3 x Hx). lia.
  - intros x [->|Hx]%elem_of_cons; [apply nodes_have_here; [done|lia]|by apply nodes_have_cons, M].
  - intros x Hx. by apply nodes_have_cons, (mg_new _ _ _ _ M).
  - intros y [->|Hy]%elem_of_cons; [left; apply node_of_here|].
    destruct (mg_from _ _ _ _ M y Hy); [left; by apply node_of_cons|by right].
  - pose proof (mg_len _ _ _ _ M). rewrite !lenZ_cons in *. lia.
Qed.

Lemma merged_insert p l ps r c :
  (forall e, head l = Some e -> n_key p < n_key e) -> merged l ps r c -> merged l (p :: ps) (p :: r) (c + 1).
Proof.
  intros Hh M. split.
  - intros Hl [H3 H4]%nodes_sorted_cons. eapply (merged_below l ps); [done|done|done|done| |done].
    destruct l as [|e l]; [by intros x ?%elem_of_nil|]. specialize (Hh e eq_refl). pose proof Hl as [H1 _]%nodes_sorted_cons.
    intros x [->|Hx]%elem_of_cons; [done|]. specialize (H1 x Hx). lia.
  - intros x Hx. by apply nodes_have_cons, M.
  - intros x [->|Hx]%elem_of_cons; [apply nodes_have_here; [done|lia]|by apply nodes_have_cons, (mg_new _ _ _ _ M)].
  - intros y [->|Hy]%elem_of_cons; [right; apply node_of_here|].
    destruct (mg_from _ _ _ _ M y Hy); [by left|right; by apply node_of_cons].
  - pose proof (mg_len _ _ _ _ M). rewrite !lenZ_cons in *. lia.
Qed.

Lemma merged_replace e p l ps r c :
  n_key e = n_key p -> merged l ps r c ->
  merged (e :: l) (p :: ps) ((if n_timestamp p >? n_timestamp e then overwrite_node e p else e) :: r) c.
Proof.
  intros Heq M. set (y := if _ >? _ then _ else _).
  assert (n_key y = n_key e /\ n_timestamp e <= n_timestamp y /\ n_timestamp p <= n_timestamp y) as (Hk & H1 & H2).
  { unfold y. zcase; cbn; lia. }
  split.
  - intros [A1 A2]%nodes_sorted_cons [B1 B2]%nodes_sorted_cons. eapply (merged_below l ps); [done|done|done|exact Hk|done|].
    intros x Hx. specialize (B1 x Hx). lia.
  - intros x [->|Hx]%elem_of_cons; [apply nodes_have_here; [done|lia]|by apply nodes_have_cons, M].
  - intros x [->|Hx]%elem_of_cons; [apply nodes_have_here; [lia|lia]|by apply nodes_have_cons, (mg_new _ _ _ _ M)].
  - intros z [->|Hz]%elem_of_cons.
    + unfold y. destruct (n_timestamp p >? n_timestamp e); [right; exists p|left; apply node_of_here].
      split_and!; [by left|by cbn|done].
    + destruct (mg_from _ _ _ _ M z Hz); [left|right]; by apply node_of_cons.
  - pose proof (mg_len _ _ _ _ M). rewrite !lenZ_cons in *. lia.
Qed.

Lemma merge_sorted_spec l : forall ps, let '(r, c) := merge_sorted l ps in merged l ps r c.
Proof.
  induction l as [|e l IH]; intros ps.
  - induction ps as [|p ps IHp]; [apply merged_nil|]. cbn in *. destruct ((fix go (ps : list lsm_node) := _) ps) as [r c].
    by apply merged_insert.
  - induction ps as [|p ps IHp]; [apply merged_nil|]. cbn [merge_sorted]. destruct (n_key e <? n_key p) eqn:E1.
    { specialize (IH (p :: ps)). destruct (merge_sorted l (p :: ps)) as [r c]. apply merged_take; [lia|done]. }
    destruct (n_key e =? n_key p) eqn:E2.
    { specialize (IH ps). destruct (merge_sorted l ps) as [r c]. apply merged_replace; [lia|done]. }
    change (let '(r, c) := merge_sorted (e :: l) ps in merged (e :: l) ps r c) in IHp. cbn [merge_sorted] in IHp.
    destruct ((fix go (ps : list lsm_node) := _) ps) as [r c]. apply merged_insert; [|done]. intros x [= <-]. lia.
Qed.

(** ** Finding the captured run again *)

Lemma from_addr_split pre l n :
  NoDup (map n_addr (pre ++ l)) -> head l = Some n -> from_addr (n_addr n) (pre ++ l) = l.
Proof.
  intros Hnd Hh. induction pre as [|m pre IH]; cbn.
  - destruct l as [|x l]; [done|]. injection Hh as ->. cbn. by rewrite Z.eqb_refl.
  - cbn in Hnd. apply NoDup_cons in Hnd as [Hm Hnd]. destruct (n_addr m =? n_addr n) eqn:E; [|by apply IH].
    exfalso. apply Hm. apply list_elem_of_fmap. exists n. split; [lia|]. destruct l; [done|]. injection Hh as ->. apply elem_of_app. right. by left.
Qed.

Lemma from_ptr_split pre l : NoDup (map n_addr (pre ++ l)) -> from_ptr (addr_of l) (pre ++ l) = l.
Proof.
  intros Hnd. unfold addr_of. destruct l as [|n l]; [done|]. cbn. by apply from_addr_split.
Qed.

Lemma find_link_split pre l : NoDup (map n_addr (pre ++ l)) -> find_link (addr_of l) (pre ++ l) = length pre.
Proof.
  intros Hnd. induction pre as [|m pre IH]; cbn.
  - destruct l as [|x l]; [done|]. cbn. by rewrite bool_decide_true.
  - cbn in Hnd. apply NoDup_cons in Hnd as [Hm Hnd]. rewrite bool_decide_false; [by rewrite IH|].
    unfold addr_of. destruct l as [|n l]; [done|]. cbn. intros [= E]. apply Hm, list_elem_of_fmap. exists n. split; [done|]. apply elem_of_app. right. by left.
Qed.

Definition run_tail (run : list lsm_node) : option Z := n_addr <$> last run.

Lemma walk_spec count : forall l tail,
  (count <= length l)%nat ->
  walk count l tail = Some (match run_tail (take count l) with Some a => Some a | None => tail end, drop count l).
Proof.
  induction count as [|count IH]; intros l tail Hl; [done|]. destruct l as [|n l]; [cbn in Hl; lia|].
  cbn [walk take drop]. rewrite IH by (cbn in Hl; lia). unfold run_tail. destruct (take count l) as [|x t] eqn:Et; [done|].
  change (last (n :: x :: t)) with (last (x :: t)). by destruct (proj2 (last_is_Some (x :: t)) ltac:(done)) as [w ->].
Qed.

Lemma check_run_spec run post : check_run (length run) (run ++ post) (run_tail run) (addr_of post) = true.
Proof.
  induction run as [|n run IH]; cbn; [by rewrite bool_decide_true|]. destruct run as [|m run]; cbn in *.
  - by rewrite !bool_decide_true.
  - exact IH.
Qed.

(** ** The segment of a run *)

(** C25: The block table and segment built from a run of nodes answer a key with
    the newest record the run has for it, and with nothing when the run has none,
    and their Bloom filter admits every key of the run; the only failure is an
    allocation. *)
Theorem segment_of_run_finds_newest threshold l lv track bpk h :
  1 <= threshold <= U32_MAX -> 0 < lenZ l < 2 ^ 32 -> 0 <= lv <= IMR_LSM_MAX_LEVEL ->
  let '(h1, b, r) := build_run threshold (length l) l empty_builder h in
  r = Fail (- ENOMEM) \/
  (r = Ok [] /\
   let '(_, _, r) := imr_lsm_prepare_segment lv track b bpk h1 in
   r = Fail (- ENOMEM) \/
   exists g, r = Ok (Some g) /\
     (forall n, n ∈ l -> imr_lsm_bloom_may_contain (sg_bloom g) (n_key n) = true) /\
     forall key,
       match imr_lsm_segment_block_table_find g key with
       | Some e => node_of l key (entry_rec e) /\ forall n, n ∈ l -> n_key n = key -> n_timestamp n <= be_timestamp e
       | None => forall n, n ∈ l -> n_key n <> key
       end).
Proof.
  intros Ht Hl Hlv. pose proof (build_run_spec threshold (length l) l empty_builder h Ht empty_builder_ok) as Hb. cbn [sb_node_count empty_builder] in Hb.
  specialize (Hb ltac:(unfold lenZ in *; lia) ltac:(lia)). destruct (build_run threshold (length l) l empty_builder h) as [[h1 b] r].
  destruct Hb as [->|(-> & Hb & _ & Hall & _ & Hfrom)]; [by left|]. right. rewrite drop_all. rewrite take_ge in * by lia. split; [done|].
  assert (forall n, n ∈ l -> exists e, e ∈ sb_table b /\ be_key e = n_key n /\ n_timestamp n <= be_timestamp e) as Hall' by exact Hall.
  assert (sb_table b <> []) as Hne.
  { destruct l as [|n l]; [change (0 < 0 < 2 ^ 32) in Hl; lia|]. destruct (Hall' n) as (e & He & _); [by left|]. intros E. rewrite E in He. by apply elem_of_nil in He. }
  pose proof (prepare_segment_spec lv track b bpk h1 Hb Hne Hlv) as Hg. destruct (imr_lsm_prepare_segment lv track b bpk h1) as [[h2 b2] r].
  destruct Hg as [->|(g & -> & Hok & Htab & _)]; [by left|]. right. exists g. split; [done|]. rewrite <- Htab in *. split.
  - intros n Hn. destruct (Hall' n Hn) as (e & He & <- & _). by apply Hok.
  - intros key. rewrite (table_find_eq g key) by apply Hok. destruct (tbl_find key (sg_table g)) as [e|] eqn:E.
    + apply tbl_find_Some in E as [He <-]. split.
      * destruct (Hfrom e He) as [He0|]; [by apply elem_of_nil in He0|done].
      * intros n Hn Hk. destruct (Hall' n Hn) as (e' & He' & Hk' & Hts). assert (e' = e) as ->; [|done].
        pose proof (tbl_find_in _ _ (sgo_sorted _ Hok) He) as F1. pose proof (tbl_find_in _ _ (sgo_sorted _ Hok) He') as F2.
        rewrite Hk', Hk in F2. congruence.
    + intros n Hn Hk. destruct (Hall' n Hn) as (e & He & Hk' & _). apply (proj1 (tbl_find_None key (sg_table g)) E e He). congruence.
Qed.

Definition sample_run : list lsm_node :=
  [MkNode 3 7 300 0 true 3; MkNode 2 5 200 0 false 2; MkNode 1 7 100 0 true 1].

Definition sample_built : heap * builder * cres (list lsm_node) :=
  Eval vm_compute in build_run 1024 3 sample_run empty_builder (MkHeap [] 0).
Definition sample_prepared : heap * builder * cres (option segment) :=
  Eval vm_compute in imr_lsm_prepare_segment 1 1 sample_built.1.2 10 sample_built.1.1.

Lemma segment_of_run_finds_newest_witness :
  exists g, sample_prepared.2 = Ok (Some g) /\
    be_pba <$> imr_lsm_segment_block_table_find g 7 = Some 300 /\ be_valid <$> imr_lsm_segment_block_table_find g 5 = Some false /\
    imr_lsm_segment_block_table_find g 6 = None /\
    forall n, n ∈ sample_run -> imr_lsm_bloom_may_contain (sg_bloom g) (n_key n) = true.
Proof.
  pose proof (segment_of_run_finds_newest 1024 sample_run 1 1 10 (MkHeap [] 0)) as T.
  specialize (T ltac:(unfold U32_MAX; lia) ltac:(unfold lenZ; cbn; lia) ltac:(unfold IMR_LSM_MAX_LEVEL; lia)).
  assert (build_run 1024 (length sample_run) sample_run empty_builder (MkHeap [] 0) = sample_built) as E1 by (vm_compute; reflexivity).
  assert (imr_lsm_prepare_segment 1 1 sample_built.1.2 10 sample_built.1.1 = sample_prepared) as E2 by (vm_compute; reflexivity).
  rewrite E1 in T. destruct sample_built as [[h1 b] r] eqn:E3. cbn [fst snd] in E2. rewrite E2 in T.
  destruct T as [->|(_ & T)]; [vm_compute in E3; discriminate|]. destruct sample_prepared as [[h2 b2] r2] eqn:E4.
  destruct T as [->|(g & -> & Hb & _)]; [vm_compute in E4; discriminate|]. exists g. split; [reflexivity|].
  vm_compute in E4. injection E4 as _ _ <-. split_and!; [vm_compute; reflexivity|vm_compute; reflexivity|vm_compute; reflexivity|exact Hb].
Defined.
