(* ===== verification/ImrPlan.v ===== *)
(** The effect of publishing a level compaction on the levels and the segment
    list, and that it keeps the invariant of the LSM with the same newest
    records. *)

From Stdlib Require Import Sorted.
From S2P Require Import Prelude StdMap ImrPrelude ImrGeometry ImrBloom ImrState ImrReadTree ImrLevels ImrSegment ImrPlacement ImrAccounting ImrCore ImrLsm ImrLsmInv ImrLsmOps ImrCompaction ImrBuild.

(** ** Levels *)

(** The source level without the run, and without its sorted list when it moves. *)
Definition cut (rest : list lsm_node) (retire : bool) (l : level_state) : level_state :=
  MkLevel rest (if retire then [] else sorted_head l) (lenZ rest) (if retire then 0 else sorted_count l).
(** The destination level with the prepared nodes. *)
Definition glue (ps : list lsm_node) (l : level_state) : level_state :=
  let '(r, c) := merge_sorted (sorted_head l) ps in set_sorted_count (u32 (sorted_count l + c)) (set_sorted_head r l).

(** The segment after the retirement of the active segments of a level. *)
Definition retire_if (retire : bool) (lv : Z) (g : segment) : segment :=
  if retire && (sg_level g =? lv) && negb (sg_retired g) then set_sg_retired true g else g.

(** A segment and prepared nodes that hold the newest record of every key of the
    input nodes, and nothing else. *)
Record output_ok (inputs ps : list lsm_node) (g : segment) (dst : Z) : Prop := {
  oo_seg : seg_ok g;
  oo_level : sg_level g = dst;
  oo_active : sg_retired g = false;
  oo_all : forall n, n ∈ inputs -> tbl_has (sg_table g) (n_key n) (n_timestamp n);
  oo_from : forall e, e ∈ sg_table g -> node_of inputs (be_key e) (entry_rec e);
  oo_nodes : map (fun n => (n_key n, node_rec n)) ps = map (fun e => (be_key e, entry_rec e)) (sg_table g);
  oo_len : lenZ (sg_table g) <= lenZ inputs;
}.

Lemma map_eq_elem {A B C} (f : A -> C) (g : B -> C) l k x : map f l = map g k -> x ∈ l -> exists y, y ∈ k /\ f x = g y.
Proof.
  intros E Hx. assert (f x ∈ map g k) as (y & Hy & Hin)%list_elem_of_fmap by (rewrite <- E; apply list_elem_of_fmap; by exists x).
  by exists y.
Qed.

Lemma output_nodes_sorted inputs ps g dst : output_ok inputs ps g dst -> nodes_sorted ps.
Proof.
  intros [Hs _ _ _ _ Hn _]. pose proof (sgo_sorted _ Hs) as Hso. revert Hn Hso. generalize (sg_table g). clear.
  induction ps as [|p ps IH]; intros [|e t] E Hs; try done; [constructor|]. cbn in E. injection E as Ek _ _ _ E.
  apply tbl_sorted_cons in Hs as [H1 H2]. apply nodes_sorted_cons. split; [|by apply (IH t)].
  intros x Hx. destruct (map_eq_elem _ _ _ _ x E Hx) as (y & Hy & [= Exy _ _ _]). specialize (H1 y Hy). lia.
Qed.

Lemma glue_spec ps l :
  lenZ (sorted_head l) + lenZ ps < 2 ^ 32 -> sorted_count l = lenZ (sorted_head l) ->
  exists r c, merged (sorted_head l) ps r c /\ glue ps l = MkLevel (unsorted_head l) r (unsorted_count l) (lenZ r).
Proof.
  intros Hb Hc. pose proof (merge_sorted_spec (sorted_head l) ps) as M. unfold glue.
  destruct (merge_sorted (sorted_head l) ps) as [r c]. exists r, c. split; [done|]. unfold set_sorted_count, set_sorted_head. cbn.
  f_equal. destruct (mg_len _ _ _ _ M). pose proof (lenZ_nonneg (sorted_head l)). rewrite u32_small by lia. lia.
Qed.

Section compacted.
Context (H : newest_map) (lv : list level_state) (gs : list segment) (now : Z).
Context (src dst : Z) (ls ld : level_state) (pre run post ps r : list lsm_node) (c : Z) (retire : bool) (g : segment).
Hypothesis (Hok : lsm_ok H lv gs now).
Hypothesis (Hsrc : nthZ lv src = Some ls) (Hdst : nthZ lv dst = Some ld).
Hypothesis (Hsplit : unsorted_head ls = pre ++ run ++ post).
Hypothesis (Hretire : retire = true -> src <> dst /\ src < IMR_LSM_MAX_LEVEL).
Abbreviation inputs := (run ++ if retire then sorted_head ls else []).
Hypothesis (Hout : output_ok inputs ps g dst).
Hypothesis (Hmerge : merged (sorted_head ld) ps r c).
Abbreviation lv1 := (updZ lv src (cut (pre ++ post) retire ls)).
Abbreviation gs2 := (map (retire_if retire src) (gs ++ [g])).
Context (ld1 : level_state).
Hypothesis (Hld1 : nthZ lv1 dst = Some ld1).
Abbreviation lv2 := (updZ lv1 dst (MkLevel (unsorted_head ld1) r (unsorted_count ld1) (lenZ r))).

Lemma compacted_level i l2 : nthZ lv2 i = Some l2 ->
  exists l, nthZ lv i = Some l /\
    unsorted_head l2 = (if decide (i = src) then pre ++ post else unsorted_head l) /\
    unsorted_count l2 = lenZ (unsorted_head l2) /\ sorted_count l2 = lenZ (sorted_head l2) /\
    sorted_head l2 = (if decide (i = dst) then r else if decide (i = src) then (if retire then [] else sorted_head l) else sorted_head l).
Proof.
  intros H2. pose proof (nthZ_Some _ _ _ Hsrc) as Hs. pose proof (nthZ_Some _ _ _ Hdst) as Hd.
  assert (forall i l1, nthZ lv1 i = Some l1 -> exists l, nthZ lv i = Some l /\
    unsorted_head l1 = (if decide (i = src) then pre ++ post else unsorted_head l) /\
    unsorted_count l1 = lenZ (unsorted_head l1) /\ sorted_count l1 = lenZ (sorted_head l1) /\
    sorted_head l1 = (if decide (i = src) then (if retire then [] else sorted_head l) else sorted_head l)) as H1.
  { intros j l1 Hj. destruct (decide (j = src)) as [->|Hne].
    - rewrite nthZ_updZ_eq in Hj by done. injection Hj as <-. exists ls. cbn. split_and!; try done.
      destruct retire; [done|]. apply Hok. by eapply nthZ_In.
    - rewrite nthZ_updZ_ne in Hj by done. exists l1. split_and!; try done; apply Hok; by eapply nthZ_In. }
  destruct (decide (i = dst)) as [->|Hne].
  - rewrite nthZ_updZ_eq in H2 by (by rewrite lenZ_updZ). injection H2 as <-.
    destruct (H1 dst ld1 Hld1) as (l & Hl & Hu & Hc & _). exists l. cbn. by split_and!.
  - rewrite nthZ_updZ_ne in H2 by done. by apply H1.
Qed.

Lemma compacted_level_of i l : nthZ lv i = Some l -> is_Some (nthZ lv2 i).
Proof. intros Hi. apply nthZ_is_Some. rewrite !lenZ_updZ. by eapply nthZ_Some. Qed.

Lemma input_bounded k x : node_of inputs k x -> bounded H k x.
Proof.
  intros (n & Hn & <- & <-). apply elem_of_app in Hn as [Hn|Hn].
  - apply (ok_unsorted _ _ _ _ Hok ls); [by eapply nthZ_In|]. rewrite Hsplit. apply elem_of_app. right. apply elem_of_app. by left.
  - destruct retire; [|by apply elem_of_nil in Hn]. apply (ok_sorted _ _ _ _ Hok ls); [by eapply nthZ_In|done].
Qed.

Lemma prepared_bounded k x : node_of ps k x -> bounded H k x.
Proof.
  intros (n & Hn & <- & <-). destruct (map_eq_elem _ _ _ _ n (oo_nodes _ _ _ _ Hout) Hn) as (e & He & [= Hk Hp Hv Ht]).
  apply input_bounded. replace (node_rec n) with (entry_rec e) by (unfold node_rec, entry_rec; congruence). rewrite Hk. by apply (oo_from _ _ _ _ Hout).
Qed.

(** The newest record of a key, if an input node has it, is in the new segment. *)
Lemma newest_in_output k x n : H k = Some x -> n ∈ inputs -> n_key n = k -> r_ts x <= n_timestamp n -> present lv2 gs2 k x.
Proof.
  intros Hk Hn <- Hts. destruct (oo_all _ _ _ _ Hout n Hn) as (e & He & Hek & Het). right. exists g, e.
  assert (retire_if retire src g = g) as Hg.
  { unfold retire_if. rewrite (oo_level _ _ _ _ Hout). destruct retire; [|done]. destruct Hretire as [Hne _]; [done|].
    by rewrite (proj2 (Z.eqb_neq dst src) ltac:(lia)). }
  split_and!; [apply list_elem_of_fmap; exists g; split; [done|apply elem_of_app; right; by left]|apply Hout|done|done|].
  destruct (input_bounded _ _ (oo_from _ _ _ _ Hout e He)) as (r0 & Hr0 & Hor). rewrite Hek, Hk in Hr0. injection Hr0 as <-.
  destruct Hor as [Hlt|]; [|done]. cbn in Hlt. lia.
Qed.

Lemma compacted_total : total lv2 <= now < 2 ^ 32.
Proof.
  pose proof (ok_total _ _ _ _ Hok). destruct (mg_len _ _ _ _ Hmerge) as [Hlr Hc].
  rewrite (total_updZ _ _ _ _ Hld1), (total_updZ _ _ _ _ Hsrc). pose proof (oo_len _ _ _ _ Hout) as Hlen.
  assert (lenZ ps = lenZ (sg_table g)) as Hps.
  { unfold lenZ. f_equal. rewrite <- (length_map (fun n => (n_key n, node_rec n)) ps), (oo_nodes _ _ _ _ Hout). apply length_map. }
  rewrite lenZ_app in Hlen. assert (lenZ (if retire then sorted_head ls else []) <= lenZ (sorted_head ls)) as Hss
    by (destruct retire; [lia|apply lenZ_nonneg]).
  unfold weight. cbn [unsorted_head sorted_head cut]. rewrite Hsplit, !lenZ_app.
  assert (sorted_head ld1 = sorted_head ld) as ->.
  { destruct (decide (src = dst)) as [Heq|Hne].
    - assert (ls = ld) as <- by congruence. rewrite <- Heq, nthZ_updZ_eq in Hld1 by (by eapply nthZ_Some). injection Hld1 as <-. cbn.
      destruct retire; [|done]. by destruct Hretire.
    - rewrite nthZ_updZ_ne in Hld1 by done. congruence. }
  destruct retire; cbn [lenZ length] in *; unfold lenZ in *; cbn [length] in *; lia.
Qed.

(** A node at least as new survives in the sorted list of a level, unless the list moves. *)
Lemma compacted_sorted i l k ts :
  nthZ lv i = Some l -> ~ (retire = true /\ i = src) -> nodes_have (sorted_head l) k ts ->
  exists l2, nthZ lv2 i = Some l2 /\ nodes_have (sorted_head l2) k ts.
Proof.
  intros Hi Hne (n & Hn & Hk & Hts). destruct (compacted_level_of i l Hi) as [l2 Hl2]. exists l2. split; [done|].
  destruct (compacted_level i l2 Hl2) as (l' & Hl' & _ & _ & _ & Hso). assert (l' = l) as -> by congruence. rewrite Hso.
  destruct (decide (i = dst)) as [->|].
  - assert (l = ld) as -> by congruence. destruct (mg_old _ _ _ _ Hmerge n Hn) as (y & Hy & Hyk & Hyt).
    exists y. split_and!; [done|congruence|lia].
  - exists n. split_and!; [|done|done]. destruct (decide (i = src)); [|done]. destruct retire; [naive_solver|done].
Qed.

Lemma compacted_covered x e : x ∈ gs2 -> sg_retired x = false -> sg_level x < IMR_LSM_MAX_LEVEL -> e ∈ sg_table x -> covered lv2 x e.
Proof.
  intros (x0 & -> & Hx0)%list_elem_of_fmap Hr Hlv He.
  assert (retire_if retire src x0 = x0 /\ (retire = true -> sg_retired x0 = false -> sg_level x0 <> src)) as [Hx Hn].
  { revert Hr. unfold retire_if. destruct retire; [|done]. destruct (sg_level x0 =? src) eqn:E; [|split; [done|lia]].
    destruct (sg_retired x0) eqn:E2; cbn; [congruence|done]. }
  rewrite Hx in *. specialize (fun h => Hn h Hr). apply elem_of_app in Hx0 as [Hx0|Hx0%list_elem_of_singleton].
  - destruct (ok_covered _ _ _ _ Hok x0 e Hx0 Hr Hlv He) as (l & n & Hl & Hnn & Hk & Hts).
    destruct (compacted_sorted (sg_level x0) l (be_key e) (be_timestamp e)) as (l2 & Hl2 & y & Hy & Hyk & Hyt);
      [done|naive_solver|by exists n|]. by exists l2, y.
  - subst x0. rewrite (oo_level _ _ _ _ Hout) in Hlv.
    destruct (map_eq_elem _ _ _ _ e (eq_sym (oo_nodes _ _ _ _ Hout)) He) as (p & Hp & [= Ek _ _ Et]).
    destruct (compacted_level_of dst ld Hdst) as [l2 Hl2]. destruct (compacted_level dst l2 Hl2) as (l & _ & _ & _ & _ & Hso).
    rewrite decide_True in Hso by done. destruct (mg_new _ _ _ _ Hmerge p Hp) as (y & Hy & Hyk & Hyt).
    exists l2, y. rewrite (oo_level _ _ _ _ Hout), Hso. split_and!; [done|done|congruence|lia].
Qed.

Lemma compacted_present k x : H k = Some x -> present lv2 gs2 k x.
Proof.
  intros Hk. destruct (ok_present _ _ _ _ Hok k x Hk) as [(l & n & Hl & Hn & <- & <-)|(g0 & e & Hg0 & Hr & He & <- & <-)].
  - apply In_nthZ in Hl as [i Hi]. destruct (compacted_level_of i l Hi) as [l2 Hl2].
    destruct (compacted_level i l2 Hl2) as (l' & Hl' & Hu & _). assert (l' = l) as -> by congruence.
    assert (n ∈ unsorted_head l2 \/ n ∈ run) as [Hin|Hin].
    { rewrite Hu. destruct (decide (i = src)) as [->|]; [|by left]. assert (l = ls) as -> by congruence.
      rewrite Hsplit, !elem_of_app in Hn. rewrite elem_of_app. naive_solver. }
    + left. exists l2, n. split_and!; [by eapply nthZ_In|done|done|done].
    + apply (newest_in_output _ _ n); [done|apply elem_of_app; by left|done|cbn; lia].
  - destruct (retire && (sg_level g0 =? src)) eqn:Em.
    + apply andb_true_iff in Em as [Hret Hlv%Z.eqb_eq]. destruct Hretire as [_ Hlt]; [done|]. rewrite <- Hlv in Hlt.
      destruct (ok_covered _ _ _ _ Hok g0 e Hg0 Hr Hlt He) as (l & n & Hl & Hn & Hkn & Hts).
      assert (l = ls) as -> by congruence. apply (newest_in_output _ _ n); [done| |done|done].
      rewrite Hret. apply elem_of_app. by right.
    + right. exists g0, e. split_and!; [|done|done|done|done]. apply list_elem_of_fmap. exists g0.
      split; [|apply elem_of_app; by left]. unfold retire_if. by rewrite Em.
Qed.

Lemma lsm_ok_compacted : lsm_ok H lv2 gs2 now.
Proof.
  assert (forall x, x ∈ gs2 -> exists x0, (x0 ∈ gs \/ x0 = g) /\ (x = x0 \/ x = set_sg_retired true x0)) as Hgs.
  { intros x (x0 & -> & Hx0)%list_elem_of_fmap. exists x0. split.
    - by apply elem_of_app in Hx0 as [?|?%list_elem_of_singleton]; [left|right].
    - unfold retire_if. destruct (_ && _); [by right|by left]. }
  split.
  - rewrite !lenZ_updZ. apply Hok.
  - intros l2 [i Hi]%In_nthZ. destruct (compacted_level i l2 Hi) as (l & _ & _ & ? & ? & _). done.
  - apply compacted_total.
  - apply Hok.
  - intros l2 n [i Hi]%In_nthZ Hn. destruct (compacted_level i l2 Hi) as (l & Hl & Hu & _).
    apply (ok_unsorted _ _ _ _ Hok l); [by eapply nthZ_In|]. rewrite Hu in Hn. destruct (decide (i = src)) as [->|]; [|done].
    assert (l = ls) as -> by congruence. rewrite Hsplit, !elem_of_app. apply elem_of_app in Hn. naive_solver.
  - intros l2 n [i Hi]%In_nthZ Hn. destruct (compacted_level i l2 Hi) as (l & Hl & _ & _ & _ & Hso). rewrite Hso in Hn.
    assert (forall l, l ∈ lv -> n ∈ sorted_head l -> bounded H (n_key n) (node_rec n)) as Hb by (intros; by eapply (ok_sorted _ _ _ _ Hok)).
    destruct (decide (i = dst)).
    + destruct (mg_from _ _ _ _ Hmerge n Hn) as [(m & Hm & <- & <-)|Hps]; [|by apply prepared_bounded].
      apply (ok_sorted _ _ _ _ Hok ld); [by eapply nthZ_In|done].
    + apply (Hb l); [by eapply nthZ_In|]. destruct (decide (i = src)); [|done]. destruct retire; [by apply elem_of_nil in Hn|done].
  - intros l2 [i Hi]%In_nthZ. destruct (compacted_level i l2 Hi) as (l & Hl & _ & _ & _ & ->).
    assert (forall j l, nthZ lv j = Some l -> nodes_sorted (sorted_head l)) as Ho by (intros; eapply (ok_order _ _ _ _ Hok); by eapply nthZ_In).
    destruct (decide (i = dst)); [apply Hmerge; [by eapply Ho|by eapply output_nodes_sorted]|].
    destruct (decide (i = src)); [destruct retire; [constructor|by eapply Ho]|by eapply Ho].
  - intros x (x0 & Hx0 & Hx)%Hgs. assert (seg_ok x0) as Hs0 by (destruct Hx0 as [| -> ]; [by apply Hok|apply Hout]).
    destruct Hx as [->| -> ]; [done|]. destruct Hs0. by split.
  - intros x e (x0 & Hx0 & [->| -> ])%Hgs Hr He; [|done]. destruct Hx0 as [| -> ]; [by apply (ok_entries _ _ _ _ Hok x0)|].
    by apply input_bounded, (oo_from _ _ _ _ Hout).
  - apply compacted_present.
  - apply compacted_covered.
Qed.
End compacted.
