(* ===== verification/ImrPublish.v ===== *)
(** Publishing a segment: what linking, placing and accounting it, and retiring
    the segments it replaces, change of the levels and of the segment list. *)

From S2P Require Import Prelude StdMap ImrPrelude ImrGeometry ImrBloom ImrState ImrReadTree ImrLevels ImrSegment ImrPlacement ImrAccounting ImrCore ImrLsm ImrLsmInv ImrLsmOps ImrCompaction ImrBuild ImrPlan.

(** ** Operations on the segment list *)

(** The state without the segment list. *)
Definition shell (s : kstate) : kstate :=
  upd_meta (fun m => set_segments [] (set_segment_count 0 (set_next_segment_id 0 m))) (nh (core s)).
Definition gcore (s : kstate) : list segment := map seg_core (segments (meta s)).

(** [s'] is [s] with another segment list. *)
Record reshapes (s s' : kstate) (gs : list segment) : Prop := {
  rs_shell : shell s' = shell s;
  rs_hp : hp_next (hp s) <= hp_next (hp s');
  rs_segs : gcore s' = gs;
}.

Lemma keeps_rt_gcore s s' : keeps_rt s s' -> gcore s' = gcore s.
Proof. intros [E _]. exact (f_equal (fun s => segments (meta s)) E). Qed.
Lemma core_gcore s s' : core s' = core s -> gcore s' = gcore s.
Proof. intros E. exact (f_equal (fun s => segments (meta s)) E). Qed.

Lemma keeps_rt_reshapes s s' : keeps_rt s s' -> reshapes s s' (gcore s).
Proof.
  intros Hk. split; [|apply Hk|by apply keeps_rt_gcore].
  exact (f_equal (upd_meta (fun m => set_segments [] (set_segment_count 0 (set_next_segment_id 0 m)))) (kr_core _ _ Hk)).
Qed.
Lemma reshapes_trans s1 s2 s3 gs2 gs3 : reshapes s1 s2 gs2 -> reshapes s2 s3 gs3 -> reshapes s1 s3 gs3.
Proof. intros [A1 A2 _] [B1 B2 B3]. split; [congruence|lia|done]. Qed.
Lemma reshapes_keeps s1 s2 s3 gs : reshapes s1 s2 gs -> keeps_rt s2 s3 -> reshapes s1 s3 gs.
Proof. intros Hr Hk%keeps_rt_reshapes. rewrite <- (rs_segs _ _ _ Hr). by eapply reshapes_trans. Qed.

Lemma reshapes_inv H s s' gs :
  reshapes s s' gs -> lsm_ok H (levels (meta s)) gs (timestamp (meta s)) -> initialized (meta s) = true ->
  addr_ok (levels (meta s)) (hp_next (hp s)) -> rt_wf (meta s) -> rt_agrees H (meta s) -> lsm_inv H s'.
Proof.
  intros [Hs Hh Hg] Hok Hi Ha Hw Hr.
  assert (forall A (f : metadata -> A), (forall m, f (set_segments [] (set_segment_count 0 (set_next_segment_id 0 (meta_core m)))) = f m) ->
    f (meta s') = f (meta s)) as Hf.
  { intros A f Hf. pose proof (f_equal (fun s => f (meta s)) Hs) as E. unfold shell in E. cbn in E. by rewrite !Hf in E. }
  pose proof (Hf _ read_tree ltac:(done)) as Ert.
  assert (same_rt (meta s) (meta s')) as Hsame by (split; by apply Hf). split.
  - by rewrite (Hf _ initialized ltac:(done)).
  - change (map seg_core (segments (meta s'))) with (gcore s').
    by rewrite Hg, (Hf _ levels ltac:(done)), (Hf _ timestamp ltac:(done)).
  - rewrite (Hf _ levels ltac:(done)). by eapply addr_ok_mono.
  - by eapply same_rt_wf.
  - unfold rt_agrees. by rewrite Ert.
Qed.

(** ** Placement and output mapping keep the segment *)

Lemma map_entries_core t : forall cursor pe mapped, map entry_core (map_entries_loop t cursor pe mapped).1.1 = map entry_core t.
Proof.
  induction t as [|e t IH]; intros cursor pe mapped; cbn [map_entries_loop]; [done|].
  destruct (negb (be_valid (clear_output e))).
  { specialize (IH cursor pe mapped). destruct (map_entries_loop t cursor pe mapped) as [[t' c'] m']. cbn in *. by rewrite IH. }
  destruct (cursor >? pe); [done|].
  specialize (IH (u64 (cursor + Z.shiftl 1 IMR_BLOCK_SIZE_SHIFT)) pe (u32 (mapped + 1))).
  destruct (map_entries_loop t _ _ _) as [[t' c'] m']. cbn in *. by rewrite IH.
Qed.

Lemma map_output_core g s :
  let '(g', s') := imr_lsm_map_segment_output_entries_locked g s in seg_core g' = seg_core g /\ core s' = core s.
Proof.
  unfold imr_lsm_map_segment_output_entries_locked. cbv zeta. destruct (_ || _); [done|].
  pose proof (map_entries_core (sg_table g) (output_pba_start (sg_output g)) (output_pba_end (sg_output g)) 0) as E.
  destruct (map_entries_loop _ _ _ _) as [[t c] m]. cbn [fst] in E. split; [unfold seg_core; cbn; by rewrite E|].
  by destruct (negb (m =? 0)).
Qed.

Lemma record_last_core g s : core (imr_lsm_record_last_placement_locked g s) = core s.
Proof. reflexivity. Qed.
Lemma allocate_output_core g s :
  let '(g', s') := imr_lsm_allocate_segment_output_locked g s in seg_core g' = seg_core g /\ core s' = core s.
Proof.
  unfold imr_lsm_allocate_segment_output_locked. cbv zeta. destruct (_ || _ || _); [done|].
  destruct (_ =? 0); [done|]. destruct (_ >? _); [done|]. by destruct (output_loop _ _ _ _ _).
Qed.

Lemma placement_core g s :
  let '(g', s') := imr_lsm_apply_segment_placement_locked g s in seg_core g' = seg_core g /\ core s' = core s.
Proof.
  unfold imr_lsm_apply_segment_placement_locked. cbv zeta.
  destruct (_ =? IMR_LSM_SEGMENT_ZONE_MIXED); [done|]. destruct (_ || _); [done|]. destruct (_ >=? imr_lsm_bottom_range_blocks); [done|].
  match goal with |- context [imr_lsm_allocate_segment_output_locked ?a ?b] =>
    pose proof (allocate_output_core a b) as E; destruct (imr_lsm_allocate_segment_output_locked a b) as [g1 s1] end.
  destruct E as [E1 E2]. split; [exact E1|]. rewrite record_last_core. exact E2.
Qed.

(** Publishing appends the segment under the next id. *)
Lemma publish_segment_spec g s :
  let '(s', i) := imr_lsm_publish_prepared_segment_locked g false s in
  reshapes s s' (gcore s ++ [set_sg_id (next_segment_id (meta s)) (seg_core g)]).
Proof.
  unfold imr_lsm_publish_prepared_segment_locked. set (g1 := set_sg_id _ g). set (s1 := upd_meta _ s).
  pose proof (placement_core g1 s1) as E1. destruct (imr_lsm_apply_segment_placement_locked g1 s1) as [g2 s2].
  pose proof (map_output_core g2 s2) as E2. destruct (imr_lsm_map_segment_output_entries_locked g2 s2) as [g3 s3].
  destruct E1 as [Eg1 Es1], E2 as [Eg2 Es2]. rewrite Es1 in Es2. rewrite Eg1 in Eg2. clear Eg1 Es1.
  assert (hp s3 = hp s) as Hh by exact (f_equal hp Es2).
  split; [|cbn; rewrite Hh; lia|].
  - transitivity (shell s3); [reflexivity|].
    exact (f_equal (fun s => upd_meta (fun m => set_segments [] (set_segment_count 0 (set_next_segment_id 0 m))) (nh s)) Es2).
  - unfold gcore. cbn. rewrite map_app. cbn [map]. f_equal; [by apply core_gcore in Es2|]. by rewrite Eg2.
Qed.

(** ** Retiring the segments of a level *)

Lemma map_alter {A B} (c : A -> B) (f : A -> A) (h : B -> B) i (l : list A) :
  (forall x, c (f x) = h (c x)) -> map c (alter f i l) = alter h i (map c l).
Proof.
  intros E. revert i. induction l as [|x l IH]; intros [|i]; cbn; try done; [by rewrite E|]. f_equal. apply IH.
Qed.

Lemma retire_segment_spec i s : reshapes s (retire_segment i s) (alter (set_sg_retired true) i (gcore s)).
Proof.
  unfold retire_segment. cbv zeta. pose proof (core_unaccount i s) as E1. set (s1 := imr_lsm_unaccount_segment_invalid_stats_locked i s) in *.
  clearbody s1. eapply reshapes_keeps; [|apply core_keeps, core_reevaluate]. rewrite <- (core_gcore _ _ E1).
  assert (hp s1 = hp s) as Hh by exact (f_equal hp E1). split; [|cbn; rewrite Hh; lia|].
  - transitivity (shell s1); [reflexivity|].
    exact (f_equal (fun s => upd_meta (fun m => set_segments [] (set_segment_count 0 (set_next_segment_id 0 m))) (nh s)) E1).
  - unfold gcore. cbn. by apply map_alter.
Qed.

Lemma retire_loop lv : forall rest done s n,
  gcore s = done ++ rest ->
  reshapes s (fold_left (fun '(s, retired) i =>
      match seg i s with
      | Some g => if (sg_level g =? lv) && negb (sg_retired g) then (retire_segment i s, u32 (retired + 1)) else (s, retired)
      | None => (s, retired)
      end) (seq (length done) (length rest)) (s, n)).1 (done ++ map (retire_if true lv) rest).
Proof.
  induction rest as [|g rest IH]; intros done s n Hg.
  { cbn. rewrite <- Hg. by apply keeps_rt_reshapes. }
  cbn [length seq fold_left map]. assert (gcore s !! length done = Some g) as Hl by (rewrite Hg; by apply list_lookup_middle).
  unfold gcore in Hl. change (map seg_core (segments (meta s))) with (seg_core <$> segments (meta s)) in Hl.
  rewrite list_lookup_fmap in Hl. unfold seg. destruct (segments (meta s) !! length done) as [g0|] eqn:E0; [|done]. injection Hl as <-.
  assert (forall x, gcore x = (done ++ [retire_if true lv (seg_core g0)]) ++ rest -> forall m,
    reshapes x (fold_left (fun '(s, retired) i =>
      match segments (meta s) !! i with
      | Some g => if (sg_level g =? lv) && negb (sg_retired g) then (retire_segment i s, u32 (retired + 1)) else (s, retired)
      | None => (s, retired)
      end) (seq (S (length done)) (length rest)) (x, m)).1 (done ++ retire_if true lv (seg_core g0) :: map (retire_if true lv) rest)) as Hrec.
  { intros x Hx m. pose proof (IH _ x m Hx) as Hr. rewrite length_app, Nat.add_1_r, <- app_assoc in Hr. exact Hr. }
  destruct ((sg_level g0 =? lv) && negb (sg_retired g0)) eqn:Ec.
  - pose proof (retire_segment_spec (length done) s) as Hr. eapply reshapes_trans; [exact Hr|]. apply Hrec. rewrite (rs_segs _ _ _ Hr), Hg.
    rewrite <- app_assoc. cbn. unfold retire_if. cbn. rewrite Ec. rewrite <- (Nat.add_0_r (length done)), alter_app_r. reflexivity.
  - apply Hrec. rewrite Hg, <- app_assoc. unfold retire_if. cbn. by rewrite Ec.
Qed.

Lemma retire_level_spec (retire : bool) lv s :
  reshapes s (if retire then (imr_lsm_retire_level_segments_locked lv s).1 else s) (map (retire_if retire lv) (gcore s)).
Proof.
  destruct retire.
  - unfold imr_lsm_retire_level_segments_locked. replace (length (segments (meta s))) with (length (gcore s)) by apply length_map.
    exact (retire_loop lv (gcore s) [] s 0 eq_refl).
  - rewrite (map_ext (retire_if false lv) id) by done. rewrite map_id. by apply keeps_rt_reshapes.
Qed.
