(* ===== verification/ImrPhases.v ===== *)
(** The phases of a level compaction: what the plan captures, its preparation,
    build and publication. *)

From S2P Require Import Prelude StdMap ImrPrelude ImrGeometry ImrBloom ImrState ImrReadTree ImrLevels ImrSegment ImrPlacement ImrAccounting ImrCore ImrLsm ImrLsmInv ImrLsmOps ImrCompaction ImrBuild ImrPlan ImrPublish.

(** ** What a plan captures *)

Abbreviation src_level p s := (level (pl_source_level p) s).
Abbreviation dst_level p s := (level (pl_destination_level p) s).

(** The sorted nodes that move with the run. *)
Definition moved (p : level_plan) (s : kstate) : list lsm_node := if pl_retire_source p then sorted_head (src_level p s) else [].

(** The source list is [pre ++ run ++ post]: the nodes written since the
    preparation, the run to compact and the older nodes. *)
Record captured (p : level_plan) (s : kstate) (pre run post : list lsm_node) : Prop := {
  cp_src : 0 <= pl_source_level p <= IMR_LSM_MAX_LEVEL;
  cp_dst : 0 <= pl_destination_level p <= IMR_LSM_MAX_LEVEL;
  cp_retire : pl_retire_source p = true ->
    pl_source_level p <> pl_destination_level p /\ pl_source_level p < IMR_LSM_MAX_LEVEL;
  cp_split : unsorted_head (src_level p s) = pre ++ run ++ post;
  cp_head : pl_source_head p = addr_of (run ++ post);
  cp_tail : pl_source_tail p = run_tail run;
  cp_after : pl_source_after p = addr_of post;
  cp_count : pl_source_unsorted_count p = lenZ run;
  cp_sorted : pl_source_sorted_head p = addr_of (moved p s);
  cp_sorted_count : pl_source_sorted_count p = lenZ (moved p s);
  cp_dst_head : pl_destination_sorted_head p = addr_of (sorted_head (dst_level p s));
  cp_dst_count : pl_destination_sorted_count p = lenZ (sorted_head (dst_level p s));
  cp_some : run ++ moved p s <> [];
  cp_ready : imrsim_target_ready_locked s = true;
  cp_epoch : metadata_epoch s = pl_epoch p;
  cp_bdev : output_bdev s = pl_bdev p;
}.

(** The part of the state a plan depends on. *)
Record same_levels (s s' : kstate) : Prop := {
  sl_levels : levels (meta s') = levels (meta s);
  sl_ready : imrsim_target_ready_locked s' = imrsim_target_ready_locked s;
  sl_epoch : metadata_epoch s' = metadata_epoch s;
  sl_bdev : output_bdev s' = output_bdev s;
  sl_cfg : cfg s' = cfg s;
}.

Lemma keeps_same_levels s s' : keeps s s' -> same_levels s s'.
Proof.
  intros Hk. pose proof (kp_view _ _ Hk) as E. split.
  - by apply keeps_levels.
  - exact (f_equal imrsim_target_ready_locked E).
  - exact (f_equal metadata_epoch E).
  - exact (f_equal output_bdev E).
  - exact (f_equal cfg E).
Qed.

Lemma same_levels_level s s' i : same_levels s s' -> level i s' = level i s.
Proof. intros Hs. unfold level. by rewrite (sl_levels _ _ Hs). Qed.

Lemma captured_same p s s' pre run post : same_levels s s' -> captured p s pre run post -> captured p s' pre run post.
Proof.
  intros Hs C. pose proof (fun i => same_levels_level s s' i Hs) as Hl.
  destruct C. unfold moved in *.
  split; unfold moved; rewrite ?Hl; rewrite ?(sl_ready _ _ Hs), ?(sl_epoch _ _ Hs), ?(sl_bdev _ _ Hs); done.
Qed.

(** ** Foreground writes *)

Lemma pushed_level lv n s i :
  0 <= lv < lenZ (levels (meta s)) -> level i (pushed lv n s) = if decide (i = lv) then push_node n (level lv s) else level i s.
Proof.
  intros Hlv. unfold level at 1, pushed. cbn. destruct (decide (i = lv)) as [->|Hne]; [by rewrite nthZ_updZ_eq|].
  unfold level. by rewrite nthZ_updZ_ne.
Qed.

Lemma captured_pushed p lv n s pre run post :
  0 <= lv < lenZ (levels (meta s)) -> captured p s pre run post ->
  captured p (pushed lv n s) (if decide (pl_source_level p = lv) then n :: pre else pre) run post.
Proof.
  intros Hlv C. pose proof (fun i => pushed_level lv n s i Hlv) as Hl.
  assert (forall i, sorted_head (level i (pushed lv n s)) = sorted_head (level i s)) as Hso.
  { intros i. rewrite Hl. by destruct (decide (i = lv)) as [->|]. }
  destruct C. unfold moved in *. split; unfold moved; rewrite ?Hso; try done.
  rewrite Hl. destruct (decide (pl_source_level p = lv)) as [<-|]; [|done]. cbn. by rewrite cp_split0.
Qed.

(** ** Prepare *)

Lemma dst_loop_range fuel : forall dst s, dst <= IMR_LSM_MAX_LEVEL -> dst <= dst_loop fuel dst s <= IMR_LSM_MAX_LEVEL.
Proof.
  induction fuel as [|fuel IH]; intros dst s Hd; cbn [dst_loop]; [lia|].
  destruct (dst <? IMR_LSM_LEVELS) eqn:E; [|lia]. destruct (negb _); [lia|].
  destruct (decide (dst = IMR_LSM_MAX_LEVEL)) as [->|].
  - destruct fuel; cbn [dst_loop]; [lia|]. by cbn.
  - unfold IMR_LSM_MAX_LEVEL, IMR_LSM_LEVELS in *. specialize (IH (dst + 1) s ltac:(lia)). lia.
Qed.

Lemma dst_level_spec lv s :
  0 <= lv <= IMR_LSM_MAX_LEVEL ->
  let '(s', dst) := imr_lsm_compaction_dst_level_locked lv s in
  core s' = core s /\ 0 <= dst <= IMR_LSM_MAX_LEVEL /\ (lv < IMR_LSM_MAX_LEVEL -> lv < dst) /\ (lv = IMR_LSM_MAX_LEVEL -> dst = lv).
Proof.
  intros Hlv. unfold imr_lsm_compaction_dst_level_locked. destruct (lv >=? IMR_LSM_MAX_LEVEL) eqn:E.
  { unfold IMR_LSM_MAX_LEVEL in *. split; [done|lia]. }
  cbv zeta. pose proof (dst_loop_range 7 (lv + 1) (imr_lsm_calculate_dynamic_levels_locked s) ltac:(lia)).
  split; [apply core_calc|lia].
Qed.

Lemma core_same_levels s s' : core s' = core s -> same_levels s s'.
Proof. intros E. by apply keeps_same_levels, keeps_rt_keeps, core_keeps. Qed.

Lemma level_In H s i : lsm_inv H s -> 0 <= i <= IMR_LSM_MAX_LEVEL -> nthZ (levels (meta s)) i = Some (level i s).
Proof.
  intros Hi Hr. unfold IMR_LSM_MAX_LEVEL in *. unfold level. destruct (nthZ_is_Some (levels (meta s)) i) as [l ->]; [|done].
  rewrite (ok_levels _ _ _ _ (inv_ok _ _ Hi)). lia.
Qed.
Lemma level_counts H s i : lsm_inv H s -> 0 <= i <= IMR_LSM_MAX_LEVEL ->
  unsorted_count (level i s) = lenZ (unsorted_head (level i s)) /\ sorted_count (level i s) = lenZ (sorted_head (level i s)).
Proof. intros Hi Hr. apply (ok_counts _ _ _ _ (inv_ok _ _ Hi)). eapply nthZ_In. by eapply level_In. Qed.
Lemma level_weight H s i : lsm_inv H s -> 0 <= i <= IMR_LSM_MAX_LEVEL ->
  lenZ (unsorted_head (level i s)) + lenZ (sorted_head (level i s)) < 2 ^ 32.
Proof.
  intros Hi Hr. pose proof (ok_total _ _ _ _ (inv_ok _ _ Hi)).
  pose proof (weight_total (levels (meta s)) (level i s) ltac:(eapply nthZ_In; by eapply level_In)). unfold weight in *. lia.
Qed.

(** The preparation captures the newest [max_unsorted] nodes of the level, unless
    the level has nothing to compact. *)
Lemma prepare_spec H lv max s :
  lsm_inv H s -> 0 <= lv <= IMR_LSM_MAX_LEVEL -> 1 <= max -> imrsim_target_ready_locked s = true ->
  let '(s', r) := imr_lsm_prepare_level_compaction_locked lv max s in
  core s' = core s /\
  ((r = Ok None /\ unsorted_head (level lv s') = [] /\ (lv < IMR_LSM_MAX_LEVEL -> sorted_head (level lv s') = [])) \/
   exists p run post, r = Ok (Some p) /\ captured p s' [] run post /\ pl_builder p = empty_builder /\ pl_source_level p = lv /\
     (lenZ (unsorted_head (level lv s')) <= max -> post = [] /\ (lv < IMR_LSM_MAX_LEVEL -> pl_retire_source p = true))).
Proof.
  intros Hi Hlv Hmax Hr. unfold imr_lsm_prepare_level_compaction_locked.
  assert ((lv >=? IMR_LSM_LEVELS) = false) as -> by (unfold IMR_LSM_LEVELS, IMR_LSM_MAX_LEVEL in *; lia).
  pose proof (dst_level_spec lv s Hlv) as Hd. destruct (imr_lsm_compaction_dst_level_locked lv s) as [s1 dst]. destruct Hd as (Hc & Hdst & Hlt & Heq).
  pose proof (core_same_levels _ _ Hc) as Hsl. pose proof (inv_core H _ _ Hc Hi) as Hi1.
  rewrite <- (same_levels_level _ _ lv Hsl). destruct (level_counts H s1 lv Hi1 Hlv) as [Hu Hs]. destruct (level_counts H s1 dst Hi1 Hdst) as [_ Hsd].
  rewrite Hu, Hs, Hsd. set (l := unsorted_head (level lv s1)). set (count := Z.min (lenZ l) max). pose proof (lenZ_nonneg l) as Hl0.
  set (retire := negb (dst =? lv) && (count =? lenZ l)). set (n := if retire then _ else 0).
  assert (lenZ l <= max -> lv < IMR_LSM_MAX_LEVEL -> retire = true) as Hfull.
  { intros Hm Hlt'. specialize (Hlt Hlt'). unfold retire, count. rewrite Z.min_l, Z.eqb_refl by done. lia. }
  destruct ((count =? 0) && (n =? 0)) eqn:E0.
  { split; [done|]. left. assert (l = []) as Hnil by (apply lenZ_0; lia). split_and!; [done|done|]. intros Hlt'.
    apply lenZ_0. unfold n in E0. rewrite Hfull in E0; [lia|unfold count in *; lia|done]. }
  rewrite walk_spec by (unfold count, lenZ in *; lia). split; [done|]. right.
  eexists _, (take (Z.to_nat count) l), (drop (Z.to_nat count) l). split; [reflexivity|]. split; [|split_and!; [done|done|]].
  2: { intros Hm. fold l in Hm. split; [|by apply Hfull]. apply drop_ge. unfold count, lenZ in *. lia. }
  assert (retire = true -> lv <> dst /\ lv < IMR_LSM_MAX_LEVEL) as Hret.
  { unfold retire. intros [Hne _]%andb_true_iff. apply negb_true_iff, Z.eqb_neq in Hne. split; [done|].
    destruct (decide (lv = IMR_LSM_MAX_LEVEL)); [specialize (Heq ltac:(done)); lia|lia]. }
  split; unfold moved; cbn [pl_source_level pl_destination_level pl_retire_source pl_source_head pl_source_tail pl_source_after
    pl_source_unsorted_count pl_source_sorted_head pl_source_sorted_count pl_destination_sorted_head pl_destination_sorted_count pl_epoch pl_bdev];
    try done.
  - cbn [app]. by rewrite take_drop.
  - by rewrite take_drop.
  - by destruct (run_tail _).
  - rewrite lenZ_take by lia. unfold count. lia.
  - by destruct retire.
  - unfold n. by destruct retire.
  - intros [E1 E2]%app_eq_nil. apply (f_equal lenZ) in E1, E2. rewrite lenZ_take, lenZ_nil in E1 by lia.
    assert (n = 0) by (unfold n; destruct retire; [exact E2|done]). unfold count in *. lia.
  - by rewrite (sl_ready _ _ Hsl).
Qed.

(** ** Build *)

Definition heap_le (h h' : heap) : Prop := hp_next h <= hp_next h'.
Lemma kzalloc_le h : heap_le h (kzalloc h).1.
Proof. unfold heap_le, kzalloc. destruct (hp_script h) as [|[] ?]; cbn; lia. Qed.
Lemma heap_le_refl h : heap_le h h.
Proof. unfold heap_le. lia. Qed.
Lemma heap_le_trans h1 h2 h3 : heap_le h1 h2 -> heap_le h2 h3 -> heap_le h1 h3.
Proof. unfold heap_le. lia. Qed.

Lemma reserve_le threshold b h : heap_le h (imr_lsm_segment_builder_reserve_block_table threshold b h).1.
Proof.
  pose proof (kzalloc_le h). pose proof (heap_le_refl h). unfold imr_lsm_segment_builder_reserve_block_table.
  destruct (_ <? _); [done|]. cbv zeta. destruct (negb _); [destruct (_ >? _); [done|]|]; (destruct (_ >? _); [done|]);
    by destruct (kzalloc h) as [? [|]].
Qed.
Lemma builder_add_le threshold b n h : heap_le h (imr_lsm_segment_builder_add_node threshold b n h).1.
Proof.
  pose proof (reserve_le threshold b h) as Hr. pose proof (heap_le_refl h).
  unfold imr_lsm_segment_builder_add_node, imr_lsm_segment_builder_add, imr_lsm_segment_builder_add_block_entry. cbv zeta.
  destruct (imr_lsm_segment_builder_reserve_block_table threshold b h) as [h' [b'|e]];
    (destruct (_ !! _) as [x|]; [destruct (be_key x =? n_key n)|]); done.
Qed.
Lemma build_run_le threshold count : forall l b h, heap_le h (build_run threshold count l b h).1.1.
Proof.
  induction count as [|count IH]; intros l b h; [apply heap_le_refl|]. destruct l as [|n l]; [apply heap_le_refl|]. cbn [build_run].
  pose proof (builder_add_le threshold b n h) as Ha. destruct (imr_lsm_segment_builder_add_node threshold b n h) as [h1 [b1|e]]; [|done].
  cbn in Ha. eapply heap_le_trans; [exact Ha|]. apply IH.
Qed.
Lemma prepared_nodes_le t : forall h, heap_le h (imr_lsm_build_prepared_sorted_nodes t h).1.
Proof.
  induction t as [|e t IH]; intros h; [apply heap_le_refl|]. cbn. pose proof (kzalloc_le h) as Hk. destruct (kzalloc h) as [h1 [a|]]; [|done].
  specialize (IH h1). destruct (imr_lsm_build_prepared_sorted_nodes t h1) as [h2 [l|x]]; by eapply heap_le_trans.
Qed.
Lemma prepare_segment_le lv track b bpk h : heap_le h (imr_lsm_prepare_segment lv track b bpk h).1.1.
Proof.
  unfold imr_lsm_prepare_segment. pose proof (heap_le_refl h). destruct (sb_node_count b =? 0); [done|].
  pose proof (kzalloc_le h) as Hk. destruct (kzalloc h) as [h1 [a|]]; [|done]. cbn in Hk.
  assert (forall ks, heap_le h1 (imr_lsm_segment_build_bloom ks bpk h1).1) as Hb.
  { intros ks. unfold imr_lsm_segment_build_bloom. cbv zeta. pose proof (kzalloc_le h1). pose proof (heap_le_refl h1).
    destruct (_ >? _); [done|]. by destruct (kzalloc h1) as [? [|]]. }
  specialize (Hb (map be_key (sb_table b))). destruct (imr_lsm_segment_build_bloom _ bpk h1) as [h2 [bl|e]]; by eapply heap_le_trans.
Qed.

Lemma from_ptr_self l : from_ptr (addr_of l) l = l.
Proof. destruct l as [|n l]; [done|]. cbn. by rewrite Z.eqb_refl. Qed.

(** The fields of a plan that the build does not change. *)
Record same_capture (p p' : level_plan) : Prop := {
  sc_plan : MkPlan empty_builder (pl_source_head p') (pl_source_tail p') (pl_source_after p') (pl_source_sorted_head p')
    (pl_destination_sorted_head p') [] None (pl_source_level p') (pl_destination_level p') (pl_source_unsorted_count p')
    (pl_source_sorted_count p') (pl_destination_sorted_count p') 0 0 0 (pl_epoch p') (pl_bdev p') (pl_retire_source p') =
    MkPlan empty_builder (pl_source_head p) (pl_source_tail p) (pl_source_after p) (pl_source_sorted_head p)
    (pl_destination_sorted_head p) [] None (pl_source_level p) (pl_destination_level p) (pl_source_unsorted_count p)
    (pl_source_sorted_count p) (pl_destination_sorted_count p) 0 0 0 (pl_epoch p) (pl_bdev p) (pl_retire_source p);
}.

Lemma captured_plan p p' s pre run post : same_capture p p' -> captured p s pre run post -> captured p' s pre run post.
Proof.
  intros [E] C. injection E as E1 E2 E3 E4 E5 E6 E7 E8 E9 E10 E11 E12 E13. destruct C.
  split; unfold moved in *; rewrite ?E1, ?E2, ?E3, ?E4, ?E5, ?E6, ?E7, ?E8, ?E9, ?E10, ?E11, ?E12, ?E13; done.
Qed.

Definition built (p : level_plan) (inputs : list lsm_node) : Prop :=
  exists g, pl_output p = Some g /\ output_ok inputs (pl_prepared p) g (pl_destination_level p).

Lemma build_spec H p s pre run post :
  lsm_inv H s -> captured p s pre run post -> pl_builder p = empty_builder -> 1 <= imr_lsm_compaction_threshold_locked s <= U32_MAX ->
  exists h r, imr_lsm_build_level_compaction_plan p s = (set_hp h s, r) /\ heap_le (hp s) h /\
    (r = Fail (- ENOMEM) \/ exists p', r = Ok p' /\ same_capture p p' /\ built p' (run ++ moved p s)).
Proof.
  intros Hi C Hb Ht. unfold imr_lsm_build_level_compaction_plan. cbv zeta.
  pose proof (level_weight H s _ Hi (cp_src _ _ _ _ _ C)) as Hw.
  destruct (inv_addr _ _ Hi (src_level p s)) as [Hnd _]; [eapply nthZ_In; eapply level_In; [done|apply C]|].
  rewrite (cp_split _ _ _ _ _ C) in *. rewrite (cp_head _ _ _ _ _ C), (from_ptr_split _ _ Hnd), Hb, (cp_count _ _ _ _ _ C).
  rewrite !lenZ_app in Hw. pose proof (lenZ_nonneg pre). pose proof (lenZ_nonneg post). pose proof (lenZ_nonneg run).
  assert (0 <= lenZ (moved p s) <= lenZ (sorted_head (src_level p s))) as Hm
    by (unfold moved, lenZ; destruct (pl_retire_source p); cbn [length]; lia).
  assert (Z.to_nat (lenZ run) = length run) as -> by (unfold lenZ; lia).
  set (th := imr_lsm_compaction_threshold_locked s) in *.
  pose proof (build_run_le th (length run) (run ++ post) empty_builder (hp s)) as Hle1.
  pose proof (build_run_spec th (length run) (run ++ post) empty_builder (hp s) Ht empty_builder_ok) as Hr1. cbn [sb_node_count empty_builder] in Hr1.
  specialize (Hr1 ltac:(unfold lenZ in *; lia) ltac:(rewrite length_app; lia)).
  destruct (build_run th (length run) (run ++ post) empty_builder (hp s)) as [[h1 b1] r1]. cbn [fst] in Hle1.
  destruct Hr1 as [->|(-> & Hb1 & Hn1 & Hall1 & _ & Hfrom1)]; [eexists _, _; split_and!; [reflexivity|done|by left]|].
  rewrite drop_app_length, (cp_after _ _ _ _ _ C), bool_decide_true by done. cbn [negb]. rewrite take_app_length in *.
  assert (from_ptr (pl_source_sorted_head p) (sorted_head (src_level p s)) = if pl_retire_source p then sorted_head (src_level p s) else []) as Hfp.
  { rewrite (cp_sorted _ _ _ _ _ C). unfold moved. destruct (pl_retire_source p); [apply from_ptr_self|done]. }
  fold (moved p s) in Hfp. rewrite Hfp, (cp_sorted_count _ _ _ _ _ C).
  assert (Z.to_nat (lenZ (moved p s)) = length (moved p s)) as -> by (unfold lenZ; lia).
  pose proof (build_run_le th (length (moved p s)) (moved p s) b1 h1) as Hle2.
  pose proof (build_run_spec th (length (moved p s)) (moved p s) b1 h1 Ht Hb1 ltac:(unfold lenZ in *; lia) ltac:(lia)) as Hr2.
  destruct (build_run th (length (moved p s)) (moved p s) b1 h1) as [[h2 b2] r2]. cbn [fst] in Hle2. pose proof (heap_le_trans _ _ _ Hle1 Hle2) as Hle.
  destruct Hr2 as [->|(-> & Hb2 & Hn2 & Hall2 & Hkeep & Hfrom2)]; [eexists _, _; split_and!; [reflexivity|done|by left]|].
  rewrite drop_all, take_ge in * by lia.
  assert (forall n, n ∈ run ++ moved p s -> tbl_has (sb_table b2) (n_key n) (n_timestamp n)) as Hall.
  { intros n [Hn|Hn]%elem_of_app; [by apply Hkeep, Hall1|by apply Hall2]. }
  assert (forall e, e ∈ sb_table b2 -> node_of (run ++ moved p s) (be_key e) (entry_rec e)) as Hfrom.
  { intros e He. destruct (Hfrom2 e He) as [He1|(n & Hn & ?)]; [|exists n; split; [apply elem_of_app; by right|done]].
    destruct (Hfrom1 e He1) as [He0|(n & Hn & ?)]; [by apply elem_of_nil in He0|]. exists n. split; [apply elem_of_app; by left|done]. }
  assert (sb_table b2 <> []) as Hne.
  { pose proof (cp_some _ _ _ _ _ C) as Hs. destruct (run ++ moved p s) as [|n l]; [done|].
    destruct (Hall n) as (e & He & _); [by left|]. intros E. rewrite E in He. by apply elem_of_nil in He. }
  pose proof (prepared_nodes_le (sb_table b2) h2) as Hle3. pose proof (prepared_nodes_spec (sb_table b2) h2) as Hp.
  destruct (imr_lsm_build_prepared_sorted_nodes (sb_table b2) h2) as [h3 r3]. pose proof (heap_le_trans _ _ _ Hle Hle3) as Hle'.
  destruct Hp as [->|(ps & -> & Hps)]; [eexists _, _; split_and!; [reflexivity|done|by left]|].
  pose proof (prepare_segment_le (pl_destination_level p) IMR_LSM_TRACK_BOTTOM b2 (pl_bloom_bits_per_key p) h3) as Hle4.
  pose proof (prepare_segment_spec (pl_destination_level p) IMR_LSM_TRACK_BOTTOM b2 (pl_bloom_bits_per_key p) h3 Hb2 Hne (cp_dst _ _ _ _ _ C)) as Hg.
  destruct (imr_lsm_prepare_segment _ _ b2 _ h3) as [[h4 b4] r4]. pose proof (heap_le_trans _ _ _ Hle' Hle4) as Hle''.
  destruct Hg as [->|(g & -> & Hok & Htab & Hlv & Hact)]; [eexists _, _; split_and!; [reflexivity|done|by left]|].
  eexists _, _. split_and!; [reflexivity|done|]. right. eexists. split; [reflexivity|]. split.
  { constructor. cbn. by rewrite (cp_head _ _ _ _ _ C), (cp_after _ _ _ _ _ C), (cp_count _ _ _ _ _ C), (cp_sorted_count _ _ _ _ _ C). }
  exists g. split; [done|].
  split; try done; rewrite Htab; try done. cbn. pose proof (sbo_len _ Hb2). rewrite lenZ_app. unfold lenZ in *. cbn in *. lia.
Qed.

(** ** Publish *)

Lemma updZ_updZ {A} (l : list A) i x y : updZ (updZ l i x) i y = updZ l i y.
Proof. unfold updZ. case_match; [|done]. apply list_insert_insert_eq. Qed.
Lemma updZ_id {A} (l : list A) i x : nthZ l i = Some x -> updZ l i x = l.
Proof. unfold updZ, nthZ. case_match; [|done]. apply list_insert_id. Qed.

Lemma validate_spec H p s pre run post :
  lsm_inv H s -> captured p s pre run post -> is_Some (pl_output p) ->
  imr_lsm_validate_level_compaction_plan_locked p s = Some (length pre).
Proof.
  intros Hi C [g Hg]. unfold imr_lsm_validate_level_compaction_plan_locked. cbv zeta.
  destruct (inv_addr _ _ Hi (src_level p s)) as [Hnd _]; [eapply nthZ_In; eapply level_In; [done|apply C]|].
  destruct (level_counts H s _ Hi (cp_src _ _ _ _ _ C)) as [Hu Hs]. destruct (level_counts H s _ Hi (cp_dst _ _ _ _ _ C)) as [_ Hd].
  rewrite Hg, (cp_ready _ _ _ _ _ C), (inv_init _ _ Hi), (cp_epoch _ _ _ _ _ C), (cp_bdev _ _ _ _ _ C), Z.eqb_refl, bool_decide_true by done.
  cbn [negb orb]. rewrite Hd, (cp_dst_head _ _ _ _ _ C), (cp_dst_count _ _ _ _ _ C), Z.eqb_refl, bool_decide_true by done. cbn [negb orb].
  rewrite Hs, (cp_sorted _ _ _ _ _ C), (cp_sorted_count _ _ _ _ _ C). unfold moved.
  assert (pl_retire_source p && (negb (bool_decide (addr_of (sorted_head (src_level p s)) =
    addr_of (if pl_retire_source p then sorted_head (src_level p s) else []))) ||
    negb (lenZ (sorted_head (src_level p s)) =? lenZ (if pl_retire_source p then sorted_head (src_level p s) else []))) = false) as ->.
  { destruct (pl_retire_source p); [|done]. by rewrite bool_decide_true, Z.eqb_refl. }
  rewrite Hu, (cp_count _ _ _ _ _ C), (cp_head _ _ _ _ _ C), (cp_split _ _ _ _ _ C), (cp_tail _ _ _ _ _ C), (cp_after _ _ _ _ _ C).
  rewrite (cp_split _ _ _ _ _ C) in Hnd. rewrite (find_link_split _ _ Hnd), drop_app_length, !lenZ_app.
  pose proof (lenZ_nonneg pre). pose proof (lenZ_nonneg post). assert ((lenZ pre + (lenZ run + lenZ post) <? lenZ run) = false) as -> by lia.
  assert (negb (lenZ run =? 0) && match run ++ post with [] => true | _ => false end = false) as ->.
  { destruct run as [|n run]; [done|]. by rewrite andb_false_r. }
  assert (Z.to_nat (lenZ run) = length run) as -> by (unfold lenZ; lia). by rewrite check_run_spec.
Qed.

(** The levels after the publication. *)
Definition published_levels (p : level_plan) (rest : list lsm_node) (s : kstate) : list level_state :=
  let lv1 := updZ (levels (meta s)) (pl_source_level p) (cut rest (pl_retire_source p) (src_level p s)) in
  updZ lv1 (pl_destination_level p)
    (glue (pl_prepared p) (match nthZ lv1 (pl_destination_level p) with Some l => l | None => empty_level end)).

Lemma cut_levels H p s pre run post :
  lsm_inv H s -> captured p s pre run post ->
  let s1 := if negb (pl_source_unsorted_count p =? 0) then
      upd_level (pl_source_level p) (fun l =>
        set_unsorted_count (u32 (unsorted_count l - pl_source_unsorted_count p))
          (set_unsorted_head (take (length pre) (unsorted_head l) ++
            drop (length pre + Z.to_nat (pl_source_unsorted_count p)) (unsorted_head l)) l)) s
    else s in
  (if pl_retire_source p then upd_level (pl_source_level p) (fun l => set_sorted_count 0 (set_sorted_head [] l)) s1 else s1) =
  upd_meta (set_levels (updZ (levels (meta s)) (pl_source_level p) (cut (pre ++ post) (pl_retire_source p) (src_level p s)))) s.
Proof.
  intros Hi C. pose proof (level_In H s _ Hi (cp_src _ _ _ _ _ C)) as Hl. destruct (level_counts H s _ Hi (cp_src _ _ _ _ _ C)) as [Hu Hs].
  pose proof (level_weight H s _ Hi (cp_src _ _ _ _ _ C)) as Hw. pose proof (nthZ_Some _ _ _ Hl) as Hr.
  rewrite (cp_split _ _ _ _ _ C), !lenZ_app in Hw. pose proof (lenZ_nonneg pre). pose proof (lenZ_nonneg post).
  pose proof (lenZ_nonneg run). pose proof (lenZ_nonneg (sorted_head (src_level p s))).
  rewrite (cp_count _ _ _ _ _ C). intros s1.
  assert (s1 = upd_meta (set_levels (updZ (levels (meta s)) (pl_source_level p) (cut (pre ++ post) false (src_level p s)))) s) as ->.
  { unfold s1. destruct (lenZ run =? 0) eqn:E0; cbn [negb].
    - rewrite updZ_id; [by destruct s as [[] ]|]. rewrite Hl. f_equal. assert (run = []) as Hrun by (apply lenZ_0; lia).
      pose proof (cp_split _ _ _ _ _ C) as Hsp. rewrite Hrun in Hsp. cbn in Hsp. unfold cut. rewrite <- Hsp, <- Hu.
      by destruct (src_level p s).
    - unfold upd_level, upd_meta. do 3 f_equal. rewrite Hu, (cp_split _ _ _ _ _ C). unfold cut, set_unsorted_count, set_unsorted_head. cbn.
      rewrite take_app_length. rewrite !lenZ_app. rewrite u32_small by lia.
      replace (length pre + Z.to_nat (lenZ run))%nat with (length (pre ++ run)) by (rewrite length_app; unfold lenZ; lia).
      rewrite (app_assoc pre run post), drop_app_length. f_equal. lia. }
  destruct (pl_retire_source p); [|done]. unfold upd_level, upd_meta at 1, level. cbn. rewrite nthZ_updZ_eq by done.
  by rewrite updZ_updZ.
Qed.

Lemma merged_levels p rest s :
  imr_lsm_merge_prepared_sorted_locked p
    (upd_meta (set_levels (updZ (levels (meta s)) (pl_source_level p) (cut rest (pl_retire_source p) (src_level p s)))) s) =
  upd_meta (set_levels (published_levels p rest s)) s.
Proof. reflexivity. Qed.

Lemma seg_ok_id g id : seg_ok g -> seg_ok (set_sg_id id g).
Proof. destruct g. intros []. by split. Qed.

Lemma output_core inputs ps g dst id : output_ok inputs ps g dst -> output_ok inputs ps (set_sg_id id (seg_core g)) dst.
Proof.
  intros [Hs Hl Ha Hall Hfrom Hn Hlen].
  assert (forall e, e ∈ map entry_core (sg_table g) -> exists e0, e0 ∈ sg_table g /\ be_key e = be_key e0 /\ entry_rec e = entry_rec e0) as Hc.
  { intros e (e0 & -> & He0)%list_elem_of_fmap. by exists e0. }
  split.
  - by apply seg_ok_id, seg_ok_core.
  - exact Hl.
  - exact Ha.
  - intros n Hn'. destruct (Hall n Hn') as (e & He & Hk & Hts). exists (entry_core e).
    split_and!; [apply list_elem_of_fmap; by exists e|done|done].
  - intros e (e0 & He0 & -> & ->)%Hc. by apply Hfrom.
  - change (sg_table (set_sg_id id (seg_core g))) with (map entry_core (sg_table g)). rewrite map_map. exact Hn.
  - change (sg_table (set_sg_id id (seg_core g))) with (map entry_core (sg_table g)). unfold lenZ in *. by rewrite length_map.
Qed.

(** The levels and segments of the published state satisfy the invariant. *)
Lemma published_ok H p s pre run post g id :
  lsm_inv H s -> captured p s pre run post -> output_ok (run ++ moved p s) (pl_prepared p) g (pl_destination_level p) ->
  lsm_ok H (published_levels p (pre ++ post) s)
    (map (retire_if (pl_retire_source p) (pl_source_level p)) (gcore s ++ [set_sg_id id (seg_core g)])) (timestamp (meta s)).
Proof.
  intros Hi C Ho. pose proof (level_In H s _ Hi (cp_src _ _ _ _ _ C)) as Hls. pose proof (level_In H s _ Hi (cp_dst _ _ _ _ _ C)) as Hld.
  pose proof (level_weight H s _ Hi (cp_src _ _ _ _ _ C)) as Hw. pose proof (level_weight H s _ Hi (cp_dst _ _ _ _ _ C)) as Hwd.
  destruct (level_counts H s _ Hi (cp_dst _ _ _ _ _ C)) as [_ Hcd]. pose proof (nthZ_Some _ _ _ Hls) as Hr. pose proof (nthZ_Some _ _ _ Hld) as Hrd.
  unfold published_levels. cbv zeta. set (lv1 := updZ _ (pl_source_level p) _).
  destruct (nthZ_is_Some lv1 (pl_destination_level p)) as [ld1 Hld1]; [by unfold lv1; rewrite lenZ_updZ|]. rewrite Hld1.
  assert (sorted_head ld1 = sorted_head (dst_level p s) /\ sorted_count ld1 = sorted_count (dst_level p s)) as [Hso Hsc].
  { unfold lv1 in Hld1. destruct (decide (pl_source_level p = pl_destination_level p)) as [Heq|Hne].
    - rewrite <- Heq in Hld1 |- *. rewrite nthZ_updZ_eq in Hld1 by done. injection Hld1 as <-. cbn.
      destruct (pl_retire_source p) eqn:Er; [|done]. by destruct (cp_retire _ _ _ _ _ C Er).
    - rewrite nthZ_updZ_ne, Hld in Hld1 by done. by injection Hld1 as <-. }
  assert (lenZ (sorted_head ld1) + lenZ (pl_prepared p) < 2 ^ 32) as Hb.
  { assert (lenZ (pl_prepared p) <= lenZ run + lenZ (moved p s)) as Hp.
    { pose proof (oo_len _ _ _ _ Ho) as Hlen. rewrite lenZ_app in Hlen. pose proof (f_equal lenZ (oo_nodes _ _ _ _ Ho)) as En.
      unfold lenZ in *. rewrite !length_map in En. lia. }
    pose proof (ok_total _ _ _ _ (inv_ok _ _ Hi)) as Ht. destruct (decide (pl_source_level p = pl_destination_level p)) as [Heq|Hne].
    - rewrite <- Heq, Hso in *. unfold moved in Hp. destruct (pl_retire_source p) eqn:Er; [by destruct (cp_retire _ _ _ _ _ C Er)|].
      rewrite lenZ_nil in Hp. rewrite (cp_split _ _ _ _ _ C), !lenZ_app in Hw. pose proof (lenZ_nonneg pre). pose proof (lenZ_nonneg post).
      lia.
    - pose proof (total_updZ (levels (meta s)) (pl_source_level p) _ empty_level Hls) as E1.
      pose proof (weight_total (updZ (levels (meta s)) (pl_source_level p) empty_level) (dst_level p s)) as E2.
      assert (dst_level p s ∈ updZ (levels (meta s)) (pl_source_level p) empty_level) as Hin
        by (eapply nthZ_In; rewrite nthZ_updZ_ne by done; exact Hld).
      specialize (E2 Hin). rewrite E1 in E2. unfold weight in E2. cbn in E2. rewrite (cp_split _ _ _ _ _ C), !lenZ_app, Hso in *.
      assert (lenZ (moved p s) <= lenZ (sorted_head (src_level p s))) by (unfold moved, lenZ; destruct (pl_retire_source p); cbn; lia).
      pose proof (lenZ_nonneg pre). pose proof (lenZ_nonneg post). pose proof (lenZ_nonneg (unsorted_head (dst_level p s))).
      change (lenZ (@nil lsm_node)) with 0 in *. lia. }
  destruct (glue_spec (pl_prepared p) ld1 Hb) as (r & c & Hm & ->); [by rewrite Hsc, Hcd, Hso|].
  unfold lv1 in *. eapply (lsm_ok_compacted H _ _ _ _ _ (src_level p s) (dst_level p s) pre run post (pl_prepared p) r c);
    [apply Hi|done|done|apply C|exact (cp_retire _ _ _ _ _ C)|by apply output_core|by rewrite <- Hso|done].
Qed.

Lemma published_addr H p s pre run post :
  lsm_inv H s -> captured p s pre run post -> addr_ok (published_levels p (pre ++ post) s) (hp_next (hp s)).
Proof.
  intros Hi C. pose proof (level_In H s _ Hi (cp_src _ _ _ _ _ C)) as Hls. pose proof (inv_addr _ _ Hi) as Ha.
  assert (forall l, unsorted_head (glue (pl_prepared p) l) = unsorted_head l) as Hg.
  { intros l. unfold glue. by destruct (merge_sorted _ _). }
  set (lv1 := updZ (levels (meta s)) (pl_source_level p) (cut (pre ++ post) (pl_retire_source p) (src_level p s))).
  assert (addr_ok lv1 (hp_next (hp s))) as Ha1.
  { intros l [->|Hl]%elem_of_updZ; [|by apply Ha]. cbn. destruct (Ha _ (nthZ_In _ _ _ Hls)) as [Hnd Hlt].
    rewrite (cp_split _ _ _ _ _ C) in Hnd, Hlt. split.
    - rewrite map_app in Hnd |- *. apply NoDup_app in Hnd as (N1 & N2 & N3). rewrite map_app in N2, N3.
      apply NoDup_app in N3 as (_ & _ & N3). apply NoDup_app. split_and!; [done| |done].
      intros x Hx Hp. apply (N2 x Hx). apply elem_of_app. by right.
    - intros n Hn. apply Hlt. rewrite !elem_of_app in *. naive_solver. }
  intros l [->|Hl]%elem_of_updZ; [|by apply Ha1]. rewrite Hg. fold lv1.
  destruct (nthZ lv1 (pl_destination_level p)) as [ld1|] eqn:E; [apply Ha1; by eapply nthZ_In|]. cbn. split; [constructor|by intros n ?%elem_of_nil].
Qed.

(** The publication succeeds, and the newest records are the same after it. *)
Lemma publish_spec H p s pre run post :
  lsm_inv H s -> captured p s pre run post -> built p (run ++ moved p s) ->
  let '(s', ret) := imr_lsm_publish_level_compaction_locked p s in
  ret = 0 /\ lsm_inv H s' /\ shell s' = shell (upd_meta (set_levels (published_levels p (pre ++ post) s)) s) /\
  exists g, sg_level g = pl_destination_level p /\
    gcore s' = map (retire_if (pl_retire_source p) (pl_source_level p)) (gcore s ++ [g]).
Proof.
  intros Hi C (g & Hg & Ho). unfold imr_lsm_publish_level_compaction_locked.
  rewrite (validate_spec H p s pre run post Hi C) by (by rewrite Hg). rewrite Hg. pose proof (cut_levels H p s pre run post Hi C) as E. cbv zeta in E |- *.
  rewrite E, merged_levels. clear E.
  pose proof (published_ok H p s pre run post g (next_segment_id (meta s)) Hi C Ho) as Hok. pose proof (published_addr H p s pre run post Hi C) as Ha.
  set (s2 := upd_meta (set_levels (published_levels p (pre ++ post) s)) s) in *.
  assert (reshapes s2 s2 (gcore s2)) as _ by (by apply keeps_rt_reshapes).
  pose proof (publish_segment_spec g s2) as R3. destruct (imr_lsm_publish_prepared_segment_locked g false s2) as [s3 i].
  pose proof (retire_level_spec (pl_retire_source p) (pl_source_level p) s3) as R4.
  set (s4 := if pl_retire_source p then _ else s3) in *. clearbody s4.
  pose proof (reshapes_trans _ _ _ _ _ R3 R4) as R. rewrite (rs_segs _ _ _ R3) in R. clear R3 R4.
  pose proof (keeps_account_new i s4) as K5. destruct (imr_lsm_account_new_segment_invalid_stats_locked i s4) as [s5 b]. cbn [fst] in K5.
  pose proof (reshapes_keeps _ _ _ _ R K5) as R5. clear R K5.
  set (s6 := if b then imr_lsm_update_segment_compaction_selection_locked (imr_lsm_refresh_max_obsolete_ratio_locked s5) else s5).
  assert (core s6 = core s5) as E6 by (unfold s6; destruct b; [by rewrite core_select, core_refresh_max|done]). clearbody s6.
  match goal with |- context [imr_lsm_calculate_dynamic_levels_locked ?x] => set (s7 := x) end.
  assert (core s7 = core s6) as E7 by reflexivity. clearbody s7.
  pose proof (reshapes_keeps _ _ _ _ R5 (core_keeps _ _ (eq_trans (core_calc s7) (eq_trans E7 E6)))) as R8. split; [done|].
  split; [|split; [apply R8|exists (set_sg_id (next_segment_id (meta s)) (seg_core g)); split; [exact (oo_level _ _ _ _ Ho)|apply R8]]].
  refine (reshapes_inv H _ _ _ R8 _ _ _ _ _).
  - exact Hok.
  - apply Hi.
  - exact Ha.
  - eapply same_rt_wf; [|apply (inv_rt_wf _ _ Hi)]. done.
  - apply Hi.
Qed.
