(* ===== verification/ImrSystem.v ===== *)
(** The LSM as a system: foreground writes, deletes and lookups interleaved with
    the phases of a level compaction, against the abstract map from keys to the
    answer a lookup must give. *)

From S2P Require Import Prelude StdMap ImrPrelude ImrGeometry ImrBloom ImrState ImrReadTree ImrLevels ImrSegment ImrPlacement ImrAccounting ImrCore ImrLsm ImrLsmInv ImrLsmOps ImrCompaction ImrBuild ImrPlan ImrPublish ImrPhases.

(** ** The system *)

(** Where the compaction worker is; the plan is its local variable. *)
Inductive phase :=
| Idle
| Prepared (p : level_plan)
| Built (p : level_plan).

(** The events. [Prepare], [Build] and [Publish] are the phases of
    [imr_lsm_execute_level_compaction]; the locks are free between them. *)
Inductive event :=
| Write (zone_idx lba pba : Z)
| Delete (key : Z)
| Lookup (key : Z)
| ClearReadTree (run : Z)
| SetReadTreeLimit (limit : Z)
| Prepare (automatic : bool) (requested_level : Z)
| Build
| Publish.

(** What an event returns: a lookup result or a return code. *)
Inductive outcome :=
| Answer (r : lookup_result)
| Return (ret : Z).

Inductive step : kstate * phase -> event -> outcome -> kstate * phase -> Prop :=
| step_write s ph zone_idx lba pba s' ret :
    imr_lsm_record_insert zone_idx lba pba s = (s', ret) -> step (s, ph) (Write zone_idx lba pba) (Return ret) (s', ph)
| step_delete s ph key s' ret :
    imr_lsm_delete_locked key s = (s', ret) -> step (s, ph) (Delete key) (Return ret) (s', ph)
| step_lookup s ph key s' r :
    imr_lsm_read key s = (s', r) -> step (s, ph) (Lookup key) (Answer r) (s', ph)
| step_clear s ph run s' ret :
    imr_lsm_debugfs_clear_read_tree_write run s = (s', ret) -> step (s, ph) (ClearReadTree run) (Return ret) (s', ph)
| step_limit s ph limit s' ret :
    0 <= limit -> imr_lsm_debugfs_read_tree_limit_write limit s = (s', ret) -> step (s, ph) (SetReadTreeLimit limit) (Return ret) (s', ph)
| step_prepare_fail s automatic lv s' e :
    0 <= lv -> compaction_prepare automatic lv s = (s', Fail e) -> step (s, Idle) (Prepare automatic lv) (Return e) (s', Idle)
| step_prepare_nothing s automatic lv s' :
    0 <= lv -> compaction_prepare automatic lv s = (s', Ok None) -> step (s, Idle) (Prepare automatic lv) (Return 0) (s', Idle)
| step_prepare s automatic lv s' p :
    0 <= lv -> compaction_prepare automatic lv s = (s', Ok (Some p)) -> step (s, Idle) (Prepare automatic lv) (Return 0) (s', Prepared p)
| step_build s p s' p' :
    imr_lsm_build_level_compaction_plan p s = (s', Ok p') -> step (s, Prepared p) Build (Return 0) (s', Built p')
| step_build_fail s p s' e :
    imr_lsm_build_level_compaction_plan p s = (s', Fail e) -> step (s, Prepared p) Build (Return e) (s', Idle)
| step_publish s p s' ret :
    imr_lsm_publish_level_compaction_locked p s = (s', ret) -> step (s, Built p) Publish (Return ret) (s', Idle).

Inductive steps : kstate * phase -> list (event * outcome) -> kstate * phase -> Prop :=
| steps_nil x : steps x [] x
| steps_cons x e o y tr z : step x e o y -> steps y tr z -> steps x ((e, o) :: tr) z.

(** ** The specification *)

Definition amap : Type := Z -> lookup_result.
Definition set_answer (A : amap) (k : Z) (r : lookup_result) : amap := fun k' => if decide (k' = k) then r else A k'.

(** A write or delete takes effect if it returns 0 and has none if it returns
    [-ENOMEM]; a lookup returns the answer of the last effective write; the phases
    of a compaction change nothing, and only the allocation of its build can fail. *)
Inductive allowed (A : amap) : event -> outcome -> amap -> Prop :=
| allow_write zone_idx lba pba :
    allowed A (Write zone_idx lba pba) (Return 0) (set_answer A (Z.shiftr lba IMR_BLOCK_SIZE_SHIFT) (LOOKUP_VALID pba))
| allow_write_fail zone_idx lba pba : allowed A (Write zone_idx lba pba) (Return (- ENOMEM)) A
| allow_delete key : allowed A (Delete key) (Return 0) (set_answer A key LOOKUP_DELETED)
| allow_delete_fail key : allowed A (Delete key) (Return (- ENOMEM)) A
| allow_lookup key : allowed A (Lookup key) (Answer (A key)) A
| allow_clear run ret : allowed A (ClearReadTree run) (Return ret) A
| allow_limit limit ret : allowed A (SetReadTreeLimit limit) (Return ret) A
| allow_prepare automatic lv ret : ret ∈ [0; - ENODEV; - EINVAL] -> allowed A (Prepare automatic lv) (Return ret) A
| allow_build ret : ret ∈ [0; - ENOMEM] -> allowed A Build (Return ret) A
| allow_publish : allowed A Publish (Return 0) A.

Inductive allowed_trace : amap -> list (event * outcome) -> amap -> Prop :=
| allowed_nil A : allowed_trace A [] A
| allowed_cons A e o A1 tr A2 : allowed A e o A1 -> allowed_trace A1 tr A2 -> allowed_trace A ((e, o) :: tr) A2.

(** ** The invariant *)

(** The plan of the worker fits the state. *)
Definition phase_ok (s : kstate) (ph : phase) : Prop :=
  match ph with
  | Idle => True
  | Prepared p => exists pre run post, captured p s pre run post /\ pl_builder p = empty_builder
  | Built p => exists pre run post, captured p s pre run post /\ built p (run ++ moved p s)
  end.

(** [H] is the newest record of each key, [A] the answers. *)
Record sys_inv (H : newest_map) (A : amap) (x : kstate * phase) : Prop := {
  si_inv : lsm_inv H x.1;
  si_answers : forall k, answer (H k) = A k;
  si_phase : phase_ok x.1 x.2;
  si_threshold : 1 <= imr_lsm_compaction_threshold_locked x.1 <= U32_MAX;
}.

(** ** Frames of the phase *)

Lemma moved_same p s s' : same_levels s s' -> moved p s' = moved p s.
Proof. intros Hs. unfold moved. by rewrite (same_levels_level _ _ _ Hs). Qed.

Lemma phase_same s s' ph : same_levels s s' -> phase_ok s ph -> phase_ok s' ph.
Proof.
  intros Hs. destruct ph as [|p|p]; [done| |]; intros (pre & run & post & C & Hb); exists pre, run, post; rewrite ?(moved_same _ _ _ Hs).
  - split; [by eapply captured_same|done].
  - split; [by eapply captured_same|done].
Qed.

Lemma phase_pushed lv n s ph : 0 <= lv < lenZ (levels (meta s)) -> phase_ok s ph -> phase_ok (pushed lv n s) ph.
Proof.
  intros Hlv. assert (forall p, moved p (pushed lv n s) = moved p s) as Hm.
  { intros p. unfold moved. rewrite (pushed_level lv n s _ Hlv). by destruct (decide (pl_source_level p = lv)) as [->|]. }
  destruct ph as [|p|p]; [done| |]; intros (pre & run & post & C & Hb);
    exists (if decide (pl_source_level p = lv) then n :: pre else pre), run, post; rewrite ?Hm;
    (split; [by apply captured_pushed|done]).
Qed.

Lemma threshold_cfg s s' : cfg s' = cfg s -> imr_lsm_compaction_threshold_locked s' = imr_lsm_compaction_threshold_locked s.
Proof. intros E. unfold imr_lsm_compaction_threshold_locked. by rewrite E. Qed.

Lemma sys_keeps H A s s' ph : keeps s s' -> lsm_inv H s' -> sys_inv H A (s, ph) -> sys_inv H A (s', ph).
Proof.
  intros Hk Hi [_ Ha Hp Ht]. pose proof (keeps_same_levels _ _ Hk) as Hs. split; cbn in *; [done|done|by eapply phase_same|].
  by rewrite (threshold_cfg _ _ (sl_cfg _ _ Hs)).
Qed.

(** A write or delete, whether it fails or takes effect. *)
Lemma sys_appends H A key pba valid s s' ph ret :
  appends H key pba valid s s' ret -> sys_inv H A (s, ph) ->
  (ret = - ENOMEM /\ sys_inv H A (s', ph) /\ timestamp (meta s') = timestamp (meta s)) \/
  (ret = 0 /\ timestamp (meta s') = timestamp (meta s) + 1 /\
   sys_inv (record H key (MkRec pba valid (timestamp (meta s) + 1)))
     (set_answer A key (if valid then LOOKUP_VALID pba else LOOKUP_DELETED)) (s', ph)).
Proof.
  intros [(-> & Hi & Hk)|(-> & Hi & n & Hn & Hr & _ & Hk)] Hs; [left|right].
  - split_and!; [done|by apply (sys_keeps H A s)|by apply keeps_timestamp].
  - destruct Hs as [Hi0 Ha Hp Ht]. cbn in Hi0, Hp, Ht. split; [done|].
    assert (n_timestamp n = timestamp (meta s) + 1) as Hnt by (injection Hr; done).
    split; [rewrite (keeps_timestamp _ _ Hk); exact Hnt|]. split; cbn; [done| | |].
    + intros k. unfold record, set_answer. destruct (decide (k = key)); [by destruct valid|apply Ha].
    + eapply phase_same; [by apply keeps_same_levels|]. apply phase_pushed; [|done].
      rewrite (ok_levels _ _ _ _ (inv_ok _ _ Hi0)). lia.
    + by rewrite (threshold_cfg (pushed 0 n s) s' (sl_cfg _ _ (keeps_same_levels _ _ Hk))).
Qed.

(** ** The phases *)

Lemma pick_range s : let '(s', l) := imr_lsm_pick_compaction_level_locked s in core s' = core s /\ 0 <= l <= IMR_LSM_LEVELS.
Proof.
  pose proof (core_pick s) as Hc. unfold imr_lsm_pick_compaction_level_locked in *. set (s' := imr_lsm_calculate_dynamic_levels_locked s) in *.
  destruct (pick_prefix s' 6) as (_ & _ & _ & H4). cbv zeta in *. change (map Z.of_nat (seq 0 6)) with [0; 1; 2; 3; 4; 5] in *.
  set (p := fold_left _ _ _) in *. split; [done|]. unfold IMR_LSM_SCORE_SCALE, IMR_LSM_LEVELS in *.
  destruct (pk_score p >=? 1000) eqn:E; [|lia]. destruct H4 as [|(i & Hi & Hl & _)]; lia.
Qed.

Lemma compaction_prepare_spec H automatic lv s :
  lsm_inv H s -> 0 <= lv -> 1 <= imr_lsm_compaction_threshold_locked s ->
  let '(s', r) := compaction_prepare automatic lv s in
  core s' = core s /\
  match r with
  | Fail e => e ∈ [- ENODEV; - EINVAL]
  | Ok None => True
  | Ok (Some p) => phase_ok s' (Prepared p)
  end.
Proof.
  intros Hi Hlv Ht. unfold compaction_prepare. destruct (imrsim_target_ready_locked s) eqn:Er; cbn [negb orb].
  2: { split; [done|by left]. }
  destruct (output_bdev s) as [bdev|] eqn:Eb. 2: { split; [done|by left]. }
  rewrite (inv_init _ _ Hi). cbn [negb andb]. cbv zeta. rewrite (ensure_initialized_id s (inv_init _ _ Hi)).
  assert (forall s1 l max, core s1 = core s -> 0 <= l <= IMR_LSM_MAX_LEVEL -> 1 <= max ->
    let '(s', r) := imr_lsm_prepare_level_compaction_locked l max s1 in
    core s' = core s /\ match r with Fail e => e ∈ [- ENODEV; - EINVAL] | Ok None => True | Ok (Some p) => phase_ok s' (Prepared p) end) as Hprep.
  { intros s1 l max Hc Hl Hm. pose proof (core_same_levels _ _ Hc) as Hs.
    pose proof (prepare_spec H l max s1 (inv_core H s s1 Hc Hi) Hl Hm) as Hp. rewrite (sl_ready _ _ Hs) in Hp. specialize (Hp Er).
    destruct (imr_lsm_prepare_level_compaction_locked l max s1) as [s2 r]. destruct Hp as [Hc2 Hr]. split; [congruence|].
    destruct Hr as [[-> _]|(p & run & post & -> & C & Hb & _)]; [done|]. exists [], run, post. done. }
  destruct automatic.
  - pose proof (core_calc s) as Hc. set (s1 := imr_lsm_calculate_dynamic_levels_locked s) in *. clearbody s1.
    destruct (_ && _); [apply Hprep; [done|unfold IMR_LSM_MAX_LEVEL; lia|unfold U32_MAX; lia]|].
    pose proof (pick_range s1) as Hp. destruct (imr_lsm_pick_compaction_level_locked s1) as [s2 l]. destruct Hp as [Hc2 Hl].
    assert (core s2 = core s) as Hc2' by congruence.
    destruct (l >=? IMR_LSM_LEVELS) eqn:El; [done|]. unfold IMR_LSM_LEVELS in *.
    apply Hprep; [done|unfold IMR_LSM_MAX_LEVEL; lia|].
    rewrite (threshold_cfg s s2) by (apply (sl_cfg s s2), core_same_levels, Hc2'). unfold U32_MAX. destruct (l =? 0); lia.
  - destruct (lv >=? IMR_LSM_LEVELS) eqn:El; [split; [done|right; by left]|]. unfold IMR_LSM_LEVELS in *.
    apply Hprep; [done|unfold IMR_LSM_MAX_LEVEL; lia|unfold U32_MAX; lia].
Qed.

(** ** Every step is allowed *)

Lemma shell_fields s s' lv : shell s' = shell (upd_meta (set_levels lv) s) -> timestamp (meta s') = timestamp (meta s) /\ cfg s' = cfg s.
Proof. intros E. split; [exact (f_equal (fun s => timestamp (meta s)) E)|exact (f_equal cfg E)]. Qed.

(** Lookups, the read tree controls and the phases of a compaction keep the newest records. *)
Lemma sys_background H A x e o y :
  match e with Write _ _ _ | Delete _ => False | _ => True end -> sys_inv H A x -> step x e o y ->
  allowed A e o A /\ sys_inv H A y /\ (keeps x.1 y.1 \/ exists lv, shell y.1 = shell (upd_meta (set_levels lv) x.1)).
Proof.
  intros He Hs Hst. pose proof (si_inv _ _ _ Hs) as Hi. pose proof (si_threshold _ _ _ Hs) as Hth.
  assert (forall s s' ph, core s' = core s -> sys_inv H A (s, ph) -> sys_inv H A (s', ph) /\ keeps s s') as Hcore.
  { intros s s' ph Hc Hsi. pose proof (keeps_rt_keeps _ _ (core_keeps _ _ Hc)) as Hk. split; [|done].
    apply (sys_keeps H A s); [done|by apply (inv_core H s), Hsi|done]. }
  destruct Hst as [s ph z lba pba s' ret E|s ph key s' ret E|s ph key s' r E|s ph run s' ret E|s ph limit s' ret Hl E|
    s au lv s' err Hlv E|s au lv s' Hlv E|s au lv s' p Hlv E|s p s' p' E|s p s' err E|s p s' ret E]; cbn [fst snd] in *; try done.
  - pose proof (read_spec H key s Hi) as Hr. rewrite E in Hr. destruct Hr as (-> & Hi' & Hk). rewrite (si_answers _ _ _ Hs).
    split; [constructor|]. split; [by apply (sys_keeps H A s)|by left].
  - destruct (clear_read_tree_spec H run s Hi) as [Hi' Hk]. rewrite E in Hi', Hk. split; [constructor|]. split; [by apply (sys_keeps H A s)|by left].
  - destruct (read_tree_limit_spec H limit s Hi Hl) as [Hi' Hk]. rewrite E in Hi', Hk. split; [constructor|]. split; [by apply (sys_keeps H A s)|by left].
  - pose proof (compaction_prepare_spec H au lv s Hi Hlv (proj1 Hth)) as Hp. rewrite E in Hp. destruct Hp as [Hc He'].
    destruct (Hcore s s' Idle Hc Hs). split; [constructor; by right|]. split; [done|by left].
  - pose proof (compaction_prepare_spec H au lv s Hi Hlv (proj1 Hth)) as Hp. rewrite E in Hp. destruct Hp as [Hc _].
    destruct (Hcore s s' Idle Hc Hs). split; [constructor; by left|]. split; [done|by left].
  - pose proof (compaction_prepare_spec H au lv s Hi Hlv (proj1 Hth)) as Hp. rewrite E in Hp. destruct Hp as [Hc Hp].
    destruct (Hcore s s' Idle Hc Hs) as [[I1 I2 _ I4] Hk]. split; [constructor; by left|]. split; [by split|by left].
  - destruct (si_phase _ _ _ Hs) as (pre & run & post & C & Hb). cbn in C.
    destruct (build_spec H p s pre run post Hi C Hb Hth) as (h & r & E' & Hle & Hr). rewrite E in E'. injection E' as -> <-.
    destruct Hr as [|(p1 & [= <-] & Hsc & Hbt)]; [done|]. pose proof (keeps_set_hp h s Hle) as Hk.
    split; [constructor; by left|]. split; [|by left]. split; cbn; [by apply (inv_keeps_rt H s)|apply Hs| |done].
    exists pre, run, post. split; [eapply captured_same; [by apply keeps_same_levels|by apply (captured_plan p)]|].
    unfold moved in *. assert (pl_retire_source p' = pl_retire_source p /\ pl_source_level p' = pl_source_level p) as [-> ->]
      by (destruct Hsc as [Esc]; injection Esc; done). exact Hbt.
  - destruct (si_phase _ _ _ Hs) as (pre & run & post & C & Hb). cbn in C.
    destruct (build_spec H p s pre run post Hi C Hb Hth) as (h & r & E' & Hle & Hr). rewrite E in E'. injection E' as -> <-.
    destruct Hr as [[= ->]|(p1 & ? & _)]; [|done]. split; [constructor; right; by left|]. split; [|left; by apply keeps_set_hp].
    split; cbn; [by apply (inv_keeps_rt H s)|apply Hs|done|done].
  - destruct (si_phase _ _ _ Hs) as (pre & run & post & C & Hb). cbn in C.
    pose proof (publish_spec H p s pre run post Hi C Hb) as Hp. rewrite E in Hp. destruct Hp as (-> & Hi' & Hsh & _).
    destruct (shell_fields _ _ _ Hsh) as [_ Hc]. split; [constructor|]. split; [|right; by eexists].
    split; cbn; [done|apply Hs|done|]. by rewrite (threshold_cfg s s').
Qed.

Lemma sys_step H A x e o y :
  sys_inv H A x -> timestamp (meta x.1) + 1 < 2 ^ 32 -> step x e o y ->
  exists H' A', allowed A e o A' /\ sys_inv H' A' y /\ timestamp (meta y.1) <= timestamp (meta x.1) + 1.
Proof.
  intros Hs Hts Hst.
  assert (match e with Write _ _ _ | Delete _ => False | _ => True end ->
    exists H' A', allowed A e o A' /\ sys_inv H' A' y /\ timestamp (meta y.1) <= timestamp (meta x.1) + 1) as Hback.
  { intros He. destruct (sys_background H A x e o y He Hs Hst) as (Ha & Hs' & Hk). exists H, A. split_and!; [done|done|].
    destruct Hk as [Hk|[lv [Hk _]%shell_fields]]; [rewrite (keeps_timestamp _ _ Hk)|rewrite Hk]; lia. }
  pose proof (si_inv _ _ _ Hs) as Hi. destruct Hst as [s ph z lba pba s' ret E|s ph key s' ret E| | | | | | | | |]; try by apply Hback.
  - pose proof (record_insert_spec H z lba pba s Hi Hts) as Ha. rewrite E in Ha.
    destruct (sys_appends _ _ _ _ _ _ _ _ _ Ha Hs) as [(-> & Hs' & Et)|(-> & Et & Hs')]; eexists _, _; (split; [constructor|split; [exact Hs'|cbn; lia]]).
  - pose proof (delete_spec H key s Hi Hts) as Ha. rewrite E in Ha.
    destruct (sys_appends _ _ _ _ _ _ _ _ _ Ha Hs) as [(-> & Hs' & Et)|(-> & Et & Hs')]; eexists _, _; (split; [constructor|split; [exact Hs'|cbn; lia]]).
Qed.

Lemma sys_steps x tr y : steps x tr y -> forall H A,
  sys_inv H A x -> timestamp (meta x.1) + lenZ tr < 2 ^ 32 -> exists H' A', allowed_trace A tr A' /\ sys_inv H' A' y.
Proof.
  induction 1 as [x|x e o y tr z Hst _ IH]; intros H A Hs Ht; [exists H, A; split; [constructor|done]|].
  rewrite lenZ_cons in Ht. pose proof (lenZ_nonneg tr). destruct (sys_step H A x e o y Hs ltac:(lia) Hst) as (H1 & A1 & Ha & Hs1 & Ht1).
  destruct (IH H1 A1 Hs1 ltac:(lia)) as (H2 & A2 & Ha2 & Hs2). exists H2, A2. split; [by econstructor|done].
Qed.

Lemma initial_inv s : 1 <= imr_lsm_compaction_threshold_locked s <= U32_MAX ->
  sys_inv (fun _ => None) (fun _ => LOOKUP_MISS) (imr_lsm_initialize_metadata_locked s, Idle).
Proof.
  intros Ht. split; cbn [fst snd]; [apply initialize_spec|done|done|].
  rewrite (threshold_cfg s); [done|]. unfold imr_lsm_initialize_metadata_locked. cbv zeta.
  match goal with |- cfg (fold_left _ _ ?x) = _ => pose proof (fold_st_set_core none_stats U32_MAX x) as E end.
  etransitivity; [exact (f_equal cfg E)|]. unfold imr_lsm_release_metadata_locked. by destruct (imr_lsm_clear_read_tree_locked s).
Qed.

(** ** Running the system *)

Definition exec (e : event) (x : kstate * phase) : option (outcome * (kstate * phase)) :=
  let '(s, ph) := x in
  match e, ph with
  | Write z lba pba, _ => let '(s', ret) := imr_lsm_record_insert z lba pba s in Some (Return ret, (s', ph))
  | Delete key, _ => let '(s', ret) := imr_lsm_delete_locked key s in Some (Return ret, (s', ph))
  | Lookup key, _ => let '(s', r) := imr_lsm_read key s in Some (Answer r, (s', ph))
  | ClearReadTree run, _ => let '(s', ret) := imr_lsm_debugfs_clear_read_tree_write run s in Some (Return ret, (s', ph))
  | SetReadTreeLimit limit, _ =>
      if 0 <=? limit then let '(s', ret) := imr_lsm_debugfs_read_tree_limit_write limit s in Some (Return ret, (s', ph)) else None
  | Prepare automatic lv, Idle =>
      if 0 <=? lv then
        match compaction_prepare automatic lv s with
        | (s', Fail e) => Some (Return e, (s', Idle))
        | (s', Ok None) => Some (Return 0, (s', Idle))
        | (s', Ok (Some p)) => Some (Return 0, (s', Prepared p))
        end
      else None
  | Build, Prepared p =>
      match imr_lsm_build_level_compaction_plan p s with
      | (s', Ok p') => Some (Return 0, (s', Built p'))
      | (s', Fail e) => Some (Return e, (s', Idle))
      end
  | Publish, Built p => let '(s', ret) := imr_lsm_publish_level_compaction_locked p s in Some (Return ret, (s', Idle))
  | _, _ => None
  end.

Lemma exec_step e x o y : exec e x = Some (o, y) <-> step x e o y.
Proof.
  split.
  - destruct x as [s ph]. unfold exec. destruct e, ph; cbv beta iota; try discriminate;
      repeat match goal with
      | |- context [let '(_, _) := ?t in _] => let E := fresh "E" in destruct t as [? ?] eqn:E
      | |- context [if ?b then _ else _] => let E := fresh "E" in destruct b eqn:E
      | |- context [match ?t with Ok _ => _ | Fail _ => _ end] => is_var t; destruct t
      | |- context [match ?t with Some _ => _ | None => _ end] => is_var t; destruct t
      end; intros [= <- <-]; econstructor; first [eassumption|lia].
  - destruct 1; unfold exec;
      repeat match goal with
      | E : ?f = (_, _) |- _ => rewrite E; clear E
      | E : 0 <= ?v |- _ => rewrite (proj2 (Z.leb_le 0 v) E); clear E
      end; reflexivity.
Qed.

(** Runs the events in order; stops at one that is not enabled. *)
Fixpoint run_events (es : list event) (x : kstate * phase) : list (event * outcome) * (kstate * phase) :=
  match es with
  | [] => ([], x)
  | e :: es =>
      match exec e x with
      | Some (o, y) => let '(tr, z) := run_events es y in ((e, o) :: tr, z)
      | None => ([], x)
      end
  end.

Lemma run_events_steps es : forall x, steps x (run_events es x).1 (run_events es x).2.
Proof.
  induction es as [|e es IH]; intros x; cbn; [constructor|]. destruct (exec e x) as [[o y]|] eqn:E; [|constructor].
  specialize (IH y). destruct (run_events es y) as [tr z]. econstructor; [by apply exec_step|done].
Qed.
