(* ===== verification/ImrTheorems.v ===== *)
(** The correctness of the LSM under concurrent level compaction. *)

From S2P Require Import Prelude StdMap ImrPrelude ImrGeometry ImrBloom ImrState ImrReadTree ImrLevels ImrSegment ImrPlacement ImrAccounting ImrCore ImrLsm ImrLsmInv ImrLsmOps ImrCompaction ImrBuild ImrPlan ImrPublish ImrPhases ImrSystem.

Lemma initial_timestamp s : timestamp (meta (imr_lsm_initialize_metadata_locked s)) = 0.
Proof.
  unfold imr_lsm_initialize_metadata_locked. cbv zeta.
  match goal with |- timestamp (meta (fold_left _ _ ?x)) = _ => pose proof (fold_st_set_core none_stats U32_MAX x) as E end.
  exact (f_equal (fun s => timestamp (meta s)) E).
Qed.

Lemma reachable_sys_inv s tr y :
  1 <= imr_lsm_compaction_threshold_locked s <= U32_MAX ->
  steps (imr_lsm_initialize_metadata_locked s, Idle) tr y -> lenZ tr < 2 ^ 32 ->
  exists H A, allowed_trace (fun _ => LOOKUP_MISS) tr A /\ sys_inv H A y.
Proof.
  intros Ht Hst Hl. apply (sys_steps _ _ _ Hst _ _ (initial_inv s Ht)). cbn [fst]. by rewrite initial_timestamp.
Qed.

(** A lookup reads the newest record. *)
Lemma read_answer H k s : lsm_inv H s -> (imr_lsm_read k s).2 = answer (H k).
Proof. intros Hi. pose proof (read_spec H k s Hi) as Hr. by destruct (imr_lsm_read k s), Hr as [-> _]. Qed.

(** C3: In every interleaving of writes, deletes, lookups and read-tree controls
    with the prepare, build and publish phases of level compactions, started from
    initialised metadata and of less than 2^32 events, each lookup returns the
    physical address of the last successful write of its key, or that the key was
    deleted or never written; a write or delete that fails for lack of memory has
    no effect; the publication of a built plan always succeeds, whatever the
    foreground did since the preparation; and the state that is reached answers
    every key as the trace says. *)
Theorem lsm_refines_map s tr y :
  1 <= imr_lsm_compaction_threshold_locked s <= U32_MAX ->
  steps (imr_lsm_initialize_metadata_locked s, Idle) tr y -> lenZ tr < 2 ^ 32 ->
  exists A, allowed_trace (fun _ => LOOKUP_MISS) tr A /\ forall k, (imr_lsm_read k y.1).2 = A k.
Proof.
  intros Ht Hst Hl. destruct (reachable_sys_inv s tr y Ht Hst Hl) as (H & A & Ha & Hs). exists A. split; [done|].
  intros k. rewrite (read_answer H) by apply Hs. apply Hs.
Qed.

(** A target that is ready. *)
Definition ready_state : kstate :=
  MkState zero_meta default_config 0 (Some 1) true true (Some []) 0 (MkAllocator IMR_LSM_ZONE_COMPACTION_NONE 0 1)
    (MkPstore [] 0 0) false IMR_LSM_ZONE_COMPACTION_NONE IMR_LSM_ZONE_COMPACTION_NONE 0 0 zero_wstats
    (MkHeap [] 0).

(** Two writes and a delete are compacted while a third write overwrites the first. *)
Definition demo_events : list event :=
  [Write 0 0 100; Write 0 8 200; Write 0 16 300; Delete 2; Prepare false 0; Write 0 0 500; Build; ClearReadTree 1; Write 0 24 600;
   Publish; Lookup 0; Lookup 1; Lookup 2; Lookup 3; Lookup 4; Prepare false 0; Build; Publish; ClearReadTree 1; Lookup 0].

Lemma lsm_refines_map_witness :
  let x := (imr_lsm_initialize_metadata_locked ready_state, Idle) in
  let tr := (run_events demo_events x).1 in
  map snd tr = [Return 0; Return 0; Return 0; Return 0; Return 0; Return 0; Return 0; Return 0; Return 0; Return 0;
    Answer (LOOKUP_VALID 500); Answer (LOOKUP_VALID 200); Answer LOOKUP_DELETED; Answer (LOOKUP_VALID 600); Answer LOOKUP_MISS;
    Return 0; Return 0; Return 0; Return 0; Answer (LOOKUP_VALID 500)] /\
  exists A, allowed_trace (fun _ => LOOKUP_MISS) tr A /\ forall k, (imr_lsm_read k (run_events demo_events x).2.1).2 = A k.
Proof.
  intros x tr. split; [vm_compute; reflexivity|].
  apply (lsm_refines_map ready_state).
  - vm_compute. split; discriminate.
  - apply run_events_steps.
  - vm_compute. reflexivity.
Defined.

(** ** Well-formed states *)

(** The representation: seven levels whose counters are the lengths of their
    lists and fit in 32 bits, sorted lists strictly increasing, block tables
    strictly increasing and inside the key range and the Bloom filter of their
    segment, and a read tree within its limit whose LRU list holds its keys. *)
Record well_formed (s : kstate) : Prop := {
  wf_levels : lenZ (levels (meta s)) = IMR_LSM_LEVELS;
  wf_counts : forall l, l ∈ levels (meta s) ->
    unsorted_count l = lenZ (unsorted_head l) /\ sorted_count l = lenZ (sorted_head l) /\ unsorted_count l + sorted_count l < 2 ^ 32;
  wf_sorted : forall l, l ∈ levels (meta s) -> nodes_sorted (sorted_head l);
  wf_segments : forall g, g ∈ segments (meta s) -> seg_ok g;
  wf_addr : forall l, l ∈ levels (meta s) -> NoDup (map n_addr (unsorted_head l));
  wf_tree : rt_wf (meta s);
}.

Lemma inv_well_formed H s : lsm_inv H s -> well_formed s.
Proof.
  intros Hi. pose proof (inv_ok _ _ Hi) as Hok. split.
  - apply Hok.
  - intros l Hl. destruct (ok_counts _ _ _ _ Hok l Hl) as [-> ->]. split_and!; [done|done|].
    pose proof (weight_total _ _ Hl). pose proof (ok_total _ _ _ _ Hok). unfold weight in *. lia.
  - apply Hok.
  - intros g Hg. apply seg_ok_core, (ok_segs _ _ _ _ Hok), list_elem_of_fmap. by exists g.
  - intros l Hl. by apply (inv_addr _ _ Hi).
  - apply Hi.
Qed.

(** C9: Every state reached from initialised metadata by foreground operations and
    compaction phases is well formed: level counters are list lengths within 32
    bits, sorted lists and block tables are strictly ordered, each table lies in
    the key range and the Bloom filter of its segment, and the read tree is within
    its limit and consistent with its LRU list. *)
Theorem reachable_well_formed s tr y :
  1 <= imr_lsm_compaction_threshold_locked s <= U32_MAX ->
  steps (imr_lsm_initialize_metadata_locked s, Idle) tr y -> lenZ tr < 2 ^ 32 -> well_formed y.1.
Proof.
  intros Ht Hst Hl. destruct (reachable_sys_inv s tr y Ht Hst Hl) as (H & A & _ & Hs). apply (inv_well_formed H), Hs.
Qed.

Lemma reachable_well_formed_witness :
  let x := (imr_lsm_initialize_metadata_locked ready_state, Idle) in well_formed (run_events demo_events x).2.1.
Proof.
  intros x. apply (reachable_well_formed ready_state (run_events demo_events x).1).
  - vm_compute. split; discriminate.
  - apply run_events_steps.
  - vm_compute. reflexivity.
Defined.

(** ** A whole level compaction *)

(** Nothing of the level is left where a lookup or a compaction would find it,
    except at the last level, whose sorted list and segments stay. *)
Definition level_moved (lv : Z) (s : kstate) : Prop :=
  unsorted_head (level lv s) = [] /\
  (lv < IMR_LSM_MAX_LEVEL -> sorted_head (level lv s) = [] /\ forall g, g ∈ segments (meta s) -> sg_level g = lv -> sg_retired g = true).

(** A level without sorted nodes has no active segments. *)
Lemma no_sorted_no_segments H lv s :
  lsm_inv H s -> lv < IMR_LSM_MAX_LEVEL -> 0 <= lv -> sorted_head (level lv s) = [] ->
  forall g, g ∈ segments (meta s) -> sg_level g = lv -> sg_retired g = true.
Proof.
  intros Hi Hlt H0 Hnil g Hg Hlv. destruct (sg_retired g) eqn:Er; [done|]. exfalso.
  assert (seg_core g ∈ map seg_core (segments (meta s))) as Hgc by (apply list_elem_of_fmap; by exists g).
  pose proof (inv_ok _ _ Hi) as Hok. pose proof (sgo_len _ (ok_segs _ _ _ _ Hok _ Hgc)) as Hlen.
  destruct (sg_table (seg_core g)) as [|e t] eqn:Et; [change (0 < 0 < 2 ^ 32) in Hlen; lia|].
  destruct (ok_covered _ _ _ _ Hok (seg_core g) e) as (l & n & Hl & Hn & _); [done|exact Er|exact (eq_ind_r (fun x => x < _) Hlt Hlv)|rewrite Et; by left|].
  change (sg_level (seg_core g)) with (sg_level g) in Hl. rewrite Hlv in Hl. unfold level in Hnil. rewrite Hl in Hnil.
  rewrite Hnil in Hn. by apply elem_of_nil in Hn.
Qed.

Lemma published_moved H p s s' run :
  lsm_inv H s -> captured p s [] run [] -> (pl_source_level p < IMR_LSM_MAX_LEVEL -> pl_retire_source p = true) ->
  shell s' = shell (upd_meta (set_levels (published_levels p [] s)) s) -> lsm_inv H s' -> level_moved (pl_source_level p) s'.
Proof.
  intros Hi C Hret Hsh Hi'. pose proof (nthZ_Some _ _ _ (level_In H s _ Hi (cp_src _ _ _ _ _ C))) as Hr.
  assert (levels (meta s') = published_levels p [] s) as El by exact (f_equal (fun s => levels (meta s)) Hsh).
  set (lv1 := updZ (levels (meta s)) (pl_source_level p) (cut [] (pl_retire_source p) (src_level p s))).
  assert (nthZ lv1 (pl_source_level p) = Some (cut [] (pl_retire_source p) (src_level p s))) as H1 by (by apply nthZ_updZ_eq).
  assert (forall l, unsorted_head (glue (pl_prepared p) l) = unsorted_head l) as Hg.
  { intros l. unfold glue. by destruct (merge_sorted _ _). }
  assert (unsorted_head (level (pl_source_level p) s') = [] /\
    (pl_source_level p <> pl_destination_level p -> sorted_head (level (pl_source_level p) s') = sorted_head (cut [] (pl_retire_source p) (src_level p s)))) as [Hu Hs].
  { unfold level. rewrite El. unfold published_levels. cbv zeta. fold lv1. destruct (decide (pl_source_level p = pl_destination_level p)) as [Heq|Hne].
    - rewrite <- Heq, H1. rewrite nthZ_updZ_eq by (unfold lv1; by rewrite lenZ_updZ). split; [by rewrite Hg|done].
    - rewrite nthZ_updZ_ne, H1 by done. done. }
  split; [done|]. intros Hlt. specialize (Hret Hlt).
  assert (sorted_head (level (pl_source_level p) s') = []) as Hnil.
  { rewrite Hs by (apply (cp_retire _ _ _ _ _ C), Hret). cbn. by rewrite Hret. }
  split; [done|]. apply (no_sorted_no_segments H); [done|done|apply C|done].
Qed.

(** C8: A requested compaction of a level returns 0, or [-ENOMEM] when an
    allocation of the build fails; every lookup answers as before it; and when it
    returns 0 the unsorted list of the level is empty and, below the last level,
    so is its sorted list, and all its segments are retired. *)
Theorem level_compaction_correct H lv s :
  lsm_inv H s -> 0 <= lv <= IMR_LSM_MAX_LEVEL -> imrsim_target_ready_locked s = true -> is_Some (output_bdev s) ->
  1 <= imr_lsm_compaction_threshold_locked s <= U32_MAX ->
  let '(s', did_work, ret) := imr_lsm_execute_level_compaction false lv s in
  (ret = 0 \/ (ret = - ENOMEM /\ did_work = true)) /\ (forall k, (imr_lsm_read k s').2 = (imr_lsm_read k s).2) /\ lsm_inv H s' /\
  (ret = 0 -> level_moved lv s').
Proof.
  intros Hi Hlv Hr [bdev Hb] Ht. unfold imr_lsm_execute_level_compaction, compaction_prepare.
  rewrite Hr, Hb, (inv_init _ _ Hi). cbn [negb orb andb]. cbv zeta. rewrite (ensure_initialized_id s (inv_init _ _ Hi)).
  assert ((lv >=? IMR_LSM_LEVELS) = false) as -> by (unfold IMR_LSM_LEVELS, IMR_LSM_MAX_LEVEL in *; lia).
  assert (forall s', lsm_inv H s' -> forall k, (imr_lsm_read k s').2 = (imr_lsm_read k s).2) as Hread by (intros; by rewrite !(read_answer H)).
  pose proof (prepare_spec H lv U32_MAX s Hi Hlv ltac:(unfold U32_MAX; lia) Hr) as Hp.
  destruct (imr_lsm_prepare_level_compaction_locked lv U32_MAX s) as [s1 r]. destruct Hp as [Hc Hp]. pose proof (inv_core H _ _ Hc Hi) as Hi1.
  destruct Hp as [(-> & Hu & Hs)|(p & run & post & -> & C & Hbd & Hsrc & Hfull)].
  { split_and!; [by left|by apply Hread|done|]. intros _. split; [done|]. intros Hlt. split; [by apply Hs|].
    apply (no_sorted_no_segments H); [done|done|lia|by apply Hs]. }
  destruct Hfull as [-> Hret]; [pose proof (level_weight H s1 lv Hi1 Hlv); pose proof (lenZ_nonneg (sorted_head (level lv s1))); unfold U32_MAX; lia|].
  assert (1 <= imr_lsm_compaction_threshold_locked s1 <= U32_MAX) as Ht1
    by (by rewrite (threshold_cfg s s1 (sl_cfg _ _ (core_same_levels _ _ Hc)))).
  destruct (build_spec H p s1 [] run [] Hi1 C Hbd Ht1) as (h & r & -> & Hle & Hbu).
  pose proof (keeps_set_hp h s1 Hle) as Hk. assert (lsm_inv H (set_hp h s1)) as Hi2 by (by apply (inv_keeps_rt H s1)).
  destruct Hbu as [->|(p' & -> & Hsc & Hbt)]; [split_and!; [by right|by apply Hread|done|done]|].
  assert (pl_retire_source p' = pl_retire_source p /\ pl_source_level p' = pl_source_level p) as [Er El] by (destruct Hsc as [Esc]; injection Esc; done).
  assert (captured p' (set_hp h s1) [] run []) as C' by (eapply captured_same; [by apply keeps_same_levels|by apply (captured_plan p)]).
  pose proof (publish_spec H p' (set_hp h s1) [] run [] Hi2 C') as Hpub. unfold moved in *. rewrite Er, El in Hpub. specialize (Hpub Hbt).
  destruct (imr_lsm_publish_level_compaction_locked p' (set_hp h s1)) as [s' ret]. destruct Hpub as (-> & Hi' & Hsh & _).
  split_and!; [by left|by apply Hread|done|]. intros _. rewrite <- Hsrc, <- El. cbn [app] in Hsh.
  apply (published_moved H p' (set_hp h s1) s' run); [done|done|by rewrite Er, El, Hsrc|done|done].
Qed.

Lemma level_compaction_correct_witness :
  let s := (run_events [Write 0 0 100; Write 0 8 200; Delete 1] (imr_lsm_initialize_metadata_locked ready_state, Idle)).2.1 in
  let '(s', did_work, ret) := imr_lsm_execute_level_compaction false 0 s in
  did_work = true /\ ret = 0 /\ level_moved 0 s' /\ (imr_lsm_read 0 s').2 = LOOKUP_VALID 100.
Proof.
  set (es := [Write 0 0 100; Write 0 8 200; Delete 1]). intros s.
  destruct (reachable_sys_inv ready_state (run_events es (imr_lsm_initialize_metadata_locked ready_state, Idle)).1
    (run_events es (imr_lsm_initialize_metadata_locked ready_state, Idle)).2) as (H & A & _ & Hs);
    [vm_compute; split; discriminate|apply run_events_steps|vm_compute; reflexivity|].
  pose proof (level_compaction_correct H 0 s (si_inv _ _ _ Hs)) as T.
  assert ((imr_lsm_execute_level_compaction false 0 s).1.2 = true /\ (imr_lsm_execute_level_compaction false 0 s).2 = 0 /\
    (imr_lsm_read 0 s).2 = LOOKUP_VALID 100) as (E1 & E2 & E3) by (vm_compute; split; [reflexivity|split; reflexivity]).
  destruct (imr_lsm_execute_level_compaction false 0 s) as [[s' d] ret]. cbn [fst snd] in E1, E2. subst d ret.
  destruct T as (_ & T1 & _ & T2); [unfold IMR_LSM_MAX_LEVEL; lia|vm_compute; reflexivity|vm_compute; eexists; reflexivity|vm_compute; split; discriminate|].
  split; [done|]. split; [done|]. split; [by apply T2|]. by rewrite T1.
Defined.
