(* ===== verification/ImrLinks.v ===== *)
(** The lists of live segment entries of the newest-key index: superseding a key
    unlinks and invalidates every entry of its list, and the loop ends. *)

From S2P Require Import Prelude StdMap ImrPrelude ImrGeometry ImrBloom ImrState ImrReadTree ImrLevels ImrSegment ImrPlacement ImrAccounting ImrLsm ImrCompaction ImrSystem ImrTheorems.

(** Whether an entry is on a list; [None] if there is no such entry. *)
Definition links (s : kstate) (r : nat * nat) : option bool := be_newest_linked <$> entry_at r s.

(** Operations that leave the lists alone. *)
Record same_links (s s' : kstate) : Prop := {
  lk_tree : newest_tree (meta s') = newest_tree (meta s);
  lk_links : forall r, links s' r = links s r;
}.
#[export] Instance same_links_refl : Reflexive same_links.
Proof. by split. Qed.
#[export] Instance same_links_trans : Transitive same_links.
Proof. intros s1 s2 s3 [A1 A2] [B1 B2]. split; [congruence|]. intros r. by rewrite B2. Qed.

Lemma links_table s r : links s r = match seg r.1 s with Some g => map be_newest_linked (sg_table g) !! r.2 | None => None end.
Proof.
  unfold links, entry_at. destruct (seg r.1 s) as [g|]; [|done].
  change (map be_newest_linked (sg_table g)) with (be_newest_linked <$> sg_table g). by rewrite list_lookup_fmap.
Qed.

Lemma seg_upd_seg i f s j : seg j (upd_seg i f s) = if decide (j = i) then f <$> seg j s else seg j s.
Proof.
  unfold seg, upd_seg. cbn. destruct (decide (j = i)) as [->|Hne]; [apply list_lookup_alter_eq|by apply list_lookup_alter_ne].
Qed.

Lemma links_upd_seg i f s :
  (forall g, map be_newest_linked (sg_table (f g)) = map be_newest_linked (sg_table g)) -> same_links s (upd_seg i f s).
Proof.
  intros Hf. split; [done|]. intros r. rewrite !links_table, seg_upd_seg. destruct (decide (r.1 = i)); [|done].
  destruct (seg r.1 s) as [g|]; cbn; [by rewrite Hf|done].
Qed.
Lemma links_upd_acct i f s : same_links s (upd_acct i f s).
Proof. by apply links_upd_seg. Qed.

Lemma links_upd_entry r f s : (forall e, be_newest_linked (f e) = be_newest_linked e) -> same_links s (upd_entry r f s).
Proof.
  intros Hf. apply links_upd_seg. intros g. cbn. apply list_eq. intros j.
  change (map be_newest_linked) with (fmap (M := list) be_newest_linked). rewrite !list_lookup_fmap.
  destruct (decide (j = r.2)) as [->|]; [|by rewrite list_lookup_alter_ne].
  rewrite list_lookup_alter_eq. destruct (sg_table g !! r.2); cbn; [by rewrite Hf|done].
Qed.
Lemma links_stat f v s : same_links s (st_set f v s).
Proof. by split. Qed.

Lemma unlinked_entry r s r' : links (upd_entry r (set_be_newest_linked false) s) r' = if decide (r' = r) then (fun _ => false) <$> links s r else links s r'.
Proof.
  rewrite !links_table. unfold upd_entry. rewrite seg_upd_seg. destruct (decide (r' = r)) as [->|Hne].
  - rewrite decide_True by done. destruct (seg r.1 s) as [g|]; cbn; [|done].
    change (map be_newest_linked) with (fmap (M := list) be_newest_linked). rewrite !list_lookup_fmap, list_lookup_alter_eq.
    by destruct (sg_table g !! r.2).
  - destruct (decide (r'.1 = r.1)) as [E|]; [|done]. destruct (seg r'.1 s) as [g|]; cbn; [|done].
    change (map be_newest_linked) with (fmap (M := list) be_newest_linked). rewrite !list_lookup_fmap, list_lookup_alter_ne; [done|].
    intros E2. apply Hne. destruct r, r'. cbn in *. congruence.
Qed.

Lemma find_m_alter {V} key (f : V -> V) (m : stdmap Z V) k :
  m_find k (m_alter key f m) = if decide (k = key) then f <$> m_find k m else m_find k m.
Proof.
  unfold m_alter. induction m as [|[k0 v0] m IH]; cbn; [by destruct (decide (k = key))|].
  destruct (decide (k0 = key)) as [->|Hne]; cbn; rewrite IH; repeat case_decide; subst; done.
Qed.

(** ** Superseding a key *)

(** What detaching a linked entry of the list of [key] does. *)
Record detached (key : Z) (r : nat * nat) (s s' : kstate) : Prop := {
  dt_links : forall r', links s' r' = if decide (r' = r) then Some false else links s r';
  dt_tree : forall k, m_find k (newest_tree (meta s')) =
    if decide (k = key) then (fun n => set_nn_live (unlink r (nn_live n)) n) <$> m_find k (newest_tree (meta s)) else m_find k (newest_tree (meta s));
}.

Lemma detached_same key r s0 s s' s1 : same_links s0 s -> detached key r s s' -> same_links s' s1 -> detached key r s0 s1.
Proof.
  intros [A1 A2] [B1 B2] [C1 C2]. split.
  - intros r'. rewrite C2, B1. by rewrite A2.
  - intros k. rewrite C1, B2. by rewrite A1.
Qed.

Lemma detach_spec key r s : links s r = Some true -> detached key r s (imr_lsm_detach_live_segment_entry_locked (Some key) r s).
Proof.
  intros Hl. unfold imr_lsm_detach_live_segment_entry_locked. unfold links in Hl. destruct (entry_at r s) as [e|] eqn:Ee; [|done].
  injection Hl as Hl. rewrite Hl. cbn [negb]. set (s1 := upd_newest key _ s).
  assert (forall r, links s1 r = links s r) as H1 by done. split.
  - intros r'. rewrite unlinked_entry, !H1. destruct (decide (r' = r)); [|done]. unfold links. by rewrite Ee.
  - intros k. cbn. apply find_m_alter.
Qed.

Lemma links_note_max i s : same_links s (note_max_ratio i s).
Proof. unfold note_max_ratio. destruct (seg i s) as [g|]; [|done]. by destruct (_ >? _). Qed.

Lemma mark_invalid_detached key r obsolete newer_valid s :
  links s r = Some true -> detached key r s (imr_lsm_mark_segment_entry_invalid_locked (Some key) r obsolete newer_valid s).
Proof.
  intros Hl. unfold imr_lsm_mark_segment_entry_invalid_locked. pose proof Hl as Hl0. unfold links, entry_at in Hl0.
  destruct (entry_at r s) as [e|] eqn:Ee; [|unfold entry_at in Ee; rewrite Ee in Hl0; done].
  destruct (seg r.1 s) as [g|] eqn:Eg; [|done]. destruct (_ || _ || _); [by apply detach_spec|]. cbv zeta.
  assert (forall i f s, same_links s (upd_acct i f s)) as Ha by apply links_upd_acct.
  set (s1 := if negb (be_acct_invalid e) then _ else s). assert (same_links s s1) as L1.
  { unfold s1. destruct (negb _); [|done]. etransitivity; [|by apply links_upd_entry]. etransitivity; [|apply links_stat].
    etransitivity; [|apply Ha]. destruct (invalid_count _ =? 0); [etransitivity; [|apply links_stat]|]; (destruct (negb _); [apply Ha|done]). }
  clearbody s1. set (s2 := if obsolete && negb (be_acct_obsolete e) then _ else s1). assert (same_links s1 s2) as L2.
  { unfold s2. destruct (_ && _); [|done]. etransitivity; [|by apply links_upd_entry]. etransitivity; [|apply links_stat]. apply Ha. }
  clearbody s2. set (s3 := if obsolete && be_valid e && _ && _ then _ else s2). assert (same_links s2 s3) as L3.
  { unfold s3. destruct (_ && _ && _ && _); [|done]. etransitivity; [|by apply links_upd_entry]. etransitivity; [|apply links_stat]. apply Ha. }
  clearbody s3. assert (same_links s s3) as L by (etransitivity; [exact L1|etransitivity; [exact L2|exact L3]]).
  eapply detached_same; [exact L|apply detach_spec; by rewrite (lk_links _ _ L)|].
  etransitivity; [|apply links_note_max]. by apply links_upd_seg.
Qed.

Lemma supersede_loop_spec key nv : forall (l : list (nat * nat)) s n,
  m_find key (newest_tree (meta s)) = Some n -> nn_live n = l -> NoDup l -> (forall r, r ∈ l -> links s r = Some true) ->
  let s' := supersede_loop (length l) key nv s in
  (exists n', m_find key (newest_tree (meta s')) = Some n' /\ nn_live n' = []) /\
  (forall r, links s' r = if decide (r ∈ l) then Some false else links s r) /\
  (forall k, k <> key -> m_find k (newest_tree (meta s')) = m_find k (newest_tree (meta s))).
Proof.
  induction l as [|r l IH]; intros s n Hn Hl Hnd Hlk; cbn [length supersede_loop]; cbv zeta.
  { split_and!; [by exists n| |done]. intros r. rewrite decide_False; [done|by intros ?%elem_of_nil]. }
  rewrite Hn, Hl. apply NoDup_cons in Hnd as [Hr Hnd].
  destruct (mark_invalid_detached key r true nv s (Hlk r ltac:(by left))) as [D1 D2].
  set (s1 := imr_lsm_mark_segment_entry_invalid_locked _ _ _ _ _) in *.
  destruct (IH s1 (set_nn_live l n)) as (I1 & I2 & I3); [|done|done| |].
  - rewrite D2, decide_True, Hn by done. cbn. rewrite Hl. cbn. by rewrite decide_True by done.
  - intros r' Hr'. rewrite D1. rewrite decide_False; [apply Hlk; by right|]. intros ->. done.
  - split_and!; [done| |].
    + intros r'. rewrite I2, D1. destruct (decide (r' ∈ l)); [rewrite decide_True; [done|by right]|].
      destruct (decide (r' = r)) as [->|]; [rewrite decide_True; [done|by left]|]. rewrite decide_False; [done|].
      by intros [|]%elem_of_cons.
    + intros k Hk. rewrite I3 by done. rewrite D2. by rewrite decide_False.
Qed.

(** Superseding a key ends with the list of its live segment entries empty:
    each round of the loop unlinks the head, every entry that was on the list is
    marked unlinked, and no other entry's link and no other key's node changes. *)
Theorem supersede_empties key newer_valid s n :
  m_find key (newest_tree (meta s)) = Some n -> NoDup (nn_live n) -> (forall r, r ∈ nn_live n -> links s r = Some true) ->
  let s' := imr_lsm_incremental_supersede_locked key newer_valid s in
  (exists n', m_find key (newest_tree (meta s')) = Some n' /\ nn_live n' = []) /\
  (forall r, links s' r = if decide (r ∈ nn_live n) then Some false else links s r) /\
  (forall k, k <> key -> m_find k (newest_tree (meta s')) = m_find k (newest_tree (meta s))).
Proof. intros Hn Hnd Hl. unfold imr_lsm_incremental_supersede_locked. rewrite Hn. by apply (supersede_loop_spec key newer_valid (nn_live n) s n). Qed.

(** A key whose record went into a segment. *)
Definition linked_state : kstate :=
  (run_events [Write 0 8 200; Write 0 16 300; Prepare false 0; Build; Publish] (imr_lsm_initialize_metadata_locked ready_state, Idle)).2.1.

Lemma supersede_empties_witness :
  let s' := imr_lsm_incremental_supersede_locked 1 true linked_state in
  links linked_state (0%nat, 0%nat) = Some true /\ links s' (0%nat, 0%nat) = Some false /\
  exists n', m_find 1 (newest_tree (meta s')) = Some n' /\ nn_live n' = [].
Proof.
  intros s'. split; [vm_compute; reflexivity|].
  destruct (supersede_empties 1 true linked_state (MkNewest 1 true [(0, 0)]%nat)) as (T1 & T2 & _).
  - vm_compute. reflexivity.
  - cbn. apply NoDup_singleton.
  - intros r ->%list_elem_of_singleton. vm_compute. reflexivity.
  - split; [|exact T1]. unfold s'. rewrite (T2 (0, 0)%nat). rewrite decide_True; [reflexivity|by left].
Defined.
