(* ===== verification/ImrZones.v ===== *)
(** Physical zones of the IMRSim target: the dirty-zone queue, the forward map
    from keys to blocks, free zones, the foreground append and deletion
    ([dm-imrsim.c], [imrsim_ptask_queue_zone_status_locked],
    [imr_lsm_forward_map_*], from [imr_lsm_clear_zone_top_usage] to
    [imr_lsm_seed_full_zone_locked], from [imr_lsm_activate_zone_locked] to
    [imr_lsm_append_logical_block_locked], and from
    [imrsim_lsm_delete_key_locked] to [imrsim_lsm_discard_lba_range_locked]). *)

From S2P Require Import Prelude StdMap ImrPrelude ImrGeometry ImrBloom ImrState ImrReadTree ImrLevels ImrSegment ImrPlacement ImrAccounting ImrLsm.

(** ** Constants *)

Definition IMR_ERR_READ_BORDER : Z := -200.
Definition IMR_ERR_WRITE_ALIGN : Z := -230.
Definition IMR_ERR_OUT_RANGE : Z := -240.
Definition Z_COND_EMPTY : Z := 1.
Definition Z_COND_CLOSED : Z := 2.
Definition Z_COND_OPEN : Z := 3.
Definition Z_COND_RO : Z := 13.
Definition Z_COND_FULL : Z := 14.
Definition Z_COND_OFFLINE : Z := 15.
Definition IMR_STATS_CHANGE : Z := 2.
Definition IMR_STATUS_CHANGE : Z := 4.
Definition IMR_PSTORE_QDEPTH : Z := 128.
Definition IMR_PSTORE_PG_GAP : Z := 2.
Definition IMR_LSM_ZONE_GC_RATIO_SCALE : Z := 1000.
Definition IMR_MAX_DISCARD_BLOCKS : Z := 1024.

(** [a[i] = v] for an array. *)
Definition upd_fn {A} (f : Z -> A) (i : Z) (v : A) : Z -> A := fun j => if j =? i then v else f j.

(** ** The dirty-zone queue *)

Definition imrsim_ptask_zone_is_queued (idx : Z) (s : kstate) : bool := existsb (Z.eqb idx) (stu_zone_idx (ptask s)).

Definition imrsim_ptask_queue_zone_status_locked (idx : Z) (s : kstate) : kstate :=
  match zones s with
  | None => s
  | Some _ =>
      if idx >=? IMR_NUMZONES s then s
      else
        let q := set_ps_flag (Z.lor (ps_flag (ptask s)) IMR_STATUS_CHANGE) (ptask s) in
        let q := if lenZ (stu_zone_idx q) =? IMR_PSTORE_QDEPTH then set_stu_zone_idx_gap IMR_PSTORE_PG_GAP q
                 else if negb (imrsim_ptask_zone_is_queued idx s) then set_stu_zone_idx (stu_zone_idx q ++ [idx]) q else q in
        set_ptask q s
  end.

(** ** The forward map *)

Definition logical_zone (key : Z) : Z := u32 (Z.shiftr key IMR_ZONE_SIZE_SHIFT).
Definition logical_offset (key : Z) : Z := u32 (Z.land key (TOTAL_ITEMS - 1)).

Definition imr_lsm_forward_map_lookup_locked (key : Z) (s : kstate) : option Z :=
  if logical_zone key >=? IMR_NUMZONES s then None
  else
    match zone (logical_zone key) s with
    | None => None
    | Some z =>
        let physical_block := z_pba_map z (logical_offset key) in
        if physical_block =? -1 then None else Some (u64 (Z.shiftl (u32 physical_block) IMR_BLOCK_SIZE_SHIFT))
    end.

Definition imr_lsm_forward_map_set_locked (key pba : Z) (s : kstate) : kstate * Z :=
  let physical_block := Z.shiftr pba IMR_BLOCK_SIZE_SHIFT in
  match zones s with
  | None => (s, - ERANGE)
  | Some _ =>
      if (logical_zone key >=? IMR_NUMZONES s) || (physical_block >=? IMR_LSM_KEY_EMPTY) then (s, - ERANGE)
      else
        let s := upd_zone (logical_zone key)
          (fun z => set_z_pba_map (upd_fn (z_pba_map z) (logical_offset key) (i32 (u32 physical_block))) z) s in
        (imrsim_ptask_queue_zone_status_locked (logical_zone key) s, 0)
  end.

(** ** Top-track usage *)

Definition imr_lsm_clear_zone_top_usage (zone_idx : Z) : kstate -> kstate := upd_zone zone_idx (set_z_tracks (fun _ _ => 0)).
Definition imr_lsm_mark_zone_top_full (zone_idx : Z) : kstate -> kstate := upd_zone zone_idx (set_z_tracks (fun _ _ => 1)).
Definition use_top_block (track block : Z) (z : zone_status) : zone_status :=
  set_z_tracks (upd_fn (z_tracks z) track (upd_fn (z_tracks z track) block 1)) z.

(** ** Free zones *)

Definition zone_ids (s : kstate) : list Z := map Z.of_nat (seq 0 (Z.to_nat (IMR_NUMZONES s))).

Definition imr_lsm_zone_is_free_locked (zone_idx : Z) (s : kstate) : bool :=
  if (zone_idx >=? IMR_NUMZONES s) || (zone_idx =? active_zone (alloc s)) || (zone_idx =? copy_source s) || (zone_idx =? copy_dest s)
  then false
  else
    match zone zone_idx s with
    | None => false
    | Some z => (z_map_size z =? 0) && (z_live_count z =? 0) && negb (z_conds z =? Z_COND_RO) && negb (z_conds z =? Z_COND_OFFLINE)
    end.

Definition imr_lsm_count_free_zones_locked (s : kstate) : Z :=
  fold_left (fun n i => if imr_lsm_zone_is_free_locked i s then u32 (n + 1) else n) (zone_ids s) 0.

(** The zones in the order of the scan from the free cursor. *)
Definition cursor_scan (s : kstate) : list Z := map (fun i => u32 (free_cursor (alloc s) + i) mod IMR_NUMZONES s) (zone_ids s).
Definition take_free_zone (ok : Z -> bool) (s : kstate) : kstate * Z :=
  match List.find (fun i => ok i && imr_lsm_zone_is_free_locked i s) (cursor_scan s) with
  | Some i => (set_alloc (set_free_cursor (u32 (i + 1) mod IMR_NUMZONES s) (alloc s)) s, i)
  | None => (s, IMR_LSM_ZONE_COMPACTION_NONE)
  end.

Definition imr_lsm_find_free_zone_locked (exclude_zone : Z) (s : kstate) : kstate * Z :=
  if IMR_NUMZONES s =? 0 then (s, IMR_LSM_ZONE_COMPACTION_NONE) else take_free_zone (fun i => negb (i =? exclude_zone)) s.

(** One free zone is kept for garbage collection. *)
Definition imr_lsm_find_foreground_free_zone_locked (s : kstate) : kstate * Z :=
  let reserved := if negb (stat "zone_compaction_candidate_ready" s =? 0) then stat "zone_compaction_candidate_dest_zone" s
                  else IMR_LSM_ZONE_COMPACTION_NONE in
  if IMR_NUMZONES s =? 0 then (s, IMR_LSM_ZONE_COMPACTION_NONE)
  else if imr_lsm_count_free_zones_locked s <? 2 then (s, IMR_LSM_ZONE_COMPACTION_NONE)
  else take_free_zone (fun i => negb (i =? reserved)) s.

Definition imr_lsm_reclaim_physical_zone_locked (zone_idx : Z) (s : kstate) : kstate :=
  let s := upd_zone zone_idx (fun z => set_z_key_map (fun _ => IMR_LSM_KEY_EMPTY) (set_z_conds Z_COND_EMPTY
    (set_z_generation 0 (set_z_live_count 0 (set_z_map_size 0 z))))) s in
  imrsim_ptask_queue_zone_status_locked zone_idx (imr_lsm_clear_zone_top_usage zone_idx s).

(** ** Candidates for garbage collection *)

Definition imr_lsm_clear_zone_compaction_auto_pending_locked (zone_idx : Z) (s : kstate) : kstate :=
  if negb (zone_idx =? IMR_LSM_ZONE_COMPACTION_NONE) && negb (zone_compaction_auto_pending_zone (meta s) =? zone_idx) then s
  else upd_meta (fun m => set_zone_compaction_auto_pending_zone IMR_LSM_ZONE_COMPACTION_NONE
         (set_zone_compaction_auto_pending false m)) s.

(** [stats.f = v] for a list of fields, in order. *)
Definition st_sets (l : list (string * Z)) (s : kstate) : kstate := fold_left (fun s '(f, v) => st_set f v s) l s.

Definition imr_lsm_clear_zone_compaction_candidate_locked (zone_idx : Z) (s : kstate) : kstate :=
  if negb (stat "zone_compaction_candidate_zone" s =? zone_idx) then s
  else
    imr_lsm_clear_zone_compaction_auto_pending_locked zone_idx
      (st_sets [("zone_compaction_candidate_zone", IMR_LSM_ZONE_COMPACTION_NONE);
                ("zone_compaction_candidate_dest_zone", IMR_LSM_ZONE_COMPACTION_NONE);
                ("zone_compaction_candidate_map_size", 0); ("zone_compaction_candidate_reclaimable", 0);
                ("zone_compaction_candidate_ratio_permille", 0); ("zone_compaction_candidate_pressure", 0);
                ("zone_compaction_candidate_ready", 0)]%string s).

(** The best candidate so far: zone, reclaimable blocks, ratio, generation. *)
Record victim := MkVictim { v_zone : Z; v_reclaimable : Z; v_ratio : Z; v_generation : Z }.
Definition no_victim : victim := MkVictim IMR_LSM_ZONE_COMPACTION_NONE 0 0 U64_MAX.

Definition reclaimable_ratio (z : zone_status) : Z :=
  u32 (u64 (u32 (z_map_size z - z_live_count z) * IMR_LSM_ZONE_GC_RATIO_SCALE) / z_map_size z).

(** One iteration of the candidate scan. *)
Definition consider_victim (pressure : bool) (s : kstate) (best : victim) (zone_idx : Z) : victim :=
  match zone zone_idx s with
  | None => best
  | Some z =>
      if (zone_idx =? active_zone (alloc s)) || (negb (z_conds z =? Z_COND_FULL) && negb (z_conds z =? Z_COND_CLOSED)) ||
         (z_map_size z =? 0) || (z_live_count z >=? z_map_size z) then best
      else
        let reclaimable := u32 (z_map_size z - z_live_count z) in
        let ratio := reclaimable_ratio z in
        if negb pressure && (ratio <? cfg_zone_gc_min_invalid_ratio_permille (cfg s)) then best
        else if (v_zone best =? IMR_LSM_ZONE_COMPACTION_NONE) || (ratio >? v_ratio best) ||
                ((ratio =? v_ratio best) && (reclaimable >? v_reclaimable best)) ||
                ((ratio =? v_ratio best) && (reclaimable =? v_reclaimable best) && (z_generation z <? v_generation best))
        then MkVictim zone_idx reclaimable ratio (z_generation z) else best
  end.

Definition imr_lsm_record_zone_compaction_candidate_locked (s : kstate) : kstate :=
  match zones s with
  | None => s
  | Some _ =>
      let free_count := imr_lsm_count_free_zones_locked s in
      let pressure := free_count <? cfg_zone_gc_free_low_watermark (cfg s) in
      let best := fold_left (consider_victim pressure s) (zone_ids s) no_victim in
      let source := v_zone best in
      let none := source =? IMR_LSM_ZONE_COMPACTION_NONE in
      let current_dest := stat "zone_compaction_candidate_dest_zone" s in
      let '(s, dest) :=
        if none then (s, IMR_LSM_ZONE_COMPACTION_NONE)
        else if (stat "zone_compaction_candidate_zone" s =? source) && negb (current_dest =? source) &&
                (current_dest <? IMR_NUMZONES s) && imr_lsm_zone_is_free_locked current_dest s
        then (s, current_dest) else imr_lsm_find_free_zone_locked source s in
      let new_candidate := negb (stat "zone_compaction_candidate_zone" s =? source) in
      let s := if new_candidate && negb none then st_inc "zone_compaction_candidate_count" s else s in
      let map_size := if none then 0 else match zone source s with Some z => z_map_size z | None => 0 end in
      let reclaimable := if none then 0 else v_reclaimable best in
      let ratio := if none then 0 else v_ratio best in
      let pressed := if none then 0 else Z.b2z pressure in
      let ready := Z.b2z (negb (dest =? IMR_LSM_ZONE_COMPACTION_NONE)) in
      let s := st_sets [("zone_gc_free_zone_count", free_count); ("zone_gc_pressure", Z.b2z pressure);
                        ("zone_compaction_candidate_zone", source); ("zone_compaction_candidate_dest_zone", dest);
                        ("zone_compaction_candidate_map_size", map_size); ("zone_compaction_candidate_reclaimable", reclaimable);
                        ("zone_compaction_candidate_ratio_permille", ratio); ("zone_compaction_candidate_pressure", pressed);
                        ("zone_compaction_candidate_ready", ready); ("last_zone_compaction_candidate_zone", source);
                        ("last_zone_compaction_candidate_dest_zone", dest); ("last_zone_compaction_candidate_map_size", map_size);
                        ("last_zone_compaction_candidate_reclaimable", reclaimable);
                        ("last_zone_compaction_candidate_ratio_permille", ratio);
                        ("last_zone_compaction_candidate_pressure", pressed); ("last_zone_compaction_candidate_ready", ready)]%string s in
      if none then imr_lsm_clear_zone_compaction_auto_pending_locked IMR_LSM_ZONE_COMPACTION_NONE s else s
  end.

Definition imr_lsm_defer_zone_compaction_auto_run_locked (zone_idx : Z) (s : kstate) : kstate * bool :=
  if negb (zone_compaction_auto_run (meta s)) || zone_compaction_auto_running (meta s) then (s, false)
  else if negb (stat "zone_compaction_candidate_zone" s =? zone_idx) || (stat "zone_compaction_candidate_ready" s =? 0) then (s, false)
  else if zone_compaction_auto_pending (meta s) && (zone_compaction_auto_pending_zone (meta s) =? zone_idx) then (s, false)
  else
    let s := upd_meta (fun m => set_zone_compaction_auto_pending true (set_zone_compaction_auto_pending_zone zone_idx m)) s in
    (st_set "last_zone_compaction_auto_pending_zone" zone_idx (st_inc "zone_compaction_auto_pending_count" s), true).

(** The candidate of the statistics is deferred, if there is one. *)
Definition defer_candidate (s : kstate) : kstate :=
  let candidate := stat "zone_compaction_candidate_zone" s in
  if negb (candidate =? IMR_LSM_ZONE_COMPACTION_NONE) then (imr_lsm_defer_zone_compaction_auto_run_locked candidate s).1 else s.

Definition imr_lsm_record_zone_compaction_candidate (s : kstate) : kstate :=
  defer_candidate (imr_lsm_record_zone_compaction_candidate_locked (ensure_initialized s)).

(** ** Recovery of the allocator *)

Definition imr_lsm_allocator_reset_locked (s : kstate) : kstate :=
  set_append_writes_inflight 0 (set_alloc (MkAllocator IMR_LSM_ZONE_COMPACTION_NONE 0 1) s).

(** The scan of the zones: the newest open zone, its generation, and the largest
    generation; [None] is the return of [-EUCLEAN]. *)
Fixpoint recover_loop (ids : list Z) (newest_open newest_generation max_generation : Z) (s : kstate) : kstate * option (Z * Z) :=
  match ids with
  | [] => (s, Some (newest_open, max_generation))
  | i :: ids =>
      match zone i s with
      | None => (s, None)
      | Some z =>
          if (z_map_size z >? TOTAL_ITEMS) || (z_live_count z >? z_map_size z) then (s, None)
          else
            let max_generation := if z_generation z >? max_generation then z_generation z else max_generation in
            if z_map_size z =? 0 then
              let s := upd_zone i (fun z =>
                let z := set_z_generation 0 (set_z_live_count 0 z) in
                if negb (z_conds z =? Z_COND_RO) && negb (z_conds z =? Z_COND_OFFLINE) then set_z_conds Z_COND_EMPTY z else z) s in
              recover_loop ids newest_open newest_generation max_generation s
            else if z_map_size z =? TOTAL_ITEMS then
              recover_loop ids newest_open newest_generation max_generation (upd_zone i (set_z_conds Z_COND_FULL) s)
            else if (z_conds z =? Z_COND_OPEN) &&
                    ((newest_open =? IMR_LSM_ZONE_COMPACTION_NONE) || (z_generation z >? newest_generation))
            then recover_loop ids i (z_generation z) max_generation s
            else recover_loop ids newest_open newest_generation max_generation s
      end
  end.

(** Every other open zone is sealed. *)
Definition seal_zone (newest_open : Z) (s : kstate) (i : Z) : kstate :=
  match zone i s with
  | Some z =>
      if negb (i =? newest_open) && (z_conds z =? Z_COND_OPEN)
      then imrsim_ptask_queue_zone_status_locked i (upd_zone i (set_z_conds Z_COND_CLOSED) s) else s
  | None => s
  end.

(** [generation++], which skips 0. *)
Definition after_generation (g : Z) : Z := let g := u64 (g + 1) in if g =? 0 then 1 else g.

Definition imr_lsm_allocator_recover_locked (s : kstate) : kstate * Z :=
  let s := imr_lsm_allocator_reset_locked s in
  match zones s with
  | None => (s, - ENODEV)
  | Some _ =>
      match recover_loop (zone_ids s) IMR_LSM_ZONE_COMPACTION_NONE 0 0 s with
      | (s, None) => (s, - EUCLEAN)
      | (s, Some (newest_open, max_generation)) =>
          let s := fold_left (seal_zone newest_open) (zone_ids s) s in
          (set_alloc (set_next_generation (after_generation max_generation) (set_active_zone newest_open (alloc s))) s, 0)
      end
  end.

(** The test helper that marks a whole zone as written. *)
Definition imr_lsm_seed_full_zone_locked (zone_idx : Z) (s : kstate) : kstate * Z :=
  match zones s with
  | None => (s, - EINVAL)
  | Some _ =>
      if zone_idx >=? IMR_NUMZONES s then (s, - EINVAL)
      else
        let s := imrsim_ptask_queue_zone_status_locked zone_idx s in
        let in_zone (f : Z -> Z) (old : Z -> Z) (offset : Z) :=
          if (0 <=? offset) && (offset <? TOTAL_ITEMS) then f offset else old offset in
        let pba offset := i32 (u32 (Z.shiftr (imr_lsm_zone_append_pba zone_idx offset) IMR_BLOCK_SIZE_SHIFT)) in
        let key offset := u32 (u64 (imr_lsm_zone_key_start zone_idx + offset)) in
        let s := upd_zone zone_idx (fun z => set_z_conds Z_COND_FULL (set_z_generation (next_generation (alloc s))
          (set_z_live_count TOTAL_ITEMS (set_z_map_size TOTAL_ITEMS
            (set_z_key_map (in_zone key (z_key_map z)) (set_z_pba_map (in_zone pba (z_pba_map z)) z)))))) s in
        let s := set_alloc (set_next_generation (u64 (next_generation (alloc s) + 1)) (alloc s)) s in
        let s := if active_zone (alloc s) =? zone_idx then set_alloc (set_active_zone IMR_LSM_ZONE_COMPACTION_NONE (alloc s)) s else s in
        (imr_lsm_record_zone_compaction_candidate_locked (imr_lsm_mark_zone_top_full zone_idx s), 0)
  end.

(** ** Foreground append *)

Definition imr_lsm_activate_zone_locked (s : kstate) : kstate * cres Z :=
  let selected := active_zone (alloc s) in
  let usable :=
    if negb (selected =? IMR_LSM_ZONE_COMPACTION_NONE) && (selected <? IMR_NUMZONES s)
    then match zone selected s with Some z => (z_conds z =? Z_COND_OPEN) && (z_map_size z <? TOTAL_ITEMS) | None => false end
    else false in
  if usable then (s, Ok selected)
  else
    let s := if negb (selected =? IMR_LSM_ZONE_COMPACTION_NONE)
             then set_alloc (set_active_zone IMR_LSM_ZONE_COMPACTION_NONE (alloc s)) s else s in
    let '(s, selected) := imr_lsm_find_foreground_free_zone_locked s in
    if selected =? IMR_LSM_ZONE_COMPACTION_NONE then (s, Fail (- ENOSPC))
    else
      let s := upd_zone selected (fun z => set_z_generation (next_generation (alloc s)) (set_z_conds Z_COND_OPEN z)) s in
      let s := set_alloc (set_active_zone selected (set_next_generation (after_generation (next_generation (alloc s))) (alloc s))) s in
      (imrsim_ptask_queue_zone_status_locked selected s, Ok selected).

(** The occupied flag of an append slot on a top track. *)
Definition note_top_slot (zone_idx slot : Z) (s : kstate) : kstate :=
  if slot >=? imr_lsm_bottom_range_blocks then
    let top_slot := u32 (slot - imr_lsm_bottom_range_blocks) in
    upd_zone zone_idx (use_top_block (top_slot / IMR_TOP_TRACK_SIZE) (top_slot mod IMR_TOP_TRACK_SIZE)) s
  else s.

Definition leave_active_zone (s : kstate) : kstate := set_alloc (set_active_zone IMR_LSM_ZONE_COMPACTION_NONE (alloc s)) s.

Definition imr_lsm_append_logical_block_locked (logical_lba : Z) (s : kstate) : kstate * cres (Z * Z) :=
  let key := Z.shiftr logical_lba IMR_BLOCK_SIZE_SHIFT in
  if (key >=? u64 (Z.shiftl (IMR_NUMZONES s) IMR_ZONE_SIZE_SHIFT)) || (key >=? IMR_LSM_KEY_EMPTY) then (s, Fail IMR_ERR_OUT_RANGE)
  else
    match imr_lsm_activate_zone_locked s with
    | (s, Fail e) => (imr_lsm_record_zone_compaction_candidate s, Fail e)
    | (s, Ok zone_idx) =>
        match zone zone_idx s with
        | None => (s, Fail (- EUCLEAN))
        | Some status =>
            let slot := z_map_size status in
            if slot >=? TOTAL_ITEMS then (leave_active_zone (upd_zone zone_idx (set_z_conds Z_COND_FULL) s), Fail (- ENOSPC))
            else
              let new_pba := imr_lsm_zone_append_pba zone_idx slot in
              let old_mapping := imr_lsm_forward_map_lookup_locked key s in
              let old_zone := match old_mapping with Some old_pba => imrsim_lba_zone_idx old_pba | None => IMR_LSM_ZONE_COMPACTION_NONE end in
              let stale := match old_mapping with
                           | Some _ => (old_zone >=? IMR_NUMZONES s) ||
                                       match zone old_zone s with Some z => z_live_count z =? 0 | None => true end
                           | None => false
                           end in
              if stale then (s, Fail (- EUCLEAN))
              else
                let s := upd_zone zone_idx (fun z => set_z_live_count (u32 (z_live_count z + 1)) (set_z_map_size (u32 (z_map_size z + 1))
                           (set_z_key_map (upd_fn (z_key_map z) slot (u32 key)) z))) s in
                let full := u32 (slot + 1) =? TOTAL_ITEMS in
                let s := if full then leave_active_zone (upd_zone zone_idx (set_z_conds Z_COND_FULL) s) else s in
                match imr_lsm_record_insert zone_idx logical_lba new_pba s with
                | (s, ret) =>
                    if negb (ret =? 0) then
                      let s := upd_zone zone_idx (fun z => set_z_conds Z_COND_OPEN (set_z_key_map (upd_fn (z_key_map z) slot IMR_LSM_KEY_EMPTY)
                                 (set_z_live_count (u32 (z_live_count z - 1)) (set_z_map_size (u32 (z_map_size z - 1)) z)))) s in
                      (set_alloc (set_active_zone zone_idx (alloc s)) s, Fail ret)
                    else
                      match imr_lsm_forward_map_set_locked key new_pba s with
                      | (s, ret) =>
                          if negb (ret =? 0) then (s, Fail ret)
                          else
                            let s := match old_mapping with
                                     | Some _ => imrsim_ptask_queue_zone_status_locked old_zone
                                                   (upd_zone old_zone (fun z => set_z_live_count (u32 (z_live_count z - 1)) z) s)
                                     | None => s
                                     end in
                            let s := imrsim_ptask_queue_zone_status_locked zone_idx (note_top_slot zone_idx slot s) in
                            (imr_lsm_record_zone_compaction_candidate s, Ok (new_pba, zone_idx))
                      end
                end
        end
    end.

(** A foreground write of one aligned block; [bio] is not null and not internal
    here. Returns the physical address the bio is remapped to. *)
Definition imrsim_active_write_rule_check (logical_lba bio_sectors : Z) (s : kstate) : kstate * cres Z :=
  if negb (bio_sectors =? 8) || negb (Z.land logical_lba 7 =? 0) then (s, Fail IMR_ERR_WRITE_ALIGN)
  else
    match imr_lsm_append_logical_block_locked logical_lba (imr_lsm_record_logical_write s) with
    | (s, Fail e) => (s, Fail e)
    | (s, Ok (physical_lba, physical_zone)) =>
        let w := write_stats s in
        (set_write_stats (set_write_total (u64 (write_total w + 1))
           (set_z_write_total (upd_fn (z_write_total w) physical_zone (u32 (z_write_total w physical_zone + 1))) w)) s, Ok physical_lba)
    end.

(** ** Deletion *)

Definition imrsim_lsm_delete_key_locked (key : Z) (s : kstate) : kstate * Z :=
  let zone_idx := logical_zone key in
  if negb (imrsim_target_ready_locked s) || (zone_idx >=? IMR_NUMZONES s) then (s, IMR_ERR_OUT_RANGE)
  else
    let block_offset := u64 (key - u64 (Z.shiftl zone_idx IMR_ZONE_SIZE_SHIFT)) in
    if block_offset >=? TOTAL_ITEMS then (s, IMR_ERR_OUT_RANGE)
    else
      let old_mapping := imr_lsm_forward_map_lookup_locked key s in
      let physical_zone := match old_mapping with Some old_pba => imrsim_lba_zone_idx old_pba | None => 0 end in
      let stale := match old_mapping with
                   | Some _ => (physical_zone >=? IMR_NUMZONES s) ||
                               match zone physical_zone s with Some z => z_live_count z =? 0 | None => true end
                   | None => false
                   end in
      if stale then (s, - EUCLEAN)
      else
        match imr_lsm_delete_locked key s with
        | (s, ret) =>
            if negb (ret =? 0) then (s, ret)
            else
              let s := upd_zone zone_idx (fun z => set_z_pba_map (upd_fn (z_pba_map z) block_offset (-1)) z) s in
              let s := imrsim_ptask_queue_zone_status_locked zone_idx s in
              (match old_mapping with
               | Some _ =>
                   let s := upd_zone physical_zone (fun z => set_z_live_count (u32 (z_live_count z - 1)) z) s in
                   let s := imrsim_ptask_queue_zone_status_locked physical_zone s in
                   defer_candidate (imr_lsm_record_zone_compaction_candidate_locked s)
               | None => s
               end, 0)
        end.

(** The last sector of a range, saturated. *)
Definition range_last (lba sectors : Z) : Z :=
  if sectors =? 0 then lba else if lba >? U64_MAX - (sectors - 1) then U64_MAX else lba + sectors - 1.

(** Whether a logical range meets one of the two zones of a copy. *)
Definition zones_of_range_meet (lba sectors source dest : Z) : bool :=
  let first_zone := Z.shiftr (Z.shiftr lba IMR_BLOCK_SIZE_SHIFT) IMR_ZONE_SIZE_SHIFT in
  let last_zone := Z.shiftr (Z.shiftr (range_last lba sectors) IMR_BLOCK_SIZE_SHIFT) IMR_ZONE_SIZE_SHIFT in
  ((first_zone <=? source) && (source <=? last_zone)) || ((first_zone <=? dest) && (dest <=? last_zone)).

Definition imr_lsm_zone_copy_overlaps_locked (lba sectors : Z) (s : kstate) : bool :=
  if negb (copy_active s) then false else zones_of_range_meet lba sectors (copy_source s) (copy_dest s).

Definition imr_lsm_zone_copy_wait_done (lba sectors : Z) (s : kstate) : bool :=
  if negb (copy_active s) || negb (target_active s) then true
  else negb (zones_of_range_meet lba sectors (copy_source s) (copy_dest s)).

(** [None] while the caller waits for a zone copy. *)
Definition imrsim_lsm_delete_key (key : Z) (s : kstate) : option (kstate * Z) :=
  let zone_lba := u64 (Z.shiftl (u64 (Z.shiftl (logical_zone key) IMR_BLOCK_SIZE_SHIFT)) IMR_ZONE_SIZE_SHIFT) in
  if negb (imrsim_target_ready_locked s) then Some (s, - ENODEV)
  else if imr_lsm_zone_copy_overlaps_locked zone_lba 1 s then None
  else Some (imrsim_lsm_delete_key_locked key s).

(** [count] keys from [key] on are deleted; the first failure stops. *)
Fixpoint discard_loop (count : nat) (key : Z) (s : kstate) : kstate * Z :=
  match count with
  | O => (s, 0)
  | S count =>
      match imrsim_lsm_delete_key_locked key s with
      | (s, ret) => if negb (ret =? 0) then (s, ret) else discard_loop count (u64 (key + 1)) s
      end
  end.

Definition imrsim_lsm_discard_lba_range_locked (lba sectors : Z) (s : kstate) : kstate * Z :=
  let s := st_inc "discard_bio_count" (ensure_initialized s) in
  let s := st_sets [("last_discard_lba", lba); ("last_discard_sectors", sectors); ("last_discard_error", 0)]%string s in
  let first_key := Z.shiftr lba IMR_BLOCK_SIZE_SHIFT in
  let block_count := Z.shiftr sectors IMR_BLOCK_SIZE_SHIFT in
  let last_key := u64 (u64 (first_key + block_count) - 1) in
  let '(s, ret) :=
    if negb (imrsim_target_ready_locked s) then (s, - ENODEV)
    else if (sectors =? 0) || negb (Z.land (Z.lor lba sectors) 7 =? 0) then (s, - EINVAL)
    else if sectors >? IMR_MAX_DISCARD_BLOCKS * 8 then (s, - E2BIG)
    else if lba >? U64_MAX - (sectors - 1) then (s, - ERANGE)
    else if (last_key <? first_key) || (last_key >=? u64 (Z.shiftl (IMR_NUMZONES s) IMR_ZONE_SIZE_SHIFT)) then (s, IMR_ERR_OUT_RANGE)
    else discard_loop (Z.to_nat block_count) first_key s in
  let s := st_set "last_discard_error" ret s in
  ((if negb (ret =? 0) then st_inc "discard_delete_failed_count" s else st_inc "discard_delete_count" s), ret).
