(* ===== verification/ImrGc.v ===== *)
(** Garbage collection of physical zones: the live blocks of a sealed zone are
    copied to a free zone, the forward map moves to the copies and the zone is
    reclaimed ([dm-imrsim.c], [struct imr_lsm_zone_compaction_plan], from
    [imr_lsm_record_zone_compaction_result] to [imr_lsm_compact_zone], and
    [imr_lsm_zone_compaction_auto_work]).

    The locks are dropped while blocks are copied, so [imr_lsm_compact_zone] is
    three functions, [compact_zone_begin], the copy and [compact_zone_finish],
    and other operations may run between them and between two copied blocks. *)

From S2P Require Import Prelude StdMap ImrPrelude ImrGeometry ImrBloom ImrState ImrReadTree ImrLevels ImrSegment ImrPlacement ImrAccounting ImrLsm ImrCompaction ImrZones.

Definition EOPNOTSUPP : Z := 95.
Definition IMR_SECTOR_SIZE_SHIFT_DEFAULT : Z := 9.
(** [PAGE_SIZE] of x86-64. *)
Definition PAGE_SIZE : Z := 4096.

(** ** The device

    The backing device by 4 KiB block: the eight sectors of the block that starts
    at a sector. The result of each internal page I/O comes from a script of return
    codes (a failed [bio_alloc], a failed [bio_add_page] or the error of the
    block layer; 0 once the script is used up). A failed write leaves the data of
    the script in the block. *)
Definition block : Type := list Z.
Record device := MkDevice { dv_blocks : Z -> block; dv_script : list (Z * block) }.

Definition imrsim_submit_internal_page_io (d : device) : device * (Z * block) :=
  match dv_script d with [] => (d, (0, [])) | e :: r => (MkDevice (dv_blocks d) r, e) end.
Definition imrsim_read_page (sector : Z) (d : device) : device * cres block :=
  let '(d, (ret, _)) := imrsim_submit_internal_page_io d in (d, if ret <? 0 then Fail ret else Ok (dv_blocks d sector)).
Definition imrsim_write_page (sector : Z) (data : block) (d : device) : device * Z :=
  let '(d, (ret, torn)) := imrsim_submit_internal_page_io d in
  if ret <? 0 then (MkDevice (upd_fn (dv_blocks d) sector torn) (dv_script d), ret)
  else (MkDevice (upd_fn (dv_blocks d) sector data) (dv_script d), 0).

(** The same requests for data pages, without the flags that flush the device cache. *)
Definition imrsim_read_data_page (sector : Z) (d : device) : device * cres block := imrsim_read_page sector d.
Definition imrsim_write_data_page (sector : Z) (data : block) (d : device) : device * Z := imrsim_write_page sector data d.

(** ** The plan *)

Record zone_plan := MkZonePlan {
  zp_builder : builder;
  zp_bdev : option Z;
  zp_bdev_start : Z;
  zp_source_zone : Z;
  zp_dest_zone0 : Z;
  zp_dest_zone1 : Z;
  zp_block_bytes : Z;
  zp_input_entries : Z;
  zp_live_entries : Z;
  zp_skipped_entries : Z;
  zp_copied_entries : Z;
  zp_failed_entries : Z;
  zp_output_start : Z;
  zp_output_end : Z;
}.

(** [struct imr_lsm_zone_compaction_plan plan = {0}] with its three zones. *)
Definition empty_zone_plan (source_zone : Z) : zone_plan :=
  MkZonePlan empty_builder None 0 source_zone IMR_LSM_ZONE_COMPACTION_NONE IMR_LSM_ZONE_COMPACTION_NONE 0 0 0 0 0 0 0 0.
Definition set_zp_dest_zone0 v (p : zone_plan) : zone_plan :=
  MkZonePlan (zp_builder p) (zp_bdev p) (zp_bdev_start p) (zp_source_zone p) v (zp_dest_zone1 p) (zp_block_bytes p)
    (zp_input_entries p) (zp_live_entries p) (zp_skipped_entries p) (zp_copied_entries p) (zp_failed_entries p)
    (zp_output_start p) (zp_output_end p).
Definition set_zp_input bytes entries (p : zone_plan) : zone_plan :=
  MkZonePlan (zp_builder p) (zp_bdev p) (zp_bdev_start p) (zp_source_zone p) (zp_dest_zone0 p) (zp_dest_zone1 p) bytes
    entries (zp_live_entries p) (zp_skipped_entries p) (zp_copied_entries p) (zp_failed_entries p) (zp_output_start p)
    (zp_output_end p).
Definition set_zp_bdev b start (p : zone_plan) : zone_plan :=
  MkZonePlan (zp_builder p) b start (zp_source_zone p) (zp_dest_zone0 p) (zp_dest_zone1 p) (zp_block_bytes p)
    (zp_input_entries p) (zp_live_entries p) (zp_skipped_entries p) (zp_copied_entries p) (zp_failed_entries p)
    (zp_output_start p) (zp_output_end p).
Definition set_zp_builder b (p : zone_plan) : zone_plan :=
  MkZonePlan b (zp_bdev p) (zp_bdev_start p) (zp_source_zone p) (zp_dest_zone0 p) (zp_dest_zone1 p) (zp_block_bytes p)
    (zp_input_entries p) (zp_live_entries p) (zp_skipped_entries p) (zp_copied_entries p) (zp_failed_entries p)
    (zp_output_start p) (zp_output_end p).
Definition skip_entry (p : zone_plan) : zone_plan :=
  MkZonePlan (zp_builder p) (zp_bdev p) (zp_bdev_start p) (zp_source_zone p) (zp_dest_zone0 p) (zp_dest_zone1 p)
    (zp_block_bytes p) (zp_input_entries p) (zp_live_entries p) (u32 (zp_skipped_entries p + 1)) (zp_copied_entries p)
    (zp_failed_entries p) (zp_output_start p) (zp_output_end p).
(** One more live entry, which goes to [dest_pba]. *)
Definition live_entry (b : builder) (dest_pba : Z) (p : zone_plan) : zone_plan :=
  let first := zp_live_entries p =? 0 in
  let last_sector := u64 (dest_pba + 7) in
  MkZonePlan b (zp_bdev p) (zp_bdev_start p) (zp_source_zone p) (zp_dest_zone0 p) (zp_dest_zone1 p) (zp_block_bytes p)
    (zp_input_entries p) (u32 (zp_live_entries p + 1)) (zp_skipped_entries p) (zp_copied_entries p) (zp_failed_entries p)
    (if first || (dest_pba <? zp_output_start p) then dest_pba else zp_output_start p)
    (if first || (last_sector >? zp_output_end p) then last_sector else zp_output_end p).
Definition copied_entry (p : zone_plan) : zone_plan :=
  MkZonePlan (zp_builder p) (zp_bdev p) (zp_bdev_start p) (zp_source_zone p) (zp_dest_zone0 p) (zp_dest_zone1 p)
    (zp_block_bytes p) (zp_input_entries p) (zp_live_entries p) (zp_skipped_entries p) (u32 (zp_copied_entries p + 1))
    (zp_failed_entries p) (zp_output_start p) (zp_output_end p).
Definition failed_entry (p : zone_plan) : zone_plan :=
  MkZonePlan (zp_builder p) (zp_bdev p) (zp_bdev_start p) (zp_source_zone p) (zp_dest_zone0 p) (zp_dest_zone1 p)
    (zp_block_bytes p) (zp_input_entries p) (zp_live_entries p) (zp_skipped_entries p) (zp_copied_entries p)
    (u32 (zp_failed_entries p + 1)) (zp_output_start p) (zp_output_end p).

Definition imr_lsm_record_zone_compaction_result (p : zone_plan) (error : Z) : kstate -> kstate :=
  st_sets [("last_zone_compaction_source_zone", zp_source_zone p); ("last_zone_compaction_dest_zone0", zp_dest_zone0 p);
           ("last_zone_compaction_dest_zone1", zp_dest_zone1 p); ("last_zone_compaction_input_entries", zp_input_entries p);
           ("last_zone_compaction_live_entries", zp_live_entries p); ("last_zone_compaction_skipped_entries", zp_skipped_entries p);
           ("last_zone_compaction_copied_entries", zp_copied_entries p); ("last_zone_compaction_failed_entries", zp_failed_entries p);
           ("last_zone_compaction_error", error); ("last_zone_compaction_output_pba_start", zp_output_start p);
           ("last_zone_compaction_output_pba_end", zp_output_end p)]%string.

(** ** Preparation *)

(** [sort] of the block table: any stable or unstable sort gives the same table,
    the keys of the entries being distinct. *)
Fixpoint insert_entry (e : block_entry) (t : list block_entry) : list block_entry :=
  match t with
  | [] => [e]
  | x :: r => if imr_lsm_block_entry_key_compare e x <=? 0 then e :: t else x :: insert_entry e r
  end.
Definition sort_entries (t : list block_entry) : list block_entry := foldr insert_entry [] t.

(** The scan of the append slots of the source zone. *)
Definition plan_slot (slot : Z) (p : zone_plan) (s : kstate) : kstate * zone_plan * Z :=
  match zone (zp_source_zone p) s with
  | None => (s, p, - EINVAL)
  | Some z =>
      let key := z_key_map z slot in
      if key =? IMR_LSM_KEY_EMPTY then (s, skip_entry p, 0)
      else
        let source_pba := imr_lsm_zone_append_pba (zp_source_zone p) slot in
        if negb match imr_lsm_forward_map_lookup_locked key s with Some mapped_pba => mapped_pba =? source_pba | None => false end
        then (s, skip_entry p, 0)
        else if zp_live_entries p >=? TOTAL_ITEMS then (s, p, - ENOSPC)
        else
          let dest_pba := imr_lsm_zone_append_pba (zp_dest_zone0 p) (zp_live_entries p) in
          let ts := u64 (timestamp (meta s) + 1) in
          let s := upd_meta (set_timestamp ts) s in
          match imr_lsm_segment_builder_append_zone_gc (imr_lsm_compaction_threshold_locked s) (zp_builder p) key dest_pba
                  source_pba (zp_dest_zone0 p) ts (hp s) with
          | (h, Fail e) => (set_hp h s, p, e)
          | (h, Ok b) => (set_hp h s, live_entry b dest_pba p, 0)
          end
  end.
Fixpoint plan_slots (count : nat) (slot : Z) (p : zone_plan) (s : kstate) : kstate * zone_plan * Z :=
  match count with
  | O => (s, p, 0)
  | S count =>
      match plan_slot slot p s with
      | (s, p, ret) => if negb (ret =? 0) then (s, p, ret) else plan_slots count (slot + 1) p s
      end
  end.

(** The destination: the zone the candidate advertises while it is still free,
    or else any free zone. *)
Definition plan_dest (source_zone : Z) (s : kstate) : kstate * Z :=
  let advertised := stat "zone_compaction_candidate_dest_zone" s in
  if (stat "zone_compaction_candidate_zone" s =? source_zone) && negb (advertised =? IMR_LSM_ZONE_COMPACTION_NONE) &&
     imr_lsm_zone_is_free_locked advertised s
  then (s, advertised) else imr_lsm_find_free_zone_locked source_zone s.

Definition imr_lsm_prepare_zone_compaction_locked (source_zone : Z) (s : kstate) : kstate * zone_plan * Z :=
  let p := empty_zone_plan source_zone in
  match zone source_zone s with
  | None => (s, p, - EINVAL)
  | Some z =>
      if source_zone >=? IMR_NUMZONES s then (s, p, - EINVAL)
      else if (source_zone =? active_zone (alloc s)) || (negb (z_conds z =? Z_COND_FULL) && negb (z_conds z =? Z_COND_CLOSED)) ||
              (z_map_size z =? 0) then (s, p, - EINVAL)
      else
        let '(s, dest) := plan_dest source_zone s in
        let p := set_zp_dest_zone0 dest p in
        if dest =? IMR_LSM_ZONE_COMPACTION_NONE then (s, p, - ENOSPC)
        else
          let block_bytes := u32 (Z.shiftl (u32 (Z.shiftl 1 IMR_BLOCK_SIZE_SHIFT)) IMR_SECTOR_SIZE_SHIFT_DEFAULT) in
          let p := set_zp_input block_bytes (z_map_size z) p in
          if block_bytes >? PAGE_SIZE then (s, p, - EOPNOTSUPP)
          else
            match output_bdev s with
            | None => (s, p, - ENODEV)
            | Some b =>
                let p := set_zp_bdev (Some b) (output_bdev_start s) p in
                match plan_slots (Z.to_nat (zp_input_entries p)) 0 p s with
                | (s, p, ret) =>
                    if negb (ret =? 0) then (s, p, ret)
                    else if negb (match zone source_zone s with Some z => zp_live_entries p =? z_live_count z | None => false end)
                    then (s, p, - EUCLEAN)
                    else
                      let b := zp_builder p in
                      (s, (if lenZ (sb_table b) >? 1 then set_zp_builder (set_table (sort_entries (sb_table b)) (sb_capacity b) b) p else p), 0)
                end
            end
  end.

(** ** Copying *)

(** The flag says whether a block was written. *)
Definition imr_lsm_copy_zone_compaction_block (bdev : option Z) (bdev_start source_pba dest_pba : Z) (d : device) : device * Z * bool :=
  if source_pba =? dest_pba then (d, 0, false)
  else
    match bdev with
    | None => (d, - ENODEV, false)
    | Some _ =>
        match imrsim_read_page (u64 (bdev_start + source_pba)) d with
        | (d, Fail e) => (d, e, false)
        | (d, Ok data) =>
            let '(d, ret) := imrsim_write_page (u64 (bdev_start + dest_pba)) data d in
            if ret <? 0 then (d, ret, false) else (d, 0, true)
        end
    end.

(** One iteration of the copy; [active] is [imrsim_single ==
    IMRSIM_TARGET_ACTIVE] as the loop reads it. *)
Definition copy_entry (active : bool) (e : block_entry) (p : zone_plan) (d : device) : device * zone_plan * Z :=
  if negb active then (d, failed_entry p, - ENODEV)
  else
    let '(d, ret, copied) := imr_lsm_copy_zone_compaction_block (zp_bdev p) (zp_bdev_start p) (be_source_pba e) (be_pba e) d in
    if negb (ret =? 0) then (d, failed_entry p, ret) else (d, if (copied : bool) then copied_entry p else p, 0).
Fixpoint copy_entries (active : bool) (l : list block_entry) (p : zone_plan) (d : device) : device * zone_plan * Z :=
  match l with
  | [] => (d, p, 0)
  | e :: l =>
      match copy_entry active e p d with
      | (d, p, ret) => if negb (ret =? 0) then (d, p, ret) else copy_entries active l p d
      end
  end.

Definition imr_lsm_execute_zone_compaction_copy (p : zone_plan) (s : kstate) (d : device) : kstate * device * zone_plan * Z :=
  match st_alloc s with
  | (s, None) => (s, d, p, - ENOMEM)
  | (s, Some _) =>
      let '(d, p, ret) := copy_entries (target_active s) (sb_table (zp_builder p)) p d in (s, d, p, ret)
  end.

(** ** Publication *)

(** One copied entry: the reverse map always records it; the forward map moves
    only if it still names the source block. *)
Definition commit_entry (p : zone_plan) (e : block_entry) (committed : Z) (s : kstate) : kstate * Z * Z :=
  match imr_lsm_zone_append_slot (zp_dest_zone0 p) (be_pba e) with
  | Fail err => (s, committed, err)
  | Ok dest_slot =>
      let s := upd_zone (zp_dest_zone0 p) (fun z => set_z_key_map (upd_fn (z_key_map z) dest_slot (u32 (be_key e))) z) s in
      let '(s, committed, ret) :=
        if match imr_lsm_forward_map_lookup_locked (be_key e) s with Some mapped_pba => mapped_pba =? be_source_pba e | None => false end
        then match imr_lsm_forward_map_set_locked (be_key e) (be_pba e) s with
             | (s, ret) => if negb (ret =? 0) then (s, committed, ret) else (s, u32 (committed + 1), 0)
             end
        else (s, committed, 0) in
      if negb (ret =? 0) then (s, committed, ret)
      else
        let s := (imr_lsm_newest_index_update_locked (be_key e) (be_timestamp e) (be_valid e) s).1 in
        (imr_lsm_tree_update_locked (be_key e) (be_pba e) (be_valid e) (be_timestamp e) s, committed, 0)
  end.
(** The entries [j], [j + 1], ... of the published segment [i]. *)
Fixpoint commit_entries (p : zone_plan) (i : nat) (count j : nat) (committed : Z) (s : kstate) : kstate * Z * Z :=
  match count with
  | O => (s, committed, 0)
  | S count =>
      match entry_at (i, j) s with
      | None => (s, committed, 0)
      | Some e =>
          match commit_entry p e committed s with
          | (s, committed, ret) => if negb (ret =? 0) then (s, committed, ret) else commit_entries p i count (S j) committed s
          end
      end
  end.

(** The top tracks under the first [live_entries] slots are in use. *)
Definition use_top_slots (live_entries : Z) (z : zone_status) : zone_status :=
  fold_left (fun z t => use_top_block (t / IMR_TOP_TRACK_SIZE) (t mod IMR_TOP_TRACK_SIZE) z)
    (map Z.of_nat (seq 0 (Z.to_nat (live_entries - imr_lsm_bottom_range_blocks)))) z.

(** The write pointer, counters and condition of the destination zone. *)
Definition seal_dest (p : zone_plan) (committed : Z) (s : kstate) : kstate :=
  let live := zp_live_entries p in
  let dest := zp_dest_zone0 p in
  let s := upd_zone dest (fun z => set_z_live_count committed (set_z_map_size live z)) s in
  let s :=
    if negb (live =? 0) then
      let s := upd_zone dest (set_z_generation (next_generation (alloc s))) s in
      let s := set_alloc (set_next_generation (u64 (next_generation (alloc s) + 1)) (alloc s)) s in
      if (live <? TOTAL_ITEMS) && (active_zone (alloc s) =? IMR_LSM_ZONE_COMPACTION_NONE)
      then set_alloc (set_active_zone dest (alloc s)) (upd_zone dest (set_z_conds Z_COND_OPEN) s)
      else upd_zone dest (set_z_conds (if live =? TOTAL_ITEMS then Z_COND_FULL else Z_COND_CLOSED)) s
    else upd_zone dest (fun z => set_z_conds Z_COND_EMPTY (set_z_generation 0 z)) s in
  let s := imr_lsm_clear_zone_top_usage dest s in
  if live >? imr_lsm_bottom_range_blocks then upd_zone dest (use_top_slots live) s else s.

(** Incremental accounting of the new segment, or a fresh selection without one. *)
Definition account_output (new_segment : option nat) (s : kstate) : kstate :=
  let refresh s := imr_lsm_update_segment_compaction_selection_locked (imr_lsm_refresh_max_obsolete_ratio_locked s) in
  match new_segment with
  | Some i => match imr_lsm_account_new_segment_invalid_stats_locked i s with (s, true) => refresh s | (s, false) => s end
  | None => refresh s
  end.

(** The statistics of a published plan; its candidate is done. *)
Definition count_published (p : zone_plan) (committed : Z) (s : kstate) : kstate :=
  let s := st_add "zone_compaction_committed_entries_total" committed
    (st_add "zone_compaction_copied_entries_total" (zp_copied_entries p)
      (st_add "zone_compaction_skipped_entries_total" (zp_skipped_entries p)
        (st_add "zone_compaction_live_entries_total" (zp_live_entries p)
          (st_add "zone_compaction_input_entries_total" (zp_input_entries p) (st_inc "zone_compaction_count" s))))) in
  imr_lsm_clear_zone_compaction_candidate_locked (zp_source_zone p) (imr_lsm_record_zone_compaction_result p 0 s).

(** The publication once the segment is linked. *)
Definition publish_linked (p : zone_plan) (new_segment : option nat) (s : kstate) : kstate * zone_plan * Z :=
  let s := imrsim_ptask_queue_zone_status_locked (zp_source_zone p) s in
  let s := imrsim_ptask_queue_zone_status_locked (zp_dest_zone0 p) s in
  let s := upd_zone (zp_dest_zone0 p) (set_z_key_map (fun _ => IMR_LSM_KEY_EMPTY)) s in
  let '(s, committed, ret) :=
    match new_segment with
    | Some i => commit_entries p i (match seg i s with Some g => length (sg_table g) | None => 0%nat end) 0 0 s
    | None => (s, 0, 0)
    end in
  if negb (ret =? 0) then (s, p, ret)
  else
    let s := imr_lsm_reclaim_physical_zone_locked (zp_source_zone p) (seal_dest p committed s) in
    (count_published p committed (account_output new_segment s), p, 0).

Definition imr_lsm_publish_zone_compaction_locked (p : zone_plan) (s : kstate) : kstate * zone_plan * Z :=
  if negb (imrsim_target_ready_locked s) ||
     negb (match zp_bdev p, output_bdev s with Some a, Some b => a =? b | None, None => true | _, _ => false end) ||
     negb (zp_bdev_start p =? output_bdev_start s) then (s, p, - ENODEV)
  else if negb (lenZ (sb_table (zp_builder p)) =? 0) then
    let '(s, b, ret) := imr_lsm_append_segment_with_accounting_locked IMR_LSM_MAX_LEVEL IMR_LSM_TRACK_BOTTOM (zp_builder p) false s in
    let p := set_zp_builder b p in
    if negb (ret =? 0) then (s, p, ret) else publish_linked p (Some (pred (length (segments (meta s))))) s
  else publish_linked p None s.

Definition imr_lsm_record_zone_compaction_failure_locked (p : zone_plan) (ret : Z) (s : kstate) : kstate :=
  imr_lsm_record_zone_compaction_result p ret
    (st_add "zone_compaction_failed_entries_total" (zp_failed_entries p) (st_inc "zone_compaction_failed_count" s)).

(** ** A whole collection *)

Definition imr_lsm_reserve_zone_copy_locked (source dest : Z) (s : kstate) : kstate :=
  set_copy_active true (set_copy_dest dest (set_copy_source source s)).
Definition imr_lsm_release_zone_copy_locked (s : kstate) : kstate :=
  set_copy_dest IMR_LSM_ZONE_COMPACTION_NONE (set_copy_source IMR_LSM_ZONE_COMPACTION_NONE (set_copy_active false s)).

(** Up to the reservation of the two zones; [Fail] ends the collection. *)
Definition compact_zone_begin (source_zone : Z) (s : kstate) : kstate * cres zone_plan :=
  if negb (imrsim_target_ready_locked s) then (s, Fail (- ENODEV))
  else if append_writes_inflight s >? 0 then (s, Fail (- EBUSY))
  else
    match imr_lsm_prepare_zone_compaction_locked source_zone (ensure_initialized s) with
    | (s, p, ret) =>
        if negb (ret =? 0) then (imr_lsm_record_zone_compaction_failure_locked p ret s, Fail ret)
        else (imr_lsm_reserve_zone_copy_locked (zp_source_zone p) (zp_dest_zone0 p) s, Ok p)
    end.

(** After the copy, which returned [ret]. *)
Definition compact_zone_finish (p : zone_plan) (ret : Z) (s : kstate) : kstate * Z :=
  let '(s, p, ret) := if ret =? 0 then imr_lsm_publish_zone_compaction_locked p s else (s, p, ret) in
  let s := if negb (ret =? 0) then imr_lsm_record_zone_compaction_failure_locked p ret s else s in
  let s := imr_lsm_release_zone_copy_locked s in
  (if ret =? 0 then imr_lsm_record_zone_compaction_candidate_locked s else s, ret).

(** Without other operations in between. *)
Definition imr_lsm_compact_zone (source_zone : Z) (s : kstate) (d : device) : kstate * device * Z :=
  match compact_zone_begin source_zone s with
  | (s, Fail e) => (s, d, e)
  | (s, Ok p) =>
      let '(s, d, p, ret) := imr_lsm_execute_zone_compaction_copy p s d in
      let '(s, ret) := compact_zone_finish p ret s in (s, d, ret)
  end.

(** ** The automatic worker *)

(** The zone to collect, if the worker runs. *)
Definition auto_work_begin (s : kstate) : kstate * option Z :=
  if negb (imrsim_target_ready_locked s) || (append_writes_inflight s >? 0) then (s, None)
  else if negb (initialized (meta s)) || negb (zone_compaction_auto_run (meta s)) || negb (zone_compaction_auto_pending (meta s))
  then (s, None)
  else
    let zone_idx := zone_compaction_auto_pending_zone (meta s) in
    let s := imr_lsm_clear_zone_compaction_auto_pending_locked zone_idx s in
    if (stat "zone_compaction_candidate_zone" s =? zone_idx) && negb (stat "zone_compaction_candidate_ready" s =? 0) &&
       negb (zone_compaction_auto_running (meta s))
    then (st_set "last_zone_compaction_auto_run_zone" zone_idx (upd_meta (set_zone_compaction_auto_running true) s), Some zone_idx)
    else (s, None).

(** After [imr_lsm_compact_zone] returned [ret]; says whether the work is queued again. *)
Definition auto_work_finish (zone_idx ret : Z) (s : kstate) : kstate * bool :=
  let s := upd_meta (set_zone_compaction_auto_running false) s in
  let s := if ret =? - EBUSY then st_inc "zone_compaction_auto_busy_retry_count" s
           else if negb (ret =? 0) then st_inc "zone_compaction_auto_run_failed_count" (st_set "last_zone_compaction_auto_run_error" ret s)
           else st_inc "zone_compaction_auto_run_count" (st_set "last_zone_compaction_auto_run_error" 0 s) in
  let candidate := stat "zone_compaction_candidate_zone" s in
  if negb (candidate =? IMR_LSM_ZONE_COMPACTION_NONE) && ((ret =? - EBUSY) || negb (candidate =? zone_idx))
  then imr_lsm_defer_zone_compaction_auto_run_locked candidate s else (s, false).

Definition imr_lsm_zone_compaction_auto_work (s : kstate) (d : device) : kstate * device * bool :=
  match auto_work_begin s with
  | (s, None) => (s, d, false)
  | (s, Some zone_idx) =>
      let '(s, d, ret) := imr_lsm_compact_zone zone_idx s d in
      let '(s, queued) := auto_work_finish zone_idx ret s in (s, d, queued)
  end.
