(* ===== verification/ImrTarget.v ===== *)
(** The persistent zone state of the target: its size, and its initialisation
    ([dm-imrsim.c], [imrsim_stats_size] to [imrsim_state_persistence_bytes] and
    [imrsim_init_zone_default] to [imrsim_init_zone_state]; the structures of
    [imrsim_types.h] laid out for x86-64). *)

From S2P Require Import Prelude StdMap ImrPrelude ImrGeometry ImrBloom ImrState ImrReadTree ImrLevels ImrSegment ImrPlacement ImrAccounting ImrLsm ImrZones ImrGc.

Definition Z_TYPE_SEQUENTIAL : Z := 2.
Definition IMR_MAX_CAPACITY : Z := 21474836480.

(** ** Sizes *)

(** [offsetof(struct imrsim_state, stats)]: a header of 16 bytes and a
    configuration of 12, aligned to 8. *)
Definition offset_stats : Z := 32.
(** [offsetof(struct imrsim_stats, zone_stats)] and [sizeof(struct imrsim_zone_stats)]. *)
Definition offset_zone_stats : Z := 32.
Definition sizeof_zone_stats : Z := 20.
(** [sizeof(struct imrsim_zone_status)]: the fields before the tracks, the
    tracks, the counters, and the two maps. *)
Definition sizeof_zone_status : Z := 16 + 64 * 456 + 16 + 4 * TOTAL_ITEMS + 4 * TOTAL_ITEMS.
Definition alignof_zone_status : Z := 8.

Definition imrsim_stats_size (num_zones : Z) : Z := u32 (offset_zone_stats + sizeof_zone_stats * num_zones).

(** The offset of [zone_status[0]] in the state. *)
Definition imrsim_zone_status_ptr (num_zones : Z) : Z :=
  let size := offset_stats + offset_zone_stats + sizeof_zone_stats * num_zones in
  Z.land (size + alignof_zone_status - 1) (Z.lnot (alignof_zone_status - 1)).

Definition imrsim_state_size_for_zones (num_zones : Z) : cres Z :=
  let size := offset_stats + offset_zone_stats in
  let size := size + sizeof_zone_stats * num_zones in
  let size := Z.land (size + alignof_zone_status - 1) (Z.lnot (alignof_zone_status - 1)) in
  let size := size + sizeof_zone_status * num_zones in
  let size := size + 4 in
  if (size >? U32_MAX) || (size >? U64_MAX - (PAGE_SIZE - 1)) then Fail (- EOVERFLOW) else Ok size.

Definition imrsim_state_persistence_bytes (state_size : Z) : Z := (state_size + PAGE_SIZE - 1) / PAGE_SIZE * PAGE_SIZE.

(** ** Initialisation *)

Definition default_zone (i : Z) : zone_status :=
  MkZone i num_sectors_zone Z_COND_EMPTY Z_TYPE_SEQUENTIAL 0 (fun _ _ => 0) 0 0 0 (fun _ => -1) (fun _ => IMR_LSM_KEY_EMPTY).

(** [zone_state] and [zone_status] with the number of zones. *)
Definition set_zone_state (n : Z) (zs : option (list zone_status)) (s : kstate) : kstate :=
  MkState (meta s) (cfg s) (metadata_epoch s) (output_bdev s) (target_active s) (match zs with Some _ => true | None => false end) zs n (alloc s) (ptask s)
    (copy_active s) (copy_source s) (copy_dest s) (output_bdev_start s) (append_writes_inflight s) (write_stats s) (hp s).
Definition set_numzones (n : Z) (s : kstate) : kstate :=
  MkState (meta s) (cfg s) (metadata_epoch s) (output_bdev s) (target_active s) (zone_state_set s) (zones s) n (alloc s) (ptask s)
    (copy_active s) (copy_source s) (copy_dest s) (output_bdev_start s) (append_writes_inflight s) (write_stats s) (hp s).

(** [imr_lsm_output_bdev] with [imr_lsm_output_bdev_start], and [imrsim_single]. *)
Definition set_output_bdev (b : option Z) (start : Z) (s : kstate) : kstate :=
  MkState (meta s) (cfg s) (metadata_epoch s) b (target_active s) (zone_state_set s) (zones s) (IMR_NUMZONES s) (alloc s) (ptask s)
    (copy_active s) (copy_source s) (copy_dest s) start (append_writes_inflight s) (write_stats s) (hp s).
Definition set_target_active (v : bool) (s : kstate) : kstate :=
  MkState (meta s) (cfg s) (metadata_epoch s) (output_bdev s) v (zone_state_set s) (zones s) (IMR_NUMZONES s) (alloc s) (ptask s)
    (copy_active s) (copy_source s) (copy_dest s) (output_bdev_start s) (append_writes_inflight s) (write_stats s) (hp s).

Definition imrsim_init_zone_default (sizedev : Z) (s : kstate) : kstate :=
  set_numzones (u32 (Z.shiftr (Z.shiftr sizedev IMR_BLOCK_SIZE_SHIFT) IMR_ZONE_SIZE_SHIFT)) s.

Definition imrsim_reset_stats_locked (s : kstate) : kstate := set_write_stats zero_wstats s.

Definition imrsim_init_zone_state_default (s : kstate) : kstate :=
  let s := imr_lsm_allocator_reset_locked (imrsim_reset_stats_locked s) in
  set_zone_state (IMR_NUMZONES s) (Some (map default_zone (zone_ids s))) s.

Definition imrsim_init_zone_state (sizedev : Z) (s : kstate) : kstate * Z :=
  if sizedev =? 0 then (s, - EINVAL)
  else
    let s := imrsim_init_zone_default sizedev s in
    match imrsim_state_size_for_zones (IMR_NUMZONES s) with
    | Fail e => (s, e)
    | Ok _ =>
        let s := set_zone_state (IMR_NUMZONES s) None s in
        match st_alloc s with
        | (s, None) => (s, - ENOMEM)
        | (s, Some _) => (imr_lsm_initialize_metadata_locked (imrsim_init_zone_state_default s), 0)
        end
    end.
