(* ===== verification/ImrImage.v ===== *)
(** The memory image of [struct imrsim_state] ([imrsim_types.h]), byte by byte for
    x86-64: how the zone state of the target lies in memory, and what the code
    reads back from such memory.

    The structure is allocated zeroed, so its padding is zero. *)

From S2P Require Import Prelude StdMap ImrPrelude ImrGeometry ImrBloom ImrState ImrReadTree ImrLevels ImrSegment ImrPlacement ImrAccounting ImrLsm ImrZones ImrGc ImrTarget.

(** ** Memory *)

(** A memory is a function from offsets to bytes. *)
Definition memory : Type := Z -> Z.

(** Byte [i] of a little-endian integer, and the integer of [n] bytes. *)
Definition byte_of (v i : Z) : Z := Z.land (Z.shiftr v (8 * i)) 255.
Fixpoint get_le (n : nat) (m : memory) (off : Z) : Z :=
  match n with
  | O => 0
  | S n => m off + 256 * get_le n m (off + 1)
  end.
Definition get16 (m : memory) (off : Z) : Z := get_le 2 m off.
Definition get32 (m : memory) (off : Z) : Z := get_le 4 m off.
Definition get64 (m : memory) (off : Z) : Z := get_le 8 m off.

(** A structure: the offset, the width and the value of each field. *)
Definition struct : Type := list (Z * Z * Z).
Fixpoint struct_byte (fs : struct) (o : Z) : Z :=
  match fs with
  | [] => 0
  | (off, width, v) :: fs => if (off <=? o) && (o <? off + width) then byte_of v (o - off) else struct_byte fs o
  end.

(** ** The state of the target *)

Record dev_config := MkDevConfig {
  out_of_policy_read_flag : Z;
  out_of_policy_write_flag : Z;
  r_time_to_rmw_zone : Z;
  w_time_to_rmw_zone : Z;
}.

Record state_header := MkHeader { hd_magic : Z; hd_length : Z; hd_version : Z; hd_crc32 : Z }.

(** The kernel state with the fields of [zone_state] that the data path does not
    use, and the globals of its persistence. *)
Record target := MkTarget {
  tg_state : kstate;
  tg_header : state_header;
  tg_config : dev_config;
  dev_idle_time_max : Z;
  dev_idle_time_min : Z;
  stats_num_zones : Z;
  IMR_CAPACITY : Z;
  IMR_NUMZONES_DEFAULT : Z;
  pstore_lba : Z;
  imrsim_persistence_capacity_bytes : Z;
}.
Definition set_tg_state s (t : target) : target :=
  MkTarget s (tg_header t) (tg_config t) (dev_idle_time_max t) (dev_idle_time_min t) (stats_num_zones t) (IMR_CAPACITY t) (IMR_NUMZONES_DEFAULT t)
    (pstore_lba t) (imrsim_persistence_capacity_bytes t).
Definition set_tg_header h (t : target) : target :=
  MkTarget (tg_state t) h (tg_config t) (dev_idle_time_max t) (dev_idle_time_min t) (stats_num_zones t) (IMR_CAPACITY t) (IMR_NUMZONES_DEFAULT t)
    (pstore_lba t) (imrsim_persistence_capacity_bytes t).
Definition set_tg_config c (t : target) : target :=
  MkTarget (tg_state t) (tg_header t) c (dev_idle_time_max t) (dev_idle_time_min t) (stats_num_zones t) (IMR_CAPACITY t) (IMR_NUMZONES_DEFAULT t)
    (pstore_lba t) (imrsim_persistence_capacity_bytes t).
Definition set_idle_times max min (t : target) : target :=
  MkTarget (tg_state t) (tg_header t) (tg_config t) max min (stats_num_zones t) (IMR_CAPACITY t) (IMR_NUMZONES_DEFAULT t)
    (pstore_lba t) (imrsim_persistence_capacity_bytes t).
Definition set_stats_num_zones n (t : target) : target :=
  MkTarget (tg_state t) (tg_header t) (tg_config t) (dev_idle_time_max t) (dev_idle_time_min t) n (IMR_CAPACITY t) (IMR_NUMZONES_DEFAULT t)
    (pstore_lba t) (imrsim_persistence_capacity_bytes t).
Definition set_capacity cap num (t : target) : target :=
  MkTarget (tg_state t) (tg_header t) (tg_config t) (dev_idle_time_max t) (dev_idle_time_min t) (stats_num_zones t) cap num
    (pstore_lba t) (imrsim_persistence_capacity_bytes t).
Definition set_pstore_lba lba (t : target) : target :=
  MkTarget (tg_state t) (tg_header t) (tg_config t) (dev_idle_time_max t) (dev_idle_time_min t) (stats_num_zones t) (IMR_CAPACITY t) (IMR_NUMZONES_DEFAULT t)
    lba (imrsim_persistence_capacity_bytes t).
Definition set_persistence_capacity n (t : target) : target :=
  MkTarget (tg_state t) (tg_header t) (tg_config t) (dev_idle_time_max t) (dev_idle_time_min t) (stats_num_zones t) (IMR_CAPACITY t) (IMR_NUMZONES_DEFAULT t)
    (pstore_lba t) n.

Definition STATE_MAGIC : Z := 3203383023.
Definition VERSION : Z := Z.lor (Z.lor (Z.shiftl 1 16) (Z.shiftl 2 8)) 0.
Definition sizeof_state_header : Z := 16.

(** ** The layout *)

(** [struct imrsim_state] up to [stats.zone_stats]. *)
Definition state_struct (t : target) : struct :=
  [(0, 4, hd_magic (tg_header t)); (4, 4, hd_length (tg_header t)); (8, 4, hd_version (tg_header t)); (12, 4, hd_crc32 (tg_header t));
   (16, 4, out_of_policy_read_flag (tg_config t)); (20, 4, out_of_policy_write_flag (tg_config t));
   (24, 2, r_time_to_rmw_zone (tg_config t)); (26, 2, w_time_to_rmw_zone (tg_config t));
   (32, 4, dev_idle_time_max t); (36, 4, dev_idle_time_min t); (40, 4, stats_num_zones t);
   (48, 8, extra_write_total (write_stats (tg_state t))); (56, 8, write_total (write_stats (tg_state t)))].

(** [struct imrsim_zone_stats] of zone [i]. *)
Definition zone_stats_struct (w : wstats) (i : Z) : struct :=
  [(0, 4, z_span_zones_count w i); (4, 4, z_write_span_zones_count w i); (8, 4, z_unaligned_count w i);
   (12, 4, z_extra_write_total w i); (16, 4, z_write_total w i)].

(** [struct imrsim_zone_status]: its fields, and the bytes of its arrays. *)
Definition zone_struct (z : zone_status) : struct :=
  [(0, 8, z_start z); (8, 4, z_length z); (12, 2, z_conds z); (14, 1, z_type z); (15, 1, z_flag z);
   (29200, 4, z_map_size z); (29204, 4, z_live_count z); (29208, 8, z_generation z)].
Definition offset_tracks : Z := 16.
Definition offset_map_size : Z := 29200.
Definition offset_pba_map : Z := 29216.
Definition offset_key_map : Z := 291360.
Definition zone_byte (z : zone_status) (o : Z) : Z :=
  if o <? offset_tracks then struct_byte (zone_struct z) o
  else if o <? offset_map_size then byte_of (z_tracks z ((o - offset_tracks) / IMR_TOP_TRACK_SIZE) ((o - offset_tracks) mod IMR_TOP_TRACK_SIZE)) 0
  else if o <? offset_pba_map then struct_byte (zone_struct z) o
  else if o <? offset_key_map then byte_of (z_pba_map z ((o - offset_pba_map) / 4)) ((o - offset_pba_map) mod 4)
  else byte_of (z_key_map z ((o - offset_key_map) / 4)) ((o - offset_key_map) mod 4).

(** [zone_state] as memory. *)
Definition state_memory (t : target) : memory := fun o =>
  let n := IMR_NUMZONES (tg_state t) in
  let stats := offset_stats + offset_zone_stats in
  let zone_area := imrsim_zone_status_ptr n in
  let tail := zone_area + sizeof_zone_status * n in
  if o <? stats then struct_byte (state_struct t) o
  else if o <? stats + sizeof_zone_stats * n then
    struct_byte (zone_stats_struct (write_stats (tg_state t)) ((o - stats) / sizeof_zone_stats)) ((o - stats) mod sizeof_zone_stats)
  else if o <? zone_area then 0
  else if o <? tail then
    match zone ((o - zone_area) / sizeof_zone_status) (tg_state t) with
    | Some z => zone_byte z ((o - zone_area) mod sizeof_zone_status)
    | None => 0
    end
  else if o <? tail + 4 then byte_of STATE_MAGIC (o - tail)
  else 0.

(** ** Reading it back *)

Definition read_header (m : memory) : state_header := MkHeader (get32 m 0) (get32 m 4) (get32 m 8) (get32 m 12).
Definition read_config (m : memory) : dev_config := MkDevConfig (get32 m 16) (get32 m 20) (get16 m 24) (get16 m 26).
Definition read_num_zones (m : memory) : Z := get32 m 40.
Definition read_stats (m : memory) : wstats :=
  let zone_stats i := offset_stats + offset_zone_stats + sizeof_zone_stats * i in
  MkWstats (get64 m 48) (get64 m 56) (fun i => get32 m (zone_stats i)) (fun i => get32 m (zone_stats i + 4)) (fun i => get32 m (zone_stats i + 8))
    (fun i => get32 m (zone_stats i + 12)) (fun i => get32 m (zone_stats i + 16)).
(** The zone whose status starts at [base]. *)
Definition read_zone (m : memory) (base : Z) : zone_status :=
  MkZone (get64 m base) (get32 m (base + 8)) (get16 m (base + 12)) (m (base + 14)) (m (base + 15))
    (fun track block => m (base + offset_tracks + IMR_TOP_TRACK_SIZE * track + block))
    (get32 m (base + offset_map_size)) (get32 m (base + 29204)) (get64 m (base + 29208))
    (fun j => i32 (get32 m (base + offset_pba_map + 4 * j))) (fun j => get32 m (base + offset_key_map + 4 * j)).
Definition read_zones (m : memory) (n : Z) : list zone_status :=
  map (fun i => read_zone m (imrsim_zone_status_ptr n + sizeof_zone_status * i)) (seqZ 0 n).

(** ** Pages *)

(** A sector of the device holds its 512 bytes as one integer. *)
Definition page_of (m : memory) (off : Z) : block := map (fun k => get_le 512 m (off + 512 * k)) (seqZ 0 8).
Definition page_byte (b : block) (o : Z) : Z := byte_of (default 0 (nthZ b (o / 512))) (o mod 512).
