(* ===== verification/ImrPersist.v ===== *)
(** The persistence of the zone state and the life cycle of the target
    ([dm-imrsim.c], from [imrsim_pstore_page_offset] to
    [imrsim_persistence_thread], [imrsim_ptask_mark_config_change_locked],
    [imrsim_ctr] and [imrsim_dtr]).

    [crc32] is the kernel's checksum of a list of bytes. *)

From S2P Require Import Prelude StdMap ImrPrelude ImrGeometry ImrBloom ImrState ImrReadTree ImrLevels ImrSegment ImrPlacement ImrAccounting ImrLsm ImrZones ImrGc ImrTarget ImrImage.

Definition IMR_CONFIG_CHANGE : Z := 1.
Definition IMR_TRANSFER_PENALTY : Z := 60.

(** ** Initial state *)

Definition default_dev_config : dev_config := MkDevConfig 0 0 IMR_TRANSFER_PENALTY IMR_TRANSFER_PENALTY.

(** The header, the configuration and the totals of [imrsim_init_zone_state_default]. *)
Definition default_fields (state_size : Z) (t : target) : target :=
  set_stats_num_zones (IMR_NUMZONES (tg_state t))
    (set_idle_times 0 0 (set_tg_config default_dev_config (set_tg_header (MkHeader STATE_MAGIC state_size VERSION 0) t))).

(** [imrsim_init_zone_default], which also sets the two globals that outlive the
    zone state. *)
Definition init_zone_default (sizedev : Z) (t : target) : target :=
  let s := imrsim_init_zone_default sizedev (tg_state t) in
  set_capacity sizedev (IMR_NUMZONES s) (set_tg_state s t).

(** [imrsim_dev_idle_init] at [jiffies / HZ]. *)
Definition imrsim_dev_idle_init (seconds : Z) (t : target) : target := set_idle_times 0 seconds t.

(** [imrsim_init_zone_state] with the rest of the zone state. *)
Definition init_target (sizedev seconds : Z) (t : target) : target * Z :=
  let t := if sizedev =? 0 then t else init_zone_default sizedev t in
  let '(s, ret) := imrsim_init_zone_state sizedev (tg_state t) in
  let t := set_tg_state s t in
  if negb (ret =? 0) then (t, ret)
  else
    let size := match imrsim_state_size_for_zones (IMR_NUMZONES s) with Ok size => size | Fail _ => 0 end in
    (imrsim_dev_idle_init seconds (default_fields size t), 0).

Definition imrsim_ptask_mark_config_change_locked (s : kstate) : kstate := set_ptask (MkPstore [] 0 IMR_CONFIG_CHANGE) s.

Definition imrsim_pstore_page_offset (page_idx : Z) : Z := page_idx * Z.shiftr PAGE_SIZE 9.

(** Writes the pages [image idx] until one fails. *)
Fixpoint write_pages (image : Z -> block) (lba : Z) (pages : list Z) (d : device) : device * Z :=
  match pages with
  | [] => (d, 0)
  | idx :: pages =>
      let '(d, ret) := imrsim_write_page (lba + imrsim_pstore_page_offset idx) (image idx) d in
      if ret <? 0 then (d, ret) else write_pages image lba pages d
  end.

(** The first [length] bytes of a memory, then zeros. *)
Definition clipped (length : Z) (m : memory) : memory := fun o => if o <? length then m o else 0.

(** Writes [length] bytes of a memory: whole pages, then the rest with zeros. *)
Definition write_image (m : memory) (length lba : Z) (d : device) : device * Z :=
  let num_pages := length / PAGE_SIZE in
  let part_page := length mod PAGE_SIZE in
  let '(d, ret) := write_pages (fun idx => page_of m (PAGE_SIZE * idx)) lba (seqZ 0 num_pages) d in
  if ret <? 0 then (d, ret)
  else if negb (part_page =? 0) then
    let '(d, ret) := imrsim_write_page (lba + imrsim_pstore_page_offset num_pages) (page_of (clipped length m) (PAGE_SIZE * num_pages)) d in
    (d, if ret <? 0 then ret else 0)
  else (d, 0).

(** [memcpy] of [bytes] bytes of a page to offset [off]. *)
Definition load_page (b : block) (off bytes : Z) (m : memory) : memory :=
  fun o => if (off <=? o) && (o <? off + bytes) then page_byte b (o - off) else m o.

(** Reads the pages [pages] into memory until one fails. *)
Fixpoint read_pages (lba : Z) (pages : list Z) (m : memory) (d : device) : device * cres memory :=
  match pages with
  | [] => (d, Ok m)
  | idx :: pages =>
      match imrsim_read_page (lba + imrsim_pstore_page_offset idx) d with
      | (d, Fail e) => (d, Fail e)
      | (d, Ok b) => read_pages lba pages (load_page b (PAGE_SIZE * idx) PAGE_SIZE m) d
      end
  end.

Definition zero_memory : memory := fun _ => 0.

(** Reads [length] bytes whose first page is [page]. *)
Definition read_image (page : block) (length lba : Z) (d : device) : device * cres memory :=
  let num_pages := length / PAGE_SIZE in
  let part_page := length mod PAGE_SIZE in
  let m := if negb (num_pages =? 0) then load_page page 0 PAGE_SIZE zero_memory else zero_memory in
  match read_pages lba (seqZ 1 (num_pages - 1)) m d with
  | (d, Fail e) => (d, Fail e)
  | (d, Ok m) =>
      if part_page =? 0 then (d, Ok m)
      else
        let '(d, r) := if negb (num_pages =? 0) then imrsim_read_page (lba + imrsim_pstore_page_offset num_pages) d else (d, Ok page) in
        (d, match r with Fail e => Fail e | Ok b => Ok (load_page b (PAGE_SIZE * num_pages) part_page m) end)
  end.

Section persist.
Context (crc32 : list Z -> Z).

(** [crc32(0, m + sizeof(struct imrsim_state_header), length - ...)] *)
Definition state_crc (m : memory) (length : Z) : Z := crc32 (map m (seqZ sizeof_state_header (length - sizeof_state_header))).

Definition set_crc (crc : Z) (t : target) : target :=
  set_tg_header (MkHeader (hd_magic (tg_header t)) (hd_length (tg_header t)) (hd_version (tg_header t)) crc) t.

(** ** The whole image *)

(** [None]: [zone_state] is a null pointer. *)
Definition imrsim_save_persistence (t : target) (d : device) : option (target * device * Z) :=
  match zones (tg_state t) with
  | None => None
  | Some _ =>
      match st_alloc (tg_state t) with
      | (s, None) => Some (set_tg_state s t, d, - ENOMEM)
      | (s, Some _) =>
          let t := set_tg_state s t in
          let length := hd_length (tg_header t) in
          let t := set_crc (state_crc (state_memory t) length) t in
          let '(d, ret) := write_image (state_memory t) length (pstore_lba t) d in
          Some (t, d, ret)
      end
  end.

(** The checks of the loaded zones. *)
Definition zone_geometry_ok (zone0_length idx : Z) (z : zone_status) : bool :=
  (z_start z =? idx) && (z_length z =? zone0_length) && (z_map_size z <=? TOTAL_ITEMS) && (z_live_count z <=? z_map_size z).
Definition is_power_of_2 (n : Z) : bool := negb (n =? 0) && (Z.land n (n - 1) =? 0).
Definition geometry_ok (zs : list zone_status) (sizedev : Z) : bool :=
  match zs with
  | [] => false
  | z0 :: _ =>
      let blocks := Z.shiftr (z_length z0) IMR_BLOCK_SIZE_SHIFT in
      negb (blocks =? 0) && (blocks =? TOTAL_ITEMS) && (Z.land (z_length z0) (Z.shiftl 1 IMR_BLOCK_SIZE_SHIFT - 1) =? 0) && is_power_of_2 blocks &&
      (u64 (lenZ zs * z_length z0) =? sizedev) && forallb (fun '(idx, z) => zone_geometry_ok (z_length z0) idx z) (zip (seqZ 0 (lenZ zs)) zs)
  end.

(** The state that the memory [m] holds. *)
Definition loaded_target (m : memory) (n : Z) (t : target) : target :=
  let s := set_write_stats (read_stats m) (set_zone_state n (Some (read_zones m n)) (tg_state t)) in
  set_stats_num_zones (read_num_zones m)
    (set_idle_times (get32 m 32) (get32 m 36) (set_tg_config (read_config m) (set_tg_header (read_header m) (set_tg_state s t)))).

(** [vfree(zone_state)] with the pointers cleared. *)
Definition drop_zone_state (t : target) : target := set_tg_state (set_zone_state (IMR_NUMZONES (tg_state t)) None (tg_state t)) t.

(** [sizedev] is [ti->len]. *)
Definition imrsim_load_persistence (sizedev seconds : Z) (t : target) (d : device) : target * device * Z :=
  let t := set_pstore_lba sizedev (init_zone_default sizedev t) in
  match st_alloc (tg_state t) with
  | (s, None) => (set_tg_state s t, d, - ENOMEM)
  | (s, Some _) =>
      let t := set_tg_state s t in
      match imrsim_read_page (pstore_lba t) d with
      | (d, Fail e) => (t, d, e)
      | (d, Ok page) =>
          let header := read_header (page_byte page) in
          if (hd_magic header =? STATE_MAGIC) && (hd_version header =? VERSION) then
            let n := read_num_zones (page_byte page) in
            let valid := match imrsim_state_size_for_zones n with
                         | Ok size => negb (n =? 0) && (hd_length header =? size) &&
                                      (imrsim_state_persistence_bytes (hd_length header) <=? imrsim_persistence_capacity_bytes t)
                         | Fail _ => false
                         end in
            if negb valid then (drop_zone_state t, d, - EUCLEAN)
            else
              match st_alloc (tg_state t) with
              | (s, None) => (drop_zone_state (set_tg_state s t), d, - ENOMEM)
              | (s, Some _) =>
                  let t := set_tg_state s t in
                  match read_image page (hd_length header) (pstore_lba t) d with
                  | (d, Fail e) => (drop_zone_state t, d, e)
                  | (d, Ok m) =>
                      if negb (state_crc m (get32 m 4) =? get32 m 12) || negb (read_num_zones m =? n) ||
                         negb (geometry_ok (read_zones m n) sizedev)
                      then (drop_zone_state t, d, - EUCLEAN)
                      else
                        let t := loaded_target m n t in
                        let '(s, ret) := imr_lsm_allocator_recover_locked (tg_state t) in
                        if negb (ret =? 0) then (drop_zone_state (set_tg_state s t), d, - EUCLEAN) else (set_tg_state s t, d, 0)
                  end
              end
          else if ((hd_magic header =? 0) && (hd_length header =? 0) && (hd_version header =? 0) && (hd_crc32 header =? 0)) ||
                  (hd_magic header =? STATE_MAGIC)
          then let '(t, ret) := init_target sizedev seconds t in (t, d, if negb (ret =? 0) then ret else - EINVAL)
          else (drop_zone_state t, d, - EUCLEAN)
      end
  end.

(** ** Snapshots *)

(** [struct imrsim_pstore_snapshot]; the copy of the state is the target it was
    taken of. *)
Record pstore_snapshot := MkSnapshot {
  sn_state : target;
  sn_length : Z;
  sn_zone_idx : list Z;
  sn_flag : Z;
  sn_full_save : bool;
}.

Definition imrsim_write_snapshot_page (sn : pstore_snapshot) (page_idx : Z) (d : device) : device * Z :=
  let offset := page_idx * PAGE_SIZE in
  if offset >=? sn_length sn then (d, - EINVAL)
  else imrsim_write_page (pstore_lba (sn_state sn) + imrsim_pstore_page_offset page_idx) (page_of (clipped (sn_length sn) (state_memory (sn_state sn))) offset) d.

Fixpoint write_snapshot_pages (sn : pstore_snapshot) (pages : list Z) (d : device) : device * Z :=
  match pages with
  | [] => (d, 0)
  | idx :: pages =>
      let '(d, ret) := imrsim_write_snapshot_page sn idx d in
      if ret <? 0 then (d, ret) else write_snapshot_pages sn pages d
  end.

(** The pages [from .. to] below [page_count]. *)
Definition page_range (from to page_count : Z) : list Z := seqZ from (Z.min to (page_count - 1) - from + 1).

(** The pages of the zones in the queue; an index that is out of range stops. *)
Fixpoint write_zone_pages (sn : pstore_snapshot) (page_count : Z) (queue : list Z) (d : device) : device * Z :=
  match queue with
  | [] => (d, 0)
  | i :: queue =>
      let n := stats_num_zones (sn_state sn) in
      let i := u32 i in
      if i >=? n then (d, - EINVAL)
      else
        let start := imrsim_zone_status_ptr n + sizeof_zone_status * i in
        let last := start + sizeof_zone_status - 1 in
        let '(d, ret) := write_snapshot_pages sn (page_range (start / PAGE_SIZE) (last / PAGE_SIZE) page_count) d in
        if ret <? 0 then (d, ret) else write_zone_pages sn page_count queue d
  end.

(** The last page of the zone statistics. *)
Definition last_stats_page (n : Z) : Z := (offset_stats + offset_zone_stats + sizeof_zone_stats * n - 1) / PAGE_SIZE.

(** [DIV_ROUND_UP(snapshot->length, PAGE_SIZE)] *)
Definition page_count (sn : pstore_snapshot) : Z := (sn_length sn + PAGE_SIZE - 1) / PAGE_SIZE.

(** The pages after the first one: all of them, or those that have changed. *)
Definition write_later_pages (sn : pstore_snapshot) (d : device) : device * Z :=
  if sn_full_save sn then write_snapshot_pages sn (seqZ 1 (page_count sn - 1)) d
  else
    let '(d, ret) := if negb (Z.land (sn_flag sn) IMR_STATS_CHANGE =? 0)
                     then write_snapshot_pages sn (page_range 1 (last_stats_page (stats_num_zones (sn_state sn))) (page_count sn)) d else (d, 0) in
    if ret <? 0 then (d, ret)
    else if negb (Z.land (sn_flag sn) IMR_STATUS_CHANGE =? 0) then write_zone_pages sn (page_count sn) (sn_zone_idx sn) d else (d, 0).

(** The snapshot with its checksum. *)
Definition seal_snapshot (sn : pstore_snapshot) : pstore_snapshot :=
  MkSnapshot (set_crc (state_crc (state_memory (sn_state sn)) (sn_length sn)) (sn_state sn)) (sn_length sn) (sn_zone_idx sn) (sn_flag sn) (sn_full_save sn).

Definition imrsim_write_persistence_snapshot (sn : pstore_snapshot) (s : kstate) (d : device) : kstate * device * Z :=
  if sn_length sn <? sizeof_state_header then (s, d, - EINVAL)
  else
    let sn := seal_snapshot sn in
    match st_alloc s with
    | (s, None) => (s, d, - ENOMEM)
    | (s, Some _) =>
        let '(d, ret) := write_later_pages sn d in
        if ret <? 0 then (s, d, ret)
        else let '(d, ret) := imrsim_write_snapshot_page sn 0 d in (s, d, if ret <? 0 then ret else 0)
    end.

Definition imrsim_capture_persistence_snapshot_locked (capacity : Z) (t : target) : target * option pstore_snapshot :=
  let q := ptask (tg_state t) in
  if (ps_flag q =? 0) || (match zones (tg_state t) with None => true | Some _ => false end) then (t, None)
  else if hd_length (tg_header t) >? capacity then (t, None)
  else
    (set_tg_state (set_ptask (MkPstore [] 0 0) (tg_state t)) t,
     Some (MkSnapshot t (hd_length (tg_header t)) (stu_zone_idx q) (ps_flag q)
             (negb (Z.land (ps_flag q) IMR_CONFIG_CHANGE =? 0) || (stu_zone_idx_gap q >=? IMR_PSTORE_PG_GAP)))).

Definition imrsim_restore_persistence_snapshot_locked (sn : pstore_snapshot) (s : kstate) : kstate :=
  let s := set_ptask (set_ps_flag (Z.lor (ps_flag (ptask s)) (sn_flag sn)) (ptask s)) s in
  let s := fold_left (fun s i => imrsim_ptask_queue_zone_status_locked i s) (sn_zone_idx sn) s in
  if sn_full_save sn then set_ptask (set_stu_zone_idx_gap IMR_PSTORE_PG_GAP (ptask s)) s else s.

(** One round of the loop of [imrsim_persistence_task], as when nothing else runs
    in between; its three steps take the zone lock separately. *)
Definition imrsim_persistence_task (capacity : Z) (t : target) (d : device) : target * device * Z :=
  match imrsim_capture_persistence_snapshot_locked capacity t with
  | (t, None) => (t, d, 0)
  | (t, Some sn) =>
      let '(s, d, ret) := imrsim_write_persistence_snapshot sn (tg_state t) d in
      (set_tg_state (if negb (ret =? 0) then imrsim_restore_persistence_snapshot_locked sn s else s) t, d, ret)
  end.

(** ** Construction and destruction *)

(** [kthread] is the result of [kthread_create]: 0 or an error. *)
Definition imrsim_persistence_thread (sizedev seconds kthread : Z) (t : target) (d : device) : option (target * device * Z) :=
  let t := set_tg_state (set_ptask (MkPstore [] 0 0) (tg_state t)) t in
  let '(t, d, ret) := imrsim_load_persistence sizedev seconds t d in
  let saved := if ret =? - EINVAL then imrsim_save_persistence t d else Some (t, d, ret) in
  match saved with
  | None => None
  | Some (t, d, ret) => if negb (ret =? 0) then Some (t, d, ret) else Some (t, d, kthread)
  end.

(** The arguments of [imrsim_ctr] and what the kernel answers to it: [argc], the
    fields of the target, the number [sscanf] reads from [argv[1]] if that is all
    of it, the results of [dm_get_device] and [dm_set_target_max_io_len], the size
    and the handle of the backing device, the time, and the result of
    [kthread_create]. *)
Record ctr_args := MkCtrArgs {
  ca_argc : Z;
  ca_begin : Z;
  ca_len : Z;
  ca_start : option Z;
  ca_get_device : Z;
  ca_bdev : Z;
  ca_backing_bytes : Z;
  ca_max_io_len : Z;
  ca_seconds : Z;
  ca_kthread : Z;
}.

(** [out_clear_state] *)
Definition clear_state (t : target) : target :=
  let s := imr_lsm_reset_validation_overrides_locked (imr_lsm_release_metadata_locked (set_output_bdev None 0 (tg_state t))) in
  set_persistence_capacity 0 (set_tg_state (set_zone_state 0 None s) t).

(** The checks of the length and of the space behind the target. *)
Definition ctr_check_size (a : ctr_args) : cres Z :=
  let num := Z.shiftr (Z.shiftr (ca_len a) IMR_BLOCK_SIZE_SHIFT) IMR_ZONE_SIZE_SHIFT in
  if ca_len a >? IMR_MAX_CAPACITY then Fail (- EINVAL)
  else if negb (Z.shiftl (Z.shiftl num IMR_BLOCK_SIZE_SHIFT) IMR_ZONE_SIZE_SHIFT =? ca_len a) then Fail (- EINVAL)
  else if ca_len a <? Z.shiftl (Z.shiftl 2 IMR_BLOCK_SIZE_SHIFT) IMR_ZONE_SIZE_SHIFT then Fail (- EINVAL)
  else if num >? U32_MAX then Fail (- EOVERFLOW)
  else
    match imrsim_state_size_for_zones (u32 num) with
    | Fail e => Fail e
    | Ok state_size =>
        let target_bytes := u64 (Z.shiftl (ca_len a) 9) in
        if (ca_backing_bytes a <? target_bytes) || (ca_backing_bytes a - target_bytes <? imrsim_state_persistence_bytes state_size)
        then Fail (- ENOSPC) else Ok (ca_backing_bytes a - target_bytes)
    end.

(** The candidate for a collection is recorded, and its run deferred. *)
Definition first_candidate (s : kstate) : kstate :=
  let s := imr_lsm_record_zone_compaction_candidate_locked s in
  let candidate := stat "zone_compaction_candidate_zone" s in
  if negb (candidate =? IMR_LSM_ZONE_COMPACTION_NONE) then (imr_lsm_defer_zone_compaction_auto_run_locked candidate s).1 else s.

(** [None]: a null pointer is followed. *)
Definition imrsim_ctr (a : ctr_args) (t : target) (d : device) : option (target * device * Z) :=
  match ca_start a with
  | Some start =>
      if negb (ca_argc a =? 2) || negb (ca_begin a =? 0) || negb (start =? 0) then Some (t, d, - EINVAL)
      else if target_active (tg_state t) then Some (t, d, - EBUSY)
      else
        match st_alloc (tg_state t) with
        | (s, None) => Some (set_tg_state s t, d, - ENOMEM)
        | (s, Some _) =>
            let t := set_tg_state s t in
            if negb (ca_get_device a =? 0) then Some (t, d, ca_get_device a)
            else
              match ctr_check_size a with
              | Fail e => Some (t, d, e)
              | Ok capacity =>
                  if negb (ca_max_io_len a =? 0) then Some (t, d, ca_max_io_len a)
                  else
                    let s := set_output_bdev (Some (ca_bdev a)) start (imr_lsm_reset_validation_overrides_locked (tg_state t)) in
                    let t := set_persistence_capacity capacity (set_tg_state s t) in
                    match imrsim_persistence_thread (ca_len a) (ca_seconds a) (ca_kthread a) t d with
                    | None => None
                    | Some (t, d, ret) =>
                        if negb (ret =? 0) then Some (clear_state t, d, ret)
                        else Some (set_tg_state (first_candidate (set_target_active true (tg_state t))) t, d, 0)
                    end
              end
        end
  | None => Some (t, d, - EINVAL)
  end.

(** The threads are stopped and no bio is in flight when the locks are taken. *)
Definition imrsim_dtr (t : target) (d : device) : target * device :=
  let '(t, d) := match imrsim_save_persistence t d with Some (t, d, _) => (t, d) | None => (t, d) end in
  let s := imr_lsm_release_metadata_locked (set_output_bdev None 0 (tg_state t)) in
  let s := imr_lsm_allocator_reset_locked (imr_lsm_reset_validation_overrides_locked s) in
  (set_persistence_capacity 0 (set_tg_state (set_target_active false (set_zone_state 0 None s)) t), d).
End persist.
