(* ===== verification/ImrKapi.v ===== *)
(** The exported interface of the target ([dm-imrsim.c], from
    [imrsim_get_num_zones] to [imrsim_blkdev_reset_zone_ptr], and
    [imrsim_query_zones]) and its ioctl ([imrsim_ioctl]).

    Null out-parameters, which the ioctl never passes, are left out, and so are
    the last-error and logging commands: the data path does not record errors. *)

From S2P Require Import Prelude StdMap ImrPrelude ImrGeometry ImrBloom ImrState ImrReadTree ImrLevels ImrSegment ImrPlacement ImrAccounting ImrLsm ImrZones ImrGc ImrTarget ImrImage ImrPersist.

Definition EOPNOTSUPP : Z := 95.
Definition EFAULT : Z := 14.
Definition IMR_TRANSFER_PENALTY_MAX : Z := 1000.
Definition Z_COND_NO_WP : Z := 0.
Definition Z_TYPE_CONVENTIONAL : Z := 1.

(** An operation under the zone lock, which a target that is not ready refuses. *)
Definition when_ready {A} (t : target) (refused : Z -> A) (k : A) : A :=
  if negb (imrsim_target_ready_locked (tg_state t)) then refused (- ENODEV) else k.
Definition changing (t : target) (k : target * Z) : target * Z := when_ready t (fun e => (t, e)) k.
Definition reading {A} (t : target) (x : A) : cres A := when_ready t Fail (Ok x).

Definition on_state (f : kstate -> kstate) (t : target) : target := set_tg_state (f (tg_state t)) t.

(** ** Zones *)

Definition imrsim_get_num_zones (t : target) : cres Z := reading t (IMR_NUMZONES (tg_state t)).
Definition imrsim_get_size_zone_default (t : target) : cres Z := reading t num_sectors_zone.

(** A fresh zone state of [n] zones replaces the old one, whose LSM goes with it. *)
Definition replace_state (n : Z) (t : target) : target * Z :=
  match imrsim_state_size_for_zones n with
  | Fail e => (t, e)
  | Ok state_size =>
      if imrsim_state_persistence_bytes state_size >? imrsim_persistence_capacity_bytes t then (t, - ENOSPC)
      else
        match st_alloc (tg_state t) with
        | (s, None) => (set_tg_state s t, - ENOMEM)
        | (s, Some _) =>
            let s := imr_lsm_release_metadata_locked (imrsim_init_zone_state_default (set_numzones n s)) in
            (on_state imrsim_ptask_mark_config_change_locked (default_fields state_size (set_tg_state s t)), 0)
        end
  end.

Definition imrsim_set_size_zone_default (size_zone : Z) (t : target) : target * Z :=
  if negb (size_zone mod Z.shiftl 1 IMR_BLOCK_SIZE_SHIFT =? 0) || negb (is_power_of_2 size_zone) then (t, - EINVAL)
  else if negb (Z.shiftr size_zone IMR_BLOCK_SIZE_SHIFT =? TOTAL_ITEMS) then (t, - EOPNOTSUPP)
  else
    changing t
      (if (size_zone >? IMR_CAPACITY t) || negb (IMR_CAPACITY t mod size_zone =? 0) then (t, - EINVAL)
       else
         let new_numzones := IMR_CAPACITY t / size_zone in
         if (new_numzones =? 0) || (new_numzones >? U32_MAX) then (t, - EOVERFLOW) else replace_state new_numzones t).

Definition imrsim_reset_default_zone_config (t : target) : target * Z := changing t (replace_state (IMR_NUMZONES_DEFAULT t) t).

(** ** The device configuration *)

Definition set_config (f : dev_config -> dev_config) (t : target) : target * Z :=
  changing t (on_state imrsim_ptask_mark_config_change_locked (set_tg_config (f (tg_config t)) t), 0).

Definition imrsim_reset_default_device_config (t : target) : target * Z := set_config (fun _ => default_dev_config) t.
Definition imrsim_reset_default_config (t : target) : target * Z :=
  match imrsim_reset_default_zone_config t with
  | (t, ret) => if negb (ret =? 0) then (t, ret) else imrsim_reset_default_device_config t
  end.
Definition imrsim_get_device_config (t : target) : cres dev_config := reading t (tg_config t).
Definition imrsim_set_device_rconfig (c : dev_config) (t : target) : target * Z :=
  set_config (fun o => MkDevConfig (out_of_policy_read_flag c) (out_of_policy_write_flag o) (r_time_to_rmw_zone o) (w_time_to_rmw_zone o)) t.
Definition imrsim_set_device_wconfig (c : dev_config) (t : target) : target * Z :=
  set_config (fun o => MkDevConfig (out_of_policy_read_flag o) (out_of_policy_write_flag c) (r_time_to_rmw_zone o) (w_time_to_rmw_zone o)) t.
Definition imrsim_set_device_rconfig_delay (c : dev_config) (t : target) : target * Z :=
  if r_time_to_rmw_zone c >=? IMR_TRANSFER_PENALTY_MAX then (t, - EINVAL)
  else set_config (fun o => MkDevConfig (out_of_policy_read_flag o) (out_of_policy_write_flag o) (r_time_to_rmw_zone c) (w_time_to_rmw_zone o)) t.
Definition imrsim_set_device_wconfig_delay (c : dev_config) (t : target) : target * Z :=
  if w_time_to_rmw_zone c >=? IMR_TRANSFER_PENALTY_MAX then (t, - EINVAL)
  else set_config (fun o => MkDevConfig (out_of_policy_read_flag o) (out_of_policy_write_flag o) (r_time_to_rmw_zone o) (w_time_to_rmw_zone c)) t.

(** ** The configuration of a zone *)

Definition imrsim_zone_seq_count (s : kstate) : Z :=
  fold_left (fun count i => match zone i s with Some z => if z_type z =? Z_TYPE_SEQUENTIAL then u32 (count + 1) else count | None => count end) (zone_ids s) 0.
Definition imrsim_zone_cond_check (cond : Z) : bool :=
  existsb (Z.eqb cond) [Z_COND_NO_WP; Z_COND_EMPTY; Z_COND_CLOSED; Z_COND_OPEN; Z_COND_RO; Z_COND_FULL; Z_COND_OFFLINE].

(** [new] carries the zone number, the length, the condition and the type. *)
Definition imrsim_modify_zone_config (new : zone_status) (t : target) : target * Z :=
  changing t
    (if IMR_NUMZONES (tg_state t) <=? z_start new then (t, - EINVAL)
     else
       match zone (z_start new) (tg_state t) with
       | None => (t, - EINVAL)
       | Some old =>
           if (1 >=? imrsim_zone_seq_count (tg_state t)) && (z_type new =? Z_TYPE_SEQUENTIAL) && (z_type old =? Z_TYPE_SEQUENTIAL) then (t, - EINVAL)
           else if negb (z_length new =? num_sectors_zone) then (t, - EINVAL)
           else if negb (imrsim_zone_cond_check (z_conds new)) then (t, - EINVAL)
           else if (z_conds new =? Z_COND_NO_WP) && negb (z_type new =? Z_TYPE_CONVENTIONAL) then (t, - EINVAL)
           else if (z_conds new =? Z_COND_EMPTY) && (z_type new =? Z_TYPE_SEQUENTIAL) then (t, - EINVAL)
           else (on_state (fun s => imrsim_ptask_queue_zone_status_locked (z_start new)
                                      (upd_zone (z_start new) (fun z => set_z_flag 0 (set_z_type (z_type new) (set_z_conds (z_conds new) z))) s)) t, 0)
       end).

Definition imrsim_clear_zone_config : Z := - EOPNOTSUPP.
Definition imrsim_add_zone_config : Z := - EOPNOTSUPP.

(** ** Statistics *)

Definition stats_changed (s : kstate) : kstate := set_ptask (set_ps_flag (Z.lor (ps_flag (ptask s)) IMR_STATS_CHANGE) (ptask s)) s.

Definition zone_of_sector (start_sector : Z) : Z := u32 (Z.shiftr (Z.shiftr start_sector IMR_BLOCK_SIZE_SHIFT) IMR_ZONE_SIZE_SHIFT).
Definition clear_zone_stats (i : Z) (w : wstats) : wstats :=
  MkWstats (extra_write_total w) (write_total w) (upd_fn (z_span_zones_count w) i 0) (upd_fn (z_write_span_zones_count w) i 0)
    (upd_fn (z_unaligned_count w) i 0) (upd_fn (z_extra_write_total w) i 0) (upd_fn (z_write_total w) i 0).
Definition imrsim_reset_zone_stats (start_sector : Z) (t : target) : target * Z :=
  changing t
    (if IMR_NUMZONES (tg_state t) <=? zone_of_sector start_sector then (t, - EINVAL)
     else (on_state (fun s => stats_changed (set_write_stats (clear_zone_stats (zone_of_sector start_sector) (write_stats s)) s)) t, 0)).
Definition imrsim_reset_stats (t : target) : target * Z :=
  changing t (on_state (fun s => stats_changed (imrsim_reset_stats_locked s)) (set_idle_times 0 0 t), 0).

(** The statistics that are copied out: the idle times, the number of zones and the counters. *)
Definition imrsim_get_stats (t : target) : cres (Z * Z * Z * wstats) :=
  reading t (dev_idle_time_max t, dev_idle_time_min t, stats_num_zones t, write_stats (tg_state t)).

(** It only checks; the zone pointer is followed without the readiness test, so
    there is none to follow when the target is gone ([None]). *)
Definition imrsim_blkdev_reset_zone_ptr (start_sector : Z) (t : target) : option Z :=
  let i := zone_of_sector start_sector in
  if IMR_NUMZONES (tg_state t) <=? i then Some (- EINVAL)
  else (fun z => if z_type z =? Z_TYPE_CONVENTIONAL then - EINVAL else 0) <$> zone i (tg_state t).

(** ** Queries *)

(** [enum imrsim_zbcquery_criteria]: the zones that a criterion accepts; a positive
    one accepts all of them, and so does [ZONE_MATCH_NFULL]. *)
Definition zbcquery_criteria (criteria : Z) : option (zone_status -> bool) :=
  let cond c z := z_conds z =? c in
  match criteria with
  | Zpos _ | 0 | -2 => Some (fun _ => true)
  | -1 => Some (cond Z_COND_FULL)
  | -3 => Some (cond Z_COND_EMPTY)
  | -4 => Some (cond Z_COND_RO)
  | -5 => Some (cond Z_COND_OFFLINE)
  | _ => None
  end.

(** The first [num] zones from [zone_idx] on that [test] accepts. *)
Definition matching (test : zone_status -> bool) (zone_idx num : Z) (zs : list zone_status) : list zone_status :=
  take (Z.to_nat num) (List.filter test (drop (Z.to_nat zone_idx) zs)).

(** The zones that are found, or [None] for an unknown criterion, which leaves
    the buffer and its size alone. *)
Definition imrsim_query_zones (lba criteria num : Z) (t : target) : cres (option (list zone_status)) :=
  when_ready t Fail
    (let zone_idx := Z.shiftr (Z.shiftr lba IMR_BLOCK_SIZE_SHIFT) IMR_ZONE_SIZE_SHIFT in
     let n := IMR_NUMZONES (tg_state t) in
     let zs := default [] (zones (tg_state t)) in
     if (zone_idx >=? n) || (num =? 0) || (num >? n - zone_idx) then Fail (- EINVAL)
     else Ok ((fun test => matching test zone_idx num zs) <$> zbcquery_criteria criteria)).

(** ** The ioctl *)

(** The commands with what they read from the user. *)
Inductive ioctl_cmd :=
| IOCTL_IMRSIM_LSM_DELETE_KEY (key : Z)
| BLKDISCARD (offset length : Z)
| IOCTL_IMRSIM_GET_NUMZONES
| IOCTL_IMRSIM_GET_SIZZONEDEFAULT
| IOCTL_IMRSIM_SET_SIZZONEDEFAULT (size : Z)
| IOCTL_IMRSIM_RESET_ZONE (lba : Z)
| IOCTL_IMRSIM_QUERY (lba criteria num : Z)
| IOCTL_IMRSIM_GET_STATS
| IOCTL_IMRSIM_RESET_STATS
| IOCTL_IMRSIM_RESET_ZONESTATS (lba : Z)
| IOCTL_IMRSIM_RESET_DEFAULTCONFIG
| IOCTL_IMRSIM_RESET_ZONECONFIG
| IOCTL_IMRSIM_RESET_DEVCONFIG
| IOCTL_IMRSIM_GET_DEVCONFIG
| IOCTL_IMRSIM_SET_DEVRCONFIG_DELAY (c : dev_config)
| IOCTL_IMRSIM_SET_DEVWCONFIG_DELAY (c : dev_config).

(** What is copied to the user. *)
Inductive ioctl_reply :=
| NoReply
| Number (v : Z)
| Zones (zs : option (list zone_status))
| Stats (max min num_zones : Z) (w : wstats)
| Config (c : dev_config).

(** [dt]: seconds since the last check point. *)
Definition imrsim_dev_idle_update (dt : Z) (t : target) : target :=
  if dt >? dev_idle_time_max t then set_idle_times dt (dev_idle_time_min t) t
  else if negb (dt =? 0) && (dt <? dev_idle_time_min t) then set_idle_times (dev_idle_time_max t) dt t
  else t.

(** A command that reports a failure of its operation, and one that fetches. *)
Definition ioctl_do (r : target * Z) : target * Z * ioctl_reply := (r.1, if negb (r.2 =? 0) then - EFAULT else 0, NoReply).
Definition ioctl_get {A} (t : target) (copied : bool) (r : cres A) (reply : A -> ioctl_reply) : target * Z * ioctl_reply :=
  match r with Ok v => if copied then (t, 0, reply v) else (t, - EFAULT, NoReply) | Fail _ => (t, - EFAULT, NoReply) end.

(** A query; the exits of a failure return 0 as well. *)
Definition ioctl_query (lba criteria num : Z) (copied : bool) (t : target) : target * Z * ioctl_reply :=
  match st_alloc (tg_state t) with
  | (s, None) => (set_tg_state s t, - EFAULT, NoReply)
  | (s, Some _) =>
      let t := set_tg_state s t in
      if negb copied || (num =? 0) || (num >? IMR_NUMZONES s) then (t, 0, NoReply)
      else
        match st_alloc s with
        | (s, None) => (set_tg_state s t, 0, NoReply)
        | (s, Some _) =>
            let t := set_tg_state s t in
            match imrsim_query_zones lba criteria num t with
            | Ok zs => (t, 0, Zones zs)
            | Fail _ => (t, 0, NoReply)
            end
        end
  end.

(** So do those of the statistics. *)
Definition ioctl_get_stats (copied : bool) (t : target) : target * Z * ioctl_reply :=
  match st_alloc (tg_state t) with
  | (s, None) => (set_tg_state s t, - EFAULT, NoReply)
  | (s, Some _) =>
      let t := set_tg_state s t in
      match imrsim_get_stats t with
      | Ok (max, min, n, w) => if copied then (t, 0, Stats max min n w) else (t, 0, NoReply)
      | Fail _ => (t, 0, NoReply)
      end
  end.

Definition block_aligned (bytes : Z) : bool := Z.land bytes (Z.shiftl 1 12 - 1) =? 0.

(** [copied]: the transfers between the user and the kernel succeed. [None]: the
    deletion waits for a zone copy. *)
Definition imrsim_ioctl (dt : Z) (cmd : ioctl_cmd) (copied : bool) (t : target) : option (target * Z * ioctl_reply) :=
  if negb (imrsim_target_ready_locked (tg_state t)) then Some (t, - EFAULT, NoReply)
  else
    let t := on_state stats_changed (imrsim_dev_idle_update dt t) in
    let input k := Some (if copied then ioctl_do k else (t, - EFAULT, NoReply)) in
    match cmd with
    | IOCTL_IMRSIM_LSM_DELETE_KEY key =>
        if negb copied then Some (t, - EFAULT, NoReply)
        else (fun '(s, ret) => ioctl_do (set_tg_state s t, ret)) <$> imrsim_lsm_delete_key key (tg_state t)
    | BLKDISCARD offset length =>
        if negb (copied && block_aligned offset && block_aligned length) then Some (t, - EFAULT, NoReply)
        else let '(s, ret) := imrsim_lsm_discard_lba_range_locked (Z.shiftr offset 9) (Z.shiftr length 9) (tg_state t) in
             Some (ioctl_do (set_tg_state s t, ret))
    | IOCTL_IMRSIM_GET_NUMZONES => Some (ioctl_get t copied (imrsim_get_num_zones t) Number)
    | IOCTL_IMRSIM_GET_SIZZONEDEFAULT => Some (ioctl_get t copied (imrsim_get_size_zone_default t) Number)
    | IOCTL_IMRSIM_SET_SIZZONEDEFAULT size => input (imrsim_set_size_zone_default size t)
    | IOCTL_IMRSIM_RESET_ZONE lba => input (t, default 0 (imrsim_blkdev_reset_zone_ptr lba t))
    | IOCTL_IMRSIM_QUERY lba criteria num => Some (ioctl_query lba criteria num copied t)
    | IOCTL_IMRSIM_GET_STATS => Some (ioctl_get_stats copied t)
    | IOCTL_IMRSIM_RESET_STATS => Some (ioctl_do (imrsim_reset_stats t))
    | IOCTL_IMRSIM_RESET_ZONESTATS lba => input (imrsim_reset_zone_stats lba t)
    | IOCTL_IMRSIM_RESET_DEFAULTCONFIG => Some (ioctl_do (imrsim_reset_default_config t))
    | IOCTL_IMRSIM_RESET_ZONECONFIG => Some (ioctl_do (imrsim_reset_default_zone_config t))
    | IOCTL_IMRSIM_RESET_DEVCONFIG => Some (ioctl_do (imrsim_reset_default_device_config t))
    | IOCTL_IMRSIM_GET_DEVCONFIG => Some (ioctl_get t copied (imrsim_get_device_config t) Config)
    | IOCTL_IMRSIM_SET_DEVRCONFIG_DELAY c => input (imrsim_set_device_rconfig_delay c t)
    | IOCTL_IMRSIM_SET_DEVWCONFIG_DELAY c => input (imrsim_set_device_wconfig_delay c t)
    end.
