(* ===== verification/ImrImageSpec.v ===== *)
(** Reading the memory image of the zone state back: little-endian fields, the
    offsets of the zones, and pages of the device. *)

From S2P Require Import Prelude StdMap ImrPrelude ImrGeometry ImrBloom ImrState ImrReadTree ImrLevels ImrSegment ImrPlacement ImrAccounting ImrLsm ImrZones ImrGc ImrTarget ImrImage.

(** ** Little-endian integers *)

Definition is_byte (x : Z) : Prop := 0 <= x < 256.

Lemma byte_of_eq v i : 0 <= i -> byte_of v i = v / 2 ^ (8 * i) mod 256.
Proof. intros Hi. unfold byte_of. change 255 with (Z.ones 8). rewrite Z.land_ones, Z.shiftr_div_pow2 by lia. done. Qed.
Lemma byte_of_range v i : is_byte (byte_of v i).
Proof. unfold byte_of, is_byte. change 255 with (Z.ones 8). rewrite Z.land_ones by lia. apply Z.mod_pos_bound. lia. Qed.
Lemma byte_of_0 v : byte_of v 0 = v mod 256.
Proof. rewrite byte_of_eq by lia. by rewrite Z.div_1_r. Qed.
Lemma byte_of_succ v i : 0 <= i -> byte_of v (i + 1) = byte_of (v / 256) i.
Proof.
  intros Hi. rewrite !byte_of_eq by lia. replace (8 * (i + 1)) with (8 + 8 * i) by lia. rewrite Z.pow_add_r by lia. by rewrite Z.div_div by lia.
Qed.
Lemma byte_of_byte v : is_byte v -> byte_of v 0 = v.
Proof. intros Hv. rewrite byte_of_0. by apply Z.mod_small. Qed.

Lemma get_le_ext n : forall m m' off off', (forall b, 0 <= b < Z.of_nat n -> m (off + b) = m' (off' + b)) -> get_le n m off = get_le n m' off'.
Proof.
  induction n as [|n IH]; intros m m' off off' H; [done|]. cbn. rewrite (IH m m' (off + 1) (off' + 1)).
  - specialize (H 0). rewrite !Z.add_0_r in H. rewrite H by lia. done.
  - intros b Hb. replace (off + 1 + b) with (off + (b + 1)) by lia. replace (off' + 1 + b) with (off' + (b + 1)) by lia. apply H. lia.
Qed.
Lemma get_le_value n : forall m off v, (forall b, 0 <= b < Z.of_nat n -> m (off + b) = byte_of v b) -> get_le n m off = v mod 2 ^ (8 * Z.of_nat n).
Proof.
  induction n as [|n IH]; intros m off v H.
  { cbn. by rewrite Z.mod_1_r. }
  cbn [get_le]. rewrite (IH m (off + 1) (v / 256)).
  - specialize (H 0). rewrite Z.add_0_r, byte_of_0 in H. rewrite H by lia. replace (8 * Z.of_nat (S n)) with (8 + 8 * Z.of_nat n) by lia.
    rewrite Z.pow_add_r by lia. change (2 ^ 8) with 256. rewrite Z.rem_mul_r by lia. done.
  - intros b Hb. rewrite <- byte_of_succ by lia. replace (off + 1 + b) with (off + (b + 1)) by lia. apply H. lia.
Qed.
Lemma byte_get_le n : forall m off i, (forall b, 0 <= b < Z.of_nat n -> is_byte (m (off + b))) -> 0 <= i < Z.of_nat n -> byte_of (get_le n m off) i = m (off + i).
Proof.
  induction n as [|n IH]; intros m off i H Hi; [lia|]. cbn [get_le]. pose proof (H 0 ltac:(lia)) as H0. rewrite Z.add_0_r in H0. unfold is_byte in H0.
  destruct (Z.eq_dec i 0) as [->|Hne].
  - rewrite byte_of_0, Z.add_0_r. replace (m off + 256 * get_le n m (off + 1)) with (m off + get_le n m (off + 1) * 256) by lia. rewrite Z.mod_add by lia. by apply Z.mod_small.
  - replace i with (i - 1 + 1) by lia. rewrite byte_of_succ by lia. replace (m off + 256 * get_le n m (off + 1)) with (get_le n m (off + 1) * 256 + m off) by lia.
    rewrite Z.div_add_l, (Z.div_small (m off)), Z.add_0_r by lia. rewrite IH; [f_equal; lia| |lia]. intros b Hb. replace (off + 1 + b) with (off + (b + 1)) by lia. apply H. lia.
Qed.

Lemma get_le_range n m off : (forall b, 0 <= b < Z.of_nat n -> is_byte (m (off + b))) -> 0 <= get_le n m off < 2 ^ (8 * Z.of_nat n).
Proof.
  revert off. induction n as [|n IH]; intros off H; [cbn; lia|]. cbn [get_le]. pose proof (H 0 ltac:(lia)) as H0. rewrite Z.add_0_r in H0. unfold is_byte in H0.
  destruct (IH (off + 1)) as [I1 I2]. { intros b Hb. replace (off + 1 + b) with (off + (b + 1)) by lia. apply H. lia. }
  replace (8 * Z.of_nat (S n)) with (8 + 8 * Z.of_nat n) by lia. rewrite Z.pow_add_r by lia. change (2 ^ 8) with 256. lia.
Qed.

(** ** Pages *)

Lemma lenZ_page m off : lenZ (page_of m off) = 8.
Proof. done. Qed.

Lemma page_of_ext m m' off : (forall o, off <= o < off + 4096 -> m o = m' o) -> page_of m off = page_of m' off.
Proof.
  intros H. unfold page_of. apply map_ext_in. intros k Hk. apply list_elem_of_In, elem_of_seqZ in Hk. apply get_le_ext. intros b Hb. apply H. lia.
Qed.

Lemma page_byte_page m off o : (forall o, off <= o < off + 4096 -> is_byte (m o)) -> 0 <= o < 4096 -> page_byte (page_of m off) o = m (off + o).
Proof.
  intros Hm Ho. unfold page_byte, page_of.
  assert (0 <= o / 512 < 8) as Hk by (split; [apply Z.div_pos; lia|apply Z.div_lt_upper_bound; lia]). pose proof (Z.mod_pos_bound o 512 ltac:(lia)). pose proof (Z.div_mod o 512).
  rewrite nthZ_map, nthZ_seqZ. replace (_ && _) with true by lia. cbn [fmap option_fmap option_map default from_option id].
  rewrite byte_get_le; [f_equal; lia| |lia]. intros b Hb. apply Hm. lia.
Qed.

(** ** Sizes *)

Lemma zone_area n : imrsim_zone_status_ptr n = 8 * ((64 + 20 * n + 7) / 8).
Proof.
  unfold imrsim_zone_status_ptr. cbv zeta. change (alignof_zone_status - 1) with 7. rewrite <- Z.ldiff_land, ldiff_block.
  change (offset_stats + offset_zone_stats) with 64. change sizeof_zone_stats with 20. change alignof_zone_status with 8. do 2 f_equal. lia.
Qed.
Lemma zone_area_range n : 64 + 20 * n <= imrsim_zone_status_ptr n <= 64 + 20 * n + 7.
Proof. rewrite zone_area. div8. Qed.

(** The state of [n] zones has a size below 2^32 exactly for up to 7759 zones. *)
Lemma state_size_error n e : imrsim_state_size_for_zones n = Fail e -> e = - EOVERFLOW.
Proof. unfold imrsim_state_size_for_zones. cbv zeta. destruct (_ || _); [by intros [= <-]|done]. Qed.
Lemma state_size n : 0 <= n < 2 ^ 32 ->
  imrsim_state_size_for_zones n = if n <=? 7759 then Ok (imrsim_zone_status_ptr n + sizeof_zone_status * n + 4) else Fail (- EOVERFLOW).
Proof.
  intros Hn. pose proof (zone_area_range n) as Ha. unfold imrsim_state_size_for_zones. cbv zeta.
  change (Z.land _ (Z.lnot (alignof_zone_status - 1))) with (imrsim_zone_status_ptr n). change sizeof_zone_status with 553504.
  unfold U32_MAX, U64_MAX, PAGE_SIZE. destruct (n <=? 7759) eqn:E; [by replace (_ || _) with false by lia|by replace (_ || _) with true by lia].
Qed.

(** ** Where the fields lie *)

Lemma struct_byte_range fs o : is_byte (struct_byte fs o).
Proof. induction fs as [|[[off w] v] fs IH]; cbn; [unfold is_byte; lia|]. destruct (_ && _); [apply byte_of_range|done]. Qed.
Lemma zone_byte_range z o : is_byte (zone_byte z o).
Proof. unfold zone_byte. zcase; first [apply byte_of_range|apply struct_byte_range]. Qed.
Lemma state_memory_range t o : is_byte (state_memory t o).
Proof.
  unfold state_memory. cbv zeta. assert (is_byte 0) by (unfold is_byte; lia).
  zcase; try apply struct_byte_range; try done; [|apply byte_of_range]. destruct (zone _ _); [apply zone_byte_range|done].
Qed.

Definition state_length (n : Z) : Z := imrsim_zone_status_ptr n + sizeof_zone_status * n + 4.
Lemma state_length_range n : 64 + 553524 * n + 4 <= state_length n <= 64 + 553524 * n + 11.
Proof. unfold state_length. pose proof (zone_area_range n). change sizeof_zone_status with 553504. lia. Qed.

Section layout.
Context (t : target).
Let n := IMR_NUMZONES (tg_state t).

Lemma memory_head o : o < 64 -> state_memory t o = struct_byte (state_struct t) o.
Proof. intros Ho. unfold state_memory. cbv zeta. change (offset_stats + offset_zone_stats) with 64. by replace (o <? 64) with true by lia. Qed.

Lemma memory_stats i o : 0 <= i < n -> 0 <= o < 20 -> state_memory t (64 + 20 * i + o) = struct_byte (zone_stats_struct (write_stats (tg_state t)) i) o.
Proof.
  intros Hi Ho. unfold state_memory. cbv zeta. fold n. change (offset_stats + offset_zone_stats) with 64. change sizeof_zone_stats with 20.
  replace (64 + 20 * i + o <? 64) with false by lia. replace (64 + 20 * i + o <? 64 + 20 * n) with true by lia.
  replace (64 + 20 * i + o - 64) with (i * 20 + o) by lia. by rewrite Z.div_add_l, (Z.div_small o), Z.add_0_r, Z.add_comm, Z.mod_add, Z.mod_small by lia.
Qed.

Lemma memory_zone i z o : zone i (tg_state t) = Some z -> 0 <= i < n -> 0 <= o < sizeof_zone_status ->
  state_memory t (imrsim_zone_status_ptr n + sizeof_zone_status * i + o) = zone_byte z o.
Proof.
  intros Ez Hi Ho. pose proof (zone_area_range n) as Ha. unfold state_memory. cbv zeta. fold n. change (offset_stats + offset_zone_stats) with 64. change sizeof_zone_stats with 20.
  change sizeof_zone_status with 553504 in *. set (p := imrsim_zone_status_ptr n) in *. replace (p + 553504 * i + o <? 64) with false by lia.
  replace (p + 553504 * i + o <? 64 + 20 * n) with false by lia. replace (p + 553504 * i + o <? p) with false by lia.
  replace (p + 553504 * i + o <? p + 553504 * n) with true by lia. replace (p + 553504 * i + o - p) with (i * 553504 + o) by lia.
  rewrite Z.div_add_l, (Z.div_small o), Z.add_0_r by lia. rewrite Z.add_comm, Z.mod_add, Z.mod_small by lia. by rewrite Ez.
Qed.
End layout.

(** ** What is read back *)

(** A memory that holds the state. *)
Definition holds_state (t : target) (m : memory) : Prop := forall o, 0 <= o < state_length (IMR_NUMZONES (tg_state t)) -> m o = state_memory t o.

Ltac bytes_of b := assert (b = 0 \/ b = 1 \/ b = 2 \/ b = 3 \/ b = 4 \/ b = 5 \/ b = 6 \/ b = 7) as [->|[->|[->|[->|[->|[->|[->| ->]]]]]]] by lia; try lia; try reflexivity.

Section read.
Context (t : target) (m : memory).
(** Only the fields before the zone statistics are read here. *)
Hypothesis (Hm : forall o, 0 <= o < 64 -> m o = state_memory t o).

Lemma read_head k off w v : Z.of_nat k = w -> 0 <= off -> off + w <= 64 ->
  (forall b, 0 <= b < w -> struct_byte (state_struct t) (off + b) = byte_of v b) -> get_le k m off = v mod 2 ^ (8 * w).
Proof.
  intros <- H1 H2 Hb. apply get_le_value. intros b Hb'. rewrite Hm, memory_head by lia. by apply Hb.
Qed.

Lemma read_header_eq :
  read_header m = MkHeader (u32 (hd_magic (tg_header t))) (u32 (hd_length (tg_header t))) (u32 (hd_version (tg_header t))) (u32 (hd_crc32 (tg_header t))).
Proof.
  unfold read_header, get32. rewrite !u32_eq. f_equal; apply (read_head 4 _ 4); try lia; intros b Hb; bytes_of b.
Qed.
Lemma read_config_eq :
  read_config m = MkDevConfig (u32 (out_of_policy_read_flag (tg_config t))) (u32 (out_of_policy_write_flag (tg_config t)))
    (r_time_to_rmw_zone (tg_config t) mod 2 ^ 16) (w_time_to_rmw_zone (tg_config t) mod 2 ^ 16).
Proof.
  unfold read_config, get32, get16. rewrite !u32_eq. f_equal; [apply (read_head 4 _ 4)..|apply (read_head 2 _ 2)|apply (read_head 2 _ 2)]; try lia; intros b Hb; bytes_of b.
Qed.
Lemma read_num_zones_eq : read_num_zones m = u32 (stats_num_zones t).
Proof. unfold read_num_zones, get32. rewrite !u32_eq. apply (read_head 4 _ 4); try lia; intros b Hb; bytes_of b. Qed.
Lemma read_idle_eq : get32 m 32 = u32 (dev_idle_time_max t) /\ get32 m 36 = u32 (dev_idle_time_min t).
Proof. unfold get32. rewrite !u32_eq. split; apply (read_head 4 _ 4); try lia; intros b Hb; bytes_of b. Qed.
Lemma read_totals_eq : get64 m 48 = u64 (extra_write_total (write_stats (tg_state t))) /\ get64 m 56 = u64 (write_total (write_stats (tg_state t))).
Proof. unfold get64. rewrite !u64_eq. split; apply (read_head 8 _ 8); try lia; intros b Hb; bytes_of b. Qed.
End read.

(** [z'] is [z], each field cut to its width. *)
Record same_zone (z z' : zone_status) : Prop := {
  sz_start : z_start z' = u64 (z_start z);
  sz_length : z_length z' = u32 (z_length z);
  sz_conds : z_conds z' = z_conds z mod 2 ^ 16;
  sz_type : z_type z' = z_type z mod 2 ^ 8;
  sz_flag : z_flag z' = z_flag z mod 2 ^ 8;
  sz_tracks : forall track block, 0 <= track < 64 -> 0 <= block < IMR_TOP_TRACK_SIZE -> z_tracks z' track block = z_tracks z track block mod 2 ^ 8;
  sz_map_size : z_map_size z' = u32 (z_map_size z);
  sz_live_count : z_live_count z' = u32 (z_live_count z);
  sz_generation : z_generation z' = u64 (z_generation z);
  sz_pba_map : forall j, 0 <= j < TOTAL_ITEMS -> z_pba_map z' j = i32 (z_pba_map z j);
  sz_key_map : forall j, 0 <= j < TOTAL_ITEMS -> z_key_map z' j = u32 (z_key_map z j);
}.

Section read_zone.
Context (z : zone_status) (m : memory) (base : Z).
Hypothesis (Hm : forall o, 0 <= o < sizeof_zone_status -> m (base + o) = zone_byte z o).

Lemma read_zone_field k off w v : Z.of_nat k = w -> 0 <= off -> off + w <= sizeof_zone_status ->
  (forall b, 0 <= b < w -> zone_byte z (off + b) = byte_of v b) -> get_le k m (base + off) = v mod 2 ^ (8 * w).
Proof.
  intros <- H1 H2 Hb. apply get_le_value. intros b Hb'. rewrite <- Z.add_assoc, Hm by lia. by apply Hb.
Qed.
Lemma read_zone_byte off v : 0 <= off < sizeof_zone_status -> zone_byte z off = byte_of v 0 -> m (base + off) = v mod 2 ^ 8.
Proof. intros H1 H2. by rewrite Hm, H2, byte_of_0. Qed.
Lemma read_zone_map off (f : Z -> Z) j : 0 <= off -> off + 4 * TOTAL_ITEMS <= sizeof_zone_status -> 0 <= j < TOTAL_ITEMS ->
  (forall o, 0 <= o < 4 * TOTAL_ITEMS -> zone_byte z (off + o) = byte_of (f (o / 4)) (o mod 4)) -> get32 m (base + off + 4 * j) = u32 (f j).
Proof.
  intros H1 H2 Hj Hb. change TOTAL_ITEMS with 65536 in *. rewrite <- Z.add_assoc, u32_eq. apply (read_zone_field 4 _ 4); try lia. intros b Hb'.
  rewrite <- Z.add_assoc, Hb by lia. f_equal; [f_equal|]; Z.to_euclidean_division_equations; lia.
Qed.

Lemma read_zone_same : same_zone z (read_zone m base).
Proof.
  assert (forall o, offset_pba_map <= o < offset_key_map -> zone_byte z o = byte_of (z_pba_map z ((o - offset_pba_map) / 4)) ((o - offset_pba_map) mod 4)) as Hp.
  { intros o Ho. unfold zone_byte, offset_tracks, offset_map_size, offset_pba_map, offset_key_map in *. zcase; first [lia|done]. }
  assert (forall o, offset_key_map <= o -> zone_byte z o = byte_of (z_key_map z ((o - offset_key_map) / 4)) ((o - offset_key_map) mod 4)) as Hk.
  { intros o Ho. unfold zone_byte, offset_tracks, offset_map_size, offset_pba_map, offset_key_map in *. zcase; first [lia|done]. }
  assert (forall o, offset_tracks <= o < offset_map_size ->
    zone_byte z o = byte_of (z_tracks z ((o - offset_tracks) / IMR_TOP_TRACK_SIZE) ((o - offset_tracks) mod IMR_TOP_TRACK_SIZE)) 0) as Ht.
  { intros o Ho. unfold zone_byte, offset_tracks, offset_map_size, offset_pba_map, offset_key_map in *. zcase; first [lia|done]. }
  split; unfold read_zone; cbn [z_start z_length z_conds z_type z_flag z_tracks z_map_size z_live_count z_generation z_pba_map z_key_map].
  - rewrite u64_eq, <- (Z.add_0_r base). apply (read_zone_field 8 _ 8); try done. intros b Hb. bytes_of b.
  - rewrite u32_eq. apply (read_zone_field 4 _ 4); try done. intros b Hb. bytes_of b.
  - apply (read_zone_field 2 _ 2); try done. intros b Hb. bytes_of b.
  - by apply read_zone_byte.
  - by apply read_zone_byte.
  - intros track block H1 H2. rewrite <- !Z.add_assoc. change IMR_TOP_TRACK_SIZE with 456 in *. unfold offset_tracks, offset_map_size in *. apply read_zone_byte; [change sizeof_zone_status with 553504; lia|].
    rewrite Ht by lia. f_equal. replace (16 + (456 * track + block) - 16) with (track * 456 + block) by lia.
    rewrite Z.div_add_l, (Z.div_small block), Z.add_0_r by lia. by rewrite Z.add_comm, Z.mod_add, Z.mod_small by lia.
  - rewrite u32_eq. apply (read_zone_field 4 _ 4); try done. intros b Hb. bytes_of b.
  - rewrite u32_eq. apply (read_zone_field 4 _ 4); try done. intros b Hb. bytes_of b.
  - rewrite u64_eq. apply (read_zone_field 8 _ 8); try done. intros b Hb. bytes_of b.
  - intros j Hj. rewrite (read_zone_map _ (z_pba_map z)); [apply i32_of_u32|done|done|done|]. intros o Ho. change TOTAL_ITEMS with 65536 in *. rewrite Hp by (unfold offset_pba_map, offset_key_map; lia).
    by replace (offset_pba_map + o - offset_pba_map) with o by lia.
  - intros j Hj. apply (read_zone_map _ (z_key_map z)); [done|done|done|]. intros o Ho. change TOTAL_ITEMS with 65536 in *. rewrite Hk by (unfold offset_key_map; lia).
    by replace (offset_key_map + o - offset_key_map) with o by lia.
Qed.
End read_zone.

(** Every zone is read back. *)
Lemma read_zones_same t m i z : holds_state t m -> 0 <= i < IMR_NUMZONES (tg_state t) -> zone i (tg_state t) = Some z ->
  exists z', nthZ (read_zones m (IMR_NUMZONES (tg_state t))) i = Some z' /\ same_zone z z'.
Proof.
  intros Hm Hi Ez. unfold read_zones. rewrite nthZ_map, nthZ_seqZ. replace (_ && _) with true by lia. eexists. split; [reflexivity|]. cbn [Z.add].
  apply read_zone_same. intros o Ho. set (n := IMR_NUMZONES (tg_state t)) in *. pose proof (zone_area_range n). change sizeof_zone_status with 553504 in *.
  rewrite Hm; [by apply memory_zone|]. fold n. unfold state_length. change sizeof_zone_status with 553504. lia.
Qed.
Lemma lenZ_read_zones m n : 0 <= n -> lenZ (read_zones m n) = n.
Proof. intros Hn. unfold read_zones. by rewrite lenZ_map, lenZ_seqZ. Qed.
