(* ===== verification/ImrIo.v ===== *)
(** The data path of the IMRSim target: how a bio is mapped, read, written or
    discarded ([dm-imrsim.c], [imrsim_map_sector], [imrsim_read_rule_check], and
    from [imrsim_bio_copy_from_buffer] to [imrsim_end_io]).

    Buffers are lists of sectors: every offset and length the code passes is a
    multiple of the sector size. The error log ([imrsim_log_error]), the idle
    times ([imrsim_dev_idle_update]) and the write-amplification pages of
    [imrsim_rmw_task] are left out: the first two are only reported, and the
    active write rule never returns a positive value, which is what makes the
    code use the third. *)

From S2P Require Import Prelude StdMap ImrPrelude ImrGeometry ImrBloom ImrState ImrReadTree ImrLevels ImrSegment ImrPlacement ImrAccounting ImrLsm ImrZones ImrGc.

Definition EIO : Z := 5.
Definition IMR_ERR_OUT_OF_POLICY : Z := -242.
Definition IMRSIM_READ_ZERO_FILL : Z := 1.

(** ** Addresses *)

(** [c->start + dm_target_offset(ti, sector)]: the constructor only accepts
    [ti->begin = 0], and stores [c->start] as [imr_lsm_output_bdev_start]. *)
Definition imrsim_map_sector (sector : Z) (s : kstate) : Z := u64 (output_bdev_start s + sector).

Definition zero_block : block := replicate 8 0.

(** What the forward map of a logical zone holds at an offset. *)
Definition mapped_block (zone_idx offset : Z) (s : kstate) : Z :=
  match zone zone_idx s with Some z => z_pba_map z offset | None => -1 end.

(** ** Whole blocks *)

Definition imrsim_read_logical_block_page_locked (logical_lba : Z) (s : kstate) (d : device) : kstate * device * cres block :=
  let zone_idx := u32 (Z.shiftr (Z.shiftr logical_lba IMR_BLOCK_SIZE_SHIFT) IMR_ZONE_SIZE_SHIFT) in
  if zone_idx >=? IMR_NUMZONES s then (s, d, Fail IMR_ERR_OUT_RANGE)
  else
    let block_offset := u32 (Z.shiftr (u64 (logical_lba - zone_idx_lba zone_idx)) IMR_BLOCK_SIZE_SHIFT) in
    if block_offset >=? TOTAL_ITEMS then (s, d, Fail IMR_ERR_READ_BORDER)
    else
      let '(s, found) := imr_lsm_read (Z.shiftr logical_lba IMR_BLOCK_SIZE_SHIFT) s in
      let '(s, pba) :=
        match found with
        | LOOKUP_VALID lsm_pba => (s, Some lsm_pba)
        | LOOKUP_DELETED => (s, None)
        | LOOKUP_MISS =>
            let b := mapped_block zone_idx block_offset s in
            if negb (b =? -1) then (imr_lsm_record_fallback s, Some (u64 (Z.shiftl (u32 b) IMR_BLOCK_SIZE_SHIFT))) else (s, None)
        end in
      match pba with
      | None => (s, d, Ok zero_block)
      | Some pba => let '(d, r) := imrsim_read_data_page (imrsim_map_sector pba s) d in (s, d, r)
      end.

(** The synchronous write of one block: the append is in flight until the data
    page is written. *)
Definition imrsim_write_full_block_page_locked (logical_lba : Z) (page : block) (s : kstate) (d : device) : kstate * device * Z :=
  let zone_idx := u32 (Z.shiftr (Z.shiftr logical_lba IMR_BLOCK_SIZE_SHIFT) IMR_ZONE_SIZE_SHIFT) in
  if zone_idx >=? IMR_NUMZONES s then (s, d, IMR_ERR_OUT_RANGE)
  else
    match st_alloc s with
    | (s, None) => (s, d, - ENOMEM)
    | (s, Some _) =>
        match imrsim_active_write_rule_check logical_lba 8 s with
        | (s, Fail e) => (s, d, e)
        | (s, Ok remapped_lba) =>
            let s := set_append_writes_inflight (i32 (append_writes_inflight s + 1)) s in
            let '(d, ret) := imrsim_write_data_page (imrsim_map_sector remapped_lba s) page d in
            let s := if ret =? 0 then imrsim_ptask_queue_zone_status_locked zone_idx s else s in
            (set_append_writes_inflight (i32 (append_writes_inflight s - 1)) s, d, ret)
        end
    end.

(** ** Buffers of a bio

    [bio_for_each_segment]: a bio is a list of segments. *)

(** Gathers [count] sectors from offset [skip] on; [copied] are done. *)
Fixpoint imrsim_bio_copy_to_buffer (segs : list (list Z)) (skip count copied : Z) : cres (list Z) :=
  match segs with
  | [] => if copied =? count then Ok [] else Fail (- EIO)
  | seg :: segs =>
      if skip >=? lenZ seg then imrsim_bio_copy_to_buffer segs (skip - lenZ seg) count copied
      else
        let seg_len := if lenZ seg - skip >? count - copied then count - copied else lenZ seg - skip in
        let part := take (Z.to_nat seg_len) (drop (Z.to_nat skip) seg) in
        if copied + seg_len =? count then Ok part
        else match imrsim_bio_copy_to_buffer segs 0 count (copied + seg_len) with
             | Ok rest => Ok (part ++ rest)
             | Fail e => Fail e
             end
  end.

(** Scatters [count] sectors of [buffer] from offset [skip] on. *)
Fixpoint imrsim_bio_copy_from_buffer (segs : list (list Z)) (buffer : list Z) (skip count copied : Z) : list (list Z) * Z :=
  match segs with
  | [] => ([], if copied =? count then 0 else - EIO)
  | seg :: segs =>
      if skip >=? lenZ seg then let '(segs, ret) := imrsim_bio_copy_from_buffer segs buffer (skip - lenZ seg) count copied in (seg :: segs, ret)
      else
        let seg_len := if lenZ seg - skip >? count - copied then count - copied else lenZ seg - skip in
        let part := take (Z.to_nat seg_len) (drop (Z.to_nat copied) buffer) in
        let seg := take (Z.to_nat skip) seg ++ part ++ drop (Z.to_nat (skip + seg_len)) seg in
        if copied + seg_len =? count then (seg :: segs, 0)
        else let '(segs, ret) := imrsim_bio_copy_from_buffer segs buffer 0 count (copied + seg_len) in (seg :: segs, ret)
  end.

(** ** Partial blocks *)

(** [page] with [part] from sector [offset] on. *)
Definition overlay (page : block) (offset : Z) (part : list Z) : block :=
  take (Z.to_nat offset) page ++ part ++ drop (Z.to_nat (offset + lenZ part)) page.

(** The loop over the blocks of a bio; each iteration covers at least one sector. *)
Fixpoint partial_loop (fuel : nat) (write zero_fill : bool) (lba bio_sectors done : Z) (segs : list (list Z)) (s : kstate) (d : device)
  : kstate * device * list (list Z) * Z :=
  match fuel with
  | O => (s, d, segs, 0)
  | S fuel =>
      if done >=? bio_sectors then (s, d, segs, 0)
      else
        let current_lba := u64 (lba + done) in
        let block_lba := Z.ldiff current_lba 7 in
        let block_offset := current_lba - block_lba in
        let span := if 8 - block_offset >? bio_sectors - done then bio_sectors - done else 8 - block_offset in
        match st_alloc s with
        | (s, None) => (s, d, segs, - ENOMEM)
        | (s, Some _) =>
            let '(s, d, page) := if zero_fill then (s, d, Ok zero_block) else imrsim_read_logical_block_page_locked block_lba s d in
            match page with
            | Fail e => (s, d, segs, e)
            | Ok page =>
                let '(s, d, segs, ret) :=
                  if write then
                    match imrsim_bio_copy_to_buffer segs done span 0 with
                    | Fail e => (s, d, segs, e)
                    | Ok part =>
                        let '(s, d, ret) := imrsim_write_full_block_page_locked block_lba (overlay page block_offset part) s d in (s, d, segs, ret)
                    end
                  else
                    let '(segs, ret) := imrsim_bio_copy_from_buffer segs (drop (Z.to_nat block_offset) page) done span 0 in (s, d, segs, ret) in
                if negb (ret =? 0) then (s, d, segs, ret) else partial_loop fuel write zero_fill lba bio_sectors (done + span) segs s d
            end
        end
  end.

(** [cdir] is [READ] or [WRITE]. *)
Definition imrsim_partial_data_io_locked (write zero_fill : bool) (lba bio_sectors : Z) (segs : list (list Z)) (s : kstate) (d : device)
  : kstate * device * list (list Z) * Z :=
  partial_loop (Z.to_nat bio_sectors) write zero_fill lba bio_sectors 0 segs s d.

(** The worker of a queued partial bio; [None] while it waits for a zone copy. *)
Definition imrsim_partial_data_io_work (write zero_fill : bool) (lba bio_sectors : Z) (segs : list (list Z)) (s : kstate) (d : device)
  : option (kstate * device * list (list Z) * Z) :=
  if negb (imrsim_target_ready_locked s) then Some (s, d, segs, - ENODEV)
  else if imr_lsm_zone_copy_overlaps_locked lba bio_sectors s then None
  else Some (imrsim_partial_data_io_locked write zero_fill lba bio_sectors segs s d).

(** ** Mapping a bio *)

(** [imrsim_read_rule_check] of a bio that is not internal: the return value and
    the sector the bio is redirected to. *)
Definition imrsim_read_rule_check (lba zone_idx bio_sectors : Z) (policy_flag : bool) (s : kstate) : kstate * Z * Z :=
  let zlba := zone_idx_lba zone_idx in
  let block_offset := u32 (Z.shiftr (u64 (lba - zlba)) IMR_BLOCK_SIZE_SHIFT) in
  let in_block := u64 (lba - zlba) mod 8 in
  let '(s, found) := imr_lsm_read (Z.shiftr lba IMR_BLOCK_SIZE_SHIFT) s in
  let '(s, lba, zero_fill) :=
    match found with
    | LOOKUP_VALID lsm_pba => (s, u64 (lsm_pba + in_block), false)
    | LOOKUP_DELETED => (s, lba, true)
    | LOOKUP_MISS =>
        let b := mapped_block zone_idx block_offset s in
        if negb (b =? -1) then (imr_lsm_record_fallback s, u64 (u64 (Z.shiftl (u32 b) IMR_BLOCK_SIZE_SHIFT) + in_block), false) else (s, lba, true)
    end in
  let check_zone_idx := imrsim_lba_zone_idx lba in
  if check_zone_idx >=? IMR_NUMZONES s then (s, IMR_ERR_OUT_RANGE, lba)
  else if u64 (lba + bio_sectors) >? u64 (zone_idx_lba check_zone_idx + num_sectors_zone) then
    let w := write_stats s in
    let s := set_write_stats (set_z_span_zones_count (upd_fn (z_span_zones_count w) check_zone_idx (u32 (z_span_zones_count w check_zone_idx + 1))) w) s in
    (s, if negb policy_flag then IMR_ERR_READ_BORDER else IMR_ERR_OUT_OF_POLICY, lba)
  else (s, if (zero_fill : bool) then IMRSIM_READ_ZERO_FILL else 0, lba).

(** A bio: its first sector, its length, its direction, and whether it discards. *)
Record bio := MkBio { bi_sector : Z; bi_sectors : Z; bi_write : bool; bi_discard : bool }.

(** What [imrsim_map] does with a bio: [DM_MAPIO_REMAPPED] to a sector (and
    whether an append is in flight for it), handed to the partial-I/O worker,
    completed with a code, or refused. *)
Inductive verdict :=
| Remapped (sector : Z) (append_reserved : bool)
| Queued (zero_fill : bool)
| Completed (ret : Z)
| IoError.

(** [imrsim_queue_partial_data_io]: the task is allocated; the work queue exists
    while the target does. *)
Definition imrsim_queue_partial_data_io (zero_fill : bool) (s : kstate) : kstate * verdict :=
  match st_alloc s with
  | (s, None) => (s, Completed (- ENOMEM))
  | (s, Some _) => (s, Queued zero_fill)
  end.

(** [len] is [ti->len]; the policy is [out_of_policy_read_flag] of [dev_config]
    (the write flag only decides whether a passed read is delayed). [None] while
    the bio waits for a zone copy. *)
Definition imrsim_map (len : Z) (policy_rflag : bool) (b : bio) (s : kstate) : option (kstate * verdict) :=
  let lba := bi_sector b in
  let zone_idx := u32 (Z.shiftr (Z.shiftr lba IMR_BLOCK_SIZE_SHIFT) IMR_ZONE_SIZE_SHIFT) in
  let sectors := bi_sectors b in
  if negb (imrsim_target_ready_locked s) then Some (s, IoError)
  else if (negb (sectors =? 0) || bi_discard b) && imr_lsm_zone_copy_overlaps_locked lba sectors s then None
  else if (sectors =? 0) && negb (bi_discard b) then Some (s, Remapped lba false)
  else
    let s := set_ptask (set_ps_flag (Z.lor (ps_flag (ptask s)) IMR_STATS_CHANGE) (ptask s)) s in
    if IMR_NUMZONES s <=? zone_idx then Some (s, IoError)
    else if (sectors >? len) || (lba >? len - sectors) then Some (s, IoError)
    else if bi_discard b then
      let '(s, ret) := imrsim_lsm_discard_lba_range_locked lba sectors s in
      Some (s, if negb (ret =? 0) then IoError else Completed 0)
    else if negb (sectors =? 8) || negb (Z.land lba 7 =? 0) then
      let w := write_stats s in
      let s := if bi_write b
               then set_write_stats (set_z_unaligned_count (upd_fn (z_unaligned_count w) zone_idx (u32 (z_unaligned_count w zone_idx + 1))) w) s
               else s in
      Some (imrsim_queue_partial_data_io false s)
    else if bi_write b then
      match imrsim_active_write_rule_check lba sectors s with
      | (s, Fail _) => Some (s, IoError)
      | (s, Ok pba) =>
          let s := set_append_writes_inflight (i32 (append_writes_inflight s + 1)) s in
          let s := imrsim_ptask_queue_zone_status_locked zone_idx s in
          Some (s, Remapped (imrsim_map_sector pba s) true)
      end
    else
      let '(s, ret, sector) := imrsim_read_rule_check lba zone_idx sectors policy_rflag s in
      if ret =? IMRSIM_READ_ZERO_FILL then Some (imrsim_queue_partial_data_io true s)
      else if negb (ret =? 0) && negb policy_rflag then Some (s, IoError)
      else Some (s, Remapped (imrsim_map_sector sector s) false).

(** The completion of a remapped bio. *)
Definition imrsim_end_io (append_reserved : bool) (s : kstate) : kstate :=
  if append_reserved then set_append_writes_inflight (i32 (append_writes_inflight s - 1)) s else s.
