(* ===== verification/ImrLayout.v ===== *)
(** The layout of the physical zones as a whole: which block each key maps to,
    which keys the append slots of each zone hold, and how many of them are live.
    Appending, deleting and collecting a zone keep it consistent. *)

From S2P Require Import Prelude StdMap ImrPrelude ImrGeometry.

(** ** Counting *)

Definition zrange (n : Z) : list Z := map Z.of_nat (seq 0 (Z.to_nat n)).
Definition count {A} (P : A -> bool) (l : list A) : Z := lenZ (List.filter P l).

Lemma elem_of_zrange n j : j ∈ zrange n <-> 0 <= j < n.
Proof.
  unfold zrange. rewrite list_elem_of_fmap. split.
  - intros (i & -> & Hi%elem_of_seq). lia.
  - intros Hj. exists (Z.to_nat j). rewrite elem_of_seq. lia.
Qed.
Lemma NoDup_zrange n : NoDup (zrange n).
Proof. apply NoDup_fmap; [intros ???; lia|apply NoDup_seq]. Qed.
Lemma zrange_S n : 0 <= n -> zrange (n + 1) = zrange n ++ [n].
Proof.
  intros Hn. unfold zrange. rewrite Z2Nat.inj_add, Nat.add_1_r, seq_S, map_app by lia. cbn. by rewrite Z2Nat.id.
Qed.
Lemma lenZ_zrange n : 0 <= n -> lenZ (zrange n) = n.
Proof. intros Hn. unfold lenZ, zrange. rewrite length_map, length_seq. lia. Qed.

Lemma count_nil {A} (P : A -> bool) : count P [] = 0.
Proof. done. Qed.
Lemma count_cons {A} (P : A -> bool) x l : count P (x :: l) = Z.b2z (P x) + count P l.
Proof. unfold count. cbn. destruct (P x); [rewrite lenZ_cons; cbn; lia|cbn; lia]. Qed.
Lemma count_app {A} (P : A -> bool) l k : count P (l ++ k) = count P l + count P k.
Proof. induction l as [|x l IH]; [change (count P k = 0 + count P k); lia|]. rewrite <- app_comm_cons, !count_cons. lia. Qed.
Lemma count_range {A} (P : A -> bool) l : 0 <= count P l <= lenZ l.
Proof.
  induction l as [|x l IH]; [change (0 <= 0 <= 0); lia|]. rewrite count_cons, lenZ_cons. destruct (P x); cbn; lia.
Qed.
Lemma count_ext {A} (P Q : A -> bool) l : (forall x, x ∈ l -> P x = Q x) -> count P l = count Q l.
Proof.
  induction l as [|x l IH]; intros H; [done|]. rewrite !count_cons, (H x) by (by left). rewrite IH; [done|]. intros y Hy. apply H. by right.
Qed.
Lemma count_zero {A} (P : A -> bool) l : (forall x, x ∈ l -> P x = false) -> count P l = 0.
Proof.
  induction l as [|x l IH]; intros H; [done|]. rewrite count_cons, (H x) by (by left). rewrite IH; [done|]. intros y Hy. apply H. by right.
Qed.
Lemma count_map {A B} (f : A -> B) (P : B -> bool) l : count P (map f l) = count (fun x => P (f x)) l.
Proof. induction l as [|x l IH]; [done|]. cbn [map]. by rewrite !count_cons, IH. Qed.
Lemma count_perm {A} (P : A -> bool) l k : l ≡ₚ k -> count P l = count P k.
Proof. induction 1 as [|x l k _ IH|x y l|l k m _ IH1 _ IH2]; rewrite ?count_cons; lia. Qed.
Lemma count_pos {A} (P : A -> bool) l x : x ∈ l -> P x = true -> 0 < count P l.
Proof.
  induction l as [|y l IH]; [by intros ?%elem_of_nil|]. intros [->|H]%elem_of_cons Hp; rewrite count_cons; pose proof (count_range P l).
  - rewrite Hp. cbn. lia.
  - specialize (IH H Hp). destruct (P y); cbn; lia.
Qed.
(** Two predicates that differ at one element at most. *)
Lemma count_change `{EqDecision A} (P Q : A -> bool) l x :
  NoDup l -> x ∈ l -> (forall y, y ∈ l -> y <> x -> Q y = P y) -> count Q l = count P l - Z.b2z (P x) + Z.b2z (Q x).
Proof.
  induction l as [|y l IH]; [by intros _ ?%elem_of_nil|]. intros [Hni Hnd]%NoDup_cons Hx Hq. rewrite !count_cons.
  destruct (decide (y = x)) as [->|Hne].
  - rewrite (count_ext Q P l); [lia|]. intros z Hz. apply Hq; [by right|]. by intros ->.
  - apply elem_of_cons in Hx as [->|Hx]; [done|]. rewrite (Hq y) by (by left || done). rewrite IH; [lia|done|done|].
    intros z Hz. apply Hq. by right.
Qed.

(** ** Layouts *)

Record layout := MkLayout {
  ly_fwd : Z -> option Z;
  ly_size : Z -> Z;
  ly_live : Z -> Z;
  ly_key : Z -> Z -> Z;
}.

(** Slot [j] of zone [i] holds the current version of its key. *)
Definition live_at (L : layout) (i j : Z) : bool :=
  match ly_fwd L (ly_key L i j) with Some p => p =? imr_lsm_zone_append_pba i j | None => false end.

(** Every mapped key has its block in an occupied slot that names it, and the
    live count of a zone is the number of its live slots. *)
Record layout_ok (N : Z) (L : layout) : Prop := {
  lo_num : 0 <= N <= 65535;
  lo_size : forall i, 0 <= i < N -> 0 <= ly_size L i <= TOTAL_ITEMS;
  lo_fwd : forall k p, ly_fwd L k = Some p ->
    exists i j, 0 <= i < N /\ 0 <= j < ly_size L i /\ ly_key L i j = k /\ p = imr_lsm_zone_append_pba i j;
  lo_live : forall i, 0 <= i < N -> ly_live L i = count (live_at L i) (zrange (ly_size L i));
}.

(** Equality where it matters: zones below [N] and occupied slots. *)
Record layout_eq (N : Z) (L L' : layout) : Prop := {
  le_fwd : forall k, ly_fwd L' k = ly_fwd L k;
  le_size : forall i, 0 <= i < N -> ly_size L' i = ly_size L i;
  le_live : forall i, 0 <= i < N -> ly_live L' i = ly_live L i;
  le_key : forall i j, 0 <= i < N -> 0 <= j < ly_size L i -> ly_key L' i j = ly_key L i j;
}.

Lemma layout_eq_refl N L : layout_eq N L L.
Proof. by split. Qed.
Lemma layout_eq_trans N L1 L2 L3 : layout_eq N L1 L2 -> layout_eq N L2 L3 -> layout_eq N L1 L3.
Proof.
  intros [A1 A2 A3 A4] [B1 B2 B3 B4]. split; intros.
  - by rewrite B1.
  - by rewrite B2, A2.
  - by rewrite B3, A3.
  - rewrite B4, A4 by (done || by rewrite A2). done.
Qed.
Lemma layout_ok_eq N L L' : layout_eq N L L' -> layout_ok N L -> layout_ok N L'.
Proof.
  intros [E1 E2 E3 E4] [H0 H1 H2 H3]. split; [done| | |].
  - intros i Hi. rewrite E2 by done. by apply H1.
  - intros k p. rewrite E1. intros (i & j & Hi & Hj & Hk & Hp)%H2. exists i, j. by rewrite E2, E4.
  - intros i Hi. rewrite E2, E3, H3 by done. apply count_ext. intros j Hj%elem_of_zrange. unfold live_at. by rewrite E4, E1.
Qed.

Lemma append_pba_inj i j i' j' :
  0 <= i < 2 ^ 32 -> 0 <= i' < 2 ^ 32 -> 0 <= j < TOTAL_ITEMS -> 0 <= j' < TOTAL_ITEMS ->
  imr_lsm_zone_append_pba i j = imr_lsm_zone_append_pba i' j' -> i = i' /\ j = j'.
Proof.
  intros Hi Hi' Hj Hj' E. rewrite !append_pba_eq in E by done. pose proof (slot_block_range j Hj). pose proof (slot_block_range j' Hj').
  assert (i = i') as -> by lia. split; [done|]. rewrite <- (block_slot_block j), <- (block_slot_block j') by done. f_equal. lia.
Qed.

(** ** The operations *)

Definition upd {A} (f : Z -> A) (i : Z) (v : A) : Z -> A := fun j => if decide (j = i) then v else f j.
Lemma upd_eq {A} (f : Z -> A) i v : upd f i v i = v.
Proof. unfold upd. by rewrite decide_True. Qed.
Lemma upd_ne {A} (f : Z -> A) i v j : j <> i -> upd f i v j = f j.
Proof. intros H. unfold upd. by rewrite decide_False. Qed.

(** The live counts after [k] lost its block. *)
Definition unmap_live (L : layout) (k : Z) : Z -> Z :=
  match ly_fwd L k with
  | Some p => let i := imrsim_lba_zone_idx p in upd (ly_live L) i (ly_live L i - 1)
  | None => ly_live L
  end.

Definition ly_delete (k : Z) (L : layout) : layout :=
  MkLayout (upd (ly_fwd L) k None) (ly_size L) (unmap_live L k) (ly_key L).

(** [k] moves to the next slot of zone [i]. *)
Definition ly_append (i k : Z) (L : layout) : layout :=
  let L' := ly_delete k L in
  let j := ly_size L i in
  MkLayout (upd (ly_fwd L) k (Some (imr_lsm_zone_append_pba i j))) (upd (ly_size L) i (j + 1))
    (upd (ly_live L') i (ly_live L' i + 1)) (upd (ly_key L) i (upd (ly_key L i) j k)).

Section ops.
Context (N : Z) (L : layout).
Hypothesis (Hok : layout_ok N L).

Lemma zone_u32 i : 0 <= i < N -> 0 <= i < 2 ^ 32.
Proof. pose proof (lo_num _ _ Hok). lia. Qed.

Lemma fwd_slot k p : ly_fwd L k = Some p ->
  exists i j, 0 <= i < N /\ 0 <= j < ly_size L i /\ 0 <= j < TOTAL_ITEMS /\ ly_key L i j = k /\ p = imr_lsm_zone_append_pba i j /\
    imrsim_lba_zone_idx p = i.
Proof.
  intros H. destruct (lo_fwd _ _ Hok k p H) as (i & j & Hi & Hj & Hk & ->). pose proof (lo_size _ _ Hok i Hi).
  exists i, j. split_and!; try done; try lia. apply append_pba_zone; [by apply zone_u32|lia].
Qed.

(** Live slots are the blocks of their keys. *)
Lemma live_at_fwd i j : live_at L i j = true <-> ly_fwd L (ly_key L i j) = Some (imr_lsm_zone_append_pba i j).
Proof.
  unfold live_at. destruct (ly_fwd L (ly_key L i j)) as [p|]; [|done]. rewrite Z.eqb_eq. split; [by intros ->|by intros [= ->]].
Qed.

(** A mapped key makes the live count of its zone positive. *)
Lemma mapped_live k p : ly_fwd L k = Some p ->
  0 <= imrsim_lba_zone_idx p < N /\ 0 < ly_live L (imrsim_lba_zone_idx p) <= TOTAL_ITEMS.
Proof.
  intros H. destruct (fwd_slot k p H) as (i & j & Hi & Hj & Hjt & Hk & Hp & ->). split; [done|]. rewrite (lo_live _ _ Hok i Hi). split.
  - apply count_pos with j; [by apply elem_of_zrange|]. apply live_at_fwd. by rewrite Hk, H, Hp.
  - pose proof (count_range (live_at L i) (zrange (ly_size L i))) as Hc. pose proof (lo_size _ _ Hok i Hi). rewrite lenZ_zrange in Hc by lia. lia.
Qed.

Lemma live_range i : 0 <= i < N -> 0 <= ly_live L i <= ly_size L i.
Proof.
  intros Hi. rewrite (lo_live _ _ Hok i Hi). pose proof (count_range (live_at L i) (zrange (ly_size L i))) as Hc.
  pose proof (lo_size _ _ Hok i Hi). rewrite lenZ_zrange in Hc by lia. lia.
Qed.

(** A key is live in one slot only. *)
Lemma live_unique i j i' j' :
  0 <= i < N -> 0 <= j < ly_size L i -> 0 <= i' < N -> 0 <= j' < ly_size L i' ->
  live_at L i j = true -> live_at L i' j' = true -> ly_key L i j = ly_key L i' j' -> i = i' /\ j = j'.
Proof.
  intros Hi Hj Hi' Hj' H1%live_at_fwd H2%live_at_fwd E. rewrite E, H2 in H1. injection H1 as H1.
  pose proof (lo_size _ _ Hok i Hi). pose proof (lo_size _ _ Hok i' Hi').
  destruct (append_pba_inj i' j' i j) as [-> ->]; [by apply zone_u32|by apply zone_u32|lia|lia|done|done].
Qed.

(** After the unmapping of [k], only its slot stops being live. *)
Lemma unmap_count k i : 0 <= i < N ->
  unmap_live L k i = count (fun j => live_at L i j && negb (bool_decide (ly_key L i j = k))) (zrange (ly_size L i)).
Proof.
  intros Hi. unfold unmap_live. destruct (ly_fwd L k) as [p|] eqn:E.
  - destruct (fwd_slot k p E) as (i0 & j0 & Hi0 & Hj0 & Hjt & Hk & Hp & ->).
    assert (live_at L i0 j0 = true) as Hl by (apply live_at_fwd; by rewrite Hk, E, Hp).
    assert (forall j, 0 <= j < ly_size L i -> (i, j) <> (i0, j0) -> live_at L i j && negb (bool_decide (ly_key L i j = k)) = live_at L i j) as Hsame.
    { intros j Hj Hne. destruct (live_at L i j) eqn:Ej; [|done]. rewrite bool_decide_eq_false_2; [done|]. intros Ek.
      destruct (live_unique i j i0 j0) as [-> ->]; try done. congruence. }
    destruct (decide (i = i0)) as [->|Hne].
    + rewrite upd_eq, (lo_live _ _ Hok i0 Hi0). rewrite (count_change (live_at L i0) (fun j => live_at L i0 j && negb (bool_decide (ly_key L i0 j = k))) _ j0 (NoDup_zrange _)).
      * cbv beta. rewrite Hl, bool_decide_eq_true_2 by done. cbn. lia.
      * by apply elem_of_zrange.
      * intros j Hj%elem_of_zrange Hne. apply Hsame; [done|congruence].
    + rewrite upd_ne, (lo_live _ _ Hok i Hi) by done. apply count_ext. intros j Hj%elem_of_zrange. rewrite Hsame; [done|done|congruence].
  - rewrite (lo_live _ _ Hok i Hi). apply count_ext. intros j _. destruct (live_at L i j) eqn:Ej; [|done].
    rewrite bool_decide_eq_false_2; [done|]. intros Ek. apply live_at_fwd in Ej. by rewrite Ek, E in Ej.
Qed.

Lemma ly_delete_ok k : layout_ok N (ly_delete k L).
Proof.
  split; [apply Hok|apply Hok| |].
  - intros k' p. cbn. destruct (decide (k' = k)) as [->|Hne]; [by rewrite upd_eq|]. rewrite upd_ne by done. apply Hok.
  - intros i Hi. cbn [ly_delete ly_live ly_size]. rewrite unmap_count by done. apply count_ext. intros j _.
    unfold live_at. cbn. destruct (decide (ly_key L i j = k)) as [->|Hne].
    + rewrite upd_eq, bool_decide_eq_true_2 by done. by rewrite andb_false_r.
    + rewrite upd_ne, bool_decide_eq_false_2 by done. by rewrite andb_true_r.
Qed.
End ops.

Lemma ly_append_ok N L i k : layout_ok N L -> 0 <= i < N -> ly_size L i < TOTAL_ITEMS -> layout_ok N (ly_append i k L).
Proof.
  intros Hok Hi Hs. pose proof (ly_delete_ok N L Hok k) as Hd. set (L1 := ly_delete k L) in *.
  pose proof (lo_size _ _ Hok i Hi) as Hsi.
  split; [apply Hok| | |].
  - intros i' Hi'. cbn. destruct (decide (i' = i)) as [->|Hne]; [rewrite upd_eq; lia|]. rewrite upd_ne by done. by apply Hok.
  - intros k' p. cbn. destruct (decide (k' = k)) as [->|Hne].
    + rewrite upd_eq. intros [= <-]. exists i, (ly_size L i). rewrite !upd_eq. split_and!; try done; lia.
    + rewrite upd_ne by done. intros (i' & j' & Hi' & Hj' & Hk' & Hp')%(lo_fwd _ _ Hok). exists i', j'.
      destruct (decide (i' = i)) as [->|Hni]; [|rewrite !upd_ne by done; done]. rewrite !upd_eq, upd_ne by lia. split_and!; try done; lia.
  - intros i' Hi'. assert (forall j, 0 <= j < ly_size L i' -> live_at (ly_append i k L) i' j = live_at L1 i' j) as Hold.
    { intros j Hj. pose proof (lo_size _ _ Hok i' Hi') as Hsi'. assert (ly_key (ly_append i k L) i' j = ly_key L i' j) as Ek.
      { cbn. destruct (decide (i' = i)) as [->|]; [|by rewrite upd_ne]. rewrite upd_eq, upd_ne by lia. done. }
      unfold live_at. rewrite Ek. cbn. destruct (decide (ly_key L i' j = k)) as [->|]; [|by rewrite !upd_ne]. rewrite !upd_eq.
      apply Z.eqb_neq. intros E. destruct (append_pba_inj i (ly_size L i) i' j) as [-> ?];
        [by apply (zone_u32 N L Hok)|by apply (zone_u32 N L Hok)|lia|lia|done|lia]. }
    change (ly_live (ly_append i k L) i') with (upd (ly_live L1) i (ly_live L1 i + 1) i').
    change (ly_size (ly_append i k L) i') with (upd (ly_size L) i (ly_size L i + 1) i').
    destruct (decide (i' = i)) as [->|Hne].
    + rewrite !upd_eq, zrange_S, count_app by lia. rewrite (lo_live _ _ Hd i Hi). f_equal.
      * apply count_ext. intros j Hj%elem_of_zrange. by rewrite Hold.
      * unfold count. cbn. unfold live_at. cbn. rewrite !upd_eq. by rewrite Z.eqb_refl.
    + rewrite !upd_ne, (lo_live _ _ Hd i' Hi') by done. apply count_ext. intros j Hj%elem_of_zrange. by rewrite Hold.
Qed.

(** ** Collecting a zone *)

(** A copied block: its key and its slots in the source and the destination. *)
Record move := MkMove { mv_key : Z; mv_from : Z; mv_to : Z }.

(** The key still maps to the source block. *)
Definition moves (L : layout) (src : Z) (m : move) : bool :=
  match ly_fwd L (mv_key m) with Some p => p =? imr_lsm_zone_append_pba src (mv_from m) | None => false end.

(** The copies fill an empty zone, and every live block of the source has one. *)
Record moves_ok (N : Z) (L : layout) (src dst : Z) (T : list move) : Prop := {
  mo_src : 0 <= src < N;
  mo_dst : 0 <= dst < N;
  mo_ne : src <> dst;
  mo_empty : ly_size L dst = 0;
  mo_from : forall m, m ∈ T -> 0 <= mv_from m < ly_size L src /\ ly_key L src (mv_from m) = mv_key m;
  mo_to : map mv_to T ≡ₚ zrange (lenZ T);
  mo_len : lenZ T <= TOTAL_ITEMS;
  mo_keys : NoDup (map mv_key T);
  mo_all : forall j, 0 <= j < ly_size L src -> live_at L src j = true -> exists m, m ∈ T /\ mv_from m = j;
}.

Definition find_key (k : Z) (T : list move) : option move := List.find (fun m => mv_key m =? k) T.
Definition find_to (j : Z) (T : list move) : option move := List.find (fun m => mv_to m =? j) T.

Definition ly_collect (src dst : Z) (T : list move) (L : layout) : layout :=
  MkLayout
    (fun k => match find_key k T with
              | Some m => if moves L src m then Some (imr_lsm_zone_append_pba dst (mv_to m)) else ly_fwd L k
              | None => ly_fwd L k
              end)
    (upd (upd (ly_size L) dst (lenZ T)) src 0)
    (upd (upd (ly_live L) dst (count (moves L src) T)) src 0)
    (upd (ly_key L) dst (fun j => match find_to j T with Some m => mv_key m | None => IMR_LSM_KEY_EMPTY end)).

Lemma find_unique {A} (f : A -> Z) l x : NoDup (map f l) -> x ∈ l -> List.find (fun y => f y =? f x) l = Some x.
Proof.
  induction l as [|y l IH]; [by intros _ ?%elem_of_nil|]. cbn. intros [Hni Hnd]%NoDup_cons [->|Hx]%elem_of_cons.
  - by rewrite Z.eqb_refl.
  - destruct (f y =? f x) eqn:E; [|by apply IH]. exfalso. apply Hni. apply Z.eqb_eq in E. rewrite E. apply list_elem_of_fmap. by exists x.
Qed.
Lemma find_key_spec k T m : find_key k T = Some m -> m ∈ T /\ mv_key m = k.
Proof. intros [H1 H2]%find_some. apply list_elem_of_In in H1. split; [done|lia]. Qed.

Section collect.
Context (N : Z) (L : layout) (src dst : Z) (T : list move).
Hypothesis (Hok : layout_ok N L) (HT : moves_ok N L src dst T).
Abbreviation L' := (ly_collect src dst T L).

Lemma to_range m : m ∈ T -> 0 <= mv_to m < lenZ T.
Proof.
  intros Hm. apply elem_of_zrange. rewrite <- (mo_to _ _ _ _ _ HT). apply list_elem_of_fmap. by exists m.
Qed.
Lemma to_NoDup : NoDup (map mv_to T).
Proof. rewrite (mo_to _ _ _ _ _ HT). apply NoDup_zrange. Qed.
Lemma move_at m : m ∈ T -> find_key (mv_key m) T = Some m /\ find_to (mv_to m) T = Some m.
Proof. intros Hm. split; [by apply find_unique, Hm; apply HT|by apply find_unique, Hm; apply to_NoDup]. Qed.

(** Only blocks of the source move, each to its copy. *)
Lemma collect_fwd k :
  ly_fwd L' k = ly_fwd L k /\ (forall m, m ∈ T -> mv_key m = k -> moves L src m = false) \/
  exists m, m ∈ T /\ mv_key m = k /\ ly_fwd L k = Some (imr_lsm_zone_append_pba src (mv_from m)) /\
    ly_fwd L' k = Some (imr_lsm_zone_append_pba dst (mv_to m)).
Proof.
  cbn. destruct (find_key k T) as [m|] eqn:E.
  - apply find_key_spec in E as [Hm Hk]. destruct (moves L src m) eqn:Em.
    + right. exists m. split_and!; try done. unfold moves in Em. rewrite Hk in Em. destruct (ly_fwd L k); [|done]. f_equal. lia.
    + left. split; [done|]. intros m' Hm' Hk'. rewrite <- Hk in Hk'. destruct (move_at m Hm) as [E1 _], (move_at m' Hm') as [E2 _]. congruence.
  - left. split; [done|]. intros m Hm <-. destruct (move_at m Hm). congruence.
Qed.

Lemma source_moves k j : 0 <= j < ly_size L src -> ly_fwd L k = Some (imr_lsm_zone_append_pba src j) ->
  exists m, m ∈ T /\ mv_key m = k /\ mv_from m = j.
Proof.
  intros Hj Hf. destruct (fwd_slot N L Hok k _ Hf) as (i & j' & Hi & Hj' & Hjt & Hk & Hp & _). pose proof (lo_size _ _ Hok src (mo_src _ _ _ _ _ HT)).
  destruct (append_pba_inj src j i j') as [<- <-]; [apply (zone_u32 N L Hok), HT|by apply (zone_u32 N L Hok)|lia|lia|done|].
  destruct (mo_all _ _ _ _ _ HT j Hj) as (m & Hm & Hmj); [apply live_at_fwd; by rewrite Hk|]. exists m. split_and!; [done| |done].
  destruct (mo_from _ _ _ _ _ HT m Hm) as [_ <-]. by rewrite Hmj.
Qed.

Lemma collect_live_other i j : 0 <= i < N -> i <> src -> i <> dst -> 0 <= j < ly_size L i -> live_at L' i j = live_at L i j.
Proof.
  intros Hi Hs Hd Hj. pose proof (lo_size _ _ Hok i Hi). unfold live_at. cbn [ly_key ly_collect]. rewrite upd_ne by done.
  destruct (collect_fwd (ly_key L i j)) as [[-> _]|(m & Hm & Hk & -> & ->)]; [done|]. pose proof (to_range m Hm) as Ht. pose proof (mo_len _ _ _ _ _ HT).
  destruct (mo_from _ _ _ _ _ HT m Hm) as [Hf _]. pose proof (lo_size _ _ Hok src (mo_src _ _ _ _ _ HT)).
  transitivity false; [|symmetry]; apply Z.eqb_neq; intros E.
  - destruct (append_pba_inj dst (mv_to m) i j) as [? _]; [apply (zone_u32 N L Hok), HT|by apply (zone_u32 N L Hok)|lia|lia|done|congruence].
  - destruct (append_pba_inj src (mv_from m) i j) as [? _]; [apply (zone_u32 N L Hok), HT|by apply (zone_u32 N L Hok)|lia|lia|done|congruence].
Qed.

Lemma collect_live_dest m : m ∈ T -> live_at L' dst (mv_to m) = moves L src m.
Proof.
  intros Hm. destruct (move_at m Hm) as [Ek Et]. unfold live_at. cbn [ly_key ly_collect]. rewrite upd_eq, Et. cbn. rewrite Ek.
  destruct (moves L src m) eqn:E; [by rewrite Z.eqb_refl|]. destruct (ly_fwd L (mv_key m)) as [p|] eqn:Ef; [|done].
  apply Z.eqb_neq. intros ->. destruct (fwd_slot N L Hok _ _ Ef) as (i & j & Hi & Hj & Hjt & _ & Hp & _). pose proof (to_range m Hm) as Ht.
  pose proof (mo_len _ _ _ _ _ HT). destruct (append_pba_inj dst (mv_to m) i j) as [<- _]; [apply (zone_u32 N L Hok), HT|by apply (zone_u32 N L Hok)|lia|lia|done|].
  rewrite (mo_empty _ _ _ _ _ HT) in Hj. lia.
Qed.

Lemma ly_collect_ok : layout_ok N L'.
Proof.
  pose proof (mo_len _ _ _ _ _ HT) as Hlen. pose proof (lenZ_nonneg T) as Hlen0. pose proof (mo_ne _ _ _ _ _ HT) as Hne. split; [apply Hok| | |].
  - intros i Hi. cbn. destruct (decide (i = src)) as [->|]; [rewrite upd_eq; lia|]. rewrite upd_ne by done.
    destruct (decide (i = dst)) as [->|]; [rewrite upd_eq; lia|]. rewrite upd_ne by done. by apply Hok.
  - intros k p Hp. destruct (collect_fwd k) as [[E Hno]|(m & Hm & Hk & _ & E)]; rewrite E in Hp.
    + destruct (lo_fwd _ _ Hok k p Hp) as (i & j & Hi & Hj & Hk & ->). destruct (decide (i = src)) as [->|Hs].
      { destruct (source_moves k j Hj Hp) as (m & Hm & Hmk & Hmj). specialize (Hno m Hm Hmk). unfold moves in Hno.
        rewrite Hmk, Hp, Hmj, Z.eqb_refl in Hno. done. }
      destruct (decide (i = dst)) as [->|Hd]; [rewrite (mo_empty _ _ _ _ _ HT) in Hj; lia|].
      exists i, j. cbn. rewrite !upd_ne by done. done.
    + injection Hp as <-. exists dst, (mv_to m). cbn. rewrite (upd_ne _ src) by done. rewrite !upd_eq. destruct (move_at m Hm) as [_ Et]. rewrite Et.
      pose proof (to_range m Hm). split_and!; try apply HT; try lia; done.
  - intros i Hi. cbn [ly_live ly_size ly_collect]. destruct (decide (i = src)) as [->|Hs]; [by rewrite !upd_eq|].
    rewrite !(upd_ne _ src) by done. destruct (decide (i = dst)) as [->|Hd].
    + rewrite !upd_eq, <- (count_perm _ _ _ (mo_to _ _ _ _ _ HT)), count_map. apply count_ext. intros m Hm. by rewrite collect_live_dest.
    + rewrite !upd_ne, (lo_live _ _ Hok i Hi) by done. apply count_ext. intros j Hj%elem_of_zrange. by rewrite collect_live_other.
Qed.
End collect.
