(* ===== verification/ImrZoneFrame.v ===== *)
(** Frames between the two halves of the kernel state: what the operations on
    zones leave of the LSM, what the operations of the LSM leave of the zones, and
    the bookkeeping (statistics, dirty-zone queue, garbage-collection candidates,
    free cursor) that matters to neither. *)

From S2P Require Import Prelude StdMap ImrPrelude ImrGeometry ImrBloom ImrState ImrReadTree ImrLevels ImrSegment ImrPlacement ImrAccounting ImrCore ImrLsm ImrLsmInv ImrLsmOps ImrCompaction ImrBuild ImrPlan ImrPublish ImrPhases ImrSystem ImrZones ImrGc ImrIo.

(** ** The two halves *)

(** The state without zones, allocator, queue, reservation and statistics. *)
Definition lsm_half (s : kstate) : kstate :=
  MkState (set_stats zero_stats (set_zone_compaction_auto_pending false (set_zone_compaction_auto_pending_zone 0
      (set_zone_compaction_auto_running false (meta s))))) (cfg s)
    (metadata_epoch s) (output_bdev s) (target_active s) (zone_state_set s) (match zones s with Some _ => Some [] | None => None end)
    0 (MkAllocator 0 0 0) (MkPstore [] 0 0) false 0 0 0 0 zero_wstats (hp s).

(** The zones and what guards them. *)
Record zone_half := MkZoneHalf {
  zh_zones : option (list zone_status);
  zh_num : Z;
  zh_active : Z;
  zh_copy : bool * Z * Z;
  zh_target : option Z * Z * bool * bool;
  zh_inflight : Z;
  zh_cfg : config;
}.
Definition zhalf (s : kstate) : zone_half :=
  MkZoneHalf (zones s) (IMR_NUMZONES s) (active_zone (alloc s)) (copy_active s, copy_source s, copy_dest s)
    (output_bdev s, output_bdev_start s, target_active s, zone_state_set s) (append_writes_inflight s) (cfg s).

(** Bookkeeping changes neither half. *)
Record quiet (s s' : kstate) : Prop := {
  q_lsm : lsm_half s' = lsm_half s;
  q_zone : zhalf s' = zhalf s;
}.
#[export] Instance quiet_refl : Reflexive quiet.
Proof. by split. Qed.
#[export] Instance quiet_trans : Transitive quiet.
Proof. intros s1 s2 s3 [A1 A2] [B1 B2]. split; congruence. Qed.

(** ** Zone operations and the LSM invariant *)

Lemma half_ready s s' : lsm_half s' = lsm_half s -> imrsim_target_ready_locked s' = imrsim_target_ready_locked s.
Proof.
  intros E. assert (forall s, imrsim_target_ready_locked s = imrsim_target_ready_locked (lsm_half s)) as Hr.
  { intros x. unfold imrsim_target_ready_locked. cbn. by destruct (zones x). }
  rewrite (Hr s'), (Hr s). exact (f_equal imrsim_target_ready_locked E).
Qed.
Lemma half_same_levels s s' : lsm_half s' = lsm_half s -> same_levels s s'.
Proof.
  intros E. split.
  - exact (f_equal (fun s => levels (meta s)) E).
  - by apply half_ready.
  - exact (f_equal metadata_epoch E).
  - exact (f_equal output_bdev E).
  - exact (f_equal cfg E).
Qed.

Lemma half_timestamp s s' : lsm_half s' = lsm_half s -> timestamp (meta s') = timestamp (meta s).
Proof. intros E. exact (f_equal (fun s => timestamp (meta s)) E). Qed.

Lemma half_same_rt s s' : lsm_half s' = lsm_half s -> same_rt (meta s) (meta s').
Proof.
  intros E. split; [exact (f_equal (fun s => read_tree (meta s)) E)|exact (f_equal (fun s => read_lru (meta s)) E)|
    exact (f_equal (fun s => read_tree_size (meta s)) E)|exact (f_equal (fun s => read_tree_limit (meta s)) E)].
Qed.

Lemma half_inv H s s' : lsm_half s' = lsm_half s -> lsm_inv H s -> lsm_inv H s'.
Proof.
  intros E [I1 I2 I3 I4 I5]. pose proof (half_same_rt _ _ E) as Hr.
  assert (levels (meta s') = levels (meta s)) as El by exact (f_equal (fun s => levels (meta s)) E).
  split.
  - rewrite <- I1. exact (f_equal (fun s => initialized (meta s)) E).
  - rewrite El, (half_timestamp _ _ E). assert (segments (meta s') = segments (meta s)) as -> by exact (f_equal (fun s => segments (meta s)) E). done.
  - rewrite El. assert (hp s' = hp s) as -> by exact (f_equal hp E). done.
  - by eapply same_rt_wf.
  - unfold rt_agrees. by rewrite (srt_tree _ _ Hr).
Qed.

Lemma half_init s s' : lsm_half s' = lsm_half s -> initialized (meta s') = initialized (meta s).
Proof. intros E. exact (f_equal (fun s => initialized (meta s)) E). Qed.

(** ** LSM operations and the zones *)

Lemma keeps_zhalf s s' : keeps s s' -> zhalf s' = zhalf s.
Proof. intros [E _]. exact (f_equal zhalf E). Qed.
Lemma core_zhalf s s' : core s' = core s -> zhalf s' = zhalf s.
Proof. intros E. exact (f_equal zhalf E). Qed.
Lemma shell_zhalf s s' : shell s' = shell s -> zhalf s' = zhalf s.
Proof. intros E. exact (f_equal zhalf E). Qed.
Lemma appends_zhalf H key pba valid s s' ret : appends H key pba valid s s' ret -> zhalf s' = zhalf s.
Proof.
  intros [(_ & _ & Hk)|(_ & _ & n & _ & _ & _ & Hk)]; [by apply keeps_zhalf|]. by rewrite (keeps_zhalf _ _ Hk).
Qed.

(** ** Bookkeeping *)

Lemma quiet_st_set f v s : quiet s (st_set f v s).
Proof. by split. Qed.
Lemma quiet_st_inc f s : quiet s (st_inc f s).
Proof. by split. Qed.
Lemma quiet_st_add f n s : quiet s (st_add f n s).
Proof. by split. Qed.
Lemma quiet_st_sets l : forall s, quiet s (st_sets l s).
Proof. induction l as [|[f v] l IH]; intros s; [done|]. cbn. etransitivity; [apply (quiet_st_set f v)|apply IH]. Qed.
Lemma quiet_queue i s : quiet s (imrsim_ptask_queue_zone_status_locked i s).
Proof. unfold imrsim_ptask_queue_zone_status_locked. destruct (zones s); [|done]. by destruct (i >=? IMR_NUMZONES s). Qed.
Lemma quiet_clear_pending i s : quiet s (imr_lsm_clear_zone_compaction_auto_pending_locked i s).
Proof. unfold imr_lsm_clear_zone_compaction_auto_pending_locked. by destruct (_ && _). Qed.
Lemma quiet_clear_candidate i s : quiet s (imr_lsm_clear_zone_compaction_candidate_locked i s).
Proof.
  unfold imr_lsm_clear_zone_compaction_candidate_locked. destruct (negb _); [done|].
  etransitivity; [apply quiet_st_sets|apply quiet_clear_pending].
Qed.
Lemma quiet_take_free ok s : quiet s (take_free_zone ok s).1.
Proof. unfold take_free_zone. by destruct (List.find _ _). Qed.
Lemma quiet_find_free i s : quiet s (imr_lsm_find_free_zone_locked i s).1.
Proof. unfold imr_lsm_find_free_zone_locked. destruct (_ =? 0); [done|apply quiet_take_free]. Qed.
Lemma quiet_candidate s : quiet s (imr_lsm_record_zone_compaction_candidate_locked s).
Proof.
  unfold imr_lsm_record_zone_compaction_candidate_locked. destruct (zones s); [|done]. cbv zeta.
  set (best := fold_left _ _ _). set (none := v_zone best =? _).
  match goal with |- context [let '(_, _) := ?t in _] => set (r := t) end.
  assert (quiet s r.1) as Hr.
  { unfold r. destruct none; [done|]. destruct (_ && _); [done|]. apply quiet_find_free. }
  clearbody r. destruct r as [s1 dest]. cbn [fst] in Hr.
  match goal with |- context [st_sets ?l ?x] => set (s3 := st_sets l x); pose proof (quiet_st_sets l x) as H3; fold s3 in H3 end.
  assert (quiet s s3) as H13.
  { etransitivity; [exact Hr|]. etransitivity; [|exact H3]. destruct (_ && _); [apply quiet_st_inc|done]. }
  clearbody s3. destruct none; [|done]. etransitivity; [exact H13|apply quiet_clear_pending].
Qed.
Lemma quiet_defer i s : quiet s (imr_lsm_defer_zone_compaction_auto_run_locked i s).1.
Proof.
  unfold imr_lsm_defer_zone_compaction_auto_run_locked. destruct (_ || _); [done|]. destruct (_ || _); [done|]. destruct (_ && _); [done|].
  by split.
Qed.
Lemma quiet_defer_candidate s : quiet s (defer_candidate s).
Proof. unfold defer_candidate. destruct (negb _); [apply quiet_defer|done]. Qed.
Lemma quiet_record_candidate s : initialized (meta s) = true -> quiet s (imr_lsm_record_zone_compaction_candidate s).
Proof.
  intros Hi. unfold imr_lsm_record_zone_compaction_candidate. rewrite ensure_initialized_id by done.
  etransitivity; [apply quiet_candidate|apply quiet_defer_candidate].
Qed.
