(* ===== verification/ImrZoneInv.v ===== *)
(** The invariant of the physical zones, and that foreground appends, deletions
    and discards keep it: each one changes the layout exactly as its abstract
    operation does. *)

From S2P Require Import Prelude StdMap ImrPrelude ImrGeometry ImrBloom ImrState ImrReadTree ImrLevels ImrSegment ImrPlacement ImrAccounting ImrCore ImrLsm ImrLsmInv ImrLsmOps ImrCompaction ImrBuild ImrPlan ImrPublish ImrPhases ImrSystem ImrZones ImrGc ImrIo ImrLayout ImrZoneFrame.

(** ** The layout of a state *)

Definition total_keys (s : kstate) : Z := IMR_NUMZONES s * TOTAL_ITEMS.
Definition fwd (s : kstate) (k : Z) : option Z :=
  if (0 <=? k) && (k <? total_keys s) then imr_lsm_forward_map_lookup_locked k s else None.
Definition layout_of (s : kstate) : layout :=
  MkLayout (fwd s)
    (fun i => match zone i s with Some z => z_map_size z | None => 0 end)
    (fun i => match zone i s with Some z => z_live_count z | None => 0 end)
    (fun i j => match zone i s with Some z => z_key_map z j | None => 0 end).

(** As many zones as there should be, each with its index and the size of a zone. *)
Definition geometry (z : zone_status) : Z * Z := (z_start z, z_length z).
Definition well_shaped (s : kstate) : Prop :=
  exists zs, zones s = Some zs /\ lenZ zs = IMR_NUMZONES s /\ forall i z, nthZ zs i = Some z -> geometry z = (i, num_sectors_zone).

Record zones_ok (s : kstate) : Prop := {
  zk_zones : well_shaped s;
  zk_layout : layout_ok (IMR_NUMZONES s) (layout_of s);
  zk_keys : forall i z j, zone i s = Some z -> 0 <= j < z_map_size z -> 0 <= z_key_map z j < 2 ^ 32;
  zk_active : 0 <= active_zone (alloc s);
  zk_copy : active_zone (alloc s) < IMR_NUMZONES s -> active_zone (alloc s) <> copy_source s /\ active_zone (alloc s) <> copy_dest s;
}.

Lemma zone_zhalf i s s' : zhalf s' = zhalf s -> zone i s' = zone i s.
Proof. intros E. unfold zone. assert (zones s' = zones s) as -> by exact (f_equal zh_zones E). done. Qed.
Lemma num_zhalf s s' : zhalf s' = zhalf s -> IMR_NUMZONES s' = IMR_NUMZONES s.
Proof. intros E. exact (f_equal zh_num E). Qed.
Lemma active_zhalf s s' : zhalf s' = zhalf s -> active_zone (alloc s') = active_zone (alloc s).
Proof. intros E. exact (f_equal zh_active E). Qed.
Lemma copy_zhalf s s' : zhalf s' = zhalf s -> copy_active s' = copy_active s /\ copy_source s' = copy_source s /\ copy_dest s' = copy_dest s.
Proof. intros E. pose proof (f_equal zh_copy E) as Ec. cbn in Ec. injection Ec as -> -> ->. done. Qed.

Lemma fwd_zones k s s' : (forall i, zone i s' = zone i s) -> IMR_NUMZONES s' = IMR_NUMZONES s -> fwd s' k = fwd s k.
Proof. intros Hz Hn. unfold fwd, total_keys, imr_lsm_forward_map_lookup_locked. by rewrite Hn, Hz. Qed.
Lemma layout_zones s s' : (forall i, zone i s' = zone i s) -> IMR_NUMZONES s' = IMR_NUMZONES s -> layout_eq (IMR_NUMZONES s) (layout_of s) (layout_of s').
Proof. intros Hz Hn. split; intros; cbn; rewrite ?Hz; try done. by apply fwd_zones. Qed.

Lemma zones_ok_zhalf s s' : zhalf s' = zhalf s -> zones_ok s -> zones_ok s'.
Proof.
  intros E [Z1 Z2 Z3 Z4 Z5]. pose proof (num_zhalf _ _ E) as Hn. pose proof (fun i => zone_zhalf i _ _ E) as Hz.
  pose proof (active_zhalf _ _ E) as Ha. destruct (copy_zhalf _ _ E) as (_ & Hc1 & Hc2). split.
  - unfold well_shaped. assert (zones s' = zones s) as -> by exact (f_equal zh_zones E). by rewrite Hn.
  - rewrite Hn. eapply layout_ok_eq; [|exact Z2]. by apply layout_zones.
  - intros i z j. rewrite Hz. apply Z3.
  - by rewrite Ha.
  - by rewrite Ha, Hn, Hc1, Hc2.
Qed.

(** ** Updating a zone *)

Lemma zone_upd i f s j : zone j (upd_zone i f s) = if decide (j = i) then f <$> zone j s else zone j s.
Proof.
  unfold upd_zone, zone. destruct (zones s) as [zs|] eqn:E; [|by rewrite E; destruct (decide _)].
  destruct (nthZ zs i) as [z|] eqn:Ei.
  - cbn. destruct (decide (j = i)) as [->|Hne]; [rewrite Ei, nthZ_updZ_eq by (by eapply nthZ_Some); done|by rewrite nthZ_updZ_ne].
  - rewrite E. destruct (decide (j = i)) as [->|]; [by rewrite Ei|done].
Qed.
Lemma zone_upd_eq i f s : zone i (upd_zone i f s) = f <$> zone i s.
Proof. rewrite zone_upd. by rewrite decide_True. Qed.
Lemma zone_upd_ne i f s j : j <> i -> zone j (upd_zone i f s) = zone j s.
Proof. intros H. rewrite zone_upd. by rewrite decide_False. Qed.

(** [s'] has other zones, as many of them. *)
Record rezoned (s s' : kstate) : Prop := {
  rz_lsm : lsm_half s' = lsm_half s;
  rz_num : IMR_NUMZONES s' = IMR_NUMZONES s;
  rz_geo : map geometry <$> zones s' = map geometry <$> zones s;
  rz_copy : zh_copy (zhalf s') = zh_copy (zhalf s);
  rz_target : zh_target (zhalf s') = zh_target (zhalf s);
  rz_inflight : append_writes_inflight s' = append_writes_inflight s;
}.
#[export] Instance rezoned_refl : Reflexive rezoned.
Proof. by split. Qed.
#[export] Instance rezoned_trans : Transitive rezoned.
Proof.
  intros s1 s2 s3 [A1 A2 A3 A4 A5 A6] [B1 B2 B3 B4 B5 B6]. split; congruence.
Qed.
Lemma rezoned_quiet s s' : quiet s s' -> rezoned s s'.
Proof.
  intros [E1 E2]. split; [done|by apply num_zhalf| |exact (f_equal zh_copy E2)|exact (f_equal zh_target E2)|exact (f_equal zh_inflight E2)].
  assert (zones s' = zones s) as -> by exact (f_equal zh_zones E2). done.
Qed.
Lemma rezoned_upd i f s : (forall z, geometry (f z) = geometry z) -> rezoned s (upd_zone i f s).
Proof.
  intros Hf. unfold upd_zone. destruct (zones s) as [zs|] eqn:E; [|done]. destruct (nthZ zs i) as [z|] eqn:Ez; [|done].
  split; try done; [unfold lsm_half; cbn; by rewrite E|]. rewrite E. cbn. f_equal. by apply (map_updZ geometry _ _ z).
Qed.
Lemma rezoned_alloc a s : rezoned s (set_alloc a s).
Proof. by split. Qed.

Lemma rezoned_zones s s' : rezoned s s' -> well_shaped s -> well_shaped s'.
Proof.
  intros [_ Hn Hl _ _ _] (zs & Hz & He & Hg). rewrite Hz in Hl. destruct (zones s') as [zs'|] eqn:E; [|done]. apply (inj Some) in Hl.
  exists zs'. split_and!; [done|rewrite Hn, <- He, <- (lenZ_map geometry zs'), Hl; apply lenZ_map|]. intros i z Hi.
  assert (nthZ (map geometry zs') i = Some (geometry z)) as E1 by (by rewrite nthZ_map, Hi). rewrite Hl, nthZ_map in E1.
  destruct (nthZ zs i) as [z0|] eqn:E0; [|done]. apply (inj Some) in E1. rewrite <- E1. by apply Hg.
Qed.
Lemma rezoned_copy s s' : rezoned s s' -> copy_active s' = copy_active s /\ copy_source s' = copy_source s /\ copy_dest s' = copy_dest s.
Proof. intros [_ _ _ Ec _ _]. cbn in Ec. injection Ec as -> -> ->. done. Qed.

(** The number of zones, which every operation keeps. *)
Record zshape (s : kstate) : Prop := {
  zs_zones : well_shaped s;
  zs_num : 0 <= IMR_NUMZONES s <= 65535;
}.
Lemma zones_shape s : zones_ok s -> zshape s.
Proof. intros Hz. split; [apply Hz|exact (lo_num _ _ (zk_layout _ Hz))]. Qed.
Lemma rezoned_shape s s' : rezoned s s' -> zshape s -> zshape s'.
Proof. intros Hr [Hz Hn]. split; [by eapply rezoned_zones|]. by rewrite (rz_num _ _ Hr). Qed.
Lemma zhalf_shape s s' : zhalf s' = zhalf s -> zshape s -> zshape s'.
Proof.
  intros E [Hz Hn]. unfold well_shaped in Hz. rewrite <- (num_zhalf _ _ E) in *. split; [|done]. unfold well_shaped. assert (zones s' = zones s) as -> by exact (f_equal zh_zones E). done.
Qed.

Lemma zone_at s i : zshape s -> 0 <= i < IMR_NUMZONES s -> exists z, zone i s = Some z.
Proof.
  intros Hz Hi. destruct (zs_zones _ Hz) as (zs & E & Hl & _). unfold zone. rewrite E. apply nthZ_is_Some. lia.
Qed.
Lemma zone_in s i z : zshape s -> zone i s = Some z -> 0 <= i < IMR_NUMZONES s.
Proof.
  intros Hz H. destruct (zs_zones _ Hz) as (zs & E & Hl & _). unfold zone in H. rewrite E in H. apply nthZ_Some in H. lia.
Qed.
Lemma zone_sizes s i z : zones_ok s -> zone i s = Some z -> 0 <= z_live_count z <= z_map_size z /\ z_map_size z <= TOTAL_ITEMS.
Proof.
  intros Hz H. pose proof (zone_in _ _ _ (zones_shape _ Hz) H) as Hi. pose proof (lo_size _ _ (zk_layout _ Hz) i Hi) as Hs.
  pose proof (live_range _ _ (zk_layout _ Hz) i Hi) as Hl. cbn in Hs, Hl. rewrite H in Hs, Hl. lia.
Qed.

(** ** The forward map *)

(** What an entry of [z_pba_map] stands for. *)
Definition decode_block (b : Z) : option Z := if b =? -1 then None else Some (u64 (Z.shiftl (u32 b) IMR_BLOCK_SIZE_SHIFT)).

Lemma decode_encode pba b : pba = b * 8 -> 0 <= b < IMR_LSM_KEY_EMPTY -> decode_block (i32 (u32 (Z.shiftr pba IMR_BLOCK_SIZE_SHIFT))) = Some pba.
Proof.
  unfold IMR_LSM_KEY_EMPTY, U32_MAX. intros -> Hb. unfold IMR_BLOCK_SIZE_SHIFT. rewrite Z.shiftr_div_pow2 by lia. change (2 ^ 3) with 8.
  rewrite Z.div_mul, u32_small by lia. unfold decode_block, i32, IMR_BLOCK_SIZE_SHIFT. rewrite u32_small by lia.
  assert (u32 (if b <? 2 ^ 31 then b else b - 2 ^ 32) = b) as Eu.
  { destruct (b <? 2 ^ 31) eqn:E; [by rewrite u32_small by lia|]. Transparent u32. unfold u32. Opaque u32.
    rewrite <- (Z.mod_add _ 1), Z.mul_1_l by lia. rewrite Z.mod_small by lia. lia. }
  rewrite Eu, Z.shiftl_mul_pow2, u64_small by lia. change (2 ^ 3) with 8. destruct (b <? 2 ^ 31) eqn:E; zcase; [lia|done|lia|done].
Qed.

Lemma logical_eq k : 0 <= k < 65536 * 2 ^ 32 -> logical_zone k = k / 65536 /\ logical_offset k = k mod 65536.
Proof.
  intros Hk. unfold logical_zone, logical_offset, IMR_ZONE_SIZE_SHIFT. rewrite Z.shiftr_div_pow2 by lia. change (2 ^ 16) with 65536.
  change (TOTAL_ITEMS - 1) with (Z.ones 16). rewrite Z.land_ones by lia. change (2 ^ 16) with 65536.
  pose proof (Z.mod_pos_bound k 65536 ltac:(lia)).
  rewrite !u32_small; [done|lia|split; [apply Z.div_pos; lia|apply Z.div_lt_upper_bound; lia]].
Qed.

Lemma key_split k n : 0 <= k < n * TOTAL_ITEMS -> 0 <= k / 65536 < n /\ 0 <= k mod 65536 < 65536.
Proof.
  change TOTAL_ITEMS with 65536. intros Hk. split; [|apply Z.mod_pos_bound; lia].
  split; [apply Z.div_pos; lia|apply Z.div_lt_upper_bound; lia].
Qed.

Section forward.
Context (s : kstate).
Hypothesis (Hz : zshape s).

Lemma fwd_eq k : 0 <= k < total_keys s ->
  fwd s k = match zone (k / 65536) s with Some z => decode_block (z_pba_map z (k mod 65536)) | None => None end.
Proof.
  intros Hk. unfold fwd. replace ((0 <=? k) && (k <? total_keys s)) with true by lia.
  unfold imr_lsm_forward_map_lookup_locked. pose proof (zs_num _ Hz). unfold total_keys in Hk. destruct (key_split k _ Hk) as [Hq _].
  destruct (logical_eq k) as [-> ->]; [change TOTAL_ITEMS with 65536 in Hk; lia|]. by replace (_ >=? _) with false by lia.
Qed.
Lemma fwd_outside k : ~ 0 <= k < total_keys s -> fwd s k = None.
Proof. intros Hk. unfold fwd. by replace ((0 <=? k) && (k <? total_keys s)) with false by lia. Qed.

(** The lookup of the code, for a key of 32 bits. *)
Lemma lookup_fwd k : 0 <= k < 2 ^ 32 -> imr_lsm_forward_map_lookup_locked k s = fwd s k.
Proof.
  intros Hk. unfold fwd. destruct (k <? total_keys s) eqn:E; [by replace (0 <=? k) with true by lia|]. rewrite andb_false_r.
  unfold imr_lsm_forward_map_lookup_locked. destruct (logical_eq k) as [-> _]; [lia|]. unfold total_keys in E. change TOTAL_ITEMS with 65536 in E.
  assert (IMR_NUMZONES s <= k / 65536) by (apply Z.div_le_lower_bound; lia). by replace (_ >=? _) with true by lia.
Qed.

(** The forward map after an update of one of its entries. *)
Lemma fwd_upd k v s' : 0 <= k < total_keys s ->
  (forall i, zone i s' = if decide (i = k / 65536) then (fun z => set_z_pba_map (upd_fn (z_pba_map z) (k mod 65536) v) z) <$> zone i s else zone i s) ->
  IMR_NUMZONES s' = IMR_NUMZONES s -> forall k', fwd s' k' = upd (fwd s) k (decode_block v) k'.
Proof.
  intros Hk Hs' Hn k'. unfold total_keys in Hk. destruct (key_split k _ Hk) as [Hq Hr]. unfold upd.
  destruct (decide (0 <= k' < total_keys s)) as [Hk'|Hk'].
  2: { rewrite decide_False by (intros ->; done). rewrite (fwd_outside k' Hk'). unfold fwd, total_keys. rewrite Hn.
       by replace ((0 <=? k') && (k' <? IMR_NUMZONES s * TOTAL_ITEMS)) with false by (unfold total_keys in Hk'; lia). }
  rewrite fwd_eq by done. pose proof (zs_num _ Hz).
  assert (fwd s' k' = match zone (k' / 65536) s' with Some z => decode_block (z_pba_map z (k' mod 65536)) | None => None end) as ->.
  { unfold fwd, total_keys in *. rewrite Hn. replace ((0 <=? k') && (k' <? IMR_NUMZONES s * TOTAL_ITEMS)) with true by lia.
    unfold imr_lsm_forward_map_lookup_locked. destruct (key_split k' _ Hk') as [Hq' _].
    destruct (logical_eq k') as [-> ->]; [change TOTAL_ITEMS with 65536 in Hk'; lia|]. rewrite Hn. by replace (_ >=? _) with false by lia. }
  rewrite Hs'. destruct (zone_at s (k / 65536) Hz Hq) as [z Ez]. pose proof (Z.div_mod k 65536 ltac:(lia)). pose proof (Z.div_mod k' 65536 ltac:(lia)).
  destruct (decide (k' / 65536 = k / 65536)) as [E|Hne].
  - rewrite E, Ez. cbn. unfold upd_fn. destruct (decide (k' = k)) as [->|Hkk]; [by rewrite Z.eqb_refl|].
    replace (_ =? _) with false by lia. done.
  - rewrite decide_False by congruence. done.
Qed.

Lemma forward_map_set_spec k pba b : 0 <= k < total_keys s -> pba = b * 8 -> 0 <= b < IMR_LSM_KEY_EMPTY ->
  exists s', imr_lsm_forward_map_set_locked k pba s = (s', 0) /\ rezoned s s' /\ alloc s' = alloc s /\
    (forall k', fwd s' k' = upd (fwd s) k (Some pba) k') /\
    forall i z', zone i s' = Some z' -> exists z m, zone i s = Some z /\ z' = set_z_pba_map m z.
Proof.
  intros Hk Hp Hb. unfold imr_lsm_forward_map_set_locked. destruct (zs_zones _ Hz) as (zs & Ezs & _ & _). rewrite Ezs. pose proof (zs_num _ Hz).
  unfold total_keys in Hk. destruct (key_split k _ Hk) as [Hq _]. destruct (logical_eq k) as [-> ->]; [change TOTAL_ITEMS with 65536 in Hk; lia|].
  replace (Z.shiftr pba IMR_BLOCK_SIZE_SHIFT) with b by (unfold IMR_BLOCK_SIZE_SHIFT; rewrite Hp, Z.shiftr_div_pow2, Z.div_mul; lia).
  replace (_ >=? IMR_NUMZONES s) with false by lia. replace (b >=? _) with false by lia. cbn [orb].
  set (s1 := upd_zone _ _ _). pose proof (quiet_queue (k / 65536) s1) as Hq1. eexists. split; [reflexivity|].
  assert (forall i, zone i (imrsim_ptask_queue_zone_status_locked (k / 65536) s1) = zone i s1) as Hzq by (intros i; apply zone_zhalf, Hq1).
  split_and!.
  - transitivity s1; [by apply rezoned_upd|by apply rezoned_quiet].
  - assert (alloc s1 = alloc s) as <-. { unfold s1, upd_zone. rewrite Ezs. by destruct (nthZ zs _). }
    unfold imrsim_ptask_queue_zone_status_locked. destruct (zones s1); [|done]. by destruct (_ >=? _).
  - pose proof (decode_encode pba b Hp Hb) as Hd. replace (Z.shiftr pba IMR_BLOCK_SIZE_SHIFT) with b in Hd
      by (unfold IMR_BLOCK_SIZE_SHIFT; rewrite Hp, Z.shiftr_div_pow2, Z.div_mul; lia). rewrite <- Hd.
    apply (fwd_upd k (i32 (u32 b))); [done| |].
    + intros i. rewrite Hzq. apply zone_upd.
    + rewrite (num_zhalf _ _ (q_zone _ _ Hq1)). by apply (rz_num s s1), rezoned_upd.
  - intros i z'. rewrite Hzq. unfold s1. rewrite zone_upd. destruct (decide _) as [->|]; [|intros E; exists z', (z_pba_map z'); split; [done|by destruct z']].
    destruct (zone (k / 65536) s) as [z|]; [|done]. intros [= <-]. by eexists _, _.
Qed.
End forward.

Lemma append_pba_block n i j : 0 <= n <= 65535 -> 0 <= i < n -> 0 <= j < TOTAL_ITEMS ->
  exists b, imr_lsm_zone_append_pba i j = b * 8 /\ 0 <= b < IMR_LSM_KEY_EMPTY.
Proof.
  intros Hn Hi Hj. pose proof (slot_block_range j Hj). exists (i * 65536 + slot_block j). rewrite append_pba_eq by lia.
  unfold IMR_LSM_KEY_EMPTY, U32_MAX. lia.
Qed.

(** ** Relabelling

    Conditions, generations and track usage are not part of the layout. *)

Definition zmap (z : zone_status) : Z * Z * (Z -> Z) * (Z -> Z) := (z_map_size z, z_live_count z, z_pba_map z, z_key_map z).
Definition relabels (s s' : kstate) : Prop := forall i, zmap <$> zone i s' = zmap <$> zone i s.

Lemma relabels_upd i f s : (forall z, zmap (f z) = zmap z) -> relabels s (upd_zone i f s).
Proof. intros Hf j. rewrite zone_upd. destruct (decide (j = i)); [|done]. destruct (zone j s); cbn; [by rewrite Hf|done]. Qed.
Lemma relabels_trans s1 s2 s3 : relabels s1 s2 -> relabels s2 s3 -> relabels s1 s3.
Proof. intros H1 H2 i. by rewrite H2. Qed.
Lemma relabels_zhalf s s' : zhalf s' = zhalf s -> relabels s s'.
Proof. intros E i. by rewrite (zone_zhalf _ _ _ E). Qed.

Lemma fwd_pba s s' k :
  (forall i, z_pba_map <$> zone i s' = z_pba_map <$> zone i s) -> IMR_NUMZONES s' = IMR_NUMZONES s -> fwd s' k = fwd s k.
Proof.
  intros Hr Hn. unfold fwd, total_keys, imr_lsm_forward_map_lookup_locked. rewrite Hn. destruct (_ && _); [|done]. destruct (_ >=? _); [done|].
  specialize (Hr (logical_zone k)). destruct (zone (logical_zone k) s'), (zone (logical_zone k) s); try done. cbn in Hr. injection Hr as ->. done.
Qed.
Lemma relabels_fwd s s' k : relabels s s' -> IMR_NUMZONES s' = IMR_NUMZONES s -> fwd s' k = fwd s k.
Proof.
  intros Hr. apply fwd_pba. intros i. specialize (Hr i). destruct (zone i s'), (zone i s); try done. cbn in *. injection Hr as _ _ -> _. done.
Qed.
Lemma relabels_layout s s' : relabels s s' -> IMR_NUMZONES s' = IMR_NUMZONES s -> layout_eq (IMR_NUMZONES s) (layout_of s) (layout_of s').
Proof.
  intros Hr Hn. split; [intros k; by apply relabels_fwd|..]; intros i; specialize (Hr i); cbn;
    destruct (zone i s'), (zone i s); try done; cbn in Hr; injection Hr as E1 E2 _ E4; intros; congruence.
Qed.

Lemma relabels_ok s s' :
  rezoned s s' -> relabels s s' -> 0 <= active_zone (alloc s') ->
  (active_zone (alloc s') < IMR_NUMZONES s' -> active_zone (alloc s') <> copy_source s' /\ active_zone (alloc s') <> copy_dest s') ->
  zones_ok s -> zones_ok s'.
Proof.
  intros Hz Hr Ha Hc [Z1 Z2 Z3 Z4 Z5]. split; [by eapply rezoned_zones| | |done|done].
  - rewrite (rz_num _ _ Hz). eapply layout_ok_eq; [|exact Z2]. apply relabels_layout; [done|by apply rz_num].
  - intros i z' j Hi Hj. specialize (Hr i). rewrite Hi in Hr. destruct (zone i s) as [z|] eqn:E; [|done]. cbn in Hr. injection Hr as E1 _ _ E4.
    rewrite E4. apply (Z3 i z j E). by rewrite <- E1.
Qed.

(** ** Free zones *)

Lemma is_free_spec i s : zones_ok s -> 0 <= i -> imr_lsm_zone_is_free_locked i s = true ->
  i < IMR_NUMZONES s /\ i <> active_zone (alloc s) /\ i <> copy_source s /\ i <> copy_dest s /\
  exists z, zone i s = Some z /\ z_map_size z = 0 /\ z_live_count z = 0.
Proof.
  intros Hz Hi. unfold imr_lsm_zone_is_free_locked. destruct (_ || _) eqn:E; [done|]. destruct (zone i s) as [z|] eqn:Ez; [|done].
  intros Hf. pose proof (zone_in _ _ _ (zones_shape _ Hz) Ez). split_and!; try lia. exists z. split; [done|lia].
Qed.

Lemma take_free_spec ok s i : zones_ok s -> 0 < IMR_NUMZONES s ->
  (take_free_zone ok s).2 = i -> i <> IMR_LSM_ZONE_COMPACTION_NONE -> 0 <= i /\ ok i = true /\ imr_lsm_zone_is_free_locked i s = true.
Proof.
  intros Hz Hn. unfold take_free_zone. destruct (List.find _ _) as [x|] eqn:E; cbn; [|by intros <-]. intros <- _.
  apply find_some in E as [Hin [Hok Hf]%andb_true_iff]. split_and!; [|done|done]. unfold cursor_scan in Hin.
  apply in_map_iff in Hin as (y & <- & _). apply Z.mod_pos_bound. lia.
Qed.

Lemma find_free_spec e s i : zones_ok s -> (imr_lsm_find_free_zone_locked e s).2 = i -> i <> IMR_LSM_ZONE_COMPACTION_NONE ->
  0 <= i /\ i <> e /\ imr_lsm_zone_is_free_locked i s = true.
Proof.
  intros Hz. unfold imr_lsm_find_free_zone_locked. destruct (_ =? 0) eqn:E; [by intros <-|]. intros H1 H2.
  pose proof (zs_num _ (zones_shape _ Hz)). destruct (take_free_spec _ s i Hz ltac:(lia) H1 H2) as (? & Hok & ?). split_and!; [done|lia|done].
Qed.

Lemma find_foreground_spec s : zones_ok s ->
  let '(s', i) := imr_lsm_find_foreground_free_zone_locked s in
  quiet s s' /\ (i <> IMR_LSM_ZONE_COMPACTION_NONE -> 0 <= i /\ imr_lsm_zone_is_free_locked i s = true).
Proof.
  intros Hz. unfold imr_lsm_find_foreground_free_zone_locked. cbv zeta. set (reserved := if negb _ then _ else _). clearbody reserved.
  assert (quiet s s /\ (IMR_LSM_ZONE_COMPACTION_NONE <> IMR_LSM_ZONE_COMPACTION_NONE ->
    0 <= IMR_LSM_ZONE_COMPACTION_NONE /\ imr_lsm_zone_is_free_locked IMR_LSM_ZONE_COMPACTION_NONE s = true)) as Hnone by (split; [reflexivity|by intros []]).
  destruct (_ =? 0) eqn:E0; [exact Hnone|]. destruct (_ <? 2); [exact Hnone|]. pose proof (zs_num _ (zones_shape _ Hz)).
  pose proof (quiet_take_free (fun i => negb (i =? reserved)) s) as Hq. destruct (take_free_zone _ s) as [s' i] eqn:E. split; [done|]. intros Hi.
  destruct (take_free_spec (fun i => negb (i =? reserved)) s i Hz ltac:(lia)) as (? & _ & ?); [by rewrite E|done|done].
Qed.

Lemma activate_spec s : zones_ok s ->
  let '(s', r) := imr_lsm_activate_zone_locked s in
  rezoned s s' /\ relabels s s' /\ zones_ok s' /\
  match r with
  | Ok i => active_zone (alloc s') = i /\ exists z, zone i s' = Some z /\ z_map_size z < TOTAL_ITEMS
  | Fail e => e = - ENOSPC
  end.
Proof.
  intros Hz. unfold imr_lsm_activate_zone_locked. cbv zeta. pose proof (zk_active _ Hz) as Ha. set (usable := if _ && _ then _ else false). destruct usable eqn:E.
  { split_and!; [done|done|done|done|]. unfold usable in E. destruct (_ && _); [|done]. destruct (zone (active_zone (alloc s)) s) as [z|] eqn:Ez; [|done]. exists z. split; [done|lia]. }
  clearbody usable. clear usable E.
  set (s1 := if negb _ then _ else s). assert (rezoned s s1) as R1 by (unfold s1; destruct (negb _); [apply rezoned_alloc|done]).
  assert (relabels s s1) as L1 by (unfold s1; by destruct (negb _)).
  assert (active_zone (alloc s1) = IMR_LSM_ZONE_COMPACTION_NONE) as A1 by (unfold s1; destruct (negb _) eqn:En; [done|lia]).
  assert (zones_ok s1) as Z1.
  { apply (relabels_ok s); [done|done|by rewrite A1| |done]. rewrite A1, (rz_num _ _ R1). pose proof (zs_num _ (zones_shape _ Hz)). unfold IMR_LSM_ZONE_COMPACTION_NONE, U32_MAX. lia. }
  clearbody s1. pose proof (find_foreground_spec s1 Z1) as Hf. destruct (imr_lsm_find_foreground_free_zone_locked s1) as [s2 i].
  destruct Hf as [Q2 Hf]. destruct (i =? IMR_LSM_ZONE_COMPACTION_NONE) eqn:Ei.
  { split_and!; [etransitivity; [exact R1|by apply rezoned_quiet]|eapply relabels_trans; [exact L1|apply relabels_zhalf, Q2]| |done].
    apply (zones_ok_zhalf s1); [apply Q2|done]. }
  destruct (Hf ltac:(lia)) as [Hi0 Hfree]. destruct (is_free_spec i s1 Z1 Hi0 Hfree) as (Hin & _ & Hcs & Hcd & z & Ez & Hm & Hl).
  pose proof (zone_zhalf i _ _ (q_zone _ _ Q2)) as Hz2. rewrite Ez in Hz2.
  set (s3 := upd_zone _ _ s2). set (s4 := set_alloc _ s3). pose proof (quiet_queue i s4) as Q5. set (s5 := imrsim_ptask_queue_zone_status_locked i s4) in *.
  assert (relabels s2 s3) as L3 by (by apply relabels_upd).
  assert (rezoned s s5) as R5.
  { etransitivity; [exact R1|]. transitivity s2; [by apply rezoned_quiet|]. transitivity s3; [by apply rezoned_upd|].
    etransitivity; [apply rezoned_alloc|by apply rezoned_quiet]. }
  assert (relabels s s5) as L5.
  { eapply relabels_trans; [exact L1|]. eapply relabels_trans; [apply relabels_zhalf, Q2|]. eapply relabels_trans; [exact L3|].
    eapply relabels_trans; [|apply relabels_zhalf, Q5]. done. }
  assert (active_zone (alloc s5) = i) as A5 by (by rewrite (active_zhalf _ _ (q_zone _ _ Q5))).
  split_and!; [done|done| |done|].
  - destruct (rezoned_copy _ _ R1) as (_ & Hc1 & Hc2).
    apply (relabels_ok s); [done|done|lia| |done]. intros _. rewrite A5. destruct (rezoned_copy _ _ R5) as (_ & -> & ->). by rewrite <- Hc1, <- Hc2.
  - rewrite (zone_zhalf _ _ _ (q_zone _ _ Q5)). change (zone i s4) with (zone i s3). unfold s3. rewrite zone_upd_eq, Hz2. cbn.
    eexists. split; [done|]. cbn. by rewrite Hm.
Qed.
