(* ===== verification/ImrZoneOps.v ===== *)
(** Foreground appends, deletions and discards against the zones and the LSM
    together: each keeps both invariants, changes the layout as its abstract
    operation does, and reports exactly its errors. *)

From S2P Require Import Prelude StdMap ImrPrelude ImrGeometry ImrBloom ImrState ImrReadTree ImrLevels ImrSegment ImrPlacement ImrAccounting ImrCore ImrLsm ImrLsmInv ImrLsmOps ImrCompaction ImrBuild ImrPlan ImrPublish ImrPhases ImrSystem ImrZones ImrGc ImrIo ImrLayout ImrZoneFrame ImrZoneInv.

(** ** The counters of a zone *)

Definition triple (z : zone_status) : Z * Z * (Z -> Z) := (z_map_size z, z_live_count z, z_key_map z).
Definition counters_of (s : kstate) (j : Z) : option (Z * Z * (Z -> Z)) := triple <$> zone j s.

Lemma counters_upd i f g s j : (forall z, triple (f z) = g (triple z)) ->
  counters_of (upd_zone i f s) j = if decide (j = i) then g <$> counters_of s j else counters_of s j.
Proof.
  intros Hf. unfold counters_of. rewrite zone_upd. destruct (decide (j = i)); [|done]. destruct (zone j s); cbn; [by rewrite Hf|done].
Qed.
Lemma counters_relabels s s' j : relabels s s' -> counters_of s' j = counters_of s j.
Proof.
  intros Hr. specialize (Hr j). unfold counters_of. destruct (zone j s'), (zone j s); try done. cbn in *. injection Hr as E1 E2 _ E4.
  unfold triple. congruence.
Qed.
Lemma counters_zhalf s s' j : zhalf s' = zhalf s -> counters_of s' j = counters_of s j.
Proof. intros E. unfold counters_of. by rewrite (zone_zhalf _ _ _ E). Qed.

Lemma counters_layout s j a b c : counters_of s j = Some (a, b, c) ->
  ly_size (layout_of s) j = a /\ ly_live (layout_of s) j = b /\ forall i, ly_key (layout_of s) j i = c i.
Proof. unfold counters_of, triple. cbn. destruct (zone j s) as [z|]; [|done]. cbn. by intros [= <- <- <-]. Qed.
Lemma counters_at s j : zones_ok s -> 0 <= j < IMR_NUMZONES s ->
  counters_of s j = Some (ly_size (layout_of s) j, ly_live (layout_of s) j, ly_key (layout_of s) j).
Proof.
  intros Hz Hj. destruct (zone_at s j (zones_shape _ Hz) Hj) as [z Ez]. unfold counters_of, layout_of, triple. cbn. by rewrite Ez.
Qed.

(** [status->z_key_map[slot] = key; z_map_size++; z_live_count++;] *)
Definition take_slot (slot key : Z) : Z * Z * (Z -> Z) -> Z * Z * (Z -> Z) :=
  fun '(a, b, c) => (u32 (a + 1), u32 (b + 1), upd_fn c slot key).
(** [z_live_count--] *)
Definition lose_block : Z * Z * (Z -> Z) -> Z * Z * (Z -> Z) := fun '(a, b, c) => (a, u32 (b - 1), c).
Definition lose_old (old : option Z) (j : Z) (x : option (Z * Z * (Z -> Z))) : option (Z * Z * (Z -> Z)) :=
  match old with
  | Some p => if decide (j = imrsim_lba_zone_idx p) then lose_block <$> x else x
  | None => x
  end.

Lemma unmap_live_at s k j : zones_ok s -> 0 <= j < IMR_NUMZONES s ->
  lose_old (fwd s k) j (counters_of s j) = Some (ly_size (layout_of s) j, unmap_live (layout_of s) k j, ly_key (layout_of s) j) /\
  0 <= unmap_live (layout_of s) k j <= ly_size (layout_of s) j.
Proof.
  intros Hz Hj. rewrite (counters_at s j Hz Hj). pose proof (live_range _ _ (zk_layout _ Hz) j Hj) as Hl.
  pose proof (lo_size _ _ (zk_layout _ Hz) j Hj) as Hs. change TOTAL_ITEMS with 65536 in Hs. unfold lose_old, unmap_live. change (ly_fwd (layout_of s) k) with (fwd s k).
  destruct (fwd s k) as [p|] eqn:E; [|split; [done|lia]].
  destruct (mapped_live _ _ (zk_layout _ Hz) k p E) as [_ Hpos]. cbv zeta. destruct (decide (j = imrsim_lba_zone_idx p)) as [->|Hne].
  - rewrite upd_eq. cbn [fmap option_fmap option_map lose_block]. rewrite u32_small by lia. split; [done|lia].
  - rewrite upd_ne by done. split; [done|lia].
Qed.

Section layout_change.
Context (s s' : kstate) (k : Z).
Hypothesis (Hz : zones_ok s).

Lemma layout_delete :
  (forall k', fwd s' k' = upd (fwd s) k None k') -> (forall j, counters_of s' j = lose_old (fwd s k) j (counters_of s j)) ->
  layout_eq (IMR_NUMZONES s) (ly_delete k (layout_of s)) (layout_of s').
Proof.
  intros Hf Hc. split; [exact Hf|..]; intros j; intros; destruct (unmap_live_at s k j Hz) as [E _]; try done; rewrite <- Hc in E;
    destruct (counters_layout _ _ _ _ _ E) as (? & ? & ?); done.
Qed.

Lemma layout_append i : 0 <= i < IMR_NUMZONES s -> 0 <= k < 2 ^ 32 -> ly_size (layout_of s) i < TOTAL_ITEMS ->
  (forall k', fwd s' k' = upd (fwd s) k (Some (imr_lsm_zone_append_pba i (ly_size (layout_of s) i))) k') ->
  (forall j, counters_of s' j =
     lose_old (fwd s k) j (if decide (j = i) then take_slot (ly_size (layout_of s) i) (u32 k) <$> counters_of s j else counters_of s j)) ->
  layout_eq (IMR_NUMZONES s) (ly_append i k (layout_of s)) (layout_of s').
Proof.
  intros Hi Hk Hsz Hf Hc. change TOTAL_ITEMS with 65536 in Hsz.
  assert (forall j, 0 <= j < IMR_NUMZONES s -> exists m, counters_of s' j =
    Some (ly_size (ly_append i k (layout_of s)) j, ly_live (ly_append i k (layout_of s)) j, m) /\
    forall x, m x = ly_key (ly_append i k (layout_of s)) j x) as Hall.
  { intros j Hj. rewrite Hc. pose proof (lo_size _ _ (zk_layout _ Hz) j Hj) as Hsj. destruct (unmap_live_at s k j Hz Hj) as [Eu Hu].
    cbn [ly_append ly_size ly_live ly_key ly_delete]. destruct (decide (j = i)) as [->|Hne].
    2: { rewrite Eu, !upd_ne by done. eexists. split; done. }
    rewrite !upd_eq. rewrite (counters_at s i Hz Hi) in Eu |- *. cbn [fmap option_fmap option_map take_slot].
    rewrite (u32_small k) by done. rewrite (u32_small (_ + 1)) by lia. eexists. split.
    - instantiate (1 := upd_fn (ly_key (layout_of s) i) (ly_size (layout_of s) i) k). unfold lose_old, unmap_live in *.
      change (ly_fwd (layout_of s) k) with (fwd s k) in *. pose proof (live_range _ _ (zk_layout _ Hz) i Hi) as Hl.
      destruct (fwd s k) as [p|]; cbv zeta in *; [|rewrite u32_small by lia; done].
      destruct (decide (i = imrsim_lba_zone_idx p)) as [Hp|Hp].
      + rewrite <- Hp, upd_eq in Hu |- *. cbn [fmap option_fmap option_map lose_block]. rewrite (u32_small (ly_live _ _ + 1)) by lia.
        rewrite u32_small by lia. do 3 f_equal. lia.
      + rewrite upd_ne in Hu |- * by done. rewrite u32_small by lia. done.
    - intros x. unfold upd_fn, upd. destruct (Z.eqb_spec x (ly_size (layout_of s) i)); [by rewrite decide_True|by rewrite decide_False]. }
  split; [exact Hf|..]; intros j; intros; destruct (Hall j) as (m & E & Hm); try done;
    destruct (counters_layout _ _ _ _ _ E) as (? & ? & Hkey); try done. rewrite Hkey. apply Hm.
Qed.
End layout_change.

(** ** What a foreground operation keeps *)

Definition phase_kept (s s' : kstate) : Prop := forall ph, phase_ok s ph -> phase_ok s' ph.

Record env_same (s s' : kstate) : Prop := {
  es_num : IMR_NUMZONES s' = IMR_NUMZONES s;
  es_copy : zh_copy (zhalf s') = zh_copy (zhalf s);
  es_target : zh_target (zhalf s') = zh_target (zhalf s);
  es_inflight : append_writes_inflight s' = append_writes_inflight s;
  es_cfg : cfg s' = cfg s;
}.
#[export] Instance env_same_refl : Reflexive env_same.
Proof. by split. Qed.
#[export] Instance env_same_trans : Transitive env_same.
Proof. intros s1 s2 s3 [A1 A2 A3 A4 A5] [B1 B2 B3 B4 B5]. split; congruence. Qed.
Lemma env_rezoned s s' : rezoned s s' -> env_same s s'.
Proof. intros [E Hn _ Hc Ht Hi]. split; try done. exact (f_equal cfg E). Qed.
Lemma env_zhalf s s' : zhalf s' = zhalf s -> env_same s s'.
Proof.
  intros E. split; [by apply num_zhalf|exact (f_equal zh_copy E)|exact (f_equal zh_target E)|exact (f_equal zh_inflight E)|exact (f_equal zh_cfg E)].
Qed.

Lemma phase_half s s' : lsm_half s' = lsm_half s -> phase_kept s s'.
Proof. intros E ph. by apply phase_same, half_same_levels. Qed.
Lemma phase_keeps s s' : keeps s s' -> phase_kept s s'.
Proof. intros E ph. by apply phase_same, keeps_same_levels. Qed.
Lemma phase_appends H key pba valid s s' ret : lsm_inv H s -> appends H key pba valid s s' ret -> phase_kept s s'.
Proof.
  intros Hi [(_ & _ & Hk)|(_ & _ & n & _ & _ & _ & Hk)]; [by apply phase_keeps|]. intros ph Hp. apply (phase_keeps _ _ Hk).
  apply phase_pushed; [|done]. rewrite (ok_levels _ _ _ _ (inv_ok _ _ Hi)). lia.
Qed.
Lemma appends_timestamp H key pba valid s s' ret : appends H key pba valid s s' ret ->
  timestamp (meta s) <= timestamp (meta s') <= timestamp (meta s) + 1.
Proof.
  intros [(_ & _ & Hk)|(_ & _ & n & _ & Hr & _ & Hk)]; rewrite (keeps_timestamp _ _ Hk); [lia|]. cbn. assert (n_timestamp n = timestamp (meta s) + 1) by (by injection Hr). lia.
Qed.

(** Both invariants after an operation that left the newest records [H]. *)
Record foreground (H : newest_map) (s s' : kstate) : Prop := {
  fg_zones : zones_ok s';
  fg_lsm : lsm_inv H s';
  fg_phase : phase_kept s s';
  fg_env : env_same s s';
  fg_time : timestamp (meta s) <= timestamp (meta s') <= timestamp (meta s) + 1;
}.

(** An operation on the zones alone. *)
Lemma foreground_zone H s s' : lsm_inv H s -> rezoned s s' -> zones_ok s' -> foreground H s s'.
Proof.
  intros Hi Hr Hz. pose proof (rz_lsm _ _ Hr) as E. split; [done|by apply (half_inv H s)|by apply phase_half|by apply env_rezoned|].
  rewrite (half_timestamp _ _ E). lia.
Qed.

Lemma total_keys_limit s : zshape s -> u64 (Z.shiftl (IMR_NUMZONES s) IMR_ZONE_SIZE_SHIFT) = total_keys s /\ total_keys s < IMR_LSM_KEY_EMPTY.
Proof.
  intros [_ Hn]. unfold IMR_ZONE_SIZE_SHIFT, total_keys, IMR_LSM_KEY_EMPTY, U32_MAX. change TOTAL_ITEMS with 65536. rewrite Z.shiftl_mul_pow2 by lia.
  change (2 ^ 16) with 65536. rewrite u64_small by lia. lia.
Qed.

(** The invariant after an append, from the layout. *)
Lemma append_zones_ok s s' i k :
  zones_ok s -> zshape s' -> IMR_NUMZONES s' = IMR_NUMZONES s -> 0 <= i < IMR_NUMZONES s -> 0 <= k < 2 ^ 32 -> ly_size (layout_of s) i < TOTAL_ITEMS ->
  layout_eq (IMR_NUMZONES s) (ly_append i k (layout_of s)) (layout_of s') -> 0 <= active_zone (alloc s') ->
  (active_zone (alloc s') < IMR_NUMZONES s' -> active_zone (alloc s') <> copy_source s' /\ active_zone (alloc s') <> copy_dest s') -> zones_ok s'.
Proof.
  intros Hz Hs' Hn Hi Hk Hsz Hl Ha Hc. split; [apply Hs'| | |done|done].
  - rewrite Hn. eapply layout_ok_eq; [exact Hl|]. by apply ly_append_ok; [apply Hz|..].
  - intros j z x Ez Hx. pose proof (zone_in _ _ _ Hs' Ez) as Hj. rewrite Hn in Hj.
    assert (z_map_size z = ly_size (ly_append i k (layout_of s)) j) as Esz by (rewrite <- (le_size _ _ _ Hl j Hj); cbn; by rewrite Ez).
    assert (z_key_map z x = ly_key (ly_append i k (layout_of s)) j x) as -> by (rewrite <- (le_key _ _ _ Hl j x Hj) by lia; cbn; by rewrite Ez).
    destruct (zone_at s j (zones_shape _ Hz) Hj) as [z0 Ez0]. cbn in *. rewrite Esz in Hx. unfold upd in *. destruct (decide (j = i)) as [->|].
    + rewrite Ez0 in *. destruct (decide (x = z_map_size z0)); [done|]. apply (zk_keys _ Hz i z0 x Ez0). lia.
    + rewrite Ez0 in *. by apply (zk_keys _ Hz j z0 x Ez0).
Qed.

(** ** Append *)

(** The mapping of a key is never stale. *)
Lemma mapping_live s s' k : zones_ok s -> relabels s s' -> IMR_NUMZONES s' = IMR_NUMZONES s -> 0 <= k < 2 ^ 32 ->
  let old := imr_lsm_forward_map_lookup_locked k s' in
  old = fwd s k /\
  match old with
  | Some p => (imrsim_lba_zone_idx p >=? IMR_NUMZONES s') ||
              match zone (imrsim_lba_zone_idx p) s' with Some z => z_live_count z =? 0 | None => true end
  | None => false
  end = false.
Proof.
  intros Hz Hr Hn Hk old. assert (old = fwd s k) as ->.
  { unfold old. rewrite <- (relabels_fwd s s' k Hr Hn). unfold fwd. destruct (k <? total_keys s') eqn:E; [by replace (0 <=? k) with true by lia|].
    rewrite andb_false_r. unfold imr_lsm_forward_map_lookup_locked. destruct (logical_eq k) as [-> _]; [lia|]. unfold total_keys in E. change TOTAL_ITEMS with 65536 in E.
    assert (IMR_NUMZONES s' <= k / 65536) by (apply Z.div_le_lower_bound; lia). by replace (_ >=? _) with true by lia. }
  split; [done|]. destruct (fwd s k) as [p|] eqn:Ef; [|done]. destruct (mapped_live _ _ (zk_layout _ Hz) k p Ef) as [Hp Hl].
  destruct (zone_at s _ (zones_shape _ Hz) Hp) as [z Ez]. cbn in Hl. rewrite Ez in Hl. specialize (Hr (imrsim_lba_zone_idx p)). rewrite Ez in Hr.
  destruct (zone (imrsim_lba_zone_idx p) s') as [z'|]; [|done]. cbn in Hr. injection Hr as _ -> _ _. rewrite Hn. lia.
Qed.

Lemma quiet_note_top i slot s : rezoned s (note_top_slot i slot s) /\ relabels s (note_top_slot i slot s) /\ alloc (note_top_slot i slot s) = alloc s.
Proof.
  unfold note_top_slot. destruct (_ >=? _); [|done]. split_and!; [by apply rezoned_upd|by apply relabels_upd|].
  unfold upd_zone. destruct (zones s) as [zs|]; [|done]. by destruct (nthZ zs i).
Qed.
Lemma alloc_upd i f s : alloc (upd_zone i f s) = alloc s.
Proof. unfold upd_zone. destruct (zones s) as [zs|]; [|done]. by destruct (nthZ zs i). Qed.
Lemma alloc_queue i s : alloc (imrsim_ptask_queue_zone_status_locked i s) = alloc s.
Proof. unfold imrsim_ptask_queue_zone_status_locked. destruct (zones s); [|done]. by destruct (_ >=? _). Qed.

(** The zone after the slot is taken, whether it is now full or not. *)
Lemma take_slot_spec i slot key (full : bool) s :
  let s2 := upd_zone i (fun z => set_z_live_count (u32 (z_live_count z + 1)) (set_z_map_size (u32 (z_map_size z + 1))
              (set_z_key_map (upd_fn (z_key_map z) slot key) z))) s in
  let s3 := if full then leave_active_zone (upd_zone i (set_z_conds Z_COND_FULL) s2) else s2 in
  rezoned s s3 /\ (forall j, z_pba_map <$> zone j s3 = z_pba_map <$> zone j s) /\
  (forall j, counters_of s3 j = if decide (j = i) then take_slot slot key <$> counters_of s j else counters_of s j) /\
  (active_zone (alloc s3) = active_zone (alloc s) \/ active_zone (alloc s3) = IMR_LSM_ZONE_COMPACTION_NONE).
Proof.
  intros s2 s3. assert (forall j, counters_of s2 j = if decide (j = i) then take_slot slot key <$> counters_of s j else counters_of s j) as Hc.
  { intros j. by apply counters_upd. }
  assert (forall f j, (forall z, z_pba_map (f z) = z_pba_map z) -> forall s, z_pba_map <$> zone j (upd_zone i f s) = z_pba_map <$> zone j s) as Hp.
  { intros f j Hf x. rewrite zone_upd. destruct (decide (j = i)); [|done]. destruct (zone j x); cbn; [by rewrite Hf|done]. }
  destruct full; unfold s3.
  - set (s4 := upd_zone _ _ s2). split_and!.
    + transitivity s2; [by apply rezoned_upd|]. transitivity s4; [by apply (rezoned_upd i (set_z_conds Z_COND_FULL))|apply rezoned_alloc].
    + intros j. change (zone j (leave_active_zone s4)) with (zone j s4). unfold s4. rewrite Hp by done. unfold s2. by rewrite Hp.
    + intros j. rewrite <- Hc. change (counters_of (leave_active_zone s4) j) with (counters_of s4 j).
      by apply counters_relabels, relabels_upd.
    + by right.
  - split_and!; [by apply rezoned_upd| |done|left; unfold s2; by rewrite alloc_upd]. intros j. unfold s2. by rewrite Hp.
Qed.

(** The outcome of an append for key [k]. *)
Definition append_result (H : newest_map) (k : Z) (s s' : kstate) (r : cres (Z * Z)) : Prop :=
  match r with
  | Fail e => foreground H s s' /\ layout_eq (IMR_NUMZONES s) (layout_of s) (layout_of s') /\
      (e = IMR_ERR_OUT_RANGE /\ total_keys s <= k \/ (e = - ENOSPC \/ e = - ENOMEM) /\ k < total_keys s)
  | Ok (pba, i) => k < total_keys s /\ 0 <= i < IMR_NUMZONES s /\ i <> copy_source s /\ i <> copy_dest s /\
      ly_size (layout_of s) i < TOTAL_ITEMS /\ pba = imr_lsm_zone_append_pba i (ly_size (layout_of s) i) /\
      foreground (record H k (MkRec pba true (timestamp (meta s) + 1))) s s' /\
      layout_eq (IMR_NUMZONES s) (ly_append i k (layout_of s)) (layout_of s')
  end.

(** A failed insertion gives the slot back. *)
Definition give_slot (slot : Z) : Z * Z * (Z -> Z) -> Z * Z * (Z -> Z) :=
  fun '(a, b, c) => (u32 (a - 1), u32 (b - 1), upd_fn c slot IMR_LSM_KEY_EMPTY).

Lemma rollback_spec s s' i key :
  zones_ok s -> zshape s' -> IMR_NUMZONES s' = IMR_NUMZONES s -> 0 <= i < IMR_NUMZONES s -> ly_size (layout_of s) i < TOTAL_ITEMS ->
  (forall k, fwd s' k = fwd s k) ->
  (forall j, counters_of s' j = if decide (j = i) then give_slot (ly_size (layout_of s) i) <$> (take_slot (ly_size (layout_of s) i) key <$> counters_of s j)
                                else counters_of s j) ->
  0 <= active_zone (alloc s') ->
  (active_zone (alloc s') < IMR_NUMZONES s' -> active_zone (alloc s') <> copy_source s' /\ active_zone (alloc s') <> copy_dest s') ->
  zones_ok s' /\ layout_eq (IMR_NUMZONES s) (layout_of s) (layout_of s').
Proof.
  intros Hz Hs' Hn Hi Hsz Hf Hc Ha Hcp. change TOTAL_ITEMS with 65536 in Hsz.
  assert (forall j, 0 <= j < IMR_NUMZONES s -> exists m, counters_of s' j = Some (ly_size (layout_of s) j, ly_live (layout_of s) j, m) /\
    forall x, 0 <= x < ly_size (layout_of s) j -> m x = ly_key (layout_of s) j x) as Hall.
  { intros j Hj. rewrite Hc, (counters_at s j Hz Hj). destruct (decide (j = i)) as [->|]; [|eexists; split; done].
    pose proof (lo_size _ _ (zk_layout _ Hz) i Hi). pose proof (live_range _ _ (zk_layout _ Hz) i Hi).
    cbn [fmap option_fmap option_map take_slot give_slot]. rewrite (u32_small (ly_size _ _ + 1)), (u32_small (ly_live _ _ + 1)) by lia.
    rewrite !u32_small by lia. eexists. split; [do 3 f_equal; lia|]. intros x Hx. unfold upd_fn. by replace (x =? _) with false by lia. }
  assert (layout_eq (IMR_NUMZONES s) (layout_of s) (layout_of s')) as Hl.
  { split; [exact Hf|..]; intros j; intros; destruct (Hall j) as (m & E & Hm); try done;
      destruct (counters_layout _ _ _ _ _ E) as (? & ? & Hkey); try done. rewrite Hkey. by apply Hm. }
  split; [|done]. split; [apply Hs'| | |done|done].
  - rewrite Hn. eapply layout_ok_eq; [exact Hl|apply Hz].
  - intros j z x Ez Hx. pose proof (zone_in _ _ _ Hs' Ez) as Hj. rewrite Hn in Hj. destruct (zone_at s j (zones_shape _ Hz) Hj) as [z0 Ez0].
    pose proof (le_size _ _ _ Hl j Hj) as E1. pose proof (le_key _ _ _ Hl j x Hj) as E2. cbn in E1, E2. rewrite Ez, Ez0 in E1, E2.
    rewrite E2 by lia. apply (zk_keys _ Hz j z0 x Ez0). lia.
Qed.

(** [z_live_count--] of the old zone, with its place in the queue. *)
Lemma lose_old_spec old s :
  let s' := match old with
            | Some p => imrsim_ptask_queue_zone_status_locked (imrsim_lba_zone_idx p)
                          (upd_zone (imrsim_lba_zone_idx p) (fun z => set_z_live_count (u32 (z_live_count z - 1)) z) s)
            | None => s
            end in
  rezoned s s' /\ active_zone (alloc s') = active_zone (alloc s) /\ (forall j, z_pba_map <$> zone j s' = z_pba_map <$> zone j s) /\
  (forall j, counters_of s' j = lose_old old j (counters_of s j)).
Proof.
  destruct old as [p|]; [|done]. cbv zeta. set (i := imrsim_lba_zone_idx p). set (s1 := upd_zone _ _ s). pose proof (quiet_queue i s1) as Hq.
  split_and!.
  - transitivity s1; [by apply rezoned_upd|by apply rezoned_quiet].
  - rewrite (active_zhalf _ _ (q_zone _ _ Hq)). unfold s1. by rewrite alloc_upd.
  - intros j. rewrite (zone_zhalf _ _ _ (q_zone _ _ Hq)). unfold s1. rewrite zone_upd. destruct (decide (j = i)); [|done]. by destruct (zone j s).
  - intros j. rewrite (counters_zhalf _ _ _ (q_zone _ _ Hq)). by apply counters_upd.
Qed.

(** From the inserted record to the end of a successful append. *)
Lemma append_finish H s s4 i k slot :
  zones_ok s -> zshape s4 -> lsm_inv H s4 -> env_same s s4 -> 0 <= i < IMR_NUMZONES s -> i <> copy_source s -> i <> copy_dest s -> 0 <= k < total_keys s ->
  slot = ly_size (layout_of s) i -> slot < TOTAL_ITEMS -> phase_kept s s4 -> timestamp (meta s) <= timestamp (meta s4) <= timestamp (meta s) + 1 ->
  active_zone (alloc s4) = i \/ active_zone (alloc s4) = IMR_LSM_ZONE_COMPACTION_NONE ->
  (forall k', fwd s4 k' = fwd s k') ->
  (forall j, counters_of s4 j = if decide (j = i) then take_slot slot (u32 k) <$> counters_of s j else counters_of s j) ->
  exists s5, imr_lsm_forward_map_set_locked k (imr_lsm_zone_append_pba i slot) s4 = (s5, 0) /\
    let s6 := match fwd s k with
              | Some p => imrsim_ptask_queue_zone_status_locked (imrsim_lba_zone_idx p)
                            (upd_zone (imrsim_lba_zone_idx p) (fun z => set_z_live_count (u32 (z_live_count z - 1)) z) s5)
              | None => s5
              end in
    let s7 := imr_lsm_record_zone_compaction_candidate (imrsim_ptask_queue_zone_status_locked i (note_top_slot i slot s6)) in
    foreground H s s7 /\ layout_eq (IMR_NUMZONES s) (ly_append i k (layout_of s)) (layout_of s7).
Proof.
  intros Hz Sh4 Hi4 Henv Hi Hcs Hcd Hk Hslot Hst Hph Htm Hact Hf4 Hc4. pose proof (lo_size _ _ (zk_layout _ Hz) i Hi) as Hsz0.
  assert (0 <= k < 2 ^ 32) as Hk32. { pose proof (total_keys_limit s (zones_shape _ Hz)) as [_ E]. unfold IMR_LSM_KEY_EMPTY, U32_MAX in E. lia. }
  destruct (append_pba_block (IMR_NUMZONES s) i slot) as (b & Hb & Hbr); [exact (zs_num _ (zones_shape _ Hz))|done|lia|].
  assert (0 <= k < total_keys s4) as Hk4 by (unfold total_keys in *; by rewrite (es_num _ _ Henv)).
  destruct (forward_map_set_spec s4 Sh4 k _ b Hk4 Hb Hbr) as (s5 & E5 & R5 & A5 & F5 & T5). exists s5. split; [done|].
  pose proof (lose_old_spec (fwd s k) s5) as (R6 & A6 & P6 & C6). cbv zeta in R6, A6, P6, C6 |- *. set (s6 := match fwd s k with Some _ => _ | None => _ end) in *. clearbody s6.
  destruct (quiet_note_top i slot s6) as (R7 & L7 & A7). set (s7 := note_top_slot i slot s6) in *. clearbody s7.
  pose proof (quiet_queue i s7) as Q8. set (s8 := imrsim_ptask_queue_zone_status_locked i s7) in *. clearbody s8.
  assert (rezoned s4 s8) as R48 by (etransitivity; [exact R5|]; etransitivity; [exact R6|]; etransitivity; [exact R7|by apply rezoned_quiet]).
  assert (lsm_inv H s8) as Hi8 by (apply (half_inv H s4); [apply R48|done]).
  pose proof (quiet_record_candidate s8 (inv_init _ _ Hi8)) as Q9. set (s9 := imr_lsm_record_zone_compaction_candidate s8) in *. clearbody s9.
  assert (rezoned s4 s9) as R49 by (etransitivity; [exact R48|by apply rezoned_quiet]).
  assert (active_zone (alloc s9) = active_zone (alloc s4)) as A9.
  { rewrite (active_zhalf _ _ (q_zone _ _ Q9)), (active_zhalf _ _ (q_zone _ _ Q8)), A7, A6, A5. done. }
  assert (forall j, counters_of s5 j = counters_of s4 j) as C5.
  { intros j. unfold counters_of. destruct (zone j s5) as [z'|] eqn:Ez'.
    - destruct (T5 j z' Ez') as (z & m & -> & ->). done.
    - destruct (zone j s4) as [z|] eqn:Ez; [|done]. pose proof (zone_in _ _ _ Sh4 Ez) as Hj. rewrite <- (rz_num _ _ R5) in Hj.
      destruct (zone_at s5 j (rezoned_shape _ _ R5 Sh4) Hj). congruence. }
  assert (env_same s s9) as Henv9 by (etransitivity; [exact Henv|by apply env_rezoned]).
  assert (layout_eq (IMR_NUMZONES s) (ly_append i k (layout_of s)) (layout_of s9)) as Hl.
  { apply layout_append; [done|done|done|by rewrite <- Hslot| |].
    - intros k'. rewrite (relabels_fwd s8 s9 k' (relabels_zhalf _ _ (q_zone _ _ Q9)) (num_zhalf _ _ (q_zone _ _ Q9))).
      rewrite (relabels_fwd s7 s8 k' (relabels_zhalf _ _ (q_zone _ _ Q8)) (num_zhalf _ _ (q_zone _ _ Q8))).
      rewrite (relabels_fwd s6 s7 k' L7 (rz_num _ _ R7)), (fwd_pba s5 s6 k' P6 (rz_num _ _ R6)), F5, <- Hslot. unfold upd. by rewrite Hf4.
    - intros j. rewrite (counters_zhalf _ _ _ (q_zone _ _ Q9)), (counters_zhalf _ _ _ (q_zone _ _ Q8)), (counters_relabels _ _ _ L7), C6, C5, Hc4, <- Hslot. done. }
  split; [|done]. split.
  - apply (append_zones_ok s s9 i k); [done|by apply (rezoned_shape s4)|apply Henv9|done|done|by rewrite <- Hslot|done| |].
    + rewrite A9. destruct Hact as [->| ->]; [lia|done].
    + rewrite A9, (es_num _ _ Henv9). pose proof (es_copy _ _ Henv9) as Ec. cbn in Ec. injection Ec as _ -> ->.
      destruct Hact as [->| ->]; [done|]. pose proof (zs_num _ (zones_shape _ Hz)). unfold IMR_LSM_ZONE_COMPACTION_NONE, U32_MAX. lia.
  - apply (half_inv H s4); [apply R49|done].
  - intros ph Hp. by apply (phase_half s4 s9 (rz_lsm _ _ R49)), Hph.
  - done.
  - by rewrite (half_timestamp _ _ (rz_lsm _ _ R49)).
Qed.

Lemma foreground_refl H s : zones_ok s -> lsm_inv H s -> foreground H s s.
Proof. intros Hz Hi. split; [done|done|by intros ph|reflexivity|lia]. Qed.

Lemma append_logical_spec H lba s :
  zones_ok s -> lsm_inv H s -> timestamp (meta s) + 1 < 2 ^ 32 -> 0 <= lba ->
  let '(s', r) := imr_lsm_append_logical_block_locked lba s in append_result H (Z.shiftr lba IMR_BLOCK_SIZE_SHIFT) s s' r.
Proof.
  intros Hz Hi Hts Hlba. unfold imr_lsm_append_logical_block_locked. cbv zeta. set (k := Z.shiftr lba IMR_BLOCK_SIZE_SHIFT).
  assert (0 <= k) as Hk0 by (by apply Z.shiftr_nonneg). destruct (total_keys_limit s (zones_shape _ Hz)) as [Etk Hlim]. rewrite Etk.
  destruct (_ || _) eqn:Eb. { cbn. split_and!; [by apply foreground_refl|apply layout_eq_refl|]. left. lia. }
  assert (k < total_keys s) as Hk by lia. assert (0 <= k < 2 ^ 32) as Hk32 by (unfold IMR_LSM_KEY_EMPTY, U32_MAX in Hlim; lia).
  pose proof (activate_spec s Hz) as Ha. destruct (imr_lsm_activate_zone_locked s) as [s1 r]. destruct Ha as (R1 & L1 & Z1 & Hr).
  pose proof (half_inv H _ _ (rz_lsm _ _ R1) Hi) as Hi1. pose proof (relabels_layout _ _ L1 (rz_num _ _ R1)) as Ll1.
  destruct r as [i|e].
  2: { subst e. pose proof (quiet_record_candidate s1 (inv_init _ _ Hi1)) as Q. pose proof (zones_ok_zhalf _ _ (q_zone _ _ Q) Z1) as Z2. cbn. split_and!.
       - apply foreground_zone; [done| |done]. etransitivity; [exact R1|by apply rezoned_quiet].
       - eapply layout_eq_trans; [exact Ll1|]. rewrite <- (rz_num _ _ R1). apply relabels_layout; [by apply relabels_zhalf, Q|apply num_zhalf, Q].
       - right. split; [by left|done]. }
  destruct Hr as (Ha1 & z & Ez & Hsz). pose proof (zone_in _ _ _ (zones_shape _ Z1) Ez) as Hir. rewrite (rz_num _ _ R1) in Hir.
  assert (ly_size (layout_of s) i = z_map_size z) as Esz by (rewrite <- (le_size _ _ _ Ll1 i Hir); cbn; by rewrite Ez).
  destruct (zk_copy _ Z1) as [Hcs Hcd]; [rewrite Ha1, (rz_num _ _ R1); lia|]. rewrite Ha1 in Hcs, Hcd. destruct (rezoned_copy _ _ R1) as (_ & Ec1 & Ec2). rewrite Ec1 in Hcs. rewrite Ec2 in Hcd.
  rewrite Ez. replace (z_map_size z >=? TOTAL_ITEMS) with false by lia. rewrite <- Esz in Hsz |- *. set (slot := ly_size (layout_of s) i) in *.
  destruct (mapping_live s s1 k Hz L1 (rz_num _ _ R1) Hk32) as [Eold Hlive]. rewrite Eold in Hlive |- *.
  match goal with |- context [if ?b then (s1, Fail (- EUCLEAN)) else _] => replace b with false by (by destruct (fwd s k)) end. clear Hlive.
  destruct (take_slot_spec i slot (u32 k) (u32 (slot + 1) =? TOTAL_ITEMS) s1) as (R3 & P3 & C3 & A3). cbv zeta in R3, P3, C3, A3. set (s3 := if _ =? TOTAL_ITEMS then _ else _) in *. clearbody s3.
  assert (rezoned s s3) as R03 by (by etransitivity). pose proof (half_inv H _ _ (rz_lsm _ _ R03) Hi) as Hi3.
  pose proof (record_insert_spec H i lba (imr_lsm_zone_append_pba i slot) s3 Hi3) as Hap. rewrite (half_timestamp _ _ (rz_lsm _ _ R03)) in Hap. specialize (Hap Hts).
  destruct (imr_lsm_record_insert i lba _ s3) as [s4 ret]. fold k in Hap.
  pose proof (appends_zhalf _ _ _ _ _ _ _ Hap) as Zh4. pose proof (phase_appends _ _ _ _ _ _ _ Hi3 Hap) as Ph4. pose proof (appends_timestamp _ _ _ _ _ _ _ Hap) as Tm4.
  rewrite (half_timestamp _ _ (rz_lsm _ _ R03)) in Tm4.
  assert (zshape s4) as Sh4 by (apply (zhalf_shape s3 s4 Zh4), (rezoned_shape s s3 R03), zones_shape, Hz).
  assert (env_same s s4) as Henv by (etransitivity; [by apply env_rezoned|by apply env_zhalf]).
  assert (phase_kept s s4) as Ph by (intros ph Hp; by apply Ph4, (phase_half s s3 (rz_lsm _ _ R03))).
  assert (forall k', fwd s4 k' = fwd s k') as F4.
  { intros k'. rewrite (fwd_zones k' s3 s4 (fun i => zone_zhalf i _ _ Zh4) (num_zhalf _ _ Zh4)), (fwd_pba s1 s3 k' P3 (rz_num _ _ R3)). by apply relabels_fwd; [|apply R1]. }
  assert (forall j, counters_of s4 j = if decide (j = i) then take_slot slot (u32 k) <$> counters_of s j else counters_of s j) as C4.
  { intros j. by rewrite (counters_zhalf _ _ _ Zh4), C3, (counters_relabels _ _ _ L1). }
  destruct Hap as [(-> & Hi4 & Hk4)|(-> & Hi4 & _)].
  - (* no memory *)
    change (negb (- ENOMEM =? 0)) with true. cbn [append_result]. set (s5 := upd_zone i _ s4). set (s6 := set_alloc _ s5).
    assert (rezoned s4 s6) as R46 by (transitivity s5; [by apply rezoned_upd|apply rezoned_alloc]).
    assert (env_same s s6) as Henv6 by (etransitivity; [exact Henv|by apply env_rezoned]).
    destruct (rollback_spec s s6 i (u32 k)) as [Z6 Hl6]; try done.
    + by apply (rezoned_shape s4 s6).
    + apply Henv6.
    + intros k'. rewrite <- F4. apply fwd_pba; [|apply R46]. intros j. change (zone j s6) with (zone j s5). unfold s5. rewrite zone_upd. destruct (decide (j = i)); [|done]. by destruct (zone j s4).
    + intros j. change (counters_of s6 j) with (counters_of s5 j). unfold s5. rewrite (counters_upd i _ (give_slot slot)) by done. rewrite C4. by destruct (decide (j = i)).
    + cbn. lia.
    + intros _. pose proof (es_copy _ _ Henv6) as Ec. cbn in Ec. injection Ec as _ Ec3 Ec4. cbn. rewrite Ec3, Ec4. done.
    + split_and!; [|done|right; split; [by right|done]]. split; [done| | |done|].
      * apply (half_inv H s4); [apply R46|done].
      * intros ph Hp. by apply (phase_half s4 s6 (rz_lsm _ _ R46)), Ph.
      * by rewrite (half_timestamp _ _ (rz_lsm _ _ R46)).
  - rewrite (half_timestamp _ _ (rz_lsm _ _ R03)) in Hi4.
    destruct (append_finish _ s s4 i k slot Hz Sh4 Hi4 Henv Hir Hcs Hcd ltac:(lia) eq_refl Hsz Ph Tm4) as (s5 & E5 & Hfg & Hl); [|done|done|].
    { rewrite (active_zhalf _ _ Zh4), <- Ha1. done. }
    change (negb (0 =? 0)) with false. rewrite E5. change (negb (0 =? 0)) with false. cbn [append_result]. cbv iota.
    split_and!; try done; try lia; by destruct (fwd s k).
Qed.

(** ** Write *)

Lemma foreground_before H s s0 s' : quiet s s0 -> foreground H s0 s' -> foreground H s s'.
Proof.
  intros Q [Z1 I1 P1 E1 T1]. split; [done|done| | |].
  - intros ph Hp. by apply P1, (phase_half s s0 (q_lsm _ _ Q)).
  - etransitivity; [apply env_zhalf, Q|done].
  - by rewrite <- (half_timestamp _ _ (q_lsm _ _ Q)).
Qed.
Lemma foreground_after H s s1 s' : foreground H s s1 -> quiet s1 s' -> foreground H s s'.
Proof.
  intros [Z1 I1 P1 E1 T1] Q. split; [by apply (zones_ok_zhalf s1), Z1; apply Q|apply (half_inv H s1), I1; apply Q| | |].
  - intros ph Hp. by apply (phase_half s1 s' (q_lsm _ _ Q)), P1.
  - etransitivity; [exact E1|apply env_zhalf, Q].
  - by rewrite (half_timestamp _ _ (q_lsm _ _ Q)).
Qed.
Lemma layout_quiet s s' : quiet s s' -> layout_eq (IMR_NUMZONES s) (layout_of s) (layout_of s').
Proof. intros Q. apply relabels_layout; [apply relabels_zhalf, Q|apply num_zhalf, Q]. Qed.

Lemma layout_of_zhalf s s' : zhalf s' = zhalf s -> layout_of s' = layout_of s.
Proof.
  intros E. pose proof (num_zhalf _ _ E) as Hn. assert (zones s' = zones s) as Hz by exact (f_equal zh_zones E).
  unfold layout_of, fwd, total_keys, imr_lsm_forward_map_lookup_locked, zone. by rewrite Hn, Hz.
Qed.

Lemma append_result_before H k s s0 s' r : quiet s s0 -> append_result H k s0 s' r -> append_result H k s s' r.
Proof.
  intros Q. pose proof (q_zone _ _ Q) as E. unfold append_result, total_keys. rewrite (num_zhalf _ _ E), (layout_of_zhalf _ _ E).
  destruct (copy_zhalf _ _ E) as (_ & -> & ->). rewrite (half_timestamp _ _ (q_lsm _ _ Q)).
  destruct r as [[pba i]|e].
  - intros (? & ? & ? & ? & ? & ? & Hf & ?). split_and!; try done; try lia. by eapply foreground_before.
  - intros (Hf & ? & ?). split_and!; [by eapply foreground_before|done|done].
Qed.
Lemma append_result_after H k s s1 s' r : quiet s1 s' -> append_result H k s s1 r -> append_result H k s s' r.
Proof.
  intros Q. unfold append_result. rewrite (layout_of_zhalf _ _ (q_zone _ _ Q)). destruct r as [[pba i]|e].
  - intros (? & ? & ? & ? & ? & ? & Hf & ?). split_and!; try done; try lia. by eapply foreground_after.
  - intros (Hf & ? & ?). split_and!; [by eapply foreground_after|done|done].
Qed.

Lemma quiet_write_stats w s : quiet s (set_write_stats w s).
Proof. by split. Qed.

(** A write either is refused for its alignment or ends as the append does. *)
Lemma write_rule_spec H lba sectors s :
  zones_ok s -> lsm_inv H s -> timestamp (meta s) + 1 < 2 ^ 32 -> 0 <= lba ->
  let '(s', r) := imrsim_active_write_rule_check lba sectors s in
  (s' = s /\ r = Fail IMR_ERR_WRITE_ALIGN /\ (sectors <> 8 \/ Z.land lba 7 <> 0)) \/
  (sectors = 8 /\ Z.land lba 7 = 0 /\ exists i,
    append_result H (Z.shiftr lba IMR_BLOCK_SIZE_SHIFT) s s' match r with Ok pba => Ok (pba, i) | Fail e => Fail e end).
Proof.
  intros Hz Hi Hts Hlba. unfold imrsim_active_write_rule_check. destruct (_ || _) eqn:Eb; [left; split_and!; [done|done|lia]|].
  unfold imr_lsm_record_logical_write. rewrite ensure_initialized_id by apply Hi. set (s0 := st_inc _ s). assert (quiet s s0) as Q0 by apply quiet_st_inc.
  pose proof (append_logical_spec H lba s0 (zones_ok_zhalf _ _ (q_zone _ _ Q0) Hz) (half_inv H _ _ (q_lsm _ _ Q0) Hi) Hts Hlba) as Ha.
  destruct (imr_lsm_append_logical_block_locked lba s0) as [s1 [[pba i]|e]].
  - right. split_and!; [lia|lia|]. exists i. apply (append_result_before H _ s s0); [done|]. by apply (append_result_after H _ s0 s1); [apply quiet_write_stats|].
  - right. split_and!; [lia|lia|]. exists 0. by apply (append_result_before H _ s s0).
Qed.

(** ** Deletion *)

Definition delete_result (H : newest_map) (k : Z) (s s' : kstate) (ret : Z) : Prop :=
  ret = 0 /\ k < total_keys s /\ foreground (record H k (MkRec 0 false (timestamp (meta s) + 1))) s s' /\
    layout_eq (IMR_NUMZONES s) (ly_delete k (layout_of s)) (layout_of s') \/
  foreground H s s' /\ layout_eq (IMR_NUMZONES s) (layout_of s) (layout_of s') /\
    (ret = IMR_ERR_OUT_RANGE /\ (imrsim_target_ready_locked s = false \/ total_keys s <= k) \/ ret = - ENOMEM /\ k < total_keys s).

Lemma delete_zones_ok s s' k :
  zones_ok s -> zshape s' -> IMR_NUMZONES s' = IMR_NUMZONES s -> layout_eq (IMR_NUMZONES s) (ly_delete k (layout_of s)) (layout_of s') ->
  active_zone (alloc s') = active_zone (alloc s) -> copy_source s' = copy_source s -> copy_dest s' = copy_dest s -> zones_ok s'.
Proof.
  intros Hz Hs' Hn Hl Ha Hc1 Hc2. split; [apply Hs'| | |rewrite Ha; apply Hz|rewrite Ha, Hn, Hc1, Hc2; apply Hz].
  - rewrite Hn. eapply layout_ok_eq; [exact Hl|]. apply ly_delete_ok, Hz.
  - intros j z x Ez Hx. pose proof (zone_in _ _ _ Hs' Ez) as Hj. rewrite Hn in Hj. destruct (zone_at s j (zones_shape _ Hz) Hj) as [z0 Ez0].
    pose proof (le_size _ _ _ Hl j Hj) as E1. pose proof (le_key _ _ _ Hl j x Hj) as E2. cbn in E1, E2. rewrite Ez, Ez0 in E1, E2.
    rewrite E2 by lia. apply (zk_keys _ Hz j z0 x Ez0). lia.
Qed.

(** The zone and offset of a key, as the deletion computes them. *)
Lemma delete_key_range k s : zshape s -> 0 <= k < 2 ^ 64 ->
  let z := logical_zone k in let o := u64 (k - u64 (Z.shiftl z IMR_ZONE_SIZE_SHIFT)) in
  if (z >=? IMR_NUMZONES s) || (o >=? TOTAL_ITEMS) then total_keys s <= k else k < total_keys s /\ z = k / 65536 /\ o = k mod 65536.
Proof.
  intros Hz Hk z o. pose proof (zs_num _ Hz) as Hn. unfold total_keys. change TOTAL_ITEMS with 65536. pose proof (Z.div_mod k 65536 ltac:(lia)) as Hdm.
  pose proof (Z.mod_pos_bound k 65536 ltac:(lia)). assert (0 <= k / 65536) by (apply Z.div_pos; lia).
  assert (z = (k / 65536) mod 2 ^ 32) as Ez.
  { unfold z, logical_zone, IMR_ZONE_SIZE_SHIFT. rewrite Z.shiftr_div_pow2 by lia. reflexivity. }
  pose proof (Z.mod_pos_bound (k / 65536) (2 ^ 32) ltac:(lia)). pose proof (Z.div_mod (k / 65536) (2 ^ 32) ltac:(lia)) as Hdm2.
  assert (0 <= k / 65536 / 2 ^ 32) by (apply Z.div_pos; lia).
  assert (o = k - z * 65536) as Eo.
  { unfold o, IMR_ZONE_SIZE_SHIFT. rewrite Z.shiftl_mul_pow2 by lia. change (2 ^ 16) with 65536. rewrite (u64_small (z * 65536)) by lia. apply u64_small. lia. }
  destruct (_ || _) eqn:Eb; [|]. 
  - destruct (z >=? IMR_NUMZONES s) eqn:E1; cbn [orb] in Eb; nia.
  - assert (k / 65536 / 2 ^ 32 = 0) by nia. nia.
Qed.

(** From the tombstone to the end of a successful deletion. *)
Lemma delete_finish H s s4 k :
  zones_ok s -> zhalf s4 = zhalf s -> lsm_inv H s4 -> phase_kept s s4 -> timestamp (meta s) <= timestamp (meta s4) <= timestamp (meta s) + 1 ->
  0 <= k < total_keys s ->
  let s5 := imrsim_ptask_queue_zone_status_locked (k / 65536)
              (upd_zone (k / 65536) (fun z => set_z_pba_map (upd_fn (z_pba_map z) (k mod 65536) (-1)) z) s4) in
  let s6 := match fwd s k with
            | Some p => imrsim_ptask_queue_zone_status_locked (imrsim_lba_zone_idx p)
                          (upd_zone (imrsim_lba_zone_idx p) (fun z => set_z_live_count (u32 (z_live_count z - 1)) z) s5)
            | None => s5
            end in
  foreground H s s6 /\ layout_eq (IMR_NUMZONES s) (ly_delete k (layout_of s)) (layout_of s6).
Proof.
  intros Hz Zh4 Hi4 Hph Htm Hk. pose proof (zhalf_shape _ _ Zh4 (zones_shape _ Hz)) as Sh4. cbv zeta.
  set (s4' := upd_zone (k / 65536) _ s4). pose proof (quiet_queue (k / 65536) s4') as Q5. set (s5 := imrsim_ptask_queue_zone_status_locked (k / 65536) s4') in *.
  assert (rezoned s4 s5) as R5 by (transitivity s4'; [by apply rezoned_upd|by apply rezoned_quiet]).
  pose proof (lose_old_spec (fwd s k) s5) as (R6 & A6 & P6 & C6). cbv zeta in R6, A6, P6, C6 |- *. set (s6 := match fwd s k with Some _ => _ | None => _ end) in *. clearbody s6.
  assert (rezoned s4 s6) as R46 by (by etransitivity).
  assert (env_same s s6) as Henv by (etransitivity; [by apply env_zhalf|by apply env_rezoned]).
  assert (layout_eq (IMR_NUMZONES s) (ly_delete k (layout_of s)) (layout_of s6)) as Hl.
  { apply layout_delete; [done| |].
    - intros k'. rewrite (fwd_pba s5 s6 k' P6 (rz_num _ _ R6)). rewrite (fwd_upd s4 Sh4 k (-1) s5).
      + unfold upd. destruct (decide (k' = k)); [done|]. by apply fwd_zones; [intros i; apply zone_zhalf|apply num_zhalf].
      + unfold total_keys in *. by rewrite (num_zhalf _ _ Zh4).
      + intros i. rewrite (zone_zhalf _ _ _ (q_zone _ _ Q5)). apply zone_upd.
      + apply R5.
    - intros j. rewrite C6. f_equal. unfold s5. rewrite (counters_zhalf _ _ _ (q_zone _ _ Q5)). unfold s4'. rewrite (counters_upd (k / 65536) _ id) by done.
      rewrite (counters_zhalf _ _ _ Zh4). by destruct (decide _), (counters_of s j). }
  assert (active_zone (alloc s6) = active_zone (alloc s)) as A.
  { rewrite A6. rewrite (active_zhalf _ _ (q_zone _ _ Q5)). unfold s4'. rewrite alloc_upd. by apply active_zhalf. }
  split; [|done]. split.
  - apply (delete_zones_ok s s6 k); [done|by apply (rezoned_shape s4)|apply Henv|done|done|..]; pose proof (es_copy _ _ Henv) as Ec; cbn in Ec; by injection Ec.
  - apply (half_inv H s4); [apply R46|done].
  - intros ph Hp. by apply (phase_half s4 s6 (rz_lsm _ _ R46)), Hph.
  - done.
  - by rewrite (half_timestamp _ _ (rz_lsm _ _ R46)).
Qed.

Lemma quiet_recorded s : quiet s (defer_candidate (imr_lsm_record_zone_compaction_candidate_locked s)).
Proof. etransitivity; [apply quiet_candidate|apply quiet_defer_candidate]. Qed.

Lemma delete_key_spec H k s :
  zones_ok s -> lsm_inv H s -> timestamp (meta s) + 1 < 2 ^ 32 -> 0 <= k < 2 ^ 64 ->
  let '(s', ret) := imrsim_lsm_delete_key_locked k s in delete_result H k s s' ret.
Proof.
  intros Hz Hi Hts Hk. unfold imrsim_lsm_delete_key_locked. cbv zeta. pose proof (delete_key_range k s (zones_shape _ Hz) Hk) as Hr. cbv zeta in Hr.
  assert (delete_result H k s s IMR_ERR_OUT_RANGE \/ imrsim_target_ready_locked s = true /\ k < total_keys s) as Hout.
  { assert (imrsim_target_ready_locked s = false \/ total_keys s <= k -> delete_result H k s s IMR_ERR_OUT_RANGE) as Ho.
    { intros Hc. right. split_and!; [by apply foreground_refl|apply layout_eq_refl|by left]. }
    destruct (imrsim_target_ready_locked s); [|left; apply Ho; by left]. destruct (decide (k < total_keys s)); [by right|left; apply Ho; right; lia]. }
  destruct (negb (imrsim_target_ready_locked s) || (logical_zone k >=? IMR_NUMZONES s)) eqn:E1.
  { destruct Hout as [Ho|[Er Hkt]]; [done|]. rewrite Er in E1. cbn in E1. rewrite E1 in Hr. cbn in Hr. lia. }
  apply orb_false_iff in E1 as [E0 E1]. rewrite E1 in Hr. cbn [orb] in Hr. destruct (_ >=? TOTAL_ITEMS) eqn:E2.
  { destruct Hout as [Ho|[Er Hkt]]; [done|lia]. }
  clear Hout. destruct Hr as (Hkt & Ezn & Eof). rewrite Ezn in Eof. rewrite Ezn, Eof.
  assert (0 <= k < 2 ^ 32) as Hk32. { destruct (total_keys_limit s (zones_shape _ Hz)) as [_ Hl]. unfold IMR_LSM_KEY_EMPTY, U32_MAX in Hl. lia. }
  destruct (mapping_live s s k Hz) as [Eold Hlive]; [done|done|done|]. rewrite Eold in Hlive |- *.
  match goal with |- context [if ?b then (s, - EUCLEAN) else _] => replace b with false by (by destruct (fwd s k)) end. clear Hlive.
  pose proof (delete_spec H k s Hi Hts) as Hap. destruct (imr_lsm_delete_locked k s) as [s4 ret].
  pose proof (appends_zhalf _ _ _ _ _ _ _ Hap) as Zh4. pose proof (phase_appends _ _ _ _ _ _ _ Hi Hap) as Ph4. pose proof (appends_timestamp _ _ _ _ _ _ _ Hap) as Tm4.
  destruct Hap as [(-> & Hi4 & Hk4)|(-> & Hi4 & _)].
  - right. split_and!; [|by rewrite (layout_of_zhalf _ _ Zh4)|right; done].
    split; [by apply (zones_ok_zhalf s)|done|done|by apply env_zhalf|done].
  - destruct (delete_finish _ s s4 k Hz Zh4 Hi4 Ph4 Tm4 ltac:(lia)) as [Hfg Hl]. left. change (negb (0 =? 0)) with false. cbv iota.
    split_and!; [done|done|..]; destruct (fwd s k) as [p|]; try done.
    + eapply foreground_after; [exact Hfg|apply quiet_recorded].
    + rewrite (layout_of_zhalf _ _ (q_zone _ _ (quiet_recorded _))). exact Hl.
Qed.
