(* ===== verification/ImrGcPlan.v ===== *)
(** The preparation of a zone collection: its plan copies exactly the live blocks
    of the source zone, in key order, to consecutive slots of an empty zone. *)

From Stdlib Require Import Sorted.
From S2P Require Import Prelude StdMap ImrPrelude ImrGeometry ImrBloom ImrState ImrReadTree ImrLevels ImrSegment ImrPlacement ImrAccounting ImrCore ImrLsm ImrLsmInv ImrLsmOps ImrCompaction ImrBuild ImrPlan ImrPublish ImrPhases ImrSystem ImrZones ImrGc ImrIo ImrLayout ImrZoneFrame ImrZoneInv ImrZoneOps.

(** ** Entries as moves *)

Definition slot_of (z pba : Z) : Z := block_slot ((pba - z * 524288) / 8).
Definition move_of (src dst : Z) (e : block_entry) : move := MkMove (be_key e) (slot_of src (be_source_pba e)) (slot_of dst (be_pba e)).

Lemma slot_of_append z j : 0 <= z < 2 ^ 32 -> 0 <= j < TOTAL_ITEMS -> slot_of z (imr_lsm_zone_append_pba z j) = j.
Proof.
  intros Hz Hj. unfold slot_of. rewrite append_pba_eq by done. pose proof (slot_block_range j Hj).
  replace (z * 524288 + slot_block j * 8 - z * 524288) with (slot_block j * 8) by lia. rewrite Z.div_mul by lia. by apply block_slot_block.
Qed.

(** ** The scan *)

(** A builder whose table is in discovery order. *)
Record raw_builder (b : builder) : Prop := {
  rb_cap : lenZ (sb_table b) <= sb_capacity b <= U32_MAX;
  rb_count : sb_node_count b = lenZ (sb_table b);
  rb_range : forall e, e ∈ sb_table b ->
    sb_min_key b <= be_key e <= sb_max_key b /\ sb_min_timestamp b <= be_timestamp e <= sb_max_timestamp b;
  rb_mixed : sb_table b <> [] -> sb_zone_idx b = IMR_LSM_SEGMENT_ZONE_MIXED;
}.

Lemma append_gc_spec threshold b key pba source zone_idx ts h :
  1 <= threshold <= U32_MAX -> raw_builder b -> lenZ (sb_table b) + 1 < 2 ^ 32 ->
  let '(h', r) := imr_lsm_segment_builder_append_zone_gc threshold b key pba source zone_idx ts h in
  heap_le h h' /\
  (r = Fail (- ENOMEM) \/ exists b', r = Ok b' /\ raw_builder b' /\ sb_table b' = sb_table b ++ [gc_entry key pba source zone_idx ts]).
Proof.
  intros Ht [Hc Hn Hr Hm] Hl. unfold imr_lsm_segment_builder_append_zone_gc. pose proof (reserve_spec threshold b h Ht Hc) as Hres. pose proof (reserve_le threshold b h) as Hle.
  destruct (imr_lsm_segment_builder_reserve_block_table threshold b h) as [h' r]. cbn in Hle. destruct Hres as [->|(cap & -> & Hcap)]; [split; [done|by left]|].
  split; [done|]. right. eexists. split; [done|]. pose proof (lenZ_nonneg (sb_table b)). cbn [sb_table set_table sb_node_count sb_capacity].
  rewrite u32_small by lia. set (e0 := gc_entry key pba source zone_idx ts). assert (lenZ (sb_table b ++ [e0]) = lenZ (sb_table b) + 1) as El by (by rewrite lenZ_app).
  destruct (sb_node_count b =? 0) eqn:E0; cbn [sb_table]; (split; [|done]).
  - assert (sb_table b = []) as Enil. { destruct (sb_table b); [done|]. rewrite lenZ_cons in *. pose proof (lenZ_nonneg l). lia. }
    split; cbn [set_table sb_table sb_capacity sb_node_count sb_min_key sb_max_key sb_min_timestamp sb_max_timestamp]; [lia|lia| |done]. rewrite Enil. intros e He%list_elem_of_singleton. subst e. unfold e0. cbn [gc_entry be_key be_timestamp]. lia.
  - split; cbn [set_table sb_table sb_capacity sb_node_count sb_min_key sb_max_key sb_min_timestamp sb_max_timestamp]; [lia|lia| |intros _; cbn; apply Hm; intros E; rewrite E in Hn; change (lenZ []) with 0 in Hn; lia].
    intros e [He|He%list_elem_of_singleton]%elem_of_app; [pose proof (Hr e He)|subst e; unfold e0; cbn [gc_entry be_key be_timestamp]]; repeat case_match; lia.
Qed.

Section scan.
Context (s0 : kstate) (src dst : Z).
Abbreviation L := (layout_of s0).
Abbreviation t0 := (timestamp (meta s0)).
Hypothesis (Hz : zones_ok s0) (Hsrc : 0 <= src < IMR_NUMZONES s0) (Hdst : 0 <= dst < IMR_NUMZONES s0).
Hypothesis (Hth : 1 <= imr_lsm_compaction_threshold_locked s0 <= U32_MAX) (Ht0 : 0 <= t0).

(** An entry that copies a live block of the source. *)
Definition copies (e : block_entry) : Prop :=
  be_valid e = true /\ be_source_pba e = imr_lsm_zone_append_pba src (slot_of src (be_source_pba e)) /\
  be_key e = ly_key L src (slot_of src (be_source_pba e)).

(** The plan after the slots below [j]. *)
Record scanned (j : Z) (p : zone_plan) (s : kstate) : Prop := {
  sc_state : exists h, heap_le (hp s0) h /\ s = set_hp h (upd_meta (set_timestamp (t0 + lenZ (sb_table (zp_builder p)))) s0);
  sc_builder : raw_builder (zp_builder p);
  sc_source : zp_source_zone p = src;
  sc_dest : zp_dest_zone0 p = dst;
  sc_count : zp_live_entries p = lenZ (sb_table (zp_builder p));
  sc_copies : Forall copies (sb_table (zp_builder p));
  sc_from : map (fun e => slot_of src (be_source_pba e)) (sb_table (zp_builder p)) = List.filter (live_at L src) (zrange j);
  sc_to : map be_pba (sb_table (zp_builder p)) = map (imr_lsm_zone_append_pba dst) (zrange (lenZ (sb_table (zp_builder p))));
  sc_time : map be_timestamp (sb_table (zp_builder p)) = map (fun x => t0 + 1 + x) (zrange (lenZ (sb_table (zp_builder p))));
}.

Lemma filter_snoc {A} (P : A -> bool) l x : List.filter P (l ++ [x]) = List.filter P l ++ if P x then [x] else [].
Proof. rewrite List.filter_app. cbn. by destruct (P x). Qed.

Lemma plan_slot_spec j p s :
  scanned j p s -> 0 <= j < ly_size L src -> t0 + ly_size L src + 1 < 2 ^ 32 ->
  let '(s', p', ret) := plan_slot j p s in
  zp_bdev p' = zp_bdev p /\ zp_bdev_start p' = zp_bdev_start p /\
  ((ret = - ENOMEM /\ exists h t, heap_le (hp s0) h /\ t0 <= t <= t0 + j + 1 /\ s' = set_hp h (upd_meta (set_timestamp t) s0)) \/
   (ret = 0 /\ scanned (j + 1) p' s')).
Proof.
  intros [(h & Hh & Es) S2 S3 S4 S5 S6 S7 S8 S9] Hj Hts. pose proof (lo_size _ _ (zk_layout _ Hz) src Hsrc) as Hsz.
  set (t := sb_table (zp_builder p)) in *. assert (lenZ t <= j) as Hlen.
  { assert (lenZ t = count (live_at L src) (zrange j)) as -> by (unfold count; rewrite <- S7; unfold lenZ; by rewrite length_map).
    pose proof (count_range (live_at L src) (zrange j)) as Hc. rewrite lenZ_zrange in Hc by lia. lia. }
  pose proof (lenZ_nonneg t) as Hlen0. unfold plan_slot. rewrite S3. destruct (zone_at s0 src (zones_shape _ Hz) Hsrc) as [z Ez].
  assert (zhalf s = zhalf s0) as Ezh by (by rewrite Es). rewrite (zone_zhalf _ _ _ Ezh), Ez.
  assert (ly_key L src j = z_key_map z j) as Ek by (cbn; by rewrite Ez). assert (z_map_size z = ly_size L src) as Esz by (cbn; by rewrite Ez).
  pose proof (zk_keys _ Hz src z j Ez ltac:(lia)) as Hkr.
  assert (forall b, live_at L src j = b -> List.filter (live_at L src) (zrange (j + 1)) = List.filter (live_at L src) (zrange j) ++ if b then [j] else []) as Hfilter.
  { intros b Hb. rewrite zrange_S, filter_snoc, Hb by lia. done. }
  assert (imr_lsm_forward_map_lookup_locked (z_key_map z j) s = fwd s0 (z_key_map z j)) as Ef.
  { rewrite (lookup_fwd s) by (done || by apply (zhalf_shape s0), zones_shape, Hz). by apply fwd_zones; [intros i; apply zone_zhalf|apply num_zhalf]. }
  assert (scanned (j + 1) (skip_entry p) s \/ live_at L src j = true) as Hskip.
  { destruct (live_at L src j) eqn:El; [by right|left]. split; try done; [by exists h|]. cbn. fold t. rewrite (Hfilter false), app_nil_r by done. done. }
  destruct (z_key_map z j =? IMR_LSM_KEY_EMPTY) eqn:Ee.
  { split_and!; [done|done|]. right. split; [done|]. destruct Hskip as [|Hl]; [done|]. exfalso. apply live_at_fwd in Hl. rewrite Ek in Hl. cbn in Hl.
    rewrite (fwd_outside s0) in Hl; [done|]. destruct (total_keys_limit s0 (zones_shape _ Hz)) as [_ Hlim]. lia. }
  rewrite Ef. destruct (negb _) eqn:Em.
  { split_and!; [done|done|]. right. split; [done|]. destruct Hskip as [|Hl]; [done|]. exfalso. unfold live_at in Hl. cbn in Hl. rewrite Ez in Hl. by rewrite Hl in Em. }
  clear Hskip. assert (live_at L src j = true) as Hl by (unfold live_at; cbn; rewrite Ez; by apply negb_false_iff in Em).
  rewrite S5. change TOTAL_ITEMS with 65536 in *. replace (lenZ t >=? 65536) with false by lia. rewrite S4. cbv zeta.
  assert (timestamp (meta s) = t0 + lenZ t) as Et by (by rewrite Es). rewrite Et.
  rewrite (u64_small (t0 + lenZ t + 1)) by lia. set (ts := t0 + lenZ t + 1). set (s1 := upd_meta (set_timestamp ts) s).
  assert (cfg s1 = cfg s0) as Ec by (unfold s1; by rewrite Es). rewrite (threshold_cfg s0 s1 Ec).
  pose proof (append_gc_spec (imr_lsm_compaction_threshold_locked s0) (zp_builder p) (z_key_map z j) (imr_lsm_zone_append_pba dst (lenZ t))
    (imr_lsm_zone_append_pba src j) dst ts (hp s1) Hth S2 ltac:(fold t; lia)) as Ha.
  assert (heap_le (hp s0) (hp s1)) as Hh1 by (unfold s1; rewrite Es; exact Hh).
  destruct (imr_lsm_segment_builder_append_zone_gc _ _ _ _ _ _ _ _) as [h1 r]. destruct Ha as [Hle Hr].
  assert (forall h2, set_hp h2 s1 = set_hp h2 (upd_meta (set_timestamp ts) s0)) as Es1 by (intros h2; unfold s1; by rewrite Es).
  pose proof (heap_le_trans _ _ _ Hh1 Hle) as Hle2. destruct Hr as [->|(b & -> & Hb & Htab)].
  { split_and!; [done|done|]. left. split; [done|]. exists h1, ts. split_and!; [done|lia|lia|done]. }
  split_and!; [done|done|]. right. split; [done|]. fold t in Htab. set (e0 := gc_entry _ _ _ _ _) in Htab.
  assert (slot_of src (be_source_pba e0) = j) as Ej by (apply slot_of_append; [by apply (zone_u32 _ _ (zk_layout _ Hz))|change TOTAL_ITEMS with 65536; lia]).
  assert (lenZ (t ++ [e0]) = lenZ t + 1) as El by (by rewrite lenZ_app).
  split; cbn [zp_builder live_entry zp_source_zone zp_dest_zone0 zp_live_entries]; rewrite ?Htab, ?El; try done.
  - exists h1. split; [done|]. rewrite Es1. unfold ts. by rewrite Z.add_assoc.
  - rewrite S5. apply u32_small. lia.
  - apply Forall_app. split; [done|]. apply Forall_singleton. split_and!; [done|by rewrite Ej|by rewrite Ej, Ek].
  - rewrite map_app, S7, (Hfilter true Hl). cbn [map]. by rewrite Ej.
  - rewrite map_app, S8, zrange_S, map_app by lia. done.
  - rewrite map_app, S9, zrange_S, map_app by lia. f_equal. cbn [map]. f_equal. change (ts = t0 + 1 + lenZ t). unfold ts. lia.
Qed.

(** Whatever happens, only the timestamp and the heap changed. *)
Lemma plan_slots_spec : forall count j p s,
  scanned j p s -> 0 <= j -> j + Z.of_nat count <= ly_size L src -> t0 + ly_size L src + 1 < 2 ^ 32 ->
  let '(s', p', ret) := plan_slots count j p s in
  zp_bdev p' = zp_bdev p /\ zp_bdev_start p' = zp_bdev_start p /\
  ((ret = - ENOMEM /\ exists h t, heap_le (hp s0) h /\ t0 <= t <= t0 + ly_size L src /\ s' = set_hp h (upd_meta (set_timestamp t) s0)) \/
   (ret = 0 /\ scanned (j + Z.of_nat count) p' s')).
Proof.
  induction count as [|count IH]; intros j p s Hsc Hj Hc Hts; cbn [plan_slots].
  { rewrite Z.add_0_r. split_and!; [done|done|by right]. }
  pose proof (plan_slot_spec j p s Hsc ltac:(lia) Hts) as Hp. destruct (plan_slot j p s) as [[s1 p1] ret]. destruct Hp as (E1 & E2 & Hp).
  destruct Hp as [(-> & h & t & Hh & Ht & ->)|(-> & Hsc1)].
  - change (negb (- ENOMEM =? 0)) with true. split_and!; [done|done|]. left. split; [done|]. exists h, t. split_and!; [done|lia|lia|done].
  - change (negb (0 =? 0)) with false. cbv iota. specialize (IH (j + 1) p1 s1 Hsc1 ltac:(lia) ltac:(lia) Hts).
    destruct (plan_slots count (j + 1) p1 s1) as [[s2 p2] ret2]. rewrite E1, E2 in IH. replace (j + Z.of_nat (S count)) with (j + 1 + Z.of_nat count) by lia. done.
Qed.
End scan.

(** ** Sorting *)

Lemma insert_entry_perm e t : insert_entry e t ≡ₚ e :: t.
Proof.
  induction t as [|x t IH]; [done|]. cbn. destruct (_ <=? 0); [done|]. rewrite IH. by apply Permutation_swap.
Qed.
Lemma sort_entries_perm t : sort_entries t ≡ₚ t.
Proof. induction t as [|e t IH]; [done|]. cbn. by rewrite insert_entry_perm, IH. Qed.

Definition tbl_ordered : list block_entry -> Prop := StronglySorted (fun a b => be_key a <= be_key b).
Lemma insert_entry_ordered e t : tbl_ordered t -> tbl_ordered (insert_entry e t).
Proof.
  induction 1 as [|x t Hs IH Hx]; cbn; [repeat constructor|]. unfold imr_lsm_block_entry_key_compare.
  assert (Forall (fun b => be_key e <= be_key b) (x :: t) \/ be_key x < be_key e) as [Hle|Hlt].
  { destruct (decide (be_key e <= be_key x)); [left|right; lia]. constructor; [done|]. eapply Forall_impl; [exact Hx|]. cbn. lia. }
  - assert (be_key e <= be_key x) by (by inversion Hle). replace (_ <=? 0) with true by (symmetry; apply Z.leb_le; repeat case_match; lia).
    constructor; [by constructor|done].
  - replace (_ <=? 0) with false by (symmetry; apply Z.leb_gt; repeat case_match; lia). constructor; [done|].
    rewrite insert_entry_perm. constructor; [lia|done].
Qed.
Lemma sort_entries_ordered t : tbl_ordered (sort_entries t).
Proof. induction t as [|e t IH]; [constructor|]. by apply insert_entry_ordered. Qed.

Lemma ordered_sorted t : tbl_ordered t -> NoDup (map be_key t) -> tbl_sorted t.
Proof.
  induction 1 as [|x t Hs IH Hx]; [constructor|]. cbn. intros [Hni Hnd]%NoDup_cons. constructor; [by apply IH|].
  apply Forall_forall. intros y Hy. rewrite Forall_forall in Hx. specialize (Hx y Hy). cbn in Hx. assert (be_key x <> be_key y); [|lia].
  intros E. apply Hni. rewrite E. apply list_elem_of_fmap. by exists y.
Qed.

(** The table of a prepared plan; a table of at most one entry is not sorted. *)
Lemma sorted_table t :
  let t' := if lenZ t >? 1 then sort_entries t else t in t' ≡ₚ t /\ (NoDup (map be_key t) -> tbl_sorted t').
Proof.
  cbv zeta. destruct (lenZ t >? 1) eqn:E.
  - split; [apply sort_entries_perm|]. intros Hnd. apply ordered_sorted; [apply sort_entries_ordered|]. by rewrite sort_entries_perm.
  - split; [done|]. intros _. destruct t as [|x [|y t]]; [constructor|repeat constructor|]. rewrite !lenZ_cons in E. pose proof (lenZ_nonneg t). lia.
Qed.

(** ** Time *)

Lemma lsm_ok_later H lv gs now now' : now <= now' < 2 ^ 32 -> lsm_ok H lv gs now -> lsm_ok H lv gs now'.
Proof.
  intros Hn [K1 K2 K3 K4 K5 K6 K7 K8 K9 K10 K11]. split; try done; [lia|]. intros k r Hr. specialize (K4 k r Hr). lia.
Qed.
Lemma inv_later H s t h : lsm_inv H s -> timestamp (meta s) <= t < 2 ^ 32 -> heap_le (hp s) h ->
  lsm_inv H (set_hp h (upd_meta (set_timestamp t) s)).
Proof.
  intros [I1 I2 I3 I4 I5] Ht Hh. split; [done| | | |].
  - cbn. by eapply lsm_ok_later.
  - cbn. by eapply addr_ok_mono.
  - eapply same_rt_wf; [|exact I4]. done.
  - exact I5.
Qed.
Lemma inv_time_pos H s : lsm_inv H s -> 0 <= timestamp (meta s) < 2 ^ 32.
Proof. intros Hi. pose proof (ok_total _ _ _ _ (inv_ok _ _ Hi)). pose proof (total_nonneg (levels (meta s))). lia. Qed.

(** ** The plan *)

(** What a plan says about the state it was made for, and about every state the
    foreground reaches from it. *)
Record planned (H : newest_map) (p : zone_plan) (s : kstate) : Prop := {
  pd_moves : moves_ok (IMR_NUMZONES s) (layout_of s) (zp_source_zone p) (zp_dest_zone0 p)
    (map (move_of (zp_source_zone p) (zp_dest_zone0 p)) (sb_table (zp_builder p)));
  pd_entries : forall e, e ∈ sb_table (zp_builder p) -> be_valid e = true /\
    be_source_pba e = imr_lsm_zone_append_pba (zp_source_zone p) (slot_of (zp_source_zone p) (be_source_pba e)) /\
    be_pba e = imr_lsm_zone_append_pba (zp_dest_zone0 p) (slot_of (zp_dest_zone0 p) (be_pba e));
  pd_builder : sb_ok (zp_builder p);
  pd_mixed : sb_table (zp_builder p) <> [] -> sb_zone_idx (zp_builder p) = IMR_LSM_SEGMENT_ZONE_MIXED;
  pd_count : zp_live_entries p = lenZ (sb_table (zp_builder p));
  pd_bdev : zp_bdev p = output_bdev s /\ is_Some (zp_bdev p) /\ zp_bdev_start p = output_bdev_start s;
  pd_time : forall e, e ∈ sb_table (zp_builder p) -> 1 <= be_timestamp e <= timestamp (meta s);
  pd_newest : forall e r, e ∈ sb_table (zp_builder p) -> H (be_key e) = Some r ->
    if bool_decide (fwd s (be_key e) = Some (be_source_pba e)) then r_ts r < be_timestamp e else be_timestamp e < r_ts r;
  pd_keys : forall e, e ∈ sb_table (zp_builder p) -> 0 <= be_key e < total_keys s;
  pd_stale : forall e, e ∈ sb_table (zp_builder p) -> fwd s (be_key e) <> Some (be_source_pba e) -> is_Some (H (be_key e));
}.

(** A finished scan is a set of moves. *)
Lemma elem_map {A B} (f : A -> B) l x : x ∈ l -> f x ∈ map f l.
Proof. intros Hx. apply list_elem_of_fmap. by exists x. Qed.

Lemma scanned_moves s src dst p s' :
  zones_ok s -> 0 <= src < IMR_NUMZONES s -> 0 <= dst < IMR_NUMZONES s -> src <> dst -> ly_size (layout_of s) dst = 0 ->
  scanned s src dst (ly_size (layout_of s) src) p s' ->
  moves_ok (IMR_NUMZONES s) (layout_of s) src dst (map (move_of src dst) (sb_table (zp_builder p))) /\
  lenZ (sb_table (zp_builder p)) = ly_live (layout_of s) src.
Proof.
  intros Hz Hs Hd Hne Hempty [S1 S2 S3 S4 S5 S6 S7 S8 S9]. set (t := sb_table (zp_builder p)) in *.
  pose proof (zk_layout _ Hz) as Hok. pose proof (lo_size _ _ Hok src Hs) as Hsz.
  assert (lenZ t = ly_live (layout_of s) src) as Hlen.
  { rewrite (lo_live _ _ Hok src Hs). unfold count. rewrite <- S7. unfold lenZ. by rewrite length_map. }
  split; [|done]. pose proof (live_range _ _ Hok src Hs) as Hlr.
  set (slots := List.filter _ _) in S7. assert (forall j, j ∈ slots <-> 0 <= j < ly_size (layout_of s) src /\ live_at (layout_of s) src j = true) as Hslots.
  { intros j. unfold slots. by rewrite list_elem_of_In, filter_In, <- list_elem_of_In, elem_of_zrange. }
  assert (forall A (f : block_entry -> A), lenZ (map f t) = lenZ t) as Hml by (intros; unfold lenZ; by rewrite length_map).
  assert (forall e, e ∈ t -> slot_of src (be_source_pba e) ∈ slots) as Hin.
  { intros e He. rewrite <- S7. exact (elem_map (fun e => slot_of src (be_source_pba e)) t e He). }
  rewrite Forall_forall in S6. split; try done.
  - intros m (e & -> & He)%list_elem_of_fmap. cbn. split; [by apply Hslots, Hin|]. symmetry. by apply S6.
  - rewrite Hml, map_map. assert (map (fun e => mv_to (move_of src dst e)) t = map (slot_of dst) (map be_pba t)) as -> by (by rewrite map_map).
    rewrite S8, map_map. rewrite (map_ext_in _ id); [by rewrite map_id|]. intros j Hj%list_elem_of_In%elem_of_zrange.
    change (id j) with j. apply slot_of_append; [by apply (zone_u32 _ _ Hok)|]. change TOTAL_ITEMS with 65536 in *. lia.
  - rewrite Hml. lia.
  - rewrite map_map. assert (map (fun e => mv_key (move_of src dst e)) t = map (ly_key (layout_of s) src) slots) as ->.
    { rewrite <- S7, map_map. apply map_ext_in. intros e He%list_elem_of_In. by apply S6. }
    apply (NoDup_fmap_2_strong _ slots).
    + intros j j' [Hj Hl]%Hslots [Hj' Hl']%Hslots E. by destruct (live_unique _ _ Hok src j src j' Hs Hj Hs Hj' Hl Hl' E).
    + apply NoDup_ListNoDup, List.NoDup_filter, NoDup_ListNoDup, NoDup_zrange.
  - intros j Hj Hl. assert (j ∈ slots) as Hsl by (by apply Hslots). rewrite <- S7 in Hsl.
    apply list_elem_of_fmap in Hsl as (e & -> & He). exists (move_of src dst e). split; [by apply elem_map|done].
Qed.

(** A permutation of the moves is as good. *)
Lemma moves_perm N L src dst T T' : T' ≡ₚ T -> moves_ok N L src dst T -> moves_ok N L src dst T'.
Proof.
  intros HP [M1 M2 M3 M4 M5 M6 M7 M8 M9]. assert (lenZ T' = lenZ T) as El by (unfold lenZ; by rewrite HP).
  split; try done; [by intros m Hm; apply M5; rewrite <- HP|by rewrite El, HP|lia|by rewrite HP|].
  intros j Hj Hl. destruct (M9 j Hj Hl) as (m & Hm & <-). exists m. by rewrite HP.
Qed.

Lemma perm_builder b : raw_builder b -> NoDup (map be_key (sb_table b)) ->
  let b' := if lenZ (sb_table b) >? 1 then set_table (sort_entries (sb_table b)) (sb_capacity b) b else b in
  sb_ok b' /\ sb_table b' ≡ₚ sb_table b /\ sb_zone_idx b' = sb_zone_idx b.
Proof.
  intros [R1 R2 R3 _] Hnd. pose proof (sorted_table (sb_table b)) as [HP Hs]. specialize (Hs Hnd). cbv zeta in *.
  pose proof (lenZ_nonneg (sb_table b)). destruct (lenZ (sb_table b) >? 1) eqn:E; cbn [set_table sb_table sb_zone_idx]; (split; [|done]).
  - assert (lenZ (sort_entries (sb_table b)) = lenZ (sb_table b)) as El by (unfold lenZ; by rewrite HP).
    split; cbn [sb_table set_table sb_node_count sb_capacity]; [split; cbn; [done|lia|]|lia|lia|lia]. intros e He. apply R3. by rewrite <- HP.
  - split; [by split|lia| |lia]. rewrite R2. intros E0. destruct (sb_table b) as [|x l]; [done|]. rewrite lenZ_cons in *. pose proof (lenZ_nonneg l). lia.
Qed.

(** ** Preparation *)

Lemma plan_dest_spec src s : zones_ok s ->
  let '(s', dst) := plan_dest src s in
  quiet s s' /\ (dst <> IMR_LSM_ZONE_COMPACTION_NONE -> imr_lsm_zone_is_free_locked dst s = true).
Proof.
  intros Hz. unfold plan_dest. destruct (_ && _) eqn:E.
  - split; [reflexivity|]. intros _. by apply andb_true_iff in E as [_ ?].
  - pose proof (quiet_find_free src s) as Hq. pose proof (find_free_spec src s) as Hf. destruct (imr_lsm_find_free_zone_locked src s) as [s' dst].
    split; [done|]. intros Hd. by destruct (Hf dst Hz eq_refl Hd) as (_ & _ & ?).
Qed.

(** A finished scan with its table sorted is a plan. *)
Lemma scanned_planned H s0 src dst p s bd :
  zones_ok s0 -> lsm_inv H s0 -> timestamp (meta s0) + TOTAL_ITEMS + 1 < 2 ^ 32 ->
  0 <= src < IMR_NUMZONES s0 -> 0 <= dst < IMR_NUMZONES s0 -> src <> dst -> ly_size (layout_of s0) dst = 0 ->
  scanned s0 src dst (ly_size (layout_of s0) src) p s -> zp_bdev p = Some bd -> output_bdev s0 = Some bd -> zp_bdev_start p = output_bdev_start s0 ->
  let b := zp_builder p in
  planned H (if lenZ (sb_table b) >? 1 then set_zp_builder (set_table (sort_entries (sb_table b)) (sb_capacity b) b) p else p) s.
Proof.
  intros Hz Hi Hts Hs Hd Hne Hempty Hsc Eb Eo Est. cbv zeta. destruct (scanned_moves _ _ _ _ _ Hz Hs Hd Hne Hempty Hsc) as [HM Hlen].
  destruct Hsc as [(h & Hh & Es) S2 S3 S4 S5 S6 S7 S8 S9]. set (t := sb_table (zp_builder p)) in *.
  set (p' := if lenZ t >? 1 then set_zp_builder (set_table (sort_entries t) (sb_capacity (zp_builder p)) (zp_builder p)) p else p).
  assert (NoDup (map be_key t)) as Hnd by (pose proof (mo_keys _ _ _ _ _ HM) as Hk; by rewrite map_map in Hk).
  pose proof (perm_builder (zp_builder p) S2 Hnd) as (Hsb & HP & Hmix). cbv zeta in Hsb, HP, Hmix. fold t in Hsb, HP, Hmix.
  assert (zp_builder p' = if lenZ t >? 1 then set_table (sort_entries t) (sb_capacity (zp_builder p)) (zp_builder p) else zp_builder p) as Epb by (unfold p'; by destruct (_ >? _)).
  rewrite <- Epb in Hsb, HP, Hmix. assert (zp_source_zone p' = src /\ zp_dest_zone0 p' = dst /\ zp_live_entries p' = lenZ t /\ zp_bdev p' = Some bd /\ zp_bdev_start p' = output_bdev_start s0) as (E1 & E2 & E3 & E4 & E5).
  { unfold p'. destruct (_ >? _); cbn; by rewrite S3, S4, S5, Eb, Est. }
  assert (zhalf s = zhalf s0) as Ezh by (by rewrite Es). assert (timestamp (meta s) = timestamp (meta s0) + lenZ t) as Et by (by rewrite Es).
  assert (layout_of s = layout_of s0) as El by (by rewrite Es). clearbody p'. rewrite Forall_forall in S6.
  assert (forall e, e ∈ t -> timestamp (meta s0) < be_timestamp e <= timestamp (meta s)) as Htime.
  { intros e He. pose proof (elem_map be_timestamp t e He) as Hx. rewrite S9 in Hx. apply list_elem_of_fmap in Hx as (x & -> & Hx%elem_of_zrange). lia. }
  assert (forall e, e ∈ t -> fwd s (be_key e) = Some (be_source_pba e)) as Hfwd.
  { intros e He. destruct (S6 e He) as (_ & Ep & ->). change (fwd s) with (ly_fwd (layout_of s)). rewrite El.
    pose proof (elem_map (fun e => slot_of src (be_source_pba e)) t e He) as Hj. rewrite S7 in Hj.
    apply list_elem_of_In, filter_In in Hj as [_ Hj%live_at_fwd]. by rewrite Hj, <- Ep. }
  split; rewrite ?E1, ?E2.
  - rewrite (num_zhalf _ _ Ezh), El. eapply moves_perm; [|exact HM]. by apply Permutation_map.
  - intros e He. rewrite HP in He. destruct (S6 e He) as (? & ? & _). split_and!; [done|done|].
    pose proof (elem_map be_pba t e He) as Hx. rewrite S8 in Hx. apply list_elem_of_fmap in Hx as (x & -> & Hx%elem_of_zrange).
    pose proof (live_range _ _ (zk_layout _ Hz) src Hs). pose proof (lo_size _ _ (zk_layout _ Hz) src Hs). change TOTAL_ITEMS with 65536 in *.
    rewrite slot_of_append; [done|by apply (zone_u32 _ _ (zk_layout _ Hz))|change TOTAL_ITEMS with 65536; lia].
  - done.
  - intros Hne'. rewrite Hmix. apply (rb_mixed _ S2). intros E. fold t in E. apply Hne'. apply Permutation_nil_r. by rewrite HP, E.
  - rewrite E3. unfold lenZ. by rewrite HP.
  - rewrite E4, E5. rewrite Es. split_and!; [by symmetry|by eexists|done].
  - intros e He. rewrite HP in He. pose proof (Htime e He). pose proof (inv_time_pos _ _ Hi). lia.
  - intros e r He Hr. rewrite HP in He. rewrite (Hfwd e He), bool_decide_true by done. pose proof (ok_now _ _ _ _ (inv_ok _ _ Hi) _ _ Hr). pose proof (Htime e He). lia.
  - intros e He. rewrite HP in He. specialize (Hfwd e He). destruct (decide (0 <= be_key e < total_keys s)) as [|Hout]; [done|].
    rewrite fwd_outside in Hfwd by done. done.
  - intros e He Hn. rewrite HP in He. by specialize (Hfwd e He).
Qed.

Lemma collect_prepare_spec H src s :
  zones_ok s -> lsm_inv H s -> 1 <= imr_lsm_compaction_threshold_locked s <= U32_MAX -> timestamp (meta s) + TOTAL_ITEMS + 1 < 2 ^ 32 ->
  let '(s', p, ret) := imr_lsm_prepare_zone_compaction_locked src s in
  zhalf s' = zhalf s /\ lsm_inv H s' /\ timestamp (meta s) <= timestamp (meta s') <= timestamp (meta s) + TOTAL_ITEMS /\
  ret ∈ [0; - EINVAL; - ENOSPC; - ENODEV; - ENOMEM] /\
  (ret = 0 -> planned H p s' /\ zp_source_zone p = src /\ src <> active_zone (alloc s) /\ zp_dest_zone0 p <> active_zone (alloc s)).
Proof.
  intros Hz Hi Hth Hts. unfold imr_lsm_prepare_zone_compaction_locked. cbv zeta.
  assert (forall s' p ret, quiet s s' -> ret ∈ [- EINVAL; - ENOSPC; - ENODEV; - ENOMEM] ->
    zhalf s' = zhalf s /\ lsm_inv H s' /\ timestamp (meta s) <= timestamp (meta s') <= timestamp (meta s) + TOTAL_ITEMS /\
    ret ∈ [0; - EINVAL; - ENOSPC; - ENODEV; - ENOMEM] /\
    (ret = 0 -> planned H p s' /\ zp_source_zone p = src /\ src <> active_zone (alloc s) /\ zp_dest_zone0 p <> active_zone (alloc s))) as Herr.
  { intros s' p ret [Q1 Q2] Hr. rewrite (half_timestamp _ _ Q1). change TOTAL_ITEMS with 65536. split_and!; [done|by eapply half_inv|lia|lia|by right|].
    intros ->. by repeat (apply elem_of_cons in Hr as [Hr|Hr]; [done|]); apply elem_of_nil in Hr. }
  assert (- EINVAL ∈ [- EINVAL; - ENOSPC; - ENODEV; - ENOMEM]) as HEI by (by left).
  destruct (zone src s) as [z|] eqn:Ez; [|by apply Herr]. pose proof (zone_in _ _ _ (zones_shape _ Hz) Ez) as Hs.
  destruct (_ >=? _); [by apply Herr|]. destruct (_ || _) eqn:Eg; [by apply Herr|].
  assert (src <> active_zone (alloc s) /\ z_map_size z <> 0) as [Hact Hms] by (split; [intros E; rewrite E, Z.eqb_refl in Eg; done|lia]).
  pose proof (plan_dest_spec src s Hz) as Hpd. destruct (plan_dest src s) as [s1 dst]. destruct Hpd as [Hq Hfree].
  destruct (dst =? IMR_LSM_ZONE_COMPACTION_NONE) eqn:En; [by apply Herr; [done|right; by left]|].
  assert (dst <> IMR_LSM_ZONE_COMPACTION_NONE) as Hd%Hfree by lia. clear En.
  change (u32 _ >? PAGE_SIZE) with false. cbv iota. destruct (output_bdev s1) as [bd|] eqn:Eb; [|by apply Herr; [done|right; right; by left]].
  assert (0 <= dst) as Hd0.
  { unfold imr_lsm_zone_is_free_locked in Hd. destruct (zone dst s) eqn:Ed; [|by repeat case_match]. pose proof (zone_in _ _ _ (zones_shape _ Hz) Ed). lia. }
  destruct (is_free_spec dst s Hz Hd0 Hd) as (HdN & HdA & _ & _ & zd & Ezd & Hzd & _).
  assert (zones_ok s1) as Hz1 by (apply (zones_ok_zhalf s); [apply Hq|done]). assert (lsm_inv H s1) as Hi1 by (eapply half_inv; [apply Hq|done]).
  pose proof (half_timestamp _ _ (q_lsm _ _ Hq)) as Et1. pose proof (q_zone _ _ Hq) as Eq1.
  assert (zone src s1 = Some z) as Ez1 by (by rewrite (zone_zhalf _ _ _ Eq1)). assert (zone dst s1 = Some zd) as Ezd1 by (by rewrite (zone_zhalf _ _ _ Eq1)).
  assert (ly_size (layout_of s1) src = z_map_size z) as Esz by (cbn; by rewrite Ez1). assert (ly_size (layout_of s1) dst = 0) as Esd by (cbn; by rewrite Ezd1).
  pose proof (num_zhalf _ _ Eq1) as En1. assert (src <> dst) as Hne by congruence.
  assert (0 <= src < IMR_NUMZONES s1) as Hs1 by lia. assert (0 <= dst < IMR_NUMZONES s1) as Hd1 by lia.
  pose proof (lo_size _ _ (zk_layout _ Hz1) src Hs1) as Hsz.
  set (p0 := set_zp_bdev (Some bd) (output_bdev_start s1) _). change (zp_input_entries p0) with (z_map_size z).
  assert (scanned s1 src dst 0 p0 s1) as Hsc0.
  { split; try done. - exists (hp s1). split; [apply heap_le_refl|]. cbn. change (lenZ []) with 0. rewrite Z.add_0_r. by destruct s1 as [[]].
    - split; cbn; [change (lenZ []) with 0; unfold U32_MAX; lia|done|by intros e ?%elem_of_nil|done]. }
  assert (0 + Z.of_nat (Z.to_nat (z_map_size z)) = ly_size (layout_of s1) src) as Hall by (rewrite Esz; rewrite Esz in Hsz; lia).
  assert (timestamp (meta s1) + ly_size (layout_of s1) src + 1 < 2 ^ 32) as Hts1 by (rewrite Et1; lia).
  pose proof (plan_slots_spec s1 src dst Hz1 Hs1 ltac:(by rewrite (threshold_cfg s) by exact (f_equal zh_cfg Eq1)) (proj1 (inv_time_pos _ _ Hi1))
    (Z.to_nat (z_map_size z)) 0 p0 s1 Hsc0 ltac:(lia) ltac:(rewrite Hall; lia) Hts1) as Hps. rewrite Hall in Hps.
  destruct (plan_slots _ 0 p0 s1) as [[s2 p2] ret]. destruct Hps as (E1 & E2 & Hps).
  assert (forall h t, zhalf (set_hp h (upd_meta (set_timestamp t) s1)) = zhalf s) as Ezh by (intros; by rewrite <- Eq1).
  destruct Hps as [(-> & h & t & Hh & Ht & ->)|(-> & Hsc)]; cbn [negb Z.eqb].
  { change (negb (- ENOMEM =? 0)) with true. cbv iota. split_and!; [apply Ezh| |cbn; lia|cbn; lia|do 4 right; by left|done]. apply inv_later; [done|lia|done]. }
  assert (exists h, heap_le (hp s1) h /\ s2 = set_hp h (upd_meta (set_timestamp (timestamp (meta s1) + lenZ (sb_table (zp_builder p2)))) s1)) as (h & Hh & Es2) by exact (sc_state _ _ _ _ _ _ Hsc).
  destruct (scanned_moves s1 src dst p2 s2 Hz1 Hs1 Hd1 Hne Esd Hsc) as [_ Hlen]. pose proof (live_range _ _ (zk_layout _ Hz1) src Hs1) as Hlr.
  assert (zone src s2 = Some z) as Ez2 by (rewrite Es2; exact Ez1). rewrite Ez2.
  assert (zp_live_entries p2 = z_live_count z) as Elive by (rewrite (sc_count _ _ _ _ _ _ Hsc), Hlen; cbn; by rewrite Ez1).
  rewrite Elive, Z.eqb_refl. cbv iota. cbn [negb].
  pose proof (scanned_planned H s1 src dst p2 s2 bd Hz1 Hi1 ltac:(rewrite Et1; lia) Hs1 Hd1 Hne Esd Hsc E1 Eb E2) as Hpl. cbv zeta in Hpl.
  split_and!; [by rewrite Es2| | | |by left|intros _; split_and!; [exact Hpl| |done|]].
  - rewrite Es2. apply inv_later; [done| |done]. lia.
  - rewrite Es2. cbn. pose proof (lenZ_nonneg (sb_table (zp_builder p2))). lia.
  - rewrite Es2. cbn. lia.
  - destruct (_ >? _); cbn; apply (sc_source _ _ _ _ _ _ Hsc).
  - assert (zp_dest_zone0 p2 = dst) as Ed by apply (sc_dest _ _ _ _ _ _ Hsc). destruct (_ >? _); cbn; by rewrite Ed.
Qed.
