(* ===== verification/ImrGcSpec.v ===== *)
(** The publication of a zone collection: foreground operations keep the plan
    meaningful, and publishing it moves exactly the blocks that still belong to
    the source, leaving every logical block where the forward map finds it. *)

From S2P Require Import Prelude StdMap ImrPrelude ImrGeometry ImrBloom ImrState ImrReadTree ImrLevels ImrSegment ImrPlacement ImrAccounting ImrCore ImrLsm ImrLsmInv ImrLsmOps ImrCompaction ImrBuild ImrPlan ImrPublish ImrPhases ImrSystem ImrZones ImrGc ImrIo ImrLayout ImrZoneFrame ImrZoneInv ImrZoneOps ImrGcPlan.

(** ** The plan under foreground operations *)

Lemma moves_stable N L L' src dst T :
  moves_ok N L src dst T -> ly_size L' src = ly_size L src -> ly_size L' dst = 0 ->
  (forall j, 0 <= j < ly_size L src -> ly_key L' src j = ly_key L src j) ->
  (forall j, 0 <= j < ly_size L src -> live_at L' src j = true -> live_at L src j = true) -> moves_ok N L' src dst T.
Proof.
  intros [M1 M2 M3 M4 M5 M6 M7 M8 M9] Es Ed Ek El. split; try done.
  - intros m Hm. destruct (M5 m Hm) as [Hr Hk]. by rewrite Es, Ek.
  - intros j Hj Hl. rewrite Es in Hj. apply M9; [done|]. by apply El.
Qed.

Abbreviation plan_moves p := (map (move_of (zp_source_zone p) (zp_dest_zone0 p)) (sb_table (zp_builder p))).

Lemma planned_entry H p s e : planned H p s -> e ∈ sb_table (zp_builder p) ->
  move_of (zp_source_zone p) (zp_dest_zone0 p) e ∈ plan_moves p /\
  0 <= slot_of (zp_source_zone p) (be_source_pba e) < ly_size (layout_of s) (zp_source_zone p) /\
  be_source_pba e = imr_lsm_zone_append_pba (zp_source_zone p) (slot_of (zp_source_zone p) (be_source_pba e)) /\
  be_key e = ly_key (layout_of s) (zp_source_zone p) (slot_of (zp_source_zone p) (be_source_pba e)).
Proof.
  intros Hp He. assert (move_of (zp_source_zone p) (zp_dest_zone0 p) e ∈ plan_moves p) as Hm by (by apply elem_map).
  destruct (mo_from _ _ _ _ _ (pd_moves _ _ _ Hp) _ Hm) as [Hr Hk]. destruct (pd_entries _ _ _ Hp e He) as (_ & ? & _). split; [done|]. split; [exact Hr|]. split; [done|]. by symmetry.
Qed.

(** Another place for [k]; the two zones of the plan are left alone. *)
Lemma planned_step H p s s' k r :
  planned H p s -> env_same s s' -> timestamp (meta s) <= timestamp (meta s') -> timestamp (meta s) < r_ts r ->
  (forall k', k' <> k -> fwd s' k' = fwd s k') ->
  (forall j, 0 <= j < ly_size (layout_of s) (zp_source_zone p) -> fwd s' k <> Some (imr_lsm_zone_append_pba (zp_source_zone p) j)) ->
  (forall z, z = zp_source_zone p \/ z = zp_dest_zone0 p -> ly_size (layout_of s') z = ly_size (layout_of s) z /\
    forall j, 0 <= j < ly_size (layout_of s) z -> ly_key (layout_of s') z j = ly_key (layout_of s) z j) ->
  planned (record H k r) p s'.
Proof.
  intros Hp He Ht Hr Hf Hk Hsz. destruct (Hsz _ (or_introl eq_refl)) as [Es1 Ek1]. destruct (Hsz _ (or_intror eq_refl)) as [Es2 _].
  assert (forall e, e ∈ sb_table (zp_builder p) -> be_key e = k -> fwd s' (be_key e) <> Some (be_source_pba e)) as Hmoved.
  { intros e Hin <-. destruct (planned_entry _ _ _ _ Hp Hin) as (_ & Hrange & -> & _). by apply Hk. }
  pose proof Hp as [P1 P2 P3 PM P4 P5 P6 P7 PK P8]. split; try done.
  - rewrite (es_num _ _ He). eapply moves_stable; [exact P1|done| |done|].
    + rewrite Es2. apply P1.
    + intros j Hj Hl%live_at_fwd. apply live_at_fwd. rewrite Ek1 in Hl by done. change (fwd s' (ly_key (layout_of s) (zp_source_zone p) j) = Some (imr_lsm_zone_append_pba (zp_source_zone p) j)) in Hl.
      destruct (decide (ly_key (layout_of s) (zp_source_zone p) j = k)) as [E|E]; [rewrite E in Hl; by apply Hk in Hl|]. by rewrite Hf in Hl.
  - pose proof (es_target _ _ He) as Et. cbn in Et. injection Et as -> -> _ _. done.
  - intros e Hin. specialize (P6 e Hin). lia.
  - intros e r0 Hin. unfold record. destruct (decide (be_key e = k)) as [E|E].
    + intros [= <-]. rewrite bool_decide_false by (by apply Hmoved). specialize (P6 e Hin). lia.
    + rewrite Hf by done. by apply P7.
  - intros e Hin. unfold total_keys. rewrite (es_num _ _ He). by apply PK.
  - intros e Hin. unfold record. destruct (decide (be_key e = k)) as [E|E]; [by eexists|]. rewrite Hf by done. by apply P8.
Qed.

(** The same layout. *)
Lemma planned_same H p s s' :
  planned H p s -> env_same s s' -> timestamp (meta s) <= timestamp (meta s') ->
  layout_eq (IMR_NUMZONES s) (layout_of s) (layout_of s') -> planned H p s'.
Proof.
  intros Hp He Ht Hl. pose proof Hp as [P1 P2 P3 PM P4 P5 P6 P7 PK P8]. pose proof (le_fwd _ _ _ Hl) as Hf. cbn in Hf. split; try done.
  - rewrite (es_num _ _ He). eapply moves_stable; [exact P1|by apply (le_size _ _ _ Hl), P1| | |].
    + rewrite (le_size _ _ _ Hl) by apply P1. apply P1.
    + intros j Hj. apply (le_key _ _ _ Hl); [apply P1|done].
    + intros j Hj Hlive%live_at_fwd. apply live_at_fwd. rewrite (le_key _ _ _ Hl) in Hlive by (done || apply P1). by rewrite (le_fwd _ _ _ Hl) in Hlive.
  - pose proof (es_target _ _ He) as Et. cbn in Et. injection Et as -> -> _ _. done.
  - intros e Hin. specialize (P6 e Hin). lia.
  - intros e r. rewrite Hf. by apply P7.
  - intros e Hin. unfold total_keys. rewrite (es_num _ _ He). by apply PK.
  - intros e. rewrite Hf. by apply P8.
Qed.

(** ** The published table

    The loop of the publication reads the entries back from the segment, and its
    own updates of the newest-key index flag entries of that segment. *)

Definition tables (s : kstate) : list (list block_entry) := map (fun g => map clear_entry_acct (sg_table g)) (segments (meta s)).

Create Rewrite HintDb tables.
Lemma tables_st_set f v s : tables (st_set f v s) = tables s.
Proof. reflexivity. Qed.
Lemma tables_st_inc f s : tables (st_inc f s) = tables s.
Proof. reflexivity. Qed.
Lemma tables_upd_newest k f s : tables (upd_newest k f s) = tables s.
Proof. reflexivity. Qed.
#[export] Hint Rewrite tables_st_set tables_st_inc tables_upd_newest : tables.
Lemma tables_upd_seg i f s : (forall g, sg_table (f g) = sg_table g) -> tables (upd_seg i f s) = tables s.
Proof. intros H. unfold tables, upd_seg. cbn. apply map_alter_core. intros g. by rewrite H. Qed.
Lemma tables_upd_entry r f s : (forall e, clear_entry_acct (f e) = clear_entry_acct e) -> tables (upd_entry r f s) = tables s.
Proof. intros H. unfold tables, upd_entry, upd_seg. cbn. apply map_alter_core. intros g. cbn. by apply map_alter_core. Qed.
Lemma tables_upd_acct i f s : tables (upd_acct i f s) = tables s.
Proof. by apply tables_upd_seg. Qed.
#[export] Hint Rewrite tables_upd_acct : tables.
#[export] Hint Rewrite tables_upd_seg tables_upd_entry using (by intros) : tables.

Ltac tables_solve :=
  repeat first
    [ progress autorewrite with tables
    | match goal with
      | |- context [if ?b then _ else _] => destruct b
      | |- context [match ?x with _ => _ end] => destruct x
      end ]; try done.

Lemma tables_detach o r s : tables (imr_lsm_detach_live_segment_entry_locked o r s) = tables s.
Proof. unfold imr_lsm_detach_live_segment_entry_locked. tables_solve. Qed.
#[export] Hint Rewrite tables_detach : tables.
Lemma tables_mark_invalid o r ob nv s : tables (imr_lsm_mark_segment_entry_invalid_locked o r ob nv s) = tables s.
Proof.
  unfold imr_lsm_mark_segment_entry_invalid_locked, note_max_ratio, imr_lsm_refresh_segment_invalid_ratio_locked. cbv zeta. tables_solve.
Qed.
Lemma tables_supersede fuel : forall key nv s, tables (supersede_loop fuel key nv s) = tables s.
Proof.
  induction fuel as [|fuel IH]; intros key nv s; cbn; [done|].
  destruct (m_find key (newest_tree (meta s))) as [n|]; [|done]. destruct (nn_live n); [done|]. rewrite IH. apply tables_mark_invalid.
Qed.
Lemma tables_newest_update key ts v s : tables (imr_lsm_newest_index_update_locked key ts v s).1 = tables s.
Proof.
  unfold imr_lsm_newest_index_update_locked. destruct (m_find _ _) as [n|].
  - destruct (ts >=? nn_timestamp n); [|done]. cbn [fst]. rewrite tables_upd_newest. destruct (_ && _); [|done].
    unfold imr_lsm_incremental_supersede_locked. destruct (m_find _ _); [apply tables_supersede|done].
  - destruct (st_alloc s) as [s1 [a|]] eqn:E; cbn [fst]; unfold st_alloc in E; destruct (kzalloc (hp s)); injection E as <- _; done.
Qed.
Lemma tables_half s s' : lsm_half s' = lsm_half s -> tables s' = tables s.
Proof. intros E. exact (f_equal (fun s => tables s) E). Qed.
Lemma tables_tree_update key pba v ts s : rt_wf (meta s) -> tables (imr_lsm_tree_update_locked key pba v ts s) = tables s.
Proof. intros Hw. destruct (update_spec key pba v ts s Hw) as (_ & E & _). exact (f_equal tables E). Qed.

Lemma map_lookup {A B} (f : A -> B) l i : map f l !! i = f <$> l !! i.
Proof. apply list_lookup_fmap. Qed.
Lemma map_eq_lookup {A B} (f : A -> B) l l' i x : map f l' = map f l -> l !! i = Some x -> exists x', l' !! i = Some x' /\ f x' = f x.
Proof.
  intros E Hx. apply (f_equal (fun m => m !! i)) in E. rewrite !map_lookup, Hx in E. destruct (l' !! i) as [x'|]; [|done].
  exists x'. split; [done|]. by injection E.
Qed.
Lemma tables_entry s i j e : entry_at (i, j) s = Some e -> forall s', tables s' = tables s ->
  exists e', entry_at (i, j) s' = Some e' /\ clear_entry_acct e' = clear_entry_acct e.
Proof.
  unfold entry_at, seg, tables. cbn [fst snd]. intros He s' E. destruct (segments (meta s) !! i) as [g|] eqn:Eg; [|done].
  destruct (map_eq_lookup _ _ _ _ _ E Eg) as (g' & -> & Et). exact (map_eq_lookup _ _ _ _ _ Et He).
Qed.

Lemma commit_entry_acct p e e' c s : clear_entry_acct e' = clear_entry_acct e -> commit_entry p e' c s = commit_entry p e c s.
Proof.
  intros E. unfold commit_entry.
  assert (be_key e' = be_key e) as -> by exact (f_equal be_key E). assert (be_pba e' = be_pba e) as -> by exact (f_equal be_pba E).
  assert (be_source_pba e' = be_source_pba e) as -> by exact (f_equal be_source_pba E).
  assert (be_valid e' = be_valid e) as -> by exact (f_equal be_valid E). by assert (be_timestamp e' = be_timestamp e) as -> by exact (f_equal be_timestamp E).
Qed.

(** The segment [i] holds the entries [t] from the index [j] on. *)
Definition holds (i j : nat) (t : list block_entry) (s : kstate) : Prop :=
  forall x e, t !! x = Some e -> exists e', entry_at (i, (j + x)%nat) s = Some e' /\ clear_entry_acct e' = clear_entry_acct e.
Lemma holds_tables i j t s s' : tables s' = tables s -> holds i j t s -> holds i j t s'.
Proof.
  intros E Hh x e Hx. destruct (Hh x e Hx) as (e1 & H1 & E1). destruct (tables_entry _ _ _ _ H1 s' E) as (e2 & H2 & E2).
  exists e2. split; [done|congruence].
Qed.
Lemma holds_tail i j e t s : holds i j (e :: t) s -> holds i (S j) t s.
Proof. intros Hh x e' Hx. specialize (Hh (S x) e' Hx). by replace (S j + x)%nat with (j + S x)%nat by lia. Qed.

(** ** The read tree during the publication *)

(** A relocation of the newest record. *)
Lemma tree_relocate H key pba valid ts s :
  rt_wf (meta s) -> rt_agrees H (meta s) -> (forall r, H key = Some r -> r_ts r < ts) ->
  rt_agrees (record H key (MkRec pba valid ts)) (meta (imr_lsm_tree_update_locked key pba valid ts s)).
Proof.
  intros Hw Ha Hts k n Hn. destruct (update_spec key pba valid ts s Hw) as (H1 & _ & H3).
  apply (cache_in _ k n (proj1 H1)) in Hn. rewrite H3 in Hn. apply (cache_update_in _ _ _ _ _ _ _ _ _ (proj1 Hw)) in Hn. unfold record.
  destruct Hn as [[Hne Hin]|[-> [->|[Hold Hlt]]]].
  - rewrite decide_False by done. apply Ha. by apply cache_in; [apply Hw|].
  - by rewrite decide_True.
  - specialize (Hts _ (Ha _ _ Hold)). cbn in Hts. lia.
Qed.

(** An outdated record of a cached key. *)
Lemma tree_outdated H key pba valid ts s n0 :
  rt_wf (meta s) -> rt_agrees H (meta s) -> m_find key (read_tree (meta s)) = Some n0 -> ts < rn_timestamp n0 ->
  rt_agrees H (meta (imr_lsm_tree_update_locked key pba valid ts s)).
Proof.
  intros Hw Ha Hn0 Hlt k n Hn. destruct (update_spec key pba valid ts s Hw) as (H1 & _ & H3).
  apply (cache_in _ k n (proj1 H1)) in Hn. rewrite H3, Hn0 in Hn. cbn [cache_update] in Hn. unfold newer in Hn. replace (ts >=? _) with false in Hn by lia.
  unfold cache_touch, cache_drop in Hn. rewrite elem_of_app, list_elem_of_filter, list_elem_of_singleton in Hn.
  destruct Hn as [[_ Hin]|[= -> ->]]; [|by apply Ha]. apply Ha. by apply cache_in; [apply Hw|].
Qed.

(** Within the limit nothing is evicted. *)
Lemma tree_room key pba valid ts s :
  rt_wf (meta s) -> lenZ (read_lru (meta s)) + 1 <= tree_limit (meta s) ->
  let s' := imr_lsm_tree_update_locked key pba valid ts s in
  lenZ (read_lru (meta s')) <= lenZ (read_lru (meta s)) + 1 /\
  forall k, is_Some (m_find k (read_tree (meta s))) -> is_Some (m_find k (read_tree (meta s'))).
Proof.
  intros Hw Hroom s'. subst s'. destruct (update_spec key pba valid ts s Hw) as (H1 & _ & H3). set (s' := imr_lsm_tree_update_locked key pba valid ts s) in *.
  pose proof (lenZ_cache _ (proj1 Hw)) as El. pose proof (lenZ_cache _ (proj1 H1)) as El'.
  assert (forall x, lenZ (cache_touch key x (cache (meta s))) <= lenZ (cache (meta s)) + 1) as Ht.
  { intros x. unfold cache_touch, cache_drop. rewrite lenZ_app. change (lenZ [(key, x)]) with 1. unfold lenZ. pose proof (length_filter (fun p : Z * read_node => p.1 <> key) (cache (meta s))). lia. }
  assert (exists x, cache (meta s') = cache_touch key x (cache (meta s)) \/ cache (meta s') = cache (meta s)) as [x Hx].
  { rewrite H3. destruct (m_find key (read_tree (meta s))) as [n|]; cbn [cache_update]; [by eexists; left|].
    destruct (match _ with Some _ => true | None => false end); [|by exists (MkReadNode pba valid ts); right].
    exists (MkReadNode pba valid ts). left. unfold cache_trim. specialize (Ht (MkReadNode pba valid ts)). by replace (Z.to_nat _) with 0%nat by lia. }
  split; [rewrite <- El', <- El; specialize (Ht x); destruct Hx as [->| ->]; lia|]. intros k [n Hn]. apply (cache_in _ k n (proj1 Hw)) in Hn.
  destruct Hx as [E|E].
  - destruct (decide (k = key)) as [->|Hne].
    + exists x. apply (cache_in _ key x (proj1 H1)). rewrite E. unfold cache_touch. rewrite elem_of_app. right. by left.
    + exists n. apply (cache_in _ k n (proj1 H1)). rewrite E. unfold cache_touch, cache_drop. rewrite elem_of_app, list_elem_of_filter. by left.
  - exists n. apply (cache_in _ k n (proj1 H1)). by rewrite E.
Qed.

(** ** One committed entry *)

(** The LSM without its read tree and its accounting. *)
Definition trunk (s : kstate) : kstate := lsm_half (view s).
Lemma trunk_half s s' : lsm_half s' = lsm_half s -> trunk s' = trunk s.
Proof. intros E. exact (f_equal view E). Qed.
Lemma trunk_keeps s s' : keeps s s' -> trunk s' = trunk s.
Proof. intros [E _]. exact (f_equal lsm_half E). Qed.

(** Neither half changes except for the zones, the read tree and flags of the
    accounting. *)
Record commits (s s' : kstate) : Prop := {
  cm_trunk : trunk s' = trunk s;
  cm_tables : tables s' = tables s;
  cm_hp : hp_next (hp s) <= hp_next (hp s');
  cm_env : env_same s s';
  cm_shape : zshape s -> zshape s';
  cm_active : active_zone (alloc s') = active_zone (alloc s);
  cm_limit : tree_limit (meta s') = tree_limit (meta s);
}.
#[export] Instance commits_refl : Reflexive commits.
Proof. intros s. split; try done. Qed.
#[export] Instance commits_trans : Transitive commits.
Proof.
  intros s1 s2 s3 [A1 A2 A3 A4 A5 A6 A7] [B1 B2 B3 B4 B5 B6 B7]. split; [congruence|congruence|lia|by etransitivity|auto|congruence|congruence].
Qed.
Lemma commits_rezoned s s' : rezoned s s' -> active_zone (alloc s') = active_zone (alloc s) -> commits s s'.
Proof.
  intros R Ha. pose proof (rz_lsm _ _ R) as E. split; [by apply trunk_half|by apply tables_half| |by apply env_rezoned|by apply rezoned_shape|done|].
  - assert (hp s' = hp s) as -> by exact (f_equal hp E). done.
  - exact (f_equal (fun s => tree_limit (meta s)) E).
Qed.
Lemma commits_keeps s s' : keeps s s' -> tables s' = tables s -> tree_limit (meta s') = tree_limit (meta s) -> commits s s'.
Proof.
  intros K Et El. pose proof (keeps_zhalf _ _ K) as Ez.
  split; [by apply trunk_keeps|done|apply K|by apply env_zhalf|by apply zhalf_shape|by apply active_zhalf|done].
Qed.
Lemma append_slot_of z j : 0 <= z < 2 ^ 32 -> 0 <= j < TOTAL_ITEMS -> imr_lsm_zone_append_slot z (imr_lsm_zone_append_pba z j) = Ok j.
Proof. intros Hz Hj. by rewrite append_pba_eq, append_slot_eq, block_slot_block by (done || by apply slot_block_range). Qed.

(** [z_key_map[slot] = key;] *)
Definition name_slot (slot key : Z) : Z * Z * (Z -> Z) -> Z * Z * (Z -> Z) := fun '(a, b, c) => (a, b, upd_fn c slot key).
Definition named (slot key i : Z) (s : kstate) (j : Z) : option (Z * Z * (Z -> Z)) :=
  if decide (j = i) then name_slot slot key <$> counters_of s j else counters_of s j.

(** The entry still names the block it was made for. *)
Definition wins (e : block_entry) (s : kstate) : bool := bool_decide (fwd s (be_key e) = Some (be_source_pba e)).

Lemma commit_entry_spec p e c s j :
  zshape s -> rt_wf (meta s) -> 0 <= zp_dest_zone0 p < IMR_NUMZONES s -> 0 <= be_key e < total_keys s ->
  be_pba e = imr_lsm_zone_append_pba (zp_dest_zone0 p) j -> 0 <= j < TOTAL_ITEMS ->
  exists s1, commits s s1 /\ same_rt (meta s) (meta s1) /\
    commit_entry p e c s =
      (imr_lsm_tree_update_locked (be_key e) (be_pba e) (be_valid e) (be_timestamp e) s1, if wins e s then u32 (c + 1) else c, 0) /\
    (forall k, fwd s1 k = if wins e s then upd (fwd s) (be_key e) (Some (be_pba e)) k else fwd s k) /\
    (forall i, counters_of s1 i = named j (be_key e) (zp_dest_zone0 p) s i).
Proof.
  intros Hz Hw Hd Hk Hp Hj. pose proof (zs_num _ Hz) as Hn. destruct (total_keys_limit s Hz) as [_ Hlim]. unfold IMR_LSM_KEY_EMPTY, U32_MAX in Hlim.
  assert (imr_lsm_zone_append_slot (zp_dest_zone0 p) (be_pba e) = Ok j) as Es by (rewrite Hp; apply append_slot_of; [lia|done]).
  unfold commit_entry. rewrite Es, (u32_small (be_key e)) by lia. clear Es.
  set (dst := zp_dest_zone0 p) in *. set (s0 := upd_zone dst _ s).
  assert (rezoned s s0) as R0 by (by apply rezoned_upd). assert (commits s s0) as C0 by (apply commits_rezoned; [done|]; unfold s0; by rewrite alloc_upd).
  assert (forall k, fwd s0 k = fwd s k) as F0.
  { intros k. apply fwd_pba; [|apply R0]. intros i. unfold s0. rewrite zone_upd. destruct (decide (i = dst)); [|done]. by destruct (zone i s). }
  assert (forall i, counters_of s0 i = named j (be_key e) dst s i) as K0.
  { intros i. unfold s0, named. by rewrite (counters_upd dst _ (name_slot j (be_key e))). }
  pose proof (cm_shape _ _ C0 Hz) as Hz0. clearbody s0.
  assert (IMR_NUMZONES s0 = IMR_NUMZONES s) as En by apply R0.
  assert (imr_lsm_forward_map_lookup_locked (be_key e) s0 = fwd s (be_key e)) as -> by (rewrite lookup_fwd, F0 by (done || lia); done).
  assert (forall s1, rezoned s0 s1 -> alloc s1 = alloc s0 ->
    let s2 := (imr_lsm_newest_index_update_locked (be_key e) (be_timestamp e) (be_valid e) s1).1 in
    commits s s2 /\ same_rt (meta s) (meta s2) /\ zhalf s2 = zhalf s1) as Hnext.
  { intros s1 R1 E1 s2. pose proof (keeps_newest_update (be_key e) (be_timestamp e) (be_valid e) s1) as Hkr. fold s2 in Hkr.
    pose proof (keeps_rt_same _ _ Hkr) as Hs. pose proof (keeps_rt_keeps _ _ Hkr) as Hkp. split_and!.
    - etransitivity; [exact C0|]. etransitivity; [apply commits_rezoned; [exact R1|by rewrite E1]|]. apply commits_keeps; [done|apply tables_newest_update|].
      unfold tree_limit. by rewrite (srt_limit _ _ Hs).
    - pose proof (half_same_rt _ _ (rz_lsm _ _ R0)) as [A1 A2 A3 A4]. pose proof (half_same_rt _ _ (rz_lsm _ _ R1)) as [B1 B2 B3 B4]. destruct Hs. split; congruence.
    - by apply keeps_zhalf. }
  assert ((match fwd s (be_key e) with Some mapped_pba => mapped_pba =? be_source_pba e | None => false end) = wins e s) as ->.
  { unfold wins. destruct (fwd s (be_key e)) as [m|]; [|by rewrite bool_decide_false]. destruct (Z.eqb_spec m (be_source_pba e)) as [->|Hne].
    - by rewrite bool_decide_true.
    - rewrite bool_decide_false; [done|congruence]. }
  destruct (wins e s).
  - destruct (append_pba_block (IMR_NUMZONES s) dst j Hn Hd Hj) as (b & Hb1 & Hb2).
    destruct (forward_map_set_spec s0 Hz0 (be_key e) (be_pba e) b) as (s1 & -> & R1 & A1 & F1 & Z1); [unfold total_keys in *; by rewrite En|by rewrite Hp|done|].
    cbv iota. change (negb (0 =? 0)) with false. cbv iota. destruct (Hnext s1 R1 A1) as (C2 & S2 & E2). eexists. split; [exact C2|]. split; [exact S2|]. split; [reflexivity|]. split.
    + intros k. rewrite (fwd_zones _ s1) by (by intros; apply zone_zhalf || apply num_zhalf). rewrite F1. unfold upd. by destruct (decide _).
    + intros i. rewrite (counters_zhalf _ _ _ E2), <- K0. unfold counters_of. destruct (zone i s1) as [z1|] eqn:Ez1.
      * destruct (Z1 i z1 Ez1) as (z & m & -> & ->). done.
      * destruct (zone i s0) as [z|] eqn:Ez0; [|done]. exfalso. pose proof (zone_in _ _ _ Hz0 Ez0) as Hir.
        destruct (zone_at s1 i (rezoned_shape _ _ R1 Hz0)) as [z' Ez']; [by rewrite (rz_num _ _ R1)|congruence].
  - change (negb (0 =? 0)) with false. cbv iota. destruct (Hnext s0 (reflexivity _) eq_refl) as (C2 & S2 & E2). eexists. split; [exact C2|]. split; [exact S2|]. split; [reflexivity|]. split.
    + intros k. rewrite (fwd_zones _ s0) by (by intros; apply zone_zhalf || apply num_zhalf). apply F0.
    + intros i. by rewrite (counters_zhalf _ _ _ E2), <- K0.
Qed.

(** ** All entries *)

Definition entry_of (k : Z) (t : list block_entry) : option block_entry := List.find (fun e => be_key e =? k) t.

(** The newest records after the publication of [t]. *)
Definition relocated (H : newest_map) (t : list block_entry) (s : kstate) : newest_map :=
  fun k => match entry_of k t with Some e => if wins e s then Some (entry_rec e) else H k | None => H k end.

(** An outdated entry of the plan enters the read tree unless a newer record of
    its key is there: the publication is [calm] if no copied block was
    overwritten, or if the records of all overwritten ones are cached and stay so. *)
Definition calm (t : list block_entry) (s : kstate) : bool :=
  forallb (fun e => wins e s) t ||
  ((lenZ (read_lru (meta s)) + lenZ t <=? tree_limit (meta s)) &&
   forallb (fun e => wins e s || match m_find (be_key e) (read_tree (meta s)) with Some _ => true | None => false end) t).

(** The timestamps of the entries against the newest records. *)
Definition dated (H : newest_map) (t : list block_entry) (s : kstate) : Prop :=
  forall e r, e ∈ t -> H (be_key e) = Some r -> if wins e s then r_ts r < be_timestamp e else be_timestamp e < r_ts r.

Lemma tree_commit H e t s s1 :
  rt_wf (meta s) -> rt_agrees H (meta s) -> same_rt (meta s) (meta s1) -> dated H (e :: t) s -> calm (e :: t) s = true ->
  (forall e', e' ∈ t -> be_key e' <> be_key e) ->
  let s2 := imr_lsm_tree_update_locked (be_key e) (be_pba e) (be_valid e) (be_timestamp e) s1 in
  (forall e', e' ∈ t -> wins e' s2 = wins e' s) ->
  rt_agrees (if wins e s then record H (be_key e) (entry_rec e) else H) (meta s2) /\ calm t s2 = true.
Proof.
  intros Hw Ha Hs Hd Hc Hne s2 Hwins. assert (rt_wf (meta s1)) as Hw1 by (by eapply same_rt_wf).
  assert (rt_agrees H (meta s1)) as Ha1 by (intros k n; rewrite (srt_tree _ _ Hs); apply Ha).
  assert (read_tree_limit (meta s2) = read_tree_limit (meta s)) as El.
  { rewrite <- (srt_limit _ _ Hs). destruct (update_spec (be_key e) (be_pba e) (be_valid e) (be_timestamp e) s1 Hw1) as (_ & E & _).
    exact (f_equal (fun s => read_tree_limit (meta s)) E). }
  assert (forall b, forallb (fun e => wins e s || b e) t = forallb (fun e => wins e s2 || b e) t) as Hsame.
  { intros b. clear - Hwins. induction t as [|e' t IH]; [done|]. cbn. rewrite (Hwins e') by left. f_equal. apply IH. intros x Hx. apply Hwins. by right. }
  unfold calm in Hc. cbn [forallb] in Hc. split.
  - specialize (Hd e). destruct (wins e s); [apply tree_relocate; [done|done|]; intros r Hr; apply Hd; [left|done]|].
    cbn [andb orb] in Hc. apply andb_true_iff in Hc as [_ Hc]. destruct (m_find (be_key e) (read_tree (meta s))) as [n0|] eqn:En; [|done].
    apply (tree_outdated H _ _ _ _ s1 n0); [done|done|by rewrite (srt_tree _ _ Hs)|]. exact (Hd _ ltac:(left) (Ha _ _ En)).
  - unfold calm. apply orb_true_iff in Hc as [Hc|Hc].
    + apply andb_true_iff in Hc as [_ Hc]. apply orb_true_iff. left. rewrite forallb_forall in Hc |- *.
      intros e' He'. rewrite Hwins by (by apply list_elem_of_In). by apply Hc.
    + apply andb_true_iff in Hc as [Hroom [_ Hc]%andb_true_iff]. rewrite lenZ_cons in Hroom. pose proof (lenZ_nonneg t).
      destruct (tree_room (be_key e) (be_pba e) (be_valid e) (be_timestamp e) s1 Hw1) as [Hlen Hfind].
      { rewrite (srt_lru _ _ Hs). unfold tree_limit in *. rewrite (srt_limit _ _ Hs). lia. }
      fold s2 in Hlen, Hfind. rewrite (srt_lru _ _ Hs) in Hlen. apply orb_true_iff. right. apply andb_true_iff. split; [unfold tree_limit in *; rewrite El; lia|].
      rewrite <- Hsame. apply forallb_forall. intros e' He'. rewrite forallb_forall in Hc. specialize (Hc e' He').
      destruct (wins e' s); [done|]. cbn in *. specialize (Hfind (be_key e')). rewrite (srt_tree _ _ Hs) in Hfind.
      destruct (m_find (be_key e') (read_tree (meta s))); [|done]. by destruct (Hfind ltac:(done)) as [? ->].
Qed.

Definition entry_to (dst j : Z) (t : list block_entry) : option block_entry := List.find (fun e => slot_of dst (be_pba e) =? j) t.

Record placed (dst : Z) (t : list block_entry) (s : kstate) : Prop := {
  pl_key : forall e, e ∈ t -> 0 <= be_key e < total_keys s;
  pl_slot : forall e, e ∈ t -> be_pba e = imr_lsm_zone_append_pba dst (slot_of dst (be_pba e)) /\ 0 <= slot_of dst (be_pba e) < TOTAL_ITEMS;
  pl_keys : NoDup (map be_key t);
  pl_slots : NoDup (map (fun e => slot_of dst (be_pba e)) t);
}.

(** What the loop over [t] does. *)
Record committed (dst : Z) (t : list block_entry) (s s' : kstate) : Prop := {
  cd_commits : commits s s';
  cd_rt_wf : rt_wf (meta s');
  cd_fwd : forall k, fwd s' k = match entry_of k t with Some e => if wins e s then Some (be_pba e) else fwd s k | None => fwd s k end;
  cd_other : forall i, i <> dst -> counters_of s' i = counters_of s i;
  cd_dest : forall a b c, counters_of s dst = Some (a, b, c) ->
    exists c', counters_of s' dst = Some (a, b, c') /\ forall j, c' j = match entry_to dst j t with Some e => be_key e | None => c j end;
  cd_tree : forall H, rt_agrees H (meta s) -> dated H t s -> calm t s = true -> rt_agrees (relocated H t s) (meta s');
}.

Lemma entry_of_None k t : (forall e, e ∈ t -> be_key e <> k) -> entry_of k t = None.
Proof.
  intros Hn. unfold entry_of. destruct (List.find _ t) as [e|] eqn:E; [|done]. apply find_some in E as [He%list_elem_of_In Hk].
  exfalso. apply (Hn e He). lia.
Qed.
Lemma entry_of_Some k t e : entry_of k t = Some e -> e ∈ t /\ be_key e = k.
Proof. intros [He%list_elem_of_In Hk]%find_some. split; [done|lia]. Qed.

Lemma map_not_in {A B} (f : A -> B) x l : f x ∉ map f l -> forall y, y ∈ l -> f y <> f x.
Proof. intros Hn y Hy E. apply Hn. rewrite <- E. by apply elem_map. Qed.

Lemma commit_entries_spec p i t : forall j c s,
  holds i j t s -> zshape s -> rt_wf (meta s) -> 0 <= zp_dest_zone0 p < IMR_NUMZONES s -> placed (zp_dest_zone0 p) t s -> 0 <= c -> c + lenZ t < 2 ^ 32 ->
  exists s', commit_entries p i (length t) j c s = (s', c + count (fun e => wins e s) t, 0) /\ committed (zp_dest_zone0 p) t s s'.
Proof.
  set (dst := zp_dest_zone0 p). induction t as [|e t IH]; intros j c s Hh Hz Hw Hd Hp Hc Hlen.
  { exists s. change (count (fun e => wins e s) []) with 0. rewrite Z.add_0_r. split; [done|]. split; try done. intros a b c0 E. by exists c0. }
  rewrite lenZ_cons in Hlen. pose proof (lenZ_nonneg t) as Hlt. destruct (pl_slot _ _ _ Hp e ltac:(left)) as [Epba Hslot].
  destruct (commit_entry_spec p e c s (slot_of dst (be_pba e)) Hz Hw Hd (pl_key _ _ _ Hp e ltac:(left)) Epba Hslot) as (s1 & C1 & S1 & E1 & F1 & K1).
  cbn [length commit_entries]. destruct (Hh 0%nat e eq_refl) as (e0 & He0 & Ee0). rewrite Nat.add_0_r in He0. rewrite He0.
  rewrite (commit_entry_acct p e e0 c s Ee0), E1. change (negb (0 =? 0)) with false. cbv iota. fold dst in K1.
  assert (rt_wf (meta s1)) as Hw1 by (by eapply same_rt_wf).
  set (s2 := imr_lsm_tree_update_locked _ _ _ _ s1).
  pose proof (keeps_tree_update (be_key e) (be_pba e) (be_valid e) (be_timestamp e) s1 Hw1) as Hk2. fold s2 in Hk2.
  destruct (update_spec (be_key e) (be_pba e) (be_valid e) (be_timestamp e) s1 Hw1) as (Hw2 & Hno & _). fold s2 in Hw2, Hno.
  pose proof (keeps_zhalf _ _ Hk2) as Ez2.
  assert (commits s s2) as C2.
  { etransitivity; [exact C1|]. apply commits_keeps; [done|by apply tables_tree_update|]. exact (f_equal (fun s => tree_limit (meta s)) Hno). }
  assert (forall k, fwd s2 k = fwd s1 k) as F2 by (intros k; apply fwd_zones; [intros; by apply zone_zhalf|by apply num_zhalf]).
  assert (forall i, counters_of s2 i = counters_of s1 i) as K2 by (intros x; by apply counters_zhalf).
  pose proof (pl_keys _ _ _ Hp) as Hnd. cbn in Hnd. apply NoDup_cons in Hnd as [Hkn Hnd].
  pose proof (pl_slots _ _ _ Hp) as Hsd. cbn in Hsd. apply NoDup_cons in Hsd as [Hsn Hsd].
  pose proof (map_not_in be_key e t Hkn) as Hne. pose proof (map_not_in (fun e => slot_of dst (be_pba e)) e t Hsn) as Hns.
  assert (forall k, k <> be_key e -> fwd s2 k = fwd s k) as Fne.
  { intros k Hk. rewrite F2, F1. destruct (wins e s); [|done]. by apply upd_ne. }
  assert (forall e', e' ∈ t -> wins e' s2 = wins e' s) as Hwin by (intros e' He'; unfold wins; by rewrite Fne by (by apply Hne)).
  assert (count (fun e => wins e s2) t = count (fun e => wins e s) t) as Ecount by (apply count_ext; exact Hwin).
  pose proof (es_num _ _ (cm_env _ _ C2)) as En2.
  specialize (IH (S j) (if wins e s then u32 (c + 1) else c) s2).
  destruct IH as (s' & E' & [D1 D2 D3 D4 D5 D6]); [apply (holds_tables _ _ _ s), (holds_tail _ _ e), Hh; apply C2|by apply C2|done|by rewrite En2| |destruct (wins e s); [rewrite u32_small|]; lia|destruct (wins e s); [rewrite u32_small|]; lia|].
  { destruct Hp as [P1 P2 _ _]. split; [|intros x Hx; apply P2; by right|done|done]. intros x Hx. unfold total_keys. rewrite En2. apply P1. by right. }
  exists s'. split.
  - rewrite E', Ecount. unfold count at 2. cbn [List.filter]. f_equal. f_equal. destruct (wins e s); [rewrite u32_small by lia; rewrite lenZ_cons|]; unfold count; lia.
  - split; [by etransitivity|done| | | |].
    + intros k. rewrite D3. unfold entry_of at 2. cbn [List.find]. destruct (Z.eqb_spec (be_key e) k) as [<-|Hk].
      * rewrite entry_of_None by done. rewrite F2, F1. destruct (wins e s); [by rewrite upd_eq|done].
      * fold (entry_of k t). destruct (entry_of k t) as [e'|] eqn:Ee; [|by apply Fne; congruence]. apply entry_of_Some in Ee as [He' _]. rewrite Hwin by done.
        destruct (wins e' s); [done|]. apply Fne. congruence.
    + intros x Hi. rewrite D4, K2, K1 by done. unfold named. by rewrite decide_False.
    + intros a b c0 Ec. destruct (D5 a b (upd_fn c0 (slot_of dst (be_pba e)) (be_key e))) as (c' & Ec' & Hc').
      { rewrite K2, K1. unfold named. rewrite decide_True, Ec by done. done. }
      exists c'. split; [done|]. intros x. rewrite Hc'. unfold entry_to at 2. cbn [List.find]. unfold upd_fn. destruct (Z.eqb_spec (slot_of dst (be_pba e)) x) as [<-|Hj].
      * replace (entry_to _ _ t) with (@None block_entry); [by rewrite Z.eqb_refl|]. symmetry. unfold entry_to.
        destruct (List.find _ t) as [y|] eqn:Ey; [|done]. apply find_some in Ey as [Hy%list_elem_of_In Hye]. exfalso. apply (Hns y Hy). lia.
      * fold (entry_to dst x t). destruct (entry_to dst x t); [done|]. by replace (x =? _) with false by lia.
    + intros H Ha Hdt Hcalm. destruct (tree_commit H e t s s1 Hw Ha S1 Hdt Hcalm Hne Hwin) as [Ha2 Hcalm2]. fold s2 in Ha2, Hcalm2.
      specialize (D6 _ Ha2). assert (dated (if wins e s then record H (be_key e) (entry_rec e) else H) t s2) as Hdt2.
      { intros x r Hx. rewrite Hwin by done. assert ((if wins e s then record H (be_key e) (entry_rec e) else H) (be_key x) = H (be_key x)) as ->.
        { destruct (wins e s); [|done]. unfold record. by rewrite decide_False by (by apply Hne). }
        apply Hdt. by right. }
      specialize (D6 Hdt2 Hcalm2). intros k n Hkn2. specialize (D6 k n Hkn2). rewrite <- D6. unfold relocated. unfold entry_of at 1. cbn [List.find].
      destruct (Z.eqb_spec (be_key e) k) as [<-|Hk].
      * rewrite entry_of_None by done. destruct (wins e s); [|done]. unfold record. by rewrite decide_True.
      * fold (entry_of k t). destruct (entry_of k t) as [e'|] eqn:Ee.
        -- pose proof (entry_of_Some _ _ _ Ee) as [He' _]. rewrite Hwin by done. destruct (wins e' s); [done|]. destruct (wins e s); [|done]. unfold record. by rewrite decide_False by congruence.
        -- destruct (wins e s); [|done]. unfold record. by rewrite decide_False by congruence.
Qed.
