(* ===== verification/ImrGcPublish.v ===== *)
(** A whole zone collection: linking the segment of copies, committing its
    entries, sealing the destination and reclaiming the source. *)

From S2P Require Import Prelude StdMap ImrPrelude ImrGeometry ImrBloom ImrState ImrReadTree ImrLevels ImrSegment ImrPlacement ImrAccounting ImrCore ImrLsm ImrLsmInv ImrLsmOps ImrCompaction ImrBuild ImrPlan ImrPublish ImrPhases ImrSystem ImrZones ImrGc ImrIo ImrLayout ImrZoneFrame ImrZoneInv ImrZoneOps ImrGcPlan ImrGcSpec.

(** ** Linking *)

(** A mixed segment has no placement, so its table is published unchanged: this
    is what keeps the source addresses the commit compares with. *)
Lemma publish_mixed g s : sg_zone_idx g = IMR_LSM_SEGMENT_ZONE_MIXED ->
  exists g', segments (meta (imr_lsm_publish_prepared_segment_locked g false s).1) = segments (meta s) ++ [g'] /\ sg_table g' = sg_table g.
Proof.
  intros Hm. destruct g as [id lv zi tt re ca nc mnk mxk mnt mxt bl tb ac acd sc rh lr pl ou]. cbn in Hm. subst zi.
  unfold imr_lsm_publish_prepared_segment_locked, imr_lsm_apply_segment_placement_locked. cbv zeta. cbn [set_sg_id set_sg_placement sg_placement sg_zone_idx
    imr_lsm_reset_segment_output_locked set_sg_output]. rewrite Z.eqb_refl. by eexists.
Qed.

Lemma link_spec H b s :
  sb_ok b -> sb_table b <> [] -> sb_zone_idx b = IMR_LSM_SEGMENT_ZONE_MIXED -> lsm_inv H s ->
  let '(s', b', ret) := imr_lsm_append_segment_with_accounting_locked IMR_LSM_MAX_LEVEL IMR_LSM_TRACK_BOTTOM b false s in
  ret = - ENOMEM /\ keeps_rt s s' \/
  ret = 0 /\ exists g g', seg_ok g /\ sg_table g = sb_table b /\ sg_level g = IMR_LSM_MAX_LEVEL /\ sg_retired g = false /\
    reshapes s s' (gcore s ++ [set_sg_id (next_segment_id (meta s)) (seg_core g)]) /\
    segments (meta s') = segments (meta s) ++ [g'] /\ sg_table g' = sb_table b.
Proof.
  intros Hb Hne Hm Hi. unfold imr_lsm_append_segment_with_accounting_locked. set (bpk := imr_lsm_bloom_bits_per_key_locked s).
  pose proof (prepare_segment_spec IMR_LSM_MAX_LEVEL IMR_LSM_TRACK_BOTTOM b bpk (hp s) Hb Hne ltac:(unfold IMR_LSM_MAX_LEVEL; lia)) as Hp.
  pose proof (prepare_segment_le IMR_LSM_MAX_LEVEL IMR_LSM_TRACK_BOTTOM b bpk (hp s)) as Hle.
  assert (forall h' b' g, imr_lsm_prepare_segment IMR_LSM_MAX_LEVEL IMR_LSM_TRACK_BOTTOM b bpk (hp s) = (h', b', Ok (Some g)) -> sg_zone_idx g = sb_zone_idx b) as Hz.
  { intros h' b' g. unfold imr_lsm_prepare_segment. destruct (_ =? 0); [done|]. destruct (kzalloc (hp s)) as [h [a|]]; [|done].
    destruct (imr_lsm_segment_build_bloom _ _ _) as [h2 [bl|e]]; [|done]. by intros [= _ _ <-]. }
  destruct (imr_lsm_prepare_segment _ _ _ _ _) as [[h' b'] r]. cbn in Hle. destruct Hp as [->|(g & -> & Hg & Ht & Hl & Hr)].
  - left. split; [done|]. by split.
  - right. split; [done|]. specialize (Hz h' b' g eq_refl). pose proof (publish_segment_spec g (set_hp h' s)) as Hps.
    destruct (publish_mixed g (set_hp h' s)) as (g' & Es & Et); [congruence|].
    destruct (imr_lsm_publish_prepared_segment_locked g false (set_hp h' s)) as [s' i]. cbn [fst] in *.
    exists g, g'. split_and!; try done; [|congruence]. eapply reshapes_trans; [|exact Hps]. by split.
Qed.

(** ** The newest records *)

Lemma entry_of_in e t : NoDup (map be_key t) -> e ∈ t -> entry_of (be_key e) t = Some e.
Proof. intros Hnd He. by apply find_unique. Qed.

Section relocate.
Context (H : newest_map) (t : list block_entry) (s : kstate).
Hypothesis (Hnd : NoDup (map be_key t)) (Hd : dated H t s).
Hypothesis (Hstale : forall e, e ∈ t -> wins e s = false -> is_Some (H (be_key e))).

Lemma relocated_at e : e ∈ t -> relocated H t s (be_key e) = if wins e s then Some (entry_rec e) else H (be_key e).
Proof. intros He. unfold relocated. by rewrite entry_of_in. Qed.

Lemma relocated_cases k : relocated H t s k = H k \/
  exists e, e ∈ t /\ be_key e = k /\ wins e s = true /\ relocated H t s k = Some (entry_rec e).
Proof.
  unfold relocated. destruct (entry_of k t) as [e|] eqn:E; [|by left]. apply entry_of_Some in E as [He Hk].
  destruct (wins e s) eqn:Ew; [|by left]. right. by exists e.
Qed.

Lemma relocated_bounded k r : bounded H k r -> bounded (relocated H t s) k r.
Proof.
  intros (r0 & Hr0 & Hr). destruct (relocated_cases k) as [E|(e & He & Hk & Hw & E)]; [exists r0; by rewrite E|].
  exists (entry_rec e). split; [done|]. left. rewrite <- Hk in Hr0. specialize (Hd e r0 He Hr0). rewrite Hw in Hd. cbn. destruct Hr as [| -> ]; lia.
Qed.

Lemma copy_bounded e : e ∈ t -> bounded (relocated H t s) (be_key e) (entry_rec e).
Proof.
  intros He. unfold bounded. rewrite (relocated_at e He). destruct (wins e s) eqn:Ew.
  - exists (entry_rec e). split; [done|by right].
  - destruct (Hstale e He Ew) as [r Hr]. exists r. split; [done|]. left. specialize (Hd e r He Hr). by rewrite Ew in Hd.
Qed.

Lemma lsm_ok_relocated lv gs now g :
  lsm_ok H lv gs now -> seg_ok g -> sg_level g = IMR_LSM_MAX_LEVEL -> sg_retired g = false ->
  (forall e, e ∈ t -> 1 <= be_timestamp e <= now) ->
  (forall k r, (exists e, e ∈ sg_table g /\ be_key e = k /\ entry_rec e = r) <-> exists e, e ∈ t /\ be_key e = k /\ entry_rec e = r) ->
  lsm_ok (relocated H t s) lv (gs ++ [g]) now.
Proof.
  intros [K1 K2 K3 K4 K5 K6 K7 K8 K9 K10 K11] Hg Hl Hr Ht Htab. split; try done.
  - intros k r Hkr. destruct (relocated_cases k) as [E|(e & He & Hk & Hw & E)]; rewrite E in Hkr; [by eapply K4|]. injection Hkr as <-. by apply Ht.
  - intros l n Hl' Hn. by apply relocated_bounded, (K5 l).
  - intros l n Hl' Hn. by apply relocated_bounded, (K6 l).
  - intros x [Hx|Hx%list_elem_of_singleton]%elem_of_app; [by apply K8|by subst].
  - intros x e [Hx|Hx%list_elem_of_singleton]%elem_of_app Hret He; [by eapply relocated_bounded, K9|]. subst x.
    destruct (proj1 (Htab (be_key e) (entry_rec e))) as (e0 & He0 & <- & <-); [by exists e|]. by apply copy_bounded.
  - intros k r Hkr. destruct (relocated_cases k) as [E|(e & He & Hk & Hw & E)]; rewrite E in Hkr.
    + destruct (K10 k r Hkr) as [Hu|(x & e & Hx & Hre)]; [by left|]. right. exists x, e. split; [|done]. apply elem_of_app. by left.
    + injection Hkr as <-. right. destruct (proj2 (Htab k (entry_rec e))) as (e1 & He1 & Hk1 & Hr1); [by exists e|].
      exists g, e1. split_and!; try done. apply elem_of_app. right. by left.
  - intros x e [Hx|Hx%list_elem_of_singleton]%elem_of_app Hret Hlv He; [by eapply K11|]. subst x. lia.
Qed.
End relocate.

(** ** Sealing the destination, reclaiming the source *)

(** Only labels of zones and the allocator change. *)
Record labels (s s' : kstate) : Prop := { lb_rezoned : rezoned s s'; lb_relabels : relabels s s' }.
#[export] Instance labels_trans : Transitive labels.
Proof. intros s1 s2 s3 [A1 A2] [B1 B2]. split; [by etransitivity|by eapply relabels_trans]. Qed.
Lemma labels_upd i f s : (forall z, zmap (f z) = zmap z) -> (forall z, geometry (f z) = geometry z) -> labels s (upd_zone i f s).
Proof. intros Hf Hg. split; [by apply rezoned_upd|by apply relabels_upd]. Qed.
Lemma labels_alloc a s : labels s (set_alloc a s).
Proof. split; [apply rezoned_alloc|by intros i]. Qed.
Lemma labels_quiet s s' : quiet s s' -> labels s s'.
Proof. intros Q. split; [by apply rezoned_quiet|apply relabels_zhalf, Q]. Qed.

Lemma use_top_slots_kept n z : zmap (use_top_slots n z) = zmap z /\ geometry (use_top_slots n z) = geometry z.
Proof.
  unfold use_top_slots. generalize (map Z.of_nat (seq 0 (Z.to_nat (n - imr_lsm_bottom_range_blocks)))). intros l. revert z.
  induction l as [|x l IH]; intros z; [done|]. cbn [fold_left]. match goal with |- zmap (fold_left _ _ ?z') = _ /\ _ => destruct (IH z') as [-> ->] end. done.
Qed.

Definition set_counts (a b : Z) : Z * Z * (Z -> Z) -> Z * Z * (Z -> Z) := fun '(_, _, c) => (a, b, c).

Lemma seal_dest_spec p c s : let s' := seal_dest p c s in
  rezoned s s' /\ (forall k, fwd s' k = fwd s k) /\
  (forall i, counters_of s' i =
    if decide (i = zp_dest_zone0 p) then set_counts (zp_live_entries p) c <$> counters_of s i else counters_of s i) /\
  (active_zone (alloc s') = active_zone (alloc s) \/ active_zone (alloc s) = IMR_LSM_ZONE_COMPACTION_NONE /\ active_zone (alloc s') = zp_dest_zone0 p).
Proof.
  cbv zeta. set (dst := zp_dest_zone0 p). set (live := zp_live_entries p).
  set (s0 := upd_zone dst (fun z => set_z_live_count c (set_z_map_size live z)) s).
  assert (alloc s0 = alloc s) as Ea0 by apply alloc_upd.
  assert (labels s0 (seal_dest p c s) /\ (active_zone (alloc (seal_dest p c s)) = active_zone (alloc s0) \/
    active_zone (alloc s0) = IMR_LSM_ZONE_COMPACTION_NONE /\ active_zone (alloc (seal_dest p c s)) = dst)) as [Hl Ha].
  { unfold seal_dest. cbv zeta. fold dst live s0. set (s1 := if negb (live =? 0) then _ else _).
    assert (labels s0 s1 /\ (active_zone (alloc s1) = active_zone (alloc s0) \/ active_zone (alloc s0) = IMR_LSM_ZONE_COMPACTION_NONE /\ active_zone (alloc s1) = dst)) as [H1 A1].
    { unfold s1. destruct (negb (live =? 0)).
      - set (s2 := upd_zone dst (set_z_generation _) s0). assert (labels s0 s2) as H2 by (by apply labels_upd).
        assert (alloc s2 = alloc s0) as E2 by apply alloc_upd. clearbody s2. set (s3 := set_alloc _ s2). assert (labels s0 s3) as H3 by (etransitivity; [exact H2|apply labels_alloc]).
        assert (active_zone (alloc s3) = active_zone (alloc s0)) as E3 by (unfold s3; cbn; by rewrite E2). clearbody s3.
        destruct ((live <? TOTAL_ITEMS) && (active_zone (alloc s3) =? IMR_LSM_ZONE_COMPACTION_NONE)) eqn:Eb.
        + split; [|right; split; [apply andb_true_iff in Eb as [_ Eb]; lia|done]].
          etransitivity; [exact H3|]. etransitivity; [|apply labels_alloc]. by apply labels_upd.
        + split; [etransitivity; [exact H3|by apply labels_upd]|]. left. by rewrite alloc_upd.
      - split; [by apply labels_upd|]. left. by rewrite alloc_upd. }
    clearbody s1. set (s2 := imr_lsm_clear_zone_top_usage dst s1). assert (labels s0 s2) as H2 by (etransitivity; [exact H1|by apply labels_upd]).
    assert (alloc s2 = alloc s1) as E2 by apply alloc_upd. clearbody s2. destruct (live >? imr_lsm_bottom_range_blocks).
    - split; [etransitivity; [exact H2|apply labels_upd; intros z; apply use_top_slots_kept]|]. by rewrite alloc_upd, E2.
    - split; [done|]. by rewrite E2. }
  rewrite Ea0 in Ha. destruct Hl as [R1 L1]. split_and!; [transitivity s0; [by apply rezoned_upd|exact R1]| | |done].
  - intros k. rewrite (relabels_fwd _ _ _ L1) by apply R1. apply fwd_pba; [|by apply (rz_num s s0), rezoned_upd].
    intros i. unfold s0. rewrite zone_upd. destruct (decide (i = dst)); [|done]. by destruct (zone i s).
  - intros i. rewrite (counters_relabels _ _ _ L1). unfold s0. by rewrite (counters_upd dst _ (set_counts live c)).
Qed.

Lemma reclaim_spec i s : let s' := imr_lsm_reclaim_physical_zone_locked i s in
  rezoned s s' /\ (forall k, fwd s' k = fwd s k) /\ active_zone (alloc s') = active_zone (alloc s) /\
  (forall j, counters_of s' j = if decide (j = i) then (fun _ => (0, 0, fun _ => IMR_LSM_KEY_EMPTY)) <$> counters_of s j else counters_of s j).
Proof.
  cbv zeta. unfold imr_lsm_reclaim_physical_zone_locked. cbv zeta. set (s0 := upd_zone i _ s). set (s1 := imr_lsm_clear_zone_top_usage i s0).
  assert (rezoned s s0) as R0 by (by apply rezoned_upd). assert (labels s0 (imrsim_ptask_queue_zone_status_locked i s1)) as [R1 L1].
  { apply (labels_trans _ s1); [by apply labels_upd|apply labels_quiet, quiet_queue]. }
  split_and!; [by etransitivity| | |].
  - intros k. rewrite (relabels_fwd _ _ _ L1) by apply R1. apply fwd_pba; [|apply R0].
    intros j. unfold s0. rewrite zone_upd. destruct (decide (j = i)); [|done]. by destruct (zone j s).
  - rewrite (active_zhalf s1) by apply quiet_queue. unfold s1, imr_lsm_clear_zone_top_usage, s0. by rewrite !alloc_upd.
  - intros j. rewrite (counters_relabels _ _ _ L1). unfold s0. by rewrite (counters_upd i _ (fun _ => (0, 0, fun _ => IMR_LSM_KEY_EMPTY))).
Qed.

(** ** The layout after the publication *)

Lemma find_map {A B} (f : A -> B) (P : B -> bool) (Q : A -> bool) l :
  (forall x, x ∈ l -> P (f x) = Q x) -> List.find P (map f l) = f <$> List.find Q l.
Proof.
  intros E. induction l as [|x l IH]; [done|]. cbn. rewrite E by left. destruct (Q x); [done|]. apply IH. intros y Hy. apply E. by right.
Qed.
Lemma find_key_map k src dst t : find_key k (map (move_of src dst) t) = move_of src dst <$> entry_of k t.
Proof. by apply find_map. Qed.
Lemma find_to_map j src dst t : find_to j (map (move_of src dst) t) = move_of src dst <$> entry_to dst j t.
Proof. by apply find_map. Qed.

Lemma forallb_same {A} (f g : A -> bool) l : (forall x, f x = g x) -> forallb f l = forallb g l.
Proof. intros E. induction l as [|x l IH]; [done|]. cbn. by rewrite E, IH. Qed.

Section publication.
Context (H : newest_map) (p : zone_plan) (s : kstate).
Hypothesis (Hz : zones_ok s) (Hi : lsm_inv H s) (Hp : planned H p s).
Abbreviation src := (zp_source_zone p).
Abbreviation dst := (zp_dest_zone0 p).
Abbreviation t := (sb_table (zp_builder p)).
Abbreviation T := (plan_moves p).
Abbreviation L := (layout_of s).

Lemma plan_wins e : e ∈ t -> moves L src (move_of src dst e) = wins e s.
Proof.
  intros He. destruct (pd_entries _ _ _ Hp e He) as (_ & Hs & _). unfold moves, wins. cbn. rewrite <- Hs.
  destruct (fwd s (be_key e)) as [x|]; [|by rewrite bool_decide_false]. destruct (Z.eqb_spec x (be_source_pba e)) as [->|Hne].
  - by rewrite bool_decide_true.
  - rewrite bool_decide_false; [done|congruence].
Qed.
Lemma plan_length : lenZ T = lenZ t.
Proof. unfold lenZ. by rewrite length_map. Qed.
Lemma plan_nodup : NoDup (map be_key t).
Proof. pose proof (mo_keys _ _ _ _ _ (pd_moves _ _ _ Hp)) as Hk. by rewrite map_map in Hk. Qed.
Lemma plan_count : count (moves L src) T = count (fun e => wins e s) t.
Proof. rewrite count_map. apply count_ext. intros e He. by apply plan_wins. Qed.

Lemma plan_range e : e ∈ t -> 0 <= slot_of dst (be_pba e) < lenZ t.
Proof.
  intros He. rewrite <- plan_length. apply (to_range (IMR_NUMZONES s) L src dst T (pd_moves _ _ _ Hp) (move_of src dst e)). by apply elem_map.
Qed.

Lemma plan_placed s' : IMR_NUMZONES s' = IMR_NUMZONES s -> placed dst t s'.
Proof.
  intros En. pose proof (pd_moves _ _ _ Hp) as HM. pose proof (mo_len _ _ _ _ _ HM) as Hlen. rewrite plan_length in Hlen. split.
  - intros e He. unfold total_keys. rewrite En. exact (pd_keys _ _ _ Hp e He).
  - intros e He. destruct (pd_entries _ _ _ Hp e He) as (_ & _ & Hd). split; [done|]. pose proof (plan_range e He). lia.
  - apply plan_nodup.
  - pose proof (to_NoDup _ _ _ _ _ HM) as Hnd. by rewrite map_map in Hnd.
Qed.

(** The layout of a state whose zones were updated as the publication does. *)
Lemma publication_layout s' :
  (forall k, fwd s' k = match entry_of k t with Some e => if wins e s then Some (be_pba e) else fwd s k | None => fwd s k end) ->
  (forall i, i <> src -> i <> dst -> counters_of s' i = counters_of s i) ->
  (exists c, counters_of s' src = Some (0, 0, c)) ->
  (exists c, counters_of s' dst = Some (lenZ t, count (fun e => wins e s) t, c) /\
     forall j, c j = match entry_to dst j t with Some e => be_key e | None => IMR_LSM_KEY_EMPTY end) ->
  layout_eq (IMR_NUMZONES s) (ly_collect src dst T L) (layout_of s').
Proof.
  intros Hf Ho [cs Hs] (cd & Hd & Hcd). destruct (counters_layout _ _ _ _ _ Hs) as (S1 & S2 & _). destruct (counters_layout _ _ _ _ _ Hd) as (D1 & D2 & D3).
  pose proof (mo_ne _ _ _ _ _ (pd_moves _ _ _ Hp)) as Hne.
  assert (forall i, 0 <= i < IMR_NUMZONES s -> i <> src -> i <> dst ->
    ly_size (layout_of s') i = ly_size L i /\ ly_live (layout_of s') i = ly_live L i /\ forall j, ly_key (layout_of s') i j = ly_key L i j) as Hother.
  { intros i Hir H1 H2. pose proof (Ho i H1 H2) as E. rewrite (counters_at s i Hz Hir) in E. by apply counters_layout. }
  split; cbn [ly_collect ly_fwd ly_size ly_live ly_key].
  - intros k. change (ly_fwd (layout_of s') k) with (fwd s' k). rewrite Hf, find_key_map. destruct (entry_of k t) as [e|] eqn:E; [|done]. cbn [fmap option_fmap option_map].
    apply entry_of_Some in E as [He _]. rewrite (plan_wins e He). destruct (wins e s); [|done]. destruct (pd_entries _ _ _ Hp e He) as (_ & _ & Hde). by rewrite Hde at 1.
  - intros i Hir. destruct (decide (i = src)) as [->|H1]; [by rewrite upd_eq|]. rewrite upd_ne by done.
    destruct (decide (i = dst)) as [->|H2]; [by rewrite upd_eq, plan_length|]. rewrite upd_ne by done. by apply Hother.
  - intros i Hir. destruct (decide (i = src)) as [->|H1]; [by rewrite upd_eq|]. rewrite upd_ne by done.
    destruct (decide (i = dst)) as [->|H2]; [by rewrite upd_eq, plan_count|]. rewrite upd_ne by done. by apply Hother.
  - intros i j Hir Hj. destruct (decide (i = src)) as [->|H1]; [rewrite upd_eq in Hj; lia|].
    destruct (decide (i = dst)) as [->|H2]; [|rewrite upd_ne by done; by apply Hother].
    rewrite upd_eq, find_to_map, D3, Hcd. by destruct (entry_to dst j t).
Qed.

(** The zones are consistent again once the copy is released. *)
Lemma publication_zones s' :
  zshape s' -> IMR_NUMZONES s' = IMR_NUMZONES s -> layout_eq (IMR_NUMZONES s) (ly_collect src dst T L) (layout_of s') ->
  0 <= active_zone (alloc s') ->
  (active_zone (alloc s') < IMR_NUMZONES s' -> active_zone (alloc s') <> copy_source s' /\ active_zone (alloc s') <> copy_dest s') -> zones_ok s'.
Proof.
  intros Hs' En Hl Ha Hc. pose proof (pd_moves _ _ _ Hp) as HM. split; [apply Hs'| | |done|done].
  - rewrite En. eapply layout_ok_eq; [exact Hl|]. apply ly_collect_ok; [apply Hz|done].
  - intros i z j Ez Hj. pose proof (zone_in _ _ _ Hs' Ez) as Hir. rewrite En in Hir. pose proof (le_size _ _ _ Hl i Hir) as E1.
    pose proof (le_key _ _ _ Hl i j Hir) as E2. cbn [ly_size ly_key layout_of] in E1, E2. rewrite Ez in E1, E2. rewrite E1 in Hj. rewrite (E2 Hj). clear E1 E2.
    cbn [ly_collect ly_key ly_size] in *. destruct (decide (i = src)) as [->|H1]; [rewrite upd_eq in Hj; lia|]. rewrite upd_ne in Hj by done.
    destruct (decide (i = dst)) as [->|H2].
    + rewrite upd_eq in Hj. rewrite upd_eq, find_to_map. destruct (entry_to dst j t) as [e|] eqn:Ee; [|cbn; unfold IMR_LSM_KEY_EMPTY, U32_MAX; lia].
      cbn. unfold entry_to in Ee. apply find_some in Ee as [He%list_elem_of_In _]. pose proof (pd_keys _ _ _ Hp e He).
      destruct (total_keys_limit s (zones_shape _ Hz)) as [_ Hlim]. unfold IMR_LSM_KEY_EMPTY, U32_MAX in Hlim. lia.
    + rewrite upd_ne in Hj by done. rewrite upd_ne by done. destruct (zone_at s i (zones_shape _ Hz) Hir) as [z0 Ez0]. cbn in Hj |- *. rewrite Ez0 in Hj |- *. by apply (zk_keys _ Hz i z0 j).
Qed.

(** From the linked segment to the reclaimed source; [p'] is the plan without
    its builder. *)
Lemma publication_middle p' i s1 :
  zp_dest_zone0 p' = dst -> zp_live_entries p' = zp_live_entries p ->
  zhalf s1 = zhalf s -> same_rt (meta s) (meta s1) -> holds i 0 t s1 ->
  let s2 := upd_zone dst (set_z_key_map (fun _ => IMR_LSM_KEY_EMPTY))
    (imrsim_ptask_queue_zone_status_locked dst (imrsim_ptask_queue_zone_status_locked src s1)) in
  exists s3, commit_entries p' i (length t) 0 0 s2 = (s3, count (fun e => wins e s) t, 0) /\
    let s5 := imr_lsm_reclaim_physical_zone_locked src (seal_dest p' (count (fun e => wins e s) t) s3) in
    trunk s5 = trunk s1 /\ hp_next (hp s1) <= hp_next (hp s5) /\ env_same s s5 /\ zshape s5 /\
    layout_eq (IMR_NUMZONES s) (ly_collect src dst T L) (layout_of s5) /\
    (active_zone (alloc s5) = active_zone (alloc s) \/ active_zone (alloc s5) = dst) /\
    rt_wf (meta s5) /\ (calm t s = true -> rt_agrees (relocated H t s) (meta s5)).
Proof.
  intros Ed' El' Ez1 Srt Hh s2. pose proof (pd_moves _ _ _ Hp) as HM. pose proof (mo_dst _ _ _ _ _ HM) as Hd. pose proof (mo_src _ _ _ _ _ HM) as Hs. pose proof (mo_ne _ _ _ _ _ HM) as Hne.
  pose proof (mo_len _ _ _ _ _ HM) as Hlen. rewrite plan_length in Hlen. pose proof (zones_shape _ Hz) as Hsh. change TOTAL_ITEMS with 65536 in Hlen. pose proof (lenZ_nonneg t) as Hl0.
  set (s1' := imrsim_ptask_queue_zone_status_locked dst (imrsim_ptask_queue_zone_status_locked src s1)) in s2.
  assert (quiet s1 s1') as Q1 by (etransitivity; apply quiet_queue). clearbody s1'.
  assert (rezoned s1' s2) as R2 by (by apply rezoned_upd). assert (lsm_half s2 = lsm_half s1) as Eh by (rewrite (rz_lsm _ _ R2); apply Q1).
  assert (zhalf s1' = zhalf s) as Ez1' by (rewrite <- Ez1; apply Q1).
  assert (same_rt (meta s) (meta s2)) as Srt2.
  { pose proof (half_same_rt _ _ Eh) as [A1 A2 A3 A4]. destruct Srt as [B1 B2 B3 B4]. split; congruence. }
  assert (IMR_NUMZONES s2 = IMR_NUMZONES s) as En2 by (rewrite (rz_num _ _ R2); by apply num_zhalf).
  assert (env_same s s2) as Env2 by (etransitivity; [by apply env_zhalf|by apply env_rezoned]).
  assert (zshape s2) as Hsh2 by (apply (rezoned_shape _ _ R2), (zhalf_shape s); done).
  assert (forall k, fwd s2 k = fwd s k) as F2.
  { intros k. transitivity (fwd s1' k); [|apply fwd_zones; [intros; by apply zone_zhalf|by apply num_zhalf]]. apply fwd_pba; [|apply R2].
    intros j. unfold s2. rewrite zone_upd. destruct (decide (j = dst)); [|done]. by destruct (zone j s1'). }
  assert (forall j, counters_of s2 j = if decide (j = dst) then (fun '(a, b, _) => (a, b, fun _ => IMR_LSM_KEY_EMPTY)) <$> counters_of s j else counters_of s j) as K2.
  { intros j. unfold s2. rewrite (counters_upd dst _ (fun '(a, b, _) => (a, b, fun _ => IMR_LSM_KEY_EMPTY))) by done. by rewrite (counters_zhalf _ _ _ Ez1'). }
  assert (forall e, wins e s2 = wins e s) as Hw2 by (intros e; unfold wins; by rewrite F2).
  assert (active_zone (alloc s2) = active_zone (alloc s)) as Ea2 by (unfold s2; rewrite alloc_upd; by apply active_zhalf).
  assert (rt_wf (meta s2)) as Hwf2 by (eapply same_rt_wf; [exact Srt2|apply Hi]).
  destruct (commit_entries_spec p' i t 0 0 s2) as (s3 & E3 & D3); [by apply (holds_tables _ _ _ s1), Hh; apply tables_half|done|done|by rewrite Ed', En2|by rewrite Ed'; apply plan_placed|lia|lia|].
  assert (count (fun e => wins e s2) t = count (fun e => wins e s) t) as Ec by (apply count_ext; intros; apply Hw2).
  rewrite Ed' in D3. destruct D3 as [D1 D2 D3 D4 D5 D6]. exists s3. split; [by rewrite E3, Ec|]. clear E3.
  set (c := count (fun e => wins e s) t). destruct (seal_dest_spec p' c s3) as (R4 & F4 & K4 & A4). rewrite Ed' in K4, A4. set (s4 := seal_dest p' c s3) in *.
  destruct (reclaim_spec src s4) as (R5 & F5 & A5 & K5). set (s5 := imr_lsm_reclaim_physical_zone_locked src s4) in *. clearbody s4 s5.
  assert (rezoned s3 s5) as R35 by (by etransitivity). pose proof (half_same_rt _ _ (rz_lsm _ _ R35)) as Srt5.
  cbv zeta. split_and!.
  - rewrite (trunk_half s3 s5) by apply R35. rewrite (cm_trunk _ _ D1). by apply trunk_half.
  - assert (hp s5 = hp s3) as -> by exact (f_equal hp (rz_lsm _ _ R35)). assert (hp s1 = hp s2) as -> by exact (eq_sym (f_equal hp Eh)). apply D1.
  - etransitivity; [exact Env2|]. etransitivity; [apply D1|by apply env_rezoned].
  - apply (rezoned_shape _ _ R35), D1, Hsh2.
  - apply publication_layout.
    + intros k. rewrite F5, F4, D3. destruct (entry_of k t) as [e|]; [|apply F2]. rewrite Hw2. destruct (wins e s); [done|apply F2].
    + intros j H1 H2. rewrite K5, K4, D4, K2 by done. by rewrite !decide_False.
    + rewrite K5, K4, D4, K2 by done. rewrite (decide_True (P := src = src)) by done. rewrite !decide_False by done. rewrite (counters_at s src Hz Hs). by eexists.
    + destruct (D5 (ly_size L dst) (ly_live L dst) (fun _ => IMR_LSM_KEY_EMPTY)) as (c' & Ec' & Hc').
      { rewrite K2, decide_True, (counters_at s dst Hz Hd) by done. done. }
      exists c'. rewrite K5, K4, decide_False, decide_True, Ec' by done. cbn. split; [by rewrite El', (pd_count _ _ _ Hp)|done].
  - rewrite A5. destruct A4 as [->|[_ ->]]; [left; rewrite (cm_active _ _ D1); exact Ea2|by right].
  - eapply same_rt_wf; [exact Srt5|done].
  - intros Hcalm. assert (rt_agrees (relocated H t s2) (meta s3)) as Hr3.
    { apply D6.
      - intros k n. rewrite (srt_tree _ _ Srt2). apply Hi.
      - intros e r He Hr. rewrite Hw2. exact (pd_newest _ _ _ Hp e r He Hr).
      - rewrite <- Hcalm. unfold calm, tree_limit. rewrite (srt_tree _ _ Srt2), (srt_lru _ _ Srt2), (srt_limit _ _ Srt2). 
        f_equal; [apply forallb_same; intros; apply Hw2|]. f_equal. apply forallb_same. intros. by rewrite Hw2. }
    intros k n. rewrite (srt_tree _ _ Srt5). intros Hkn. rewrite <- (Hr3 k n Hkn). unfold relocated. destruct (entry_of k t) as [e|]; [|done]. by rewrite Hw2.
Qed.
End publication.

(** ** The whole publication *)

Lemma inv_trunk H s1 s' :
  lsm_ok H (levels (meta s1)) (gcore s1) (timestamp (meta s1)) -> initialized (meta s1) = true -> addr_ok (levels (meta s1)) (hp_next (hp s1)) ->
  trunk s' = trunk s1 -> hp_next (hp s1) <= hp_next (hp s') -> rt_wf (meta s') -> rt_agrees H (meta s') -> lsm_inv H s'.
Proof.
  intros Hok Hin Ha E Hh Hw Hr.
  assert (levels (meta s') = levels (meta s1)) as El by exact (f_equal (fun s => levels (meta s)) E).
  assert (gcore s' = gcore s1) as Eg by exact (f_equal (fun s => segments (meta s)) E).
  assert (timestamp (meta s') = timestamp (meta s1)) as Et by exact (f_equal (fun s => timestamp (meta s)) E).
  assert (initialized (meta s') = initialized (meta s1)) as Ei by exact (f_equal (fun s => initialized (meta s)) E).
  split; [by rewrite Ei|change (map seg_core (segments (meta s'))) with (gcore s'); by rewrite El, Eg, Et|rewrite El; by eapply addr_ok_mono|done|done].
Qed.

(** What the collection leaves behind when its publication succeeds. *)
Record collected (H : newest_map) (p : zone_plan) (s s' : kstate) : Prop := {
  co_env : env_same s s';
  co_shape : zshape s';
  co_layout : layout_eq (IMR_NUMZONES s) (ly_collect (zp_source_zone p) (zp_dest_zone0 p) (plan_moves p) (layout_of s)) (layout_of s');
  co_active : active_zone (alloc s') = active_zone (alloc s) \/ active_zone (alloc s') = zp_dest_zone0 p;
  co_time : timestamp (meta s') = timestamp (meta s);
  co_lsm : calm (sb_table (zp_builder p)) s = true -> lsm_inv (relocated H (sb_table (zp_builder p)) s) s';
}.

Lemma reshapes_meta {A} (f : metadata -> A) s s' gs :
  reshapes s s' gs -> (forall m, f (set_segments [] (set_segment_count 0 (set_next_segment_id 0 (meta_core m)))) = f m) -> f (meta s') = f (meta s).
Proof. intros [Hs _ _] Hf. pose proof (f_equal (fun s => f (meta s)) Hs) as E. unfold shell in E. cbn in E. by rewrite !Hf in E. Qed.

Lemma collected_end H p s s1 s5 s' :
  zones_ok s -> lsm_inv H s -> planned H p s ->
  (exists g, seg_ok g /\ sg_table g = sb_table (zp_builder p) /\ sg_level g = IMR_LSM_MAX_LEVEL /\ sg_retired g = false /\
    reshapes s s1 (gcore s ++ [set_sg_id (next_segment_id (meta s)) (seg_core g)])) \/ sb_table (zp_builder p) = [] /\ s1 = s ->
  trunk s5 = trunk s1 -> hp_next (hp s1) <= hp_next (hp s5) -> env_same s s5 -> zshape s5 ->
  layout_eq (IMR_NUMZONES s) (ly_collect (zp_source_zone p) (zp_dest_zone0 p) (plan_moves p) (layout_of s)) (layout_of s5) ->
  active_zone (alloc s5) = active_zone (alloc s) \/ active_zone (alloc s5) = zp_dest_zone0 p ->
  rt_wf (meta s5) -> (calm (sb_table (zp_builder p)) s = true -> rt_agrees (relocated H (sb_table (zp_builder p)) s) (meta s5)) ->
  keeps_rt s5 s' -> collected H p s s'.
Proof.
  intros Hz Hi Hp Hl E5 Hh5 Env Hsh Hlay Hact Hw Hr Hk. set (t := sb_table (zp_builder p)) in *.
  pose proof (keeps_rt_keeps _ _ Hk) as Hkk. pose proof (keeps_zhalf _ _ Hkk) as Ez. pose proof (trunk_keeps _ _ Hkk) as Et.
  assert (levels (meta s1) = levels (meta s) /\ timestamp (meta s1) = timestamp (meta s) /\ initialized (meta s1) = initialized (meta s) /\ hp_next (hp s) <= hp_next (hp s1)) as (M1 & M2 & M3 & M4).
  { destruct Hl as [(g & _ & _ & _ & _ & Hre)|[_ ->]]; [|done]. split_and!; [by apply (reshapes_meta levels s s1 _ Hre)|by apply (reshapes_meta timestamp s s1 _ Hre)|by apply (reshapes_meta initialized s s1 _ Hre)|apply Hre]. }
  split.
  - etransitivity; [exact Env|by apply env_zhalf].
  - by eapply zhalf_shape.
  - by rewrite (layout_of_zhalf _ _ Ez).
  - by rewrite (active_zhalf _ _ Ez).
  - rewrite <- M2. rewrite E5 in Et. exact (f_equal (fun s => timestamp (meta s)) Et).
  - intros Hcalm. apply (inv_trunk _ s1).
    + rewrite M1, M2. destruct Hl as [(g & Hg & Ht & Hlv & Hret & Hre)|[Ht ->]].
      * rewrite (rs_segs _ _ _ Hre). apply lsm_ok_relocated; try done.
        -- apply (plan_nodup H p s Hp).
        -- intros e r He Hr'. exact (pd_newest _ _ _ Hp e r He Hr').
        -- intros e He Hwin. apply (pd_stale _ _ _ Hp e He). unfold wins in Hwin. by apply bool_decide_eq_false in Hwin.
        -- apply Hi.
        -- by apply seg_ok_id, seg_ok_core.
        -- apply (pd_time _ _ _ Hp).
        -- intros k r. change (sg_table (set_sg_id (next_segment_id (meta s)) (seg_core g))) with (map entry_core (sg_table g)). rewrite Ht. split.
           ++ intros (e & (e0 & -> & He0)%list_elem_of_fmap & Hk' & Hr'). by exists e0.
           ++ intros (e & He & Hk' & Hr'). exists (entry_core e). split; [by apply elem_map|done].
      * unfold t in Ht. rewrite Ht. exact (inv_ok _ _ Hi).
    + rewrite M3. apply Hi.
    + rewrite M1. eapply addr_ok_mono; [exact M4|apply Hi].
    + by rewrite Et.
    + etransitivity; [exact Hh5|apply Hk].
    + eapply same_rt_wf; [by apply keeps_rt_same|done].
    + intros k n. rewrite (srt_tree _ _ (keeps_rt_same _ _ Hk)). by apply Hr.
Qed.

Lemma collected_quiet H p s s1 s' : collected H p s s1 -> quiet s1 s' -> collected H p s s'.
Proof.
  intros [C1 C2 C3 C4 C5 C6] Q. pose proof (q_zone _ _ Q) as Ez. split.
  - etransitivity; [exact C1|by apply env_zhalf].
  - by eapply zhalf_shape.
  - by rewrite (layout_of_zhalf _ _ Ez).
  - by rewrite (active_zhalf _ _ Ez).
  - by rewrite (half_timestamp _ _ (q_lsm _ _ Q)).
  - intros Hc. apply (half_inv _ s1); [apply Q|by apply C6].
Qed.

Lemma keeps_refresh s : keeps_rt s (imr_lsm_update_segment_compaction_selection_locked (imr_lsm_refresh_max_obsolete_ratio_locked s)).
Proof. apply core_keeps. by rewrite core_select, core_refresh_max. Qed.
Lemma quiet_result p e s : quiet s (imr_lsm_record_zone_compaction_result p e s).
Proof. apply quiet_st_sets. Qed.

Lemma keeps_account_output o s : keeps_rt s (account_output o s).
Proof.
  unfold account_output. destruct o as [i|]; [|apply keeps_refresh]. pose proof (keeps_account_new i s) as Hk.
  destruct (imr_lsm_account_new_segment_invalid_stats_locked i s) as [s1 [|]]; [|done]. etransitivity; [exact Hk|apply keeps_refresh].
Qed.
Lemma quiet_count_published p c s : quiet s (count_published p c s).
Proof. unfold count_published. etransitivity; [|apply quiet_clear_candidate]. etransitivity; [|apply quiet_result]. by split. Qed.

Section linked.
Context (H : newest_map) (p : zone_plan) (s : kstate).
Hypothesis (Hz : zones_ok s) (Hi : lsm_inv H s) (Hp : planned H p s).
Abbreviation t := (sb_table (zp_builder p)).

(** [p'] is the plan without its builder, [s1] the state with its segment. *)
Lemma publish_linked_spec p' o s1 i :
  zp_source_zone p' = zp_source_zone p -> zp_dest_zone0 p' = zp_dest_zone0 p -> zp_live_entries p' = zp_live_entries p ->
  zhalf s1 = zhalf s -> same_rt (meta s) (meta s1) -> holds i 0 t s1 ->
  (exists g, seg_ok g /\ sg_table g = t /\ sg_level g = IMR_LSM_MAX_LEVEL /\ sg_retired g = false /\
    reshapes s s1 (gcore s ++ [set_sg_id (next_segment_id (meta s)) (seg_core g)])) \/ t = [] /\ s1 = s ->
  match o with Some j => j = i /\ (exists g, seg i s1 = Some g /\ sg_table g = t) | None => t = [] end ->
  exists s', publish_linked p' o s1 = (s', p', 0) /\ collected H p s s'.
Proof.
  intros Es Ed El Ez Srt Hh Hg Ho. destruct (publication_middle H p s Hz Hi Hp p' i s1 Ed El Ez Srt Hh) as (s3 & E3 & M1 & M2 & M3 & M4 & M5 & M6 & M7 & M8).
  unfold publish_linked. rewrite Es, Ed. cbv zeta. set (s2 := upd_zone _ _ _) in *.
  assert ((match o with Some i => commit_entries p' i (match seg i s2 with Some g => length (sg_table g) | None => 0%nat end) 0 0 s2 | None => (s2, 0, 0) end) =
    (s3, count (fun e => wins e s) t, 0)) as ->.
  { destruct o as [j|].
    - destruct Ho as [-> (g & Eg & Et)]. assert (segments (meta s2) = segments (meta s1)) as Eseg.
      { assert (lsm_half s2 = lsm_half s1) as E2.
        { unfold s2. etransitivity; [by apply rz_lsm, rezoned_upd|]. rewrite (q_lsm _ _ (quiet_queue _ _)). apply quiet_queue. }
        exact (f_equal (fun s => segments (meta s)) E2). }
      unfold seg in Eg |- *. rewrite Eseg, Eg, Et. exact E3.
    - rewrite Ho in E3 |- *. exact E3. }
  change (negb (0 =? 0)) with false. cbv iota. set (s5 := imr_lsm_reclaim_physical_zone_locked _ _) in *. clearbody s5 s2.
  eexists. split; [reflexivity|]. apply (collected_quiet H p s (account_output o s5)); [|apply quiet_count_published].
  exact (collected_end H p s s1 s5 _ Hz Hi Hp Hg M1 M2 M3 M4 M5 M6 M7 M8 (keeps_account_output o s5)).
Qed.
End linked.

Lemma publish_zone_spec H p s :
  zones_ok s -> lsm_inv H s -> planned H p s ->
  let '(s', p', ret) := imr_lsm_publish_zone_compaction_locked p s in
  ret = 0 /\ collected H p s s' \/
  (ret = - ENODEV \/ ret = - ENOMEM) /\ zhalf s' = zhalf s /\ lsm_inv H s' /\ timestamp (meta s') = timestamp (meta s).
Proof.
  intros Hz Hi Hp. unfold imr_lsm_publish_zone_compaction_locked. destruct (_ || _); [right; split_and!; [by left|done|done|done]|].
  destruct (negb (lenZ (sb_table (zp_builder p)) =? 0)) eqn:Et.
  - assert (sb_table (zp_builder p) <> []) as Hne by (intros E; rewrite E in Et; done).
    pose proof (link_spec H (zp_builder p) s (pd_builder _ _ _ Hp) Hne (pd_mixed _ _ _ Hp Hne) Hi) as Hl.
    destruct (imr_lsm_append_segment_with_accounting_locked _ _ _ _ s) as [[s1 b1] ret].
    destruct Hl as [(-> & Hk)|(-> & g & g' & Hg & Hgt & Hlv & Hret & Hre & Hseg & Htab)].
    { change (negb (- ENOMEM =? 0)) with true. cbv iota. right. split_and!; [by right|by apply keeps_zhalf, keeps_rt_keeps|by eapply inv_keeps_rt|]. apply keeps_timestamp. by apply keeps_rt_keeps. }
    change (negb (0 =? 0)) with false. cbv iota zeta. set (i := pred (length (segments (meta s1)))).
    assert (seg i s1 = Some g') as Esi.
    { unfold seg, i. rewrite Hseg, length_app. cbn. replace (pred _) with (length (segments (meta s)) + 0)%nat by lia. by rewrite lookup_app_r, Nat.add_0_r, Nat.sub_diag by lia. }
    destruct (publish_linked_spec H p s Hz Hi Hp (set_zp_builder b1 p) (Some i) s1 i eq_refl eq_refl eq_refl) as (s' & -> & Hc); [| | | | |by left].
    + exact (shell_zhalf _ _ (rs_shell _ _ _ Hre)).
    + split; by apply (reshapes_meta _ s s1 _ Hre).
    + intros x e Hx. exists e. split; [|done]. unfold entry_at. cbn [fst snd]. by rewrite Esi, Htab.
    + left. by exists g.
    + split; [done|]. by exists g'.
  - assert (sb_table (zp_builder p) = []) as Enil. { destruct (sb_table (zp_builder p)) as [|x l]; [done|]. rewrite lenZ_cons in Et. pose proof (lenZ_nonneg l). lia. }
    destruct (publish_linked_spec H p s Hz Hi Hp p None s 0%nat eq_refl eq_refl eq_refl eq_refl) as (s' & -> & Hc); [by split|rewrite Enil; by intros x e|by right|done|by left].
Qed.

(** ** Begin and finish *)

(** The collector's reservation apart, [s'] has the environment of [s]. *)
Record env_kept (s s' : kstate) : Prop := {
  ek_num : IMR_NUMZONES s' = IMR_NUMZONES s;
  ek_target : zh_target (zhalf s') = zh_target (zhalf s);
  ek_inflight : append_writes_inflight s' = append_writes_inflight s;
  ek_cfg : cfg s' = cfg s;
}.
Lemma env_same_kept s s' : env_same s s' -> env_kept s s'.
Proof. intros []. by split. Qed.

Lemma layout_reserve a b s : layout_of (imr_lsm_reserve_zone_copy_locked a b s) = layout_of s.
Proof. reflexivity. Qed.
Lemma layout_release s : layout_of (imr_lsm_release_zone_copy_locked s) = layout_of s.
Proof. reflexivity. Qed.

Lemma quiet_failure p ret s : quiet s (imr_lsm_record_zone_compaction_failure_locked p ret s).
Proof. unfold imr_lsm_record_zone_compaction_failure_locked. etransitivity; [|apply quiet_result]. by split. Qed.

Lemma compact_zone_begin_spec H src s :
  zones_ok s -> lsm_inv H s -> 1 <= imr_lsm_compaction_threshold_locked s <= U32_MAX -> timestamp (meta s) + TOTAL_ITEMS + 1 < 2 ^ 32 ->
  let '(s', r) := compact_zone_begin src s in
  zones_ok s' /\ lsm_inv H s' /\ layout_of s' = layout_of s /\ env_kept s s' /\
  timestamp (meta s) <= timestamp (meta s') <= timestamp (meta s) + TOTAL_ITEMS /\
  match r with
  | Ok p => append_writes_inflight s <= 0 /\ zp_source_zone p = src /\ copy_active s' = true /\ copy_source s' = src /\
      copy_dest s' = zp_dest_zone0 p /\ planned H p s'
  | Fail e => e ∈ [- EINVAL; - ENOSPC; - ENODEV; - ENOMEM; - EBUSY] /\ zh_copy (zhalf s') = zh_copy (zhalf s)
  end.
Proof.
  intros Hz Hi Hth Hts. unfold compact_zone_begin. change TOTAL_ITEMS with 65536 in *.
  destruct (negb (imrsim_target_ready_locked s)); [split_and!; try done; try lia; right; right; by left|].
  destruct (append_writes_inflight s >? 0) eqn:Efl; [split_and!; try done; try lia; do 4 right; by left|].
  rewrite ensure_initialized_id by apply Hi. pose proof (collect_prepare_spec H src s Hz Hi Hth ltac:(change TOTAL_ITEMS with 65536; lia)) as Hpr.
  destruct (imr_lsm_prepare_zone_compaction_locked src s) as [[s1 p] ret]. destruct Hpr as (Ez & Hi1 & Ht & Hret & Hok). change TOTAL_ITEMS with 65536 in *.
  destruct (ret =? 0) eqn:Er; cbn [negb].
  - destruct (Hok ltac:(lia)) as (Hp & Hsrc & Hact & Hdact). rewrite Hsrc. assert (0 < IMR_NUMZONES s1 < 2 ^ 32) as Hn.
    { pose proof (mo_src _ _ _ _ _ (pd_moves _ _ _ Hp)). pose proof (lo_num _ _ (zk_layout _ (zones_ok_zhalf _ _ Ez Hz))). lia. }
    split_and!; try done; try lia.
    + destruct (zones_ok_zhalf _ _ Ez Hz) as [Z1 Z2 Z3 Z4 Z5]. split; try done. intros _. cbn. rewrite (active_zhalf _ _ Ez). split; congruence.
    + destruct Hi1 as [I1 I2 I3 I4 I5]. by split.
    + rewrite layout_reserve. by apply layout_of_zhalf.
    + destruct (env_zhalf _ _ Ez) as [A1 A2 A3 A4 A5]. by split.
    + cbn. lia.
    + cbn. lia.
    + destruct Hp as [P1 P2 P3 PM P4 P5 P6 P7 PK P8]. by split.
  - pose proof (quiet_failure p ret s1) as Q. set (s2 := imr_lsm_record_zone_compaction_failure_locked p ret s1) in *. clearbody s2.
    assert (zhalf s2 = zhalf s) as E2 by (rewrite <- Ez; apply Q). rewrite (half_timestamp _ _ (q_lsm _ _ Q)). split_and!; try lia.
    + by apply (zones_ok_zhalf s).
    + apply (half_inv _ s1); [apply Q|done].
    + by apply layout_of_zhalf.
    + by apply env_same_kept, env_zhalf.
    + apply elem_of_cons in Hret as [->|Hret]; [done|]. repeat (apply elem_of_cons in Hret as [->|Hret]; [by repeat (left || right)|]). by apply elem_of_nil in Hret.
    + exact (f_equal zh_copy E2).
Qed.

(** No zone is reserved for a copy. *)
Definition unreserved (s : kstate) : Prop := copy_source s = IMR_LSM_ZONE_COMPACTION_NONE /\ copy_dest s = IMR_LSM_ZONE_COMPACTION_NONE.

Lemma compact_zone_finish_spec H p ret s :
  zones_ok s -> lsm_inv H s -> planned H p s -> copy_source s = zp_source_zone p -> copy_dest s = zp_dest_zone0 p ->
  let '(s', r) := compact_zone_finish p ret s in
  zones_ok s' /\ env_kept s s' /\ timestamp (meta s') = timestamp (meta s) /\ unreserved s' /\
  (r = 0 /\ ret = 0 /\
   layout_eq (IMR_NUMZONES s) (ly_collect (zp_source_zone p) (zp_dest_zone0 p) (plan_moves p) (layout_of s)) (layout_of s') /\
   (calm (sb_table (zp_builder p)) s = true -> lsm_inv (relocated H (sb_table (zp_builder p)) s) s') \/
   r <> 0 /\ layout_of s' = layout_of s /\ lsm_inv H s').
Proof.
  intros Hz Hi Hp Hcs Hcd. unfold compact_zone_finish.
  assert (forall s1, zhalf s1 = zhalf s -> zones_ok (imr_lsm_release_zone_copy_locked s1)) as Hrel.
  { intros s1 E. destruct (zones_ok_zhalf _ _ E Hz) as [Z1 Z2 Z3 Z4 Z5]. split; try done. cbn. pose proof (lo_num _ _ Z2). unfold IMR_LSM_ZONE_COMPACTION_NONE, U32_MAX. lia. }
  assert (forall r p' s1, r <> 0 -> zhalf s1 = zhalf s -> lsm_inv H s1 -> timestamp (meta s1) = timestamp (meta s) ->
    let s' := imr_lsm_release_zone_copy_locked (imr_lsm_record_zone_compaction_failure_locked p' r s1) in
    zones_ok s' /\ env_kept s s' /\ timestamp (meta s') = timestamp (meta s) /\ unreserved s' /\ layout_of s' = layout_of s /\ lsm_inv H s') as Hfail.
  { intros r p' s1 Hr E1 I1 T1. pose proof (quiet_failure p' r s1) as Q. set (s2 := imr_lsm_record_zone_compaction_failure_locked p' r s1) in *. clearbody s2.
    assert (zhalf s2 = zhalf s) as E2 by (rewrite <- E1; apply Q). cbv zeta. split_and!.
    - by apply Hrel.
    - destruct (env_zhalf _ _ E2) as [A1 A2 A3 A4 A5]. by split.
    - rewrite <- T1. exact (half_timestamp _ _ (q_lsm _ _ Q)).
    - by split.
    - rewrite layout_release. by apply layout_of_zhalf.
    - pose proof (half_inv H _ _ (q_lsm _ _ Q) I1) as [J1 J2 J3 J4 J5]. by split. }
  destruct (ret =? 0) eqn:Er.
  2: { rewrite Er. cbn [negb]. destruct (Hfail ret p s ltac:(lia) eq_refl Hi eq_refl) as (? & ? & ? & ? & ? & ?). split_and!; try done. right. split_and!; [lia|done|done]. }
  pose proof (publish_zone_spec H p s Hz Hi Hp) as Hpub. destruct (imr_lsm_publish_zone_compaction_locked p s) as [[s1 p1] r].
  destruct Hpub as [(-> & Hc)|(Hr & E1 & I1 & T1)].
  - change (negb (0 =? 0)) with false. change (0 =? 0) with true. cbv iota. set (s2 := imr_lsm_release_zone_copy_locked s1).
    pose proof (quiet_candidate s2) as Q. set (s3 := imr_lsm_record_zone_compaction_candidate_locked s2) in *. clearbody s3. destruct Hc as [C1 C2 C3 C4 C5 C6].
    assert (zones_ok s2) as Hz2.
    { assert (layout_of s2 = layout_of s1) as E by reflexivity. apply (publication_zones H p s Hz Hp s2); [|apply C1|by rewrite E| |].
      - destruct C2 as [X1 X2]. by split.
      - change (alloc s2) with (alloc s1). pose proof (mo_dst _ _ _ _ _ (pd_moves _ _ _ Hp)). pose proof (zk_active _ Hz). destruct C4 as [->| ->]; lia.
      - change (alloc s2) with (alloc s1). change (IMR_NUMZONES s2) with (IMR_NUMZONES s1). cbn. pose proof (zs_num _ C2). unfold IMR_LSM_ZONE_COMPACTION_NONE, U32_MAX. lia. }
    split_and!.
    + apply (zones_ok_zhalf s2); [apply Q|done].
    + pose proof (env_zhalf _ _ (q_zone _ _ Q)) as [A1 A2 A3 A4 A5]. destruct C1 as [B1 B2 B3 B4 B5]. split.
      * rewrite A1. exact B1.
      * rewrite A3. exact B3.
      * rewrite A4. exact B4.
      * rewrite A5. exact B5.
    + rewrite (half_timestamp _ _ (q_lsm _ _ Q)). exact C5.
    + unfold unreserved. destruct (copy_zhalf _ _ (q_zone _ _ Q)) as (_ & -> & ->). done.
    + left. split_and!; [done|lia|rewrite (layout_of_zhalf _ _ (q_zone _ _ Q)); exact C3|]. intros Hcalm. apply (half_inv _ s2); [apply Q|].
      destruct (C6 Hcalm) as [J1 J2 J3 J4 J5]. by split.
  - assert (r <> 0) as Hr0 by (destruct Hr as [->| ->]; done). replace (r =? 0) with false by lia. cbn [negb].
    destruct (Hfail r p1 s1 Hr0 E1 I1 T1) as (? & ? & ? & ? & ? & ?). split_and!; try done. by right.
Qed.
