(* ===== verification/ImrCold.v ===== *)
(** A target whose LSM metadata has not been initialised yet, as after loading a
    persisted state: the operations that need the metadata initialise it first,
    and the others behave as with empty metadata. *)

From S2P Require Import Prelude StdMap ImrPrelude ImrGeometry ImrBloom ImrState ImrReadTree ImrLevels ImrSegment ImrPlacement ImrAccounting ImrCore ImrLsm ImrLsmInv ImrLsmOps ImrCompaction ImrBuild ImrPlan ImrPublish ImrPhases ImrSystem ImrZones ImrGc ImrLayout ImrZoneFrame ImrZoneInv ImrZoneOps ImrGcPlan ImrGcSpec ImrGcPublish.

(** ** Initialisation *)

Definition released_meta : metadata := meta (imr_lsm_release_metadata_locked static_state).
Definition init_meta : metadata :=
  fold_left (fun m f => set_stats (set_stat f U32_MAX (stats m)) m) none_stats
    (set_zone_compaction_auto_pending_zone IMR_LSM_ZONE_COMPACTION_NONE (set_lowest_unnecessary_level (-1) (set_base_level IMR_LSM_MAX_LEVEL
      (set_active_write_level 0 (set_timestamp 0 (set_zone_compaction_auto_run true (set_initialized true released_meta))))))).
Definition next_epoch (s : kstate) : Z := let epoch := u64 (metadata_epoch s + 1) in if epoch =? 0 then u64 (epoch + 1) else epoch.
Definition awaken (s : kstate) : kstate := set_meta init_meta (set_metadata_epoch (next_epoch s) s).

Lemma release_eq s : imr_lsm_release_metadata_locked s = set_meta released_meta (set_metadata_epoch (next_epoch s) s).
Proof. reflexivity. Qed.
Lemma fold_st_set_meta l v : forall m s,
  fold_left (fun s f => st_set f v s) l (set_meta m s) = set_meta (fold_left (fun m f => set_stats (set_stat f v (stats m)) m) l m) s.
Proof. induction l as [|f l IH]; intros m s; [done|]. cbn [fold_left]. by rewrite <- IH. Qed.
Lemma initialize_eq s : imr_lsm_initialize_metadata_locked s = awaken s.
Proof. unfold imr_lsm_initialize_metadata_locked, awaken, init_meta. cbv zeta. rewrite release_eq, <- fold_st_set_meta. reflexivity. Qed.

Lemma init_meta_fields : levels init_meta = replicate 7 empty_level /\ initialized init_meta = true /\ timestamp init_meta = 0.
Proof. by vm_compute. Qed.
Global Opaque init_meta.

Lemma ensure_cases s :
  initialized (meta s) = true /\ ensure_initialized s = s \/ initialized (meta s) = false /\ ensure_initialized s = awaken s.
Proof. unfold ensure_initialized. rewrite initialize_eq. destruct (initialized (meta s)); [by left|by right]. Qed.

Lemma ensure_idem s : ensure_initialized (ensure_initialized s) = ensure_initialized s.
Proof. destruct (ensure_cases s) as [[E ->]|[_ ->]]; [by apply ensure_initialized_id|apply ensure_initialized_id, init_meta_fields]. Qed.
Lemma ensure_zhalf s : zhalf (ensure_initialized s) = zhalf s.
Proof. by destruct (ensure_cases s) as [[_ ->]|[_ ->]]. Qed.
Lemma ensure_hp s : hp (ensure_initialized s) = hp s.
Proof. by destruct (ensure_cases s) as [[_ ->]|[_ ->]]. Qed.

(** ** The invariant of the LSM, once it is initialised *)

Record awake (H : newest_map) (s : kstate) : Prop := {
  aw_inv : lsm_inv H (ensure_initialized s);
  aw_time : timestamp (meta (ensure_initialized s)) = timestamp (meta s);
}.

Lemma awake_lsm H s : lsm_inv H s -> awake H s.
Proof. intros Hi. split; by rewrite ensure_initialized_id by apply Hi. Qed.
Lemma awake_hot H s : initialized (meta s) = true -> awake H s -> lsm_inv H s.
Proof. intros E [Hi _]. by rewrite ensure_initialized_id in Hi. Qed.
Lemma hot_lsm H s : lsm_inv H s -> initialized (meta s) = false -> False.
Proof. intros [E _ _ _ _]. by rewrite E. Qed.
Lemma awake_ensure H s : awake H s -> awake H (ensure_initialized s).
Proof. intros [Hi _]. by apply awake_lsm. Qed.

(** The metadata of a cold target does not matter. *)
Lemma awaken_inv H s s' : lsm_inv H (awaken s) -> lsm_inv H (awaken s').
Proof.
  intros [I1 I2 I3 I4 I5]. split; [exact I1|exact I2| |exact I4|exact I5]. intros l Hl. cbn in Hl. rewrite (proj1 init_meta_fields) in Hl. apply elem_of_replicate in Hl as [-> _].
  cbn. split; [constructor|by intros n ?%elem_of_nil].
Qed.
Lemma awake_frame H s s' :
  initialized (meta s') = initialized (meta s) -> timestamp (meta s') = timestamp (meta s) -> (lsm_inv H s -> lsm_inv H s') -> awake H s -> awake H s'.
Proof.
  intros Ei Et Hw [Hi Ht]. destruct (ensure_cases s) as [[E1 E2]|[E1 E2]]; rewrite E2 in Hi, Ht.
  - by apply awake_lsm, Hw.
  - destruct (ensure_cases s') as [[E3 _]|[_ E4]]; [congruence|]. split; rewrite E4; [by apply (awaken_inv H s)|]. by rewrite Et.
Qed.

Lemma half_initialized s s' : lsm_half s' = lsm_half s -> initialized (meta s') = initialized (meta s).
Proof. intros E. exact (f_equal (fun s => initialized (meta s)) E). Qed.
Lemma awake_quiet H s s' : quiet s s' -> awake H s -> awake H s'.
Proof.
  intros [Q _]. apply awake_frame; [by apply half_initialized|by apply half_timestamp|by apply half_inv].
Qed.

(** ** Operations that initialise the metadata first *)

Lemma record_write_wake s : imr_lsm_record_logical_write s = imr_lsm_record_logical_write (ensure_initialized s).
Proof. unfold imr_lsm_record_logical_write. by rewrite ensure_idem. Qed.

Lemma write_rule_wake lba sectors s :
  imrsim_active_write_rule_check lba sectors s = (s, Fail IMR_ERR_WRITE_ALIGN) \/
  imrsim_active_write_rule_check lba sectors s = imrsim_active_write_rule_check lba sectors (ensure_initialized s).
Proof. unfold imrsim_active_write_rule_check. destruct (_ || _); [by left|right]. by rewrite record_write_wake. Qed.

Lemma delete_locked_wake key s : imr_lsm_delete_locked key s = imr_lsm_delete_locked key (ensure_initialized s).
Proof. unfold imr_lsm_delete_locked. by rewrite ensure_idem. Qed.

Lemma delete_wake key s :
  (exists e, e <> 0 /\ imrsim_lsm_delete_key_locked key s = (s, e)) \/
  imrsim_lsm_delete_key_locked key s = imrsim_lsm_delete_key_locked key (ensure_initialized s).
Proof.
  destruct (ensure_cases s) as [[_ E]|[_ E]]; [rewrite E; by right|]. unfold imrsim_lsm_delete_key_locked. cbv zeta.
  rewrite (delete_locked_wake key s), E. change (imrsim_target_ready_locked (awaken s)) with (imrsim_target_ready_locked s).
  change (IMR_NUMZONES (awaken s)) with (IMR_NUMZONES s). destruct (_ || _); [left; by exists IMR_ERR_OUT_RANGE|]. destruct (_ >=? _); [left; by exists IMR_ERR_OUT_RANGE|].
  change (imr_lsm_forward_map_lookup_locked key (awaken s)) with (imr_lsm_forward_map_lookup_locked key s).
  change (zone ?i (awaken s)) with (zone i s). destruct (match imr_lsm_forward_map_lookup_locked key s with Some _ => _ || _ | None => false end);
    [left; by exists (- EUCLEAN)|by right].
Qed.

Lemma begin_wake src s :
  (exists e, compact_zone_begin src s = (s, Fail e)) \/ compact_zone_begin src s = compact_zone_begin src (ensure_initialized s).
Proof.
  destruct (ensure_cases s) as [[_ E]|[_ E]]; [rewrite E; by right|]. unfold compact_zone_begin. rewrite ensure_idem, E.
  change (imrsim_target_ready_locked (awaken s)) with (imrsim_target_ready_locked s). change (append_writes_inflight (awaken s)) with (append_writes_inflight s).
  destruct (negb _); [left; by eexists|]. destruct (_ >? _); [left; by eexists|by right].
Qed.

Lemma prepare_wake automatic lv s : initialized (meta s) = false ->
  compaction_prepare automatic lv s = (s, Fail (- ENODEV)) \/ compaction_prepare automatic lv s = compaction_prepare automatic lv (ensure_initialized s).
Proof.
  intros Ec. destruct (ensure_cases s) as [[? _]|[_ E]]; [congruence|]. unfold compaction_prepare. rewrite ensure_idem, Ec, E.
  change (imrsim_target_ready_locked (awaken s)) with (imrsim_target_ready_locked s). change (output_bdev (awaken s)) with (output_bdev s).
  change (initialized (meta (awaken s))) with (initialized init_meta). rewrite (proj1 (proj2 init_meta_fields)).
  destruct (_ || _); [by left|]. destruct automatic; [by left|by right].
Qed.

(** ** Operations that do without *)

Lemma read_cold k s : initialized (meta s) = false -> quiet s (imr_lsm_read k s).1 /\ keeps s (imr_lsm_read k s).1 /\ (imr_lsm_read k s).2 = LOOKUP_MISS.
Proof.
  intros E. unfold imr_lsm_read. cbv zeta. change (initialized (meta (st_inc "read_lookup_count" s))) with (initialized (meta s)). rewrite E. cbn [negb fst snd].
  split_and!; [etransitivity; apply quiet_st_inc| |done]. by apply keeps_rt_keeps, core_keeps.
Qed.

(** A cold target is in the phase [Idle]. *)
Lemma step_cold s e o s' ph :
  initialized (meta s) = false -> match e with Write _ _ _ | Delete _ => False | _ => True end -> step (s, Idle) e o (s', ph) ->
  ph = Idle /\ quiet s s' \/ step (ensure_initialized s, Idle) e o (s', ph).
Proof.
  intros Ec He Hst. destruct (ensure_cases s) as [[? _]|[_ E]]; [congruence|].
  inversion Hst as [| |s0 ph0 key s1 r E1|s0 ph0 run s1 ret E1|s0 ph0 limit s1 ret Hl E1|s0 au lv s1 err Hl E1|s0 au lv s1 Hl E1|s0 au lv s1 p Hl E1| | |]; subst; try done.
  - left. destruct (read_cold key s Ec) as (Q & _ & _). by rewrite E1 in Q.
  - left. unfold imr_lsm_debugfs_clear_read_tree_write in E1. destruct (run =? 0); [by injection E1 as <- <-|]. destruct (negb _); [by injection E1 as <- <-|].
    rewrite Ec in E1. by injection E1 as <- <-.
  - unfold imr_lsm_debugfs_read_tree_limit_write in E1. destruct (limit >? _) eqn:El; [left; by injection E1 as <- <-|]. cbv zeta in E1.
    destruct (negb _) eqn:Er in E1; [left; by injection E1 as <- <-|]. right. constructor; [done|].
    unfold imr_lsm_debugfs_read_tree_limit_write. rewrite El. cbv zeta. rewrite ensure_idem, E. change (imrsim_target_ready_locked (awaken s)) with (imrsim_target_ready_locked s).
    rewrite Er. by rewrite E in E1.
  - destruct (prepare_wake au lv s Ec) as [Ep|Ep]; rewrite Ep in E1; [left; by injection E1 as <- <-|right; by constructor].
  - destruct (prepare_wake au lv s Ec) as [Ep|Ep]; rewrite Ep in E1; [done|right; by constructor].
  - destruct (prepare_wake au lv s Ec) as [Ep|Ep]; rewrite Ep in E1; [done|right; by constructor].
Qed.
