(* ===== verification/ImrDisk.v ===== *)
(** The target as a disk: bios, completions, partial I/O, deletions, the read
    tree controls, level compaction and zone collection interleaved, against a
    disk whose sectors hold the last completed write. *)

From S2P Require Import Prelude StdMap ImrPrelude ImrGeometry ImrBloom ImrState ImrReadTree ImrLevels ImrSegment ImrPlacement ImrAccounting ImrCore ImrLsm ImrLsmInv ImrLsmOps ImrCompaction ImrBuild ImrPlan ImrPublish ImrPhases ImrSystem ImrZones ImrGc ImrIo ImrLayout ImrZoneFrame ImrZoneInv ImrZoneOps ImrGcPlan ImrGcSpec ImrGcPublish.

(** ** The system *)

(** A remapped write between [imrsim_map] and [imrsim_end_io]. *)
Record flight := MkFlight { fl_id : nat; fl_key : Z; fl_sector : Z; fl_data : block }.

(** Who holds [imr_lsm_compaction_lock]: a level compaction, or a collection
    before its page is allocated, with the entries it has yet to copy, or with the
    result of its copy. *)
Inductive worker :=
| Compacting (ph : phase)
| Reserved (p : zone_plan)
| Copying (p : zone_plan) (todo : list block_entry)
| Copied (p : zone_plan) (ret : Z).

Record disk := MkDisk {
  dk_state : kstate;
  dk_device : device;
  dk_flights : list flight;
  dk_next : nat;
  dk_worker : worker;
}.

(** What an observer sees of a step. *)
Inductive label :=
| Silent
| Submitted (id : nat) (lba : Z) (data : block)
| Landed (id : nat) (ok : bool)
| ReadBio (lba : Z) (data : block)
| Discarded (lba sectors : Z) (ok : bool)
| Deleted (key ret : Z)
| PartialRead (lba : Z) (data : list Z)
| PartialWrite (lba : Z) (data : list Z) (ret : Z)
| Collected (calm : bool).

Section system.
(** [ti->len] and the out-of-policy flag for reads. *)
Context (len : Z) (policy_rflag : bool).

(** A bio through [imrsim_map]. A remapped read is served at once; a bio that is
    queued runs later in [disk_work], except that a read of an unmapped block is
    bound to return zeros from here on. *)
Definition disk_map (b : bio) (data : block) (x : disk) : option (disk * label) :=
  match imrsim_map len policy_rflag b (dk_state x) with
  | None => None
  | Some (s, v) =>
      Some match v with
      | Remapped sector true =>
          (MkDisk s (dk_device x) (MkFlight (dk_next x) (Z.shiftr (bi_sector b) IMR_BLOCK_SIZE_SHIFT) sector data :: dk_flights x) (S (dk_next x)) (dk_worker x),
           Submitted (dk_next x) (bi_sector b) data)
      | Remapped sector false =>
          (MkDisk s (dk_device x) (dk_flights x) (dk_next x) (dk_worker x),
           if bi_sectors b =? 0 then Silent else ReadBio (bi_sector b) (dv_blocks (dk_device x) sector))
      | Queued zero_fill =>
          (MkDisk s (dk_device x) (dk_flights x) (dk_next x) (dk_worker x), if (zero_fill : bool) then ReadBio (bi_sector b) zero_block else Silent)
      | Completed ret =>
          (MkDisk s (dk_device x) (dk_flights x) (dk_next x) (dk_worker x), if bi_discard b then Discarded (bi_sector b) (bi_sectors b) (ret =? 0) else Silent)
      | IoError =>
          (MkDisk s (dk_device x) (dk_flights x) (dk_next x) (dk_worker x), if bi_discard b then Discarded (bi_sector b) (bi_sectors b) false else Silent)
      end
  end.

(** The device completes a remapped write, with the data or with an error that
    leaves [torn] in the block. *)
Definition disk_land (f : flight) (torn : option block) (x : disk) : disk * label :=
  let s := imrsim_end_io true (dk_state x) in
  let data := match torn with Some t => t | None => fl_data f end in
  let d := MkDevice (upd_fn (dv_blocks (dk_device x)) (fl_sector f) data) (dv_script (dk_device x)) in
  (MkDisk s d (List.filter (fun g => negb (Nat.eqb (fl_id g) (fl_id f))) (dk_flights x)) (dk_next x) (dk_worker x),
   Landed (fl_id f) match torn with Some _ => false | None => true end).

(** The worker of partial bios. *)
Definition disk_work (write zero_fill : bool) (lba sectors : Z) (segs : list (list Z)) (x : disk) : option (disk * label) :=
  match imrsim_partial_data_io_work write zero_fill lba sectors segs (dk_state x) (dk_device x) with
  | None => None
  | Some (s, d, segs', ret) =>
      Some (MkDisk s d (dk_flights x) (dk_next x) (dk_worker x),
            if zero_fill then Silent
            else if write then PartialWrite lba (concat segs) ret
            else if ret =? 0 then PartialRead lba (concat segs') else Silent)
  end.

Definition disk_delete (key : Z) (x : disk) : option (disk * label) :=
  match imrsim_lsm_delete_key key (dk_state x) with
  | None => None
  | Some (s, ret) => Some (MkDisk s (dk_device x) (dk_flights x) (dk_next x) (dk_worker x), Deleted key ret)
  end.

(** A bio the block layer submits: at most 2^23 sectors, below 2^64. *)
Definition bio_ok (b : bio) : Prop := 0 <= bi_sector b < 2 ^ 64 /\ 0 <= bi_sectors b <= 2 ^ 23.

(** The events of [ImrSystem] that run beside the data path: lookups and the read
    tree controls at any time, the phases of a level compaction unless a
    collection holds the lock. *)
Definition background (w : worker) (e : event) : bool :=
  match e with
  | Lookup _ | ClearReadTree _ | SetReadTreeLimit _ => true
  | Prepare _ _ | Build | Publish => match w with Compacting _ => true | _ => false end
  | Write _ _ _ | Delete _ => false
  end.
Definition phase_of (w : worker) : phase := match w with Compacting ph => ph | _ => Idle end.
Definition in_phase (ph : phase) (w : worker) : worker := match w with Compacting _ => Compacting ph | _ => w end.

Inductive disk_step : disk -> label -> disk -> Prop :=
| disk_step_map b data x y l :
    bio_ok b -> lenZ data = 8 -> disk_map b data x = Some (y, l) -> disk_step x l y
| disk_step_land f torn x y l :
    f ∈ dk_flights x -> (forall t, torn = Some t -> lenZ t = 8) -> disk_land f torn x = (y, l) -> disk_step x l y
| disk_step_work write zero_fill lba sectors segs x y l :
    (zero_fill = true -> write = false) -> 0 <= lba -> lba + sectors <= len -> 0 <= sectors <= 2 ^ 23 -> lenZ (concat segs) = sectors ->
    disk_work write zero_fill lba sectors segs x = Some (y, l) -> disk_step x l y
| disk_step_delete key x y l :
    0 <= key < 2 ^ 64 -> disk_delete key x = Some (y, l) -> disk_step x l y
| disk_step_background s d fl n w e o s' ph :
    background w e = true -> step (s, phase_of w) e o (s', ph) -> disk_step (MkDisk s d fl n w) Silent (MkDisk s' d fl n (in_phase ph w))
| disk_step_begin s d fl n src s' r :
    compact_zone_begin src s = (s', r) ->
    disk_step (MkDisk s d fl n (Compacting Idle)) Silent (MkDisk s' d fl n match r with Ok p => Reserved p | Fail _ => Compacting Idle end)
| disk_step_page s d fl n p s' a :
    st_alloc s = (s', a) ->
    disk_step (MkDisk s d fl n (Reserved p)) Silent
      (MkDisk s' d fl n match a with Some _ => Copying p (sb_table (zp_builder p)) | None => Copied p (- ENOMEM) end)
| disk_step_copy s d fl n p e todo d' p' ret :
    copy_entry (target_active s) e p d = (d', p', ret) ->
    disk_step (MkDisk s d fl n (Copying p (e :: todo))) Silent (MkDisk s d' fl n (if ret =? 0 then Copying p' todo else Copied p' ret))
| disk_step_copied s d fl n p :
    disk_step (MkDisk s d fl n (Copying p [])) Silent (MkDisk s d fl n (Copied p 0))
| disk_step_finish s d fl n p ret s' r :
    compact_zone_finish p ret s = (s', r) ->
    disk_step (MkDisk s d fl n (Copied p ret)) (if r =? 0 then Collected (calm (sb_table (zp_builder p)) s) else Silent) (MkDisk s' d fl n (Compacting Idle))
| disk_step_auto_begin s d fl n s' r :
    auto_work_begin s = (s', r) -> disk_step (MkDisk s d fl n (Compacting Idle)) Silent (MkDisk s' d fl n (Compacting Idle))
| disk_step_auto_finish s d fl n zone_idx ret s' r :
    auto_work_finish zone_idx ret s = (s', r) -> disk_step (MkDisk s d fl n (Compacting Idle)) Silent (MkDisk s' d fl n (Compacting Idle)).

(** Neither the 32-bit LSM clock nor the counter of appends in flight is about to wrap. *)
Definition within (x : disk) : Prop := timestamp (meta (dk_state x)) < 2 ^ 31 /\ lenZ (dk_flights x) < 2 ^ 31 - 1.

Inductive disk_steps : disk -> list label -> disk -> Prop :=
| disk_steps_nil x : disk_steps x [] x
| disk_steps_cons x l y tr z : within x -> disk_step x l y -> disk_steps y tr z -> disk_steps x (l :: tr) z.
End system.

(** ** The specification *)

(** A sector of the disk holds a value that reads return, or the data of a write
    that has not completed, or anything. *)
Inductive cell := Known (v : Z) | Pending (id : nat) (v : Z) | Unknown.
Definition cells : Type := Z -> cell.

Definition write_cells (A : cells) (lba : Z) (l : list cell) : cells := fun q => match nthZ l (q - lba) with Some c => c | None => A q end.
Definition land_cells (A : cells) (id : nat) (ok : bool) : cells :=
  fun q => match A q with
           | Pending id' v => if Nat.eqb id' id then if ok then Known v else Unknown else A q
           | c => c
           end.
Definition reads (A : cells) (lba : Z) (data : list Z) : Prop := forall i v w, A (lba + i) = Known v -> nthZ data i = Some w -> w = v.

(** [q] is in one of the blocks that [n] sectors from [lba] on touch. *)
Definition touched (lba n q : Z) : bool := (8 * (lba / 8) <=? q) && (q <? 8 * ((lba + n + 7) / 8)) && (0 <? n).
(** Rewriting a block keeps its other sectors, except those still being written. *)
Definition settle (c : cell) : cell := match c with Known v => Known v | _ => Unknown end.
Definition rewrite_cells (A : cells) (lba : Z) (data : list Z) : cells :=
  fun q => match nthZ data (q - lba) with Some v => Known v | None => if touched lba (lenZ data) q then settle (A q) else A q end.

Inductive permitted (A : cells) : label -> cells -> Prop :=
| permit_silent : permitted A Silent A
| permit_submitted id lba data : permitted A (Submitted id lba data) (write_cells A lba (map (Pending id) data))
| permit_landed id ok : permitted A (Landed id ok) (land_cells A id ok)
| permit_read lba data : lenZ data = 8 -> reads A lba data -> permitted A (ReadBio lba data) A
| permit_discarded lba sectors : permitted A (Discarded lba sectors true) (write_cells A lba (replicate (Z.to_nat sectors) (Known 0)))
| permit_discard_stopped lba sectors n : 0 <= n <= sectors ->
    permitted A (Discarded lba sectors false) (write_cells A lba (replicate (Z.to_nat n) (Known 0)))
| permit_deleted key : permitted A (Deleted key 0) (write_cells A (8 * key) (replicate 8 (Known 0)))
| permit_delete_failed key ret : ret <> 0 -> permitted A (Deleted key ret) A
| permit_partial_read lba data : reads A lba data -> permitted A (PartialRead lba data) A
| permit_partial_write lba data : permitted A (PartialWrite lba data 0) (rewrite_cells A lba data)
| permit_partial_write_failed lba data ret A' : ret <> 0 ->
    (forall q, A' q = A q \/ touched lba (lenZ data) q = true /\ (A' q = Unknown \/ A' q = rewrite_cells A lba data q)) ->
    permitted A (PartialWrite lba data ret) A'
| permit_collected calm : permitted A (Collected calm) A.

Inductive permitted_trace : cells -> list label -> cells -> Prop :=
| permitted_nil A : permitted_trace A [] A
| permitted_cons A l A1 tr A2 : permitted A l A1 -> permitted_trace A1 tr A2 -> permitted_trace A (l :: tr) A2.
