(* ===== verification/ImrDiskData.v ===== *)
(** The data of the disk over an abstract layout: what the blocks that keys map
    to, and the writes in flight to them, say about the sectors; kept by appends,
    completions, deletions, copies and the publication of a collection. *)

From S2P Require Import Prelude StdMap ImrPrelude ImrGeometry ImrGc ImrLayout ImrGcPlan ImrDisk.

(** ** Sectors and blocks *)

Lemma sector_split q : q = 8 * (q / 8) + q mod 8 /\ 0 <= q mod 8 < 8.
Proof. pose proof (Z.div_mod q 8). pose proof (Z.mod_pos_bound q 8). lia. Qed.
Lemma block_sector k i : 0 <= i < 8 -> (8 * k + i) / 8 = k /\ (8 * k + i) mod 8 = i.
Proof.
  intros Hi. rewrite (Z.mul_comm 8 k), Z.add_comm. rewrite Z.div_add, Z.mod_add, Z.div_small, Z.mod_small by lia. lia.
Qed.


(** Writing the cells of a block. *)
Lemma write_block A k l q : lenZ l = 8 ->
  q / 8 = k /\ (exists c, nthZ l (q mod 8) = Some c /\ write_cells A (8 * k) l q = c) \/ q / 8 <> k /\ write_cells A (8 * k) l q = A q.
Proof.
  intros Hl. unfold write_cells. destruct (sector_split q) as [Eq Hq]. destruct (decide (q / 8 = k)) as [<-|Hne]; [left|right]; (split; [done|]).
  - replace (q - 8 * (q / 8)) with (q mod 8) by lia. destruct (nthZ_is_Some l (q mod 8)) as [c Hc]; [lia|]. exists c. by rewrite Hc.
  - rewrite nthZ_None; [done|]. lia.
Qed.

(** The writes in flight besides [f]. *)
Definition others (fl : list flight) (f : flight) : list flight := List.filter (fun g => negb (Nat.eqb (fl_id g) (fl_id f))) fl.
Lemma elem_others fl f g : g ∈ others fl f <-> g ∈ fl /\ fl_id g <> fl_id f.
Proof.
  unfold others. rewrite list_elem_of_In, filter_In, <- list_elem_of_In, negb_true_iff, Nat.eqb_neq. done.
Qed.
Lemma others_all fl f : fl_id f ∉ map fl_id fl -> others fl f = fl.
Proof.
  unfold others. induction fl as [|g l IH]; intros Hn; [done|]. cbn in *. apply not_elem_of_cons in Hn as [Hne Hn]. rewrite IH by done.
  by destruct (Nat.eqb_spec (fl_id g) (fl_id f)).
Qed.
Lemma lenZ_others fl f : f ∈ fl -> NoDup (map fl_id fl) -> lenZ (others fl f) = lenZ fl - 1.
Proof.
  unfold others. induction fl as [|g l IH]; [by intros ?%elem_of_nil|]. cbn. intros [->|Hf]%elem_of_cons [Hni Hn]%NoDup_cons.
  - rewrite Nat.eqb_refl. cbn [negb]. rewrite lenZ_cons. pose proof (others_all l g Hni) as E. unfold others in E. rewrite E. lia.
  - destruct (Nat.eqb_spec (fl_id g) (fl_id f)) as [E|]; [exfalso; apply Hni; rewrite E; by apply elem_map|].
    cbn [negb]. rewrite !lenZ_cons. rewrite IH by done. lia.
Qed.

Section data.
(** The number of zones and the first sector of the target on its device. *)
Context (N start : Z).
Hypothesis (Hstart : 0 <= start < 2 ^ 63).

Definition loc (pba : Z) : Z := u64 (start + pba).

Definition shows (L : layout) (B : Z -> block) (q v : Z) : Prop :=
  match ly_fwd L (q / 8) with Some p => nthZ (B (loc p)) (q mod 8) = Some v | None => v = 0 end.

(** Every known sector shows its value; a pending one has its write in flight to
    the block it maps to; a write in flight to a mapped block is of this block. *)
Record data_ok (L : layout) (A : cells) (B : Z -> block) (fl : list flight) (n : nat) (busy : Z -> Prop) : Prop := {
  do_known : forall q v, A q = Known v -> shows L B q v;
  do_pending : forall q id v, A q = Pending id v -> exists f p, f ∈ fl /\ fl_id f = id /\ ly_fwd L (q / 8) = Some p /\
    fl_sector f = loc p /\ nthZ (fl_data f) (q mod 8) = Some v;
  do_flights : forall f, f ∈ fl -> lenZ (fl_data f) = 8 /\ (fl_id f < n)%nat /\
    exists i j, 0 <= i < N /\ 0 <= j < ly_size L i /\ ~ busy i /\ fl_sector f = loc (imr_lsm_zone_append_pba i j);
  do_current : forall f q p, f ∈ fl -> ly_fwd L (q / 8) = Some p -> fl_sector f = loc p -> exists v, A q = Pending (fl_id f) v;
  do_ids : NoDup (map fl_id fl);
}.

Lemma loc_inj i j i' j' : 0 <= i < 65536 -> 0 <= i' < 65536 -> 0 <= j < TOTAL_ITEMS -> 0 <= j' < TOTAL_ITEMS ->
  loc (imr_lsm_zone_append_pba i j) = loc (imr_lsm_zone_append_pba i' j') -> i = i' /\ j = j'.
Proof.
  intros Hi Hi' Hj Hj' E. apply append_pba_inj; [lia|lia|done|done|]. revert E. unfold loc.
  rewrite !append_pba_eq by (done || lia). pose proof (slot_block_range j Hj). pose proof (slot_block_range j' Hj'). rewrite !u64_small by lia. lia.
Qed.

Section layout.
Context (L : layout) (A : cells) (B : Z -> block) (fl : list flight) (n : nat) (busy : Z -> Prop).
Hypothesis (Hok : layout_ok N L) (Hd : data_ok L A B fl n busy).

Lemma slot_range i j : 0 <= i < N -> 0 <= j < ly_size L i -> 0 <= i < 65536 /\ 0 <= j < TOTAL_ITEMS.
Proof. intros Hi Hj. pose proof (lo_num _ _ Hok). pose proof (lo_size _ _ Hok i Hi). lia. Qed.

(** The next slot of a zone is nobody's. *)
Lemma fresh_fwd i k p : 0 <= i < N -> ly_size L i < TOTAL_ITEMS -> ly_fwd L k = Some p -> loc p <> loc (imr_lsm_zone_append_pba i (ly_size L i)).
Proof.
  intros Hi Hs Hf E. destruct (fwd_slot N L Hok k p Hf) as (i' & j' & Hi' & Hj' & _ & _ & -> & _). destruct (slot_range i' j' Hi' Hj') as [R1 R2].
  pose proof (lo_num _ _ Hok). pose proof (lo_size _ _ Hok i Hi). apply loc_inj in E as [-> ->]; lia.
Qed.
Lemma fresh_flight i f : 0 <= i < N -> ly_size L i < TOTAL_ITEMS -> f ∈ fl -> fl_sector f <> loc (imr_lsm_zone_append_pba i (ly_size L i)).
Proof.
  intros Hi Hs Hf E. destruct (do_flights _ _ _ _ _ _ Hd f Hf) as (_ & _ & i' & j' & Hi' & Hj' & _ & Es). rewrite Es in E.
  destruct (slot_range i' j' Hi' Hj') as [R1 R2]. pose proof (lo_num _ _ Hok). pose proof (lo_size _ _ Hok i Hi). apply loc_inj in E as [-> ->]; lia.
Qed.

Lemma data_layout L' : layout_eq N L L' -> data_ok L' A B fl n busy.
Proof.
  intros [E1 E2 _ _]. destruct Hd as [D1 D2 D3 D4 D5]. split; try done.
  - intros q v Hq. unfold shows. rewrite E1. by apply D1.
  - intros q id v. rewrite E1. apply D2.
  - intros f Hf. destruct (D3 f Hf) as (X1 & X2 & i & j & Hi & Hj & Hb & Es). split_and!; try done. exists i, j. by rewrite E2.
  - intros f q p. rewrite E1. apply D4.
Qed.

Lemma data_busy (busy' : Z -> Prop) : (forall i, 0 <= i < N -> busy' i -> busy i) -> data_ok L A B fl n busy'.
Proof.
  intros Hb. destruct Hd as [D1 D2 D3 D4 D5]. split; try done. intros f Hf. destruct (D3 f Hf) as (X1 & X2 & i & j & Hi & Hj & Hni & Es).
  split_and!; try done. exists i, j. split_and!; try done; try lia. intros Hc. by apply Hni, Hb.
Qed.

(** ** Appends *)

(** Key [k] moves to the next slot of zone [i], with a write of [data] in flight. *)
Lemma data_submit i k data :
  0 <= i < N -> ly_size L i < TOTAL_ITEMS -> ~ busy i -> lenZ data = 8 ->
  data_ok (ly_append i k L) (write_cells A (8 * k) (map (Pending n) data)) B
    (MkFlight n k (loc (imr_lsm_zone_append_pba i (ly_size L i))) data :: fl) (S n) busy.
Proof.
  intros Hi Hs Hb Hl. set (p0 := imr_lsm_zone_append_pba i (ly_size L i)). pose proof (lo_size _ _ Hok i Hi) as Hsz.
  pose proof (fun q => write_block A k (map (Pending n) data) q ltac:(unfold lenZ in *; rewrite length_map; lia)) as Hw.
  set (A' := write_cells _ _ _) in *. clearbody A'. destruct Hd as [D1 D2 D3 D4 D5]. split.
  - intros q v E. unfold shows. cbn. destruct (Hw q) as [[Hq (c & Hc & Ec)]|[Hq Ec]]; rewrite Ec in E.
    + subst c. rewrite nthZ_map in Hc. by destruct (nthZ data (q mod 8)).
    + rewrite upd_ne by done. by apply D1.
  - intros q id v E. cbn. destruct (Hw q) as [[Hq (c & Hc & Ec)]|[Hq Ec]]; rewrite Ec in E.
    + subst c. rewrite nthZ_map in Hc. destruct (nthZ data (q mod 8)) as [w|] eqn:Ew; [|done]. cbn in Hc. injection Hc as <- <-.
      eexists _, p0. split; [by left|]. rewrite Hq, upd_eq. done.
    + destruct (D2 q id v E) as (f & p & Hf & X). exists f, p. rewrite upd_ne by done. split; [by right|done].
  - intros f [->|Hf]%elem_of_cons.
    + split_and!; [done|cbn; lia|]. exists i, (ly_size L i). cbn. rewrite upd_eq. split_and!; try done; lia.
    + destruct (D3 f Hf) as (X1 & X2 & i' & j' & Hi' & Hj' & Hb' & Es). split_and!; [done|lia|]. exists i', j'. split_and!; try done; try lia.
      cbn. unfold upd. destruct (decide (i' = i)) as [->|]; lia.
  - intros f q p Hf Hfwd Es. cbn in Hfwd. destruct (decide (q / 8 = k)) as [Hq|Hq].
    + rewrite Hq, upd_eq in Hfwd. injection Hfwd as <-. apply elem_of_cons in Hf as [->|Hf]; [|by apply (fresh_flight i f) in Es].
      destruct (Hw q) as [[_ (c & Hc & ->)]|[? _]]; [|done]. rewrite nthZ_map in Hc. destruct (nthZ data (q mod 8)) as [w|]; [|done]. injection Hc as <-. by exists w.
    + rewrite upd_ne in Hfwd by done. apply elem_of_cons in Hf as [->|Hf]; [cbn in Es; by apply (fresh_fwd i _ _ Hi Hs) in Hfwd|].
      destruct (Hw q) as [[? _]|[_ ->]]; [done|]. by eapply D4.
  - cbn. apply NoDup_cons. split; [|done]. intros (f & Hf & Hin)%list_elem_of_fmap. destruct (D3 f Hin) as (_ & ? & _). lia.
Qed.

(** The same with the block written to [B'] before anyone looks. *)
Lemma data_rewrite i k A' B' :
  0 <= i < N -> ly_size L i < TOTAL_ITEMS ->
  (forall a, a <> loc (imr_lsm_zone_append_pba i (ly_size L i)) -> B' a = B a) ->
  (forall q, q / 8 <> k -> A' q = A q) ->
  (forall q, q / 8 = k -> A' q = Unknown \/ exists v, A' q = Known v /\ nthZ (B' (loc (imr_lsm_zone_append_pba i (ly_size L i)))) (q mod 8) = Some v) ->
  data_ok (ly_append i k L) A' B' fl n busy.
Proof.
  intros Hi Hs HB Hother Hblock. set (p0 := imr_lsm_zone_append_pba i (ly_size L i)) in *. pose proof (lo_size _ _ Hok i Hi) as Hsz.
  pose proof Hd as [D1 D2 D3 D4 D5]. split.
  - intros q v E. unfold shows. cbn. destruct (decide (q / 8 = k)) as [Hq|Hq].
    + rewrite Hq, upd_eq. destruct (Hblock q Hq) as [X|(w & Ew & Hw)]; [congruence|]. rewrite Ew in E. injection E as <-. exact Hw.
    + rewrite upd_ne by done. rewrite Hother in E by done. specialize (D1 q v E). unfold shows in D1. destruct (ly_fwd L (q / 8)) as [p|] eqn:Ep; [|done].
      rewrite HB; [done|]. by apply (fresh_fwd i _ _ Hi Hs) in Ep.
  - intros q id v E. cbn. destruct (decide (q / 8 = k)) as [Hq|Hq]; [destruct (Hblock q Hq) as [X|(w & X & _)]; congruence|].
    rewrite Hother in E by done. destruct (D2 q id v E) as (f & p & X). exists f, p. by rewrite upd_ne.
  - intros f Hf. destruct (D3 f Hf) as (X1 & X2 & i' & j' & Hi' & Hj' & Hb' & Es). split_and!; try done. exists i', j'. split_and!; try done; try lia.
    cbn. unfold upd. destruct (decide (i' = i)) as [->|]; lia.
  - intros f q p Hf Hfwd Es. cbn in Hfwd. destruct (decide (q / 8 = k)) as [Hq|Hq].
    + rewrite Hq, upd_eq in Hfwd. injection Hfwd as <-. by apply (fresh_flight i f) in Es.
    + rewrite upd_ne in Hfwd by done. rewrite Hother by done. by eapply D4.
  - done.
Qed.

(** ** Deletion *)

Lemma data_delete k : data_ok (ly_delete k L) (write_cells A (8 * k) (replicate 8 (Known 0))) B fl n busy.
Proof.
  pose proof (fun q => write_block A k (replicate 8 (Known 0)) q eq_refl) as Hw. set (A' := write_cells _ _ _) in *. clearbody A'.
  assert (forall q, q / 8 = k -> A' q = Known 0) as Hin.
  { intros q Hq. destruct (Hw q) as [[_ (c & Hc & ->)]|[? _]]; [|done]. apply nthZ_In, elem_of_replicate in Hc as [-> _]. done. }
  assert (forall q, q / 8 <> k -> A' q = A q) as Hout by (intros q Hq; destruct (Hw q) as [[? _]|[_ ?]]; done). clear Hw.
  pose proof Hd as [D1 D2 D3 D4 D5]. split; try done.
  - intros q v E. unfold shows. cbn. destruct (decide (q / 8 = k)) as [Hq|Hq].
    + rewrite Hq, upd_eq. rewrite Hin in E by done. by injection E.
    + rewrite upd_ne by done. rewrite Hout in E by done. by apply D1.
  - intros q id v E. cbn. destruct (decide (q / 8 = k)) as [Hq|Hq]; [rewrite Hin in E by done; done|].
    rewrite Hout in E by done. destruct (D2 q id v E) as (f & p & X). exists f, p. by rewrite upd_ne.
  - intros f q p Hf Hfwd Es. cbn in Hfwd. destruct (decide (q / 8 = k)) as [Hq|Hq]; [by rewrite Hq, upd_eq in Hfwd|].
    rewrite upd_ne in Hfwd by done. rewrite Hout by done. by eapply D4.
Qed.

(** ** Completion *)

Lemma same_id f g : f ∈ fl -> g ∈ fl -> fl_id g = fl_id f -> g = f.
Proof.
  pose proof (do_ids _ _ _ _ _ _ Hd) as Hn. clear Hd. induction fl as [|h l IH]; [by intros ?%elem_of_nil|]. cbn in Hn.
  apply NoDup_cons in Hn as [Hni Hn]. intros [->|Hf]%elem_of_cons [->|Hg]%elem_of_cons E; [done| | |by apply IH].
  - exfalso. apply Hni. rewrite <- E. by apply elem_map.
  - exfalso. apply Hni. rewrite E. by apply elem_map.
Qed.

Lemma data_land f (ok : bool) B' :
  f ∈ fl -> (forall a, a <> fl_sector f -> B' a = B a) -> (ok = true -> B' (fl_sector f) = fl_data f) ->
  data_ok L (land_cells A (fl_id f) ok) B' (others fl f) n busy.
Proof.
  intros Hf HB Hw. pose proof Hd as [D1 D2 D3 D4 D5]. split.
  - intros q v E. unfold land_cells in E. destruct (A q) as [w|id w|] eqn:EA; [..|done].
    + injection E as ->. specialize (D1 q v EA). unfold shows in *. destruct (ly_fwd L (q / 8)) as [p|] eqn:Ep; [|done].
      rewrite HB; [done|]. intros Es. destruct (D4 f q p Hf Ep (eq_sym Es)) as [x Ex]. congruence.
    + destruct (Nat.eqb_spec id (fl_id f)) as [->|]; [|done]. destruct ok; [|done]. injection E as ->.
      destruct (D2 q _ v EA) as (g & p & Hg & Eid & Ep & Es & Hv). apply (same_id f) in Eid as ->; [|done|done].
      unfold shows. by rewrite Ep, <- Es, Hw.
  - intros q id v E. unfold land_cells in E. destruct (A q) as [w|id' w|] eqn:EA; [done| |done].
    destruct (Nat.eqb_spec id' (fl_id f)) as [->|Hne]; [by destruct ok|]. injection E as -> ->.
    destruct (D2 q id v EA) as (g & p & Hg & Eid & X). exists g, p. split; [|done]. apply elem_others. split; [done|congruence].
  - intros g [Hg _]%elem_others. by apply D3.
  - intros g q p [Hg Hne]%elem_others Ep Es. destruct (D4 g q p Hg Ep Es) as [v Ev]. exists v. unfold land_cells. rewrite Ev.
    by destruct (Nat.eqb_spec (fl_id g) (fl_id f)).
  - unfold others. clear -D5. induction fl as [|g l IH]; [done|]. cbn in *. apply NoDup_cons in D5 as [Hni Hnd]. destruct (negb _); [|by apply IH].
    cbn. apply NoDup_cons. split; [|by apply IH]. intros (h & Eh & Hin)%list_elem_of_fmap. apply Hni. rewrite Eh.
    apply list_elem_of_In, filter_In in Hin as [Hin _]. apply list_elem_of_In in Hin. by apply elem_map.
Qed.

(** ** Collection *)

(** A copy lands in a block of an empty reserved zone. *)
Lemma data_copy i j B' :
  0 <= i < N -> 0 <= j < TOTAL_ITEMS -> ly_size L i = 0 ->
  (forall a, a <> loc (imr_lsm_zone_append_pba i j) -> B' a = B a) -> data_ok L A B' fl n busy.
Proof.
  intros Hi Hj Hs HB. pose proof Hd as [D1 D2 D3 D4 D5]. split; try done.
  intros q v E. specialize (D1 q v E). unfold shows in *. destruct (ly_fwd L (q / 8)) as [p|] eqn:Ep; [|done]. rewrite HB; [done|].
  destruct (fwd_slot N L Hok _ _ Ep) as (i' & j' & Hi' & Hj' & _ & _ & -> & _). destruct (slot_range i' j' Hi' Hj') as [R1 R2].
  intros E'. pose proof (lo_num _ _ Hok). apply loc_inj in E' as [-> ->]; lia.
Qed.

(** A published collection moves keys to copies that show the same sectors. *)
Lemma data_collect src dst T :
  moves_ok N L src dst T -> busy src -> busy dst ->
  (forall m, m ∈ T -> B (loc (imr_lsm_zone_append_pba dst (mv_to m))) = B (loc (imr_lsm_zone_append_pba src (mv_from m)))) ->
  data_ok (ly_collect src dst T L) A B fl n (fun _ => False) /\ forall q v, shows (ly_collect src dst T L) B q v <-> shows L B q v.
Proof.
  intros HT Hsrc Hdst Hcopy. pose proof Hd as [D1 D2 D3 D4 D5].
  assert (forall q v, shows (ly_collect src dst T L) B q v <-> shows L B q v) as Hsh.
  { intros q v. unfold shows. destruct (collect_fwd N L src dst T HT (q / 8)) as [[-> _]|(m & Hm & Hk & Ef & ->)]; [done|].
    rewrite Ef. by rewrite Hcopy. }
  assert (forall f i j, f ∈ fl -> fl_sector f = loc (imr_lsm_zone_append_pba i j) -> 0 <= i < N -> 0 <= j < TOTAL_ITEMS -> busy i -> False) as Hfree.
  { intros f i j Hf Es Hi Hj Hbusy. destruct (D3 f Hf) as (_ & _ & i' & j' & Hi' & Hj' & Hb & Es'). destruct (slot_range i' j' Hi' Hj') as [R1 R2].
    rewrite Es in Es'. pose proof (lo_num _ _ Hok). apply loc_inj in Es' as [-> _]; [done|lia|done|done|done]. }
  pose proof (lo_size _ _ Hok src (mo_src _ _ _ _ _ HT)) as Hss.
  assert (forall m, m ∈ T -> 0 <= mv_from m < TOTAL_ITEMS /\ 0 <= mv_to m < TOTAL_ITEMS) as Hrange.
  { intros m Hm. destruct (mo_from _ _ _ _ _ HT m Hm) as [? _]. pose proof (to_range N L src dst T HT m Hm). pose proof (mo_len _ _ _ _ _ HT). lia. }
  split; [|done]. split; try done.
  - intros q v E. by apply Hsh, D1.
  - intros q id v E. destruct (D2 q id v E) as (f & p & Hf & Eid & Ep & Es & Hv). exists f, p. split_and!; try done.
    destruct (collect_fwd N L src dst T HT (q / 8)) as [[-> _]|(m & Hm & Hk & Ef & _)]; [done|]. exfalso. rewrite Ep in Ef. injection Ef as ->.
    eapply Hfree; [exact Hf|exact Es|apply HT|by apply Hrange|done].
  - intros f Hf. destruct (D3 f Hf) as (X1 & X2 & i & j & Hi & Hj & Hb & Es). split_and!; try done. exists i, j. split_and!; try done; try lia.
    cbn. rewrite !upd_ne; [lia|by intros ->|by intros ->].
  - intros f q p Hf Ep Es. destruct (collect_fwd N L src dst T HT (q / 8)) as [[E _]|(m & Hm & Hk & Ef & Ef')].
    + rewrite E in Ep. by eapply D4.
    + exfalso. rewrite Ef' in Ep. injection Ep as <-. eapply Hfree; [exact Hf|exact Es|apply HT|by apply Hrange|done].
Qed.
End layout.
End data.
