(* ===== verification/ImrDiskInv.v ===== *)
(** The invariant of the disk, and what keeps it: bookkeeping, appends,
    deletions, completions, background events and the steps of a collection. *)

From S2P Require Import Prelude StdMap ImrPrelude ImrGeometry ImrBloom ImrState ImrReadTree ImrLevels ImrSegment ImrPlacement ImrAccounting ImrCore ImrLsm ImrLsmInv ImrLsmOps ImrCompaction ImrBuild ImrPlan ImrPublish ImrPhases ImrSystem ImrZones ImrGc ImrIo ImrLayout ImrZoneFrame ImrZoneInv ImrZoneOps ImrGcPlan ImrGcSpec ImrGcPublish ImrCold ImrDisk ImrDiskData.

(** ** The invariant *)

Definition dev_ok (d : device) : Prop := (forall a, lenZ (dv_blocks d a) = 8) /\ Forall (fun e => lenZ e.2 = 8) (dv_script d).

Definition reserved (w : worker) (i : Z) : Prop :=
  match w with
  | Compacting _ => False
  | Reserved p | Copying p _ | Copied p _ => i = zp_source_zone p \/ i = zp_dest_zone0 p
  end.

(** The copies of [l] are on the device. *)
Definition mirrored (s : kstate) (d : device) (l : list block_entry) : Prop :=
  forall e, e ∈ l -> dv_blocks d (loc (output_bdev_start s) (be_pba e)) = dv_blocks d (loc (output_bdev_start s) (be_source_pba e)).

Definition holds_plan (H : newest_map) (p : zone_plan) (s : kstate) : Prop :=
  planned H p s /\ copy_source s = zp_source_zone p /\ copy_dest s = zp_dest_zone0 p.

Definition worker_ok (H : newest_map) (s : kstate) (d : device) (w : worker) : Prop :=
  match w with
  | Compacting ph => phase_ok s ph /\ unreserved s
  | Reserved p => holds_plan H p s
  | Copying p todo => holds_plan H p s /\ exists l, sb_table (zp_builder p) = l ++ todo /\ mirrored s d l
  | Copied p ret => holds_plan H p s /\ (ret = 0 -> mirrored s d (sb_table (zp_builder p)))
  end.

(** The newest records and the forward map name the same blocks. *)
Definition agrees (H : newest_map) (s : kstate) : Prop :=
  forall k r, H k = Some r -> fwd s k = if r_valid r then Some (r_pba r) else None.

Abbreviation disk_data A x busy :=
  (data_ok (IMR_NUMZONES (dk_state x)) (output_bdev_start (dk_state x)) (layout_of (dk_state x)) A (dv_blocks (dk_device x)) (dk_flights x) (dk_next x) busy).

(** The number of zones of the target and its first sector, which no step changes. *)
Class site := MkSite { site_zones : Z; site_start : Z }.

Record disk_inv `{site} (H : newest_map) (A : cells) (x : disk) : Prop := {
  di_zones : zones_ok (dk_state x);
  di_lsm : awake H (dk_state x);
  di_agrees : agrees H (dk_state x);
  di_data : disk_data A x (reserved (dk_worker x));
  di_inflight : append_writes_inflight (dk_state x) = lenZ (dk_flights x);
  di_dev : dev_ok (dk_device x);
  di_worker : worker_ok H (dk_state x) (dk_device x) (dk_worker x);
  di_threshold : 1 <= imr_lsm_compaction_threshold_locked (dk_state x) <= U32_MAX;
  di_start : 0 <= output_bdev_start (dk_state x) < 2 ^ 63;
  di_hot : initialized (meta (dk_state x)) = false -> dk_worker x = Compacting Idle;
  di_site : IMR_NUMZONES (dk_state x) = site_zones /\ output_bdev_start (dk_state x) = site_start;
}.

(** What the module has set up before a target exists. *)
Record module_ready (s : kstate) : Prop := {
  mr_threshold : 1 <= imr_lsm_compaction_threshold_locked s <= U32_MAX;
  mr_start : 0 <= output_bdev_start s < 2 ^ 63;
  mr_unreserved : unreserved s;
}.

Ltac dk := cbn [dk_state dk_device dk_flights dk_next dk_worker] in *.

Section disk.
Context {here : site}.

(** ** Frames *)

(** The counter of appends in flight is read by nothing else. *)
Lemma inflight_zones c s : zones_ok s -> zones_ok (set_append_writes_inflight c s).
Proof. intros []. by split. Qed.
Lemma inflight_lsm H c s : awake H s -> awake H (set_append_writes_inflight c s).
Proof. apply awake_frame; [done|done|]. intros []. by split. Qed.
Lemma inflight_worker H c s d w : worker_ok H s d w -> worker_ok H (set_append_writes_inflight c s) d w.
Proof.
  assert (forall p, holds_plan H p s -> holds_plan H p (set_append_writes_inflight c s)) as Hh by (by intros p ([] & ? & ?)).
  destruct w as [ph|p|p todo|p ret]; cbn; [|apply Hh| |].
  - intros [X Hu]. split; [by apply (phase_same s)|done].
  - intros (X & l & El & Hl). split; [by apply Hh|by exists l].
  - intros (X & Hl). split; [by apply Hh|done].
Qed.

Lemma env_start s s' : env_same s s' -> output_bdev_start s' = output_bdev_start s.
Proof. intros [_ _ E _ _]. cbn in E. by injection E. Qed.
Lemma env_copy s s' : env_same s s' -> copy_source s' = copy_source s /\ copy_dest s' = copy_dest s.
Proof. intros [_ E _ _ _]. cbn in E. by injection E. Qed.

Lemma env_unreserved s s' : env_same s s' -> unreserved s -> unreserved s'.
Proof. intros He. unfold unreserved. by destruct (env_copy _ _ He) as [-> ->]. Qed.

Lemma mirrored_start s s' d l : output_bdev_start s' = output_bdev_start s -> mirrored s d l -> mirrored s' d l.
Proof. intros E. unfold mirrored. by rewrite E. Qed.

(** A worker whose plan stays good. *)
Lemma worker_plan H H' s s' d w :
  phase_kept s s' -> env_same s s' -> (forall p, holds_plan H p s -> planned H' p s') -> worker_ok H s d w -> worker_ok H' s' d w.
Proof.
  intros Hph He Hp. destruct (env_copy _ _ He) as [E1 E2]. pose proof (env_start _ _ He) as E3.
  assert (forall p, holds_plan H p s -> holds_plan H' p s') as Hh.
  { intros p X. destruct X as (X1 & X2 & X3) eqn:E. split_and!; [by apply Hp|congruence..]. }
  destruct w as [ph|p|p todo|p ret]; cbn.
  - intros [X Hu]. split; [by apply Hph|by apply (env_unreserved s)].
  - apply Hh.
  - intros (X & l & El & Hl). split; [by apply Hh|]. exists l. split; [done|by apply (mirrored_start s)].
  - intros (X & Hl). split; [by apply Hh|]. intros Hr. by apply (mirrored_start s), Hl.
Qed.

(** Entries of a plan are in its two zones. *)
Lemma plan_slots_in H p s e : planned H p s -> zones_ok s -> e ∈ sb_table (zp_builder p) ->
  (exists j, 0 <= j < TOTAL_ITEMS /\ be_source_pba e = imr_lsm_zone_append_pba (zp_source_zone p) j) /\
  (exists j, 0 <= j < TOTAL_ITEMS /\ be_pba e = imr_lsm_zone_append_pba (zp_dest_zone0 p) j).
Proof.
  intros Hp Hz He. destruct (planned_entry _ _ _ _ Hp He) as (Hm & Hr & E1 & _). pose proof (pd_moves _ _ _ Hp) as HM.
  destruct (pd_entries _ _ _ Hp e He) as (_ & _ & E2). pose proof (lo_size _ _ (zk_layout _ Hz) _ (mo_src _ _ _ _ _ HM)).
  pose proof (to_range _ _ _ _ _ HM _ Hm) as Ht. cbn in Ht. pose proof (mo_len _ _ _ _ _ HM). split; eexists; (split; [|done]); lia.
Qed.

(** The device may change outside the reserved zones. *)
Lemma worker_device H s d d' w : zones_ok s ->
  (forall z j, reserved w z -> 0 <= z < IMR_NUMZONES s -> 0 <= j < TOTAL_ITEMS ->
     let a := loc (output_bdev_start s) (imr_lsm_zone_append_pba z j) in dv_blocks d' a = dv_blocks d a) ->
  worker_ok H s d w -> worker_ok H s d' w.
Proof.
  intros Hz Hd.
  assert (forall p l, (forall z, reserved w z <-> z = zp_source_zone p \/ z = zp_dest_zone0 p) -> planned H p s ->
    (forall e, e ∈ l -> e ∈ sb_table (zp_builder p)) -> mirrored s d l -> mirrored s d' l) as Hm.
  { intros p l Hr Hp Hl Hmir e He. specialize (Hmir e He). destruct (plan_slots_in _ _ _ _ Hp Hz (Hl e He)) as [(j & Hj & E1) (j' & Hj' & E2)].
    pose proof (pd_moves _ _ _ Hp) as HM. rewrite E1, E2 in *. rewrite !Hd; try done; try apply HM; apply Hr; tauto. }
  destruct w as [ph|p|p todo|p ret]; cbn; [done|done|..].
  - intros (X & l & El & Hl). split; [done|]. exists l. split; [done|]. apply (Hm p); [done|apply X| |done]. intros e He. rewrite El. apply elem_of_app. by left.
  - intros (X & Hl). split; [done|]. intros Hr. apply (Hm p); [done|apply X|done|by apply Hl].
Qed.

Section frames.
Context (H : newest_map) (A : cells) (s : kstate) (d : device) (fl : list flight) (n : nat) (w : worker).
Hypothesis (Hinv : disk_inv H A (MkDisk s d fl n w)).

Lemma threshold_env s' : env_same s s' -> 1 <= imr_lsm_compaction_threshold_locked s' <= U32_MAX.
Proof. intros He. rewrite (threshold_cfg s s' (es_cfg _ _ He)). apply Hinv. Qed.

(** The layout and the plans stay. *)
Lemma inv_frame s' :
  zones_ok s' -> awake H s' -> (initialized (meta s') = false -> w = Compacting Idle) -> phase_kept s s' \/ w = Compacting Idle -> env_same s s' ->
  timestamp (meta s) <= timestamp (meta s') -> layout_eq (IMR_NUMZONES s) (layout_of s) (layout_of s') -> disk_inv H A (MkDisk s' d fl n w).
Proof.
  intros F1 F2 Fh F3 F4 F5 Hl. pose proof (env_start _ _ F4) as Es. destruct Hinv as [I1 I2 I3 I4 I5 I6 I7 I8 I9 I10 I11]. cbn in *. split; cbn.
  - done.
  - done.
  - intros k r Hk. rewrite <- (I3 k r Hk). apply (le_fwd _ _ _ Hl k).
  - rewrite (es_num _ _ F4), Es. by eapply data_layout.
  - by rewrite (es_inflight _ _ F4).
  - done.
  - destruct F3 as [F3|F3]; [|rewrite F3 in I7 |- *; split; [done|by eapply env_unreserved; [|apply I7]]]. apply (worker_plan H H s s' d w); try done. intros p (Hp & _). eapply planned_same; [done|done|lia|done].
  - by apply threshold_env.
  - by rewrite Es.
  - done.
  - by rewrite (es_num _ _ F4), Es.
Qed.

Lemma inv_same s' : foreground H s s' -> layout_eq (IMR_NUMZONES s) (layout_of s) (layout_of s') -> disk_inv H A (MkDisk s' d fl n w).
Proof.
  intros [F1 F2 F3 F4 F5] Hl. apply inv_frame; [done|by apply awake_lsm| |by left|done|lia|done]. intros ?. exfalso. by eapply hot_lsm.
Qed.

(** Nothing but bookkeeping. *)
Lemma inv_quiet s' : quiet s s' -> disk_inv H A (MkDisk s' d fl n w).
Proof.
  intros Q. pose proof Q as [Ql Qz]. apply inv_frame.
  - apply (zones_ok_zhalf s); [done|apply Hinv].
  - apply (awake_quiet H s); [done|apply Hinv].
  - rewrite (half_initialized _ _ Ql). apply Hinv.
  - left. by apply phase_half.
  - by apply env_zhalf.
  - rewrite (half_timestamp _ _ Ql). lia.
  - rewrite (layout_of_zhalf _ _ Qz). apply layout_eq_refl.
Qed.

Lemma inv_kept s' : keeps s s' -> awake H s' -> disk_inv H A (MkDisk s' d fl n w).
Proof.
  intros K Hi. pose proof (keeps_zhalf _ _ K) as Ez. apply inv_frame; [|done| |left; by apply phase_keeps|by apply env_zhalf|rewrite (keeps_timestamp _ _ K); lia|].
  - apply (zones_ok_zhalf s); [done|apply Hinv].
  - rewrite (keeps_initialized _ _ K). apply Hinv.
  - rewrite (layout_of_zhalf _ _ Ez). apply layout_eq_refl.
Qed.

(** The metadata may be initialised at any time. *)
Lemma inv_ensure : disk_inv H A (MkDisk (ensure_initialized s) d fl n w).
Proof.
  pose proof (ensure_zhalf s) as Ez. apply inv_frame.
  - apply (zones_ok_zhalf s); [done|apply Hinv].
  - apply awake_ensure, Hinv.
  - intros Ec. exfalso. eapply hot_lsm; [apply (aw_inv _ _ (di_lsm _ _ _ Hinv))|done].
  - destruct (ensure_cases s) as [[_ E]|[Ec _]]; [left; rewrite E; by intros ph|right; by apply Hinv].
  - by apply env_zhalf.
  - pose proof (aw_time _ _ (di_lsm _ _ _ Hinv)). dk. lia.
  - rewrite (layout_of_zhalf _ _ Ez). apply layout_eq_refl.
Qed.
Lemma ensure_time : timestamp (meta (ensure_initialized s)) = timestamp (meta s).
Proof. apply (aw_time _ _ (di_lsm _ _ _ Hinv)). Qed.

(** A larger heap, and an allocation, whether it succeeds or not. *)
Lemma inv_heap h : hp_next (hp s) <= hp_next h -> disk_inv H A (MkDisk (set_hp h s) d fl n w).
Proof.
  intros Hh. apply inv_kept; [by apply keeps_set_hp|]. apply (awake_frame H s); [done|done| |apply Hinv]. apply inv_keeps_rt. by split.
Qed.
Lemma inv_alloc s' a : st_alloc s = (s', a) -> disk_inv H A (MkDisk s' d fl n w).
Proof. intros E. destruct (st_alloc_cases s) as (h & [[E' Hh]|[E' Hh]]); rewrite E' in E; injection E as <- <-; apply inv_heap; lia. Qed.

Lemma reserved_copy i : reserved w i -> i = copy_source s \/ i = copy_dest s.
Proof.
  pose proof (di_worker _ _ _ Hinv) as I7. dk. destruct w; cbn in I7 |- *; [done|..]; destruct I7 as [(_ & ? & ?) _] || destruct I7 as (_ & ? & ?); intuition congruence.
Qed.

(** ** Appends and deletions *)

Lemma fwd_append s' i k k' :
  layout_eq (IMR_NUMZONES s) (ly_append i k (layout_of s)) (layout_of s') ->
  fwd s' k' = if decide (k' = k) then Some (imr_lsm_zone_append_pba i (ly_size (layout_of s) i)) else fwd s k'.
Proof. intros Hl. exact (le_fwd _ _ _ Hl k'). Qed.

(** The LSM half of an append. *)
Lemma append_worker s' i k :
  let r := MkRec (imr_lsm_zone_append_pba i (ly_size (layout_of s) i)) true (timestamp (meta s) + 1) in
  0 <= i < IMR_NUMZONES s -> ly_size (layout_of s) i < TOTAL_ITEMS -> i <> copy_source s -> i <> copy_dest s ->
  foreground (record H k r) s s' -> layout_eq (IMR_NUMZONES s) (ly_append i k (layout_of s)) (layout_of s') ->
  agrees (record H k r) s' /\ worker_ok (record H k r) s' d w.
Proof.
  intros r Hi Hs Hns Hnd [F1 F2 F3 F4 F5] Hl. pose proof (zk_layout _ (di_zones _ _ _ Hinv)) as Hok. cbn in Hok. split.
  - intros k' r'. rewrite (fwd_append s' i k k' Hl). unfold record. destruct (decide (k' = k)); [by intros [= <-]|]. apply Hinv.
  - apply (worker_plan H _ s s' d w); [done|done| |apply Hinv]. intros p (Hp & Ec1 & Ec2). pose proof (pd_moves _ _ _ Hp) as HM.
    apply (planned_step H p s s' k r); try done.
    + lia.
    + cbn. lia.
    + intros k' Hk'. rewrite (fwd_append s' i k k' Hl). by rewrite decide_False.
    + intros j Hj. rewrite (fwd_append s' i k k Hl), decide_True by done. intros E. apply (inj Some) in E. pose proof (lo_num _ _ Hok). pose proof (lo_size _ _ Hok i Hi).
      pose proof (lo_size _ _ Hok _ (mo_src _ _ _ _ _ HM)). pose proof (mo_src _ _ _ _ _ HM). apply append_pba_inj in E as [E _]; [congruence|lia..].
    + intros z Hz. assert (z <> i) as Hne by (destruct Hz as [->| ->]; congruence).
      assert (0 <= z < IMR_NUMZONES s) as Hzr by (destruct Hz as [->| ->]; [apply HM|apply HM]). split.
      * rewrite (le_size _ _ _ Hl z Hzr). cbn. by rewrite upd_ne.
      * intros j Hj. rewrite (le_key _ _ _ Hl z j Hzr); cbn; rewrite upd_ne; done.
Qed.

Lemma inv_submit s' i k data :
  let pba := imr_lsm_zone_append_pba i (ly_size (layout_of s) i) in
  let r := MkRec pba true (timestamp (meta s) + 1) in
  0 <= i < IMR_NUMZONES s -> ly_size (layout_of s) i < TOTAL_ITEMS -> i <> copy_source s -> i <> copy_dest s -> lenZ data = 8 ->
  foreground (record H k r) s s' -> layout_eq (IMR_NUMZONES s) (ly_append i k (layout_of s)) (layout_of s') -> lenZ fl < 2 ^ 31 - 1 ->
  disk_inv (record H k r) (write_cells A (8 * k) (map (Pending n) data))
    (MkDisk (set_append_writes_inflight (i32 (append_writes_inflight s' + 1)) s') d (MkFlight n k (loc (output_bdev_start s) pba) data :: fl) (S n) w).
Proof.
  intros pba r Hi Hs Hns Hnd Hdata HF Hl Hfl. destruct (append_worker s' i k Hi Hs Hns Hnd HF Hl) as [Ha Hw].
  destruct HF as [F1 F2 F3 F4 F5]. pose proof (env_start _ _ F4) as Es. pose proof Hinv as [I1 I2 I3 I4 I5 I6 I7 I8 I9 I10 I11]. dk. split; dk.
  - by apply inflight_zones.
  - by apply inflight_lsm, awake_lsm.
  - done.
  - change (data_ok (IMR_NUMZONES s') (output_bdev_start s') (layout_of s') (write_cells A (8 * k) (map (Pending n) data)) (dv_blocks d)
      (MkFlight n k (loc (output_bdev_start s) pba) data :: fl) (S n) (reserved w)).
    rewrite (es_num _ _ F4), Es. eapply data_layout; [|exact Hl]. apply data_submit; try done; [apply I1|].
    intros Hr. by apply reserved_copy in Hr as [?|?].
  - cbn [append_writes_inflight set_append_writes_inflight]. rewrite (es_inflight _ _ F4), I5, lenZ_cons. pose proof (lenZ_nonneg fl). rewrite i32_small; lia.
  - done.
  - by apply inflight_worker.
  - exact (threshold_env s' F4).
  - rewrite <- Es in I9. exact I9.
  - intros Ec. exfalso. by eapply hot_lsm.
  - rewrite <- Es, <- (es_num _ _ F4) in I11. exact I11.
Qed.

(** A synchronous write: the counter goes up and down again. *)
Lemma inv_write s' i k d' A' :
  let pba := imr_lsm_zone_append_pba i (ly_size (layout_of s) i) in
  let r := MkRec pba true (timestamp (meta s) + 1) in
  0 <= i < IMR_NUMZONES s -> ly_size (layout_of s) i < TOTAL_ITEMS -> i <> copy_source s -> i <> copy_dest s ->
  foreground (record H k r) s s' -> layout_eq (IMR_NUMZONES s) (ly_append i k (layout_of s)) (layout_of s') ->
  dev_ok d' -> (forall a, a <> loc (output_bdev_start s) pba -> dv_blocks d' a = dv_blocks d a) ->
  (forall q, q / 8 <> k -> A' q = A q) ->
  (forall q, q / 8 = k -> A' q = Unknown \/ exists v, A' q = Known v /\ nthZ (dv_blocks d' (loc (output_bdev_start s) pba)) (q mod 8) = Some v) ->
  disk_inv (record H k r) A' (MkDisk s' d' fl n w).
Proof.
  intros pba r Hi Hs Hns Hnd HF Hl Hdev HB Hother Hblock. destruct (append_worker s' i k Hi Hs Hns Hnd HF Hl) as [Ha Hw].
  destruct HF as [F1 F2 F3 F4 F5]. pose proof (env_start _ _ F4) as Es. pose proof Hinv as [I1 I2 I3 I4 I5 I6 I7 I8 I9 I10 I11]. dk. split; dk; try done.
  - by apply awake_lsm.
  - rewrite (es_num _ _ F4), Es. eapply data_layout; [|exact Hl]. eapply data_rewrite; try done. apply I1.
  - by rewrite (es_inflight _ _ F4).
  - apply (worker_device _ s' d); [done| |done]. intros z j Hz Hzr Hj. cbv zeta. rewrite Es. rewrite HB; [done|]. rewrite (es_num _ _ F4) in Hzr.
    intros E. pose proof (zk_layout _ I1) as Hok. pose proof (lo_num _ _ Hok). pose proof (lo_size _ _ Hok i Hi). apply loc_inj in E as [-> _]; [|lia..|done|lia].
    by apply reserved_copy in Hz as [?|?].
  - by apply threshold_env.
  - by rewrite Es.
  - intros Ec. exfalso. by eapply hot_lsm.
  - by rewrite (es_num _ _ F4), Es.
Qed.

Lemma inv_delete s' k :
  let r := MkRec 0 false (timestamp (meta s) + 1) in
  foreground (record H k r) s s' -> layout_eq (IMR_NUMZONES s) (ly_delete k (layout_of s)) (layout_of s') ->
  disk_inv (record H k r) (write_cells A (8 * k) (replicate 8 (Known 0))) (MkDisk s' d fl n w).
Proof.
  intros r [F1 F2 F3 F4 F5] Hl. pose proof (env_start _ _ F4) as Es. pose proof Hinv as [I1 I2 I3 I4 I5 I6 I7 I8 I9 I10 I11]. dk.
  assert (forall k', fwd s' k' = if decide (k' = k) then None else fwd s k') as Hf by (intros k'; exact (le_fwd _ _ _ Hl k')).
  split; dk; try done.
  - by apply awake_lsm.
  - intros k' r'. rewrite Hf. unfold record. destruct (decide (k' = k)); [by intros [= <-]|apply I3].
  - rewrite (es_num _ _ F4), Es. eapply data_layout; [|exact Hl]. by apply data_delete.
  - by rewrite (es_inflight _ _ F4).
  - apply (worker_plan H _ s s' d w); [done|done| |done]. intros p (Hp & _). pose proof (pd_moves _ _ _ Hp) as HM. apply (planned_step H p s s' k r); try done.
    + lia.
    + cbn. lia.
    + intros k' Hk'. rewrite Hf. by rewrite decide_False.
    + intros j Hj. rewrite Hf. by rewrite decide_True.
    + intros z Hz. assert (0 <= z < IMR_NUMZONES s) as Hzr by (destruct Hz as [->| ->]; [apply HM|apply HM]). split; [by apply (le_size _ _ _ Hl)|].
      intros j Hj. by apply (le_key _ _ _ Hl).
  - by apply threshold_env.
  - by rewrite Es.
  - intros Ec. exfalso. by eapply hot_lsm.
  - by rewrite (es_num _ _ F4), Es.
Qed.

(** ** Completions *)

Lemma inv_land f torn x l :
  lenZ fl < 2 ^ 31 -> f ∈ fl -> (forall t, torn = Some t -> lenZ t = 8) -> disk_land f torn (MkDisk s d fl n w) = (x, l) ->
  l = Landed (fl_id f) (match torn with Some _ => false | None => true end) /\
  disk_inv H (land_cells A (fl_id f) (match torn with Some _ => false | None => true end)) x.
Proof.
  intros Hfl Hf Ht E. unfold disk_land in E. dk. injection E as <- <-. split; [done|]. pose proof Hinv as [I1 I2 I3 I4 I5 I6 I7 I8 I9 I10 I11]. dk.
  set (data := match torn with Some t => t | None => fl_data f end). set (ok := match torn with Some _ => false | None => true end).
  destruct (do_flights _ _ _ _ _ _ _ _ I4 f Hf) as (Hlen & _ & i & j & Hi & Hj & Hnr & Esec). split; dk.
  - by apply inflight_zones.
  - by apply inflight_lsm.
  - done.
  - apply (data_land _ _ _ A (dv_blocks d) fl); [done|done| |].
    + intros a Ha. cbn. unfold upd_fn. by replace (a =? fl_sector f) with false by lia.
    + intros Eok. cbn. unfold upd_fn. rewrite Z.eqb_refl. unfold data, ok in *. by destruct torn.
  - cbn [append_writes_inflight set_append_writes_inflight imrsim_end_io]. rewrite I5.
    change (List.filter _ fl) with (others fl f). rewrite (lenZ_others fl f) by (done || apply I4). pose proof (lenZ_others fl f Hf (do_ids _ _ _ _ _ _ _ _ I4)).
    pose proof (lenZ_nonneg (others fl f)). apply i32_small. lia.
  - split; [|apply I6]. intros a. cbn. unfold upd_fn. destruct (a =? fl_sector f); [|apply I6]. unfold data. destruct torn; [by apply Ht|done].
  - apply (inflight_worker H (i32 (append_writes_inflight s - 1))), (worker_device H s d); [done| |done]. intros z j' Hz Hzr Hj'. cbv zeta. cbn. unfold upd_fn.
    destruct (Z.eqb_spec (loc (output_bdev_start s) (imr_lsm_zone_append_pba z j')) (fl_sector f)) as [E|]; [|done]. exfalso. rewrite Esec in E.
    pose proof (zk_layout _ I1) as Hok. pose proof (lo_num _ _ Hok). pose proof (lo_size _ _ Hok i Hi). apply loc_inj in E as [-> _]; [done|lia..|done|lia].
  - done.
  - done.
  - done.
  - done.
Qed.

(** ** Collections *)

Lemma inv_worker w' : (forall i, reserved w' i -> reserved w i) -> worker_ok H s d w' -> w <> Compacting Idle -> disk_inv H A (MkDisk s d fl n w').
Proof.
  intros Hr Hw Hne. pose proof Hinv as [I1 I2 I3 I4 I5 I6 I7 I8 I9 I10 I11]. dk. split; dk; try done.
  - apply (data_busy _ _ _ _ _ _ _ _ I4). intros i _. apply Hr.
  - intros Ec. by apply I10 in Ec.
Qed.

Lemma inv_begin_hot src s' r : w = Compacting Idle -> lsm_inv H s -> timestamp (meta s) + TOTAL_ITEMS + 1 < 2 ^ 32 -> compact_zone_begin src s = (s', r) ->
  disk_inv H A (MkDisk s' d fl n match r with Ok p => Reserved p | Fail _ => Compacting Idle end) /\
  timestamp (meta s') <= timestamp (meta s) + TOTAL_ITEMS.
Proof.
  intros Hw Hi Hts E. pose proof Hinv as [I1 I2 I3 I4 I5 I6 I7 I8 I9 I10 I11]. dk. pose proof (compact_zone_begin_spec H src s I1 Hi I8 Hts) as Hb. rewrite E in Hb.
  destruct Hb as (Z1 & L1 & El & [K1 K2 K3 K4] & Ht & Hr). split; [|lia]. assert (output_bdev_start s' = output_bdev_start s) as Es by (cbn in K2; by injection K2).
  assert (forall k, fwd s' k = fwd s k) as Hf by (intros k; exact (f_equal (fun L => ly_fwd L k) El)).
  split; dk; try done.
  - by apply awake_lsm.
  - intros k rc. rewrite Hf. apply I3.
  - rewrite K1, Es, El. subst w. destruct r as [p|e]; [|done]. destruct Hr as (Hin & _). assert (fl = []) as -> by (apply lenZ_0; pose proof (lenZ_nonneg fl); lia).
    destruct I4 as [D1 D2 D3 D4 D5]. split; try done. by intros f ?%elem_of_nil.
  - by rewrite K3.
  - destruct r as [p|e].
    + destruct Hr as (_ & Hs & _ & C1 & C2 & Hp). split_and!; [done|congruence|done].
    + split; [done|]. destruct Hr as [_ Ec]. subst w. destruct I7 as [_ Hu]. cbn in Ec. injection Ec as _ Ec1 Ec2. unfold unreserved. by rewrite Ec1, Ec2.
  - by rewrite (threshold_cfg s s' K4).
  - by rewrite Es.
  - intros Ec. exfalso. by eapply hot_lsm.
  - by rewrite K1, Es.
Qed.

End frames.

Lemma inv_begin H A s d fl n src s' r : disk_inv H A (MkDisk s d fl n (Compacting Idle)) -> timestamp (meta s) + TOTAL_ITEMS + 1 < 2 ^ 32 -> compact_zone_begin src s = (s', r) ->
  disk_inv H A (MkDisk s' d fl n match r with Ok p => Reserved p | Fail _ => Compacting Idle end).
Proof.
  intros Hinv Hts E. destruct (begin_wake src s) as [[e Ee]|Ee]; rewrite Ee in E; [by injection E as <- <-|].
  pose proof (inv_ensure _ _ _ _ _ _ _ Hinv) as Hinv'. eapply (inv_begin_hot _ _ _ _ _ _ _ Hinv'); [done|apply Hinv| |done].
  by rewrite (ensure_time _ _ _ _ _ _ _ Hinv).
Qed.

(** ** Page I/O *)

Lemma submit_spec d d' e : imrsim_submit_internal_page_io d = (d', e) -> dev_ok d ->
  dev_ok d' /\ dv_blocks d' = dv_blocks d /\ (e.1 < 0 -> lenZ e.2 = 8).
Proof.
  unfold imrsim_submit_internal_page_io. intros E [H1 H2]. destruct (dv_script d) as [|x l] eqn:Es; injection E as <- <-.
  - split_and!; [split; [done|by rewrite Es]|done|cbn; lia].
  - apply Forall_cons in H2 as [Hx Hl]. split_and!; [by split|done|done].
Qed.
Lemma read_page_spec a d d' r : imrsim_read_page a d = (d', r) -> dev_ok d ->
  dev_ok d' /\ dv_blocks d' = dv_blocks d /\ match r with Ok b => b = dv_blocks d a | Fail e => e < 0 end.
Proof.
  unfold imrsim_read_page. intros E Hd. destruct (imrsim_submit_internal_page_io d) as [d1 [ret torn]] eqn:Es.
  destruct (submit_spec _ _ _ Es Hd) as (Hd1 & Eb & _). injection E as <- <-. split_and!; [done|done|]. rewrite Eb. destruct (ret <? 0) eqn:Er; [lia|done].
Qed.
Lemma write_page_spec a data d d' ret : imrsim_write_page a data d = (d', ret) -> dev_ok d -> lenZ data = 8 ->
  dev_ok d' /\ (forall b, b <> a -> dv_blocks d' b = dv_blocks d b) /\ (ret = 0 /\ dv_blocks d' a = data \/ ret < 0).
Proof.
  unfold imrsim_write_page. intros E Hd Hl. destruct (imrsim_submit_internal_page_io d) as [d1 [r torn]] eqn:Es.
  destruct (submit_spec _ _ _ Es Hd) as (Hd1 & Eb & Ht). cbn in Ht.
  assert (forall b, lenZ b = 8 -> dev_ok (MkDevice (upd_fn (dv_blocks d1) a b) (dv_script d1))) as Hu.
  { intros b Hb. split; [|apply Hd1]. intros c. cbn. unfold upd_fn. destruct (c =? a); [done|apply Hd1]. }
  assert (forall (b : block) c, c <> a -> upd_fn (dv_blocks d1) a b c = dv_blocks d c) as Hne.
  { intros b c Hc. unfold upd_fn. rewrite Eb. by replace (c =? a) with false by lia. }
  destruct (r <? 0) eqn:Er; injection E as <- <-; (split_and!; [apply Hu; (done || (apply Ht; lia))|intros; by apply Hne|]).
  - right. lia.
  - left. split; [done|]. cbn. unfold upd_fn. by rewrite Z.eqb_refl.
Qed.

(** ** Copying *)

(** [p'] is [p] with other counters of copied entries. *)
Record recounts (p p' : zone_plan) : Prop := {
  rc_builder : zp_builder p' = zp_builder p;
  rc_zones : zp_source_zone p' = zp_source_zone p /\ zp_dest_zone0 p' = zp_dest_zone0 p;
  rc_live : zp_live_entries p' = zp_live_entries p;
  rc_bdev : zp_bdev p' = zp_bdev p /\ zp_bdev_start p' = zp_bdev_start p;
}.
Lemma holds_recounts H p p' s : recounts p p' -> holds_plan H p s -> holds_plan H p' s.
Proof.
  intros [R1 [R2 R3] R4 [R5 R6]] ([P1 P2 P3 PM P4 P5 P6 P7 PK P8] & C1 & C2). split_and!; [|congruence..].
  split; rewrite ?R1, ?R2, ?R3, ?R4, ?R5, ?R6; done.
Qed.

Lemma copy_entry_spec active e p d d' p' ret :
  copy_entry active e p d = (d', p', ret) -> dev_ok d -> be_source_pba e <> be_pba e ->
  dev_ok d' /\ recounts p p' /\ (forall a, a <> loc (zp_bdev_start p) (be_pba e) -> dv_blocks d' a = dv_blocks d a) /\
  (ret = 0 -> dv_blocks d' (loc (zp_bdev_start p) (be_pba e)) = dv_blocks d (loc (zp_bdev_start p) (be_source_pba e))).
Proof.
  intros E Hd Hne. unfold copy_entry in E. destruct active; cbn [negb] in E. 2: { injection E as <- <- <-. split_and!; [done|by split|done|done]. }
  unfold imr_lsm_copy_zone_compaction_block in E. replace (be_source_pba e =? be_pba e) with false in E by lia.
  destruct (zp_bdev p). 2: { injection E as <- <- <-. split_and!; [done|by split|done|done]. }
  destruct (imrsim_read_page _ d) as [d1 r] eqn:Er. destruct (read_page_spec _ _ _ _ Er Hd) as (Hd1 & Eb & Hr). destruct r as [data|er].
  2: { replace (negb (er =? 0)) with true in E by lia. injection E as <- <- <-. split_and!; [done|by split|by intros a _; rewrite Eb|lia]. }
  subst data. destruct (imrsim_write_page _ _ d1) as [d2 rw] eqn:Ew. destruct (write_page_spec _ _ _ _ _ Ew Hd1 (proj1 Hd _)) as (Hd2 & Hother & Hw).
  fold (loc (zp_bdev_start p) (be_pba e)) in Hother, Hw. rewrite Eb in Hother. destruct (rw <? 0) eqn:El.
  - replace (negb (rw =? 0)) with true in E by lia. injection E as <- <- <-. split_and!; [done|by split|done|lia].
  - change (negb (0 =? 0)) with false in E. injection E as <- <- <-. split_and!; [done|by split|done|]. intros _. destruct Hw as [[_ Hw]|]; [done|lia].
Qed.

(** No two copies share a block. *)
Lemma copies_distinct H p s l e todo x :
  planned H p s -> sb_table (zp_builder p) = l ++ e :: todo -> x ∈ l -> be_pba x <> be_pba e.
Proof.
  intros Hp El Hx E. pose proof (to_NoDup _ _ _ _ _ (pd_moves _ _ _ Hp)) as Hn. rewrite El, map_map, map_app in Hn. apply NoDup_app in Hn as (_ & Hn & _).
  apply (Hn (mv_to (move_of (zp_source_zone p) (zp_dest_zone0 p) x))); [by apply (elem_map (fun y => mv_to (move_of _ _ y)))|].
  cbn [map]. cbn. rewrite E. by left.
Qed.

Section collecting.
Context (H : newest_map) (A : cells) (s : kstate) (d : device) (fl : list flight) (n : nat).

Lemma inv_page p s' a : disk_inv H A (MkDisk s d fl n (Reserved p)) -> st_alloc s = (s', a) ->
  disk_inv H A (MkDisk s' d fl n match a with Some _ => Copying p (sb_table (zp_builder p)) | None => Copied p (- ENOMEM) end).
Proof.
  intros Hinv Ea. pose proof (inv_alloc _ _ _ _ _ _ _ Hinv s' a Ea) as Hinv'. apply (inv_worker _ _ _ _ _ _ _ Hinv').
  - intros i. by destruct a.
  - pose proof (di_worker _ _ _ Hinv') as Hw. destruct a; (split; [exact Hw|]); [|done]. exists []. split; [done|]. by intros e ?%elem_of_nil.
  - done.
Qed.

Lemma inv_copy p e todo d' p' ret : disk_inv H A (MkDisk s d fl n (Copying p (e :: todo))) -> copy_entry (target_active s) e p d = (d', p', ret) ->
  disk_inv H A (MkDisk s d' fl n (if ret =? 0 then Copying p' todo else Copied p' ret)).
Proof.
  intros Hinv E. pose proof Hinv as [I1 I2 I3 I4 I5 I6 I7 I8 I9 I10 I11]. dk. destruct I7 as (Hh & l & El & Hl). pose proof Hh as (Hp & C1 & C2).
  assert (forall x, x ∈ l \/ x = e -> x ∈ sb_table (zp_builder p)) as Hin.
  { intros x Hx. rewrite El. apply elem_of_app. destruct Hx as [Hx| ->]; [by left|right; by left]. }
  pose proof (pd_moves _ _ _ Hp) as HM. pose proof (zk_layout _ I1) as Hok. pose proof (lo_num _ _ Hok) as HN.
  destruct (plan_slots_in _ _ _ e Hp I1 (Hin e (or_intror eq_refl))) as [(js & Hjs & Es) (jd & Hjd & Ed)].
  pose proof (mo_src _ _ _ _ _ HM) as Hsrc. pose proof (mo_dst _ _ _ _ _ HM) as Hdst. pose proof (mo_ne _ _ _ _ _ HM) as Hne.
  destruct (copy_entry_spec _ _ _ _ _ _ _ E I6) as (Hd' & Hrc & Hother & Hcopied).
  { rewrite Es, Ed. intros X. apply append_pba_inj in X as [X _]; [done|lia..|done|done]. }
  assert (zp_bdev_start p = output_bdev_start s) as Est by apply Hp. rewrite Est in *.
  assert (forall x, x ∈ l -> dv_blocks d' (loc (output_bdev_start s) (be_pba x)) = dv_blocks d' (loc (output_bdev_start s) (be_source_pba x))) as Hkept.
  { intros x Hx. destruct (plan_slots_in _ _ _ x Hp I1 (Hin x (or_introl Hx))) as [(js' & Hjs' & Es') (jd' & Hjd' & Ed')].
    rewrite !Hother; [by apply Hl|..]; rewrite Ed, ?Es', ?Ed'; intros X; (apply loc_inj in X as [X1 X2]; [|lia..|done|done]); [congruence|].
    apply (copies_distinct _ _ _ _ _ _ _ Hp El Hx). congruence. }
  pose proof (rc_zones _ _ Hrc) as [Rs Rd]. split; dk; try done.
  - eapply data_busy; [eapply (data_copy _ _ I9 _ _ _ _ _ _ Hok I4 (zp_dest_zone0 p) jd); [done|done|apply HM|by rewrite <- Ed]|].
    intros i _. cbn. rewrite <- Rs, <- Rd. by destruct (ret =? 0).
  - pose proof (holds_recounts H p p' s Hrc Hh) as Hh'. destruct (ret =? 0) eqn:Er.
    + split; [done|]. exists (l ++ [e]). rewrite (rc_builder _ _ Hrc), El, <- app_assoc. split; [done|]. intros x [Hx|[->|Hx%elem_of_nil]%elem_of_cons]%elem_of_app; [by apply Hkept| |done].
      rewrite (Hcopied ltac:(lia)), Hother; [done|]. rewrite Es, Ed. intros X. apply loc_inj in X as [X _]; [done|lia..|done|done].
    + split; [done|]. lia.
  - intros Ec. by apply I10 in Ec.
Qed.

Lemma collected_fwd p s' k : planned H p s ->
  layout_eq (IMR_NUMZONES s) (ly_collect (zp_source_zone p) (zp_dest_zone0 p) (plan_moves p) (layout_of s)) (layout_of s') ->
  fwd s' k = match entry_of k (sb_table (zp_builder p)) with Some e => if wins e s then Some (be_pba e) else fwd s k | None => fwd s k end.
Proof.
  intros Hp Hl. etransitivity; [exact (le_fwd _ _ _ Hl k)|]. unfold ly_collect. cbn [ly_fwd]. rewrite find_key_map.
  destruct (entry_of k _) as [e|] eqn:E; [|done]. cbn [fmap option_fmap option_map]. apply entry_of_Some in E as [He _].
  rewrite (plan_wins H p s Hp e He). destruct (pd_entries _ _ _ Hp e He) as (_ & _ & Ed). destruct (wins e s); [|done]. cbn. by rewrite <- Ed.
Qed.

Lemma relocated_agrees p s' : planned H p s -> agrees H s ->
  layout_eq (IMR_NUMZONES s) (ly_collect (zp_source_zone p) (zp_dest_zone0 p) (plan_moves p) (layout_of s)) (layout_of s') ->
  agrees (relocated H (sb_table (zp_builder p)) s) s'.
Proof.
  intros Hp Ha Hl k r. rewrite (collected_fwd p s' k Hp Hl). unfold relocated. destruct (entry_of k _) as [e|] eqn:E; [|apply Ha].
  destruct (wins e s); [|apply Ha]. intros [= <-]. apply entry_of_Some in E as [He _]. destruct (pd_entries _ _ _ Hp e He) as (Hv & _). cbn. by rewrite Hv.
Qed.

(** The end of a collection: every sector shows what it showed, and the invariant
    holds if the publication was calm. *)
Lemma inv_finish p ret s' r : disk_inv H A (MkDisk s d fl n (Copied p ret)) -> compact_zone_finish p ret s = (s', r) ->
  (forall q v, shows (output_bdev_start s') (layout_of s') (dv_blocks d) q v <-> shows (output_bdev_start s) (layout_of s) (dv_blocks d) q v) /\
  timestamp (meta s') = timestamp (meta s) /\
  (r <> 0 \/ calm (sb_table (zp_builder p)) s = true -> exists H', disk_inv H' A (MkDisk s' d fl n (Compacting Idle))).
Proof.
  intros Hinv E. pose proof Hinv as [I1 I2 I3 I4 I5 I6 I7 I8 I9 I10 I11]. dk. destruct I7 as [(Hp & C1 & C2) Hmir].
  assert (initialized (meta s) = true) as Hot by (destruct (initialized (meta s)); [done|by specialize (I10 eq_refl)]).
  pose proof (compact_zone_finish_spec H p ret s I1 (awake_hot _ _ Hot I2) Hp C1 C2) as Hf. rewrite E in Hf. destruct Hf as (Z1 & [K1 K2 K3 K4] & Ht & Hu & Hr).
  assert (output_bdev_start s' = output_bdev_start s) as Es by (cbn in K2; by injection K2). rewrite Es.
  assert (1 <= imr_lsm_compaction_threshold_locked s' <= U32_MAX) as Hth by (by rewrite (threshold_cfg s s' K4)).
  destruct Hr as [(-> & -> & Hl & Hcalm)|(Hr & El & Hi)].
  - destruct (data_collect _ _ I9 _ _ _ _ _ _ (zk_layout _ I1) I4 (zp_source_zone p) (zp_dest_zone0 p) (plan_moves p)) as [Hd Hsh].
    + apply Hp.
    + by left.
    + by right.
    + intros m (e & -> & He)%list_elem_of_fmap. destruct (pd_entries _ _ _ Hp e He) as (_ & E1 & E2). cbn. rewrite <- E1, <- E2. by apply Hmir.
    + split_and!; [|done|].
      * intros q v. rewrite <- Hsh. unfold shows. by rewrite (le_fwd _ _ _ Hl).
      * intros [?|Hc]; [done|]. exists (relocated H (sb_table (zp_builder p)) s). split; dk; try done.
        -- by apply awake_lsm, Hcalm.
        -- by apply relocated_agrees.
        -- rewrite K1, Es. by eapply data_layout.
        -- by rewrite K3.
        -- by rewrite Es.
        -- by rewrite K1, Es.
  - rewrite El. split_and!; [done|done|]. intros _. exists H. split; dk; try done.
    + by apply awake_lsm.
    + intros k rc. assert (fwd s' k = fwd s k) as -> by exact (f_equal (fun L => ly_fwd L k) El). apply I3.
    + rewrite K1, Es, El. apply (data_busy _ _ _ _ _ _ _ _ I4). by intros.
    + by rewrite K3.
    + by rewrite Es.
    + by rewrite K1, Es.
Qed.
End collecting.
End disk.
