(* ===== verification/ImrPersistSpec.v ===== *)
(** Saving and loading the zone state: what a save leaves on the device, and that
    a load of it gives the zones back. *)

From S2P Require Import Prelude StdMap ImrPrelude ImrGeometry ImrBloom ImrState ImrReadTree ImrLevels ImrSegment ImrPlacement ImrAccounting ImrCore ImrLsm ImrLsmInv ImrLsmOps ImrZones ImrGc ImrTarget ImrImage ImrPersist ImrImageSpec ImrIo ImrLayout ImrZoneFrame ImrZoneInv ImrZoneOps ImrGcPublish ImrCold ImrDisk ImrDiskData ImrDiskInv.

(** ** Pages of the device *)

(** Byte [o] of the area from sector [lba] on. *)
Definition area_byte (B : Z -> block) (lba o : Z) : Z := page_byte (B (lba + 8 * (o / 4096))) (o mod 4096).
(** The area holds the memory [m] up to [length]. *)
Definition area_holds (m : memory) (lba length : Z) (B : Z -> block) : Prop := forall o, 0 <= o < length -> area_byte B lba o = m o.

Lemma page_split o : 0 <= o -> 0 <= o / 4096 /\ 0 <= o mod 4096 < 4096 /\ o = 4096 * (o / 4096) + o mod 4096.
Proof. intros Ho. split_and!; Z.to_euclidean_division_equations; lia. Qed.
Lemma page_at idx o : 4096 * idx <= o < 4096 * idx + 4096 -> o / 4096 = idx /\ o mod 4096 = o - 4096 * idx.
Proof. intros Ho. split; Z.to_euclidean_division_equations; lia. Qed.
Lemma page_offset idx : imrsim_pstore_page_offset idx = 8 * idx.
Proof. unfold imrsim_pstore_page_offset. change (Z.shiftr PAGE_SIZE 9) with 8. lia. Qed.

(** What writing pages of an area leaves: [d'] has the pages of [image] there
    unless it failed, and nothing else changed. *)
Record pages_written (image : Z -> block) (lba : Z) (pages : list Z) (d d' : device) (ret : Z) : Prop := {
  pw_dev : dev_ok d';
  pw_else : forall a, (forall idx, idx ∈ pages -> a <> lba + 8 * idx) -> dv_blocks d' a = dv_blocks d a;
  pw_ret : ret <= 0;
  pw_pages : ret = 0 -> forall idx, idx ∈ pages -> dv_blocks d' (lba + 8 * idx) = image idx;
}.

Lemma write_page_healthy a b d : dv_script d = [] -> imrsim_write_page a b d = (MkDevice (upd_fn (dv_blocks d) a b) [], 0).
Proof. unfold imrsim_write_page, imrsim_submit_internal_page_io. intros E. rewrite E. cbn. by rewrite E. Qed.
Lemma read_page_healthy a d : dv_script d = [] -> imrsim_read_page a d = (d, Ok (dv_blocks d a)).
Proof. unfold imrsim_read_page, imrsim_submit_internal_page_io. intros ->. done. Qed.

Section pages.
Context (image : Z -> block) (lba : Z).
Hypothesis (Himage : forall idx, lenZ (image idx) = 8).
Abbreviation written := (pages_written image lba).

Lemma pages_none d : dev_ok d -> written [] d d 0.
Proof. intros Hd. split; try done. by intros _ idx ?%elem_of_nil. Qed.
Lemma page_written idx d d' ret : imrsim_write_page (lba + imrsim_pstore_page_offset idx) (image idx) d = (d', ret) -> dev_ok d -> written [idx] d d' ret.
Proof.
  rewrite page_offset. intros E Hd. destruct (write_page_spec _ _ _ _ _ E Hd (Himage idx)) as (H1 & H2 & H3). split.
  - done.
  - intros a Ha. apply H2, Ha. by left.
  - destruct H3 as [[-> _]|?]; lia.
  - intros -> i ->%list_elem_of_singleton. by destruct H3 as [[_ H3]|?].
Qed.
(** Some pages after others, or not at all after a failure. *)
Lemma pages_app l k d d1 d2 ret : written l d d1 0 -> written k d1 d2 ret -> written (l ++ k) d d2 ret.
Proof.
  intros [A1 A2 A3 A4] [B1 B2 B3 B4]. split; try done.
  - intros a Ha. rewrite B2, A2; [done| |]; intros i Hi; apply Ha, elem_of_app; tauto.
  - intros Hr i Hi. destruct (decide (i ∈ k)) as [Hk|Hk]; [by apply B4|]. apply elem_of_app in Hi as [Hi|Hi]; [|done].
    rewrite B2; [by apply A4|]. intros j Hj E. apply Hk. by replace i with j by lia.
Qed.
Lemma pages_stop l k d d' ret : ret < 0 -> written l d d' ret -> written (l ++ k) d d' ret.
Proof.
  intros Hr [A1 A2 A3 A4]. split; try done; [|lia]. intros a Ha. apply A2. intros i Hi. apply Ha, elem_of_app. by left.
Qed.
Lemma write_pages_spec pages : forall d d' ret, write_pages image lba pages d = (d', ret) -> dev_ok d -> written pages d d' ret.
Proof.
  induction pages as [|idx pages IH]; intros d d' ret E Hd; cbn [write_pages] in E; [injection E as <- <-; by apply pages_none|].
  destruct (imrsim_write_page _ _ d) as [d1 r] eqn:Ew. pose proof (page_written _ _ _ _ Ew Hd) as W. destruct (r <? 0) eqn:Er.
  - injection E as <- <-. apply (pages_stop [idx]); [lia|done].
  - assert (r = 0) as -> by (pose proof (pw_ret _ _ _ _ _ _ W); lia). apply (pages_app [idx] pages d d1); [done|]. apply IH; [done|apply W].
Qed.
End pages.
Lemma write_pages_healthy image lba pages : forall d, dv_script d = [] -> exists d', write_pages image lba pages d = (d', 0) /\ dv_script d' = [].
Proof.
  induction pages as [|idx pages IH]; intros d Hs; cbn [write_pages]; [by exists d|]. rewrite write_page_healthy by done. by apply IH.
Qed.
Lemma write_pages_ext image image' lba pages : (forall idx, idx ∈ pages -> image idx = image' idx) -> forall d, write_pages image lba pages d = write_pages image' lba pages d.
Proof.
  induction pages as [|idx pages IH]; intros H d; [done|]. cbn [write_pages]. rewrite H by (by left). destruct (imrsim_write_page _ _ d) as [d1 r].
  destruct (r <? 0); [done|]. apply IH. intros i Hi. apply H. by right.
Qed.

(** ** The image *)

(** The page [idx] of the first [length] bytes of [m]. *)
Definition image_page (m : memory) (length idx : Z) : block := page_of (clipped length m) (4096 * idx).
Lemma image_page_full m length idx : 4096 * idx + 4096 <= length -> image_page m length idx = page_of m (4096 * idx).
Proof. intros H. apply page_of_ext. intros o Ho. unfold clipped. by replace (o <? length) with true by lia. Qed.
Lemma image_area m lba length B :
  (forall o, is_byte (m o)) -> (forall idx, 0 <= idx -> 4096 * idx < length -> B (lba + 8 * idx) = image_page m length idx) -> area_holds m lba length B.
Proof.
  intros Hm HB o Ho. destruct (page_split o) as (H1 & H2 & H3); [lia|]. unfold area_byte. rewrite HB by lia. unfold image_page.
  assert (forall o, is_byte (clipped length m o)) as Hc by (intros x; unfold clipped; destruct (_ <? _); [done|unfold is_byte; lia]).
  rewrite page_byte_page by (done || lia). rewrite <- H3. unfold clipped. by replace (o <? length) with true by lia.
Qed.

(** The device holds the pages of [t]. *)
Definition has_image (t : target) (lba length : Z) (B : Z -> block) : Prop :=
  forall idx, 0 <= idx -> 4096 * idx < length -> B (lba + 8 * idx) = image_page (state_memory t) length idx.

Lemma has_image_area t lba length B : has_image t lba length B -> area_holds (state_memory t) lba length B.
Proof. intros H. apply image_area; [apply state_memory_range|exact H]. Qed.

(** The state can be saved: its header names its size, and its zones are sound. *)
Record image_ok (t : target) : Prop := {
  im_magic : hd_magic (tg_header t) = STATE_MAGIC;
  im_version : hd_version (tg_header t) = VERSION;
  im_length : hd_length (tg_header t) = state_length (IMR_NUMZONES (tg_state t));
  im_stats : stats_num_zones t = IMR_NUMZONES (tg_state t);
  im_num : 1 <= IMR_NUMZONES (tg_state t) <= 7759;
  im_zones : zones_ok (tg_state t);
}.

Lemma set_hp_zones h s : zones_ok s -> zones_ok (set_hp h s).
Proof. by apply zones_ok_zhalf. Qed.
Lemma image_ok_saved c h t : image_ok t -> image_ok (set_crc c (set_tg_state (set_hp h (tg_state t)) t)).
Proof. intros [I1 I2 I3 I4 I5 I6]. split; try done. by apply set_hp_zones. Qed.

Section save.
Context (crc32 : list Z -> Z).

(** The header has the checksum of the state. *)
Definition sealed (t : target) : Prop := hd_crc32 (tg_header t) = state_crc crc32 (state_memory t) (hd_length (tg_header t)).

Lemma state_crc_ext m m' length : (forall o, 16 <= o < length -> m o = m' o) -> state_crc crc32 m length = state_crc crc32 m' length.
Proof.
  intros H. unfold state_crc. f_equal. apply map_ext_in. intros o Ho. apply list_elem_of_In, elem_of_seqZ in Ho. change sizeof_state_header with 16 in Ho. apply H. lia.
Qed.
Lemma memory_crc c t o : 16 <= o -> state_memory (set_crc c t) o = state_memory t o.
Proof.
  intros Ho. unfold state_memory. change (tg_state (set_crc c t)) with (tg_state t). cbv zeta. destruct (o <? offset_stats + offset_zone_stats); [|done].
  unfold state_struct. cbn [struct_byte set_crc set_tg_header tg_header hd_magic hd_length hd_version hd_crc32].
  replace (o <? 0 + 4) with false by lia. replace (o <? 4 + 4) with false by lia. replace (o <? 8 + 4) with false by lia. replace (o <? 12 + 4) with false by lia.
  rewrite !andb_false_r. done.
Qed.
Lemma sealed_crc t : sealed (set_crc (state_crc crc32 (state_memory t) (hd_length (tg_header t))) t).
Proof. unfold sealed. cbn [set_crc set_tg_header tg_header hd_crc32 hd_length]. apply state_crc_ext. intros o Ho. symmetry. apply memory_crc. lia. Qed.

Definition healthy (s : kstate) (d : device) : Prop := hp_script (hp s) = [] /\ dv_script d = [].

Record saved (t : target) (d : device) (t' : target) (d' : device) (ret : Z) : Prop := {
  sv_target : exists c h, hp_next (hp (tg_state t)) <= hp_next h /\ t' = set_crc c (set_tg_state (set_hp h (tg_state t)) t);
  sv_dev : dev_ok d';
  sv_below : forall a, a < pstore_lba t -> dv_blocks d' a = dv_blocks d a;
  sv_ret : ret <= 0;
  sv_area : ret = 0 -> sealed t' /\ has_image t' (pstore_lba t) (hd_length (tg_header t)) (dv_blocks d');
  sv_healthy : healthy (tg_state t) d -> healthy (tg_state t') d' /\ ret = 0;
}.

Lemma set_crc_id t : set_crc (hd_crc32 (tg_header t)) t = t.
Proof. destruct t as [? [] ? ? ? ? ? ? ? ?]. done. Qed.
Lemma st_alloc_healthy s : exists h a, st_alloc s = (set_hp h s, a) /\ hp_next (hp s) <= hp_next h /\ (hp_script (hp s) = [] -> a <> None /\ hp_script h = []).
Proof. unfold st_alloc, kzalloc. destruct (hp_script (hp s)) as [|[] l]; (eexists _, _; split; [reflexivity|]; split; [cbn; lia|done]). Qed.

Lemma write_image_spec m length lba d d' ret : write_image m length lba d = (d', ret) -> dev_ok d -> 0 <= length ->
  pages_written (image_page m length) lba (seqZ 0 ((length + 4095) / 4096)) d d' ret.
Proof.
  intros E Hd Hl. unfold write_image in E. change PAGE_SIZE with 4096 in E. cbv zeta in E.
  assert (forall idx, lenZ (image_page m length idx) = 8) as Hlen by (intros; apply lenZ_page).
  destruct (write_pages _ lba _ d) as [d1 r] eqn:Ew.
  assert (write_pages (image_page m length) lba (seqZ 0 (length / 4096)) d = (d1, r)) as Ew'.
  { rewrite <- Ew. apply write_pages_ext. intros idx Hidx%elem_of_seqZ. apply image_page_full. Z.to_euclidean_division_equations; lia. }
  clear Ew. pose proof (write_pages_spec _ _ Hlen _ _ _ _ Ew' Hd) as W. destruct (length mod 4096 =? 0) eqn:Em; cbn [negb] in E.
  - replace ((length + 4095) / 4096) with (length / 4096) by (Z.to_euclidean_division_equations; lia).
    pose proof (pw_ret _ _ _ _ _ _ W). destruct (r <? 0) eqn:Er; injection E as <- <-; [done|]. by assert (r = 0) as -> by lia.
  - replace ((length + 4095) / 4096) with (length / 4096 + 1) by (Z.to_euclidean_division_equations; lia).
    rewrite seqZ_app by (Z.to_euclidean_division_equations; lia). change (seqZ (0 + length / 4096) 1) with [0 + length / 4096]. rewrite Z.add_0_l.
    destruct (r <? 0) eqn:Er; [injection E as <- <-; apply pages_stop; [lia|done]|].
    assert (r = 0) as -> by (pose proof (pw_ret _ _ _ _ _ _ W); lia).
    destruct (imrsim_write_page _ _ d1) as [d2 r2] eqn:Ep. pose proof (page_written _ _ Hlen _ _ _ _ Ep (pw_dev _ _ _ _ _ _ W)) as W2.
    eapply pages_app; [exact W|]. injection E as <- <-. pose proof (pw_ret _ _ _ _ _ _ W2). destruct (r2 <? 0) eqn:Er2; [done|]. by assert (r2 = 0) as -> by lia.
Qed.

Lemma write_image_healthy m length lba d : dv_script d = [] -> exists d', write_image m length lba d = (d', 0) /\ dv_script d' = [].
Proof.
  intros Hs. unfold write_image. cbv zeta. destruct (write_pages_healthy (fun idx => page_of m (PAGE_SIZE * idx)) lba (seqZ 0 (length / PAGE_SIZE)) d Hs) as (d1 & -> & Hs1).
  cbn [Z.ltb]. destruct (negb _); [|by exists d1]. rewrite write_page_healthy by done. by eexists.
Qed.

Lemma save_spec t d : image_ok t -> dev_ok d -> exists t' d' ret, imrsim_save_persistence crc32 t d = Some (t', d', ret) /\ saved t d t' d' ret.
Proof.
  intros Hi Hd. unfold imrsim_save_persistence. destruct (zk_zones _ (im_zones _ Hi)) as (zs & Ez & _ & _). rewrite Ez.
  destruct (st_alloc_healthy (tg_state t)) as (h & a & Ea & Hhp & Hal). rewrite Ea. destruct a as [a|].
  2: { eexists _, _, _. split; [reflexivity|]. split; try done.
    - exists (hd_crc32 (tg_header t)), h. split; [done|]. exact (eq_sym (set_crc_id _)).
    - intros [Hs _]. by destruct (Hal Hs). }
  set (t1 := set_tg_state (set_hp h (tg_state t)) t). cbv zeta. change (hd_length (tg_header t1)) with (hd_length (tg_header t)).
  pose proof (sealed_crc t1) as Hseal. change (hd_length (tg_header t1)) with (hd_length (tg_header t)) in Hseal.
  set (t2 := set_crc _ t1) in *. change (pstore_lba t2) with (pstore_lba t).
  assert (0 <= hd_length (tg_header t)) as Hlen by (rewrite (im_length _ Hi); pose proof (state_length_range (IMR_NUMZONES (tg_state t))); pose proof (im_num _ Hi); lia).
  destruct (write_image _ _ _ d) as [d' ret] eqn:Ew. destruct (write_image_spec _ _ _ _ _ _ Ew Hd Hlen) as [W1 W2 W3 W4].
  eexists t2, d', ret. split; [reflexivity|]. split; try done.
  - by eexists _, h.
  - intros b Hb. apply W2. intros idx Hidx%elem_of_seqZ. lia.
  - intros ->. split; [done|]. intros idx H1 H2. apply W4; [done|]. apply elem_of_seqZ. Z.to_euclidean_division_equations; lia.
  - intros [Hs Hv]. destruct (Hal Hs) as [_ Hh]. destruct (write_image_healthy (state_memory t2) (hd_length (tg_header t)) (pstore_lba t) d Hv) as (d2 & E2 & Hv'). rewrite Ew in E2. by injection E2 as -> ->.
Qed.
End save.

(** ** Reading *)

(** What reading leaves: the blocks as they were, and a result unless it failed. *)
Record pages_read {A} (P : A -> Prop) (d d' : device) (r : cres A) : Prop := {
  pr_dev : dev_ok d';
  pr_blocks : dv_blocks d' = dv_blocks d;
  pr_result : match r with Ok m => P m | Fail e => e < 0 end;
  pr_healthy : dv_script d = [] -> dv_script d' = [] /\ exists m, r = Ok m;
}.

Lemma page_read a d d' r : imrsim_read_page a d = (d', r) -> dev_ok d -> pages_read (fun b => b = dv_blocks d a) d d' r.
Proof.
  intros E Hd. destruct (read_page_spec _ _ _ _ E Hd) as (H1 & H2 & H3). split; try done. intros Hs. rewrite read_page_healthy in E by done. injection E as <- <-. by eauto.
Qed.

Lemma read_pages_spec lba pages : forall m d d' r, read_pages lba pages m d = (d', r) -> dev_ok d ->
  pages_read (fun m' => forall o, m' o = if decide (o / 4096 ∈ pages) then area_byte (dv_blocks d) lba o else m o) d d' r.
Proof.
  induction pages as [|idx pages IH]; intros m d d' r E Hd; cbn [read_pages] in E.
  { injection E as <- <-. split; [done|done| |by eauto]. intros o. by rewrite decide_False by apply not_elem_of_nil. }
  destruct (imrsim_read_page _ d) as [d1 [b|e]] eqn:Er; destruct (page_read _ _ _ _ Er Hd) as [R1 R2 R3 R4].
  2: { injection E as <- <-. split; try done. intros Hs. by destruct (R4 Hs) as [_ [? ?]]. }
  destruct (IH _ _ _ _ E R1) as [S1 S2 S3 S4]. split; try done; [congruence| |].
  - destruct r as [m'|e]; [|done]. intros o. rewrite S3, R2. unfold load_page. change PAGE_SIZE with 4096. rewrite page_offset in R3.
    destruct ((4096 * idx <=? o) && (o <? 4096 * idx + 4096)) eqn:Eo.
    + destruct (page_at idx o) as [E1 E2]; [lia|]. rewrite (decide_True (P := o / 4096 ∈ idx :: pages)) by (rewrite E1; by left).
      destruct (decide _); [done|]. unfold area_byte. by rewrite E1, E2, R3.
    + assert (o / 4096 <> idx) as Hne by (intros <-; Z.to_euclidean_division_equations; lia).
      destruct (decide (o / 4096 ∈ pages)) as [Hin|Hin]; [rewrite decide_True by (by right); done|].
      rewrite decide_False; [done|]. by intros [?|?]%elem_of_cons.
  - intros Hs. destruct (R4 Hs) as [Hs' _]. by apply S4.
Qed.

Lemma read_image_spec page length lba d d' r : read_image page length lba d = (d', r) -> dev_ok d -> page = dv_blocks d lba -> 4096 <= length ->
  pages_read (fun m => forall o, 0 <= o < length -> m o = area_byte (dv_blocks d) lba o) d d' r.
Proof.
  intros E Hd Hp Hl. unfold read_image in E. cbv zeta in E. change PAGE_SIZE with 4096 in E. set (num := length / 4096) in *.
  assert (1 <= num /\ 4096 * num <= length < 4096 * num + 4096) as Hn by (unfold num; Z.to_euclidean_division_equations; lia).
  replace (num =? 0) with false in E by lia. cbn [negb] in E. destruct (read_pages _ _ _ d) as [d1 [m|e]] eqn:Er; destruct (read_pages_spec _ _ _ _ _ _ Er Hd) as [R1 R2 R3 R4].
  2: { injection E as <- <-. by split. }
  assert (forall o, 0 <= o < 4096 * num -> m o = area_byte (dv_blocks d) lba o) as Hm.
  { intros o Ho. rewrite R3. destruct (decide _) as [|Hd']; [done|]. rewrite elem_of_seqZ in Hd'. assert (o / 4096 = 0) as E0 by (Z.to_euclidean_division_equations; lia).
    unfold load_page. replace (_ && _) with true by (Z.to_euclidean_division_equations; lia). unfold area_byte. rewrite E0, Hp. f_equal; [f_equal; lia|Z.to_euclidean_division_equations; lia]. }
  destruct (length mod 4096 =? 0) eqn:Em.
  { injection E as <- <-. split; [done|done| |intros Hs; destruct (R4 Hs) as [? _]; by eauto]. intros o Ho. apply Hm. unfold num in *. Z.to_euclidean_division_equations; lia. }
  destruct (imrsim_read_page _ d1) as [d2 [b|e]] eqn:Ep; destruct (page_read _ _ _ _ Ep R1) as [S1 S2 S3 S4]; injection E as <- <-; (split; [done|congruence| |]).
  - intros o Ho. unfold load_page. rewrite page_offset in S3. destruct (_ && _) eqn:Eo; [|apply Hm; unfold num in *; Z.to_euclidean_division_equations; lia].
    destruct (page_at num o) as [E1 E2]; [lia|]. unfold area_byte. by rewrite E1, E2, S3, R2.
  - intros Hs. destruct (R4 Hs) as [Hs' _]. destruct (S4 Hs') as [? _]. by eauto.
  - done.
  - intros Hs. destruct (R4 Hs) as [Hs' _]. by destruct (S4 Hs') as [_ [? ?]].
Qed.

(** ** Recovery of the allocator *)

(** The counters of every zone are in range. *)
Definition sizes_ok (s : kstate) : Prop := forall i z, zone i s = Some z -> 0 <= z_live_count z <= z_map_size z /\ z_map_size z <= TOTAL_ITEMS.

Lemma relabels_sizes s s' : relabels s s' -> sizes_ok s -> sizes_ok s'.
Proof.
  intros Hr Hs i z Ez. specialize (Hr i). rewrite Ez in Hr. destruct (zone i s) as [z0|] eqn:E0; [|done]. cbn in Hr. injection Hr as E1 E2 _ _.
  rewrite E1, E2. by apply (Hs i).
Qed.
Lemma labels_upd_at i f z s : zone i s = Some z -> zmap (f z) = zmap z -> (forall z, geometry (f z) = geometry z) -> labels s (upd_zone i f s).
Proof.
  intros Ez Hz Hg. split; [by apply rezoned_upd|]. intros j. rewrite zone_upd. destruct (decide (j = i)) as [->|]; [|done]. rewrite Ez. cbn. by rewrite Hz.
Qed.
Lemma labels_refl s : labels s s.
Proof. split; [done|by intros i]. Qed.
Lemma labels_zone s s' i : labels s s' -> is_Some (zone i s) -> is_Some (zone i s').
Proof. intros [_ Hr] [z Ez]. specialize (Hr i). rewrite Ez in Hr. destruct (zone i s'); [by eexists|done]. Qed.

Lemma recover_loop_spec ids : forall newest gen max s, sizes_ok s -> (forall i, i ∈ ids -> is_Some (zone i s)) ->
  exists s' open max', recover_loop ids newest gen max s = (s', Some (open, max')) /\ labels s s' /\ alloc s' = alloc s /\ (open = newest \/ open ∈ ids).
Proof.
  induction ids as [|i ids IH]; intros newest gen max s Hs Hid; cbn [recover_loop].
  { eexists _, _, _. split; [reflexivity|]. split_and!; [apply labels_refl|done|by left]. }
  destruct (Hid i) as [z Ez]; [by left|]. rewrite Ez. destruct (Hs i z Ez) as [H1 H2]. replace (_ || _) with false by lia. cbv zeta.
  set (max1 := if z_generation z >? max then _ else _). clearbody max1.
  assert (forall newest' gen' s', labels s s' -> alloc s' = alloc s -> (newest' = newest \/ newest' = i) ->
    exists s2 open max', recover_loop ids newest' gen' max1 s' = (s2, Some (open, max')) /\ labels s s2 /\ alloc s2 = alloc s /\ (open = newest \/ open ∈ i :: ids)) as Hnext.
  { intros newest' gen' s' Hl Ea Hn. destruct (IH newest' gen' max1 s') as (s2 & open & max' & -> & Hl2 & Ea2 & Ho).
    - apply (relabels_sizes s); [apply Hl|done].
    - intros j Hj. apply (labels_zone s); [done|]. apply Hid. by right.
    - eexists _, _, _. split; [reflexivity|]. split_and!; [by etransitivity|congruence|]. destruct Ho as [->|Ho]; [|right; by right].
      destruct Hn as [->| ->]; [by left|right; by left]. }
  destruct (z_map_size z =? 0) eqn:E0.
  { apply Hnext; [|apply alloc_upd|by left]. eapply labels_upd_at; [exact Ez| |].
    - assert (z_live_count z = 0) as El by lia. unfold zmap. cbn. by destruct (negb _ && negb _); cbn; rewrite El.
    - intros z'. cbn. by destruct (_ && _). }
  destruct (z_map_size z =? TOTAL_ITEMS); [apply Hnext; [by apply labels_upd|apply alloc_upd|by left]|].
  destruct (_ && _); (apply Hnext; [apply labels_refl|done|]); [by right|by left].
Qed.

Lemma seal_zones_spec open ids : forall s, labels s (fold_left (seal_zone open) ids s) /\ alloc (fold_left (seal_zone open) ids s) = alloc s.
Proof.
  induction ids as [|i ids IH]; intros s; cbn [fold_left]; [split; [apply labels_refl|done]|].
  assert (labels s (seal_zone open s i) /\ alloc (seal_zone open s i) = alloc s) as [H1 H2].
  { unfold seal_zone. destruct (zone i s); [|split; [apply labels_refl|done]]. destruct (_ && _); [|split; [apply labels_refl|done]]. split.
    - etransitivity; [by apply (labels_upd i (set_z_conds Z_COND_CLOSED))|apply labels_quiet, quiet_queue].
    - rewrite alloc_queue. apply alloc_upd. }
  destruct (IH (seal_zone open s i)) as [H3 H4]. split; [by etransitivity|congruence].
Qed.

Lemma elem_zone_ids s i : i ∈ zone_ids s <-> 0 <= i < IMR_NUMZONES s.
Proof. apply elem_of_zrange. Qed.

Lemma recover_spec s : well_shaped s -> sizes_ok s -> exists s', imr_lsm_allocator_recover_locked s = (s', 0) /\
  labels (imr_lsm_allocator_reset_locked s) s' /\ (active_zone (alloc s') = IMR_LSM_ZONE_COMPACTION_NONE \/ 0 <= active_zone (alloc s') < IMR_NUMZONES s).
Proof.
  intros (zs & Ez & Hl & _) Hs. unfold imr_lsm_allocator_recover_locked. set (s0 := imr_lsm_allocator_reset_locked s). assert (zones s0 = Some zs) as Ez0 by done. rewrite Ez0.
  destruct (recover_loop_spec (zone_ids s0) IMR_LSM_ZONE_COMPACTION_NONE 0 0 s0) as (s1 & open & max & -> & L1 & A1 & Ho).
  - exact Hs.
  - intros i Hi%elem_zone_ids. unfold zone. rewrite Ez0. apply nthZ_is_Some. change (IMR_NUMZONES s0) with (IMR_NUMZONES s) in Hi. lia.
  - destruct (seal_zones_spec open (zone_ids s1) s1) as [L2 A2]. set (s2 := fold_left _ _ s1) in *. eexists. split; [reflexivity|]. split.
    + etransitivity; [exact L1|]. etransitivity; [exact L2|apply labels_alloc].
    + cbn. destruct Ho as [->|Ho]; [by left|right]. by apply elem_zone_ids in Ho.
Qed.

(** ** The zones that are read back *)

Lemma decode_narrow b : decode_block b <> Some ((2 ^ 32 - 1) * 8) -> decode_block (i32 b) = decode_block b.
Proof.
  unfold decode_block. intros Hb. rewrite u32_i32.
  assert (u32 b = b mod 2 ^ 32) as Eu by apply u32_eq. pose proof (Z.mod_pos_bound b (2 ^ 32) ltac:(lia)) as Hr.
  destruct (Z.eqb_spec b (-1)) as [Eb|Hne]; [rewrite Eb; by vm_compute|]. destruct (Z.eqb_spec (i32 b) (-1)) as [E|]; [|done]. exfalso. apply Hb. f_equal.
  assert (u32 b = 2 ^ 32 - 1) as ->. { unfold i32 in E. destruct (u32 b <? 2 ^ 31) eqn:E1; lia. }
  unfold IMR_BLOCK_SIZE_SHIFT. rewrite Z.shiftl_mul_pow2, u64_small by lia. done.
Qed.

Section restored.
Context (s s1 : kstate) (zs : list zone_status).
Hypothesis (Hz : zones_ok s) (Hn : IMR_NUMZONES s1 = IMR_NUMZONES s) (Ezs : zones s1 = Some zs) (Hlen : lenZ zs = IMR_NUMZONES s).
Hypothesis (Hsame : forall i z, zone i s = Some z -> exists z', zone i s1 = Some z' /\ same_zone z z').

Lemma restored_back i z' : zone i s1 = Some z' -> exists z, zone i s = Some z /\ same_zone z z'.
Proof.
  intros E. assert (0 <= i < IMR_NUMZONES s) as Hi by (unfold zone in E; rewrite Ezs in E; apply nthZ_Some in E; lia).
  destruct (zone_at s i (zones_shape _ Hz) Hi) as [z Ez]. destruct (Hsame i z Ez) as (z1 & E1 & Hs). rewrite E in E1. injection E1 as <-. by exists z.
Qed.
Lemma restored_counts i z z' : zone i s = Some z -> same_zone z z' -> z_map_size z' = z_map_size z /\ z_live_count z' = z_live_count z.
Proof.
  intros Ez Hs. destruct (zone_sizes s i z Hz Ez) as [H1 H2]. change TOTAL_ITEMS with 65536 in H2. rewrite (sz_map_size _ _ Hs), (sz_live_count _ _ Hs), !u32_small by lia. done.
Qed.

Lemma restored_shaped : well_shaped s1.
Proof.
  exists zs. split_and!; [done|congruence|]. intros i z' Hi. assert (zone i s1 = Some z') as E by (unfold zone; by rewrite Ezs). destruct (restored_back i z' E) as (z & Ez & Hs).
  destruct (zk_zones _ Hz) as (zs0 & E0 & _ & Hg). unfold zone in Ez. rewrite E0 in Ez. specialize (Hg i z Ez). unfold geometry in *. injection Hg as Hg1 Hg2.
  pose proof (nthZ_Some _ _ _ Hi). pose proof (lo_num _ _ (zk_layout _ Hz)). rewrite (sz_start _ _ Hs), (sz_length _ _ Hs), Hg1, Hg2, u64_small by lia. done.
Qed.
Lemma restored_sizes : sizes_ok s1.
Proof. intros i z' E. destruct (restored_back i z' E) as (z & Ez & Hs). destruct (restored_counts i z z' Ez Hs) as [-> ->]. by apply (zone_sizes s i). Qed.
Lemma restored_keys i z' j : zone i s1 = Some z' -> 0 <= j < z_map_size z' -> 0 <= z_key_map z' j < 2 ^ 32.
Proof.
  intros E Hj. destruct (restored_back i z' E) as (z & Ez & Hs). destruct (restored_counts i z z' Ez Hs) as [E1 _]. pose proof (zone_sizes s i z Hz Ez).
  rewrite (sz_key_map _ _ Hs), u32_eq by lia. apply Z.mod_pos_bound. lia.
Qed.

Lemma restored_fwd k : fwd s1 k = fwd s k.
Proof.
  destruct (decide (0 <= k < total_keys s)) as [Hk|Hk]; [|rewrite !fwd_outside by (unfold total_keys in *; by rewrite ?Hn); done].
  assert (zshape s1) as Hz1 by (split; [apply restored_shaped|rewrite Hn; apply (zk_layout _ Hz)]).
  assert (forall p, fwd s k = Some p -> p <> (2 ^ 32 - 1) * 8) as Hp.
  { intros p E. destruct (fwd_slot _ _ (zk_layout _ Hz) k p E) as (i & j & Hi & _ & Hj & _ & -> & _). pose proof (lo_num _ _ (zk_layout _ Hz)).
    rewrite append_pba_eq by (done || lia). change TOTAL_ITEMS with 65536 in Hj. pose proof (slot_block_range j Hj). lia. }
  rewrite (fwd_eq s1 Hz1) by (unfold total_keys in *; by rewrite Hn). rewrite (fwd_eq s (zones_shape _ Hz)) in Hp |- * by done.
  destruct (key_split k _ Hk) as [Hq Hr]. destruct (zone_at s _ (zones_shape _ Hz) Hq) as [z Ez]. rewrite Ez in *. destruct (Hsame _ z Ez) as (z' & -> & Hs).
  rewrite (sz_pba_map _ _ Hs) by done. apply decode_narrow. intros E. by apply (Hp _ E).
Qed.

Lemma restored_layout : layout_eq (IMR_NUMZONES s) (layout_of s) (layout_of s1).
Proof.
  assert (forall i, 0 <= i < IMR_NUMZONES s -> exists z z', zone i s = Some z /\ zone i s1 = Some z' /\ same_zone z z') as Hb.
  { intros i Hi. destruct (zone_at s i (zones_shape _ Hz) Hi) as [z Ez]. destruct (Hsame i z Ez) as (z' & ? & ?). by exists z, z'. }
  split; [exact restored_fwd|..].
  - intros i Hi. destruct (Hb i Hi) as (z & z' & Ez & E' & Hs). cbn. rewrite Ez, E'. by apply (restored_counts i).
  - intros i Hi. destruct (Hb i Hi) as (z & z' & Ez & E' & Hs). cbn. rewrite Ez, E'. by apply (restored_counts i).
  - intros i j Hi Hj. destruct (Hb i Hi) as (z & z' & Ez & E' & Hs). cbn in *. rewrite Ez in *. rewrite E'. destruct (zone_sizes s i z Hz Ez).
    rewrite (sz_key_map _ _ Hs) by lia. apply u32_small. by apply (zk_keys _ Hz i z).
Qed.
End restored.

(** ** Loading *)

Lemma geometry_accepted s zs sizedev : well_shaped s -> sizes_ok s -> zones s = Some zs -> 1 <= IMR_NUMZONES s < 2 ^ 32 -> sizedev = IMR_NUMZONES s * num_sectors_zone ->
  geometry_ok zs sizedev = true.
Proof.
  intros (zs' & E' & Hl & Hg) Hs E Hn Hsz. rewrite E in E'. injection E' as <-.
  assert (forall i z, nthZ zs i = Some z -> z_start z = i /\ z_length z = 524288 /\ z_live_count z <= z_map_size z /\ z_map_size z <= 65536) as Hz.
  { intros i z Hi. specialize (Hg i z Hi). unfold geometry in Hg. injection Hg as -> ->. assert (zone i s = Some z) as Ez by (unfold zone; by rewrite E).
    destruct (Hs i z Ez) as [? ?]. split_and!; [done|done|lia|done]. }
  destruct zs as [|z0 zs0]; [rewrite lenZ_nil in Hl; lia|]. destruct (Hz 0 z0 eq_refl) as (_ & Hlen & _). cbn [geometry_ok]. rewrite Hlen. set (l := z0 :: zs0) in *. clearbody l.
  change (Z.shiftr 524288 IMR_BLOCK_SIZE_SHIFT) with 65536. change (Z.land 524288 _ =? 0) with true. change (is_power_of_2 65536) with true.
  rewrite Hl, u64_small by lia. change num_sectors_zone with 524288 in Hsz. replace (_ =? sizedev) with true by lia. cbn [andb negb].
  change (65536 =? 0) with false. change (65536 =? TOTAL_ITEMS) with true. cbn [andb negb]. apply forallb_forall. intros [i z] Hin.
  apply list_elem_of_In, list_elem_of_lookup in Hin as [k Hk]. apply lookup_zip_with_Some in Hk as (i' & z' & Eiz & H1 & H2). injection Eiz as -> ->.
  apply lookup_seqZ in H1 as [-> Hk]. destruct (Hz (Z.of_nat k) z') as (E1 & E2 & E3 & E4); [unfold nthZ; replace (0 <=? Z.of_nat k) with true by lia; by rewrite Nat2Z.id|].
  unfold zone_geometry_ok. change TOTAL_ITEMS with 65536. rewrite E1, E2. lia.
Qed.

(** What a load of the image of [t] by [t1] gives. *)
Record reloaded (t t1 t2 : target) : Prop := {
  rl_num : IMR_NUMZONES (tg_state t2) = IMR_NUMZONES (tg_state t);
  rl_layout : layout_eq (IMR_NUMZONES (tg_state t)) (layout_of (tg_state t)) (layout_of (tg_state t2));
  rl_image : image_ok t2;
  rl_inflight : append_writes_inflight (tg_state t2) = 0;
  rl_meta : initialized (meta (tg_state t2)) = initialized (meta (tg_state t1)) /\ timestamp (meta (tg_state t2)) = timestamp (meta (tg_state t1));
  rl_env : output_bdev_start (tg_state t2) = output_bdev_start (tg_state t1) /\ cfg (tg_state t2) = cfg (tg_state t1);
  rl_unreserved : unreserved (tg_state t2);
  rl_lba : pstore_lba t2 = IMR_NUMZONES (tg_state t) * num_sectors_zone;
  rl_globals : IMR_CAPACITY t2 = IMR_NUMZONES (tg_state t) * num_sectors_zone /\ IMR_NUMZONES_DEFAULT t2 = IMR_NUMZONES (tg_state t);
}.

Section load.
Context (crc32 : list Z -> Z).
Hypothesis (crc32_range : forall l, 0 <= crc32 l < 2 ^ 32).
Context (t t1 : target) (sizedev seconds : Z) (d : device).
Hypothesis (Hi : image_ok t) (Hseal : sealed crc32 t) (Hd : dev_ok d).
Hypothesis (Harea : area_holds (state_memory t) sizedev (hd_length (tg_header t)) (dv_blocks d)).
Let n := IMR_NUMZONES (tg_state t).
Hypothesis (Hsize : sizedev = n * num_sectors_zone).
Hypothesis (Hcap : imrsim_state_persistence_bytes (state_length n) <= imrsim_persistence_capacity_bytes t1).
Hypothesis (Hnone : zones (tg_state t1) = None) (Hun : unreserved (tg_state t1)).

Lemma image_length : 64 + 553524 <= hd_length (tg_header t) < 2 ^ 32.
Proof. rewrite (im_length _ Hi). pose proof (state_length_range (IMR_NUMZONES (tg_state t))). pose proof (im_num _ Hi). lia. Qed.

(** The header page is the one that was saved. *)
Lemma header_page o : 0 <= o < 64 -> page_byte (dv_blocks d sizedev) o = state_memory t o.
Proof.
  intros Ho. rewrite <- Harea by (pose proof image_length; lia). unfold area_byte. destruct (page_at 0 o) as [-> ->]; [lia|]. f_equal; [f_equal|]; lia.
Qed.
Lemma header_read : read_header (page_byte (dv_blocks d sizedev)) = tg_header t /\ read_num_zones (page_byte (dv_blocks d sizedev)) = n.
Proof.
  rewrite (read_header_eq t _ header_page), (read_num_zones_eq t _ header_page). pose proof image_length. pose proof (im_num _ Hi).
  rewrite (im_stats _ Hi), (u32_small (IMR_NUMZONES _)) by lia. split; [|done]. unfold sealed in Hseal. pose proof (crc32_range (map (state_memory t) (seqZ sizeof_state_header (hd_length (tg_header t) - sizeof_state_header)))) as Hc.
  fold (state_crc crc32 (state_memory t) (hd_length (tg_header t))) in Hc. rewrite <- Hseal in Hc. rewrite (u32_small (hd_crc32 _)), (u32_small (hd_length _)) by lia.
  rewrite (im_magic _ Hi), (im_version _ Hi). destruct (tg_header t) as [mg ln vs cr] eqn:E. pose proof (im_magic _ Hi) as Em. pose proof (im_version _ Hi) as Ev. rewrite E in Em, Ev. cbn in *. by subst.
Qed.

(** The memory passes the checks and its zones are recovered. *)
Lemma load_memory m tl : holds_state t m -> pstore_lba tl = sizedev -> IMR_CAPACITY tl = sizedev /\ IMR_NUMZONES_DEFAULT tl = n -> unreserved (tg_state tl) ->
  state_crc crc32 m (get32 m 4) = get32 m 12 /\ read_num_zones m = n /\ geometry_ok (read_zones m n) sizedev = true /\
  exists s', imr_lsm_allocator_recover_locked (tg_state (loaded_target m n tl)) = (s', 0) /\ reloaded t tl (set_tg_state s' (loaded_target m n tl)) /\ hp s' = hp (tg_state tl).
Proof.
  intros Hm Hlba [Hgc Hgn] Hutl. pose proof image_length as Hl. pose proof (im_num _ Hi) as Hnum. fold n in Hnum.
  assert (forall o, 0 <= o < 64 -> m o = state_memory t o) as H64.
  { intros o Ho. apply Hm. rewrite <- (im_length _ Hi). lia. }
  assert (read_header m = tg_header t /\ read_num_zones m = n) as [Eh En].
  { destruct header_read as [E1 E2]. rewrite (read_header_eq t _ header_page) in E1. rewrite (read_num_zones_eq t _ header_page) in E2. by rewrite (read_header_eq t _ H64), (read_num_zones_eq t _ H64). }
  pose proof (f_equal hd_length Eh) as El. pose proof (f_equal hd_crc32 Eh) as Ec. change (hd_length (read_header m)) with (get32 m 4) in El. change (hd_crc32 (read_header m)) with (get32 m 12) in Ec.
  set (s1 := tg_state (loaded_target m n tl)). assert (zones s1 = Some (read_zones m n)) as Ezs by done. assert (IMR_NUMZONES s1 = n) as Hn1 by done.
  assert (lenZ (read_zones m n) = n) as Hlen by (apply lenZ_read_zones; lia).
  assert (forall i z, zone i (tg_state t) = Some z -> exists z', zone i s1 = Some z' /\ same_zone z z') as Hsame.
  { intros i z Ez. unfold zone. rewrite Ezs. apply (read_zones_same t m i z Hm); [|done]. by apply (zone_in _ _ z (zones_shape _ (im_zones _ Hi))). }
  pose proof (restored_shaped _ s1 _ (im_zones _ Hi) Hn1 Ezs Hlen Hsame) as Hsh. pose proof (restored_sizes _ s1 _ (im_zones _ Hi) Ezs Hlen Hsame) as Hsz.
  split_and!; [|done| |].
  - rewrite El, Ec, Hseal. apply state_crc_ext. intros o Ho. apply Hm. rewrite <- (im_length _ Hi). lia.
  - apply (geometry_accepted s1); [done|done|done|rewrite Hn1; lia|by rewrite Hn1].
  - destruct (recover_spec s1 Hsh Hsz) as (s' & -> & [R L] & Ha). exists s'. split; [done|].
    assert (layout_eq n (layout_of (tg_state t)) (layout_of s')) as Hlay.
    { eapply layout_eq_trans; [apply (restored_layout _ s1 _ (im_zones _ Hi) Hn1 Ezs Hlen Hsame)|]. fold n. rewrite <- Hn1. apply (relabels_layout (imr_lsm_allocator_reset_locked s1)); [done|apply R]. }
    destruct (rezoned_copy _ _ R) as (_ & C1 & C2). assert (unreserved s') as Hu' by (unfold unreserved; by rewrite C1, C2).
    pose proof (rz_num _ _ R) as Hn'. change (IMR_NUMZONES (imr_lsm_allocator_reset_locked s1)) with n in Hn'. rewrite Hn1 in Ha.
    assert (zones_ok s') as Hzok.
    { split.
      - apply (rezoned_zones _ _ R). exact Hsh.
      - rewrite Hn'. eapply layout_ok_eq; [exact Hlay|apply (im_zones _ Hi)].
      - intros i z j Ez Hj. specialize (L i). rewrite Ez in L.
        change (zone i (imr_lsm_allocator_reset_locked s1)) with (zone i s1) in L. destruct (zone i s1) as [z1|] eqn:E1; [|done]. cbn in L. injection L as L1 _ _ L4.
        rewrite L4. apply (restored_keys _ s1 _ (im_zones _ Hi) Ezs Hlen Hsame i z1 j E1). by rewrite <- L1.
      - unfold IMR_LSM_ZONE_COMPACTION_NONE, U32_MAX in Ha. lia.
      - rewrite Hn'. destruct Hu' as [-> ->]. unfold IMR_LSM_ZONE_COMPACTION_NONE, U32_MAX in *. lia. }
    split; [|exact (f_equal hp (rz_lsm _ _ R))]. split.
    + exact Hn'.
    + exact Hlay.
    + destruct Hi as [J1 J2 J3 J4 J5 J6]. assert (tg_header (set_tg_state s' (loaded_target m n tl)) = tg_header t) as Eh' by exact Eh.
      split; rewrite ?Eh'; cbn [tg_state set_tg_state]; rewrite ?Hn'; [done..|exact En|done|]. exact Hzok.
    + exact (rz_inflight _ _ R).
    + split; [exact (f_equal (fun s => initialized (meta s)) (rz_lsm _ _ R))|exact (f_equal (fun s => timestamp (meta s)) (rz_lsm _ _ R))].
    + split; [|exact (f_equal cfg (rz_lsm _ _ R))]. pose proof (rz_target _ _ R) as E. cbn in E. by injection E.
    + exact Hu'.
    + etransitivity; [exact Hlba|exact Hsize].
    + split; [etransitivity; [exact Hgc|exact Hsize]|exact Hgn].
Qed.

Lemma default_zones : IMR_NUMZONES_DEFAULT (init_zone_default sizedev t1) = n.
Proof.
  pose proof (im_num _ Hi) as Hnum. fold n in Hnum. cbn. unfold IMR_BLOCK_SIZE_SHIFT, IMR_ZONE_SIZE_SHIFT. rewrite Z.shiftr_shiftr, Z.shiftr_div_pow2 by lia. change (2 ^ (3 + 16)) with 524288.
  rewrite Hsize. change num_sectors_zone with 524288. rewrite Z.div_mul by lia. apply u32_small. lia.
Qed.

Record load_result (t2 : target) (d2 : device) (ret : Z) : Prop := {
  lr_dev : dev_ok d2;
  lr_blocks : dv_blocks d2 = dv_blocks d;
  lr_ret : ret = 0 /\ reloaded t t1 t2 \/ ret < 0 /\ zones (tg_state t2) = None;
  lr_healthy : healthy (tg_state t1) d -> ret = 0 /\ healthy (tg_state t2) d2;
}.

Lemma load_spec : let '(t2, d2, ret) := imrsim_load_persistence crc32 sizedev seconds t1 d in load_result t2 d2 ret.
Proof.
  unfold imrsim_load_persistence. cbv zeta. set (tl := set_pstore_lba sizedev (init_zone_default sizedev t1)). pose proof image_length as Hl. pose proof (im_num _ Hi) as Hnum. fold n in Hnum.
  destruct (st_alloc_healthy (tg_state tl)) as (h & a & Ea & Hhp & Hal). rewrite Ea. destruct a as [a|].
  2: { split; [done|done|right; by split|]. intros [Hs _]. by destruct (Hal Hs). }
  change (pstore_lba (set_tg_state (set_hp h (tg_state tl)) tl)) with sizedev.
  destruct (imrsim_read_page sizedev d) as [d1 [page|e]] eqn:Er; destruct (page_read _ _ _ _ Er Hd) as [R1 R2 R3 R4].
  2: { split; [done|done|right; by split|]. intros [_ Hs]. by destruct (R4 Hs) as [_ [? ?]]. }
  subst page. destruct header_read as [-> ->]. rewrite (im_magic _ Hi), (im_version _ Hi). change (STATE_MAGIC =? STATE_MAGIC) with true. change (VERSION =? VERSION) with true. cbn [andb].
  rewrite (state_size n) by lia. replace (n <=? 7759) with true by lia. replace (n =? 0) with false by lia. fold (state_length n).
  rewrite (im_length _ Hi) in Hl |- *. fold n in Hl |- *. change (imrsim_persistence_capacity_bytes (set_tg_state _ _)) with (imrsim_persistence_capacity_bytes t1).
  replace (state_length n =? state_length n) with true by lia. replace (_ <=? imrsim_persistence_capacity_bytes t1) with true by lia. cbn [andb negb].
  destruct (st_alloc_healthy (tg_state (set_tg_state (set_hp h (tg_state tl)) tl))) as (h2 & a2 & Ea2 & _ & Hal2). rewrite Ea2. destruct a2 as [a2|].
  2: { split; [done|done|right; by split|]. intros [Hs _]. destruct (Hal Hs) as [_ Hs']. by destruct (Hal2 Hs'). }
  set (tm := set_tg_state (set_hp h2 _) _). change (pstore_lba tm) with sizedev.
  destruct (read_image _ _ sizedev d1) as [d2 [m|e]] eqn:Ei; (destruct (read_image_spec _ _ _ _ _ _ Ei R1) as [S1 S2 S3 S4]; [by rewrite R2|lia|]).
  2: { split; [done|congruence|right; by split|]. intros [_ Hs]. destruct (R4 Hs) as [Hs' _]. by destruct (S4 Hs') as [_ [? ?]]. }
  assert (holds_state t m) as Hm. { intros o Ho. rewrite S3, R2 by done. apply Harea. by rewrite (im_length _ Hi). }
  destruct (load_memory m tm Hm eq_refl (conj eq_refl default_zones) Hun) as (-> & -> & -> & s' & Es & Hrl & Eh). rewrite !Z.eqb_refl. cbn [negb orb]. rewrite Es. cbn [negb Z.eqb].
  split; [done|congruence|left; split; [done|]|].
  - destruct Hrl. by split.
  - intros [Hs1 Hs2]. destruct (Hal Hs1) as [_ Hh1]. destruct (Hal2 Hh1) as [_ Hh2]. destruct (R4 Hs2) as [Hd1 _]. destruct (S4 Hd1) as [Hd2 _]. split; [done|].
    split; [|done]. cbn [tg_state set_tg_state]. rewrite Eh. exact Hh2.
Qed.
End load.

(** ** What a load accepts *)

Lemma geometry_sound zs sizedev : geometry_ok zs sizedev = true ->
  (forall i z, nthZ zs i = Some z -> geometry z = (i, num_sectors_zone) /\ z_live_count z <= z_map_size z /\ z_map_size z <= TOTAL_ITEMS) /\
  u64 (lenZ zs * num_sectors_zone) = sizedev.
Proof.
  destruct zs as [|z0 zs0]; [done|]. cbn [geometry_ok]. set (l := z0 :: zs0). clearbody l. unfold IMR_BLOCK_SIZE_SHIFT. rewrite Z.shiftr_div_pow2 by lia.
  change (Z.shiftl 1 3 - 1) with (Z.ones 3). rewrite Z.land_ones by lia. change TOTAL_ITEMS with 65536. change num_sectors_zone with 524288. change (2 ^ 3) with 8.
  rewrite !andb_true_iff. intros (((((_ & H1) & H2) & _) & H3) & H4). assert (z_length z0 = 524288) as Hl by (Z.to_euclidean_division_equations; lia). rewrite Hl in *. split; [|lia].
  intros i z Hi. rewrite forallb_forall in H4. specialize (H4 (i, z)). cbn beta iota in H4. unfold zone_geometry_ok in H4. rewrite !andb_true_iff in H4. destruct H4 as (((E1 & E2) & E3) & E4).
  - apply list_elem_of_In, list_elem_of_lookup. unfold nthZ in Hi. destruct (0 <=? i) eqn:Ei; [|done]. exists (Z.to_nat i). apply lookup_zip_with_Some. exists i, z.
    split_and!; [done| |done]. apply lookup_lt_Some in Hi. unfold lenZ. apply lookup_seqZ. lia.
  - change TOTAL_ITEMS with 65536 in E3. unfold geometry. replace (z_start z) with i by lia. replace (z_length z) with 524288 by lia. split_and!; [done|lia|lia].
Qed.

Lemma area_byte_range B lba o : is_byte (area_byte B lba o).
Proof. apply byte_of_range. Qed.

(** The image at [sizedev] names itself and a number of zones, has their size and
    the checksum of its bytes. *)
Record intact (crc32 : list Z -> Z) (sizedev n : Z) (B : Z -> block) : Prop := {
  in_magic : hd_magic (read_header (area_byte B sizedev)) = STATE_MAGIC;
  in_version : hd_version (read_header (area_byte B sizedev)) = VERSION;
  in_zones : read_num_zones (area_byte B sizedev) = n;
  in_length : hd_length (read_header (area_byte B sizedev)) = state_length n;
  in_crc : hd_crc32 (read_header (area_byte B sizedev)) = state_crc crc32 (area_byte B sizedev) (state_length n);
}.

Lemma init_target_none sizedev seconds t t2 r : zones (tg_state t) = None -> init_target sizedev seconds t = (t2, r) -> r <> 0 -> zones (tg_state t2) = None.
Proof.
  intros Hz E Hr. unfold init_target, imrsim_init_zone_state in E. cbv zeta in E. set (t1 := if sizedev =? 0 then t else _) in E. assert (zones (tg_state t1) = None) as Hz1 by (unfold t1; by destruct (sizedev =? 0)).
  clearbody t1. destruct (sizedev =? 0); [injection E as <- _; done|]. destruct (imrsim_state_size_for_zones _) as [size|e] in E at 1.
  - destruct (st_alloc _) as [s1 [al|]] eqn:Ea; [injection E as _ <-; done|]. injection E as <- _. cbn. unfold st_alloc in Ea. destruct (kzalloc _) as [h al]. by injection Ea as <- _.
  - destruct (negb (e =? 0)) eqn:Ee; injection E as <- <-; done.
Qed.

Section accepted.
Context (crc32 : list Z -> Z) (sizedev seconds : Z) (t : target) (d : device).
Hypothesis (Hd : dev_ok d) (Hz : zones (tg_state t) = None).
Abbreviation area := (area_byte (dv_blocks d) sizedev).

Lemma first_page off n : 0 <= off -> off + Z.of_nat n <= 4096 -> get_le n (page_byte (dv_blocks d sizedev)) off = get_le n area off.
Proof.
  intros H0 H1. apply get_le_ext. intros b Hb. unfold area_byte. destruct (page_at 0 (off + b)) as [-> ->]; [lia|]. f_equal; [f_equal|]; lia.
Qed.
Lemma first_page_header : read_header (page_byte (dv_blocks d sizedev)) = read_header area /\ read_num_zones (page_byte (dv_blocks d sizedev)) = read_num_zones area.
Proof. unfold read_header, read_num_zones, get32. rewrite !first_page by lia. done. Qed.

Lemma read_sizes m n : 0 <= n -> (forall o, 0 <= o < state_length n -> m o = area o) -> forall i z, nthZ (read_zones m n) i = Some z -> 0 <= z_live_count z.
Proof.
  intros Hn Hm i z Ei. unfold read_zones in Ei. rewrite nthZ_map, nthZ_seqZ in Ei. destruct (_ && _) eqn:Eb; [|done]. injection Ei as <-. cbn [read_zone z_live_count].
  pose proof (zone_area_range n) as Ha. change sizeof_zone_status with 553504. apply get_le_range. intros b Hb. rewrite Hm; [apply area_byte_range|].
  unfold state_length. change sizeof_zone_status with 553504. lia.
Qed.

(** An accepted image is intact, and its zones are those of the target. *)
Lemma load_accepted t2 d2 ret : imrsim_load_persistence crc32 sizedev seconds t d = (t2, d2, ret) ->
  dev_ok d2 /\ dv_blocks d2 = dv_blocks d /\
  (zones (tg_state t2) = None /\ ret <> 0 \/
   (exists t1, init_target sizedev seconds t1 = (t2, 0) /\ ret = - EINVAL) \/ (exists t1 r, zones (tg_state t1) = None /\ init_target sizedev seconds t1 = (t2, r) /\ ret = r /\ r <> 0) \/
   ret = 0 /\ let n := IMR_NUMZONES (tg_state t2) in
     intact crc32 sizedev n (dv_blocks d) /\ 1 <= n <= 7759 /\ sizedev = n * num_sectors_zone /\ well_shaped (tg_state t2) /\ sizes_ok (tg_state t2)).
Proof.
  unfold imrsim_load_persistence. cbv zeta. set (tl := set_pstore_lba sizedev (init_zone_default sizedev t)). destruct (st_alloc_healthy (tg_state tl)) as (h & a & Ea & _ & _). rewrite Ea.
  destruct a as [a|]; [|intros [= <- <- <-]; split_and!; [done|done|by left]]. change (pstore_lba (set_tg_state (set_hp h (tg_state tl)) tl)) with sizedev.
  destruct (imrsim_read_page sizedev d) as [d1 [page|e]] eqn:Er; destruct (page_read _ _ _ _ Er Hd) as [R1 R2 R3 R4]; [|intros [= <- <- <-]; split_and!; [done|done|left; split; [done|lia]]].
  subst page. destruct first_page_header as [-> ->]. pose proof (get_le_range 4 area 40 (fun b _ => area_byte_range _ _ _)) as Hn. fold (get32 area 40) in Hn. fold (read_num_zones area) in Hn.
  set (n := read_num_zones area) in *. destruct (_ && _) eqn:Em.
  - rewrite (state_size n) by lia. fold (state_length n). destruct (n <=? 7759) eqn:E7; [|by intros [= <- <- <-]; split_and!; [..|left]]. destruct (negb _) eqn:Ev; [by intros [= <- <- <-]; split_and!; [..|left]|].
    destruct (st_alloc_healthy (tg_state (set_tg_state (set_hp h (tg_state tl)) tl))) as (h2 & a2 & -> & _ & _). destruct a2 as [a2|]; [|by intros [= <- <- <-]; split_and!; [..|left]].
    set (tm := set_tg_state (set_hp h2 _) _). change (pstore_lba tm) with sizedev. apply negb_false_iff in Ev. rewrite !andb_true_iff, negb_true_iff in Ev. destruct Ev as [[En0 El%Z.eqb_eq] _]. rewrite El. pose proof (state_length_range n) as Hl.
    destruct (read_image _ _ sizedev d1) as [d3 [m|e]] eqn:Ei; (destruct (read_image_spec _ _ _ _ _ _ Ei R1) as [S1 S2 S3 S4]; [by rewrite R2|lia|]); rewrite R2 in S2.
    2: { intros [= <- <- <-]. split_and!; [done|done|left; split; [done|lia]]. }
    rewrite R2 in S3. assert (forall off, 0 <= off -> off + 4 <= 64 -> get32 m off = get32 area off) as Hm by (intros off H0 H1; apply get_le_ext; intros b Hb; apply S3; lia).
    rewrite !Hm by lia. change (get32 area 4) with (hd_length (read_header area)). rewrite El. destruct (_ || _) eqn:Eg; [by intros [= <- <- <-]; split_and!; [..|left]|].
    rewrite !orb_false_iff, !negb_false_iff in Eg. destruct Eg as [[Ec _] Eg]. destruct (geometry_sound _ _ Eg) as [G1 G2]. rewrite lenZ_read_zones in G2 by lia.
    set (s1 := tg_state (loaded_target m n tm)). assert (well_shaped s1) as Hsh by (exists (read_zones m n); split_and!; [done|exact (lenZ_read_zones m n (proj1 Hn))|intros i z Hi; by apply G1]).
    assert (sizes_ok s1) as Hsz. { intros i z Ez. unfold zone in Ez. cbn in Ez. destruct (G1 i z Ez) as (_ & ? & ?). pose proof (read_sizes m n ltac:(lia) S3 i z Ez). lia. }
    destruct (recover_spec s1 Hsh Hsz) as (s' & -> & [R L] & _). cbn [negb Z.eqb]. intros [= <- <- <-]. split_and!; [done|done|right; right; right; split; [done|]]. cbn [tg_state set_tg_state].
    pose proof (rz_num _ _ R) as Hn'. change (IMR_NUMZONES (imr_lsm_allocator_reset_locked s1)) with n in Hn'. rewrite Hn'. split_and!; [|lia|lia| | |].
    + apply andb_true_iff in Em as [Em1%Z.eqb_eq Em2%Z.eqb_eq]. split; [done|done|done|done|]. change (hd_crc32 (read_header area)) with (get32 area 12). apply Z.eqb_eq in Ec. rewrite <- Ec. apply state_crc_ext. intros o Ho. apply S3. lia.
    + rewrite <- G2. change num_sectors_zone with 524288. rewrite u64_small; lia.
    + by apply (rezoned_zones _ _ R).
    + by apply (relabels_sizes (imr_lsm_allocator_reset_locked s1)).
  - destruct (_ || _) eqn:Eb; [|by intros [= <- <- <-]; split_and!; [..|left]]. destruct (init_target _ _ _) as [t3 r] eqn:Ei. intros [= <- <- <-].
    split_and!; [done|done|right]. destruct (negb (r =? 0)) eqn:E0; [right; left; eexists _, r; split_and!; [|done|done|lia]; done|left]. assert (r = 0) as -> by lia. eexists. by split.
Qed.
End accepted.
