(* ===== verification/ImrFlush.v ===== *)
(** The incremental persistence of the zone state: which pages a flush of a
    snapshot writes, and that they complete the image on the device. *)

From S2P Require Import Prelude StdMap ImrPrelude ImrGeometry ImrBloom ImrState ImrReadTree ImrLevels ImrSegment ImrPlacement ImrAccounting ImrCore ImrLsm ImrLsmInv ImrLsmOps ImrZones ImrGc ImrTarget ImrImage ImrPersist ImrImageSpec ImrIo ImrLayout ImrZoneFrame ImrZoneInv ImrZoneOps ImrGcPublish ImrCold ImrDisk ImrDiskData ImrDiskInv ImrPersistSpec.

(** ** The pages of a flush *)

(** The pages with a byte of zone [i]. *)
Definition zone_pages (sn : pstore_snapshot) (i : Z) : list Z :=
  let start := imrsim_zone_status_ptr (stats_num_zones (sn_state sn)) + sizeof_zone_status * i in
  page_range (start / 4096) ((start + sizeof_zone_status - 1) / 4096) (page_count sn).
Definition stats_pages (sn : pstore_snapshot) : list Z := page_range 1 (last_stats_page (stats_num_zones (sn_state sn))) (page_count sn).
Definition later_pages (sn : pstore_snapshot) : list Z :=
  if sn_full_save sn then seqZ 1 (page_count sn - 1)
  else (if negb (Z.land (sn_flag sn) IMR_STATS_CHANGE =? 0) then stats_pages sn else []) ++
       (if negb (Z.land (sn_flag sn) IMR_STATUS_CHANGE =? 0) then concat (map (fun i => zone_pages sn (u32 i)) (sn_zone_idx sn)) else []).

Lemma elem_page_range a b c idx : idx ∈ page_range a b c <-> a <= idx <= b /\ idx < c.
Proof. unfold page_range. rewrite elem_of_seqZ. lia. Qed.

Section snapshot.
Context (sn : pstore_snapshot).
Abbreviation image := (image_page (state_memory (sn_state sn)) (sn_length sn)).
Abbreviation written := (pages_written image (pstore_lba (sn_state sn))).

Lemma image_lengths idx : lenZ (image idx) = 8.
Proof. apply lenZ_page. Qed.

(** A page of the snapshot has a first byte in it. *)
Definition in_image (idx : Z) : Prop := 0 <= idx /\ 4096 * idx < sn_length sn.
Lemma in_image_count idx : 0 <= idx < page_count sn -> in_image idx.
Proof. unfold page_count, in_image. change PAGE_SIZE with 4096. intros H. Z.to_euclidean_division_equations; lia. Qed.

Lemma snapshot_page_spec idx d d' ret : imrsim_write_snapshot_page sn idx d = (d', ret) -> in_image idx -> dev_ok d -> written [idx] d d' ret.
Proof.
  unfold imrsim_write_snapshot_page. cbv zeta. change PAGE_SIZE with 4096. intros E [H1 H2] Hd. replace (_ >=? _) with false in E by lia. rewrite (Z.mul_comm idx 4096) in E.
  apply (page_written _ _ image_lengths); [exact E|done].
Qed.
Lemma snapshot_pages_spec pages : forall d d' ret, write_snapshot_pages sn pages d = (d', ret) -> (forall idx, idx ∈ pages -> in_image idx) -> dev_ok d -> written pages d d' ret.
Proof.
  induction pages as [|idx pages IH]; intros d d' ret E Hp Hd; cbn [write_snapshot_pages] in E; [injection E as <- <-; by apply pages_none|].
  destruct (imrsim_write_snapshot_page sn idx d) as [d1 r] eqn:Ew. assert (written [idx] d d1 r) as W by (apply snapshot_page_spec; [done|apply Hp; by left|done]).
  destruct (r <? 0) eqn:Er.
  - injection E as <- <-. apply (pages_stop _ _ [idx]); [lia|done].
  - assert (r = 0) as -> by (pose proof (pw_ret _ _ _ _ _ _ W); lia). apply (pages_app _ _ [idx] pages d d1); [done|]. apply IH; [done| |apply W].
    intros i Hi. apply Hp. by right.
Qed.

Lemma zone_pages_in i idx : 0 <= i -> 0 <= stats_num_zones (sn_state sn) -> idx ∈ zone_pages sn i -> in_image idx.
Proof.
  intros Hi Hn [H1 H2]%elem_page_range. apply in_image_count. pose proof (zone_area_range (stats_num_zones (sn_state sn))). change sizeof_zone_status with 553504 in H1.
  assert (0 <= (imrsim_zone_status_ptr (stats_num_zones (sn_state sn)) + 553504 * i) / 4096) by (apply Z.div_pos; lia). lia.
Qed.
Lemma zones_pages_spec queue : 0 <= stats_num_zones (sn_state sn) -> forall d d' ret, write_zone_pages sn (page_count sn) queue d = (d', ret) -> dev_ok d ->
  written (concat (map (fun i => zone_pages sn (u32 i)) queue)) d d' ret.
Proof.
  intros Hn. induction queue as [|i queue IH]; intros d d' ret E Hd; cbn [write_zone_pages] in E; cbv zeta in E; [injection E as <- <-; by apply pages_none|].
  cbn [map concat]. destruct (u32 i >=? _) eqn:Ei.
  { injection E as <- <-. apply (pages_stop _ _ []); [done|]. split; [done|done|unfold EINVAL; lia|done]. }
  pose proof (u32_range i) as Hi. change PAGE_SIZE with 4096 in E. destruct (write_snapshot_pages sn _ d) as [d1 r] eqn:Ew.
  assert (written (zone_pages sn (u32 i)) d d1 r) as W by (apply snapshot_pages_spec; [exact Ew| |done]; intros idx; apply zone_pages_in; lia).
  destruct (r <? 0) eqn:Er.
  - injection E as <- <-. apply pages_stop; [lia|done].
  - assert (r = 0) as -> by (pose proof (pw_ret _ _ _ _ _ _ W); lia). eapply pages_app; [exact W|]. apply IH; [done|apply W].
Qed.
End snapshot.

(** A flush writes its pages, the first one last, and stops at the first failure. *)
Lemma later_pages_spec sn d d' ret : write_later_pages sn d = (d', ret) -> dev_ok d -> 0 <= stats_num_zones (sn_state sn) ->
  pages_written (image_page (state_memory (sn_state sn)) (sn_length sn)) (pstore_lba (sn_state sn)) (later_pages sn) d d' ret.
Proof.
  intros E Hd Hn. unfold write_later_pages in E. unfold later_pages. destruct (sn_full_save sn).
  { apply snapshot_pages_spec; [done| |done]. intros idx Hi%elem_of_seqZ. apply in_image_count. lia. }
  destruct (if negb (Z.land (sn_flag sn) IMR_STATS_CHANGE =? 0) then _ else _) as [d1 r] eqn:Es.
  assert (pages_written (image_page (state_memory (sn_state sn)) (sn_length sn)) (pstore_lba (sn_state sn))
    (if negb (Z.land (sn_flag sn) IMR_STATS_CHANGE =? 0) then stats_pages sn else []) d d1 r) as W.
  { destruct (negb _); [|injection Es as <- <-; by apply pages_none]. apply snapshot_pages_spec; [done| |done]. intros idx [H1 H2]%elem_page_range. apply in_image_count. lia. }
  destruct (r <? 0) eqn:Er; [injection E as <- <-; apply pages_stop; [lia|done]|].
  assert (r = 0) as -> by (pose proof (pw_ret _ _ _ _ _ _ W); lia). eapply pages_app; [exact W|].
  destruct (negb (Z.land (sn_flag sn) IMR_STATUS_CHANGE =? 0)); [apply zones_pages_spec; [done|done|apply W]|]. injection E as <- <-. apply pages_none, W.
Qed.

Lemma flush_spec crc32 sn s d s' d' ret : imrsim_write_persistence_snapshot crc32 sn s d = (s', d', ret) -> dev_ok d -> 0 <= stats_num_zones (sn_state sn) ->
  (exists h, hp_next (hp s) <= hp_next h /\ s' = set_hp h s) /\
  pages_written (image_page (state_memory (sn_state (seal_snapshot crc32 sn))) (sn_length sn)) (pstore_lba (sn_state sn)) (later_pages sn ++ [0]) d d' ret.
Proof.
  intros E Hd Hn. unfold imrsim_write_persistence_snapshot in E. destruct (sn_length sn <? sizeof_state_header) eqn:El.
  { injection E as <- <- <-. split; [exists (hp s); split; [done|by destruct s]|]. apply (pages_stop _ _ []); [done|]. split; [done|done|unfold EINVAL; lia|done]. }
  change sizeof_state_header with 16 in El. cbv zeta in E. destruct (st_alloc_healthy s) as (h & a & Ea & Hhp & _). rewrite Ea in E. destruct a as [a|].
  2: { injection E as <- <- <-. split; [by exists h|]. apply (pages_stop _ _ []); [done|]. split; [done|done|unfold ENOMEM; lia|done]. }
  destruct (write_later_pages _ d) as [d1 r] eqn:Ew. pose proof (later_pages_spec _ _ _ _ Ew Hd Hn) as W. destruct (r <? 0) eqn:Er.
  { injection E as <- <- <-. split; [by exists h|]. apply pages_stop; [lia|exact W]. }
  assert (r = 0) as -> by (pose proof (pw_ret _ _ _ _ _ _ W); lia). destruct (imrsim_write_snapshot_page _ 0 d1) as [d2 r2] eqn:E0.
  assert (in_image (seal_snapshot crc32 sn) 0) as H0 by (split; [done|cbn; lia]). pose proof (snapshot_page_spec _ _ _ _ _ E0 H0 (pw_dev _ _ _ _ _ _ W)) as W0.
  injection E as <- <- <-. split; [by exists h|]. eapply pages_app; [exact W|]. pose proof (pw_ret _ _ _ _ _ _ W0). destruct (r2 <? 0) eqn:Er2; [exact W0|].
  assert (r2 = 0) as -> by lia. exact W0.
Qed.

(** It stays within the area. *)
Lemma later_pages_in sn idx : 0 <= stats_num_zones (sn_state sn) -> idx ∈ later_pages sn -> 0 <= idx.
Proof.
  intros Hn. unfold later_pages. destruct (sn_full_save sn); [rewrite elem_of_seqZ; lia|]. intros [Hi|Hi]%elem_of_app.
  - destruct (negb _); [apply elem_page_range in Hi; lia|by apply elem_of_nil in Hi].
  - destruct (negb _); [|by apply elem_of_nil in Hi]. apply list_elem_of_In, in_concat in Hi as (l & Hl & Hi). apply in_map_iff in Hl as (i & <- & _).
    apply list_elem_of_In, zone_pages_in in Hi; [apply Hi|apply u32_range|done].
Qed.
Lemma flush_below crc32 sn s d s' d' ret : imrsim_write_persistence_snapshot crc32 sn s d = (s', d', ret) -> dev_ok d -> 0 <= stats_num_zones (sn_state sn) ->
  (exists h, hp_next (hp s) <= hp_next h /\ s' = set_hp h s) /\ dev_ok d' /\ forall a, a < pstore_lba (sn_state sn) -> dv_blocks d' a = dv_blocks d a.
Proof.
  intros E Hd Hn. destruct (flush_spec _ _ _ _ _ _ _ E Hd Hn) as [Hh W]. split_and!; [done|apply W|]. intros a Ha. apply (pw_else _ _ _ _ _ _ W).
  intros idx [Hi|Hi]%elem_of_app; [apply later_pages_in in Hi; [lia|done]|apply list_elem_of_singleton in Hi; lia].
Qed.

(** ** Completing an image *)

(** The snapshot names what has changed since [t0]: the statistics by its flag, the
    zones by its queue, unless it saves everything. *)
Record catches_up (t0 : target) (sn : pstore_snapshot) : Prop := {
  cu_num : IMR_NUMZONES (tg_state (sn_state sn)) = IMR_NUMZONES (tg_state t0);
  cu_stats_num : stats_num_zones (sn_state sn) = IMR_NUMZONES (tg_state (sn_state sn));
  cu_length : sn_length sn = state_length (IMR_NUMZONES (tg_state (sn_state sn)));
  cu_stats : sn_full_save sn = false -> Z.land (sn_flag sn) IMR_STATS_CHANGE = 0 -> write_stats (tg_state (sn_state sn)) = write_stats (tg_state t0);
  cu_zones : sn_full_save sn = false -> forall i, Z.land (sn_flag sn) IMR_STATUS_CHANGE = 0 \/ i ∉ map u32 (sn_zone_idx sn) -> zone i (tg_state (sn_state sn)) = zone i (tg_state t0);
}.

Section complete.
Context (t0 : target) (sn : pstore_snapshot).
Hypothesis (Hc : catches_up t0 sn).
Let n := IMR_NUMZONES (tg_state (sn_state sn)).
Hypothesis (Hn : 0 <= n).

(** A page that is not written has not changed. *)
Lemma unwritten_byte idx o : idx ∉ later_pages sn -> 1 <= idx -> 4096 * idx <= o < 4096 * idx + 4096 -> o < sn_length sn ->
  state_memory (sn_state sn) o = state_memory t0 o.
Proof.
  intros Hni Hidx Ho Hol. pose proof (zone_area_range n) as Ha.
  assert (idx < page_count sn) as Hcount by (unfold page_count; change PAGE_SIZE with 4096; Z.to_euclidean_division_equations; lia).
  unfold later_pages in Hni. destruct (sn_full_save sn) eqn:Ef; [exfalso; apply Hni, elem_of_seqZ; lia|]. rewrite elem_of_app in Hni.
  unfold state_memory. cbv zeta. rewrite <- (cu_num _ _ Hc). fold n. change (offset_stats + offset_zone_stats) with 64. change sizeof_zone_stats with 20.
  change sizeof_zone_status with 553504. replace (o <? 64) with false by lia.
  destruct (o <? 64 + 20 * n) eqn:Es.
  { rewrite (cu_stats _ _ Hc Ef); [done|]. destruct (Z.eq_dec (Z.land (sn_flag sn) IMR_STATS_CHANGE) 0) as [|Hf]; [done|exfalso]. apply Hni. left.
    replace (Z.land _ _ =? 0) with false by lia. cbn [negb]. apply elem_page_range. rewrite (cu_stats_num _ _ Hc). fold n. unfold last_stats_page.
    change (offset_stats + offset_zone_stats) with 64. change sizeof_zone_stats with 20. change PAGE_SIZE with 4096. Z.to_euclidean_division_equations; lia. }
  destruct (o <? imrsim_zone_status_ptr n) eqn:Ez; [done|]. destruct (o <? imrsim_zone_status_ptr n + 553504 * n) eqn:Et; [|done].
  set (i := (o - imrsim_zone_status_ptr n) / 553504). assert (0 <= i < n /\ 553504 * i <= o - imrsim_zone_status_ptr n < 553504 * i + 553504) as Hi
    by (unfold i; Z.to_euclidean_division_equations; lia).
  rewrite (cu_zones _ _ Hc Ef i); [done|]. destruct (Z.eq_dec (Z.land (sn_flag sn) IMR_STATUS_CHANGE) 0) as [|Hf]; [by left|right]. intros (j & Ej & Hj)%list_elem_of_fmap.
  apply Hni. right. replace (Z.land _ _ =? 0) with false by lia. cbn [negb]. apply list_elem_of_In, in_concat. exists (zone_pages sn (u32 j)).
  split; [apply in_map_iff; exists j; split; [done|by apply list_elem_of_In]|]. apply list_elem_of_In, elem_page_range. rewrite <- Ej, (cu_stats_num _ _ Hc). fold n.
  change sizeof_zone_status with 553504. clearbody i. Z.to_euclidean_division_equations; lia.
Qed.

Lemma flush_completes crc32 s d s' d' : imrsim_write_persistence_snapshot crc32 sn s d = (s', d', 0) -> dev_ok d ->
  has_image t0 (pstore_lba (sn_state sn)) (sn_length sn) (dv_blocks d) ->
  has_image (sn_state (seal_snapshot crc32 sn)) (pstore_lba (sn_state sn)) (sn_length sn) (dv_blocks d').
Proof.
  intros E Hd Hold idx H1 H2. destruct (flush_spec _ _ _ _ _ _ _ E Hd) as [_ W]; [rewrite (cu_stats_num _ _ Hc); exact Hn|].
  destruct (decide (idx ∈ later_pages sn ++ [0])) as [Hin|Hni]; [by apply (pw_pages _ _ _ _ _ _ W)|].
  rewrite (pw_else _ _ _ _ _ _ W), Hold by (done || (intros j Hj E'; apply Hni; by replace idx with j by lia)).
  apply page_of_ext. intros o Ho. unfold clipped. destruct (o <? sn_length sn) eqn:El; [|done]. assert (1 <= idx) as H3.
  { destruct (Z.eq_dec idx 0) as [->|]; [|lia]. exfalso. apply Hni, elem_of_app. right. by left. }
  unfold seal_snapshot. cbn [sn_state]. rewrite memory_crc by lia. symmetry. apply (unwritten_byte idx); [|done|done|lia]. intros Hin. apply Hni, elem_of_app. by left.
Qed.
End complete.

(** On a device that does not fail, a flush succeeds. *)
Section flush_healthy.
Context (sn : pstore_snapshot).
Hypothesis (Hqueue : forall i, i ∈ sn_zone_idx sn -> u32 i < stats_num_zones (sn_state sn)).

Lemma snapshot_pages_healthy pages : forall d, dv_script d = [] -> (forall idx, idx ∈ pages -> in_image sn idx) ->
  exists d', write_snapshot_pages sn pages d = (d', 0) /\ dv_script d' = [].
Proof.
  induction pages as [|idx pages IH]; intros d Hs Hp; cbn [write_snapshot_pages]; [by exists d|]. destruct (Hp idx) as [H1 H2]; [by left|].
  unfold imrsim_write_snapshot_page. cbv zeta. change PAGE_SIZE with 4096. replace (_ >=? _) with false by lia. rewrite write_page_healthy by done. cbn [Z.ltb].
  apply IH; [done|]. intros i Hi. apply Hp. by right.
Qed.
Lemma zones_pages_healthy queue : (forall i, i ∈ queue -> u32 i < stats_num_zones (sn_state sn)) -> forall d, dv_script d = [] ->
  exists d', write_zone_pages sn (page_count sn) queue d = (d', 0) /\ dv_script d' = [].
Proof.
  induction queue as [|i queue IH]; intros Hq d Hs; cbn [write_zone_pages]; cbv zeta; [by exists d|]. specialize (Hq i) as Hi. specialize (Hi ltac:(by left)). pose proof (u32_range i).
  replace (u32 i >=? _) with false by lia. change PAGE_SIZE with 4096. destruct (snapshot_pages_healthy (zone_pages sn (u32 i)) d Hs) as (d1 & E1 & Hs1); [intros idx; apply zone_pages_in; lia|].
  unfold zone_pages in E1. rewrite E1. cbn [Z.ltb]. apply IH; [|done]. intros j Hj. apply Hq. by right.
Qed.

Lemma later_pages_healthy d : dv_script d = [] -> 0 <= stats_num_zones (sn_state sn) -> exists d', write_later_pages sn d = (d', 0) /\ dv_script d' = [].
Proof.
  intros Hs Hn. unfold write_later_pages. destruct (sn_full_save sn).
  { apply snapshot_pages_healthy; [done|]. intros idx Hi%elem_of_seqZ. apply in_image_count. lia. }
  assert (exists d1, (if negb (Z.land (sn_flag sn) IMR_STATS_CHANGE =? 0) then write_snapshot_pages sn (stats_pages sn) d else (d, 0)) = (d1, 0) /\ dv_script d1 = []) as (d1 & E1 & Hs1).
  { destruct (negb _); [|by exists d]. apply snapshot_pages_healthy; [done|]. intros idx [H1 H2]%elem_page_range. apply in_image_count. lia. }
  unfold stats_pages in E1. rewrite E1. cbn [Z.ltb]. destruct (negb (Z.land (sn_flag sn) IMR_STATUS_CHANGE =? 0)); [by apply zones_pages_healthy|by exists d1].
Qed.
End flush_healthy.

Lemma flush_healthy crc32 sn s d : healthy s d -> 16 <= sn_length sn -> 0 <= stats_num_zones (sn_state sn) ->
  (forall i, i ∈ sn_zone_idx sn -> u32 i < stats_num_zones (sn_state sn)) ->
  exists s' d', imrsim_write_persistence_snapshot crc32 sn s d = (s', d', 0) /\ healthy s' d'.
Proof.
  intros [Hh Hs] Hl Hn Hq. unfold imrsim_write_persistence_snapshot. change sizeof_state_header with 16. replace (_ <? 16) with false by lia. cbv zeta.
  destruct (st_alloc_healthy s) as (h & a & -> & _ & Hal). destruct (Hal Hh) as [Ha1 Ha2]. destruct a as [a|]; [|done].
  destruct (later_pages_healthy (seal_snapshot crc32 sn) Hq d Hs Hn) as (d1 & -> & Hs1). cbn [Z.ltb].
  destruct (snapshot_pages_healthy (seal_snapshot crc32 sn) [0] d1 Hs1) as (d2 & E2 & Hs2). { intros idx ->%list_elem_of_singleton. split; [done|cbn; lia]. }
  cbn [write_snapshot_pages] in E2. destruct (imrsim_write_snapshot_page _ 0 d1) as [d3 r] eqn:E3. destruct (r <? 0) eqn:Er; [injection E2 as _ ->; lia|]. injection E2 as ->.
  eexists _, _. by split.
Qed.
