(* ===== verification/ImrDiskIo.v ===== *)
(** The data path against the disk, block by block: reading and writing a whole
    block through the worker, and moving sectors between a bio and a buffer. *)

From S2P Require Import Prelude StdMap ImrPrelude ImrGeometry ImrBloom ImrState ImrReadTree ImrLevels ImrSegment ImrPlacement ImrAccounting ImrCore ImrLsm ImrLsmInv ImrLsmOps ImrCompaction ImrBuild ImrPlan ImrPublish ImrPhases ImrSystem ImrZones ImrGc ImrIo ImrLayout ImrZoneFrame ImrZoneInv ImrZoneOps ImrGcPlan ImrGcSpec ImrGcPublish ImrCold ImrDisk ImrDiskData ImrDiskInv.

Section disk.
Context {here : site}.

(** ** Addresses *)

Lemma lba_zone lba : 0 <= lba < 2 ^ 50 ->
  let zone_idx := u32 (Z.shiftr (Z.shiftr lba IMR_BLOCK_SIZE_SHIFT) IMR_ZONE_SIZE_SHIFT) in
  Z.shiftr lba IMR_BLOCK_SIZE_SHIFT = lba / 8 /\ zone_idx = lba / 8 / 65536 /\ 0 <= zone_idx < 2 ^ 32 /\
  u32 (Z.shiftr (u64 (lba - zone_idx_lba zone_idx)) IMR_BLOCK_SIZE_SHIFT) = lba / 8 mod 65536 /\ u64 (lba - zone_idx_lba zone_idx) mod 8 = lba mod 8.
Proof.
  intros Hl. unfold IMR_BLOCK_SIZE_SHIFT, IMR_ZONE_SIZE_SHIFT. rewrite !Z.shiftr_div_pow2 by lia. change (2 ^ 3) with 8. change (2 ^ 16) with 65536. cbv zeta.
  assert (0 <= lba / 8 < 2 ^ 47) as Hk by (split; [apply Z.div_pos; lia|apply Z.div_lt_upper_bound; lia]).
  assert (0 <= lba / 8 / 65536 < 2 ^ 32) as Hz by (split; [apply Z.div_pos; lia|apply Z.div_lt_upper_bound; lia]).
  rewrite (u32_small _ Hz), zone_idx_lba_eq by done. pose proof (Z.div_mod lba 8 ltac:(lia)). pose proof (Z.div_mod (lba / 8) 65536 ltac:(lia)).
  pose proof (Z.mod_pos_bound lba 8 ltac:(lia)). pose proof (Z.mod_pos_bound (lba / 8) 65536 ltac:(lia)).
  set (z := lba / 8 / 65536) in *. set (k := lba / 8) in *. rewrite u64_small by lia.
  assert (lba - z * 524288 = k mod 65536 * 8 + lba mod 8) as -> by lia.
  rewrite Z.div_add_l, (Z.div_small (lba mod 8)), Z.add_0_r, u32_small by lia. split_and!; try done; try lia.
  rewrite Z.add_comm, Z.mod_add, Z.mod_mod by lia. done.
Qed.

(** What the forward map holds at the place of a key. *)
Lemma mapped_block_fwd s k : zones_ok s -> 0 <= k < total_keys s ->
  let b := mapped_block (k / 65536) (k mod 65536) s in fwd s k = if b =? -1 then None else Some (u64 (Z.shiftl (u32 b) IMR_BLOCK_SIZE_SHIFT)).
Proof.
  intros Hz Hk. pose proof (total_keys_limit s (zones_shape _ Hz)) as [_ Hlim]. unfold IMR_LSM_KEY_EMPTY, U32_MAX in Hlim.
  unfold fwd. replace ((0 <=? k) && (k <? total_keys s)) with true by lia. unfold imr_lsm_forward_map_lookup_locked, mapped_block.
  destruct (logical_eq k) as [-> ->]; [lia|]. unfold total_keys in Hk. change TOTAL_ITEMS with 65536 in Hk.
  assert (0 <= k / 65536 < IMR_NUMZONES s) as Hzi by (split; [apply Z.div_pos; lia|apply Z.div_lt_upper_bound; lia]).
  replace (_ >=? _) with false by lia. by destruct (zone_at s (k / 65536) (zones_shape _ Hz) Hzi) as [z ->].
Qed.

(** ** Frames *)

Section device.
Context (H : newest_map) (A : cells) (s : kstate) (d : device) (fl : list flight) (n : nat) (w : worker).
Hypothesis (Hinv : disk_inv H A (MkDisk s d fl n w)).

Lemma inv_device d' : dv_blocks d' = dv_blocks d -> dev_ok d' -> disk_inv H A (MkDisk s d' fl n w).
Proof.
  intros E Hd. pose proof Hinv as [I1 I2 I3 I4 I5 I6 I7 I8 I9 I10 I11]. dk. split; dk; try done; [by rewrite E|].
  apply (worker_device H s d); [done| |done]. intros. cbv zeta. by rewrite E.
Qed.

(** The LSM, or the forward map when it misses, names the block of a key. *)
Lemma inv_lookup k s' found : 0 <= k < total_keys s -> imr_lsm_read k s = (s', found) ->
  disk_inv H A (MkDisk s' d fl n w) /\ keeps s s' /\ fwd s' k = fwd s k /\
  fwd s k = match found with
            | LOOKUP_VALID p => Some p
            | LOOKUP_DELETED => None
            | LOOKUP_MISS => let b := mapped_block (k / 65536) (k mod 65536) s' in if b =? -1 then None else Some (u64 (Z.shiftl (u32 b) IMR_BLOCK_SIZE_SHIFT))
            end.
Proof.
  intros Hk E. pose proof Hinv as [I1 I2 I3 I4 I5 I6 I7 I8 I9 I10 I11]. dk. destruct (ensure_cases s) as [[Ec Ee]|[Ec Ee]]; cycle 1.
  { destruct (read_cold k s Ec) as (Q & K & Er). rewrite E in Q, K, Er. cbn in Q, K, Er. subst found. pose proof (inv_quiet _ _ _ _ _ _ _ Hinv s' Q) as Hinv'.
    pose proof (layout_of_zhalf _ _ (q_zone _ _ Q)) as El. assert (fwd s' k = fwd s k) as Ef by exact (f_equal (fun L => ly_fwd L k) El).
    split_and!; try done. rewrite <- Ef. apply mapped_block_fwd; [apply Hinv'|]. unfold total_keys. by rewrite (num_zhalf _ _ (q_zone _ _ Q)). }
  pose proof (read_spec H k s (awake_hot _ _ Ec I2)) as Hr. rewrite E in Hr. destruct Hr as (-> & Hi' & K).
  pose proof (inv_kept _ _ _ _ _ _ _ Hinv s' K (awake_lsm _ _ Hi')) as Hinv'. pose proof (keeps_zhalf _ _ K) as Ez. pose proof (layout_of_zhalf _ _ Ez) as El.
  assert (fwd s' k = fwd s k) as Ef by exact (f_equal (fun L => ly_fwd L k) El). split_and!; try done.
  destruct (H k) as [r|] eqn:Er; cbn [answer].
  - rewrite (I3 k r Er). by destruct (r_valid r).
  - rewrite <- Ef. apply mapped_block_fwd; [apply Hinv'|]. unfold total_keys. by rewrite (num_zhalf _ _ Ez).
Qed.

(** A block of the device shows the sectors of the key that maps to it. *)
Lemma reads_block k p : fwd s k = Some p -> reads A (8 * k) (dv_blocks d (imrsim_map_sector p s)) /\ lenZ (dv_blocks d (imrsim_map_sector p s)) = 8.
Proof.
  intros Hf. pose proof (proj1 (di_dev _ _ _ Hinv) (imrsim_map_sector p s)) as Hl. dk. split; [|done]. intros i v x HA Hx. apply nthZ_Some in Hx as Hi. rewrite Hl in Hi.
  pose proof (do_known _ _ _ _ _ _ _ _ (di_data _ _ _ Hinv) _ _ HA) as Hs. unfold shows in Hs. destruct (block_sector k i Hi) as [E1 E2]. dk.
  rewrite E1, E2 in Hs. change (ly_fwd (layout_of s) k) with (fwd s k) in Hs. rewrite Hf in Hs. unfold loc in Hs. unfold imrsim_map_sector in Hx. congruence.
Qed.
Lemma reads_zeros k : fwd s k = None -> reads A (8 * k) zero_block.
Proof.
  intros Hf i v x HA Hx. apply nthZ_Some in Hx as Hi. change (lenZ zero_block) with 8 in Hi.
  pose proof (do_known _ _ _ _ _ _ _ _ (di_data _ _ _ Hinv) _ _ HA) as Hs. unfold shows in Hs. destruct (block_sector k i Hi) as [E1 _]. dk.
  rewrite E1 in Hs. change (ly_fwd (layout_of s) k) with (fwd s k) in Hs. rewrite Hf in Hs. apply nthZ_In, elem_of_replicate in Hx as [-> _]. done.
Qed.
Lemma inv_fallback : disk_inv H A (MkDisk (imr_lsm_record_fallback s) d fl n w).
Proof. unfold imr_lsm_record_fallback. destruct (initialized (meta s)); [|done]. apply (inv_quiet _ _ _ _ _ _ _ Hinv), quiet_st_inc. Qed.
End device.

(** The counter goes up and down around a synchronous write. *)
Lemma quiet_roundtrip s c x : quiet (set_append_writes_inflight c s) x -> 
  quiet s (set_append_writes_inflight (append_writes_inflight s) x).
Proof.
  intros [Q1 Q2]. split; [exact Q1|]. unfold zhalf in *. cbn in *. injection Q2 as E1 E2 E3 E4 E5 E6 E7 E8 E9 E10 E11 E12. congruence.
Qed.

(** ** Whole blocks *)

Section blocks.
Context (H : newest_map) (A : cells) (s : kstate) (d : device) (fl : list flight) (n : nat) (w : worker).
Hypothesis (Hinv : disk_inv H A (MkDisk s d fl n w)).

Lemma inv_read_block lba s' d' r : 0 <= lba < 2 ^ 50 -> lba mod 8 = 0 -> imrsim_read_logical_block_page_locked lba s d = (s', d', r) ->
  disk_inv H A (MkDisk s' d' fl n w) /\ timestamp (meta s') = timestamp (meta s) /\
  match r with Ok b => lenZ b = 8 /\ reads A lba b | Fail e => e <> 0 end.
Proof.
  intros Hl Ha E. unfold imrsim_read_logical_block_page_locked in E. destruct (lba_zone lba Hl) as (Ek & Ez & Hz & Eo & _). cbv zeta in *.
  rewrite Eo, Ez, Ek in E. set (k := lba / 8) in *. assert (lba = 8 * k) as El by (pose proof (Z.div_mod lba 8); lia).
  destruct (k / 65536 >=? IMR_NUMZONES s) eqn:En; [injection E as <- <- <-; done|].
  assert (0 <= k < total_keys s) as Hk by (unfold total_keys; change TOTAL_ITEMS with 65536; pose proof (Z.div_mod k 65536); pose proof (Z.mod_pos_bound k 65536); lia).
  pose proof (Z.mod_pos_bound k 65536 ltac:(lia)). change TOTAL_ITEMS with 65536 in E. replace (k mod 65536 >=? 65536) with false in E by lia.
  destruct (imr_lsm_read k s) as [s1 found] eqn:Er. destruct (inv_lookup _ _ _ _ _ _ _ Hinv k s1 found Hk Er) as (Hinv1 & K & Ef1 & Ef). rewrite <- Ef1 in Ef.
  assert (forall s2 pba, disk_inv H A (MkDisk s2 d fl n w) -> fwd s2 k = pba -> timestamp (meta s2) = timestamp (meta s) ->
    match pba with None => (s2, d, Ok zero_block) | Some p => let '(d2, r2) := imrsim_read_data_page (imrsim_map_sector p s2) d in (s2, d2, r2) end = (s', d', r) ->
    disk_inv H A (MkDisk s' d' fl n w) /\ timestamp (meta s') = timestamp (meta s) /\
    match r with Ok b => lenZ b = 8 /\ reads A lba b | Fail e => e <> 0 end) as Hend.
  { intros s2 pba Hinv2 Hf Ht E2. rewrite El. destruct pba as [p|].
    - destruct (imrsim_read_data_page _ d) as [d2 r2] eqn:Ed. injection E2 as <- <- <-.
      destruct (read_page_spec _ _ _ _ Ed (di_dev _ _ _ Hinv)) as (Hd2 & Eb & Hr2). split_and!; [by apply (inv_device _ _ _ d)|done|].
      destruct r2 as [b|]; [|lia]. subst b. destruct (reads_block _ _ _ _ _ _ _ Hinv2 k p Hf). done.
    - injection E2 as <- <- <-. split_and!; [done|done|done|]. by eapply reads_zeros. }
  pose proof (keeps_timestamp _ _ K) as Et. destruct found as [|p|]; cbv zeta in Ef.
  - destruct (mapped_block (k / 65536) (k mod 65536) s1 =? -1) eqn:Eb; cbn [negb] in E.
    + by apply (Hend s1 None).
    + eapply (Hend (imr_lsm_record_fallback s1) (Some _)); [by apply inv_fallback| | |exact E].
      * unfold imr_lsm_record_fallback. by destruct (initialized (meta s1)).
      * unfold imr_lsm_record_fallback. by destruct (initialized (meta s1)).
  - by apply (Hend s1 (Some p)).
  - by apply (Hend s1 None).
Qed.

(** [A'] is [A] with block [k] rewritten by [page], or lost where it says so. *)
Definition rewrites (k : Z) (page : block) (A' : cells) : Prop :=
  (forall q, q / 8 <> k -> A' q = A q) /\
  (forall q, q / 8 = k -> A' q = Unknown \/ exists v, A' q = Known v /\ nthZ page (q mod 8) = Some v).

Lemma inv_write_block lba page s' d' ret :
  0 <= lba < 2 ^ 50 -> lba mod 8 = 0 -> lenZ page = 8 -> timestamp (meta s) + 1 < 2 ^ 32 -> lenZ fl < 2 ^ 31 - 1 ->
  imrsim_write_full_block_page_locked lba page s d = (s', d', ret) ->
  timestamp (meta s) <= timestamp (meta s') <= timestamp (meta s) + 1 /\
  (ret <> 0 /\ disk_inv H A (MkDisk s' d' fl n w) \/
   exists H', forall A', rewrites (lba / 8) page A' -> (ret <> 0 -> forall q, q / 8 = lba / 8 -> A' q = Unknown) -> disk_inv H' A' (MkDisk s' d' fl n w)).
Proof.
  intros Hl Ha Hp Hts Hfl E. unfold imrsim_write_full_block_page_locked in E. destruct (lba_zone lba Hl) as (Ek & Ez & _). cbv zeta in *.
  destruct (_ >=? _); [injection E as <- <- <-; split; [lia|by left]|].
  destruct (st_alloc s) as [s0 a] eqn:Ea. pose proof (inv_alloc _ _ _ _ _ _ _ Hinv s0 a Ea) as Hinv0.
  assert (timestamp (meta s0) = timestamp (meta s)) as Et0 by (destruct (st_alloc_cases s) as (h & [[E' _]|[E' _]]); rewrite E' in Ea; by injection Ea as <- _).
  destruct a as [a|]. 2: { injection E as <- <- <-. split; [lia|by left]. }
  destruct (write_rule_wake lba 8 s0) as [Ew|Ew]; rewrite Ew in E; [injection E as <- <- <-; split; [lia|by left]|]. clear Ew.
  pose proof (ensure_time _ _ _ _ _ _ _ Hinv0) as Ete. pose proof (aw_inv _ _ (di_lsm _ _ _ Hinv0)) as Hi0. pose proof (inv_ensure _ _ _ _ _ _ _ Hinv0) as Hinv1.
  dk. clear Hinv0 Ea. set (s00 := ensure_initialized s0) in *. clearbody s00. rewrite Et0 in Ete. clear s0 Et0. rename s00 into s0, Hinv1 into Hinv0.
  pose proof (write_rule_spec H lba 8 s0 (di_zones _ _ _ Hinv0) Hi0 ltac:(lia) ltac:(lia)) as Hw.
  destruct (imrsim_active_write_rule_check lba 8 s0) as [s1 r].
  destruct Hw as [(-> & -> & _)|(_ & _ & i & Hr)]; [injection E as <- <- <-; split; [lia|by left]|]. rewrite Ek in Hr. destruct r as [pba|e].
  2: { injection E as <- <- <-. destruct Hr as (HF & HL & He). pose proof (fg_time _ _ _ HF). split; [lia|left]. split; [|by eapply inv_same].
       unfold IMR_ERR_OUT_RANGE, ENOSPC, ENOMEM in He. lia. }
  destruct Hr as (_ & Hi & Hns & Hnd & Hs & -> & HF & HL). set (pba := imr_lsm_zone_append_pba i (ly_size (layout_of s0) i)) in *.
  set (s2 := set_append_writes_inflight (i32 (append_writes_inflight s1 + 1)) s1) in *.
  destruct (imrsim_write_data_page (imrsim_map_sector pba s2) page d) as [d2 rw] eqn:Ew.
  destruct (write_page_spec _ _ _ _ _ Ew (di_dev _ _ _ Hinv) Hp) as (Hd2 & Hother & Hrw).
  assert (imrsim_map_sector pba s2 = loc (output_bdev_start s0) pba) as Eloc by (unfold imrsim_map_sector, loc; by rewrite <- (env_start _ _ (fg_env _ _ _ HF))).
  rewrite Eloc in Hother, Hrw. set (s3 := if rw =? 0 then _ else s2) in E. injection E as <- <- <-.
  assert (quiet s1 (set_append_writes_inflight (i32 (append_writes_inflight s3 - 1)) s3)) as Q.
  { assert (0 <= append_writes_inflight s1 < 2 ^ 31 - 1) as Hc.
    { pose proof (di_inflight _ _ _ Hinv0) as Ec. dk. rewrite (es_inflight _ _ (fg_env _ _ _ HF)), Ec. pose proof (lenZ_nonneg fl). lia. }
    assert (quiet s2 s3) as Q3 by (unfold s3; destruct (rw =? 0); [apply quiet_queue|done]).
    assert (i32 (append_writes_inflight s3 - 1) = append_writes_inflight s1) as ->; [|by eapply quiet_roundtrip].
    assert (append_writes_inflight s3 = append_writes_inflight s2) as -> by exact (f_equal zh_inflight (q_zone _ _ Q3)).
    unfold s2. cbn [append_writes_inflight set_append_writes_inflight]. rewrite (i32_small (_ + 1)) by lia. rewrite i32_small; lia. }
  split. { rewrite (half_timestamp _ _ (q_lsm _ _ Q)). pose proof (fg_time _ _ _ HF). lia. }
  right. eexists. intros A' [Hne Heq] Hlost. eapply inv_quiet; [|exact Q].
  apply (inv_write _ _ _ _ _ _ _ Hinv0 s1 i (lba / 8) d2 A' Hi Hs Hns Hnd HF HL Hd2 Hother Hne). intros q Hq. fold pba.
  destruct Hrw as [[-> Hb]|Hneg]; [rewrite Hb; by apply Heq|]. left. apply Hlost; [lia|done].
Qed.
End blocks.

(** ** Buffers *)

Lemma take_past {A} (a b : list A) m : lenZ a <= m -> take (Z.to_nat m) (a ++ b) = a ++ take (Z.to_nat (m - lenZ a)) b.
Proof. intros Hm. unfold lenZ in *. rewrite take_app, take_ge by lia. do 2 f_equal. lia. Qed.
Lemma take_within {A} (a b : list A) m : m <= lenZ a -> take (Z.to_nat m) (a ++ b) = take (Z.to_nat m) a.
Proof. intros Hm. unfold lenZ in *. rewrite take_app. replace (Z.to_nat m - length a)%nat with 0%nat by lia. by rewrite take_0, app_nil_r. Qed.
Lemma drop_past {A} (a b : list A) m : lenZ a <= m -> drop (Z.to_nat m) (a ++ b) = drop (Z.to_nat (m - lenZ a)) b.
Proof. intros Hm. unfold lenZ in *. rewrite drop_app, drop_ge by lia. cbn. f_equal. lia. Qed.
Lemma drop_within {A} (a b : list A) m : m <= lenZ a -> drop (Z.to_nat m) (a ++ b) = drop (Z.to_nat m) a ++ b.
Proof. intros Hm. unfold lenZ in *. rewrite drop_app. replace (Z.to_nat m - length a)%nat with 0%nat by lia. done. Qed.

(** Gathering returns the sectors of the bio. *)
Lemma gather segs : forall skip count copied, 0 <= skip -> 0 <= copied < count -> skip + (count - copied) <= lenZ (concat segs) ->
  imrsim_bio_copy_to_buffer segs skip count copied = Ok (take (Z.to_nat (count - copied)) (drop (Z.to_nat skip) (concat segs))).
Proof.
  induction segs as [|seg segs IH]; intros skip count copied Hs Hc Hl; [change (lenZ (concat (@nil (list Z)))) with 0 in Hl; lia|]. cbn in *. rewrite lenZ_app in Hl.
  pose proof (lenZ_nonneg seg). destruct (skip >=? lenZ seg) eqn:E1; [rewrite IH by lia; by rewrite drop_past by lia|].
  rewrite drop_within by lia. set (m := lenZ seg - skip) in *. assert (lenZ (drop (Z.to_nat skip) seg) = m) as Em by (rewrite lenZ_drop by lia; lia).
  destruct (m >? count - copied) eqn:E2.
  - replace (copied + (count - copied) =? count) with true by lia. by rewrite take_within by lia.
  - rewrite (take_ge (drop _ seg)) by (unfold lenZ in Em; lia). rewrite take_past by lia. rewrite Em. destruct (copied + m =? count) eqn:E3.
    + replace (count - copied - m) with 0 by lia. by rewrite take_0, app_nil_r.
    + rewrite IH by lia. rewrite drop_0. do 3 f_equal. lia.
Qed.

(** Scattering changes just the sectors it covers. *)
Lemma scatter segs : forall buffer skip count copied, 0 <= skip -> 0 <= copied < count -> skip + (count - copied) <= lenZ (concat segs) -> count <= lenZ buffer ->
  exists segs', imrsim_bio_copy_from_buffer segs buffer skip count copied = (segs', 0) /\
    concat segs' = take (Z.to_nat skip) (concat segs) ++ take (Z.to_nat (count - copied)) (drop (Z.to_nat copied) buffer) ++
                   drop (Z.to_nat (skip + (count - copied))) (concat segs).
Proof.
  induction segs as [|seg segs IH]; intros buffer skip count copied Hs Hc Hl Hb; [change (lenZ (concat (@nil (list Z)))) with 0 in Hl; lia|]. cbn in *. rewrite lenZ_app in Hl.
  pose proof (lenZ_nonneg seg). destruct (skip >=? lenZ seg) eqn:E1.
  { destruct (IH buffer (skip - lenZ seg) count copied) as (segs' & -> & E); [lia..|]. eexists. split; [done|]. cbn. rewrite E.
    rewrite take_past, drop_past by lia. rewrite <- app_assoc. do 4 f_equal. lia. }
  rewrite take_within by lia. set (m := lenZ seg - skip) in *. destruct (m >? count - copied) eqn:E2.
  - replace (copied + (count - copied) =? count) with true by lia. eexists. split; [done|]. cbn. rewrite drop_within by lia. by rewrite <- !app_assoc.
  - replace (skip + m) with (lenZ seg) by lia. assert (drop (Z.to_nat (lenZ seg)) seg = []) as -> by (apply drop_ge; unfold lenZ; lia).
    rewrite drop_past by lia. destruct (copied + m =? count) eqn:E3.
    + eexists. split; [done|]. cbn. rewrite app_nil_r, <- !app_assoc. replace (skip + (count - copied) - lenZ seg) with 0 by lia.
      rewrite drop_0. do 3 f_equal. lia.
    + destruct (IH buffer 0 count (copied + m)) as (segs' & -> & E); [lia..|]. eexists. split; [done|]. cbn. rewrite E, take_0, app_nil_r. cbn [app].
      rewrite <- !app_assoc. f_equal. assert (Z.to_nat (count - copied) = Z.to_nat m + Z.to_nat (count - (copied + m)))%nat as -> by lia.
      rewrite <- take_take_drop, drop_drop, <- app_assoc. replace (Z.to_nat copied + Z.to_nat m)%nat with (Z.to_nat (copied + m)) by lia.
      do 3 f_equal. lia.
Qed.
End disk.
