(* ===== verification/ImrDiskPartial.v ===== *)
(** Partial bios: the worker's loop over the blocks of a bio rewrites the sectors
    it covers, keeps the others, and returns what they hold. *)

From S2P Require Import Prelude StdMap ImrPrelude ImrGeometry ImrBloom ImrState ImrReadTree ImrLevels ImrSegment ImrPlacement ImrAccounting ImrCore ImrLsm ImrLsmInv ImrLsmOps ImrCompaction ImrBuild ImrPlan ImrPublish ImrPhases ImrSystem ImrZones ImrGc ImrIo ImrLayout ImrZoneFrame ImrZoneInv ImrZoneOps ImrGcPlan ImrGcSpec ImrGcPublish ImrCold ImrDisk ImrDiskData ImrDiskInv ImrDiskIo.

Section disk.
Context {here : site}.

(** ** The cells of a rewritten range *)


Lemma touched_spec l n q : touched l n q = true <-> 0 < n /\ l / 8 <= q / 8 <= (l + n - 1) / 8.
Proof. unfold touched. rewrite !andb_true_iff, Z.leb_le, !Z.ltb_lt. split; intros; div8. Qed.
Lemma touched_false l n q : touched l n q = false <-> n <= 0 \/ q / 8 < l / 8 \/ (l + n - 1) / 8 < q / 8.
Proof.
  destruct (touched l n q) eqn:E; [apply touched_spec in E|]; (split; [|]; intros X; [|]); try done; try lia.
  destruct (decide (n <= 0)); [by left|right]. destruct (decide (l / 8 <= q / 8 <= (l + n - 1) / 8)) as [Hc|]; [|lia].
  enough (touched l n q = true) by congruence. apply touched_spec. lia.
Qed.
Lemma nthZ_range {A} (l : list A) i : is_Some (nthZ l i) <-> 0 <= i < lenZ l.
Proof. split; [intros [x Hx]; by eapply nthZ_Some|apply nthZ_is_Some]. Qed.

Lemma nthZ_app_any {A} (l k : list A) i : nthZ (l ++ k) i = if i <? lenZ l then nthZ l i else nthZ k (i - lenZ l).
Proof.
  destruct (decide (0 <= i)); [by apply nthZ_app|]. pose proof (lenZ_nonneg l). replace (i <? lenZ l) with true by lia. by rewrite !nthZ_None by lia.
Qed.

Lemma rewrite_app A l p1 p2 q : 0 < lenZ p1 -> (l + lenZ p1) mod 8 = 0 \/ p2 = [] ->
  rewrite_cells (rewrite_cells A l p1) (l + lenZ p1) p2 q = rewrite_cells A l (p1 ++ p2) q.
Proof.
  intros H1 Hal. pose proof (lenZ_nonneg p2). unfold rewrite_cells. rewrite lenZ_app, nthZ_app_any. replace (q - (l + lenZ p1)) with (q - l - lenZ p1) by lia.
  destruct Hal as [Hal| ->].
  2: { change (lenZ (@nil Z)) with 0. rewrite (nthZ_None (@nil Z)) by (change (lenZ (@nil Z)) with 0; lia).
       assert (touched (l + lenZ p1) 0 q = false) as -> by (apply touched_false; lia). rewrite Z.add_0_r. destruct (q - l <? lenZ p1) eqn:E; [done|].
       by rewrite (nthZ_None p1) by lia. }
  destruct (q - l <? lenZ p1) eqn:E.
  - rewrite (nthZ_None p2) by lia. assert (touched (l + lenZ p1) (lenZ p2) q = false) as -> by (apply touched_false; div8).
    destruct (nthZ p1 (q - l)); [done|]. assert (touched l (lenZ p1 + lenZ p2) q = touched l (lenZ p1) q) as ->; [|done].
    apply eq_true_iff_eq. rewrite !touched_spec. split; intros; div8.
  - rewrite (nthZ_None p1) by lia. destruct (nthZ p2 (q - l - lenZ p1)) eqn:Ep; [done|].
    assert (touched l (lenZ p1) q = false) as -> by (apply touched_false; div8).
    assert (touched l (lenZ p1 + lenZ p2) q = touched (l + lenZ p1) (lenZ p2) q) as ->; [|done].
    apply eq_true_iff_eq. rewrite !touched_spec. split; intros; [|div8].
    destruct (decide (0 < lenZ p2)); [div8|]. exfalso. assert (lenZ p2 = 0) by lia. div8.
Qed.

Lemma inv_ext H A A' x : (forall q, A' q = A q) -> disk_inv H A x -> disk_inv H A' x.
Proof.
  intros E [I1 I2 I3 [D1 D2 D3 D4 D5] I5 I6 I7 I8 I9 I10 I11]. split; try done. split; try done.
  - intros q v. rewrite E. apply D1.
  - intros q id v. rewrite E. apply D2.
  - intros f q p Hf Hp Es. rewrite E. by eapply D4.
Qed.

(** ** One block of a bio *)

Lemma overlay_spec page off part : 0 <= off -> off + lenZ part <= lenZ page ->
  lenZ (overlay page off part) = lenZ page /\
  forall i, nthZ (overlay page off part) i = if (off <=? i) && (i <? off + lenZ part) then nthZ part (i - off) else nthZ page i.
Proof.
  intros Ho Hl. pose proof (lenZ_nonneg part). unfold overlay. assert (lenZ (take (Z.to_nat off) page) = off) as Et by (rewrite lenZ_take by lia; lia). split.
  - rewrite !lenZ_app, Et, lenZ_drop by lia. lia.
  - intros i. rewrite !nthZ_app_any, Et. destruct (i <? off) eqn:E1.
    + replace (off <=? i) with false by lia. cbn. unfold nthZ. destruct (0 <=? i) eqn:E0; [|done]. apply lookup_take_lt. lia.
    + replace (off <=? i) with true by lia. replace (i - off <? lenZ part) with (i <? off + lenZ part) by lia. cbn. destruct (i <? off + lenZ part) eqn:E2; [done|].
      unfold nthZ. replace (0 <=? i - off - lenZ part) with true by lia. replace (0 <=? i) with true by lia. rewrite lookup_drop. f_equal. lia.
Qed.


(** The sectors of one block rewritten through its page. *)
Lemma rewrites_block A cur page part :
  lenZ page = 8 -> reads A (8 * (cur / 8)) page -> 0 < lenZ part -> cur mod 8 + lenZ part <= 8 ->
  rewrites A (cur / 8) (overlay page (cur mod 8) part) (rewrite_cells A cur part).
Proof.
  intros Hp Hr H0 H8. pose proof (Z.div_mod cur 8 ltac:(lia)) as Ecur. pose proof (Z.mod_pos_bound cur 8 ltac:(lia)) as Hm.
  destruct (overlay_spec page (cur mod 8) part) as [_ Ho]; [lia|lia|]. split; intros q Hq; unfold rewrite_cells.
  - rewrite nthZ_None by div8. assert (touched cur (lenZ part) q = false) as -> by (apply touched_false; div8). done.
  - destruct (sector_split q) as [Eq Hqm]. destruct (nthZ part (q - cur)) as [v|] eqn:Ev.
    + right. exists v. split; [done|]. apply nthZ_Some in Ev as Hi. rewrite Ho. replace (_ && _) with true by lia. rewrite <- Ev. f_equal. lia.
    + assert (touched cur (lenZ part) q = true) as -> by (apply touched_spec; div8). destruct (A q) as [v| |] eqn:EA; cbn; [|by left|by left].
      right. exists v. split; [done|]. rewrite Ho. assert (~ (0 <= q - cur < lenZ part)) as Hout by (rewrite <- nthZ_range, Ev; by intros [? ?]).
      replace (_ && _) with false by lia. destruct (nthZ_is_Some page (q mod 8)) as [x Hx]; [lia|]. rewrite Hx. f_equal.
      apply (Hr (q mod 8) v x); [|done]. rewrite <- Hq, <- Eq. done.
Qed.

(** ** The loop *)

Lemma alloc_timestamp s s' a : st_alloc s = (s', a) -> timestamp (meta s') = timestamp (meta s).
Proof. intros E. destruct (st_alloc_cases s) as (h & [[E' _]|[E' _]]); rewrite E' in E; by injection E as <- _. Qed.

Section loop.
Context (fl : list flight) (n : nat) (w : worker) (lba sectors : Z).
Hypothesis (Hlba : 0 <= lba) (Hend : lba + sectors < 2 ^ 50) (Hfl : lenZ fl < 2 ^ 31 - 1).

(** The block and the span of an iteration. *)
Definition span (done : Z) : Z := let off := (lba + done) mod 8 in if 8 - off >? sectors - done then sectors - done else 8 - off.

Lemma loop_span done : 0 <= done < sectors ->
  u64 (lba + done) = lba + done /\ (lba + done) - Z.ldiff (lba + done) 7 = (lba + done) mod 8 /\
  0 <= Z.ldiff (lba + done) 7 < 2 ^ 50 /\ Z.ldiff (lba + done) 7 mod 8 = 0 /\ Z.ldiff (lba + done) 7 / 8 = (lba + done) / 8 /\
  0 < span done /\ done + span done <= sectors /\ (lba + done) mod 8 + span done <= 8 /\
  ((lba + (done + span done)) mod 8 = 0 \/ done + span done = sectors).
Proof.
  intros Hd. rewrite ldiff_block, u64_small by lia. unfold span. cbv zeta. pose proof (Z.div_mod (lba + done) 8 ltac:(lia)). pose proof (Z.mod_pos_bound (lba + done) 8 ltac:(lia)).
  assert (8 * ((lba + done) / 8) mod 8 = 0 /\ 8 * ((lba + done) / 8) / 8 = (lba + done) / 8) as [-> ->] by (split; div8).
  split_and!; try done; try lia; destruct (_ >? _) eqn:E; try lia. left. div8.
Qed.

Definition torn_write (A : cells) (l : Z) (data : list Z) (A' : cells) : Prop :=
  forall q, A' q = A q \/ touched l (lenZ data) q = true /\ (A' q = Unknown \/ A' q = rewrite_cells A l data q).

(** A torn write of the rest is a torn write of the whole. *)
Lemma torn_app A l p1 p2 A' : 0 < lenZ p1 -> (l + lenZ p1) mod 8 = 0 \/ p2 = [] ->
  torn_write (rewrite_cells A l p1) (l + lenZ p1) p2 A' -> torn_write A l (p1 ++ p2) A'.
Proof.
  intros H1 Hal Ht q. pose proof (lenZ_nonneg p2). assert (forall q, touched (l + lenZ p1) (lenZ p2) q = true -> touched l (lenZ (p1 ++ p2)) q = true) as Hin.
  { intros x. rewrite lenZ_app, !touched_spec. intros; div8. }
  destruct (Ht q) as [E|[Hq [E|E]]]; [|right; split; [by apply Hin|by left]|right; split; [by apply Hin|right; by rewrite E, rewrite_app]].
  destruct (touched l (lenZ (p1 ++ p2)) q) eqn:Et.
  - rewrite E. destruct (touched (l + lenZ p1) (lenZ p2) q) eqn:E2.
    + left. unfold rewrite_cells. apply touched_spec in E2. destruct Hal as [Hal| ->]; [|change (lenZ (@nil Z)) with 0 in E2; lia].
      rewrite nthZ_None by div8. assert (touched l (lenZ p1) q = false) as -> by (apply touched_false; div8). done.
    + right. split; [done|right]. rewrite <- rewrite_app by done. unfold rewrite_cells at 2. rewrite E2. destruct (nthZ p2 (q - (l + lenZ p1))) eqn:Ep; [|done].
      apply nthZ_Some in Ep. apply touched_false in E2. div8.
  - left. rewrite E. unfold rewrite_cells. rewrite lenZ_app in Et. apply touched_false in Et. rewrite nthZ_None by div8.
    assert (touched l (lenZ p1) q = false) as -> by (apply touched_false; div8). done.
Qed.

Lemma rest_none A l segs done q : lenZ (concat segs) <= done -> rewrite_cells A l (drop (Z.to_nat done) (concat segs : list Z)) q = A q.
Proof.
  intros Hd. rewrite drop_ge by (unfold lenZ in Hd; lia). unfold rewrite_cells. change (lenZ (@nil Z)) with 0. rewrite (nthZ_None (@nil Z)) by (change (lenZ (@nil Z)) with 0; lia).
  assert (touched l 0 q = false) as -> by (apply touched_false; lia). done.
Qed.

Lemma partial_write segs : lenZ (concat segs) = sectors -> forall fuel done H A s d s' d' segs' ret,
  disk_inv H A (MkDisk s d fl n w) -> 0 <= done <= sectors -> sectors - done <= Z.of_nat fuel -> timestamp (meta s) + (sectors - done) < 2 ^ 32 ->
  partial_loop fuel true false lba sectors done segs s d = (s', d', segs', ret) ->
  timestamp (meta s) <= timestamp (meta s') <= timestamp (meta s) + (sectors - done) /\
  let rest := drop (Z.to_nat done) (concat segs) in
  exists H' A', disk_inv H' A' (MkDisk s' d' fl n w) /\
    (ret = 0 /\ (forall q, A' q = rewrite_cells A (lba + done) rest q) \/ ret <> 0 /\ torn_write A (lba + done) rest A').
Proof.
  intros Hseg. induction fuel as [|fuel IH]; intros done H A s d s' d' segs' ret Hinv Hd Hfuel Hts E.
  { cbn in E. injection E as <- <- <- <-. split; [lia|]. exists H, A. split; [done|left]. split; [done|]. intros q.
    by rewrite rest_none by lia. }
  cbn [partial_loop] in E. destruct (done >=? sectors) eqn:Eds.
  { injection E as <- <- <- <-. split; [lia|]. exists H, A. split; [done|left]. split; [done|]. intros q. by rewrite rest_none by lia. }
  destruct (loop_span done ltac:(lia)) as (E1 & E2 & Hb & Hb8 & Eb & Hs0 & Hs1 & Hs8 & Hal). cbv zeta in E. rewrite E1, E2 in E.
  fold (span done) in E. set (cur := lba + done) in *. set (blk := Z.ldiff cur 7) in *. set (sp := span done) in *.
  set (rest := drop (Z.to_nat done) (concat segs)). set (part := take (Z.to_nat sp) rest). set (rest' := drop (Z.to_nat (done + sp)) (concat segs)).
  assert (rest = part ++ rest') as Erest.
  { unfold part, rest'. rewrite Z2Nat.inj_add by lia. rewrite <- drop_drop. fold rest. by rewrite take_drop. }
  assert (lenZ rest = sectors - done) as Lrest by (unfold rest; rewrite lenZ_drop by lia; lia).
  assert (lenZ part = sp) as Lpart by (unfold part; rewrite lenZ_take by lia; lia).
  assert ((cur + lenZ part) mod 8 = 0 \/ rest' = []) as Hal'.
  { rewrite Lpart. unfold cur in *. destruct Hal as [Hal|Hal]; [left; by rewrite <- Z.add_assoc|right]. apply lenZ_0. unfold rest'. rewrite lenZ_drop by lia. lia. }
  assert (forall s1 d1 e, (s1, d1, segs, e) = (s', d', segs', ret) -> e <> 0 -> disk_inv H A (MkDisk s1 d1 fl n w) ->
    timestamp (meta s) <= timestamp (meta s1) <= timestamp (meta s) + 1 ->
    timestamp (meta s) <= timestamp (meta s') <= timestamp (meta s) + (sectors - done) /\
    exists H' A', disk_inv H' A' (MkDisk s' d' fl n w) /\
      (ret = 0 /\ (forall q, A' q = rewrite_cells A cur rest q) \/ ret <> 0 /\ torn_write A cur rest A')) as Hstop.
  { intros s1 d1 e [= <- <- <- <-] He Hi1 Ht1. split; [lia|]. exists H, A. split; [done|right]. split; [done|]. intros q. by left. }
  destruct (st_alloc s) as [s0 a] eqn:Ea. pose proof (inv_alloc _ _ _ _ _ _ _ Hinv s0 a Ea) as Hinv0.
  assert (timestamp (meta s0) = timestamp (meta s)) as Et0 by (by eapply alloc_timestamp).
  destruct a as [a|]; [|by apply (Hstop s0 d (- ENOMEM) E); [|done|lia]].
  destruct (imrsim_read_logical_block_page_locked blk s0 d) as [[s1 d1] page] eqn:Er.
  destruct (inv_read_block _ _ _ _ _ _ _ Hinv0 blk s1 d1 page Hb Hb8 Er) as (Hinv1 & Et1 & Hpage). destruct page as [page|e]; [|by apply (Hstop s1 d1 e E); [..|lia]].
  destruct Hpage as [Lpage Hreads]. rewrite (gather segs done sp 0) in E by lia. rewrite Z.sub_0_r in E. fold rest part in E.
  destruct (overlay_spec page (cur mod 8) part) as [Lover _]; [apply Z.mod_pos_bound; lia|lia|].
  destruct (imrsim_write_full_block_page_locked blk _ s1 d1) as [[s2 d2] rw] eqn:Ew.
  destruct (inv_write_block _ _ _ _ _ _ _ Hinv1 blk _ s2 d2 rw Hb Hb8 (eq_trans Lover Lpage) ltac:(lia) Hfl Ew) as [Ht2 Hw].
  assert (blk = 8 * (cur / 8)) as Eblk by apply ldiff_block. rewrite Eb in Hw. rewrite Eblk in Hreads.
  pose proof (rewrites_block A cur page part Lpage Hreads ltac:(lia) ltac:(lia)) as Hrw.
  destruct Hw as [[Hne Hinv2]|(H' & Hw)].
  { replace (negb (rw =? 0)) with true in E by lia. by apply (Hstop s2 d2 rw E); [..|lia]. }
  destruct (rw =? 0) eqn:Erw; cbn [negb] in E.
  - specialize (Hw _ Hrw ltac:(lia)). destruct (IH (done + sp) H' _ s2 d2 s' d' segs' ret Hw) as (Ht & H2 & A2 & Hinv2 & Hres); [lia..|done|]. split; [lia|].
    exists H2, A2. split; [done|]. fold rest' in Hres. replace (lba + (done + sp)) with (cur + lenZ part) in Hres by lia. destruct Hres as [[-> Hres]|[Hne Hres]]; [left|right].
    + split; [done|]. intros q. rewrite Hres, rewrite_app by (done || lia). by rewrite Erest.
    + split; [done|]. rewrite Erest. apply torn_app; [lia|done|done].
  - injection E as <- <- <- <-. split; [lia|]. exists H', (fun q => if decide (q / 8 = cur / 8) then Unknown else A q). split.
    + apply Hw; [split|]; intros; [by rewrite decide_False|left; by rewrite decide_True|by rewrite decide_True].
    + right. split; [lia|]. intros q. destruct (decide (q / 8 = cur / 8)); [|by left]. right. split; [|by left]. apply touched_spec. rewrite Lrest. div8.
Qed.

(** A scattered span: the sectors of the bio outside it stay. *)
Lemma scatter_span segs buffer done sp : 0 <= done -> 0 < sp -> done + sp <= lenZ (concat segs) -> sp <= lenZ buffer ->
  exists segs', imrsim_bio_copy_from_buffer segs buffer done sp 0 = (segs', 0) /\ lenZ (concat segs') = lenZ (concat segs) /\
    (forall i, i < done -> nthZ (concat segs') i = nthZ (concat segs) i) /\
    (forall i, done <= i < done + sp -> nthZ (concat segs') i = nthZ buffer (i - done)).
Proof.
  intros Hd Hs Hl Hb. destruct (scatter segs buffer done sp 0) as (segs' & E & Ec); [lia..|]. exists segs'. rewrite Z.sub_0_r, drop_0 in Ec. split; [done|]. rewrite Ec.
  assert (lenZ (take (Z.to_nat done) (concat segs)) = done) as L1 by (rewrite lenZ_take by lia; lia).
  assert (lenZ (take (Z.to_nat sp) buffer) = sp) as L2 by (rewrite lenZ_take by lia; lia). split_and!.
  - rewrite !lenZ_app, L1, L2, lenZ_drop by lia. lia.
  - intros i Hi. rewrite nthZ_app_any, L1. replace (i <? done) with true by lia. unfold nthZ. destruct (0 <=? i) eqn:E0; [|done]. apply lookup_take_lt. lia.
  - intros i Hi. rewrite !nthZ_app_any, L1, L2. replace (i <? done) with false by lia. replace (i - done <? sp) with true by lia.
    unfold nthZ. replace (0 <=? i - done) with true by lia. apply lookup_take_lt. lia.
Qed.

Lemma partial_read zero_fill : forall fuel done segs H A s d s' d' segs' ret,
  lenZ (concat segs) = sectors -> disk_inv H A (MkDisk s d fl n w) -> 0 <= done <= sectors -> sectors - done <= Z.of_nat fuel ->
  partial_loop fuel false zero_fill lba sectors done segs s d = (s', d', segs', ret) ->
  disk_inv H A (MkDisk s' d' fl n w) /\ timestamp (meta s') = timestamp (meta s) /\
  (zero_fill = false -> ret = 0 -> (forall i, i < done -> nthZ (concat segs') i = nthZ (concat segs) i) /\
     forall i v x, done <= i -> A (lba + i) = Known v -> nthZ (concat segs') i = Some x -> x = v).
Proof.
  induction fuel as [|fuel IH]; intros done segs H A s d s' d' segs' ret Hseg Hinv Hd Hfuel E.
  { cbn in E. injection E as <- <- <- <-. split_and!; try done. intros _ _. split; [done|]. intros i v x Hi _ Hx%nthZ_Some. lia. }
  cbn [partial_loop] in E. destruct (done >=? sectors) eqn:Eds.
  { injection E as <- <- <- <-. split_and!; try done. intros _ _. split; [done|]. intros i v x Hi _ Hx%nthZ_Some. lia. }
  destruct (loop_span done ltac:(lia)) as (E1 & E2 & Hb & Hb8 & Eb & Hs0 & Hs1 & Hs8 & Hal). cbv zeta in E. rewrite E1, E2 in E.
  fold (span done) in E. set (cur := lba + done) in *. set (blk := Z.ldiff cur 7) in *. set (sp := span done) in *.
  destruct (st_alloc s) as [s0 a] eqn:Ea. pose proof (inv_alloc _ _ _ _ _ _ _ Hinv s0 a Ea) as Hinv0. pose proof (alloc_timestamp _ _ _ Ea) as Et0.
  destruct a as [a|]; [|by injection E as <- <- <- <-].
  destruct (if zero_fill then _ else _) as [[s1 d1] page] eqn:Er.
  assert (disk_inv H A (MkDisk s1 d1 fl n w) /\ timestamp (meta s1) = timestamp (meta s) /\
    match page with Ok b => lenZ b = 8 /\ (zero_fill = false -> reads A blk b) | Fail e => e <> 0 end) as (Hinv1 & Et1 & Hpage).
  { destruct zero_fill; [by injection Er as <- <- <-|].
    destruct (inv_read_block _ _ _ _ _ _ _ Hinv0 blk s1 d1 page Hb Hb8 Er) as (? & ? & Hp). split_and!; [done|congruence|]. destruct page; [|done]. split; [|intros _]; apply Hp. }
  destruct page as [page|e]; [|injection E as <- <- <- <-; by split_and!]. destruct Hpage as [Lp Hreads]. pose proof (Z.mod_pos_bound cur 8 ltac:(lia)) as Hm.
  destruct (scatter_span segs (drop (Z.to_nat (cur mod 8)) page) done sp) as (segs1 & Es & L1 & Hlow & Hmid); [lia..|rewrite lenZ_drop by lia; lia|].
  rewrite Es in E. change (negb (0 =? 0)) with false in E. cbv iota in E.
  destruct (IH (done + sp) segs1 H A s1 d1 s' d' segs' ret) as (Hinv' & Et & Hres); [lia|done|lia|lia|done|]. split_and!; [done|congruence|].
  intros Hz Hr. destruct (Hres Hz Hr) as [R1 R2]. split; [intros i Hi; by rewrite R1, Hlow by lia|]. intros i v x Hi HA Hx.
  destruct (decide (done + sp <= i)); [by apply (R2 i)|]. rewrite R1, Hmid in Hx by lia. apply (Hreads Hz (i - done + cur mod 8) v x).
  - assert (blk = 8 * (cur / 8)) as -> by apply ldiff_block. rewrite <- HA. f_equal. unfold cur. pose proof (Z.div_mod cur 8 ltac:(lia)). unfold cur in *. lia.
  - revert Hx. unfold nthZ. replace (0 <=? i - done) with true by lia. replace (0 <=? i - done + cur mod 8) with true by lia. rewrite lookup_drop. intros <-. f_equal. lia.
Qed.
End loop.
End disk.
