(* ===== verification/ImrDiskSteps.v ===== *)
(** Every step of the disk keeps the invariant and is permitted. *)

From S2P Require Import Prelude StdMap ImrPrelude ImrGeometry ImrBloom ImrState ImrReadTree ImrLevels ImrSegment ImrPlacement ImrAccounting ImrCore ImrLsm ImrLsmInv ImrLsmOps ImrCompaction ImrBuild ImrPlan ImrPublish ImrPhases ImrSystem ImrZones ImrGc ImrTarget ImrIo ImrLayout ImrZoneFrame ImrZoneInv ImrZoneOps ImrGcPlan ImrGcSpec ImrGcPublish ImrCold ImrDisk ImrDiskData ImrDiskInv ImrDiskIo ImrDiskPartial.

Section disk.
Context {here : site}.

(** ** Addresses *)

Lemma aligned_block a : Z.land a 7 = 0 -> a = 8 * (a / 8).
Proof. change 7 with (Z.ones 3). rewrite Z.land_ones by lia. change (2 ^ 3) with 8. intros. div8. Qed.
Lemma shiftr_block a : Z.shiftr a IMR_BLOCK_SIZE_SHIFT = a / 8.
Proof. unfold IMR_BLOCK_SIZE_SHIFT. by rewrite Z.shiftr_div_pow2. Qed.

(** ** Deletions and discards *)

Lemma write_none A lba q : write_cells A lba (replicate (Z.to_nat 0) (Known 0)) q = A q.
Proof. unfold write_cells. rewrite nthZ_None; [done|]. change (lenZ _) with 0. lia. Qed.
Lemma nthZ_replicate {A} (x : A) m i : nthZ (replicate (Z.to_nat m) x) i = if (0 <=? i) && (i <? m) then Some x else None.
Proof.
  destruct (_ && _) eqn:E.
  - unfold nthZ. replace (0 <=? i) with true by lia. apply lookup_replicate_2. lia.
  - apply nthZ_None. unfold lenZ. rewrite length_replicate. lia.
Qed.
Lemma write_zeros A k m q : 0 <= m ->
  write_cells (write_cells A (8 * k) (replicate 8 (Known 0))) (8 * (k + 1)) (replicate (Z.to_nat (8 * m)) (Known 0)) q =
  write_cells A (8 * k) (replicate (Z.to_nat (8 * (m + 1))) (Known 0)) q.
Proof.
  intros Hm. unfold write_cells. change (replicate 8 (Known 0)) with (replicate (Z.to_nat 8) (Known 0)). rewrite !nthZ_replicate.
  destruct ((0 <=? q - 8 * (k + 1)) && _) eqn:E1; [by replace (_ && _) with true by lia|].
  destruct ((0 <=? q - 8 * k) && (q - 8 * k <? 8)) eqn:E2; [by replace (_ && _) with true by lia|by replace (_ && _) with false by lia].
Qed.

Section deletions.
Context (fl : list flight) (n : nat) (w : worker) (d : device).

Lemma inv_delete_key H A s key s' ret :
  disk_inv H A (MkDisk s d fl n w) -> timestamp (meta s) + 1 < 2 ^ 32 -> 0 <= key < 2 ^ 64 -> imrsim_lsm_delete_key_locked key s = (s', ret) ->
  timestamp (meta s) <= timestamp (meta s') <= timestamp (meta s) + 1 /\
  (ret = 0 /\ (exists H', disk_inv H' (write_cells A (8 * key) (replicate 8 (Known 0))) (MkDisk s' d fl n w)) \/ ret <> 0 /\ disk_inv H A (MkDisk s' d fl n w)).
Proof.
  intros Hinv Hts Hk E. destruct (delete_wake key s) as [(e & He & Ee)|Ee]; rewrite Ee in E; [injection E as <- <-; split; [lia|by right]|]. clear Ee.
  pose proof (ensure_time _ _ _ _ _ _ _ Hinv) as Et. pose proof (aw_inv _ _ (di_lsm _ _ _ Hinv)) as Hi. apply inv_ensure in Hinv. dk. rewrite <- Et in *. clear Et.
  set (s0 := ensure_initialized s) in *. clearbody s0. clear s. rename s0 into s.
  pose proof (delete_key_spec H key s (di_zones _ _ _ Hinv) Hi Hts Hk) as Hr. rewrite E in Hr. destruct Hr as [(-> & _ & HF & HL)|(HF & HL & He)]; (split; [apply HF|]).
  - left. split; [done|]. eexists. by eapply inv_delete.
  - right. split; [unfold IMR_ERR_OUT_RANGE, ENOMEM in He; lia|by eapply inv_same].
Qed.

Lemma inv_discard_loop count : forall key H A s s' ret,
  disk_inv H A (MkDisk s d fl n w) -> timestamp (meta s) + Z.of_nat count < 2 ^ 32 -> 0 <= key -> key + Z.of_nat count < 2 ^ 64 -> discard_loop count key s = (s', ret) ->
  timestamp (meta s') <= timestamp (meta s) + Z.of_nat count /\
  exists H' m, 0 <= m <= Z.of_nat count /\ (ret = 0 -> m = Z.of_nat count) /\
    disk_inv H' (write_cells A (8 * key) (replicate (Z.to_nat (8 * m)) (Known 0))) (MkDisk s' d fl n w).
Proof.
  induction count as [|count IH]; intros key H A s s' ret Hinv Hts Hk Hk2 E; cbn in E.
  { injection E as <- <-. split; [lia|]. exists H, 0. split_and!; try done; try lia. eapply inv_ext; [|exact Hinv]. intros q. apply (write_none A). }
  destruct (imrsim_lsm_delete_key_locked key s) as [s1 r] eqn:Ed. destruct (inv_delete_key H A s key s1 r Hinv ltac:(lia) ltac:(lia) Ed) as [Ht Hr].
  destruct Hr as [[-> (H1 & Hinv1)]|[Hne Hinv1]].
  - change (negb (0 =? 0)) with false in E. cbv iota in E. rewrite u64_small in E by lia.
    destruct (IH (key + 1) H1 _ s1 s' ret Hinv1) as (Ht' & H2 & m & Hm & Hret & Hinv2); [lia..|done|]. split; [lia|].
    exists H2, (m + 1). split_and!; [lia|lia|lia|]. eapply inv_ext; [|exact Hinv2]. intros q. symmetry. apply write_zeros. lia.
  - replace (negb (r =? 0)) with true in E by lia. injection E as <- <-. split; [lia|]. exists H, 0. split_and!; try done; try lia.
    eapply inv_ext; [|exact Hinv1]. intros q. apply (write_none A).
Qed.

Lemma inv_discard H A s lba sectors s' ret :
  disk_inv H A (MkDisk s d fl n w) -> timestamp (meta s) + 1024 < 2 ^ 32 -> 0 <= lba -> 0 <= sectors -> lba + sectors < 2 ^ 60 ->
  imrsim_lsm_discard_lba_range_locked lba sectors s = (s', ret) ->
  timestamp (meta s') <= timestamp (meta s) + 1024 /\
  exists H' m, 0 <= m <= sectors /\ (ret = 0 -> m = sectors) /\ disk_inv H' (write_cells A lba (replicate (Z.to_nat m) (Known 0))) (MkDisk s' d fl n w).
Proof.
  intros Hinv Hts Hl Hs Hls E. unfold imrsim_lsm_discard_lba_range_locked in E. pose proof (ensure_time _ _ _ _ _ _ _ Hinv) as Et. apply inv_ensure in Hinv.
  rewrite <- Et in *. clear Et. set (s0 := ensure_initialized s) in *. clearbody s0. clear s. rename s0 into s. set (s1 := st_sets _ _) in E. assert (quiet s s1) as Q1 by (etransitivity; [apply quiet_st_inc|apply quiet_st_sets]).
  pose proof (inv_quiet _ _ _ _ _ _ _ Hinv s1 Q1) as Hinv1. pose proof (half_timestamp _ _ (q_lsm _ _ Q1)) as Et1. clearbody s1. cbv zeta in E.
  assert (forall s2 (r : bool) H' A' e, disk_inv H' A' (MkDisk s2 d fl n w) -> timestamp (meta s2) <= timestamp (meta s) + 1024 ->
    (let s3 := st_set "last_discard_error" e s2 in (if r then st_inc "discard_delete_failed_count" s3 else st_inc "discard_delete_count" s3, e)) = (s', ret) ->
    e = ret /\ disk_inv H' A' (MkDisk s' d fl n w) /\ timestamp (meta s') <= timestamp (meta s) + 1024) as Hfin.
  { intros s2 r H' A' e Hi2 Ht2 E2. cbv zeta in E2. assert (quiet s2 s') as Q.
    { destruct r; injection E2 as <- _; (etransitivity; [apply quiet_st_set|apply quiet_st_inc]). }
    split_and!; [by destruct r; injection E2|by eapply inv_quiet|]. by rewrite (half_timestamp _ _ (q_lsm _ _ Q)). }
  assert (forall e, e <> 0 -> (let s3 := st_set "last_discard_error" e s1 in (if negb (e =? 0) then st_inc "discard_delete_failed_count" s3 else st_inc "discard_delete_count" s3, e)) = (s', ret) ->
    timestamp (meta s') <= timestamp (meta s) + 1024 /\
    exists H' m, 0 <= m <= sectors /\ (ret = 0 -> m = sectors) /\ disk_inv H' (write_cells A lba (replicate (Z.to_nat m) (Known 0))) (MkDisk s' d fl n w)) as Hstop.
  { intros e He E2. destruct (Hfin s1 _ H A e Hinv1 ltac:(lia) E2) as (<- & Hi & Ht). split; [done|]. exists H, 0. split_and!; try done; try lia.
    eapply inv_ext; [|exact Hi]. intros q. apply write_none. }
  destruct (negb (imrsim_target_ready_locked s1)); [by apply (Hstop (- ENODEV))|].
  destruct ((sectors =? 0) || _) eqn:Eal; [by apply (Hstop (- EINVAL))|].
  destruct (sectors >? _) eqn:Emax; [by apply (Hstop (- E2BIG))|]. destruct (lba >? _); [by apply (Hstop (- ERANGE))|].
  destruct (_ || _) in E; [by apply (Hstop IMR_ERR_OUT_RANGE)|].
  assert (lba = 8 * (lba / 8) /\ sectors = 8 * (sectors / 8)) as [El Es].
  { apply orb_false_iff in Eal as [_ Eal]. apply negb_false_iff, Z.eqb_eq in Eal. rewrite Z.land_lor_distr_l in Eal. apply Z.lor_eq_0_iff in Eal as [Ea Eb].
    by apply aligned_block in Ea, Eb. }
  unfold IMR_MAX_DISCARD_BLOCKS in Emax. rewrite !shiftr_block in E. destruct (discard_loop _ _ s1) as [s2 r] eqn:Ed.
  assert (0 <= sectors / 8 <= 1024) as Hcount by div8.
  destruct (inv_discard_loop (Z.to_nat (sectors / 8)) (lba / 8) H A s1 s2 r Hinv1) as (Ht & H' & m & Hm & Hr & Hinv2); [lia|div8|div8|done|].
  destruct (Hfin s2 _ H' _ r Hinv2 ltac:(lia) E) as (<- & Hi & Ht'). split; [done|]. exists H', (8 * m). rewrite El. split_and!; [lia|lia|intros; lia|done].
Qed.
End deletions.

(** ** Mapped reads *)

(** A block and the end of its zone. *)
Lemma block_zone N k : 0 <= N <= 65535 -> 0 <= k < N * TOTAL_ITEMS ->
  imrsim_lba_zone_idx (8 * k) = k / 65536 /\ 0 <= k / 65536 < N /\ (u64 (8 * k + 8) >? u64 (zone_idx_lba (k / 65536) + num_sectors_zone)) = false.
Proof.
  intros HN Hk. change TOTAL_ITEMS with 65536 in Hk. assert (0 <= k / 65536 < N) as Hz by (split; [apply Z.div_pos; lia|apply Z.div_lt_upper_bound; lia]).
  assert (8 * k / 8 = k) as Ek by div8. destruct (lba_zone (8 * k)) as (_ & Ez & _); [lia|]. cbv zeta in Ez. rewrite Ek in Ez. split_and!; [exact Ez|lia|lia|].
  rewrite zone_idx_lba_eq by lia. change num_sectors_zone with 524288. rewrite !u64_small by lia. pose proof (Z.div_mod k 65536). pose proof (Z.mod_pos_bound k 65536). lia.
Qed.

Section reads.
Context (H : newest_map) (A : cells) (s : kstate) (d : device) (fl : list flight) (n : nat) (w : worker).
Hypothesis (Hinv : disk_inv H A (MkDisk s d fl n w)).

(** The block a key maps to is a block of a zone. *)
Lemma fwd_block k p : fwd s k = Some p -> exists b, p = 8 * b /\ 0 <= b < total_keys s.
Proof.
  intros Hf. pose proof (zk_layout _ (di_zones _ _ _ Hinv)) as Hok. dk. pose proof (lo_num _ _ Hok).
  destruct (fwd_slot _ _ Hok k p Hf) as (i & j & Hi & _ & Hj & _ & -> & _). rewrite append_pba_eq by (done || lia).
  pose proof (slot_block_range j Hj). exists (i * 65536 + slot_block j). unfold total_keys. change TOTAL_ITEMS with 65536. lia.
Qed.

Lemma read_rule_spec k zone_idx policy s' ret sector :
  0 <= k < total_keys s -> zone_idx = k / 65536 -> imrsim_read_rule_check (8 * k) zone_idx 8 policy s = (s', ret, sector) ->
  disk_inv H A (MkDisk s' d fl n w) /\ timestamp (meta s') = timestamp (meta s) /\
  (ret = IMRSIM_READ_ZERO_FILL /\ fwd s' k = None \/ ret = 0 /\ fwd s' k = Some sector).
Proof.
  intros Hk -> E. pose proof (lo_num _ _ (zk_layout _ (di_zones _ _ _ Hinv))) as HN. dk. unfold imrsim_read_rule_check in E.
  assert (total_keys s < 2 ^ 33) as Htk by (unfold total_keys; change TOTAL_ITEMS with 65536; lia).
  destruct (lba_zone (8 * k)) as (Ek & Ez & Hz & Eo & Ei); [lia|]. cbv zeta in *. assert (8 * k / 8 = k) as E8 by div8. assert (8 * k mod 8 = 0) as Em by div8.
  rewrite E8, Em in *. rewrite Ez in Eo, Ei. rewrite Ek, Eo, Ei in E.
  destruct (imr_lsm_read k s) as [s1 found] eqn:Er. destruct (inv_lookup _ _ _ _ _ _ _ Hinv k s1 found Hk Er) as (Hinv1 & K & Ef1 & Ef). rewrite <- Ef1 in Ef.
  pose proof (keeps_timestamp _ _ K) as Et. pose proof (num_zhalf _ _ (keeps_zhalf _ _ K)) as En. destruct (block_zone (IMR_NUMZONES s) k HN Hk) as (Z1 & Z2 & Z3).
  assert (forall p, fwd s1 k = Some p -> u64 (p + 0) = p /\ 0 <= imrsim_lba_zone_idx p < IMR_NUMZONES s /\
    (u64 (p + 8) >? u64 (zone_idx_lba (imrsim_lba_zone_idx p) + num_sectors_zone)) = false) as Hp.
  { intros p Hf. rewrite Ef1 in Hf. destruct (fwd_block k p Hf) as (b & -> & Hb). destruct (block_zone (IMR_NUMZONES s) b HN Hb) as (X1 & X2 & X3).
    rewrite X1. split_and!; [rewrite u64_small; lia|lia|lia|done]. }
  destruct found as [|p|]; cbv zeta in Ef.
  - destruct (mapped_block (k / 65536) (k mod 65536) s1 =? -1) eqn:Eb; cbn [negb] in E.
    + rewrite Z1, En, Z3 in E. replace (k / 65536 >=? IMR_NUMZONES s) with false in E by lia. injection E as <- <- <-. split_and!; [done|done|by left].
    + destruct (Hp _ Ef) as (P1 & P2 & P3). rewrite P1, P3 in E. pose proof (inv_fallback _ _ _ _ _ _ _ Hinv1) as Hinv2.
      assert (IMR_NUMZONES (imr_lsm_record_fallback s1) = IMR_NUMZONES s /\ fwd (imr_lsm_record_fallback s1) k = fwd s1 k /\
        timestamp (meta (imr_lsm_record_fallback s1)) = timestamp (meta s)) as (F1 & F2 & F3).
      { unfold imr_lsm_record_fallback. destruct (initialized (meta s1)); done. }
      rewrite F1 in E. replace (_ >=? _) with false in E by lia. injection E as <- <- <-. split_and!; [done|done|right]. by rewrite F2.
  - destruct (Hp p Ef) as (P1 & P2 & P3). rewrite P1, P3, En in E. replace (_ >=? _) with false in E by lia. injection E as <- <- <-. split_and!; [done|done|by right].
  - rewrite Z1, En, Z3 in E. replace (k / 65536 >=? IMR_NUMZONES s) with false in E by lia. injection E as <- <- <-. split_and!; [done|done|by left].
Qed.

Lemma inv_queue_partial zf s' v : imrsim_queue_partial_data_io zf s = (s', v) ->
  disk_inv H A (MkDisk s' d fl n w) /\ timestamp (meta s') = timestamp (meta s) /\ (v = Queued zf \/ v = Completed (- ENOMEM)).
Proof.
  unfold imrsim_queue_partial_data_io. destruct (st_alloc s) as [s1 a] eqn:Ea. intros E. pose proof (inv_alloc _ _ _ _ _ _ _ Hinv s1 a Ea) as Hi.
  pose proof (alloc_timestamp _ _ _ Ea) as Et. destruct a; injection E as <- <-; split_and!; try done; [by left|by right].
Qed.
End reads.

(** ** Mapped bios *)

Section bios.
Context (len : Z) (policy_rflag : bool).
Hypothesis (Hlen : 0 <= len <= IMR_MAX_CAPACITY).
Context (H : newest_map) (A : cells) (s : kstate) (d : device) (fl : list flight) (n : nat) (w : worker).
Hypothesis (Hinv : disk_inv H A (MkDisk s d fl n w)) (Hts : timestamp (meta s) < 2 ^ 31) (Hfl : lenZ fl < 2 ^ 31 - 1).

(** What a discard may have done when it stopped. *)
Definition discarded (b : bio) (s' : kstate) (all : bool) : Prop :=
  exists H' m, 0 <= m <= bi_sectors b /\ (all = true -> m = bi_sectors b) /\
    disk_inv H' (write_cells A (bi_sector b) (replicate (Z.to_nat m) (Known 0))) (MkDisk s' d fl n w).

Lemma map_spec b s' v : bio_ok b -> imrsim_map len policy_rflag b s = Some (s', v) ->
  match v with
  | Remapped sector true => exists H', forall data, lenZ data = 8 ->
      disk_inv H' (write_cells A (bi_sector b) (map (Pending n) data))
        (MkDisk s' d (MkFlight n (Z.shiftr (bi_sector b) IMR_BLOCK_SIZE_SHIFT) sector data :: fl) (S n) w)
  | Remapped sector false => disk_inv H A (MkDisk s' d fl n w) /\
      (bi_sectors b = 0 \/ lenZ (dv_blocks d sector) = 8 /\ reads A (bi_sector b) (dv_blocks d sector))
  | Queued zero_fill => disk_inv H A (MkDisk s' d fl n w) /\ (zero_fill = true -> reads A (bi_sector b) zero_block)
  | Completed ret => if bi_discard b then ret = 0 /\ discarded b s' true else disk_inv H A (MkDisk s' d fl n w)
  | IoError => if bi_discard b then discarded b s' false else disk_inv H A (MkDisk s' d fl n w)
  end.
Proof.
  intros [Hb1 Hb2] E. unfold imrsim_map in E. unfold IMR_MAX_CAPACITY in Hlen.
  assert (forall s1, disk_inv H A (MkDisk s1 d fl n w) -> if bi_discard b then discarded b s1 false else disk_inv H A (MkDisk s1 d fl n w)) as Herr.
  { intros s1 Hi. destruct (bi_discard b); [|done]. exists H, 0. split_and!; [lia|lia|done|]. eapply inv_ext; [|exact Hi]. intros q. apply write_none. }
  destruct (negb (imrsim_target_ready_locked s)); [injection E as <- <-; by apply Herr|]. destruct (_ && imr_lsm_zone_copy_overlaps_locked _ _ _); [done|].
  destruct ((bi_sectors b =? 0) && negb (bi_discard b)) eqn:Eflush; [injection E as <- <-; split; [done|left; lia]|].
  cbv zeta in E. set (s1 := set_ptask _ s) in E. assert (quiet s s1) as Q1 by (by split). pose proof (inv_quiet _ _ _ _ _ _ _ Hinv s1 Q1) as Hinv1.
  assert (timestamp (meta s1) = timestamp (meta s)) as Et1 by done. clearbody s1.
  destruct (IMR_NUMZONES s1 <=? _) eqn:Enz; [injection E as <- <-; by apply Herr|].
  destruct (_ || _) eqn:Elen in E; [injection E as <- <-; by apply Herr|]. assert (bi_sector b + bi_sectors b <= len) as Hrange by lia.
  destruct (bi_discard b) eqn:Edis.
  { destruct (imrsim_lsm_discard_lba_range_locked _ _ s1) as [s2 ret] eqn:Ed. destruct (inv_discard fl n w d H A s1 (bi_sector b) (bi_sectors b) s2 ret Hinv1 ltac:(lia) ltac:(lia) ltac:(lia) ltac:(lia) Ed) as (_ & H' & m & Hm & Hr & Hi).
    destruct (ret =? 0) eqn:Er; cbn [negb] in E; injection E as <- <-; [split; [done|]|]; exists H', m; (split; [lia|]); (split; [|done]); [intros _; apply Hr; lia|done]. }
  destruct (_ || _) eqn:Eal in E.
  { set (s2 := if bi_write b then _ else s1) in E. assert (quiet s1 s2) as Q2 by (unfold s2; destruct (bi_write b); [apply quiet_write_stats|done]).
    pose proof (inv_quiet _ _ _ _ _ _ _ Hinv1 s2 Q2) as Hinv2. clearbody s2. destruct (imrsim_queue_partial_data_io false s2) as [s3 v3] eqn:Eq. injection E as <- <-.
    destruct (inv_queue_partial _ _ _ _ _ _ _ Hinv2 false s3 v3 Eq) as (Hi & _ & [-> | ->]); [by split|done]. }
  assert (bi_sectors b = 8 /\ Z.land (bi_sector b) 7 = 0) as [E8 Ea] by lia. apply aligned_block in Ea as Eblk. set (k := bi_sector b / 8) in *.
  destruct (bi_write b).
  - destruct (write_rule_wake (bi_sector b) (bi_sectors b) s1) as [Ew|Ew]; rewrite Ew in E; [by injection E as <- <-|]. clear Ew.
    pose proof (ensure_time _ _ _ _ _ _ _ Hinv1) as Ete. pose proof (aw_inv _ _ (di_lsm _ _ _ Hinv1)) as Hi1. apply inv_ensure in Hinv1. dk. rewrite Et1 in Ete.
    set (s0 := ensure_initialized s1) in *. clearbody s0. clear Q1 Enz Et1 s1. rename s0 into s1, Ete into Et1.
    pose proof (write_rule_spec H (bi_sector b) (bi_sectors b) s1 (di_zones _ _ _ Hinv1) Hi1 ltac:(lia) ltac:(lia)) as Hw.
    destruct (imrsim_active_write_rule_check _ _ s1) as [s2 r]. destruct Hw as [(-> & -> & _)|(_ & _ & i & Hr)].
    { by injection E as <- <-. }
    rewrite shiftr_block in Hr. fold k in Hr. destruct r as [pba|e]; [|injection E as <- <-; destruct Hr as (HF & HL & _); by eapply inv_same].
    destruct Hr as (_ & Hi & Hns & Hnd & Hs & Epba & HF & HL). set (s3 := set_append_writes_inflight _ s2) in E.
    set (zi := u32 _) in E. pose proof (quiet_queue zi s3) as Q. set (s4 := imrsim_ptask_queue_zone_status_locked zi s3) in *. injection E as <- <-.
    eexists. intros data Hdata. eapply inv_quiet; [|exact Q]. rewrite shiftr_block. fold k.
    assert (imrsim_map_sector pba s4 = loc (output_bdev_start s1) pba) as ->.
    { unfold imrsim_map_sector, loc. rewrite (env_start _ _ (env_zhalf _ _ (q_zone _ _ Q))). change (output_bdev_start s3) with (output_bdev_start s2).
      by rewrite (env_start _ _ (fg_env _ _ _ HF)). }
    rewrite Eblk, Epba in *. by apply (inv_submit _ _ _ _ _ _ _ Hinv1 s2 i k data).
  - destruct (imrsim_read_rule_check _ _ _ _ s1) as [[s2 ret] sector] eqn:Er. rewrite E8, Eblk in Er.
    destruct (lba_zone (bi_sector b) ltac:(lia)) as (_ & Ez & _). cbv zeta in Ez. fold k in Ez. rewrite <- Eblk, Ez in Er. rewrite Ez in Enz. rewrite Eblk in Er.
    assert (0 <= k < total_keys s1) as Hk.
    { unfold total_keys. change TOTAL_ITEMS with 65536. assert (k = bi_sector b / 8) by done. div8. }
    destruct (read_rule_spec _ _ _ _ _ _ _ Hinv1 k _ policy_rflag s2 ret sector Hk eq_refl Er) as (Hinv2 & _ & [[-> Hf]|[-> Hf]]).
    + change (IMRSIM_READ_ZERO_FILL =? IMRSIM_READ_ZERO_FILL) with true in E. cbv iota in E. destruct (imrsim_queue_partial_data_io true s2) as [s3 v3] eqn:Eq. injection E as <- <-.
      destruct (inv_queue_partial _ _ _ _ _ _ _ Hinv2 true s3 v3 Eq) as (Hi & _ & [-> | ->]); [|done]. split; [done|]. intros _. rewrite Eblk. by apply (reads_zeros _ _ _ _ _ _ _ Hinv2).
    + change (0 =? IMRSIM_READ_ZERO_FILL) with false in E. cbv iota in E. change (negb (0 =? 0)) with false in E. cbn [andb] in E. injection E as <- <-.
      split; [done|right]. destruct (reads_block _ _ _ _ _ _ _ Hinv2 k sector Hf). by rewrite Eblk.
Qed.
End bios.

(** ** Background work *)

Lemma quiet_running v s : quiet s (upd_meta (set_zone_compaction_auto_running v) s).
Proof. by split. Qed.
Lemma quiet_auto_begin s : quiet s (auto_work_begin s).1.
Proof.
  unfold auto_work_begin. destruct (_ || _); [done|]. destruct (_ || _); [done|]. cbv zeta. set (z := zone_compaction_auto_pending_zone (meta s)).
  pose proof (quiet_clear_pending z s) as Q. destruct (_ && _); [|exact Q]. etransitivity; [exact Q|]. cbn [fst]. etransitivity; [apply quiet_running|apply quiet_st_set].
Qed.
Lemma quiet_auto_finish zone_idx ret s : quiet s (auto_work_finish zone_idx ret s).1.
Proof.
  unfold auto_work_finish. cbv zeta. set (s1 := upd_meta _ s). assert (quiet s s1) as Q1 by apply quiet_running. clearbody s1.
  set (s2 := if ret =? - EBUSY then _ else _).
  assert (quiet s1 s2) as Q2 by (unfold s2; destruct (ret =? - EBUSY); [apply quiet_st_inc|]; destruct (negb (ret =? 0)); (etransitivity; [apply quiet_st_set|apply quiet_st_inc])).
  clearbody s2. destruct (_ && _); [|cbn; by etransitivity]. etransitivity; [exact Q1|]. etransitivity; [exact Q2|apply quiet_defer].
Qed.

Section background.
Context (H : newest_map) (A : cells) (s : kstate) (d : device) (fl : list flight) (n : nat) (w : worker).
Hypothesis (Hinv : disk_inv H A (MkDisk s d fl n w)).

Lemma inv_background s' ph : zhalf s' = zhalf s -> lsm_inv H s' -> timestamp (meta s') = timestamp (meta s) -> phase_ok s' ph ->
  disk_inv H A (MkDisk s' d fl n (in_phase ph w)).
Proof.
  intros Ez Hi Et Hph. pose proof (env_zhalf _ _ Ez) as He. pose proof (layout_of_zhalf _ _ Ez) as El. pose proof (env_start _ _ He) as Es.
  pose proof Hinv as [I1 I2 I3 I4 I5 I6 I7 I8 I9 I10 I11]. dk. split; dk; try done.
  - by apply (zones_ok_zhalf s).
  - by apply awake_lsm.
  - intros k r. assert (fwd s' k = fwd s k) as -> by exact (f_equal (fun L => ly_fwd L k) El). apply I3.
  - rewrite (es_num _ _ He), Es, El. by destruct w.
  - by rewrite (es_inflight _ _ He).
  - destruct w as [ph0|p|p todo|p ret]; [split; [exact Hph|by eapply env_unreserved; [|apply I7]]|..]; cbn [in_phase];
      (assert (forall q, holds_plan H q s -> planned H q s') as Hq
        by (intros q (Hq & _); eapply planned_same; [exact Hq|done|lia|rewrite El; apply layout_eq_refl]));
      destruct (env_copy _ _ He) as [E1 E2]; cbn in I7 |- *.
    + pose proof I7 as (X1 & X2 & X3). split_and!; [by apply Hq|congruence..].
    + destruct I7 as (X & l & El' & Hl). pose proof X as (X1 & X2 & X3). split; [split_and!; [by apply Hq|congruence..]|]. exists l. split; [done|by apply (mirrored_start s)].
    + destruct I7 as (X & Hl). pose proof X as (X1 & X2 & X3). split; [split_and!; [by apply Hq|congruence..]|]. intros Hr. by apply (mirrored_start s), Hl.
  - by rewrite (threshold_cfg s s' (es_cfg _ _ He)).
  - by rewrite Es.
  - intros Ec. exfalso. by eapply hot_lsm.
  - by rewrite (es_num _ _ He), Es.
Qed.

Lemma inv_event_hot e o s' ph : lsm_inv H s -> background w e = true -> step (s, phase_of w) e o (s', ph) -> disk_inv H A (MkDisk s' d fl n (in_phase ph w)).
Proof.
  intros Hi Hb Hst. assert (sys_inv H (fun k => answer (H k)) (s, phase_of w)) as Hsys.
  { split; cbn; [done|done| |apply Hinv]. pose proof (di_worker _ _ _ Hinv) as Hw. dk. destruct w; [apply Hw|done..]. }
  assert (match e with Write _ _ _ | Delete _ => False | _ => True end) as He by (by destruct e).
  destruct (sys_background _ _ _ _ _ _ He Hsys Hst) as (_ & [J1 _ J3 _] & Hk). cbn in *.
  destruct Hk as [Hk|[lv Hk]].
  - apply inv_background; [by apply keeps_zhalf|done|by apply keeps_timestamp|done].
  - destruct (shell_fields _ _ _ Hk) as [Ht _]. apply inv_background; [|done|done|done]. apply shell_zhalf in Hk. exact Hk.
Qed.
End background.

Lemma inv_event H A s d fl n w e o s' ph :
  disk_inv H A (MkDisk s d fl n w) -> background w e = true -> step (s, phase_of w) e o (s', ph) -> disk_inv H A (MkDisk s' d fl n (in_phase ph w)).
Proof.
  intros Hinv Hb Hst. destruct (ensure_cases s) as [[Ec _]|[Ec _]].
  - eapply (inv_event_hot _ _ _ _ _ _ _ Hinv); [|done|done]. by apply awake_hot, Hinv.
  - pose proof (di_hot _ _ _ Hinv Ec) as Ew. dk. subst w. assert (match e with Write _ _ _ | Delete _ => False | _ => True end) as He by (by destruct e).
    destruct (step_cold s e o s' ph Ec He Hst) as [[-> Q]|Hst']; [by apply (inv_quiet _ _ _ _ _ _ _ Hinv)|].
    eapply (inv_event_hot H A (ensure_initialized s) d fl n (Compacting Idle)); [by apply inv_ensure|apply Hinv|done|done].
Qed.

(** ** Every step *)

Section steps.
Context (len : Z) (policy_rflag : bool).
Hypothesis (Hlen : 0 <= len <= IMR_MAX_CAPACITY).

Lemma disk_map_ok H A x b data y l : disk_inv H A x -> within x -> bio_ok b -> lenZ data = 8 -> disk_map len policy_rflag b data x = Some (y, l) ->
  exists H' A', permitted A l A' /\ disk_inv H' A' y.
Proof.
  destruct x as [s d fl n w]. intros Hinv [Hts Hfl] Hb Hdata E. unfold disk_map in E. dk. destruct (imrsim_map _ _ b s) as [[s' v]|] eqn:Em; [|done].
  pose proof (map_spec len policy_rflag Hlen H A s d fl n w Hinv Hts Hfl b s' v Hb Em) as Hm. destruct v as [sector [|]|zf|ret|]; injection E as <- <-.
  - destruct Hm as [H' Hm]. eexists H', _. split; [constructor|by apply Hm].
  - destruct Hm as [Hi Hr]. exists H, A. split; [|done]. destruct (bi_sectors b =? 0) eqn:E0; [constructor|]. destruct Hr as [?|[? ?]]; [lia|by constructor].
  - destruct Hm as [Hi Hr]. exists H, A. split; [|done]. destruct zf; [constructor; [done|by apply Hr]|constructor].
  - destruct (bi_discard b); [|exists H, A; split; [constructor|done]]. destruct Hm as [-> (H' & m & _ & Hall & Hi)]. rewrite Hall in Hi by done. eexists H', _. split; [constructor|done].
  - destruct (bi_discard b); [|exists H, A; split; [constructor|done]]. destruct Hm as (H' & m & Hm & _ & Hi). eexists H', _. split; [by constructor|done].
Qed.

Lemma disk_work_ok H A x write zero_fill lba sectors segs y l : disk_inv H A x -> within x ->
  (zero_fill = true -> write = false) -> 0 <= lba -> lba + sectors <= len -> 0 <= sectors <= 2 ^ 23 -> lenZ (concat segs) = sectors ->
  disk_work write zero_fill lba sectors segs x = Some (y, l) -> exists H' A', permitted A l A' /\ disk_inv H' A' y.
Proof.
  destruct x as [s d fl n w]. intros Hinv [Hts Hfl] Hz Hl Hls Hs Hseg E. unfold IMR_MAX_CAPACITY in Hlen. unfold disk_work, imrsim_partial_data_io_work in E. dk.
  destruct (negb (imrsim_target_ready_locked s)).
  { injection E as <- <-. exists H, A. split; [|done]. destruct zero_fill; [constructor|]. destruct write; [|constructor]. constructor; [done|]. intros q. by left. }
  destruct (imr_lsm_zone_copy_overlaps_locked _ _ _); [done|]. unfold imrsim_partial_data_io_locked in E.
  destruct (partial_loop _ write zero_fill lba sectors 0 segs s d) as [[[s' d'] segs'] ret] eqn:Ep. injection E as <- <-. destruct write.
  - destruct zero_fill; [by specialize (Hz eq_refl)|].
    destruct (partial_write fl n w lba sectors Hl ltac:(lia) Hfl segs Hseg (Z.to_nat sectors) 0 H A s d s' d' segs' ret Hinv ltac:(lia) ltac:(lia) ltac:(lia) Ep) as (_ & H' & A' & Hi & Hr).
    rewrite Z.add_0_r, drop_0 in Hr. destruct Hr as [[-> Hr]|[Hne Hr]].
    + exists H', (rewrite_cells A lba (concat segs)). split; [constructor|]. eapply inv_ext; [|exact Hi]. intros q. by rewrite Hr.
    + exists H', A'. split; [by constructor|done].
  - destruct (partial_read fl n w lba sectors Hl ltac:(lia) zero_fill (Z.to_nat sectors) 0 segs H A s d s' d' segs' ret Hseg Hinv ltac:(lia) ltac:(lia) Ep) as (Hi & _ & Hr).
    exists H, A. split; [|done]. destruct zero_fill; [constructor|]. destruct (ret =? 0) eqn:Er; [|constructor]. constructor.
    intros i v x HA Hx. destruct (Hr eq_refl ltac:(lia)) as [_ Hr2]. apply (Hr2 i v x); [|done|done]. apply nthZ_Some in Hx. lia.
Qed.

Lemma disk_step_ok H A x l y : disk_inv H A x -> within x -> disk_step len policy_rflag x l y -> (forall c, l = Collected c -> c = true) ->
  exists H' A', permitted A l A' /\ disk_inv H' A' y.
Proof.
  intros Hinv Hw Hst Hc. destruct Hst as [b data x y l Hb Hd E|f torn x y l Hf Ht E|write zf lba sectors segs x y l Hz Hl Hls Hs Hseg E|key x y l Hk E|
    s d fl n w e o s' ph Hbg Hst|s d fl n src s' r E|s d fl n p s' a E|s d fl n p e todo d' p' ret E|s d fl n p|s d fl n p ret s' r E|s d fl n s' r E|s d fl n z ret s' r E].
  - by eapply disk_map_ok.
  - destruct x as [s d fl n w]. destruct (inv_land _ _ _ _ _ _ _ Hinv f torn y l ltac:(unfold within in Hw; dk; lia) Hf Ht E) as [-> Hi]. eexists H, _. split; [constructor|done].
  - by eapply disk_work_ok.
  - destruct x as [s d fl n w]. unfold disk_delete, imrsim_lsm_delete_key in E. dk. destruct Hw as [Hts _]. dk.
    destruct (negb (imrsim_target_ready_locked s)); [injection E as <- <-; exists H, A; split; [by constructor|done]|].
    destruct (imr_lsm_zone_copy_overlaps_locked _ _ _); [done|]. destruct (imrsim_lsm_delete_key_locked key s) as [s' ret] eqn:Ed. injection E as <- <-.
    destruct (inv_delete_key fl n w d H A s key s' ret Hinv ltac:(lia) Hk Ed) as (_ & [[-> [H' Hi]]|[Hne Hi]]).
    + eexists H', _. split; [constructor|done].
    + exists H, A. split; [by constructor|done].
  - exists H, A. split; [constructor|by eapply inv_event].
  - destruct Hw as [Hts _]. dk. exists H, A. split; [constructor|]. eapply inv_begin; [done| |done]. change TOTAL_ITEMS with 65536. lia.
  - exists H, A. split; [constructor|by eapply inv_page].
  - exists H, A. split; [constructor|by eapply inv_copy].
  - exists H, A. split; [constructor|]. apply (inv_worker _ _ _ _ _ _ _ Hinv); [done| |done]. pose proof (di_worker _ _ _ Hinv) as (Hh & l & El & Hl). dk. split; [done|].
    intros _. by rewrite El, app_nil_r.
  - destruct (inv_finish _ _ _ _ _ _ _ _ _ _ Hinv E) as (_ & _ & Hi). destruct (r =? 0) eqn:Er.
    + pose proof (Hc _ eq_refl) as Ec. rewrite Ec. destruct Hi as [H' Hi]; [by right|]. exists H', A. split; [constructor|done].
    + destruct Hi as [H' Hi]; [left; lia|]. exists H', A. split; [constructor|done].
  - exists H, A. split; [constructor|]. eapply inv_quiet; [exact Hinv|]. pose proof (quiet_auto_begin s) as Q. by rewrite E in Q.
  - exists H, A. split; [constructor|]. eapply inv_quiet; [exact Hinv|]. pose proof (quiet_auto_finish z ret s) as Q. by rewrite E in Q.
Qed.
End steps.
End disk.
