(* ===== verification/ImrDiskTheorems.v ===== *)
(** The theorems about the disk: a target that starts fresh behaves as a disk
    under every interleaving of bios, completions, compactions and calm
    collections; the layout of its zones stays consistent; and a collection
    moves data without changing it. *)

From S2P Require Import Prelude StdMap ImrPrelude ImrGeometry ImrBloom ImrState ImrReadTree ImrLevels ImrSegment ImrPlacement ImrAccounting ImrCore ImrLsm ImrLsmInv ImrLsmOps ImrCompaction ImrBuild ImrPlan ImrPublish ImrPhases ImrSystem ImrTheorems ImrZones ImrGc ImrTarget ImrImage ImrImageSpec ImrIo ImrLayout ImrZoneFrame ImrZoneInv ImrZoneOps ImrGcPlan ImrGcSpec ImrGcPublish ImrCold ImrDisk ImrDiskData ImrDiskInv ImrDiskIo ImrDiskPartial ImrDiskSteps.

(** ** A fresh target *)

Lemma initialize_zhalf s :
  zhalf (imr_lsm_initialize_metadata_locked s) = zhalf s /\ timestamp (meta (imr_lsm_initialize_metadata_locked s)) = 0.
Proof. rewrite initialize_eq. split; [done|apply init_meta_fields]. Qed.

Lemma init_spec len s0 s : 0 <= len <= IMR_MAX_CAPACITY -> imrsim_init_zone_state len s0 = (s, 0) ->
  IMR_NUMZONES s = len / 524288 /\ IMR_NUMZONES s <= 7759 /\ zones s = Some (map default_zone (zone_ids s)) /\
  active_zone (alloc s) = IMR_LSM_ZONE_COMPACTION_NONE /\ append_writes_inflight s = 0 /\ lsm_inv (fun _ => None) s /\
  output_bdev_start s = output_bdev_start s0 /\ cfg s = cfg s0 /\ timestamp (meta s) = 0 /\ zh_copy (zhalf s) = zh_copy (zhalf s0).
Proof.
  intros Hlen E. unfold IMR_MAX_CAPACITY in Hlen. unfold imrsim_init_zone_state in E. destruct (len =? 0); [done|]. cbv zeta in E.
  set (s1 := imrsim_init_zone_default len s0) in E.
  assert (IMR_NUMZONES s1 = len / 524288) as En.
  { cbn. unfold IMR_BLOCK_SIZE_SHIFT, IMR_ZONE_SIZE_SHIFT. rewrite Z.shiftr_shiftr, Z.shiftr_div_pow2 by lia. change (2 ^ (3 + 16)) with 524288. apply u32_small. div8. }
  assert (0 <= IMR_NUMZONES s1 < 2 ^ 32) as Hn by (rewrite En; div8). rewrite (state_size _ Hn) in E. destruct (IMR_NUMZONES s1 <=? 7759) eqn:E7; [|done].
  set (s2 := set_zone_state (IMR_NUMZONES s1) None s1) in E. destruct (st_alloc s2) as [s3 a] eqn:Ea. destruct a; [|done].
  assert (exists h, s3 = set_hp h s2) as [h Es3] by (destruct (st_alloc_cases s2) as (h & [[E' _]|[E' _]]); rewrite E' in Ea; injection Ea as <- _; by exists h).
  injection E as <-. destruct (initialize_zhalf (imrsim_init_zone_state_default s3)) as [Ez Et]. set (s4 := imr_lsm_initialize_metadata_locked _) in *.
  assert (IMR_NUMZONES s4 = IMR_NUMZONES s1) as En4 by (rewrite (num_zhalf _ _ Ez); by subst s3).
  assert (zones s4 = Some (map default_zone (zone_ids s4))) as Ezs.
  { assert (zones s4 = zones (imrsim_init_zone_state_default s3)) as -> by exact (f_equal zh_zones Ez). unfold zone_ids. rewrite En4. by subst s3. }
  split_and!; [congruence|lia|done|..].
  - rewrite (active_zhalf _ _ Ez). by subst s3.
  - etransitivity; [exact (f_equal zh_inflight Ez)|]. by subst s3.
  - apply initialize_spec.
  - rewrite (env_start _ _ (env_zhalf _ _ Ez)). by subst s3.
  - etransitivity; [exact (f_equal zh_cfg Ez)|]. by subst s3.
  - done.
  - etransitivity; [exact (f_equal zh_copy Ez)|]. by subst s3.
Qed.

(** A target whose zones are as initialised is an empty disk, whose sectors show
    zero. *)
Section unmapped.
Context {here : site} (s : kstate).
Hypothesis (Hids : zones s = Some (map default_zone (zone_ids s))) (Hnum : 0 <= IMR_NUMZONES s <= 7759).

Lemma unmapped_zone i z : zone i s = Some z -> z = default_zone i.
Proof.
  unfold zone. rewrite Hids, nthZ_map. unfold zone_ids. rewrite nthZ_map. unfold nthZ. destruct (0 <=? i) eqn:E0; [|done].
  rewrite fmap_Some. intros (x & Hx & ->). rewrite fmap_Some in Hx. destruct Hx as (y & Hy & ->). apply lookup_seq in Hy as [-> _]. f_equal. lia.
Qed.
Lemma unmapped_fwd k : fwd s k = None.
Proof.
  unfold fwd. destruct (_ && _); [|done]. unfold imr_lsm_forward_map_lookup_locked. destruct (_ >=? _); [done|].
  destruct (zone _ s) as [z|] eqn:Ez; [|done]. by rewrite (unmapped_zone _ _ Ez).
Qed.
Lemma unmapped_size i : ly_size (layout_of s) i = 0 /\ ly_live (layout_of s) i = 0.
Proof. cbn. destruct (zone i s) as [z|] eqn:Ez; [by rewrite (unmapped_zone _ _ Ez)|done]. Qed.
Lemma unmapped_zones : active_zone (alloc s) = IMR_LSM_ZONE_COMPACTION_NONE -> zones_ok s.
Proof.
  intros Ea. assert (lenZ (zone_ids s) = IMR_NUMZONES s) as Hl by (unfold lenZ, zone_ids; rewrite length_map, length_seq; lia). split.
  - exists (map default_zone (zone_ids s)). split_and!; [done|by rewrite lenZ_map|]. intros i z Hn. by rewrite (unmapped_zone i z) by (unfold zone; by rewrite Hids).
  - split; [lia|..].
    + intros i _. destruct (unmapped_size i) as [-> _]. change TOTAL_ITEMS with 65536. lia.
    + intros k p. cbn. by rewrite unmapped_fwd.
    + intros i _. by destruct (unmapped_size i) as [-> ->].
  - intros i z j Ez. rewrite (unmapped_zone _ _ Ez). cbn. lia.
  - by rewrite Ea.
  - rewrite Ea. unfold IMR_LSM_ZONE_COMPACTION_NONE, U32_MAX. lia.
Qed.

Lemma unmapped_inv A d n : (forall q, A q = Known 0 \/ A q = Unknown) -> active_zone (alloc s) = IMR_LSM_ZONE_COMPACTION_NONE -> append_writes_inflight s = 0 ->
  awake (fun _ => None) s -> module_ready s -> dev_ok d -> IMR_NUMZONES s = site_zones /\ output_bdev_start s = site_start ->
  disk_inv (fun _ => None) A (MkDisk s d [] n (Compacting Idle)).
Proof.
  intros HA Ea Ei Hl [Hth Hst Hu] Hd Hsite. split; dk; try done; [by apply unmapped_zones|].
  split; try done.
  - intros q v E. unfold shows. cbn. rewrite unmapped_fwd. destruct (HA q); congruence.
  - intros q id v E. destruct (HA q); congruence.
  - intros f ?%elem_of_nil. done.
  - intros f q p ?%elem_of_nil. done.
  - constructor.
Qed.
End unmapped.

Lemma fresh_inv len s0 s d : 0 <= len <= IMR_MAX_CAPACITY -> imrsim_init_zone_state len s0 = (s, 0) ->
  module_ready s0 -> dev_ok d ->
  @disk_inv (MkSite (len / 524288) (output_bdev_start s0)) (fun _ => None) (fun _ => Known 0) (MkDisk s d [] 0 (Compacting Idle)).
Proof.
  intros Hlen E [Hth Hst Hu] Hd. destruct (init_spec len s0 s Hlen E) as (En & H7 & Ezs & Ea & Ei & Hi & Es & Ec & _ & Eu). unfold IMR_MAX_CAPACITY in Hlen.
  apply unmapped_inv; try done; [split; [rewrite En; div8|lia]|by left|by apply awake_lsm|]. split; [by rewrite (threshold_cfg s0 s Ec)|by rewrite Es|].
  cbn in Eu. injection Eu as _ Eu1 Eu2. unfold unreserved. by rewrite Eu1, Eu2.
Qed.

(** ** Runs *)

Lemma disk_steps_ok {here : site} len policy_rflag x tr y : 0 <= len <= IMR_MAX_CAPACITY -> disk_steps len policy_rflag x tr y -> forall H A,
  disk_inv H A x -> (forall c, Collected c ∈ tr -> c = true) -> exists H' A', permitted_trace A tr A' /\ disk_inv H' A' y.
Proof.
  intros Hlen. induction 1 as [x|x l y tr z Hw Hst _ IH]; intros H A Hinv Hc; [exists H, A; split; [constructor|done]|].
  destruct (disk_step_ok len policy_rflag Hlen H A x l y Hinv Hw Hst) as (H1 & A1 & Hp & Hinv1); [intros c ->; apply Hc; by left|].
  destruct (IH H1 A1 Hinv1) as (H2 & A2 & Hp2 & Hinv2); [intros c Hin; apply Hc; by right|]. exists H2, A2. split; [by econstructor|done].
Qed.

(** The steps as a function, to run examples. *)
Inductive action :=
| ActMap (b : bio) (data : block)
| ActLand (id : nat)
| ActWork (write : bool) (lba sectors : Z) (segs : list (list Z))
| ActDelete (key : Z)
| ActEvent (e : event)
| ActBegin (src : Z)
| ActPage
| ActCopy
| ActFinish.

Definition disk_exec (len : Z) (policy_rflag : bool) (a : action) (x : disk) : option (disk * label) :=
  let '(MkDisk s d fl n w) := x in
  match a with
  | ActMap b data =>
      if (0 <=? bi_sector b) && (bi_sector b <? 2 ^ 64) && (0 <=? bi_sectors b) && (bi_sectors b <=? 2 ^ 23) && (lenZ data =? 8)
      then disk_map len policy_rflag b data x else None
  | ActLand id => match List.find (fun f => Nat.eqb (fl_id f) id) fl with Some f => Some (disk_land f None x) | None => None end
  | ActWork write lba sectors segs =>
      if (0 <=? lba) && (lba + sectors <=? len) && (0 <=? sectors) && (sectors <=? 2 ^ 23) && (lenZ (concat segs) =? sectors)
      then disk_work write false lba sectors segs x else None
  | ActDelete key => if (0 <=? key) && (key <? 2 ^ 64) then disk_delete key x else None
  | ActEvent e =>
      if background w e then match exec e (s, phase_of w) with Some (_, (s', ph)) => Some (MkDisk s' d fl n (in_phase ph w), Silent) | None => None end else None
  | ActBegin src =>
      match w with
      | Compacting Idle => let '(s', r) := compact_zone_begin src s in Some (MkDisk s' d fl n match r with Ok p => Reserved p | Fail _ => w end, Silent)
      | _ => None
      end
  | ActPage =>
      match w with
      | Reserved p => let '(s', a) := st_alloc s in
          Some (MkDisk s' d fl n match a with Some _ => Copying p (sb_table (zp_builder p)) | None => Copied p (- ENOMEM) end, Silent)
      | _ => None
      end
  | ActCopy =>
      match w with
      | Copying p (e :: todo) => let '(d', p', ret) := copy_entry (target_active s) e p d in
          Some (MkDisk s d' fl n (if ret =? 0 then Copying p' todo else Copied p' ret), Silent)
      | Copying p [] => Some (MkDisk s d fl n (Copied p 0), Silent)
      | _ => None
      end
  | ActFinish =>
      match w with
      | Copied p ret => let '(s', r) := compact_zone_finish p ret s in
          Some (MkDisk s' d fl n (Compacting Idle), if r =? 0 then Collected (calm (sb_table (zp_builder p)) s) else Silent)
      | _ => None
      end
  end.

Lemma disk_exec_step len policy_rflag a x y l : disk_exec len policy_rflag a x = Some (y, l) -> disk_step len policy_rflag x l y.
Proof.
  destruct x as [s d fl n w]. unfold disk_exec. destruct a.
  - destruct (_ && _) eqn:E; [|done]. intros Em. apply (disk_step_map _ _ b data); [|lia|done]. split; lia.
  - destruct (List.find _ fl) as [f|] eqn:Ef; [|done]. intros El. apply (inj Some) in El. apply find_some in Ef as [Hf _]. apply list_elem_of_In in Hf.
    apply (disk_step_land _ _ f None); [done|done|done].
  - destruct (_ && _) eqn:E; [|done]. intros Ew. apply (disk_step_work _ _ write false lba sectors segs); [done|lia|lia|lia|lia|done].
  - destruct (_ && _) eqn:E; [|done]. intros Ed. apply (disk_step_delete _ _ key); [lia|done].
  - destruct (background w e) eqn:Eb; [|done]. destruct (exec e (s, phase_of w)) as [[o [s' ph]]|] eqn:Ee; [|done]. intros [= <- <-].
    apply exec_step in Ee. by econstructor.
  - destruct w as [[| |]| | |]; try done. destruct (compact_zone_begin src s) as [s' r] eqn:E. intros [= <- <-]. by econstructor.
  - destruct w; try done. destruct (st_alloc s) as [s' a] eqn:E. intros [= <- <-]. by econstructor.
  - destruct w as [|p|p [|e todo]|p ret]; try done; [intros [= <- <-]; constructor|]. destruct (copy_entry _ _ _ _) as [[d' p'] ret] eqn:E. intros [= <- <-]. by econstructor.
  - destruct w as [|p|p todo|p ret]; try done. destruct (compact_zone_finish p ret s) as [s' r] eqn:E. intros [= <- <-]. by econstructor.
Qed.

Definition within_b (x : disk) : bool := (timestamp (meta (dk_state x)) <? 2 ^ 31) && (lenZ (dk_flights x) <? 2 ^ 31 - 1).

(** The labels of a run and its end; a run stops at an action that is not enabled. *)
Fixpoint disk_run (len : Z) (policy_rflag : bool) (acts : list action) (x : disk) : list label * disk :=
  match acts with
  | [] => ([], x)
  | a :: acts =>
      if within_b x then
        match disk_exec len policy_rflag a x with
        | Some (y, l) => let '(tr, z) := disk_run len policy_rflag acts y in (l :: tr, z)
        | None => ([], x)
        end
      else ([], x)
  end.

Lemma disk_run_steps len policy_rflag acts : forall x, disk_steps len policy_rflag x (disk_run len policy_rflag acts x).1 (disk_run len policy_rflag acts x).2.
Proof.
  induction acts as [|a acts IH]; intros x; cbn; [constructor|]. destruct (within_b x) eqn:Ew; [|constructor].
  destruct (disk_exec len policy_rflag a x) as [[y l]|] eqn:E; [|constructor].
  specialize (IH y). destruct (disk_run len policy_rflag acts y) as [tr z]. econstructor; [|by eapply disk_exec_step|done].
  unfold within_b in Ew. split; lia.
Qed.

(** ** Examples *)

Definition filled (v : Z) : block := replicate 8 v.
Definition blank : device := MkDevice (fun _ => zero_block) [].
Lemma blank_ok : dev_ok blank.
Proof. by split. Qed.

Lemma ready_module : module_ready ready_state.
Proof. split; vm_compute; by split. Qed.

(** Five zones. *)
Definition small : Z := 2621440.
Definition fresh_state : kstate := (imrsim_init_zone_state small ready_state).1.

(** Two overlapping writes complete in the other order; a partial write and read
    cross a block; a delete, a level compaction with a write between its phases,
    and a discard follow. *)
Definition demo_actions : list action :=
  [ActMap (MkBio 0 8 true false) (filled 1); ActMap (MkBio 8 8 true false) (filled 2); ActLand 1; ActLand 0; ActMap (MkBio 8 8 false false) [0;0;0;0;0;0;0;0];
   ActWork true 4 8 [[5; 6; 7]; [8; 9; 10; 11; 12]]; ActWork false 2 12 [replicate 12 0]; ActDelete 0; ActMap (MkBio 0 8 false false) (filled 0);
   ActEvent (Prepare false 0); ActMap (MkBio 0 8 true false) (filled 3); ActEvent Build; ActEvent Publish; ActLand 2;
   ActMap (MkBio 0 8 false false) (filled 0); ActMap (MkBio 0 16 true true) (filled 0); ActMap (MkBio 8 8 false false) (filled 0)].

Definition demo_run : list label * disk := disk_run small false demo_actions (MkDisk fresh_state blank [] 0 (Compacting Idle)).

(** A target whose zone 0 is closed with one block, of a key of logical zone 4. *)
Definition aged_zone : zone_status :=
  set_z_conds Z_COND_CLOSED (set_z_generation 1 (set_z_live_count 1 (set_z_map_size 1 (set_z_key_map (upd_fn (fun _ => IMR_LSM_KEY_EMPTY) 0 262144) (default_zone 0))))).
Definition aged_state : kstate :=
  set_zone_state 5 (Some [aged_zone; default_zone 1; default_zone 2; default_zone 3; set_z_pba_map (upd_fn (fun _ => -1) 0 456) (default_zone 4)])
    (imr_lsm_initialize_metadata_locked ready_state).
Definition aged_disk : disk := MkDisk aged_state (MkDevice (upd_fn (fun _ => zero_block) 3648 (filled 1)) []) [] 0 (Compacting Idle).
Definition aged_cells : cells := fun q => if q / 8 =? 262144 then Known 1 else Known 0.

(** The zone is collected; its block is overwritten after it was copied, and the
    read tree is cleared before the copy is published. *)
Definition race_actions : list action :=
  [ActBegin 0; ActPage; ActCopy; ActCopy; ActMap (MkBio 2097152 8 true false) (filled 2); ActLand 0; ActEvent (ClearReadTree 1)].

Lemma aged_zone_at i z : zone i aged_state = Some z ->
  i = 0 /\ z = aged_zone \/ i = 4 /\ z = set_z_pba_map (upd_fn (fun _ => -1) 0 456) (default_zone 4) \/ 1 <= i <= 3 /\ z = default_zone i.
Proof.
  unfold zone. cbn [zones set_zone_state aged_state]. intros E. pose proof (nthZ_Some _ _ _ E) as Hi. change (lenZ _) with 5 in Hi.
  assert (i = 0 \/ i = 1 \/ i = 2 \/ i = 3 \/ i = 4) as Hc by lia. destruct Hc as [->|[->|[->|[->| ->]]]]; injection E as <-; auto with lia.
Qed.
Lemma aged_fwd k : fwd aged_state k = if k =? 262144 then Some 3648 else None.
Proof.
  unfold fwd. change (total_keys aged_state) with 327680. destruct ((0 <=? k) && (k <? 327680)) eqn:E.
  2: { by replace (k =? 262144) with false by lia. }
  unfold imr_lsm_forward_map_lookup_locked. destruct (logical_eq k) as [-> ->]; [lia|]. change (IMR_NUMZONES aged_state) with 5.
  assert (0 <= k / 65536 < 5) as Hz by div8. replace (_ >=? 5) with false by lia. destruct (zone (k / 65536) aged_state) as [z|] eqn:Ez.
  - destruct (aged_zone_at _ _ Ez) as [[Hi ->]|[[Hi ->]|[Hi ->]]]; cbn [z_pba_map set_z_pba_map aged_zone default_zone set_z_conds set_z_generation set_z_live_count set_z_map_size set_z_key_map].
    + change (-1 =? -1) with true. by replace (k =? 262144) with false by div8.
    + unfold upd_fn. destruct (Z.eqb_spec (k mod 65536) 0) as [Hm|Hm]; [by replace (k =? 262144) with true by div8|]. by replace (k =? 262144) with false by div8.
    + change (-1 =? -1) with true. by replace (k =? 262144) with false by div8.
  - exfalso. unfold zone in Ez. cbn [zones set_zone_state aged_state] in Ez. destruct (nthZ_is_Some [aged_zone; default_zone 1; default_zone 2; default_zone 3;
      set_z_pba_map (upd_fn (fun _ => -1) 0 456) (default_zone 4)] (k / 65536)); [change (lenZ _) with 5; lia|congruence].
Qed.

Lemma zone_state_inv H n zs s : lsm_inv H s -> lsm_inv H (set_zone_state n zs s).
Proof. intros [I1 I2 I3 I4 I5]. by split. Qed.

Lemma aged_inv : @disk_inv (MkSite 5 0) (fun _ => None) aged_cells aged_disk.
Proof.
  unfold aged_disk. assert (lsm_inv (fun _ => None) aged_state) as Hi by apply zone_state_inv, initialize_spec.
  assert (forall i, 0 <= i < 5 -> i = 0 \/ i = 1 \/ i = 2 \/ i = 3 \/ i = 4) as H5 by lia.
  split; dk.
  - split.
    + eexists. split_and!; [done|done|]. intros i z Ez. by destruct (aged_zone_at i z Ez) as [[-> ->]|[[-> ->]|[_ ->]]].
    + change (IMR_NUMZONES aged_state) with 5. split; [lia|..].
      * intros i Hi'%H5. destruct Hi' as [->|[->|[->|[->| ->]]]]; vm_compute; done.
      * intros k p. cbn [ly_fwd layout_of]. rewrite aged_fwd. destruct (Z.eqb_spec k 262144) as [->|]; [|done]. intros [= <-]. exists 0, 0. vm_compute. done.
      * intros i Hi'%H5. destruct Hi' as [->|[->|[->|[->| ->]]]]; try by vm_compute.
    + intros i z j Ez Hj. destruct (aged_zone_at _ _ Ez) as [[_ ->]|[[_ ->]|[_ ->]]]; cbn in *; unfold upd_fn; destruct (j =? 0) eqn:E; lia.
    + done.
    + done.
  - by apply awake_lsm.
  - done.
  - change (IMR_NUMZONES aged_state) with 5. change (output_bdev_start aged_state) with 0. split; try done.
    + intros q v. unfold aged_cells, shows. cbn [ly_fwd layout_of dv_blocks]. rewrite aged_fwd. destruct (Z.eqb_spec (q / 8) 262144) as [E|]; intros [= <-]; [|done].
      change (loc 0 3648) with 3648. change (upd_fn (fun _ => zero_block) 3648 (filled 1) 3648) with (replicate (Z.to_nat 8) 1). rewrite nthZ_replicate.
      destruct (sector_split q). by replace (_ && _) with true by lia.
    + intros q id v. unfold aged_cells. by destruct (_ =? _).
    + by intros f ?%elem_of_nil.
    + by intros f q p ?%elem_of_nil.
    + constructor.
  - done.
  - split; [|done]. intros a. cbn. unfold upd_fn. by destruct (a =? 3648).
  - done.
  - vm_compute. split; discriminate.
  - done.
  - done.
  - done.
Qed.

(** ** Theorems *)

Lemma calm_labels tr : forallb (fun l => match l with Collected c => c | _ => true end) tr = true -> forall c, Collected c ∈ tr -> c = true.
Proof. intros H c Hin. rewrite forallb_forall in H. apply list_elem_of_In in Hin. exact (H _ Hin). Qed.

Lemma fresh_run len policy_rflag s0 s d tr y :
  0 <= len <= IMR_MAX_CAPACITY -> imrsim_init_zone_state len s0 = (s, 0) ->
  module_ready s0 -> dev_ok d ->
  disk_steps len policy_rflag (MkDisk s d [] 0 (Compacting Idle)) tr y -> (forall c, Collected c ∈ tr -> c = true) ->
  exists H A, permitted_trace (fun _ => Known 0) tr A /\ @disk_inv (MkSite (len / 524288) (output_bdev_start s0)) H A y.
Proof. intros Hlen Ei Hm Hd Hrun Hc. by eapply disk_steps_ok; [| |eapply fresh_inv|]. Qed.



(** C10: Along every such run the zone maps stay consistent: each mapped key has
    its block in an occupied append slot whose reverse entry names the key, no two
    keys share a block, the live count of a zone is the number of its slots that
    hold a current version, no zone is overfull, and the counter that keeps
    collections out is the number of appends in flight. *)
Theorem zone_maps_consistent len policy_rflag s0 s d tr y :
  0 <= len <= IMR_MAX_CAPACITY -> imrsim_init_zone_state len s0 = (s, 0) ->
  module_ready s0 -> dev_ok d ->
  disk_steps len policy_rflag (MkDisk s d [] 0 (Compacting Idle)) tr y -> (forall c, Collected c ∈ tr -> c = true) ->
  let t := dk_state y in
  layout_ok (IMR_NUMZONES t) (layout_of t) /\ (forall k k' p, fwd t k = Some p -> fwd t k' = Some p -> k = k') /\
  append_writes_inflight t = lenZ (dk_flights y).
Proof.
  intros Hlen Ei Hm Hd Hrun Hc t. destruct (fresh_run len policy_rflag s0 s d tr y Hlen Ei Hm Hd Hrun Hc) as (H & A & _ & Hinv).
  pose proof (zk_layout _ (di_zones _ _ _ Hinv)) as Hok. split_and!; [exact Hok| |apply Hinv]. intros k k' p Hk Hk'. pose proof (lo_num _ _ Hok).
  destruct (fwd_slot _ _ Hok k p Hk) as (i & j & Hi & _ & Hj & <- & Ep & _). destruct (fwd_slot _ _ Hok k' p Hk') as (i' & j' & Hi' & _ & Hj' & <- & Ep' & _).
  rewrite Ep in Ep'. apply append_pba_inj in Ep' as [-> ->]; [done|lia..|done|done].
Qed.

Lemma zone_maps_consistent_witness :
  let t := dk_state demo_run.2 in
  layout_ok (IMR_NUMZONES t) (layout_of t) /\ (forall k k' p, fwd t k = Some p -> fwd t k' = Some p -> k = k') /\
  append_writes_inflight t = lenZ (dk_flights demo_run.2).
Proof.
  apply (zone_maps_consistent small false ready_state fresh_state blank demo_run.1 demo_run.2).
  - vm_compute. split; discriminate.
  - vm_compute. reflexivity.
  - exact ready_module.
  - exact blank_ok.
  - apply disk_run_steps.
  - apply calm_labels. vm_compute. reflexivity.
Defined.

(** C11: Publishing a zone collection never changes what a sector holds through
    the forward map, whatever foreground writes and deletes happened while its
    blocks were being copied, whether it succeeds or fails, and whether or not it
    is calm; a successful one leaves the source zone empty. *)
Theorem collection_preserves_sectors {here : site} len policy_rflag H A x tr s d fl n p ret s' r :
  0 <= len <= IMR_MAX_CAPACITY -> disk_inv H A x -> disk_steps len policy_rflag x tr (MkDisk s d fl n (Copied p ret)) ->
  (forall c, Collected c ∈ tr -> c = true) -> compact_zone_finish p ret s = (s', r) ->
  (forall q v, shows (output_bdev_start s') (layout_of s') (dv_blocks d) q v <-> shows (output_bdev_start s) (layout_of s) (dv_blocks d) q v) /\
  (r = 0 -> ly_size (layout_of s') (zp_source_zone p) = 0).
Proof.
  intros Hlen Hinv Hrun Hc E. destruct (disk_steps_ok len policy_rflag x tr _ Hlen Hrun H A Hinv Hc) as (H' & A' & _ & Hinv').
  destruct (inv_finish H' A' s d fl n p ret s' r Hinv' E) as (Hsh & _). split; [done|]. intros ->.
  destruct (di_worker _ _ _ Hinv') as [(Hp & C1 & C2) _]. pose proof (di_hot _ _ _ Hinv') as Hh. dk.
  assert (initialized (meta s) = true) as Hot by (destruct (initialized (meta s)); [done|by specialize (Hh eq_refl)]).
  pose proof (compact_zone_finish_spec H' p ret s (di_zones _ _ _ Hinv') (awake_hot _ _ Hot (di_lsm _ _ _ Hinv')) Hp C1 C2) as Hf. rewrite E in Hf.
  destruct Hf as (_ & _ & _ & _ & [(_ & _ & Hl & _)|(? & _)]); [|done]. pose proof (mo_src _ _ _ _ _ (pd_moves _ _ _ Hp)) as Hs.
  rewrite (le_size _ _ _ Hl _ Hs). cbn. by rewrite upd_eq.
Qed.

(** A zone is collected while its only block is overwritten. *)
Lemma collection_preserves_sectors_witness :
  exists s d fl n p ret s', (disk_run small false race_actions aged_disk).2 = MkDisk s d fl n (Copied p ret) /\ compact_zone_finish p ret s = (s', 0) /\
  (forall q v, shows (output_bdev_start s') (layout_of s') (dv_blocks d) q v <-> shows (output_bdev_start s) (layout_of s) (dv_blocks d) q v) /\
  (0 = 0 -> ly_size (layout_of s') (zp_source_zone p) = 0).
Proof.
  pose proof (disk_run_steps small false race_actions aged_disk) as Hrun.
  assert (match (disk_run small false race_actions aged_disk).2 with MkDisk s _ _ _ (Copied p ret) => (compact_zone_finish p ret s).2 | _ => 1 end = 0) as E by (vm_compute; reflexivity).
  assert (forallb (fun l => match l with Collected c => c | _ => true end) (disk_run small false race_actions aged_disk).1 = true) as Hc by (vm_compute; reflexivity).
  pose proof aged_inv as Hinv. set (x := aged_disk) in *. clearbody x. destruct (disk_run small false race_actions x) as [tr [s d fl n w]]. cbn [fst snd] in *.
  destruct w as [|p|p todo|p ret]; try discriminate. destruct (compact_zone_finish p ret s) as [s' r] eqn:Ef. cbn in E. subst r.
  exists s, d, fl, n, p, ret, s'. split; [reflexivity|]. split; [exact Ef|].
  eapply (@collection_preserves_sectors _ small false _ _ x tr s d fl n p ret s' 0).
  - vm_compute. split; discriminate.
  - exact Hinv.
  - exact Hrun.
  - by apply calm_labels.
  - exact Ef.
Defined.

(** A trace that reads, of a sector the specification knows, another value. *)
Lemma wrong_read A0 A lba data i v w : A (lba + i) = Known v -> nthZ data i = Some w -> w <> v -> ~ permitted A (ReadBio lba data) A0.
Proof. intros HA Hd Hne Hp. inversion Hp as [| | |l' d' _ Hr| | | | | | | |]; subst. apply Hne. by eapply Hr. Qed.

(** C15: The publication of a collection can make later reads return overwritten
    data: the copied entries enter the read tree even when the foreground has
    overwritten their keys, and when the newer record is no longer cached the old
    one is found first. Here a block is overwritten, the write completes, the read
    tree is cleared, the collection is published, and a read of the block returns
    what it held before. *)
Theorem stale_read_after_collection :
  @disk_inv (MkSite 5 0) (fun _ => None) aged_cells aged_disk /\
  let run := disk_run small false (race_actions ++ [ActFinish; ActMap (MkBio 2097152 8 false false) (filled 0)]) aged_disk in
  disk_steps small false aged_disk run.1 run.2 /\
  run.1 = [Silent; Silent; Silent; Silent; Submitted 0 2097152 (filled 2); Landed 0 true; Silent; Collected false; ReadBio 2097152 (filled 1)] /\
  forall A, ~ permitted_trace aged_cells run.1 A.
Proof.
  split; [exact aged_inv|]. intros run. split; [apply disk_run_steps|].
  assert (run.1 = [Silent; Silent; Silent; Silent; Submitted 0 2097152 (filled 2); Landed 0 true; Silent; Collected false; ReadBio 2097152 (filled 1)]) as E
    by (vm_compute; reflexivity).
  split; [exact E|]. rewrite E. clear E. clearbody run. clear run. intros A Hp.
  repeat match goal with
  | H : permitted_trace _ (_ :: _) _ |- _ => inversion H; clear H; subst
  | H : permitted _ Silent _ |- _ => inversion H; clear H; subst
  | H : permitted _ (Submitted _ _ _) _ |- _ => inversion H; clear H; subst
  | H : permitted _ (Landed _ _) _ |- _ => inversion H; clear H; subst
  | H : permitted _ (Collected _) _ |- _ => inversion H; clear H; subst
  end.
  match goal with H : permitted _ (ReadBio _ _) _ |- _ => revert H end. by apply (wrong_read _ _ _ _ 0 2 1).
Qed.

(** While physical zones are being copied, [imrsim_map] holds back the bios
    of the logical zones with the same numbers: a write to a key of logical zone 0
    that has no block anywhere waits for the collection of physical zone 0, and a
    read of the block that is being copied from zone 0 does not. *)
Theorem copy_waits_by_logical_zone :
  let x := (disk_run small false [ActBegin 0] aged_disk).2 in
  fwd (dk_state x) 0 = None /\ imrsim_map small false (MkBio 0 8 true false) (dk_state x) = None /\
  imrsim_lba_zone_idx 3648 = 0 /\ fwd (dk_state x) 262144 = Some 3648 /\
  exists s', imrsim_map small false (MkBio 2097152 8 false false) (dk_state x) = Some (s', Remapped 3648 false).
Proof.
  intros x. split_and!; try (vm_compute; reflexivity).
  assert (match imrsim_map small false (MkBio 2097152 8 false false) (dk_state x) with Some (_, Remapped a b) => (a =? 3648) && negb b | _ => false end = true) as E
    by (vm_compute; reflexivity).
  destruct (imrsim_map small false (MkBio 2097152 8 false false) (dk_state x)) as [[s' [a [|]| | |]]|]; try discriminate; [by rewrite andb_false_r in E|].
  exists s'. do 3 f_equal. lia.
Qed.

(** The zone state of [n] zones has a 32-bit size, so that it can be
    persisted, for at most 7759 zones (1.9 TB), well below the 10 TB the
    constructor names as the maximum; larger targets are refused with
    [-EOVERFLOW]. *)
Theorem zone_state_size_limit n : 0 <= n < 2 ^ 32 ->
  imrsim_state_size_for_zones n = (if n <=? 7759 then Ok (imrsim_zone_status_ptr n + sizeof_zone_status * n + 4) else Fail (- EOVERFLOW)) /\
  7759 * 524288 < IMR_MAX_CAPACITY.
Proof.
  intros Hn. split; [|reflexivity]. by rewrite state_size.
Qed.
Lemma zone_state_size_limit_witness : imrsim_state_size_for_zones 7760 = Fail (- EOVERFLOW) /\ 7759 * 524288 < IMR_MAX_CAPACITY.
Proof. apply (zone_state_size_limit 7760). lia. Defined.

(** Scattering a buffer into the segments of a bio and gathering it again
    gives the buffer back, and the other sectors of the bio stay. *)
Theorem bio_copy_roundtrip segs buffer skip count :
  0 <= skip -> 0 < count -> skip + count <= lenZ (concat segs) -> count <= lenZ buffer ->
  exists segs', imrsim_bio_copy_from_buffer segs buffer skip count 0 = (segs', 0) /\
    imrsim_bio_copy_to_buffer segs' skip count 0 = Ok (take (Z.to_nat count) buffer) /\
    lenZ (concat segs') = lenZ (concat segs) /\
    forall i, i < skip \/ skip + count <= i -> nthZ (concat segs') i = nthZ (concat segs) i.
Proof.
  intros Hs Hc Hl Hb. destruct (scatter segs buffer skip count 0) as (segs' & E & Ec); [lia..|]. exists segs'. rewrite Z.sub_0_r, drop_0 in Ec.
  assert (lenZ (take (Z.to_nat skip) (concat segs)) = skip) as L1 by (rewrite lenZ_take by lia; lia).
  assert (lenZ (take (Z.to_nat count) buffer) = count) as L2 by (rewrite lenZ_take by lia; lia).
  assert (lenZ (concat segs') = lenZ (concat segs)) as L by (rewrite Ec, !lenZ_app, L1, L2, lenZ_drop by lia; lia). split_and!; [done| |done|].
  - rewrite gather by lia. rewrite Z.sub_0_r, Ec, drop_past, L1, Z.sub_diag, drop_0, take_within by lia. by rewrite take_take, Nat.min_id.
  - intros i Hi. rewrite Ec, !nthZ_app_any, L1, L2. destruct Hi as [Hi|Hi].
    + replace (i <? skip) with true by lia. unfold nthZ. destruct (0 <=? i) eqn:E0; [|done]. apply lookup_take_lt. lia.
    + replace (i <? skip) with false by lia. replace (i - skip <? count) with false by lia. unfold nthZ.
      replace (0 <=? i - skip - count) with true by lia. replace (0 <=? i) with true by lia. rewrite lookup_drop. f_equal. lia.
Qed.
Lemma bio_copy_roundtrip_witness :
  exists segs', imrsim_bio_copy_from_buffer [[1; 2; 3]; []; [4; 5]; [6; 7; 8]] [20; 21; 22; 23] 2 4 0 = (segs', 0) /\
    imrsim_bio_copy_to_buffer segs' 2 4 0 = Ok [20; 21; 22; 23] /\ lenZ (concat segs') = 8 /\
    forall i, i < 2 \/ 2 + 4 <= i -> nthZ (concat segs') i = nthZ [1; 2; 3; 4; 5; 6; 7; 8] i.
Proof. apply (bio_copy_roundtrip [[1; 2; 3]; []; [4; 5]; [6; 7; 8]] [20; 21; 22; 23] 2 4); vm_compute; congruence. Defined.
