(* ===== verification/ImrOutput.v ===== *)
(** Segment outputs: the plan, the copy and the commit that move the blocks of
    live segments to the top tracks their placement reserved, and the compaction
    of the selected segment, which ends with such a commit ([dm-imrsim.c], from
    [imr_lsm_plan_output_copy_locked] to [imr_lsm_commit_output_locked], and
    [imr_lsm_compact_selected_segment_locked]). *)

From S2P Require Import Prelude StdMap ImrPrelude ImrGeometry ImrBloom ImrState ImrReadTree ImrLevels ImrSegment ImrPlacement ImrAccounting ImrLsm ImrCompaction ImrZones ImrGc.

(** ** Statistics of a pass *)

(** The entries a pass handled in one segment, and the sectors they span. *)
Record extent := MkExtent { sp_entries : Z; sp_source_start : Z; sp_source_end : Z; sp_output_start : Z; sp_output_end : Z }.
Definition no_extent : extent := MkExtent 0 0 0 0 0.
Definition extent_add (source_pba output_pba : Z) (p : extent) : extent :=
  let source_end := u64 (source_pba + (Z.shiftl 1 IMR_BLOCK_SIZE_SHIFT - 1)) in
  let output_end := u64 (output_pba + (Z.shiftl 1 IMR_BLOCK_SIZE_SHIFT - 1)) in
  let entries := u32 (sp_entries p + 1) in
  if entries =? 1 then MkExtent entries source_pba source_end output_pba output_end
  else MkExtent entries
         (if source_pba <? sp_source_start p then source_pba else sp_source_start p)
         (if source_end >? sp_source_end p then source_end else sp_source_end p)
         (if output_pba <? sp_output_start p then output_pba else sp_output_start p)
         (if output_end >? sp_output_end p then output_end else sp_output_end p).

(** A whole pass: segments and entries handled, and the last segment with its span.
    [U32_MAX] is [IMR_LSM_SEGMENT_NONE]. *)
Record pass := MkPass { ps_segments : Z; ps_entries : Z; ps_segment_id : Z; ps_last : extent }.
Definition no_pass : pass := MkPass 0 0 U32_MAX no_extent.
Definition pass_add (g : segment) (p : extent) (t : pass) : pass :=
  if sp_entries p =? 0 then t else MkPass (u32 (ps_segments t + 1)) (u32 (ps_entries t + sp_entries p)) (sg_id g) p.

(** ** Planning *)

(** The last component counts the valid entries without an output. *)
Definition plan_output_entry (i : nat) (a : kstate * extent * Z) (j : nat) : kstate * extent * Z :=
  let '(s, p, missing) := a in
  match entry_at (i, j) s with
  | None => a
  | Some e =>
      let s := upd_entry (i, j) (set_be_output_copy_planned false) s in
      if negb (be_valid e) then (s, p, missing)
      else if negb (be_output_mapped e) then (s, p, u32 (missing + 1))
      else (upd_entry (i, j) (set_be_output_copy_planned true) s, extent_add (be_pba e) (be_output_pba e) p, missing)
  end.
Definition plan_output_segment (a : kstate * pass * Z) (i : nat) : kstate * pass * Z :=
  let '(s, t, missing) := a in
  match seg i s with
  | None => a
  | Some g =>
      if sg_retired g then a
      else
        let '(s, p, missing) := fold_left (plan_output_entry i) (seq 0 (length (sg_table g))) (s, no_extent, missing) in
        (s, pass_add g p t, missing)
  end.
Definition imr_lsm_plan_output_copy_locked (s : kstate) : kstate :=
  let '(s, t, missing) := fold_left plan_output_segment (seq 0 (length (segments (meta s)))) (s, no_pass, 0) in
  let s := st_add "segment_output_copy_plan_missing_mapping_count" missing
             (st_add "segment_output_copy_plan_entry_count" (ps_entries t) (st_inc "segment_output_copy_plan_count" s)) in
  st_sets [("last_segment_output_copy_plan_segments", ps_segments t); ("last_segment_output_copy_plan_entries", ps_entries t);
           ("last_segment_output_copy_plan_missing_mappings", missing); ("last_segment_output_copy_plan_segment_id", ps_segment_id t);
           ("last_segment_output_copy_plan_source_pba_start", sp_source_start (ps_last t));
           ("last_segment_output_copy_plan_source_pba_end", sp_source_end (ps_last t));
           ("last_segment_output_copy_plan_output_pba_start", sp_output_start (ps_last t));
           ("last_segment_output_copy_plan_output_pba_end", sp_output_end (ps_last t))]%string s.

(** ** Copying *)

Definition output_source (e : block_entry) : Z := if be_source_pba_valid e then be_source_pba e else be_pba e.

(** One entry; the number is [ret], 0 for an entry that needs no copy. *)
Definition copy_output_entry (i j : nat) (a : kstate * device * extent) : kstate * device * extent * Z :=
  let '(s, d, p) := a in
  match entry_at (i, j) s with
  | None => (a, 0)
  | Some e =>
      if negb (be_valid e) || be_output_committed e || be_output_copied e then (a, 0)
      else if negb (be_output_mapped e) || negb (be_output_copy_planned e) then (a, 0)
      else
        let source_pba := output_source e in
        match imrsim_read_page (u64 (output_bdev_start s + source_pba)) d with
        | (d, Fail ret) => (s, d, p, ret)
        | (d, Ok page) =>
            let '(d, ret) := imrsim_write_page (u64 (output_bdev_start s + be_output_pba e)) page d in
            if ret <? 0 then (s, d, p, ret)
            else
              let s := upd_entry (i, j) (fun e => set_be_output_copied true (set_be_source_pba_valid true (set_be_source_pba source_pba e))) s in
              (s, d, extent_add source_pba (be_output_pba e) p, 0)
        end
  end.
Fixpoint copy_output_entries (i : nat) (js : list nat) (a : kstate * device * extent) : kstate * device * extent * Z :=
  match js with
  | [] => (a, 0)
  | j :: js => match copy_output_entry i j a with (a, ret) => if ret <? 0 then (a, ret) else copy_output_entries i js a end
  end.

(** A failure ends the pass: the entries of its segment count, the segment does not. *)
Fixpoint copy_output_segments (idx : list nat) (s : kstate) (d : device) (t : pass) : kstate * device * pass * Z :=
  match idx with
  | [] => (s, d, t, 0)
  | i :: idx =>
      match seg i s with
      | None => copy_output_segments idx s d t
      | Some g =>
          if sg_retired g then copy_output_segments idx s d t
          else
            match copy_output_entries i (seq 0 (length (sg_table g))) (s, d, no_extent) with
            | (s, d, p, ret) =>
                if ret <? 0
                then (s, d, MkPass (ps_segments t) (u32 (ps_entries t + sp_entries p)) (ps_segment_id t) (ps_last t), ret)
                else copy_output_segments idx s d (pass_add g p t)
            end
      end
  end.

(** The statistics behind [out_stats]. *)
Definition record_output_copy (t : pass) (failed ret : Z) (s : kstate) : kstate :=
  let s := st_add "segment_output_physical_copy_failed_count" failed
             (st_add "segment_output_physical_copy_entry_count" (ps_entries t) (st_inc "segment_output_physical_copy_count" s)) in
  st_sets [("last_segment_output_physical_copy_segments", ps_segments t); ("last_segment_output_physical_copy_entries", ps_entries t);
           ("last_segment_output_physical_copy_failed", failed); ("last_segment_output_physical_copy_segment_id", ps_segment_id t);
           ("last_segment_output_physical_copy_error", ret);
           ("last_segment_output_physical_copy_source_pba_start", sp_source_start (ps_last t));
           ("last_segment_output_physical_copy_source_pba_end", sp_source_end (ps_last t));
           ("last_segment_output_physical_copy_output_pba_start", sp_output_start (ps_last t));
           ("last_segment_output_physical_copy_output_pba_end", sp_output_end (ps_last t))]%string s.

Definition imr_lsm_copy_output_payload_locked (s : kstate) (d : device) : kstate * device * Z :=
  let block_bytes := Z.shiftl (Z.shiftl 1 IMR_BLOCK_SIZE_SHIFT) IMR_SECTOR_SIZE_SHIFT_DEFAULT in
  match output_bdev s with
  | None => (record_output_copy no_pass 0 (- ENODEV) s, d, - ENODEV)
  | Some _ =>
      if block_bytes >? PAGE_SIZE then (record_output_copy no_pass 0 (- EOPNOTSUPP) s, d, - EOPNOTSUPP)
      else
        match st_alloc s with
        | (s, None) => (record_output_copy no_pass 0 (- ENOMEM) s, d, - ENOMEM)
        | (s, Some _) =>
            let '(s, d, t, ret) := copy_output_segments (seq 0 (length (segments (meta s)))) s d no_pass in
            (record_output_copy t (if ret <? 0 then 1 else 0) ret s, d, ret)
        end
  end.

(** ** Committing *)

(** The two counters are the entries committed before and the entries without a plan. *)
Definition commit_output_entry (i : nat) (a : kstate * extent * Z * Z) (j : nat) : kstate * extent * Z * Z :=
  let '(s, p, already, missing) := a in
  match entry_at (i, j) s with
  | None => a
  | Some e =>
      if negb (be_valid e) then a
      else if be_output_committed e then (s, p, u32 (already + 1), missing)
      else if negb (be_output_mapped e) || negb (be_output_copy_planned e) then (s, p, already, u32 (missing + 1))
      else
        let s := upd_entry (i, j) (fun e => set_be_output_committed true (set_be_pba (be_output_pba e)
                   (set_be_source_pba_valid true (set_be_source_pba (be_pba e) e)))) s in
        let s := if fd_found (imr_lsm_find_newer_record_locked (be_key e) (be_timestamp e) s) then s
                 else imr_lsm_tree_update_locked (be_key e) (be_output_pba e) (be_valid e) (be_timestamp e) s in
        (s, extent_add (be_pba e) (be_output_pba e) p, already, missing)
  end.
Definition commit_output_segment (a : kstate * pass * Z * Z) (i : nat) : kstate * pass * Z * Z :=
  let '(s, t, already, missing) := a in
  match seg i s with
  | None => a
  | Some g =>
      if sg_retired g then a
      else
        let '(s, p, already, missing) :=
          fold_left (commit_output_entry i) (seq 0 (length (sg_table g))) (s, no_extent, already, missing) in
        (s, pass_add g p t, already, missing)
  end.
Definition imr_lsm_commit_output_metadata_locked (s : kstate) : kstate :=
  let '(s, t, already, missing) := fold_left commit_output_segment (seq 0 (length (segments (meta s)))) (s, no_pass, 0, 0) in
  let s := st_add "segment_output_metadata_commit_missing_plan_count" missing
             (st_add "segment_output_metadata_commit_already_count" already
               (st_add "segment_output_metadata_commit_entry_count" (ps_entries t)
                 (st_inc "segment_output_metadata_commit_count" s))) in
  st_sets [("last_segment_output_metadata_commit_segments", ps_segments t); ("last_segment_output_metadata_commit_entries", ps_entries t);
           ("last_segment_output_metadata_commit_already", already); ("last_segment_output_metadata_commit_missing_plan", missing);
           ("last_segment_output_metadata_commit_segment_id", ps_segment_id t);
           ("last_segment_output_metadata_commit_source_pba_start", sp_source_start (ps_last t));
           ("last_segment_output_metadata_commit_source_pba_end", sp_source_end (ps_last t));
           ("last_segment_output_metadata_commit_output_pba_start", sp_output_start (ps_last t));
           ("last_segment_output_metadata_commit_output_pba_end", sp_output_end (ps_last t))]%string s.

(** [run] is 1 for the plan alone, 2 for plan and metadata, 3 for the blocks too. *)
Definition imr_lsm_commit_output_locked (run : Z) (s : kstate) (d : device) : kstate * device * Z :=
  if (run =? 0) || (run >? 3) then (s, d, - EINVAL)
  else
    let s := imr_lsm_plan_output_copy_locked s in
    let '(s, d, ret) := if run =? 3 then imr_lsm_copy_output_payload_locked s d else (s, d, 0) in
    if negb (ret =? 0) then (s, d, ret)
    else ((if run >=? 2 then imr_lsm_commit_output_metadata_locked s else s), d, 0).

(** ** Compaction of the selected segment *)

(** The loop over the entries of the segment: the builder with the entries that
    are kept, their number and the number of dropped ones. *)
Fixpoint keep_entries (zone_idx : Z) (t : list block_entry) (b : builder) (live dropped : Z) (s : kstate)
  : kstate * cres (builder * Z * Z) :=
  match t with
  | [] => (s, Ok (b, live, dropped))
  | e :: t =>
      if negb (imr_lsm_segment_entry_should_keep_locked e s) then keep_entries zone_idx t b live (u32 (dropped + 1)) s
      else
        match imr_lsm_segment_builder_add (imr_lsm_compaction_threshold_locked s) b (be_key e) (be_pba e) zone_idx (be_valid e)
                (be_timestamp e) (hp s) with
        | (h, Fail ret) => (set_hp h s, Fail ret)
        | (h, Ok b) => keep_entries zone_idx t b (u32 (live + 1)) dropped (set_hp h s)
        end
  end.

Definition imr_lsm_compact_selected_segment_locked (s : kstate) (d : device) : kstate * device * Z :=
  let s := imr_lsm_recalculate_segment_invalid_stats_locked s in
  let record (from_id to_id input live dropped : Z) :=
    st_sets [("last_segment_compaction_from_id", from_id); ("last_segment_compaction_to_id", to_id);
             ("last_segment_compaction_input_entries", input); ("last_segment_compaction_live_entries", live);
             ("last_segment_compaction_dropped_entries", dropped)]%string in
  match imr_lsm_selected_segment_compaction_candidate_locked s with
  | None => (record U32_MAX U32_MAX 0 0 0 (st_inc "segment_compaction_execute_no_candidate_count" s), d, 0)
  | Some i =>
      match seg i s with
      | None => (s, d, 0)
      | Some g =>
          match keep_entries (sg_zone_idx g) (sg_table g) empty_builder 0 0 s with
          | (s, Fail ret) => (s, d, ret)
          | (s, Ok (b, live, dropped)) =>
              let compacted := negb (sb_node_count b =? 0) in
              let new_id := if compacted then next_segment_id (meta s) else U32_MAX in
              let '(s, ret) :=
                if compacted then
                  let '(s, _, ret) := imr_lsm_append_segment_with_accounting_locked (sg_level g) (sg_track_type g) b true s in (s, ret)
                else (s, 0) in
              if negb (ret =? 0) then (s, d, ret)
              else
                let s := retire_segment i s in
                let s := record (sg_id g) new_id (block_table_count g) live dropped (st_inc "segment_compaction_execute_count" s) in
                let s := imr_lsm_update_segment_compaction_selection_locked (imr_lsm_refresh_max_obsolete_ratio_locked s) in
                if compacted then imr_lsm_commit_output_locked 3 s d else (s, d, 0)
          end
      end
  end.
