(* ===== verification/ImrOutputSpec.v ===== *)
(** Committing segment outputs: what the plan, the copy and the commit of the
    metadata change of entries and blocks, and a commit that overwrites blocks the
    foreground still uses. *)

From S2P Require Import Prelude StdMap ImrPrelude ImrGeometry ImrBloom ImrState ImrReadTree ImrLevels ImrSegment ImrPlacement ImrAccounting ImrCore ImrLsm ImrLsmInv ImrLsmOps ImrCompaction ImrSystem ImrTheorems ImrLinks ImrZones ImrGc ImrTarget ImrIo ImrLayout ImrZoneFrame ImrZoneInv ImrCold ImrDisk ImrDiskData ImrDiskInv ImrPersistSpec ImrDiskTheorems ImrOutput.


(** ** Entries by reference *)






(** ** Passes *)

(** What no pass touches. *)
Definition grounds (s : kstate) : option (list zone_status) * Z * allocator * option Z * Z :=
  (zones s, IMR_NUMZONES s, alloc s, output_bdev s, output_bdev_start s).


(** Operations that leave the segments alone. *)
Record aside (s s' : kstate) : Prop := {
  as_grounds : grounds s' = grounds s;
  as_segments : segments (meta s') = segments (meta s);
}.
#[export] Instance aside_refl : Reflexive aside.
Proof. by split. Qed.
#[export] Instance aside_trans : Transitive aside.
Proof. intros s1 s2 s3 [A1 A2] [B1 B2]. split; congruence. Qed.



(** A loop over references, whatever it carries besides the state. *)
Section loops.
Context {A B : Type} (st : A -> kstate) (F : block_entry -> block_entry) (h : list (bool * nat)).
Context (f : A -> B -> A) (key : B -> list (nat * nat)).

End loops.


Lemma aside_st_inc n s : aside s (st_inc n s).
Proof. by split. Qed.
Lemma aside_st_add n v s : aside s (st_add n v s).
Proof. by split. Qed.

(** ** Plan and commit *)





(** ** Copy *)











(** ** The whole commit *)






Section commit.
Context (s : kstate) (d : device) (s' : kstate) (d' : device) (ret : Z).
Hypothesis (Hrun : imr_lsm_commit_output_locked 3 s d = (s', d', ret)) (Hdev : dev_ok d).





End commit.

(** ** Theorems *)


(** ** Examples *)

(** A target with every bottom block of zone 0 written and none of them live, so
    that the next append takes the first top block of the zone. *)
Definition brim_zone : zone_status := set_z_conds Z_COND_OPEN (set_z_generation 1 (set_z_map_size 36352 (default_zone 0))).
Definition brim_state : kstate :=
  set_alloc (MkAllocator 0 1 2)
    (set_zone_state 5 (Some [brim_zone; default_zone 1; default_zone 2; default_zone 3; default_zone 4]) (imr_lsm_initialize_metadata_locked ready_state)).
Definition brim_disk : disk := MkDisk brim_state blank [] 0 (Compacting Idle).

Lemma brim_zone_at i z : zone i brim_state = Some z -> i = 0 /\ z = brim_zone \/ 1 <= i <= 4 /\ z = default_zone i.
Proof.
  unfold zone. cbn [zones set_alloc set_zone_state brim_state]. intros E. pose proof (nthZ_Some _ _ _ E) as Hi. change (lenZ _) with 5 in Hi.
  assert (i = 0 \/ i = 1 \/ i = 2 \/ i = 3 \/ i = 4) as Hc by lia. destruct Hc as [->|[->|[->|[->| ->]]]]; injection E as <-; auto with lia.
Qed.
Lemma brim_fwd k : fwd brim_state k = None.
Proof.
  unfold fwd. destruct (_ && _); [|done]. unfold imr_lsm_forward_map_lookup_locked. destruct (_ >=? _); [done|].
  destruct (zone _ brim_state) as [z|] eqn:Ez; [|done]. by destruct (brim_zone_at _ _ Ez) as [[_ ->]|[_ ->]].
Qed.
Lemma alloc_inv H a s : lsm_inv H s -> lsm_inv H (set_alloc a s).
Proof. intros [I1 I2 I3 I4 I5]. by split. Qed.
Lemma brim_inv : @disk_inv (MkSite 5 0) (fun _ => None) (fun _ => Known 0) brim_disk.
Proof.
  unfold brim_disk. assert (lsm_inv (fun _ => None) brim_state) as Hi by apply alloc_inv, zone_state_inv, initialize_spec.
  assert (forall i, 0 <= i < 5 -> i = 0 \/ i = 1 \/ i = 2 \/ i = 3 \/ i = 4) as H5 by lia.
  split; dk.
  - split.
    + eexists. split_and!; [done|done|]. intros i z Ez. by destruct (brim_zone_at i z Ez) as [[-> ->]|[_ ->]].
    + change (IMR_NUMZONES brim_state) with 5. split; [lia|..].
      * intros i Hi'%H5. destruct Hi' as [->|[->|[->|[->| ->]]]]; vm_compute; done.
      * intros k p. cbn [ly_fwd layout_of]. by rewrite brim_fwd.
      * intros i Hi'%H5. rewrite count_zero; [by destruct Hi' as [->|[->|[->|[->| ->]]]]|]. intros j _. unfold live_at. cbn [ly_fwd layout_of]. by rewrite brim_fwd.
    + intros i z j Ez Hj. destruct (brim_zone_at _ _ Ez) as [[_ ->]|[_ ->]]; [by split|]. exfalso. cbn in Hj. lia.
    + done.
    + done.
  - by apply awake_lsm.
  - done.
  - change (IMR_NUMZONES brim_state) with 5. change (output_bdev_start brim_state) with 0. split; try done.
    + intros q v [= <-]. unfold shows. cbn [ly_fwd layout_of]. by rewrite brim_fwd.
    + by intros f ?%elem_of_nil.
    + by intros f q p ?%elem_of_nil.
    + constructor.
  - done.
  - apply blank_ok.
  - done.
  - vm_compute. split; discriminate.
  - done.
  - done.
  - done.
Qed.


(** Two writes and a compaction of level 0. *)
Definition output_actions : list action :=
  [ActMap (MkBio 8 8 true false) (filled 1); ActLand 0; ActMap (MkBio 0 8 true false) (filled 2); ActLand 1;
   ActEvent (Prepare false 0); ActEvent Build; ActEvent Publish; ActMap (MkBio 8 8 false false) (filled 0)].
Definition output_run (x : disk) : list label * disk := disk_run small false output_actions x.
Lemma output_run_steps x : disk_steps small false x (output_run x).1 (output_run x).2.
Proof. apply disk_run_steps. Qed.
Definition committed_disk (x : disk) : disk * Z :=
  let '(s, d, ret) := imr_lsm_commit_output_locked 3 (dk_state x) (dk_device x) in (MkDisk s d (dk_flights x) (dk_next x) (dk_worker x), ret).

(** C31: A commit of segment outputs can overwrite data of the foreground. Outputs
    are placed among the top blocks of their zone that no other output uses, and
    the foreground appends to the same blocks once the bottom blocks of the zone are
    written. Here two blocks are written and read back, their level is compacted,
    the commit returns 0, and the first block reads as the second. *)
Theorem commit_output_overwrites :
  @disk_inv (MkSite 5 0) (fun _ => None) (fun _ => Known 0) brim_disk /\
  let '(tr, x) := output_run brim_disk in
  disk_steps small false brim_disk tr x /\
  tr = [Submitted 0 8 (filled 1); Landed 0 true; Submitted 1 0 (filled 2); Landed 1 true; Silent; Silent; Silent; ReadBio 8 (filled 1)] /\
  let '(y, ret) := committed_disk x in
  ret = 0 /\ (disk_run small false [ActMap (MkBio 8 8 false false) (filled 0)] y).1 = [ReadBio 8 (filled 2)].
Proof.
  split; [exact brim_inv|]. pose proof (output_run_steps brim_disk) as Hrun.
  assert ((output_run brim_disk).1 = [Submitted 0 8 (filled 1); Landed 0 true; Submitted 1 0 (filled 2); Landed 1 true; Silent; Silent; Silent; ReadBio 8 (filled 1)]) as Et
    by (vm_compute; reflexivity).
  assert ((committed_disk (output_run brim_disk).2).2 = 0) as Er by (vm_compute; reflexivity).
  assert ((disk_run small false [ActMap (MkBio 8 8 false false) (filled 0)] (committed_disk (output_run brim_disk).2).1).1 = [ReadBio 8 (filled 2)]) as Ey by (vm_compute; reflexivity).
  destruct (output_run brim_disk) as [tr x]. cbn [fst snd] in *. destruct (committed_disk x) as [y ret]. by split_and!.
Qed.

