(* ===== verification/ImrDebugfs.v ===== *)
(** The control files of debugfs: the settings of the LSM and of the garbage
    collection, and the commands that delete a key, compact a level, a segment or a
    zone, seed a zone and commit the outputs ([dm-imrsim.c], the
    [imr_lsm_debugfs_*_write] functions). The files that only print state are not
    modelled.

    A handler reads a number from the buffer of the caller. [None] is a buffer
    that cannot be copied; [kstrtouint] and [kstrtoull] of the kernel are parameters.
    Queueing the worker changes no state: its steps may run at any time. *)

From Stdlib Require Import String.
From S2P Require Import Prelude StdMap ImrPrelude ImrGeometry ImrBloom ImrState ImrReadTree ImrLevels ImrSegment ImrPlacement ImrAccounting ImrLsm ImrCompaction ImrZones ImrGc ImrImage ImrPersist ImrKapi ImrOutput.

Local Open Scope Z_scope.

Definition IMR_LSM_COMPACTION_THRESHOLD_MIN : Z := 1.
Definition IMR_LSM_COMPACTION_THRESHOLD_MAX : Z := 4096.
Definition IMR_LSM_LEVEL_RATIO_MIN : Z := 2.
Definition IMR_LSM_LEVEL_RATIO_MAX : Z := 1000.
Definition IMR_LSM_MAX_BYTES_FOR_LEVEL_BASE_MIN : Z := IMR_LSM_RECORD_BYTES.
Definition IMR_LSM_MAX_BYTES_FOR_LEVEL_BASE_MAX : Z := Z.shiftl 1 40.
Definition IMR_LSM_LEVEL_COMPACTION_BUILD_DELAY_MS_MAX : Z := 5000.
Definition IMR_LSM_ZONE_GC_MIN_INVALID_RATIO_PERMILLE_MAX : Z := 1000.
Definition IMR_LSM_ZONE_GC_FREE_LOW_WATERMARK_MAX : Z := 1024.
Definition IMR_LSM_BLOOM_BITS_PER_KEY_MIN : Z := 1.
Definition IMR_LSM_BLOOM_BITS_PER_KEY_MAX : Z := 64.

Inductive imr_lsm_zone_gc_policy_knob :=
| IMR_LSM_ZONE_GC_POLICY_MIN_INVALID_RATIO
| IMR_LSM_ZONE_GC_POLICY_FREE_LOW_WATERMARK.

Section controls.
Context (kstrtouint kstrtoull : string -> cres Z).

(** ** Reading the number *)

(** The common start of every handler: [char buf[32]], the copy and the parse. *)
Definition read_number (parse : string -> cres Z) (ubuf : option string) (count : Z) : cres Z :=
  if count >=? 32 then Fail (- E2BIG)
  else match ubuf with None => Fail (- EFAULT) | Some buf => parse buf end.

(** A number that is 0 for the default and otherwise within bounds. *)
Definition within_bounds (default_value low high value : Z) : cres Z :=
  let value := if value =? 0 then default_value else value in
  if (value <? low) || (value >? high) then Fail (- EINVAL) else Ok value.

(** ** Settings *)

(** A setting: stored when the target is ready. *)
Definition store_setting (value : cres Z) (count : Z) (store : Z -> kstate -> kstate) (s : kstate) : kstate * Z :=
  match value with
  | Fail e => (s, e)
  | Ok v => if negb (imrsim_target_ready_locked s) then (s, - ENODEV) else (store v s, count)
  end.
(** [value] checked by [check]. *)
Definition checked (value : cres Z) (check : Z -> cres Z) : cres Z := match value with Fail e => Fail e | Ok v => check v end.

(** The sizes of the levels follow a setting once the metadata exist. *)
Definition resize_levels (s : kstate) : kstate := if initialized (meta s) then imr_lsm_calculate_dynamic_levels_locked s else s.

Definition imr_lsm_debugfs_compaction_threshold_write (ubuf : option string) (count : Z) : kstate -> kstate * Z :=
  store_setting
    (checked (read_number kstrtouint ubuf count)
       (within_bounds IMR_LSM_COMPACTION_THRESHOLD IMR_LSM_COMPACTION_THRESHOLD_MIN IMR_LSM_COMPACTION_THRESHOLD_MAX)) count
    (fun threshold s => resize_levels (set_cfg (MkConfig threshold (cfg_max_bytes_for_level_base (cfg s))
       (cfg_max_bytes_for_level_multiplier (cfg s)) (cfg_bloom_bits_per_key (cfg s)) (cfg_build_delay_ms (cfg s))
       (cfg_zone_gc_min_invalid_ratio_permille (cfg s)) (cfg_zone_gc_free_low_watermark (cfg s))) s)).
Definition imr_lsm_debugfs_max_bytes_for_level_base_write (ubuf : option string) (count : Z) : kstate -> kstate * Z :=
  store_setting
    (checked (read_number kstrtoull ubuf count)
       (within_bounds IMR_LSM_MAX_BYTES_FOR_LEVEL_BASE_DEFAULT IMR_LSM_MAX_BYTES_FOR_LEVEL_BASE_MIN IMR_LSM_MAX_BYTES_FOR_LEVEL_BASE_MAX)) count
    (fun bytes s => resize_levels (set_cfg (MkConfig (cfg_compaction_threshold (cfg s)) bytes
       (cfg_max_bytes_for_level_multiplier (cfg s)) (cfg_bloom_bits_per_key (cfg s)) (cfg_build_delay_ms (cfg s))
       (cfg_zone_gc_min_invalid_ratio_permille (cfg s)) (cfg_zone_gc_free_low_watermark (cfg s))) s)).
Definition imr_lsm_debugfs_max_bytes_for_level_multiplier_write (ubuf : option string) (count : Z) : kstate -> kstate * Z :=
  store_setting
    (checked (read_number kstrtouint ubuf count)
       (within_bounds IMR_LSM_LEVEL_RATIO_DEFAULT IMR_LSM_LEVEL_RATIO_MIN IMR_LSM_LEVEL_RATIO_MAX)) count
    (fun multiplier s => resize_levels (set_cfg (MkConfig (cfg_compaction_threshold (cfg s)) (cfg_max_bytes_for_level_base (cfg s))
       multiplier (cfg_bloom_bits_per_key (cfg s)) (cfg_build_delay_ms (cfg s))
       (cfg_zone_gc_min_invalid_ratio_permille (cfg s)) (cfg_zone_gc_free_low_watermark (cfg s))) s)).
Definition imr_lsm_debugfs_bloom_bits_per_key_write (ubuf : option string) (count : Z) : kstate -> kstate * Z :=
  store_setting
    (checked (read_number kstrtouint ubuf count)
       (within_bounds IMR_LSM_BLOOM_BITS_PER_KEY IMR_LSM_BLOOM_BITS_PER_KEY_MIN IMR_LSM_BLOOM_BITS_PER_KEY_MAX)) count
    (fun bits_per_key s => set_cfg (MkConfig (cfg_compaction_threshold (cfg s)) (cfg_max_bytes_for_level_base (cfg s))
       (cfg_max_bytes_for_level_multiplier (cfg s)) bits_per_key (cfg_build_delay_ms (cfg s))
       (cfg_zone_gc_min_invalid_ratio_permille (cfg s)) (cfg_zone_gc_free_low_watermark (cfg s))) s).
Definition imr_lsm_debugfs_level_compaction_build_delay_ms_write (ubuf : option string) (count : Z) : kstate -> kstate * Z :=
  store_setting
    (checked (read_number kstrtouint ubuf count)
       (fun delay_ms => if delay_ms >? IMR_LSM_LEVEL_COMPACTION_BUILD_DELAY_MS_MAX then Fail (- EINVAL) else Ok delay_ms)) count
    (fun delay_ms s => set_cfg (MkConfig (cfg_compaction_threshold (cfg s)) (cfg_max_bytes_for_level_base (cfg s))
       (cfg_max_bytes_for_level_multiplier (cfg s)) (cfg_bloom_bits_per_key (cfg s)) delay_ms
       (cfg_zone_gc_min_invalid_ratio_permille (cfg s)) (cfg_zone_gc_free_low_watermark (cfg s))) s).

(** ** Policy of the garbage collection *)

Definition imr_lsm_debugfs_zone_gc_policy_write (ubuf : option string) (count : Z) (knob : imr_lsm_zone_gc_policy_knob) : kstate -> kstate * Z :=
  let high := match knob with
              | IMR_LSM_ZONE_GC_POLICY_MIN_INVALID_RATIO => IMR_LSM_ZONE_GC_MIN_INVALID_RATIO_PERMILLE_MAX
              | IMR_LSM_ZONE_GC_POLICY_FREE_LOW_WATERMARK => IMR_LSM_ZONE_GC_FREE_LOW_WATERMARK_MAX
              end in
  store_setting
    (checked (read_number kstrtouint ubuf count) (fun value => if value >? high then Fail (- EINVAL) else Ok value)) count
    (fun value s =>
       let s := ensure_initialized s in
       let '(ratio, watermark) := match knob with
                                  | IMR_LSM_ZONE_GC_POLICY_MIN_INVALID_RATIO => (value, cfg_zone_gc_free_low_watermark (cfg s))
                                  | IMR_LSM_ZONE_GC_POLICY_FREE_LOW_WATERMARK => (cfg_zone_gc_min_invalid_ratio_permille (cfg s), value)
                                  end in
       let s := set_cfg (MkConfig (cfg_compaction_threshold (cfg s)) (cfg_max_bytes_for_level_base (cfg s))
                  (cfg_max_bytes_for_level_multiplier (cfg s)) (cfg_bloom_bits_per_key (cfg s)) (cfg_build_delay_ms (cfg s)) ratio watermark) s in
       defer_candidate (imr_lsm_record_zone_compaction_candidate_locked s)).

Definition imr_lsm_debugfs_zone_compaction_auto_run_write (ubuf : option string) (count : Z) : kstate -> kstate * Z :=
  store_setting
    (checked (read_number kstrtouint ubuf count) (fun enabled => if enabled >? 1 then Fail (- EINVAL) else Ok enabled)) count
    (fun enabled s =>
       let s := upd_meta (set_zone_compaction_auto_run (negb (enabled =? 0))) (ensure_initialized s) in
       if enabled =? 0 then imr_lsm_clear_zone_compaction_auto_pending_locked IMR_LSM_ZONE_COMPACTION_NONE s
       else defer_candidate (imr_lsm_record_zone_compaction_candidate_locked s)).

(** ** Commands *)

(** [None] while the handler waits for a zone copy. *)
Definition imr_lsm_debugfs_delete_key_write (ubuf : option string) (count : Z) (s : kstate) : option (kstate * Z) :=
  match read_number kstrtoull ubuf count with
  | Fail e => Some (s, e)
  | Ok key =>
      match imrsim_lsm_delete_key key s with
      | None => None
      | Some (s, ret) => Some (s, if ret <? 0 then ret else count)
      end
  end.

Definition imr_lsm_debugfs_compact_write (ubuf : option string) (count : Z) (s : kstate) : kstate * Z :=
  match read_number kstrtouint ubuf count with
  | Fail e => (s, e)
  | Ok level =>
      if level >=? IMR_LSM_LEVELS then (s, - EINVAL)
      else let '(s, _, ret) := imr_lsm_execute_level_compaction false level s in (s, if negb (ret =? 0) then ret else count)
  end.

(** A command on a ready target and its device. *)
Definition run_command (command : kstate -> device -> kstate * device * Z) (count : Z) (s : kstate) (d : device) : kstate * device * Z :=
  if negb (imrsim_target_ready_locked s) then (s, d, - ENODEV)
  else let '(s, d, ret) := command (ensure_initialized s) d in (s, d, if negb (ret =? 0) then ret else count).

Definition imr_lsm_debugfs_compact_segment_write (ubuf : option string) (count : Z) (s : kstate) (d : device) : kstate * device * Z :=
  match read_number kstrtouint ubuf count with
  | Fail e => (s, d, e)
  | Ok run => if run =? 0 then (s, d, - EINVAL) else run_command imr_lsm_compact_selected_segment_locked count s d
  end.

(** Without other operations between the phases of the collection. *)
Definition imr_lsm_debugfs_compact_zone_write (ubuf : option string) (count : Z) (s : kstate) (d : device) : kstate * device * Z :=
  match read_number kstrtouint ubuf count with
  | Fail e => (s, d, e)
  | Ok zone_idx => let '(s, d, ret) := imr_lsm_compact_zone zone_idx s d in (s, d, if negb (ret =? 0) then ret else count)
  end.

Definition imr_lsm_debugfs_seed_full_zone_write (ubuf : option string) (count : Z) (s : kstate) : kstate * Z :=
  match read_number kstrtouint ubuf count with
  | Fail e => (s, e)
  | Ok zone_idx =>
      if negb (imrsim_target_ready_locked s) then (s, - ENODEV)
      else
        let '(s, ret) := imr_lsm_seed_full_zone_locked zone_idx (ensure_initialized s) in
        if negb (ret =? 0) then (s, ret) else ((imr_lsm_defer_zone_compaction_auto_run_locked zone_idx s).1, count)
  end.

Definition imr_lsm_debugfs_commit_output_write (ubuf : option string) (count : Z) (s : kstate) (d : device) : kstate * device * Z :=
  match read_number kstrtouint ubuf count with
  | Fail e => (s, d, e)
  | Ok run => if (run =? 0) || (run >? 3) then (s, d, - EINVAL) else run_command (imr_lsm_commit_output_locked run) count s d
  end.
End controls.
