(* ===== verification/ImrDebugfsSpec.v ===== *)
(** The settings of debugfs: a write is rejected without effect or stores its
    value, the settings stay within their bounds, and the disk keeps its sectors. *)

From Stdlib Require Import String.
From S2P Require Import Prelude StdMap ImrPrelude ImrGeometry ImrBloom ImrState ImrReadTree ImrLevels ImrSegment ImrPlacement ImrAccounting ImrCore ImrLsm ImrLsmInv ImrLsmOps ImrCompaction ImrPhases ImrSystem ImrTheorems ImrZones ImrGc ImrTarget ImrPersist ImrKapi ImrIo ImrLayout ImrZoneFrame ImrZoneInv ImrZoneOps ImrCold ImrDisk ImrDiskData ImrDiskInv ImrDiskTheorems ImrOutput ImrDebugfs.

Local Open Scope Z_scope.

(** ** The settings *)




Section settings.
Context (kstrtouint kstrtoull : string -> cres Z).
(** The kernel's parsers give an unsigned number or a negative error. *)
Hypothesis (Huint : forall b, match kstrtouint b with Ok v => 0 <= v < 2 ^ 32 | Fail e => e < 0 end).
Hypothesis (Hull : forall b, match kstrtoull b with Ok v => 0 <= v < 2 ^ 64 | Fail e => e < 0 end).







End settings.

(** ** What a store keeps *)



Section stores.
Context {here : site} (H : newest_map) (A : cells) (s : kstate) (d : device) (fl : list flight) (n : nat).

End stores.

(** ** Theorem *)

Section theorem.
Context (kstrtouint kstrtoull : string -> cres Z).
Hypothesis (Huint : forall b, match kstrtouint b with Ok v => 0 <= v < 2 ^ 32 | Fail e => e < 0 end).
Hypothesis (Hull : forall b, match kstrtoull b with Ok v => 0 <= v < 2 ^ 64 | Fail e => e < 0 end).
Context {here : site} (H : newest_map) (A : cells) (d : device) (fl : list flight) (n : nat).

End theorem.



