(* ===== verification/ImrKapiSpec.v ===== *)
(** What the commands of the target's ioctl do to the disk: most of them only
    change the configuration and the statistics, and a reset of the zones empties
    it. *)

From S2P Require Import Prelude StdMap ImrPrelude ImrGeometry ImrBloom ImrState ImrReadTree ImrLevels ImrSegment ImrPlacement ImrAccounting ImrCore ImrLsm ImrLsmInv ImrLsmOps ImrCompaction ImrBuild ImrPlan ImrPublish ImrPhases ImrSystem ImrTheorems ImrZones ImrGc ImrTarget ImrImage ImrPersist ImrKapi ImrImageSpec ImrIo ImrLayout ImrZoneFrame ImrZoneInv ImrZoneOps ImrGcPlan ImrGcSpec ImrGcPublish ImrCold ImrDisk ImrDiskData ImrDiskInv ImrPersistSpec ImrFlush ImrDiskIo ImrDiskPartial ImrDiskSteps ImrDiskTheorems.

Create HintDb tuned.

(** ** Commands that leave the zones alone *)

(** The configuration, the idle times, the statistics and the queue of the
    persistence thread may change, and memory may be allocated. *)
Record tuned (t t' : target) : Prop := {
  tu_state : exists h, hp_next (hp (tg_state t)) <= hp_next h /\ quiet (set_hp h (tg_state t)) (tg_state t');
  tu_header : tg_header t' = tg_header t;
  tu_stats : stats_num_zones t' = stats_num_zones t;
  tu_globals : pstore_lba t' = pstore_lba t /\ IMR_CAPACITY t' = IMR_CAPACITY t /\ IMR_NUMZONES_DEFAULT t' = IMR_NUMZONES_DEFAULT t /\
    imrsim_persistence_capacity_bytes t' = imrsim_persistence_capacity_bytes t;
}.

Lemma quiet_set_hp h s s' : quiet s s' -> quiet (set_hp h s) (set_hp h s').
Proof. intros [Q1 Q2]. split; [exact (f_equal (set_hp h) Q1)|exact Q2]. Qed.
Lemma quiet_hp s s' : quiet s s' -> hp s' = hp s.
Proof. intros Q. exact (f_equal hp (q_lsm _ _ Q)). Qed.
Lemma set_hp_id s : set_hp (hp s) s = s.
Proof. by destruct s. Qed.

#[export] Instance tuned_refl : Reflexive tuned.
Proof. intros t. split; try done. exists (hp (tg_state t)). split; [lia|]. by rewrite set_hp_id. Qed.
#[export] Instance tuned_trans : Transitive tuned.
Proof.
  intros t1 t2 t3 [(h & Hh & Q) A2 A3 (A4 & A5 & A6 & A7)] [(h' & Hh' & Q') B2 B3 (B4 & B5 & B6 & B7)]. split; [|congruence|congruence|by rewrite B4, B5, B6, B7].
  exists h'. pose proof (quiet_hp _ _ Q) as E. cbn in E. rewrite E in Hh'. split; [lia|]. etransitivity; [|exact Q']. exact (quiet_set_hp h' _ _ Q).
Qed.

Lemma tuned_quiet t s' : quiet (tg_state t) s' -> tuned t (set_tg_state s' t).
Proof. intros Q. split; try done. exists (hp (tg_state t)). split; [lia|]. by rewrite set_hp_id. Qed.
Lemma tuned_heap t s a : st_alloc (tg_state t) = (s, a) -> tuned t (set_tg_state s t).
Proof.
  intros E. destruct (st_alloc_healthy (tg_state t)) as (h & a' & E' & Hh & _). rewrite E in E'. injection E' as -> ->. split; try done. by exists h.
Qed.
Lemma tuned_config c t : tuned t (set_tg_config c t).
Proof. destruct (tuned_refl t) as [T1 T2 T3 T4]. by split. Qed.
Lemma tuned_idle max min t : tuned t (set_idle_times max min t).
Proof. destruct (tuned_refl t) as [T1 T2 T3 T4]. by split. Qed.

Lemma tuned_changing t k : tuned t k.1 -> tuned t (changing t k).1.
Proof. unfold changing, when_ready. by destruct (negb _). Qed.
Lemma tuned_set_config f t : tuned t (set_config f t).1.
Proof. apply tuned_changing. etransitivity; [apply (tuned_config (f (tg_config t)))|]. by apply tuned_quiet. Qed.
Lemma tuned_rdelay c t : tuned t (imrsim_set_device_rconfig_delay c t).1.
Proof. unfold imrsim_set_device_rconfig_delay. destruct (_ >=? _); [done|apply tuned_set_config]. Qed.
Lemma tuned_wdelay c t : tuned t (imrsim_set_device_wconfig_delay c t).1.
Proof. unfold imrsim_set_device_wconfig_delay. destruct (_ >=? _); [done|apply tuned_set_config]. Qed.
Lemma tuned_reset_stats t : tuned t (imrsim_reset_stats t).1.
Proof. apply tuned_changing. etransitivity; [apply (tuned_idle 0 0)|]. by apply tuned_quiet. Qed.
Lemma tuned_reset_zone_stats lba t : tuned t (imrsim_reset_zone_stats lba t).1.
Proof. apply tuned_changing. destruct (_ <=? _); [done|]. by apply tuned_quiet. Qed.
Lemma tuned_idle_update dt t : tuned t (imrsim_dev_idle_update dt t).
Proof. unfold imrsim_dev_idle_update. destruct (_ >? _); [apply tuned_idle|]. destruct (_ && _); [apply tuned_idle|done]. Qed.
(** What every command starts with. *)
Definition checked_in (dt : Z) (t : target) : target := on_state stats_changed (imrsim_dev_idle_update dt t).
Lemma tuned_checked_in dt t : tuned t (checked_in dt t).
Proof. etransitivity; [apply (tuned_idle_update dt)|]. by apply tuned_quiet. Qed.
#[export] Hint Resolve tuned_refl tuned_rdelay tuned_wdelay tuned_set_config tuned_reset_stats tuned_reset_zone_stats : tuned.

(** ** A new zone state *)

(** [n] zones as initialised, and no LSM. *)
Record renewed (n : Z) (t t' : target) : Prop := {
  rn_zones : zones (tg_state t') = Some (map default_zone (zone_ids (tg_state t')));
  rn_num : IMR_NUMZONES (tg_state t') = n;
  rn_alloc : active_zone (alloc (tg_state t')) = IMR_LSM_ZONE_COMPACTION_NONE;
  rn_inflight : append_writes_inflight (tg_state t') = 0;
  rn_meta : initialized (meta (tg_state t')) = false /\ timestamp (meta (tg_state t')) = 0;
  rn_env : cfg (tg_state t') = cfg (tg_state t) /\ output_bdev_start (tg_state t') = output_bdev_start (tg_state t);
  rn_copy : copy_source (tg_state t') = copy_source (tg_state t) /\ copy_dest (tg_state t') = copy_dest (tg_state t);
  rn_header : tg_header t' = MkHeader STATE_MAGIC (state_length n) VERSION 0;
  rn_stats : stats_num_zones t' = n;
  rn_globals : pstore_lba t' = pstore_lba t /\ IMR_CAPACITY t' = IMR_CAPACITY t /\ IMR_NUMZONES_DEFAULT t' = IMR_NUMZONES_DEFAULT t;
  rn_ready : imrsim_target_ready_locked (tg_state t') = imrsim_target_ready_locked (tg_state t);
}.

Lemma replace_spec n t t' r : 0 <= n <= 7759 -> imrsim_target_ready_locked (tg_state t) = true -> replace_state n t = (t', r) ->
  r <> 0 /\ tuned t t' \/ r = 0 /\ renewed n t t'.
Proof.
  intros Hn Hr. unfold replace_state. rewrite state_size by lia. replace (n <=? 7759) with true by lia. fold (state_length n). destruct (_ >? _); [intros [= <- <-]; by left|].
  destruct (st_alloc (tg_state t)) as [s a] eqn:Ea. pose proof (tuned_heap _ _ _ Ea) as Ht. destruct (st_alloc_healthy (tg_state t)) as (h & a' & E' & _ & _). rewrite Ea in E'. injection E' as -> ->.
  destruct a'; [|intros [= <- <-]; by left]. intros [= <- <-]. right. split; [done|].
  cbn [on_state set_tg_state tg_state]. rewrite release_eq. split; try done. rewrite Hr. unfold imrsim_target_ready_locked in *. cbn in *. by destruct (zones (tg_state t)), (target_active (tg_state t)).
Qed.

(** The commands that replace the zone state, and those that delete blocks. *)
Definition resets (cmd : ioctl_cmd) : bool :=
  match cmd with IOCTL_IMRSIM_SET_SIZZONEDEFAULT _ | IOCTL_IMRSIM_RESET_DEFAULTCONFIG | IOCTL_IMRSIM_RESET_ZONECONFIG => true | _ => false end.
Definition deletes (cmd : ioctl_cmd) : bool :=
  match cmd with IOCTL_IMRSIM_LSM_DELETE_KEY _ | BLKDISCARD _ _ => true | _ => false end.

Lemma ioctl_do_tuned t0 t k t' ret reply : tuned t0 t -> tuned t k.1 -> ioctl_do k = (t', ret, reply) -> tuned t0 t'.
Proof. intros H1 H2 [= <- <- <-]. by etransitivity. Qed.
Lemma ioctl_get_same {A} t copied (r : cres A) reply t' ret rep : ioctl_get t copied r reply = (t', ret, rep) -> t' = t.
Proof. unfold ioctl_get. destruct r; [destruct copied|]; by intros [= <- _ _]. Qed.

Lemma tuned_query lba criteria num copied t t' ret reply : ioctl_query lba criteria num copied t = (t', ret, reply) -> tuned t t'.
Proof.
  unfold ioctl_query. destruct (st_alloc (tg_state t)) as [s1 a1] eqn:E1. pose proof (tuned_heap _ _ _ E1) as T1. destruct a1; [|by intros [= <- _ _]].
  destruct (_ || _); [by intros [= <- _ _]|]. destruct (st_alloc s1) as [s2 a2] eqn:E2. pose proof (tuned_heap (set_tg_state s1 t) _ _ E2) as T2.
  destruct a2; [destruct (imrsim_query_zones _ _ _ _)|]; intros [= <- _ _]; by etransitivity.
Qed.
Lemma tuned_get_stats copied t t' ret reply : ioctl_get_stats copied t = (t', ret, reply) -> tuned t t'.
Proof.
  unfold ioctl_get_stats. destruct (st_alloc (tg_state t)) as [s1 a1] eqn:E1. pose proof (tuned_heap _ _ _ E1) as T1. destruct a1; [|by intros [= <- _ _]].
  destruct (imrsim_get_stats _) as [[[[max min] m] w]|]; [destruct copied|]; by intros [= <- _ _].
Qed.

Lemma ioctl_tuned dt cmd copied t t' ret reply : resets cmd = false -> deletes cmd = false -> imrsim_ioctl dt cmd copied t = Some (t', ret, reply) -> tuned t t'.
Proof.
  intros Hr Hx. unfold imrsim_ioctl. destruct (negb _); [by intros [= <- <- <-]|]. fold (checked_in dt t). pose proof (tuned_checked_in dt t) as H0. set (t1 := checked_in dt t) in *. clearbody t1. cbv zeta.
  assert (forall k, tuned t1 k.1 -> Some (if copied then ioctl_do k else (t1, - EFAULT, NoReply)) = Some (t', ret, reply) -> tuned t t') as Hin.
  { intros k Hk. destruct copied; [intros E%(inj Some); by apply (ioctl_do_tuned t t1 k t' ret reply)|by intros [= <- _ _]]. }
  assert (forall k, tuned t1 k.1 -> Some (ioctl_do k) = Some (t', ret, reply) -> tuned t t') as Hdo by (intros k Hk E%(inj Some); by apply (ioctl_do_tuned t t1 k t' ret reply)).
  destruct cmd; try done; try (apply Hin; auto with tuned; done); try (apply Hdo; unfold imrsim_reset_default_device_config; auto with tuned; done);
    try (intros E%(inj Some); apply ioctl_get_same in E as ->; done).
  - intros E%(inj Some). etransitivity; [exact H0|]. by eapply tuned_query.
  - intros E%(inj Some). etransitivity; [exact H0|]. by eapply tuned_get_stats.
Qed.

(** A target of [len] sectors in [n] zones is reset to these zones. *)
Lemma changing_cases t k t' r : changing t k = (t', r) -> imrsim_target_ready_locked (tg_state t) = true /\ k = (t', r) \/ r <> 0 /\ t' = t.
Proof. unfold changing, when_ready. destruct (imrsim_target_ready_locked _); cbn; [intros ->; by left|intros [= <- <-]; by right]. Qed.

Section reset.
Context (n : Z) (t : target).
Hypothesis (Hn : 1 <= n <= 7759) (Hdef : IMR_NUMZONES_DEFAULT t = n) (Hcap : IMR_CAPACITY t = n * num_sectors_zone).

Definition reset_result (t' : target) (r : Z) : Prop := r <> 0 /\ tuned t t' \/ r = 0 /\ exists t1, renewed n t t1 /\ tuned t1 t' /\ imrsim_target_ready_locked (tg_state t') = true.

Lemma reset_zones_spec t' r : imrsim_reset_default_zone_config t = (t', r) -> reset_result t' r.
Proof.
  intros E. apply changing_cases in E as [[Hr E]|[? ->]]; [|by left]. rewrite Hdef in E. apply replace_spec in E as [?|[? ?]]; [by left|right|lia|done]. split; [done|]. exists t'. split_and!; [done|done|]. by rewrite (rn_ready _ _ _ ltac:(eassumption)).
Qed.
Lemma resize_spec size t' r : imrsim_set_size_zone_default size t = (t', r) -> reset_result t' r.
Proof.
  unfold imrsim_set_size_zone_default. destruct (_ || _) eqn:E1; [intros [= <- <-]; by left|]. destruct (negb (_ =? TOTAL_ITEMS)) eqn:E2; [intros [= <- <-]; by left|].
  assert (size = 524288) as ->.
  { unfold IMR_BLOCK_SIZE_SHIFT in *. rewrite Z.shiftr_div_pow2 in E2 by lia. change TOTAL_ITEMS with 65536 in E2. change (Z.shiftl 1 3) with 8 in E1. change (2 ^ 3) with 8 in E2.
    apply orb_false_iff in E1 as [E1 _]. Z.to_euclidean_division_equations; lia. }
  intros E. apply changing_cases in E as [[Hr E]|[? ->]]; [|by left]. rewrite Hcap in E. change num_sectors_zone with 524288 in E. rewrite Z.div_mul in E by lia.
  clear E1 E2. destruct (_ || _); [injection E as <- <-; by left|]. destruct (_ || _); [injection E as <- <-; by left|].
  apply replace_spec in E as [?|[? ?]]; [by left|right|lia|done]. split; [done|]. exists t'. split_and!; [done|done|]. by rewrite (rn_ready _ _ _ ltac:(eassumption)).
Qed.
Lemma reset_all_spec t' r : imrsim_reset_default_config t = (t', r) -> reset_result t' r.
Proof.
  unfold imrsim_reset_default_config. destruct (imrsim_reset_default_zone_config t) as [t1 r1] eqn:E1. apply reset_zones_spec in E1. destruct (negb (r1 =? 0)) eqn:Er; [by intros [= <- <-]|].
  destruct E1 as [[? _]|[_ (t2 & Hrn & Ht & Hrd)]]; [lia|]. pose proof (tuned_set_config (fun _ => default_dev_config) t1) as Hs. unfold imrsim_reset_default_device_config.
  intros E. rewrite E in Hs. unfold set_config, changing, when_ready in E. rewrite Hrd in E. cbn [negb] in E. injection E as <- <-. right. split; [done|].
  exists t2. split_and!; [done|by etransitivity|exact Hrd].
Qed.
End reset.

Lemma ioctl_reset_spec n dt cmd copied t t' ret reply : resets cmd = true -> 1 <= n <= 7759 -> IMR_NUMZONES_DEFAULT t = n -> IMR_CAPACITY t = n * num_sectors_zone ->
  imrsim_ioctl dt cmd copied t = Some (t', ret, reply) ->
  ret <> 0 /\ tuned t t' \/ ret = 0 /\ exists t1 t2, tuned t t1 /\ renewed n t1 t2 /\ tuned t2 t'.
Proof.
  intros Hr Hn Hdef Hcap. unfold imrsim_ioctl. destruct (negb _); [intros [= <- <- <-]; by left|]. fold (checked_in dt t). pose proof (tuned_checked_in dt t) as H0.
  set (t1 := checked_in dt t) in *. clearbody t1. cbv zeta. destruct (tu_globals _ _ H0) as (_ & G1 & G2 & _). rewrite <- G1 in Hcap. rewrite <- G2 in Hdef.
  assert (forall k, reset_result n t1 k.1 k.2 -> ioctl_do k = (t', ret, reply) -> ret <> 0 /\ tuned t t' \/ ret = 0 /\ exists t1 t2, tuned t t1 /\ renewed n t1 t2 /\ tuned t2 t') as Hdo.
  { intros [t2 r] Hk [= <- <- _]. cbn [fst snd] in *. destruct Hk as [[Hr0 Ht]|[-> (t3 & Hrn & Ht & _)]].
    - left. replace (r =? 0) with false by lia. split; [done|by etransitivity].
    - right. split; [done|]. by exists t1, t3. }
  destruct cmd as [| | | |size| | | | | | | | | | |]; try done.
  - destruct copied; [intros E%(inj Some)|intros [= <- <- _]; left; split; [done|exact H0]]. revert E. apply Hdo. destruct (imrsim_set_size_zone_default size t1) as [t2 r] eqn:E. by apply (resize_spec n t1 Hn Hcap size).
  - intros E%(inj Some). revert E. apply Hdo. destruct (imrsim_reset_default_config t1) as [t2 r] eqn:E. by apply (reset_all_spec n t1 Hn Hdef).
  - intros E%(inj Some). revert E. apply Hdo. destruct (imrsim_reset_default_zone_config t1) as [t2 r] eqn:E. by apply (reset_zones_spec n t1 Hn Hdef).
Qed.

