(* ===== verification/ImrLife.v ===== *)
(** The life of a target: construction on an empty device or from what an earlier
    target saved, the steps of the disk interleaved with the persistence thread,
    and destruction. *)

From S2P Require Import Prelude StdMap ImrPrelude ImrGeometry ImrBloom ImrState ImrReadTree ImrLevels ImrSegment ImrPlacement ImrAccounting ImrCore ImrLsm ImrLsmInv ImrLsmOps ImrCompaction ImrBuild ImrPlan ImrPublish ImrPhases ImrSystem ImrTheorems ImrZones ImrGc ImrTarget ImrImage ImrPersist ImrKapi ImrImageSpec ImrIo ImrLayout ImrZoneFrame ImrZoneInv ImrZoneOps ImrGcPlan ImrGcSpec ImrGcPublish ImrCold ImrDisk ImrDiskData ImrDiskInv ImrPersistSpec ImrFlush ImrDiskIo ImrDiskPartial ImrDiskSteps ImrDiskTheorems ImrKapiSpec.

(** ** The system *)

(** The persistence thread: asleep, with a snapshot to write, or with the result
    of writing it. *)
Inductive persister := Asleep | Captured (sn : pstore_snapshot) | Flushed (sn : pstore_snapshot) (ret : Z).

Record life := MkLife {
  lf_target : target;
  lf_device : device;
  lf_flights : list flight;
  lf_next : nat;
  lf_worker : worker;
  lf_persister : persister;
}.
Definition life_disk (x : life) : disk := MkDisk (tg_state (lf_target x)) (lf_device x) (lf_flights x) (lf_next x) (lf_worker x).
Definition with_disk (y : disk) (x : life) : life :=
  MkLife (set_tg_state (dk_state y) (lf_target x)) (dk_device y) (dk_flights y) (dk_next y) (dk_worker y) (lf_persister x).

Section system.
Context (crc32 : list Z -> Z) (len : Z).

Definition policy_rflag (t : target) : bool := negb (out_of_policy_read_flag (tg_config t) =? 0).

(** What the user passes to a command fits its type, and what a command does to
    the sectors. *)
Definition ioctl_ok (cmd : ioctl_cmd) : Prop :=
  match cmd with
  | IOCTL_IMRSIM_LSM_DELETE_KEY key => 0 <= key < 2 ^ 64
  | BLKDISCARD offset length => 0 <= offset < 2 ^ 64 /\ 0 <= length < 2 ^ 64
  | _ => True
  end.
Definition ioctl_label (cmd : ioctl_cmd) (ret : Z) : label :=
  match cmd with
  | IOCTL_IMRSIM_LSM_DELETE_KEY key => Deleted key ret
  | BLKDISCARD offset length => Discarded (Z.shiftr offset 9) (Z.shiftr length 9) (ret =? 0)
  | _ => if resets cmd && (ret =? 0) then Discarded 0 len true else Silent
  end.

(** The commands that replace the zone state hold [imr_lsm_compaction_lock] and
    are issued when no append is in flight, for which they do not wait.
    A target is destroyed when no bio is in flight and its threads are stopped,
    and its successor is constructed from the same table line. *)
Inductive life_step : life -> list label -> life -> Prop :=
| life_run x tr y : disk_steps len (policy_rflag (lf_target x)) (life_disk x) tr y -> life_step x tr (with_disk y x)
| life_capture t d fl n w capacity t' r :
    imrsim_capture_persistence_snapshot_locked capacity t = (t', r) ->
    life_step (MkLife t d fl n w Asleep) [] (MkLife t' d fl n w match r with Some sn => Captured sn | None => Asleep end)
| life_flush t d fl n w sn s' d' ret :
    imrsim_write_persistence_snapshot crc32 sn (tg_state t) d = (s', d', ret) ->
    life_step (MkLife t d fl n w (Captured sn)) [] (MkLife (set_tg_state s' t) d' fl n w (Flushed sn ret))
| life_settle t d fl n w sn ret :
    life_step (MkLife t d fl n w (Flushed sn ret)) []
      (MkLife (if negb (ret =? 0) then set_tg_state (imrsim_restore_persistence_snapshot_locked sn (tg_state t)) t else t) d fl n w Asleep)
| life_ioctl t d fl n w p dt cmd copied t' ret reply :
    ioctl_ok cmd -> within (MkDisk (tg_state t) d fl n w) -> (resets cmd = true -> fl = [] /\ w = Compacting Idle) ->
    imrsim_ioctl dt cmd copied t = Some (t', ret, reply) ->
    life_step (MkLife t d fl n w p) [ioctl_label cmd ret] (MkLife t' d fl n w p)
| life_restart t d n a ts ds t1 d1 t2 d2 :
    imrsim_save_persistence crc32 t d = Some (ts, ds, 0) -> imrsim_dtr crc32 t d = (t1, d1) ->
    ca_len a = len -> imrsim_ctr crc32 a t1 d1 = Some (t2, d2, 0) ->
    life_step (MkLife t d [] n (Compacting Idle) Asleep) [] (MkLife t2 d2 [] n (Compacting Idle) Asleep).

Inductive life_steps : life -> list label -> life -> Prop :=
| life_steps_nil x : life_steps x [] x
| life_steps_cons x l y tr z : life_step x l y -> life_steps y tr z -> life_steps x (l ++ tr) z.
End system.

(** ** The area behind the target *)

Definition snapshot_of (p : persister) : option pstore_snapshot := match p with Asleep => None | Captured sn | Flushed sn _ => Some sn end.

Record life_inv (len : Z) (H : newest_map) (A : cells) (x : life) : Prop := {
  li_disk : @disk_inv (MkSite (len / 524288) 0) H A (life_disk x);
  li_image : image_ok (lf_target x);
  li_len : IMR_NUMZONES (tg_state (lf_target x)) * num_sectors_zone = len;
  li_lba : pstore_lba (lf_target x) = len;
  li_globals : IMR_CAPACITY (lf_target x) = len /\ IMR_NUMZONES_DEFAULT (lf_target x) = IMR_NUMZONES (tg_state (lf_target x));
  li_snapshot : forall sn, snapshot_of (lf_persister x) = Some sn -> pstore_lba (sn_state sn) = len /\ 0 <= stats_num_zones (sn_state sn);
}.

Section area.
Context {here : site}.
Context (H : newest_map) (A : cells) (s : kstate) (d : device) (fl : list flight) (n : nat) (w : worker).
Hypothesis (Hinv : disk_inv H A (MkDisk s d fl n w)) (Hstart : output_bdev_start s = 0).

(** What lies behind the zones does not matter to the disk. *)
Lemma inv_behind d' : dev_ok d' -> (forall a, a < IMR_NUMZONES s * num_sectors_zone -> dv_blocks d' a = dv_blocks d a) -> disk_inv H A (MkDisk s d' fl n w).
Proof.
  intros Hd Hb. pose proof Hinv as [I1 I2 I3 I4 I5 I6 I7 I8 I9 I10 I11]. dk. pose proof (lo_num _ _ (zk_layout _ I1)) as Hn.
  assert (forall i j, 0 <= i < IMR_NUMZONES s -> 0 <= j < TOTAL_ITEMS ->
    dv_blocks d' (loc (output_bdev_start s) (imr_lsm_zone_append_pba i j)) = dv_blocks d (loc (output_bdev_start s) (imr_lsm_zone_append_pba i j))) as Hloc.
  { intros i j Hi Hj. apply Hb. unfold loc. rewrite Hstart, append_pba_eq by (done || lia). change TOTAL_ITEMS with 65536 in Hj. change num_sectors_zone with 524288.
    pose proof (slot_block_range j Hj). rewrite u64_small by lia. lia. }
  split; dk; try done.
  - destruct I4 as [D1 D2 D3 D4 D5]. split; try done. intros q v Hq. specialize (D1 q v Hq). unfold shows in *. destruct (ly_fwd _ (q / 8)) as [p|] eqn:E; [|done].
    destruct (fwd_slot _ _ (zk_layout _ I1) _ _ E) as (i & j & Hi & _ & Hj & _ & -> & _). by rewrite Hloc.
  - apply (worker_device H s d); [done| |done]. intros z j _ Hz Hj. cbv zeta. by apply Hloc.
Qed.
End area.

(** ** Construction and destruction *)

Lemma quiet_first_candidate s : quiet s (first_candidate s).
Proof.
  unfold first_candidate. cbv zeta. etransitivity; [apply quiet_candidate|]. destruct (negb _); [apply quiet_defer|done].
Qed.

(** The length is a whole number of zones, and the image fits behind them. *)
Lemma check_size_spec a :
  match ctr_check_size a with
  | Ok capacity => exists n, ca_len a = n * num_sectors_zone /\ 2 <= n <= 7759 /\ imrsim_state_persistence_bytes (state_length n) <= capacity
  | Fail e => e < 0
  end.
Proof.
  unfold ctr_check_size. cbv zeta. unfold IMR_BLOCK_SIZE_SHIFT, IMR_ZONE_SIZE_SHIFT. rewrite !Z.shiftr_shiftr, !Z.shiftl_shiftl, Z.shiftr_div_pow2, !Z.shiftl_mul_pow2 by lia.
  change (2 ^ (3 + 16)) with 524288. change num_sectors_zone with 524288. set (n := ca_len a / 524288). unfold IMR_MAX_CAPACITY, U32_MAX.
  destruct (_ >? _) eqn:E1; [done|]. destruct (negb _) eqn:E2; [done|]. destruct (_ <? _) eqn:E3; [done|]. destruct (n >? _) eqn:E4; [done|].
  assert (ca_len a = n * 524288) as En by lia. assert (2 <= n <= 40960) as Hn by lia. rewrite u32_small, state_size by lia.
  destruct (n <=? 7759) eqn:E5; [|done]. fold (state_length n). destruct (_ || _) eqn:E6; [done|]. exists n. split_and!; [done|lia|lia|lia].
Qed.

Lemma inv_active {here : site} H A s d fl n v : disk_inv H A (MkDisk s d fl n (Compacting Idle)) -> disk_inv H A (MkDisk (set_target_active v s) d fl n (Compacting Idle)).
Proof.
  intros [I1 I2 I3 I4 I5 I6 I7 I8 I9 I10 I11]. dk. split; dk; try done.
  - destruct I1. by split.
  - revert I2. apply awake_frame; [done|done|]. intros []. by split.
Qed.

(** What remains of a construction when the zone state is there. *)
Lemma life_started len H A t d n :
  @disk_inv (MkSite (len / 524288) 0) H A (MkDisk (tg_state t) d [] n (Compacting Idle)) -> image_ok t ->
  IMR_NUMZONES (tg_state t) * num_sectors_zone = len -> pstore_lba t = len -> IMR_CAPACITY t = len /\ IMR_NUMZONES_DEFAULT t = IMR_NUMZONES (tg_state t) ->
  life_inv len H A (MkLife (set_tg_state (first_candidate (set_target_active true (tg_state t))) t) d [] n (Compacting Idle) Asleep).
Proof.
  intros Hinv [J1 J2 J3 J4 J5 J6] Hlen Hlba Hg. pose proof (quiet_first_candidate (set_target_active true (tg_state t))) as Q. pose proof (num_zhalf _ _ (q_zone _ _ Q)) as Qn.
  apply (inv_active _ _ _ _ _ _ true) in Hinv.
  split; cbn [lf_target life_disk lf_device lf_flights lf_next lf_worker lf_persister snapshot_of tg_header tg_state set_tg_state stats_num_zones]; rewrite ?Qn; try done.
  - by apply (inv_quiet _ _ _ _ _ _ _ Hinv).
  - split; cbn [tg_header tg_state set_tg_state stats_num_zones]; rewrite ?Qn; try done. apply (zones_ok_zhalf _ _ (q_zone _ _ Q)). destruct J6. by split.
Qed.

Section cycle.
Context (crc32 : list Z -> Z).

(** How a construction succeeds. *)
Lemma ctr_success a t d t2 d2 : imrsim_ctr crc32 a t d = Some (t2, d2, 0) ->
  exists h capacity t1, ctr_check_size a = Ok capacity /\
    let s0 := set_output_bdev (Some (ca_bdev a)) 0 (imr_lsm_reset_validation_overrides_locked (set_hp h (tg_state t))) in
    imrsim_persistence_thread crc32 (ca_len a) (ca_seconds a) (ca_kthread a) (set_persistence_capacity capacity (set_tg_state s0 t)) d = Some (t1, d2, 0) /\
    t2 = set_tg_state (first_candidate (set_target_active true (tg_state t1))) t1.
Proof.
  unfold imrsim_ctr. destruct (ca_start a) as [start|]; [|done]. destruct (_ || _) eqn:Eb; [done|]. assert (start = 0) as -> by lia. destruct (target_active _); [done|].
  destruct (st_alloc_healthy (tg_state t)) as (h & al & -> & _ & _). destruct al as [al|]; [|done]. destruct (negb (ca_get_device a =? 0)) eqn:Eg; [intros [= _ _ E]; lia|].
  pose proof (check_size_spec a) as Hc. destruct (ctr_check_size a) as [capacity|e]; [|intros [= _ _ ->]; lia]. destruct (negb (ca_max_io_len a =? 0)) eqn:Em; [intros [= _ _ E]; lia|].
  cbv zeta. destruct (imrsim_persistence_thread _ _ _ _ _ d) as [[[t1 d1] ret]|] eqn:Et; [|done]. destruct (negb (ret =? 0)) eqn:Er; [intros [= _ _ E]; lia|].
  assert (ret = 0) as -> by lia. intros [= <- <-]. exists h, capacity, t1. by split_and!.
Qed.

(** The thread is created after a load, or after a save of the initial state. *)
Lemma thread_success sizedev seconds kthread t d t2 d2 : imrsim_persistence_thread crc32 sizedev seconds kthread t d = Some (t2, d2, 0) ->
  let t0 := set_tg_state (set_ptask (MkPstore [] 0 0) (tg_state t)) t in
  imrsim_load_persistence crc32 sizedev seconds t0 d = (t2, d2, 0) \/
  exists t1 d1, imrsim_load_persistence crc32 sizedev seconds t0 d = (t1, d1, - EINVAL) /\ imrsim_save_persistence crc32 t1 d1 = Some (t2, d2, 0).
Proof.
  unfold imrsim_persistence_thread. cbv zeta. destruct (imrsim_load_persistence _ _ _ _ d) as [[t1 d1] ret]. destruct (Z.eqb_spec ret (- EINVAL)) as [->|Hne].
  - destruct (imrsim_save_persistence crc32 t1 d1) as [[[t3 d3] r]|] eqn:Es; [|done]. destruct (negb (r =? 0)) eqn:Er; [intros [= _ _ E]; lia|].
    assert (r = 0) as -> by lia. intros [= <- <- _]. right. by exists t1, d1.
  - destruct (negb (ret =? 0)) eqn:Er; [intros [= _ _ E]; lia|]. assert (ret = 0) as -> by lia. intros [= <- <- _]. by left.
Qed.

(** No target exists: the zone state is gone and the metadata is released. *)
Record module_idle (t : target) : Prop := {
  mi_zones : zones (tg_state t) = None;
  mi_unreserved : unreserved (tg_state t);
  mi_cold : initialized (meta (tg_state t)) = false;
  mi_clock : timestamp (meta (tg_state t)) = 0;
}.

Lemma dtr_idle t d ts ds ret : unreserved (tg_state t) -> imrsim_save_persistence crc32 t d = Some (ts, ds, ret) -> saved crc32 t d ts ds ret ->
  exists t1, imrsim_dtr crc32 t d = (t1, ds) /\ module_idle t1 /\ hp (tg_state t1) = hp (tg_state ts) /\ target_active (tg_state t1) = false.
Proof.
  intros Hu E [(c & h & _ & ->) _ _ _ _ _]. unfold imrsim_dtr. rewrite E. cbv zeta. rewrite release_eq. eexists. split; [reflexivity|]. by split_and!.
Qed.

Lemma default_threshold s : cfg s = default_config -> 1 <= imr_lsm_compaction_threshold_locked s <= U32_MAX.
Proof. intros E. rewrite (threshold_cfg (imr_lsm_reset_validation_overrides_locked s) s E). vm_compute. split; discriminate. Qed.
Lemma cold_awake s : initialized (meta s) = false -> timestamp (meta s) = 0 -> awake (fun _ => None) s.
Proof.
  intros Ec Et. destruct (ensure_cases s) as [[? _]|[_ E]]; [congruence|]. split; rewrite E.
  - rewrite <- initialize_eq. apply initialize_spec.
  - rewrite Et. apply init_meta_fields.
Qed.

(** The new target is the old disk. *)
Lemma reload_inv {here : site} H A t t1 t2 d d2 n :
  disk_inv H A (MkDisk (tg_state t) d [] n (Compacting Idle)) -> output_bdev_start (tg_state t) = 0 ->
  reloaded t t1 t2 -> module_idle t1 -> output_bdev_start (tg_state t1) = 0 -> cfg (tg_state t1) = default_config ->
  dev_ok d2 -> (forall a, a < IMR_NUMZONES (tg_state t) * num_sectors_zone -> dv_blocks d2 a = dv_blocks d a) ->
  disk_inv (fun _ => None) A (MkDisk (tg_state t2) d2 [] n (Compacting Idle)).
Proof.
  intros Hinv Hst [R1 R3 R4 R5 [R6 R7] [R8 R9] R10 R11 R12] [M1 M2 M3 M4] Hs1 Hc1 Hd2 Hb.
  pose proof (inv_behind _ _ _ _ _ _ _ Hinv Hst d2 Hd2 Hb) as [I1 I2 I3 I4 I5 I6 I7 I8 I9 I10 I11]. dk.
  assert (disk_data A (MkDisk (tg_state t2) d2 [] n (Compacting Idle)) (reserved (Compacting Idle))) as Hdata.
  { dk. rewrite R1, R8, Hs1. rewrite Hst in I4. by eapply data_layout. }
  split; dk.
  - apply R4.
  - apply cold_awake; cbn; congruence.
  - by intros k r.
  - exact Hdata.
  - exact R5.
  - done.
  - by split.
  - apply default_threshold. cbn. congruence.
  - cbn. rewrite R8, Hs1. lia.
  - done.
  - cbn. rewrite R1, R8, Hs1, <- Hst. exact I11.
Qed.

(** ** A restart *)

Hypothesis (crc32_range : forall l, 0 <= crc32 l < 2 ^ 32).

(** Every sector shows the same through another target. *)
Definition same_sectors (t t2 : target) (d d2 : device) : Prop :=
  forall q v, shows 0 (layout_of (tg_state t2)) (dv_blocks d2) q v <-> shows 0 (layout_of (tg_state t)) (dv_blocks d) q v.
Lemma reloaded_sectors t t2 d d2 : zones_ok (tg_state t) -> layout_eq (IMR_NUMZONES (tg_state t)) (layout_of (tg_state t)) (layout_of (tg_state t2)) ->
  (forall a, a < IMR_NUMZONES (tg_state t) * num_sectors_zone -> dv_blocks d2 a = dv_blocks d a) -> same_sectors t t2 d d2.
Proof.
  intros Hz Hl Hb q v. unfold shows. rewrite (le_fwd _ _ _ Hl). destruct (ly_fwd _ (q / 8)) as [p|] eqn:E; [|done].
  destruct (fwd_slot _ _ (zk_layout _ Hz) _ _ E) as (i & j & Hi & _ & Hj & _ & -> & _). pose proof (lo_num _ _ (zk_layout _ Hz)). rewrite Hb; [done|].
  unfold loc. rewrite append_pba_eq by (done || lia). change TOTAL_ITEMS with 65536 in Hj. change num_sectors_zone with 524288. pose proof (slot_block_range j Hj). rewrite u64_small by lia. lia.
Qed.

(** A target whose state is on the device is taken over by the next one. *)
Lemma takeover H A len t d ds n ts t1 a t2 d2 :
  life_inv len H A (MkLife t d [] n (Compacting Idle) Asleep) ->
  (exists c h, ts = set_crc c (set_tg_state (set_hp h (tg_state t)) t)) -> sealed crc32 ts -> has_image ts len (hd_length (tg_header t)) (dv_blocks ds) ->
  dev_ok ds -> (forall b, b < len -> dv_blocks ds b = dv_blocks d b) -> module_idle t1 ->
  ca_len a = len -> imrsim_ctr crc32 a t1 ds = Some (t2, d2, 0) ->
  life_inv len (fun _ => None) A (MkLife t2 d2 [] n (Compacting Idle) Asleep) /\ same_sectors t t2 d d2.
Proof.
  intros [L1 L2 L3 L4 L6 L5] (c & h & Ets) Hseal Himg Hds Hbelow Hidle Hlen Ectr. cbn [lf_target life_disk lf_device lf_flights lf_next lf_worker] in *.
  destruct (ctr_success a t1 ds t2 d2 Ectr) as (h1 & capacity & t3 & Ec & Eth & ->). pose proof (check_size_spec a) as Hc. rewrite Ec in Hc. destruct Hc as (m & Em & Hm & Hcap).
  assert (m = IMR_NUMZONES (tg_state t)) as -> by (change num_sectors_zone with 524288 in *; lia).
  pose proof (thread_success _ _ _ _ _ _ _ Eth) as Hth. cbv zeta in Hth. match type of Hth with context [imrsim_load_persistence _ _ _ ?x _] => set (t0 := x) in Hth end.
  assert (image_ok ts) as Hits by (rewrite Ets; by apply image_ok_saved). assert (IMR_NUMZONES (tg_state ts) = IMR_NUMZONES (tg_state t)) as En by (by rewrite Ets).
  assert (hd_length (tg_header ts) = hd_length (tg_header t)) as El by (by rewrite Ets). rewrite <- El in Himg.
  assert (ca_len a = IMR_NUMZONES (tg_state ts) * num_sectors_zone) as Hsz by (rewrite En; lia). rewrite <- Hlen in Himg. apply has_image_area in Himg.
  pose proof (load_spec crc32 crc32_range ts t0 (ca_len a) (ca_seconds a) ds Hits Hseal Hds Himg Hsz) as Hload. rewrite En in Hload.
  specialize (Hload Hcap (mi_zones _ Hidle) (mi_unreserved _ Hidle)).
  assert (forall t' d' r, imrsim_load_persistence crc32 (ca_len a) (ca_seconds a) t0 ds = (t', d', r) -> load_result ts t0 ds t' d' r) as Hres
    by (intros t' d' r E; by rewrite E in Hload).
  destruct Hth as [Eload|(t' & d' & Eload & Esave)]; apply Hres in Eload as [D1 D2 D3 D4].
  2: { destruct D3 as [[? _]|[_ Hz]]; [done|]. unfold imrsim_save_persistence in Esave. by rewrite Hz in Esave. }
  destruct D3 as [[_ Hrl]|[? _]]; [|lia]. assert (reloaded t t0 t3) as Hrl' by (rewrite Ets in Hrl; destruct Hrl; by split). clear Hrl.
  assert (@disk_inv (MkSite (len / 524288) 0) (fun _ => None) A (MkDisk (tg_state t3) d2 [] n (Compacting Idle))) as Hinv.
  { apply (reload_inv H A t t0 t3 d d2 n); [done|apply L1|done|destruct Hidle; by split|done|done|done|]. intros b Hb. rewrite D2. apply Hbelow. lia. }
  split; [apply life_started; [done|apply Hrl'| | |]|].
  - by rewrite (rl_num _ _ _ Hrl').
  - rewrite (rl_lba _ _ _ Hrl'). lia.
  - destruct (rl_globals _ _ _ Hrl') as [-> ->]. split; [lia|]. by rewrite (rl_num _ _ _ Hrl').
  - apply reloaded_sectors; [apply L1| |intros b Hb; rewrite D2; apply Hbelow; lia]. cbn [tg_state set_tg_state].
    rewrite (layout_of_zhalf _ _ (q_zone _ _ (quiet_first_candidate (set_target_active true (tg_state t3))))). exact (rl_layout _ _ _ Hrl').
Qed.

Lemma restart_inv H A len t d n ts ds t1 d1 a t2 d2 :
  life_inv len H A (MkLife t d [] n (Compacting Idle) Asleep) ->
  imrsim_save_persistence crc32 t d = Some (ts, ds, 0) -> imrsim_dtr crc32 t d = (t1, d1) -> ca_len a = len -> imrsim_ctr crc32 a t1 d1 = Some (t2, d2, 0) ->
  life_inv len (fun _ => None) A (MkLife t2 d2 [] n (Compacting Idle) Asleep) /\ same_sectors t t2 d d2.
Proof.
  intros Hinv Es Ed Ea Ec. pose proof Hinv as [L1 L2 L3 L4 L6 L5]. cbn in L2, L3, L4. destruct (save_spec crc32 t d L2 (di_dev _ _ _ L1)) as (t' & d' & r & Es' & Hs).
  rewrite Es in Es'. injection Es' as <- <- <-. destruct (dtr_idle t d ts ds 0 (proj2 (di_worker _ _ _ L1)) Es Hs) as (t1' & Ed' & Hidle & _). rewrite Ed in Ed'. injection Ed' as <- ->.
  destruct Hs as [(c & h & _ & Ets) S2 S3 S4 S5 S6]. destruct (S5 eq_refl) as [Hseal Himg]. rewrite L4 in S3, Himg. eapply (takeover H A len t d ds n ts t1 a t2 d2); try done. by exists c, h.
Qed.

(** ** A first target *)

Lemma init_target_spec len n seconds t t2 d : len = n * num_sectors_zone -> 1 <= n -> len <= IMR_MAX_CAPACITY -> module_ready (tg_state t) -> dev_ok d ->
  init_target len seconds t = (t2, 0) ->
  image_ok t2 /\ pstore_lba t2 = pstore_lba t /\ IMR_NUMZONES (tg_state t2) = n /\ (IMR_CAPACITY t2 = len /\ IMR_NUMZONES_DEFAULT t2 = n) /\
  @disk_inv (MkSite (len / 524288) (output_bdev_start (tg_state t))) (fun _ => None) (fun _ => Known 0) (MkDisk (tg_state t2) d [] 0 (Compacting Idle)).
Proof.
  intros Hlen Hn Hmax Hm Hd E. unfold init_target in E. change num_sectors_zone with 524288 in Hlen. replace (len =? 0) with false in E by lia.
  set (t' := init_zone_default len t) in E. destruct (imrsim_init_zone_state len (tg_state t')) as [s ret] eqn:Ei. cbv zeta in E. destruct (negb (ret =? 0)) eqn:Er; [injection E as _ E; lia|].
  assert (ret = 0) as -> by lia. assert (0 <= len <= IMR_MAX_CAPACITY) as Hr by lia. assert (module_ready (tg_state t')) as Hm' by (destruct Hm; by split).
  pose proof (fresh_inv len (tg_state t') s d Hr Ei Hm' Hd) as Hinv. destruct (init_spec len _ s Hr Ei) as (En & H7 & _).
  assert (IMR_NUMZONES s = n) as En' by (rewrite En, Hlen; apply Z.div_mul; lia).
  rewrite (state_size (IMR_NUMZONES s)) in E by lia. replace (_ <=? 7759) with true in E by lia. injection E as <-. split_and!; [|done|exact En'|done| |exact Hinv].
  2: { cbn. unfold IMR_BLOCK_SIZE_SHIFT, IMR_ZONE_SIZE_SHIFT. rewrite Z.shiftr_shiftr, Z.shiftr_div_pow2 by lia. change (2 ^ (3 + 16)) with 524288. rewrite Hlen, Z.div_mul by lia. apply u32_small. lia. }
  split; try done. 2: { exact (di_zones _ _ _ Hinv). } cbn. lia.
Qed.

Lemma init_target_set len seconds t t2 : init_target len seconds t = (t2, 0) ->
  (forall h, imrsim_target_ready_locked (set_target_active true (set_hp h (tg_state t2))) = true) /\ timestamp (meta (tg_state t2)) = 0.
Proof.
  intros E. unfold init_target, imrsim_init_zone_state in E. cbv zeta in E. set (t1 := if len =? 0 then t else _) in E. clearbody t1. destruct (len =? 0); [done|].
  destruct (imrsim_state_size_for_zones (IMR_NUMZONES (imrsim_init_zone_default len (tg_state t1)))) as [size|e] eqn:Es; [|by rewrite (state_size_error _ _ Es) in E].
  destruct (st_alloc _) as [s1 [al|]]; [|done]. injection E as <-. cbn [tg_state imrsim_dev_idle_init set_idle_times default_fields set_stats_num_zones set_tg_config set_tg_header set_tg_state].
  rewrite initialize_eq. split; [done|apply init_meta_fields].
Qed.

Lemma init_target_error sizedev seconds t t2 : sizedev <> 0 -> init_target sizedev seconds t <> (t2, - EINVAL).
Proof.
  intros Hsz E. unfold init_target, imrsim_init_zone_state in E. replace (sizedev =? 0) with false in E by lia. cbv zeta in E.
  destruct (imrsim_state_size_for_zones (IMR_NUMZONES (imrsim_init_zone_default sizedev _))) as [size|e] eqn:Es; [|by rewrite (state_size_error _ _ Es) in E].
  destruct (st_alloc _) as [s1 [al|]]; [|done]. cbn in E. by injection E.
Qed.

(** The header of a device that was never saved to. *)
Definition blank_header (page : block) : Prop := read_header (page_byte page) = MkHeader 0 0 0 0.

Lemma fresh_load sizedev seconds t d t2 d2 ret : imrsim_load_persistence crc32 sizedev seconds t d = (t2, d2, ret) -> ret = 0 \/ ret = - EINVAL ->
  dev_ok d -> zones (tg_state t) = None -> blank_header (dv_blocks d sizedev) -> sizedev <> 0 ->
  ret = - EINVAL /\ dev_ok d2 /\ dv_blocks d2 = dv_blocks d /\
  (zones (tg_state t2) = None \/
   exists h, init_target sizedev seconds (set_tg_state (set_hp h (imrsim_init_zone_default sizedev (tg_state t))) (set_pstore_lba sizedev (init_zone_default sizedev t))) = (t2, 0)).
Proof.
  intros E Hret Hd Hz Hb Hsz. unfold imrsim_load_persistence in E. cbv zeta in E. set (tl := set_pstore_lba sizedev (init_zone_default sizedev t)) in E.
  destruct (st_alloc_healthy (tg_state tl)) as (h & al & Ea & _ & _). rewrite Ea in E. destruct al as [al|]; [|injection E as _ _ <-; by destruct Hret].
  change (pstore_lba (set_tg_state (set_hp h (tg_state tl)) tl)) with sizedev in E.
  destruct (imrsim_read_page sizedev d) as [d1 [page|e]] eqn:Er; destruct (page_read _ _ _ _ Er Hd) as [R1 R2 R3 R4]; [|injection E as <- <- <-; split_and!; [lia|done|done|by left]].
  subst page. unfold blank_header in Hb. rewrite !Hb in E. cbn [hd_magic hd_version hd_length hd_crc32] in E. change (0 =? STATE_MAGIC) with false in E. change (0 =? 0) with true in E. cbn [andb orb] in E.
  cbv iota in E. destruct (init_target _ _ _) as [t3 r] eqn:Ei. injection E as <- <- E. destruct (negb (r =? 0)) eqn:Er0.
  - exfalso. subst r. destruct Hret as [?|Hret]; [lia|]. rewrite Hret in Ei. by apply init_target_error in Ei.
  - split_and!; [done|done|done|]. right. exists h. assert (r = 0) as -> by lia. exact Ei.
Qed.

Lemma fresh_ctr a t d t2 d2 : imrsim_ctr crc32 a t d = Some (t2, d2, 0) -> dev_ok d -> zones (tg_state t) = None -> unreserved (tg_state t) ->
  blank_header (dv_blocks d (ca_len a)) ->
  life_inv (ca_len a) (fun _ => None) (fun _ => Known 0) (MkLife t2 d2 [] 0 (Compacting Idle) Asleep) /\
  exists ts, IMR_NUMZONES (tg_state ts) = IMR_NUMZONES (tg_state t2) /\ has_image ts (ca_len a) (hd_length (tg_header t2)) (dv_blocks d2) /\ image_ok ts /\ sealed crc32 ts /\
    imrsim_target_ready_locked (tg_state t2) = true /\ timestamp (meta (tg_state t2)) = 0.
Proof.
  intros Ec Hd Hz Hu Hb. destruct (ctr_success a t d t2 d2 Ec) as (h & capacity & t3 & Es & Eth & ->). pose proof (check_size_spec a) as Hc. rewrite Es in Hc.
  destruct Hc as (n & En & Hn & _). assert (ca_len a <= IMR_MAX_CAPACITY) as Hmax by (unfold IMR_MAX_CAPACITY; change num_sectors_zone with 524288 in En; lia).
  assert (ca_len a <> 0) as H0 by (change num_sectors_zone with 524288 in En; lia).
  pose proof (thread_success _ _ _ _ _ _ _ Eth) as Hth. cbv zeta in Hth. match type of Hth with context [imrsim_load_persistence _ _ _ ?x _] => set (t0 := x) in Hth end.
  destruct Hth as [El|(t1 & d1 & El & Esave)]; [by apply fresh_load in El; try done; [destruct El|left]|].
  apply fresh_load in El as (_ & Hd1 & Eb1 & Hi); [|by right|done|done|done|done]. destruct Hi as [Hz1|(h2 & Ei)]; [unfold imrsim_save_persistence in Esave; by rewrite Hz1 in Esave|].
  set (tl := set_tg_state _ _) in Ei. assert (module_ready (tg_state tl)) as Hm by (split; [by apply default_threshold|cbn; lia|exact Hu]).
  destruct (init_target_spec (ca_len a) n (ca_seconds a) tl t1 d1 En ltac:(lia) Hmax Hm Hd1 Ei) as (Hi1 & Hlba & Hn1 & Hg & Hinv). change (pstore_lba tl) with (ca_len a) in Hlba.
  destruct (save_spec crc32 t1 d1 Hi1 Hd1) as (ts & ds & r & Es' & [(c & hs & Hhs & Ets) S2 S3 S4 S5 S6]). rewrite Esave in Es'. injection Es' as <- <- <-.
  change (output_bdev_start (tg_state tl)) with 0 in Hinv. split.
  2: { exists t3. split; [symmetry; apply (num_zhalf _ _ (q_zone _ _ (quiet_first_candidate (set_target_active true (tg_state t3)))))|]. rewrite Hlba in S5. subst t3. destruct (S5 eq_refl) as [S7 S8]. split_and!; [exact S8|by apply image_ok_saved|done| |].
    - etransitivity; [exact (half_ready _ _ (q_lsm _ _ (quiet_first_candidate _)))|]. exact (proj1 (init_target_set _ _ _ _ Ei) hs).
    - etransitivity; [exact (half_timestamp _ _ (q_lsm _ _ (quiet_first_candidate _)))|]. exact (proj2 (init_target_set _ _ _ _ Ei)). }
  apply life_started; [|subst t3; by apply image_ok_saved|subst t3; cbn; by rewrite Hn1|by subst t3|subst t3; cbn; by rewrite Hn1].
  subst t3. cbn [tg_state set_tg_state set_crc set_tg_header]. apply (inv_behind _ _ _ _ _ _ _ (inv_heap _ _ _ _ _ _ _ Hinv hs Hhs)).
  - apply (di_site _ _ _ Hinv).
  - done.
  - intros b Hb'. apply S3. rewrite Hlba. rewrite <- Hn1 in En. rewrite En. exact Hb'.
Qed.

(** ** Every step *)

Lemma image_ok_state t s : zones_ok s -> IMR_NUMZONES s = IMR_NUMZONES (tg_state t) -> image_ok t -> image_ok (set_tg_state s t).
Proof. intros Hz En [J1 J2 J3 J4 J5 J6]. split; cbn [tg_header tg_state set_tg_state stats_num_zones]; rewrite ?En; done. Qed.

(** The state changes, and no more of the target. *)
Lemma life_state len H A H' A' t d fl n w p s' d' fl' n' w' :
  life_inv len H A (MkLife t d fl n w p) -> @disk_inv (MkSite (len / 524288) 0) H' A' (MkDisk s' d' fl' n' w') ->
  life_inv len H' A' (MkLife (set_tg_state s' t) d' fl' n' w' p).
Proof.
  intros [L1 L2 L3 L4 L6 L5] Hinv. cbn in L2, L3, L4. destruct (di_site _ _ _ L1) as [E1 _]. destruct (di_site _ _ _ Hinv) as [E2 _]. cbn in E1, E2.
  split; cbn [lf_target life_disk lf_device lf_flights lf_next lf_worker lf_persister tg_state set_tg_state]; try done.
  - apply image_ok_state; [apply Hinv|congruence|done].
  - by rewrite E2, <- E1.
  - cbn in L6. destruct L6 as [L6 L7]. split; [exact L6|]. etransitivity; [exact L7|congruence].
Qed.

Lemma life_quiet len H A t d fl n w p p' s' :
  life_inv len H A (MkLife t d fl n w p) -> quiet (tg_state t) s' ->
  (forall sn, snapshot_of p' = Some sn -> pstore_lba (sn_state sn) = len /\ 0 <= stats_num_zones (sn_state sn)) ->
  life_inv len H A (MkLife (set_tg_state s' t) d fl n w p').
Proof.
  intros Hl Q Hp. pose proof Hl as [L1 _ _ _ _]. pose proof (inv_quiet _ _ _ _ _ _ _ L1 s' Q) as Hinv. by destruct (life_state len H A H A t d fl n w p s' d fl n w Hl Hinv).
Qed.

Lemma quiet_restore sn s : quiet s (imrsim_restore_persistence_snapshot_locked sn s).
Proof.
  unfold imrsim_restore_persistence_snapshot_locked. cbv zeta. etransitivity; [|match goal with |- quiet _ (if ?b then _ else ?s) => transitivity s; [|by destruct b] end]; [reflexivity|].
  set (s0 := set_ptask _ s). assert (quiet s s0) as Q by done. clearbody s0. generalize (sn_zone_idx sn) as l. intros l. revert s0 Q.
  induction l as [|i l IH]; intros s0 Q; [done|]. cbn [fold_left]. apply IH. etransitivity; [exact Q|apply quiet_queue].
Qed.

(** *** Commands *)

Lemma life_tuned len H A t d fl n w p t' : life_inv len H A (MkLife t d fl n w p) -> tuned t t' -> life_inv len H A (MkLife t' d fl n w p).
Proof.
  intros [L1 L2 L3 L4 L6 L5] [(h & Hh & Q) T2 T3 (T4 & T5 & T6 & _)]. pose proof (inv_quiet _ _ _ _ _ _ _ (inv_heap _ _ _ _ _ _ _ L1 h Hh) _ Q) as Hinv.
  pose proof (num_zhalf _ _ (q_zone _ _ Q)) as En. cbn in En, L3, L4, L6. split; cbn [lf_target life_disk lf_device lf_flights lf_next lf_worker lf_persister]; rewrite ?T4, ?T5, ?T6, ?En; try done.
  destruct L2 as [J1 J2 J3 J4 J5 J6]. cbn in *. split; rewrite ?T2, ?T3, ?En; try done. apply Hinv.
Qed.

Lemma fwd_beyond s q : q < 0 \/ IMR_NUMZONES s * num_sectors_zone <= q -> fwd s (q / 8) = None.
Proof.
  intros Hq. unfold fwd, total_keys. change TOTAL_ITEMS with 65536. change num_sectors_zone with 524288 in Hq. replace (_ && _) with false; [done|].
  symmetry. apply andb_false_iff. Z.to_euclidean_division_equations; lia.
Qed.

(** New zones empty the disk. *)
Lemma life_renewed len H A t d n p t' : life_inv len H A (MkLife t d [] n (Compacting Idle) p) -> renewed (IMR_NUMZONES (tg_state t)) t t' ->
  life_inv len (fun _ => None) (write_cells A 0 (replicate (Z.to_nat len) (Known 0))) (MkLife t' d [] n (Compacting Idle) p).
Proof.
  intros [L1 L2 L3 L4 L6 L5] [R1 R2 R3 R4 [R5 R6] [R7 R8] [R9 R10] R11 R12 (R13 & R14 & R15) _]. cbn in L3, L4, L6. pose proof (im_num _ L2) as Hn. cbn in Hn.
  assert (@disk_inv (MkSite (len / 524288) 0) (fun _ => None) (write_cells A 0 (replicate (Z.to_nat len) (Known 0))) (MkDisk (tg_state t') d [] n (Compacting Idle))) as Hinv.
  { apply unmapped_inv; try done; [by rewrite R2; lia| |by apply cold_awake| |apply L1|rewrite R2, R8; exact (di_site _ _ _ L1)].
    - intros q. unfold write_cells. rewrite Z.sub_0_r, nthZ_replicate. destruct (_ && _) eqn:Eq; [by left|].
      destruct (A q) as [v|id v|] eqn:EA; [left|exfalso|by right].
      + pose proof (do_known _ _ _ _ _ _ _ _ (di_data _ _ _ L1) q v EA) as Hs. unfold shows in Hs. cbn [ly_fwd layout_of] in Hs.
        change (dk_state (life_disk _)) with (tg_state t) in Hs. rewrite fwd_beyond in Hs by lia. congruence.
      + by destruct (do_pending _ _ _ _ _ _ _ _ (di_data _ _ _ L1) q id v EA) as (f & ? & ?%elem_of_nil & _).
    - split; [rewrite (threshold_cfg (tg_state t) _ R7); apply (di_threshold _ _ _ L1)|rewrite R8; apply (di_start _ _ _ L1)|]. destruct (proj2 (di_worker _ _ _ L1)). unfold unreserved. by rewrite R9, R10. }
  split; cbn [lf_target life_disk lf_device lf_flights lf_next lf_worker lf_persister]; rewrite ?R2, ?R13, ?R14, ?R15; try done.
  split; rewrite ?R11, ?R2; try done. apply Hinv.
Qed.

(** A command that fails before it deletes anything. *)
Lemma life_refused len H A t d fl n w p cmd : deletes cmd = true -> life_inv len H A (MkLife t d fl n w p) -> ioctl_ok cmd ->
  exists H' A', permitted A (ioctl_label len cmd (- EFAULT)) A' /\ life_inv len H' A' (MkLife t d fl n w p).
Proof.
  intros Hd Hl Hok. destruct cmd as [key|offset length| | | | | | | | | | | | | |]; try done; cbn [ioctl_label].
  - exists H, A. split; [by constructor|done].
  - exists H. eexists. split; [apply (permit_discard_stopped A _ _ 0); destruct Hok; rewrite Z.shiftr_div_pow2 by lia; split; [lia|apply Z.div_pos; lia]|].
    destruct Hl as [L1 L2 L3 L4 L6 L5]. split; try done. eapply inv_ext; [|exact L1]. intros q. apply write_none.
Qed.

Lemma life_delete_ok len H A t d fl n w p dt cmd copied t' ret reply :
  deletes cmd = true -> life_inv len H A (MkLife t d fl n w p) -> ioctl_ok cmd -> timestamp (meta (tg_state t)) < 2 ^ 31 ->
  imrsim_ioctl dt cmd copied t = Some (t', ret, reply) ->
  exists H' A', permitted A (ioctl_label len cmd ret) A' /\ life_inv len H' A' (MkLife t' d fl n w p).
Proof.
  intros Ed Hl Hok Hts E. unfold imrsim_ioctl in E. fold (checked_in dt t) in E. pose proof (tuned_checked_in dt t) as T. pose proof (life_tuned _ _ _ _ _ _ _ _ _ _ Hl T) as Hl1.
  assert (timestamp (meta (tg_state (checked_in dt t))) < 2 ^ 31) as Hts1.
  { destruct T as [(h & _ & Q) _ _ _]. rewrite (half_timestamp _ _ (q_lsm _ _ Q)). exact Hts. }
  set (t1 := checked_in dt t) in *. clearbody t1. destruct (negb (imrsim_target_ready_locked _)); [injection E as <- <- _; by apply (life_refused len H A)|].
  destruct cmd as [key|offset length| | | | | | | | | | | | | |]; try done; cbv zeta in E.
  - destruct copied; [|injection E as <- <- _; by apply (life_refused len H A)]. cbn [negb] in E. unfold imrsim_lsm_delete_key in E. 
    destruct (negb (imrsim_target_ready_locked _)); [injection E as <- <- _; exists H, A; split; [by constructor|]; by eapply life_tuned, tuned_quiet|].
    destruct (imr_lsm_zone_copy_overlaps_locked _ _ _); [done|]. cbn in E. destruct (imrsim_lsm_delete_key_locked key (tg_state t1)) as [s r] eqn:Ek. injection E as <- <- _.
    destruct (inv_delete_key fl n w d H A (tg_state t1) key s r (li_disk _ _ _ _ Hl1) ltac:(lia) Hok Ek) as [_ [[-> (H' & Hi)]|[Hr Hi]]].
    + exists H'. eexists. split; [constructor|]. by eapply life_state.
    + replace (r =? 0) with false by lia. exists H, A. split; [by constructor|]. by eapply life_state.
  - destruct (negb _); [injection E as <- <- _; by apply (life_refused len H A)|]. destruct (imrsim_lsm_discard_lba_range_locked _ _ _) as [s r] eqn:Ek. injection E as <- <- _.
    destruct Hok as [Ho Hle]. cbn [ioctl_label]. rewrite !Z.shiftr_div_pow2 in * by lia. change (2 ^ 9) with 512 in *.
    destruct (inv_discard fl n w d H A (tg_state t1) (offset / 512) (length / 512) s r (li_disk _ _ _ _ Hl1) ltac:(lia) ltac:(apply Z.div_pos; lia) ltac:(apply Z.div_pos; lia) ltac:(Z.to_euclidean_division_equations; lia) Ek) as (_ & H' & m & Hm & Hr & Hi).
    exists H'. eexists. split; [|by eapply life_state]. cbn [fst snd]. destruct (Z.eqb_spec r 0) as [->|Hne]; cbn [negb]; [rewrite (Hr eq_refl); constructor|by constructor].
Qed.

Lemma life_ioctl_ok len H A t d fl n w p dt cmd copied t' ret reply :
  life_inv len H A (MkLife t d fl n w p) -> ioctl_ok cmd -> within (MkDisk (tg_state t) d fl n w) -> (resets cmd = true -> fl = [] /\ w = Compacting Idle) ->
  imrsim_ioctl dt cmd copied t = Some (t', ret, reply) ->
  exists H' A', permitted A (ioctl_label len cmd ret) A' /\ life_inv len H' A' (MkLife t' d fl n w p).
Proof.
  intros Hl Hok [Hts _] Hidle E. destruct (resets cmd) eqn:Er.
  - destruct (Hidle eq_refl) as [-> ->]. pose proof Hl as [L1 L2 L3 L4 [L6 L7] L5]. cbn in L3, L6, L7.
    assert (ioctl_label len cmd ret = if ret =? 0 then Discarded 0 len true else Silent) as -> by (destruct cmd; try done).
    pose proof (ioctl_reset_spec (IMR_NUMZONES (tg_state t)) dt cmd copied t t' ret reply Er (im_num _ L2) L7 ltac:(by rewrite L6) E) as [[Hr Ht]|[-> (t1 & t2 & T1 & Hrn & T2)]].
    + replace (ret =? 0) with false by lia. exists H, A. split; [constructor|]. by eapply life_tuned.
    + assert (IMR_NUMZONES (tg_state t1) = IMR_NUMZONES (tg_state t)) as En by (destruct T1 as [(h & _ & Q) _ _ _]; exact (num_zhalf _ _ (q_zone _ _ Q))).
      rewrite <- En in Hrn. eexists _, _. split; [constructor|]. eapply life_tuned; [|exact T2]. eapply life_renewed; [|exact Hrn]. by eapply life_tuned.
  - destruct (deletes cmd) eqn:Ed.
    2: { assert (ioctl_label len cmd ret = Silent) as -> by (by destruct cmd). exists H, A. split; [constructor|]. eapply life_tuned; [exact Hl|]. by eapply ioctl_tuned. }
    apply (life_delete_ok len H A t d fl n w p dt cmd copied t' ret reply); done.
Qed.

Lemma life_step_ok len H A x l y : life_inv len H A x -> life_step crc32 len x l y -> (forall c, Collected c ∈ l -> c = true) ->
  exists H' A', permitted_trace A l A' /\ life_inv len H' A' y.
Proof.
  intros Hl Hst Hc. pose proof Hl as [L1 L2 L3 L4 L6 L5]. assert (0 <= len <= IMR_MAX_CAPACITY) as Hlen.
  { pose proof (im_num _ L2). change num_sectors_zone with 524288 in L3. unfold IMR_MAX_CAPACITY. lia. }
  destruct Hst as [x tr y Hrun|t d fl n w capacity t' r E|t d fl n w sn s' d' ret E|t d fl n w sn ret|t d fl n w p dt cmd copied t' ret reply Hok Hw Hidle E|t d n a ts ds t1 d1 t2 d2 Es Ed Ea Ec].
  - destruct (disk_steps_ok len _ _ _ _ Hlen Hrun H A L1 Hc) as (H' & A' & Hp & Hinv). exists H', A'. split; [done|]. destruct x, y. by eapply life_state.
  - exists H, A. split; [constructor|]. unfold imrsim_capture_persistence_snapshot_locked in E. cbv zeta in E. cbn in L4. destruct (_ || _); [by injection E as <- <-|].
    destruct (_ >? _); [by injection E as <- <-|]. injection E as <- <-. apply (life_quiet len H A t d fl n w Asleep); [done|done|]. intros sn [= <-]. cbn. split; [done|].
    pose proof (im_stats _ L2) as E2. pose proof (im_num _ L2) as E3. cbn in E2, E3. lia.
  - exists H, A. split; [constructor|]. destruct (L5 sn eq_refl) as [E1 E2]. destruct (flush_below _ _ _ _ _ _ _ E (di_dev _ _ _ L1) E2) as ((h & Hh & ->) & Hd' & Hb).
    assert (life_inv len H A (MkLife t d fl n w (Flushed sn ret))) as Hl' by (by split). eapply life_state; [exact Hl'|].
    apply (inv_behind _ _ _ _ _ _ _ (inv_heap _ _ _ _ _ _ _ L1 h Hh)); [apply (di_site _ _ _ L1)|done|]. intros b Hb'. apply Hb. rewrite E1, <- L3. exact Hb'.
  - exists H, A. split; [constructor|]. destruct (negb _); [|by split]. by eapply life_quiet; [exact Hl|apply quiet_restore|].
  - destruct (life_ioctl_ok len H A t d fl n w p dt cmd copied t' ret reply Hl Hok Hw Hidle E) as (H' & A' & Hp & Hl'). exists H', A'. split; [|done].
    econstructor; [exact Hp|constructor].
  - exists (fun _ => None), A. split; [constructor|]. by destruct (restart_inv H A len t d n ts ds t1 d1 a t2 d2 Hl Es Ed Ea Ec).
Qed.

Lemma permitted_app A l A1 tr A2 : permitted_trace A l A1 -> permitted_trace A1 tr A2 -> permitted_trace A (l ++ tr) A2.
Proof. induction 1 as [|A0 l1 A3 l2 A4 Hp _ IH]; intros Ht; [done|]. cbn. econstructor; [exact Hp|by apply IH]. Qed.

Lemma life_steps_ok len x tr y : life_steps crc32 len x tr y -> forall H A, life_inv len H A x -> (forall c, Collected c ∈ tr -> c = true) ->
  exists H' A', permitted_trace A tr A' /\ life_inv len H' A' y.
Proof.
  induction 1 as [x|x l y tr z Hst _ IH]; intros H A Hl Hc; [exists H, A; split; [constructor|done]|].
  destruct (life_step_ok len H A x l y Hl Hst) as (H1 & A1 & Hp & Hl1); [intros c Hin; apply Hc, elem_of_app; by left|].
  destruct (IH H1 A1 Hl1) as (H2 & A2 & Hp2 & Hl2); [intros c Hin; apply Hc, elem_of_app; by right|]. exists H2, A2. split; [by eapply permitted_app|done].
Qed.
End cycle.
