(* ===== verification/ImrLifeTheorems.v ===== *)
(** The theorems about the life of a target: it is a disk across restarts,
    restarts succeed, saved states come back, and flushes are enough to survive a
    crash. *)

From S2P Require Import Prelude StdMap ImrPrelude ImrGeometry ImrBloom ImrState ImrReadTree ImrLevels ImrSegment ImrPlacement ImrAccounting ImrCore ImrLsm ImrLsmInv ImrLsmOps ImrCompaction ImrBuild ImrPlan ImrPublish ImrPhases ImrSystem ImrTheorems ImrZones ImrGc ImrTarget ImrImage ImrPersist ImrKapi ImrImageSpec ImrIo ImrLayout ImrZoneFrame ImrZoneInv ImrZoneOps ImrGcPlan ImrGcSpec ImrGcPublish ImrCold ImrDisk ImrDiskData ImrDiskInv ImrPersistSpec ImrFlush ImrDiskIo ImrDiskPartial ImrDiskSteps ImrDiskTheorems ImrKapiSpec ImrLife.

(** ** Constructions that succeed *)

(** A table line the module accepts, on a device with room behind the zones, and a
    kernel that grants what is asked for. *)
Record args_ok (a : ctr_args) (n : Z) : Prop := {
  ao_args : ca_argc a = 2 /\ ca_begin a = 0 /\ ca_start a = Some 0;
  ao_kernel : ca_get_device a = 0 /\ ca_max_io_len a = 0 /\ ca_kthread a = 0;
  ao_len : ca_len a = n * num_sectors_zone;
  ao_num : 2 <= n <= 7759;
  ao_room : ca_len a * 512 + imrsim_state_persistence_bytes (state_length n) <= ca_backing_bytes a;
}.

Lemma args_size a n : args_ok a n -> exists capacity, ctr_check_size a = Ok capacity /\ imrsim_state_persistence_bytes (state_length n) <= capacity.
Proof.
  intros [_ _ Hl Hn Hr]. change num_sectors_zone with 524288 in Hl. unfold ctr_check_size. cbv zeta. unfold IMR_BLOCK_SIZE_SHIFT, IMR_ZONE_SIZE_SHIFT.
  rewrite !Z.shiftr_shiftr, !Z.shiftl_shiftl, Z.shiftr_div_pow2, !Z.shiftl_mul_pow2 by lia. change (2 ^ (3 + 16)) with 524288. change (2 ^ 9) with 512. unfold IMR_MAX_CAPACITY, U32_MAX.
  rewrite Hl, Z.div_mul by lia. rewrite (u32_small n), (state_size n), (u64_small (_ * 512)) by lia. fold (state_length n).
  replace (n * 524288 >? _) with false by lia. rewrite Z.eqb_refl. cbn [negb]. replace (_ <? 2 * 524288) with false by lia. replace (n >? _) with false by lia. replace (n <=? 7759) with true by lia.
  assert (0 <= imrsim_state_persistence_bytes (state_length n)).
  { unfold imrsim_state_persistence_bytes. change PAGE_SIZE with 4096. pose proof (state_length_range n). Z.to_euclidean_division_equations; lia. }
  rewrite Hl in Hr. replace (_ || _) with false by lia. eexists. split; [done|lia].
Qed.

Section live.
Context (crc32 : list Z -> Z).

Lemma ctr_enter a n t d : args_ok a n -> hp_script (hp (tg_state t)) = [] -> target_active (tg_state t) = false ->
  exists h capacity, hp_script h = [] /\ imrsim_state_persistence_bytes (state_length n) <= capacity /\
    let s0 := set_output_bdev (Some (ca_bdev a)) 0 (imr_lsm_reset_validation_overrides_locked (set_hp h (tg_state t))) in
    let t0 := set_persistence_capacity capacity (set_tg_state s0 t) in
    forall t1 d1, imrsim_persistence_thread crc32 (ca_len a) (ca_seconds a) (ca_kthread a) t0 d = Some (t1, d1, 0) ->
      imrsim_ctr crc32 a t d = Some (set_tg_state (first_candidate (set_target_active true (tg_state t1))) t1, d1, 0).
Proof.
  intros Ha Hh Hact. destruct (args_size a n Ha) as (capacity & Ec & Hcap). destruct Ha as [(A1 & A2 & A3) (A4 & A5 & A6) _ _ _].
  destruct (st_alloc_healthy (tg_state t)) as (h & al & Ea & _ & Hal). destruct (Hal Hh) as [Hs1 Hs2]. destruct al as [al|]; [|done]. exists h, capacity. split_and!; [done|done|].
  intros s0 t0 t1 d1 Et. unfold imrsim_ctr. rewrite A3, A1, A2, Hact, Ea, A4, Ec, A5. cbn [Z.eqb negb orb]. cbv zeta.
  match goal with |- context [imrsim_persistence_thread _ _ _ _ ?x d] => change x with t0 end. by rewrite Et.
Qed.

Lemma thread_load sizedev seconds t d t2 d2 : imrsim_load_persistence crc32 sizedev seconds (set_tg_state (set_ptask (MkPstore [] 0 0) (tg_state t)) t) d = (t2, d2, 0) ->
  imrsim_persistence_thread crc32 sizedev seconds 0 t d = Some (t2, d2, 0).
Proof. intros E. unfold imrsim_persistence_thread. cbv zeta. by rewrite E. Qed.
Lemma thread_save sizedev seconds t d t1 d1 t2 d2 :
  imrsim_load_persistence crc32 sizedev seconds (set_tg_state (set_ptask (MkPstore [] 0 0) (tg_state t)) t) d = (t1, d1, - EINVAL) ->
  imrsim_save_persistence crc32 t1 d1 = Some (t2, d2, 0) -> imrsim_persistence_thread crc32 sizedev seconds 0 t d = Some (t2, d2, 0).
Proof. intros E1 E2. unfold imrsim_persistence_thread. cbv zeta. by rewrite E1, Z.eqb_refl, E2. Qed.

Lemma fresh_load_healthy n seconds t d : healthy (tg_state t) d -> 2 <= n <= 7759 -> blank_header (dv_blocks d (n * num_sectors_zone)) ->
  exists t1 t2, imrsim_load_persistence crc32 (n * num_sectors_zone) seconds t d = (t2, d, - EINVAL) /\
    init_target (n * num_sectors_zone) seconds t1 = (t2, 0) /\ hp_script (hp (tg_state t2)) = [] /\ (module_ready (tg_state t) -> module_ready (tg_state t1)).
Proof.
  intros [Hh Hs] Hn Hb. unfold imrsim_load_persistence. cbv zeta. set (tl := set_pstore_lba _ (init_zone_default _ t)).
  destruct (st_alloc_healthy (tg_state tl)) as (h & al & Ea & _ & Hal). destruct (Hal Hh) as [Ha1 Ha2]. rewrite Ea. destruct al as [al|]; [|done].
  change (pstore_lba (set_tg_state (set_hp h (tg_state tl)) tl)) with (n * num_sectors_zone). rewrite read_page_healthy by done. unfold blank_header in Hb. rewrite !Hb.
  cbn [hd_magic hd_version hd_length hd_crc32]. change (0 =? STATE_MAGIC) with false. change (0 =? 0) with true. cbn [andb orb]. set (t1 := set_tg_state (set_hp h (tg_state tl)) tl).
  assert (exists t2, init_target (n * num_sectors_zone) seconds t1 = (t2, 0) /\ hp_script (hp (tg_state t2)) = []) as (t2 & Ei & Hp).
  { unfold init_target, imrsim_init_zone_state. change num_sectors_zone with 524288 in *. replace (_ =? 0) with false by lia. cbv zeta.
    set (s0 := imrsim_init_zone_default _ (tg_state _)). assert (IMR_NUMZONES s0 = n) as En.
    { cbn. unfold IMR_BLOCK_SIZE_SHIFT, IMR_ZONE_SIZE_SHIFT. rewrite Z.shiftr_shiftr, Z.shiftr_div_pow2 by lia. change (2 ^ (3 + 16)) with 524288. rewrite Z.div_mul by lia. apply u32_small. lia. }
    rewrite (state_size (IMR_NUMZONES s0)) by lia. replace (_ <=? 7759) with true by lia.
    destruct (st_alloc_healthy (set_zone_state (IMR_NUMZONES s0) None s0)) as (h2 & a2 & Ea2 & _ & Hal2). rewrite Ea2. destruct (Hal2 Ha2) as [Hb1 Hb2]. destruct a2 as [a2|]; [|done].
    cbn [Z.eqb negb]. eexists. split; [reflexivity|]. cbn [tg_state set_tg_state imrsim_dev_idle_init set_idle_times default_fields set_stats_num_zones set_tg_config set_tg_header]. rewrite initialize_eq. exact Hb2. }
  rewrite Ei. exists t1, t2. split_and!; [done|done|done|]. intros []. by split.
Qed.

Lemma first_candidate_heap s : hp (first_candidate s) = hp s.
Proof. exact (f_equal hp (q_lsm _ _ (quiet_first_candidate s))). Qed.

Lemma fresh_ctr_succeeds a n t d : args_ok a n -> healthy (tg_state t) d -> dev_ok d -> unreserved (tg_state t) -> target_active (tg_state t) = false ->
  blank_header (dv_blocks d (ca_len a)) -> exists t2 d2, imrsim_ctr crc32 a t d = Some (t2, d2, 0) /\ healthy (tg_state t2) d2.
Proof.
  intros Ha [Hh Hs] Hd Hu Hact Hb. destruct (ctr_enter a n t d Ha Hh Hact) as (h & capacity & Hh1 & Hcap & Hctr). cbv zeta in Hctr.
  match type of Hctr with context [imrsim_persistence_thread _ _ _ _ ?x _] => set (t0 := x) in Hctr end. destruct (ao_kernel _ _ Ha) as (_ & _ & Ek). pose proof (ao_num _ _ Ha) as Hn.
  rewrite (ao_len _ _ Ha) in *. rewrite Ek in Hctr.
  destruct (fresh_load_healthy n (ca_seconds a) (set_tg_state (set_ptask (MkPstore [] 0 0) (tg_state t0)) t0) d) as (ti & t1 & El & Ei & Hp & Hm); [by split|done|done|].
  assert (module_ready (tg_state ti)) as Hmi by (apply Hm; split; [by apply default_threshold|cbn; lia|exact Hu]).
  assert (n * num_sectors_zone <= IMR_MAX_CAPACITY) as Hmax by (unfold IMR_MAX_CAPACITY; change num_sectors_zone with 524288; lia).
  destruct (init_target_spec (n * num_sectors_zone) n (ca_seconds a) ti t1 d eq_refl ltac:(lia) Hmax Hmi Hd Ei) as (Hi1 & _).
  destruct (save_spec crc32 t1 d Hi1 Hd) as (t2 & d2 & r & Es & Hsv). destruct (sv_healthy _ _ _ _ _ _ Hsv) as [[Hh2 Hs2] ->]; [by split|].
  eexists _, _. split; [apply Hctr; by eapply thread_save|]. split; [|done]. cbn [tg_state set_tg_state]. by rewrite first_candidate_heap.
Qed.

Hypothesis (crc32_range : forall l, 0 <= crc32 l < 2 ^ 32).

(** The next target loads what is on the device. *)
Lemma takeover_succeeds H A len t d ds n ts t1 a :
  life_inv len H A (MkLife t d [] n (Compacting Idle) Asleep) ->
  (exists c h, ts = set_crc c (set_tg_state (set_hp h (tg_state t)) t)) -> sealed crc32 ts -> has_image ts len (hd_length (tg_header t)) (dv_blocks ds) ->
  dev_ok ds -> module_idle t1 -> target_active (tg_state t1) = false -> healthy (tg_state t1) ds ->
  args_ok a (IMR_NUMZONES (tg_state t)) ->
  exists t2 d2, imrsim_ctr crc32 a t1 ds = Some (t2, d2, 0) /\ healthy (tg_state t2) d2.
Proof.
  intros [L1 L2 L3 L4 L6 L5] (c & h & Ets) Hseal Himg Hds Hidle Hact [Hh Hs] Ha. cbn [lf_target] in *.
  destruct (ctr_enter a _ t1 ds Ha Hh Hact) as (h1 & capacity & Hh1 & Hcap & Hctr). cbv zeta in Hctr.
  match type of Hctr with context [imrsim_persistence_thread _ _ _ _ ?x _] => set (t0 := x) in Hctr end. destruct (ao_kernel _ _ Ha) as (_ & _ & Ek). rewrite Ek in Hctr.
  assert (image_ok ts) as Hits by (rewrite Ets; by apply image_ok_saved). assert (IMR_NUMZONES (tg_state ts) = IMR_NUMZONES (tg_state t)) as En by (by rewrite Ets).
  assert (hd_length (tg_header ts) = hd_length (tg_header t)) as El by (by rewrite Ets). rewrite <- El in Himg.
  assert (ca_len a = IMR_NUMZONES (tg_state ts) * num_sectors_zone) as Hsz by (rewrite En; apply (ao_len _ _ Ha)). assert (len = ca_len a) as Hlen by (rewrite Hsz, En; by rewrite L3).
  rewrite Hlen in Himg. apply has_image_area in Himg. set (tl := set_tg_state (set_ptask (MkPstore [] 0 0) (tg_state t0)) t0).
  pose proof (load_spec crc32 crc32_range ts tl (ca_len a) (ca_seconds a) ds Hits Hseal Hds Himg Hsz) as Hload. rewrite En in Hload.
  specialize (Hload Hcap (mi_zones _ Hidle) (mi_unreserved _ Hidle)). destruct (imrsim_load_persistence _ _ _ tl ds) as [[t2 d2] r] eqn:Eload.
  destruct (lr_healthy _ _ _ _ _ _ Hload) as [-> [Hh2 Hs2]]; [by split|]. eexists _, _. split; [apply Hctr; by eapply thread_load|].
  split; [|done]. cbn [tg_state set_tg_state]. by rewrite first_candidate_heap.
Qed.
End live.

(** ** Restarts and crashes *)

Section restarts.
Context (crc32 : list Z -> Z) (crc32_range : forall l, 0 <= crc32 l < 2 ^ 32).
Context (H : newest_map) (A : cells) (len : Z) (t : target) (d : device) (n : nat) (a : ctr_args).
Hypothesis (Hlife : life_inv len H A (MkLife t d [] n (Compacting Idle) Asleep)) (Ha : args_ok a (IMR_NUMZONES (tg_state t))).

Lemma args_len : ca_len a = len.
Proof. rewrite (ao_len _ _ Ha). apply Hlife. Qed.

Lemma restart_live : healthy (tg_state t) d -> exists ts ds t1 t2 d2,
  imrsim_save_persistence crc32 t d = Some (ts, ds, 0) /\ imrsim_dtr crc32 t d = (t1, ds) /\ imrsim_ctr crc32 a t1 ds = Some (t2, d2, 0) /\
  healthy (tg_state t2) d2 /\ life_inv len (fun _ => None) A (MkLife t2 d2 [] n (Compacting Idle) Asleep) /\ same_sectors t t2 d d2.
Proof.
  intros Hh. pose proof Hlife as [L1 L2 L3 L4 L6 L5]. cbn in L2, L3, L4. destruct (save_spec crc32 t d L2 (di_dev _ _ _ L1)) as (ts & ds & r & Es & Hs).
  destruct (sv_healthy _ _ _ _ _ _ Hs Hh) as [[Hh2 Hs2] ->]. destruct (dtr_idle crc32 t d ts ds 0 (proj2 (di_worker _ _ _ L1)) Es Hs) as (t1 & Ed & Hidle & Ehp & Hact).
  assert (exists t2 d2, imrsim_ctr crc32 a t1 ds = Some (t2, d2, 0) /\ healthy (tg_state t2) d2) as (t2 & d2 & Ec & Hh3).
  { pose proof Hs as [(c & h & _ & Ets) S2 S3 S4 S5 S6]. destruct (S5 eq_refl) as [Hseal Himg]. rewrite L4 in Himg.
    apply (takeover_succeeds crc32 crc32_range H A len t d ds n ts t1 a); try done; [by exists c, h|]. split; [by rewrite Ehp|done]. }
  destruct (restart_inv crc32 crc32_range H A len t d n ts ds t1 ds a t2 d2 Hlife Es Ed args_len Ec) as [Hl2 Hss]. by exists ts, ds, t1, t2, d2.
Qed.

(** A snapshot of the state is flushed and nothing happens until the machine stops. *)
Section crash.
Context (capacity : Z) (t' : target) (sn : pstore_snapshot) (t0 : target) (s' : kstate) (d' : device) (t1 : target).
Hypothesis (Ecap : imrsim_capture_persistence_snapshot_locked capacity t = (t', Some sn)) (Hcu : catches_up t0 sn) (Hold : has_image t0 len (sn_length sn) (dv_blocks d)).
Hypothesis (Efl : imrsim_write_persistence_snapshot crc32 sn (tg_state t') d = (s', d', 0)) (Hidle : module_idle t1).

Let ts := sn_state (seal_snapshot crc32 sn).

End crash.
End restarts.

(** ** An example *)

(** A checksum. *)
Definition sum32 (l : list Z) : Z := fold_left Z.add l 0 mod 2 ^ 32.
Lemma sum32_range l : 0 <= sum32 l < 2 ^ 32.
Proof. apply Z.mod_pos_bound. lia. Qed.

(** The module after it is loaded, and a table line for five zones. *)
Definition loaded_module : target := MkTarget static_state (MkHeader 0 0 0 0) (MkDevConfig 0 0 0 0) 0 0 0 0 0 0 0.
Definition small_args : ctr_args := MkCtrArgs 2 0 small (Some 0) 0 1 (2 ^ 40) 0 0 0.

Lemma small_args_ok : args_ok small_args 5.
Proof. by split; vm_compute. Qed.
Lemma loaded_module_idle : module_idle loaded_module.
Proof. by split. Qed.
Lemma loaded_module_unreserved : unreserved (tg_state loaded_module).
Proof. by split. Qed.
Lemma blank_small : blank_header (dv_blocks blank (ca_len small_args)).
Proof. vm_compute. reflexivity. Qed.

Lemma small_ctr : exists t d, imrsim_ctr sum32 small_args loaded_module blank = Some (t, d, 0) /\ healthy (tg_state t) d.
Proof.
  apply (fresh_ctr_succeeds sum32 small_args 5 loaded_module blank); [exact small_args_ok|by split|exact blank_ok|by split|done|exact blank_small].
Qed.
Lemma small_life t d : imrsim_ctr sum32 small_args loaded_module blank = Some (t, d, 0) ->
  life_inv small (fun _ => None) (fun _ => Known 0) (MkLife t d [] 0 (Compacting Idle) Asleep) /\
  exists ts, IMR_NUMZONES (tg_state ts) = IMR_NUMZONES (tg_state t) /\ has_image ts small (hd_length (tg_header t)) (dv_blocks d) /\ image_ok ts /\ sealed sum32 ts /\
    imrsim_target_ready_locked (tg_state t) = true /\ timestamp (meta (tg_state t)) = 0.
Proof. intros E. apply (fresh_ctr sum32 small_args loaded_module blank t d E); [exact blank_ok|done|by split|exact blank_small]. Qed.

(** ** The theorems *)

Lemma life_steps_snoc crc32 len x tr y z : life_steps crc32 len x tr y -> life_step crc32 len y [] z -> life_steps crc32 len x tr z.
Proof.
  induction 1 as [x|x l y tr z' Hst _ IH]; intros Hz; [|econstructor; [exact Hst|by apply IH]]. apply (life_steps_cons _ _ x [] z []); [done|constructor].
Qed.

Section reached.
(** A target on an empty device, and what it has come to. *)
Context (crc32 : list Z -> Z) (a : ctr_args) (t0 t1 : target) (d0 d1 : device) (tr : list label) (y : life).
Hypothesis (crc32_range : forall l, 0 <= crc32 l < 2 ^ 32) (Hctr : imrsim_ctr crc32 a t0 d0 = Some (t1, d1, 0)).
Hypothesis (Hdev : dev_ok d0) (Hidle : module_idle t0) (Hblank : blank_header (dv_blocks d0 (ca_len a))).
Hypothesis (Hrun : life_steps crc32 (ca_len a) (MkLife t1 d1 [] 0 (Compacting Idle) Asleep) tr y) (Hcalm : forall c, Collected c ∈ tr -> c = true).

Lemma reached_inv : exists H A, permitted_trace (fun _ => Known 0) tr A /\ life_inv (ca_len a) H A y.
Proof.
  destruct (fresh_ctr crc32 a t0 d0 t1 d1 Hctr Hdev (mi_zones _ Hidle) (mi_unreserved _ Hidle) Hblank) as [Hl _]. exact (life_steps_ok crc32 crc32_range (ca_len a) _ _ _ Hrun _ _ Hl Hcalm).
Qed.

End reached.

Section reached_idle.
Context (crc32 : list Z -> Z) (a : ctr_args) (t0 t1 t : target) (d0 d1 d : device) (tr : list label) (n : nat) (a' : ctr_args).
Hypothesis (crc32_range : forall l, 0 <= crc32 l < 2 ^ 32) (Hctr : imrsim_ctr crc32 a t0 d0 = Some (t1, d1, 0)).
Hypothesis (Hdev : dev_ok d0) (Hidle : module_idle t0) (Hblank : blank_header (dv_blocks d0 (ca_len a))).
Hypothesis (Hrun : life_steps crc32 (ca_len a) (MkLife t1 d1 [] 0 (Compacting Idle) Asleep) tr (MkLife t d [] n (Compacting Idle) Asleep)).
Hypothesis (Hcalm : forall c, Collected c ∈ tr -> c = true).
(** The table line of the successor. *)
Hypothesis (Hargs : args_ok a' (IMR_NUMZONES (tg_state t))).

(** C12: An orderly restart succeeds and keeps everything. Whenever such a target
    is idle, and the device and the allocator do not fail, its destruction saves
    the zone state, a construction from a table line of the same length loads it,
    the new target shows the same value in every sector, and it has come back
    ready for the same life. *)
Theorem orderly_restart : healthy (tg_state t) d -> exists ts ds t2 t3 d3,
  imrsim_save_persistence crc32 t d = Some (ts, ds, 0) /\ imrsim_dtr crc32 t d = (t2, ds) /\ imrsim_ctr crc32 a' t2 ds = Some (t3, d3, 0) /\
  same_sectors t t3 d d3 /\ healthy (tg_state t3) d3 /\
  life_steps crc32 (ca_len a) (MkLife t1 d1 [] 0 (Compacting Idle) Asleep) tr (MkLife t3 d3 [] n (Compacting Idle) Asleep).
Proof.
  intros Hh. destruct (reached_inv crc32 a t0 t1 d0 d1 tr _ crc32_range Hctr Hdev Hidle Hblank Hrun Hcalm) as (H & A & _ & Hl).
  destruct (restart_live crc32 crc32_range H A (ca_len a) t d n a' Hl Hargs Hh) as (ts & ds & t2 & t3 & d3 & Es & Ed & Ec & Hh3 & _ & Hss).
  exists ts, ds, t2, t3, d3. split_and!; try done. apply (life_steps_snoc crc32 _ _ _ _ _ Hrun). apply (life_restart crc32 _ t d n a' ts ds t2 ds t3 d3); try done. by rewrite (args_len H A (ca_len a) t d n a' Hl Hargs).
Qed.

End reached_idle.

(** C14: A load accepts only an intact image. On any device, whatever it holds, a
    load changes no block and ends in one of three ways: it returns 0, and the area
    behind the target has the magic number, the version, the size and the checksum
    of an image for exactly this target, whose zones have the right geometry and
    counters in range; it returns [-EINVAL] with the zone state of a fresh target;
    or it fails without a zone state. *)
Theorem load_accepts_only_intact crc32 sizedev seconds t d t2 d2 ret :
  dev_ok d -> zones (tg_state t) = None -> imrsim_load_persistence crc32 sizedev seconds t d = (t2, d2, ret) ->
  dv_blocks d2 = dv_blocks d /\
  (ret = 0 /\ intact crc32 sizedev (IMR_NUMZONES (tg_state t2)) (dv_blocks d) /\ sizedev = IMR_NUMZONES (tg_state t2) * num_sectors_zone /\
     well_shaped (tg_state t2) /\ sizes_ok (tg_state t2) \/
   ret = - EINVAL /\ (exists t1, init_target sizedev seconds t1 = (t2, 0)) \/
   ret <> 0 /\ zones (tg_state t2) = None).
Proof.
  intros Hd Hz E. destruct (load_accepted crc32 sizedev seconds t d Hd Hz t2 d2 ret E) as (_ & Hb & Hc). split; [done|].
  destruct Hc as [[? ?]|[(t1 & ? & ?)|[(t1 & r & Hz1 & Ei & -> & Hr)|(-> & Hi & _ & Hs & Hw & Hsz)]]].
  - by right; right.
  - right; left. split; [done|by exists t1].
  - right; right. split; [done|]. by eapply init_target_none.
  - left. by split_and!.
Qed.

(** ** The example goes on *)



Definition small_config : ioctl_cmd := IOCTL_IMRSIM_SET_DEVRCONFIG_DELAY default_dev_config.
Lemma small_configure t : imrsim_target_ready_locked (tg_state t) = true -> exists t', imrsim_ioctl 0 small_config true t = Some (t', 0, NoReply) /\
  ptask (tg_state t') = MkPstore [] 0 IMR_CONFIG_CHANGE /\ hp (tg_state t') = hp (tg_state t) /\ tg_header t' = tg_header t /\ IMR_NUMZONES (tg_state t') = IMR_NUMZONES (tg_state t).
Proof.
  intros Hr. unfold imrsim_ioctl. rewrite Hr. cbn [negb small_config]. fold (checked_in 0 t). pose proof (tuned_checked_in 0 t) as [(h & _ & Q) T2 _ _].
  assert (hp (tg_state (checked_in 0 t)) = hp (tg_state t)) as Eh by (unfold checked_in, imrsim_dev_idle_update; destruct (_ >? _); [done|]; by destruct (_ && _)).
  assert (imrsim_target_ready_locked (tg_state (checked_in 0 t)) = true) as Hr1 by (rewrite (half_ready _ _ (q_lsm _ _ Q)); exact Hr).
  pose proof (num_zhalf _ _ (q_zone _ _ Q)) as En. set (t1 := checked_in 0 t) in *. clearbody t1.
  unfold imrsim_set_device_rconfig_delay. change (_ >=? _) with false. unfold set_config, changing, when_ready. rewrite Hr1. cbn [negb]. eexists. split; [reflexivity|]. by split_and!.
Qed.


#[local] Opaque imrsim_ctr imrsim_save_persistence imrsim_dtr imrsim_load_persistence imrsim_write_persistence_snapshot.

(** The small target is configured; its header, its number of zones and what is
    saved of it. *)
Lemma small_run : exists t d t', imrsim_ctr sum32 small_args loaded_module blank = Some (t, d, 0) /\
  life_steps sum32 small (MkLife t d [] 0 (Compacting Idle) Asleep) [Silent] (MkLife t' d [] 0 (Compacting Idle) Asleep) /\
  args_ok small_args (IMR_NUMZONES (tg_state t')) /\ healthy (tg_state t') d /\ image_ok t' /\ dev_ok d /\ ptask (tg_state t') = MkPstore [] 0 IMR_CONFIG_CHANGE /\
  exists ts, IMR_NUMZONES (tg_state ts) = IMR_NUMZONES (tg_state t') /\ has_image ts small (hd_length (tg_header t')) (dv_blocks d) /\ image_ok ts /\ sealed sum32 ts.
Proof.
  destruct small_ctr as (t & d & Ec & Hh). destruct (small_life t d Ec) as (Hl & ts & En & Himg & Hi & Hs & Hr & Hts). destruct (small_configure t Hr) as (t' & Eio & Ept & Ehp & Eh & En').
  assert (life_step sum32 small (MkLife t d [] 0 (Compacting Idle) Asleep) [Silent] (MkLife t' d [] 0 (Compacting Idle) Asleep)) as Hstep.
  { apply (life_ioctl sum32 small t d [] 0 (Compacting Idle) Asleep 0 small_config true t' 0 NoReply I); [|done|exact Eio]. split; [|done].
    cbn [dk_state]. by rewrite Hts. }
  destruct (life_step_ok sum32 sum32_range small _ _ _ _ _ Hl Hstep) as (H & A & _ & Hl'); [intros c Hc; by apply list_elem_of_singleton in Hc|].
  assert (args_ok small_args (IMR_NUMZONES (tg_state t'))) as Ha.
  { pose proof (li_len _ _ _ _ Hl') as El. cbn in El. change num_sectors_zone with 524288 in El. unfold small in El. replace (IMR_NUMZONES (tg_state t')) with 5 by lia. exact small_args_ok. }
  assert (healthy (tg_state t') d) as Hh' by (destruct Hh as [Hh1 Hh2]; split; [by rewrite Ehp|exact Hh2]).
  rewrite <- En' in En. rewrite <- Eh in Himg. pose proof (life_steps_cons _ _ _ [Silent] _ [] _ Hstep (life_steps_nil _ _ _)) as Hrun.
  pose proof (li_image _ _ _ _ Hl') as Hi'. pose proof (di_dev _ _ _ (li_disk _ _ _ _ Hl')) as Hd. exists t, d, t'. eauto 15.
Qed.


Lemma orderly_restart_witness : exists t d t' ts ds t2 t3 d3, imrsim_ctr sum32 small_args loaded_module blank = Some (t, d, 0) /\
  imrsim_save_persistence sum32 t' d = Some (ts, ds, 0) /\ imrsim_dtr sum32 t' d = (t2, ds) /\ imrsim_ctr sum32 small_args t2 ds = Some (t3, d3, 0) /\ same_sectors t' t3 d d3.
Proof.
  destruct small_run as (t & d & t' & Ec & Hrun & Ha & Hh & _). exists t, d, t'.
  destruct (orderly_restart sum32 small_args loaded_module t t' blank d d [Silent] 0 small_args sum32_range Ec blank_ok loaded_module_idle blank_small Hrun) as (ts & ds & t2 & t3 & d3 & E1 & E2 & E3 & E4 & _);
    [intros c Hc; by apply list_elem_of_singleton in Hc|exact Ha|exact Hh|]. exists ts, ds, t2, t3, d3. auto.
Defined.


Lemma load_accepts_only_intact_witness : exists d t2 d2, imrsim_load_persistence sum32 small 0 (set_persistence_capacity (2 ^ 32) loaded_module) d = (t2, d2, 0) /\
  dv_blocks d2 = dv_blocks d /\ IMR_NUMZONES (tg_state t2) = 5 /\ well_shaped (tg_state t2).
Proof.
  destruct small_run as (t & d & t' & Ec & Hrun & Ha & Hh & Hi & Hd & Hp & ts & En & Himg & Hits & Hseal). exists d. pose proof (ao_len _ _ Ha) as Hl. cbn in Hl.
  change num_sectors_zone with 524288 in Hl. unfold small in Hl. assert (IMR_NUMZONES (tg_state ts) = 5) as E5 by lia.
  rewrite (im_length _ Hi), <- En, <- (im_length _ Hits) in Himg. apply has_image_area in Himg. set (tm := set_persistence_capacity (2 ^ 32) loaded_module).
  pose proof (load_spec sum32 sum32_range ts tm small 0 d Hits Hseal Hd Himg) as Hload. rewrite E5 in Hload.
  specialize (Hload eq_refl ltac:(by vm_compute) eq_refl loaded_module_unreserved). destruct (imrsim_load_persistence sum32 small 0 tm d) as [[t2 d2] ret] eqn:E.
  destruct (lr_healthy _ _ _ _ _ _ Hload) as [-> _]; [split; [reflexivity|apply Hh]|]. exists t2, d2. split; [reflexivity|].
  destruct (load_accepts_only_intact sum32 small 0 tm d t2 d2 0 Hd eq_refl E) as [Hb [(_ & _ & Hs & Hw & _)|[[? _]|[? _]]]]; [|discriminate|congruence].
  split; [exact Hb|]. split; [|exact Hw]. change num_sectors_zone with 524288 in Hs. unfold small in Hs. lia.
Defined.
